(* ===== verification/_CoqProject ===== *)
-Q . S2P
Prelude.v
StateMonad.v
GatewayBoard.v
Gsm7.v
PduEncode.v
PduDecode.v
PduBits.v
PduFacts.v
PduRoundTrip.v
PduDelivery.v
PduDecodeFacts.v
AtParser.v
AtProtocol.v
AtEngine.v
AtEngineFacts.v
SmsMessage.v
Nvs.v
SmsStore.v
SmsStoreFacts.v
SmsStoreSpec.v
GatewaySecurity.v
GatewayDiag.v
GatewayDiagFacts.v
NetworkService.v
NetworkFacts.v
NetworkReconnect.v
GatewaySecurityFacts.v
ApiIdempotency.v
ApiIdempotencyFacts.v
SmsService.v
SmsServiceFacts.v
SmsServiceSample.v
SmsServiceInbound.v
SmsServicePersist.v
SmsServiceTurn.v
SmsServiceSend.v
SmsServiceRestart.v
SmsServiceApi.v
SmsServiceSystem.v
OtaVersionPolicy.v
ModemStatus.v
ModemManager.v
ModemManagerFacts.v
ModemManagerRun.v
ModemManagerLive.v
UsbDescriptor.v
UsbTransport.v
UsbTransportFacts.v
UsbTransportProbe.v
UsbModeSwitch.v
ModemCore.v
DisplayDraw.v
ApiCommon.v
RateLimiter.v
Http.v
MqttConfig.v
MqttConfigFacts.v
ProvisioningPortal.v
PortalFacts.v
MqttRx.v
MqttDiscovery.v
OtaService.v
OtaServiceFacts.v
ApiServer.v
MqttService.v
DisplayService.v
AppMain.v
ApiSample.v
ApiServerFacts.v
MqttFacts.v
MqttCertificate.v
MqttCommands.v
ApiListing.v
MqttReplay.v
MqttReplayLive.v
ApiConfig.v
ApiFirmware.v
ApiFirmwareFacts.v
ApiStatus.v
ApiRoutes.v
