(* ===== verification/Prelude.v ===== *)
(** * Verification of the ESP32 SMS gateway

    The gateway is firmware that turns a USB modem into an SMS gateway.  This
    library is a shallow embedding of its core, the path of a message between
    its users, the flash and the modem's serial line, with the theorems that
    make it correct.

    ** The program, and where it is modelled

    [
    src/components/...          file                    what it is
    at_engine/at_parser.c       AtParser                bytes to lines and prompts
    at_engine/at_protocol.c     AtProtocol              final results, URCs
    at_engine/at_router.c       AtProtocol              URC or response line
    at_engine/at_engine.c       AtEngine                transactions and retries
    sms_codec/sms_gsm7.c        Gsm7                    UTF-8, GSM 7-bit alphabet
    sms_codec/sms_pdu.c         PduEncode, PduDecode    SUBMIT, DELIVER, reports
    sms_store/sms_store.c       SmsMessage, SmsStore    records in flash
    (NVS of ESP-IDF)            Nvs                     interfaces, not code
    sms_service/sms_service.c   SmsService              receive, assemble, send
    api_idempotency/            ApiIdempotency          idempotency keys in flash
    gateway_security/           GatewaySecurity         the API token
    ota_service/ota_version_policy.c
                                OtaVersionPolicy        which firmware may follow
    ota_service/ota_service.c   OtaService              update sessions
    modem_manager/modem_status.c
                                ModemStatus             the modem's status lines
    modem_manager/modem_manager.c, modem_recovery_policy.c
                                ModemManager            sessions, polls, recovery
    modem_core/modem_core.c     ModemCore               who is told what
    usb_modem_transport/usb_modem_descriptor.c, huawei_mode_switch.c
                                UsbDescriptor           the modem's USB interface
    usb_modem_transport/usb_modem_transport.c
                                UsbTransport            worker, callbacks, probing
                                UsbModeSwitch           modems that start as storage
    gateway_diag/gateway_diag.c GatewayDiag             resets, crashes, safe mode
    network_service/network_service.c
                                NetworkService          Wi-Fi, life of the portal
    network_service/provisioning_portal.c
                                ProvisioningPortal      form, pages, DNS
    display_service/display_service.c
                                DisplayDraw             pages, strips, letters
                                DisplayService          buttons, when it is lit
    main/app_main.c             AppMain                 start, port of two servers
    api_common/api_common.c     ApiCommon, RateLimiter  validation, token buckets
    api_server/api_server.c     Http                    requests, JSON, replies
                                ApiServer               checks, messages
                                ApiConfig               settings, modem, journal
                                ApiFirmware             uploads
                                ApiStatus               the status page
                                ApiRoutes               routes
    board/gateway_board.c       GatewayBoard            host power, over-current
    gateway_settings/, mqtt_service/mqtt_command_policy.c
                                MqttConfig              the MQTT settings
    mqtt_service/mqtt_service.c MqttRx                  fragments of payloads
                                MqttDiscovery           published JSON
                                MqttService             worker, client, replay
    ]

    The other files hold proofs, each requiring the models it is about:
    AtEngineFacts; PduBits, PduFacts, PduRoundTrip, PduDelivery and
    PduDecodeFacts for the codec; SmsStoreFacts and SmsStoreSpec for the store;
    SmsServiceFacts, SmsServiceInbound, SmsServicePersist, SmsServiceTurn,
    SmsServiceSend, SmsServiceRestart and SmsServiceSystem for the service,
    with SmsServiceSample for its examples; ApiIdempotencyFacts;
    ModemManagerFacts, ModemManagerRun and ModemManagerLive for the modem
    manager; MqttConfigFacts, GatewaySecurityFacts and OtaServiceFacts;
    ApiServerFacts, ApiListing and ApiFirmwareFacts for the HTTP interface,
    with ApiSample for its examples; MqttFacts, MqttCertificate, MqttCommands,
    MqttReplay and MqttReplayLive for the MQTT service; GatewayDiagFacts;
    NetworkFacts and NetworkReconnect for Wi-Fi; UsbTransportFacts and
    UsbTransportProbe for the USB transport; PortalFacts for the setup portal;
    the theorems on ModemCore, MqttRx, UsbDescriptor, UsbModeSwitch,
    OtaVersionPolicy, AppMain and the display stand behind their models.  StateMonad is the state
    monad of the later components, with what commands keep ([keeps]), their
    Hoare triples ([triple]) and commands on a part of the state ([zoom]).

    How the parts interact: the worker of at_engine feeds received bytes to
    the parser, classifies the lines with the protocol and hands unsolicited
    lines to a callback, which is [sms_service_handle_urc]; the service's task
    executes requests on the engine (here the field [env_execute] of
    [environment]), encodes and decodes with the codec, and keeps messages in
    the store, which keeps them in NVS.  Other tasks (HTTP, MQTT) call
    [sms_service_send], [_delete], [_retry_uncertain], [_list] and [_get].  The
    handlers of api_server work on a record [gateway] of all the components
    they call, each through [zoom], so that a handler's theorem rests on the
    theorems of the components: posting a message validates it (ApiCommon),
    reserves its key (ApiIdempotency), queues it (SmsService) and settles the
    reservation.  mqtt_service works on a record [mqtt] around that [gateway],
    so that its commands use the same operations and the same journal; its
    worker takes items from a queue that the events of the MQTT client and of
    the message service fill.  The setup portal works on a record [portal] of
    the settings, the token and the network service; the network service
    starts and stops the portal's servers.  modem_core passes the events of the USB
    transport and of the modem manager on to the manager, the engine and the
    message service.

    ** Conventions

    - A [uintN_t] is a [Z] with its wrap-around written out ([u8], [u16],
      [u32]); a [size_t] that is a length is a [nat].
    - A character array is a [list Z] of its full size where the bytes behind
      the terminator matter (records), and [c_str] is the string in it; a
      [char *] that may be NULL is an [option].
    - A structure is a [Record] with the fields of the source, an enumeration
      an [Inductive] with its constructors.  A function that changes a
      structure through a pointer returns the new one.  A failing function
      returns [option], a sum or its [esp_err_t].
    - Static state ([s_store], [s_service], the engine) is a record that is
      passed and returned.
    - Code that is not in the repository is a parameter: NVS is the class
      [Nvs], with its documented behaviour in [NvsLaws]; modem, heap, clock and
      random numbers are the record [environment], whose answers may depend on
      the whole trace so far (the modem manager has a [manager_environment], Wi-Fi a
      [network_environment], USB a [usb_environment]); the transport of the AT
      engine is a pair of functions of the writes made so far.  [MemNvs] and [sample_env] are
      instances, on which the witnesses evaluate.

    ** What the theorems show

    Codec: the UTF-8 reader inverts the writer, septets survive encoding and
    packing, [sms_submit_encode] followed by the network and
    [sms_deliver_decode] gives the text back in parts that add up, the
    preflight predicts the encoder, and the decoder stays inside its arrays on
    every input.

    AT engine: the parser emits exactly the lines of its input and never
    writes outside its buffer; a URC never completes a command; a transaction
    ends, writes its command at most as often as the request allows, and a
    success means that the modem's OK followed the command; the response
    buffer gives captured lines back.

    Store: a record survives its bytes; [SmsStoreSpec] gives each operation as
    an operation on the finite map from identifiers to messages ([records]),
    under the invariant [store_inv] and for every behaviour of the flash:
    identifiers are never reused, a failed save changes nothing else, and
    pruning never takes a message that is still to be sent or assembled.

    Service: [evolves] is what every operation keeps (the invariant, the
    direction in which records move, the soundness of each effect).  On it
    rest the system theorems of [SmsServiceSystem]: [run] is any sequence of
    turns of the task, calls of other tasks, notifications and restarts.  A
    PDU is handed to the modem only while its message is stored as SENDING
    with that segment in flight; no segment is requested more often than once
    plus the retries the user asked for; an event that reports a message
    finds it in the store; the modem's copy of an incoming message is deleted
    only when the store keeps the message; after a restart no message is left
    as SENDING.

    Idempotency keys: whatever other requests do and however often the gateway
    restarts, a claimed key is not given out a second time, and once its
    message has an identifier the same request gets it back and another one
    with the key a conflict.

    Updates: the order of semantic versions is total and transitive, so that
    no sequence of accepted updates goes back behind the first version.

    Modem manager: in every sequence of events the reported state agrees with
    what is known of SIM and network; a PIN goes to the modem at most once per
    submission; a modem that answers is brought up in one session, and one
    that does not is power cycled after a bounded number of polls.

    Modem core: the message service was last told that the modem is ready
    exactly when the manager's last report said so and the transport was not
    lost since; a hard reset takes the power away and gives it back.

    HTTP interface: without the token nothing changes on any route but the
    health check; a message requested again with its key, over HTTP or MQTT, is
    queued once; the pages of the list of messages show every message once, in order; the path
    of a message leads back to it.  Firmware uploads: an upload always ends,
    with the service free for the next one, and the image that is booted has
    the announced digest, size and a version that the policy accepts.  Token:
    whoever was admitted before is not after it was replaced, restarts
    included.  Board: the power of the modem follows what was requested and
    the over-current latch.

    MQTT: an incoming payload comes out of its fragments as it was sent and
    never overruns its buffer; only a command that is not retained, on its own
    topic, has an effect, and only its own; the cursor of the replay passes a
    received message only after the broker acknowledged it, and reaches all of
    them when the broker answers; the certificate of a client is freed once,
    after the client.

    USB transport: a handle of the driver is used only while it is open,
    whenever the driver calls back; an interface is reported as ready only
    after it answered OK itself; the probe finds an OK however the bytes are
    cut; the mode switch gives back what it takes and sends its message only
    to storage interfaces of the modems to be switched.

    Wi-Fi and setup portal: a gateway that has credentials and is offline
    always has an attempt running or scheduled within 30 seconds; the portal
    is announced exactly while its server runs; a setup that is answered with
    200 has saved settings, token and credentials; the broker of the form
    reads back from the address that is saved; the DNS responder stays inside
    its packet on every input.

    Start: a step that fails is told by the next boot; a loop of crashes that
    the display or the modem's transport causes ends by itself after at most
    six of them; the API and the setup portal never have their port at once,
    and a portal that is opened offline finds it free.

    Display: a lit screen shows the current content, what is of interest lights
    it, and it is dark again after its timeout; the strips make exactly the
    picture of the page and stay inside their buffer; a text is transliterated
    character by character; holding MENU asks for the setup portal once.

    Diagnostics: the reported number of crashes is that of the abnormal resets
    in a row, whatever RTC memory held, and decides the safe mode; the reason
    of a restart is told once; a failed boot step is what the next boot shows.

    USB interface: the candidates are exactly the serial interfaces of the
    descriptor, ranked and within the array, and the reader ends on every
    input.  Recipients: the API accepts the numbers of the E.164 plan, and the
    encoder takes each of them.  Settings: whatever the flash holds, the
    configuration in use is valid, and a stored one survives restarts.

    ** Fuel and bounds

    - [mark_interrupted_loop] gets 129 rounds, one more than there are slots:
      each round lists a message with a larger identifier, and its theorem
      says that it returns.
    - [assemble_if_complete] gets 256 rounds, more than a [uint8_t] counts.
    - [replay_loop] and [queue_depth_loop] run as often as the store has slots,
      as in the code; [replay_catches_up] says that this is enough.
    - [list_loop] gets one round more than the store has slots
      ([LIST_FUEL]), [receive_loop] four for each byte of the image
      ([RECEIVE_FUEL]; at most three timeouts in a row), [read_body_loop] one
      for each byte: a round passes a record or receives a byte.
    - [storage_loop] and [question_walk] get one round more than there are
      bytes, of which each round passes at least one; [receive_loop] of the
      portal one round for each byte; [probe_loop], [dns_wait] and
      [set_sta_config] run as often as the code says.
    - [render_loop] gets one round for each strip of the panel.
    - The waiting loop of the engine runs over a list of polls;
      [request_terminates] says that enough of them end a request.
    - Identifiers are 32 bits wide.  The store wraps them around; the theorems
      about the service ask for enough identifiers to be left before a step
      ([TURN_IDS] for a turn, about eighteen thousand).

    ** What the models leave out

    - Logging, and the order of assignments to memory that no other task sees.
    - The operations of other tasks run between turns and calls, not in the
      middle of one; the store's mutex makes each store operation atomic, but
      the interleaving of two calls of the service is not modelled.  A power
      failure in the middle of an operation is modelled, as a flash and a
      modem that refuse everything from then on.
    - The events of the MQTT client are handled by another task than the
      worker's; in the model they come between the worker's turns.  The
      certificate theorem has the exchange of the client as one step.
    - The callbacks of the CDC driver run where the worker of the USB
      transport waits or calls the driver ([interrupt]), and between its turns;
      the waits of the mode switch are the status with which the transfer
      completes in them.
    - The supervisor and the network task interleave step by step in AppMain
      alone, for what they do to the port; NetworkService has [open_portal] as
      one step.
    - [esp_restart] does not return; the models of the network task and of the
      mode switch log it and go on, which only adds runs.
    - Wiping memory.
    - Creation of tasks, queues and mutexes, apart from its failure.

    ** Not modelled

    The HTML page of the setup portal, the LCD driver's commands, and what is
    not C: the Home Assistant examples, the OpenAPI description, the scripts
    and the host tests. *)

From Stdlib Require Import Ascii String.
From stdpp Require Import base numbers list.

Open Scope Z_scope.

(** ** Machine integers

    A [uintN_t] is a [Z] in [0, 2^N); a cast to it is the wrap-around below. *)

Definition u8 (z : Z) : Z := z mod 256.
Definition u16 (z : Z) : Z := z mod 65536.
Definition u32 (z : Z) : Z := z mod 4294967296.

(** [size_t] is 32 bits wide on the ESP32-S3. *)
Definition SIZE_MAX : Z := 4294967295.
Definition UINT32_MAX : Z := 4294967295.

Definition is_byte (b : Z) : Prop := 0 <= b < 256.
Definition bytes (l : list Z) : Prop := Forall is_byte l.

#[global] Instance is_byte_dec b : Decision (is_byte b).
Proof. unfold is_byte. apply _. Defined.

#[global] Instance bytes_dec l : Decision (bytes l).
Proof. unfold bytes. apply _. Defined.

(** ** C strings and arrays

    A byte array is a [list Z]; an index outside of it reads as 0, which for
    a NUL-terminated string is what its terminator reads as.  A [const char *]
    is the list of the bytes in front of its terminator, or any list holding a
    0 at the place where the string ends: [c_str] cuts it there. *)

Definition byte_at (l : list Z) (i : nat) : Z := nth i l 0.

Notation "l .[ i ]" := (byte_at l i) (at level 1, i at level 200, format "l .[ i ]").

Fixpoint c_str (l : list Z) : list Z :=
  match l with
  | [] => []
  | c :: l' => if c =? 0 then [] else c :: c_str l'
  end.

Definition strlen (l : list Z) : nat := length (c_str l).

(** [strcmp(a, b) == 0] *)
Definition streq (a b : list Z) : bool := bool_decide (c_str a = c_str b).

(** A string literal, as the bytes the compiler stores for it. *)
Definition str (s : string) : list Z :=
  List.map (fun a => Z.of_N (N_of_ascii a)) (list_ascii_of_string s).

Definition chr (a : ascii) : Z := Z.of_N (N_of_ascii a).

(** Proper C string contents: bytes, none of them the terminator. *)
Definition cstring (l : list Z) : Prop := Forall (fun c => 1 <= c < 256) l.

#[global] Instance cstring_dec l : Decision (cstring l).
Proof. unfold cstring. apply _. Defined.

(** ** Tactics and hints *)

Create HintDb gw.

(** Split boolean conditions of a hypothesis or the goal into propositions. *)
Ltac boolify :=
  repeat match goal with
  | H : (_ && _)%bool = true |- _ => apply andb_true_iff in H; destruct H
  | H : (_ || _)%bool = false |- _ => apply orb_false_iff in H; destruct H
  | H : negb _ = true |- _ => apply negb_true_iff in H
  | H : negb _ = false |- _ => apply negb_false_iff in H
  | H : (_ =? _) = true |- _ => apply Z.eqb_eq in H
  | H : (_ =? _) = false |- _ => apply Z.eqb_neq in H
  | H : (_ <=? _) = true |- _ => apply Z.leb_le in H
  | H : (_ <=? _) = false |- _ => apply Z.leb_gt in H
  | H : (_ <? _) = true |- _ => apply Z.ltb_lt in H
  | H : (_ <? _) = false |- _ => apply Z.ltb_ge in H
  | H : (_ =? _)%nat = true |- _ => apply Nat.eqb_eq in H
  | H : (_ =? _)%nat = false |- _ => apply Nat.eqb_neq in H
  | H : (_ <=? _)%nat = true |- _ => apply Nat.leb_le in H
  | H : (_ <=? _)%nat = false |- _ => apply Nat.leb_gt in H
  | H : (_ <? _)%nat = true |- _ => apply Nat.ltb_lt in H
  | H : (_ <? _)%nat = false |- _ => apply Nat.ltb_ge in H
  end.

(** Destruct the scrutinee of an [if] or a [match] in a hypothesis, keeping
    its equation, and drop the impossible branches. *)
Ltac cases H :=
  repeat (match type of H with
          | context [if ?b then _ else _] => destruct b eqn:?
          | context [match ?x with _ => _ end] => destruct x eqn:?
          end; try discriminate H; simplify_eq/=).

(** Decide the integer comparisons of the goal. *)
Ltac cases_ltb := repeat match goal with
  | |- context [?a <? ?b] => destruct (Z.ltb_spec a b); try lia
  | |- context [?a <=? ?b] => destruct (Z.leb_spec a b); try lia
  | |- context [?a =? ?b] => destruct (Z.eqb_spec a b); try lia
  end; cbn [negb orb andb].

(** A property of bytes that a boolean decides holds when it holds for all 256
    of them. *)
Lemma byte_forall (P : Z -> bool) :
  forallb P (seqZ 0 256) = true -> forall b, is_byte b -> P b = true.
Proof.
  intros HP b Hb. rewrite forallb_forall in HP. apply HP.
  apply list_elem_of_In, elem_of_seqZ. unfold is_byte in Hb. lia.
Qed.

Lemma range_forall (P : Z -> bool) (lo len : Z) :
  forallb P (seqZ lo len) = true -> forall b, lo <= b < lo + len -> P b = true.
Proof.
  intros HP b Hb. rewrite forallb_forall in HP. apply HP.
  apply list_elem_of_In, elem_of_seqZ. lia.
Qed.

Lemma byte_decide (P : Z -> Prop) {dec : forall b, Decision (P b)} :
  forallb (fun b => bool_decide (P b)) (seqZ 0 256) = true -> forall b, is_byte b -> P b.
Proof. intros Hall b Hb. by apply (bool_decide_eq_true_1 (P b)), (byte_forall _ Hall). Qed.

Lemma range_decide (P : Z -> Prop) {dec : forall b, Decision (P b)} (hi : Z) :
  forallb (fun b => bool_decide (P b)) (seqZ 0 hi) = true -> forall b, 0 <= b < hi -> P b.
Proof.
  intros Hall b Hb. apply (bool_decide_eq_true_1 (P b)), (range_forall _ 0 hi Hall). lia.
Qed.

(** Prove a decidable fact about one byte by evaluating it on all of them. *)
Ltac by_bytes b H :=
  revert b H;
  match goal with
  | |- forall b, is_byte b -> @?P b => apply (byte_decide P); vm_compute; reflexivity
  end.

(** The same below any small constant bound. *)
Ltac by_range b H :=
  revert b H;
  match goal with
  | |- forall b, 0 <= b < ?hi -> @?P b => apply (range_decide P hi); vm_compute; reflexivity
  end.

(** ** Bits *)

Lemma testbit_small (x n i : Z) : 0 <= x < 2 ^ n -> 0 <= n <= i -> Z.testbit x i = false.
Proof.
  intros Hx Hi. rewrite <- (Z.mod_small x (2 ^ n)) by done.
  by apply Z.mod_pow2_bits_high.
Qed.

(** The high part shifted over a low part of [n] bits. *)
Lemma lor_shiftl_add (a n d : Z) :
  0 <= n -> 0 <= d < 2 ^ n -> Z.lor (Z.shiftl a n) d = a * 2 ^ n + d.
Proof.
  intros Hn Hd. rewrite <- Z.shiftl_mul_pow2 by done. symmetry.
  apply Z.add_nocarry_lor. apply Z.bits_inj'. intros i Hi.
  rewrite Z.land_spec, Z.bits_0, Z.shiftl_spec by done.
  destruct (Z_lt_dec i n).
  - by rewrite Z.testbit_neg_r by lia.
  - rewrite (testbit_small d n i) by lia. by rewrite andb_false_r.
Qed.

Lemma land_ones_mod (a n : Z) : 0 <= n -> Z.land a (2 ^ n - 1) = a mod 2 ^ n.
Proof. intros. rewrite <- Z.land_ones by done. by rewrite Z.ones_equiv, Z.sub_1_r. Qed.

(** ** Record update

    [r <| f := v |>] is [r] with the field [f] set to [v], as [r.f = v] in the
    code.  A record that is updated this way has an instance of [Eta]. *)

Class Eta (R : Type) := eta_expand : R -> R.

Class Update {R T} (f : R -> T) := update : T -> R -> R.

Arguments update {R T} f {_} v r /.

Ltac derive_update :=
  lazymatch goal with
  | |- @Update ?R ?T ?f =>
      let e := constr:(_ : Eta R) in
      let e := eval hnf in e in
      lazymatch (eval pattern f in e) with
      | ?g _ => let u := eval cbv beta in (fun (v : T) => g (fun _ => v)) in exact u
      end
  end.

#[export] Hint Extern 1 (Update _) => derive_update : typeclass_instances.

Notation "r <| f := v |>" := (update f v r) (at level 1, f at level 11, format "r  <| f  :=  v |>").

(** ** Folding a fallible step over a list *)

Fixpoint foldM {A B} (f : A -> B -> option A) (l : list B) (a : A) : option A :=
  match l with
  | [] => Some a
  | b :: l' => match f a b with None => None | Some a' => foldM f l' a' end
  end.

Lemma foldM_app {A B} (f : A -> B -> option A) l1 l2 a :
  foldM f (l1 ++ l2) a = match foldM f l1 a with None => None | Some a' => foldM f l2 a' end.
Proof. revert a. induction l1 as [|b l1 IH]; intros a; simpl; [done|]. by destruct (f a b). Qed.

(** ** C strings *)

Lemma cstring_c_str l : cstring l -> c_str l = l.
Proof.
  induction 1 as [|c l Hc Hl IH]; simpl; [done|].
  destruct (Z.eqb_spec c 0); [lia|]. by rewrite IH.
Qed.

Lemma cstring_strlen l : cstring l -> strlen l = length l.
Proof. intros H. unfold strlen. by rewrite cstring_c_str. Qed.

Lemma cstring_bytes l : cstring l -> bytes l.
Proof. intros H. eapply Forall_impl; [exact H|]. unfold is_byte. lia. Qed.

Lemma cstring_app l1 l2 : cstring (l1 ++ l2) <-> cstring l1 /\ cstring l2.
Proof. apply Forall_app. Qed.

Lemma c_str_length l : (length (c_str l) <= length l)%nat.
Proof. induction l as [|c l IH]; simpl; [lia|]. destruct (c =? 0); simpl; lia. Qed.

Lemma c_str_idem s : c_str (c_str s) = c_str s.
Proof.
  induction s as [|c s IH]; cbn [c_str]; [done|]. destruct (Z.eqb_spec c 0); cbn [c_str]; [done|].
  rewrite (proj2 (Z.eqb_neq c 0)) by done. by rewrite IH.
Qed.

Lemma c_str_terminates s t : cstring s -> c_str (s ++ 0 :: t) = s.
Proof.
  induction s as [|c s IH]; intros H; [done|]. apply Forall_cons in H as [Hc Hs]. cbn [app c_str].
  replace (c =? 0) with false by lia. by rewrite IH.
Qed.

Lemma c_str_cstring l : bytes l -> cstring (c_str l).
Proof.
  induction 1 as [|c l Hc Hl IH]; simpl; [constructor|].
  destruct (Z.eqb_spec c 0); constructor; [unfold is_byte in Hc; lia | done].
Qed.

#[export] Hint Resolve cstring_bytes c_str_cstring : gw.

(** ** Reading arrays *)

Lemma bytes_at (s : list Z) k : bytes s -> is_byte s.[k].
Proof.
  intros Hs. unfold byte_at. destruct (nth_in_or_default k s 0) as [Hin | ->].
  - apply (proj1 (Forall_forall _ _) Hs). by apply list_elem_of_In.
  - unfold is_byte. lia.
Qed.

Lemma drop_at (s : list Z) k : (k < length s)%nat -> drop k s = s.[k] :: drop (S k) s.
Proof.
  intros H. destruct (lookup_lt_is_Some_2 s k H) as [x Hx].
  rewrite (drop_S s x k Hx). unfold byte_at. by rewrite (nth_lookup_Some _ _ _ _ Hx).
Qed.

(** ** Decimal numbers

    [snprintf] with [%u], and the conversions of the C library's [strtol] and
    its relatives in base 10. *)

Fixpoint decimal_loop (fuel : nat) (n : Z) (acc : list Z) : list Z :=
  match fuel with
  | O => acc
  | S fuel' =>
      let acc := (48 + n mod 10) :: acc in
      if n <? 10 then acc else decimal_loop fuel' (n / 10) acc
  end.

(** Twenty digits hold every 64-bit number. *)
Definition decimal (n : Z) : list Z := decimal_loop 20 n [].

Definition isdigit (c : Z) : bool := (48 <=? c) && (c <=? 57).

(** The value of the leading digits, and what follows them. *)
Fixpoint digits_value (s : list Z) (acc : Z) : Z * list Z :=
  match s with
  | c :: s' => if isdigit c then digits_value s' (acc * 10 + (c - 48)) else (acc, s)
  | [] => (acc, [])
  end.

Definition isspace (c : Z) : bool := (c =? 32) || ((9 <=? c) && (c <=? 13)).

Fixpoint skip_while (f : Z -> bool) (s : list Z) : list Z :=
  match s with
  | c :: s' => if f c then skip_while f s' else s
  | [] => []
  end.

(** [strtol(s, &end, 10)]: the value, saturated to the range of a 32-bit
    [long], and the text at [end]; [None] when nothing was converted. *)
Definition strtol (s : list Z) : option (Z * list Z) :=
  let t := skip_while isspace s in
  let '(sign, t) := match t with
                    | 45 :: t' => (-1, t')
                    | 43 :: t' => (1, t')
                    | _ => (1, t)
                    end in
  match t with
  | c :: _ =>
      if isdigit c then
        let '(v, rest) := digits_value t 0 in
        Some (Z.max (-2147483648) (Z.min (sign * v) 2147483647), rest)
      else None
  | [] => None
  end.

(** [strtoul(s, &end, 10)] with a 32-bit [unsigned long]: a minus sign negates
    the value, which is saturated before. *)
Definition strtoul (s : list Z) : option (Z * list Z) :=
  let t := skip_while isspace s in
  let '(negative, t) := match t with
                        | 45 :: t' => (true, t')
                        | 43 :: t' => (false, t')
                        | _ => (false, t)
                        end in
  match t with
  | c :: _ =>
      if isdigit c then
        let '(v, rest) := digits_value t 0 in
        Some (if 4294967295 <? v then 4294967295 else if negative then u32 (- v) else v, rest)
      else None
  | [] => None
  end.

Lemma isdigit_mod n : isdigit (48 + n mod 10) = true.
Proof. unfold isdigit. pose proof (Z.mod_pos_bound n 10). apply andb_true_iff. split; apply Z.leb_le; lia. Qed.

(** No digit follows. *)
Definition no_digit (s : list Z) : Prop := match s with c :: _ => isdigit c = false | [] => True end.

Lemma decimal_loop_acc fuel n acc : decimal_loop fuel n acc = decimal_loop fuel n [] ++ acc.
Proof.
  revert n acc. induction fuel as [|fuel IH]; intros n acc; [done|]. cbn [decimal_loop].
  destruct (n <? 10); [done|]. rewrite (IH _ (_ :: acc)), (IH _ [_]). by rewrite <- app_assoc.
Qed.

Lemma digits_value_app l s acc :
  Forall (fun c => isdigit c = true) l ->
  digits_value (l ++ s) acc = digits_value s (digits_value l acc).1.
Proof.
  intros H. revert acc. induction H as [|c l Hc Hl IH]; intros acc; [done|].
  cbn [app digits_value]. by rewrite Hc, IH.
Qed.

Lemma decimal_loop_digits fuel n acc :
  Forall (fun c => isdigit c = true) acc -> Forall (fun c => isdigit c = true) (decimal_loop fuel n acc).
Proof.
  revert n acc. induction fuel as [|fuel IH]; intros n acc H; [done|]. cbn [decimal_loop].
  destruct (n <? 10); [|apply IH]; by repeat constructor; [apply isdigit_mod|].
Qed.

Lemma decimal_loop_value fuel n :
  0 <= n < 10 ^ Z.of_nat fuel -> (0 < fuel)%nat ->
  (digits_value (decimal_loop fuel n []) 0).1 = n.
Proof.
  revert n. induction fuel as [|fuel IH]; intros n Hn Hf; [lia|]. cbn [decimal_loop].
  destruct (Z.ltb_spec n 10).
  - cbn [digits_value]. rewrite isdigit_mod. cbn [fst]. rewrite Z.mod_small by lia. lia.
  - destruct fuel as [|fuel]; [simpl in Hn; lia|].
    rewrite decimal_loop_acc, digits_value_app by by apply decimal_loop_digits.
    rewrite IH; [|split; [apply Z.div_pos; lia|]|lia].
    + cbn [digits_value]. rewrite isdigit_mod. cbn [fst]. pose proof (Z.div_mod n 10). lia.
    + apply Z.div_lt_upper_bound; [lia|]. rewrite Nat2Z.inj_succ, Z.pow_succ_r in Hn by lia. lia.
Qed.

Lemma decimal_nonempty n : exists c l, decimal n = c :: l /\ isdigit c = true.
Proof.
  pose proof (decimal_loop_digits 20 n [] (Forall_nil_2 _)) as H. fold (decimal n) in H.
  destruct (decimal n) as [|c l] eqn:E; [|inversion H; eauto].
  exfalso. revert E. unfold decimal. change 20%nat with (S 19). generalize 19%nat. intros fuel.
  cbn [decimal_loop].
  destruct (n <? 10); [done|]. rewrite decimal_loop_acc. by destruct (decimal_loop fuel _ _).
Qed.

(** Printed and read again. *)
Lemma digits_value_decimal n s :
  0 <= n <= 4294967295 -> no_digit s -> digits_value (decimal n ++ s) 0 = (n, s).
Proof.
  intros Hn Hs. rewrite digits_value_app by by apply decimal_loop_digits.
  unfold decimal. rewrite decimal_loop_value by (cbn; lia).
  destruct s as [|c s]; [done|]. simpl in *. by rewrite Hs.
Qed.

Lemma isdigit_not_space c : isdigit c = true -> isspace c = false /\ c <> 45 /\ c <> 43.
Proof.
  unfold isdigit, isspace. intros H. apply andb_true_iff in H as [H1 H2].
  apply Z.leb_le in H1. apply Z.leb_le in H2. split; [|lia].
  apply orb_false_iff. split; [apply Z.eqb_neq; lia|]. apply andb_false_iff. right. apply Z.leb_gt. lia.
Qed.

(** A digit is no sign. *)
Lemma no_sign {X} (minus plus : list Z -> X) (other : X) c l :
  isdigit c = true -> match c :: l with 45 :: t => minus t | 43 :: t => plus t | _ => other end = other.
Proof.
  intros Hc. unfold isdigit in Hc. apply andb_true_iff in Hc as [Hc1 Hc2]. apply Z.leb_le in Hc1. apply Z.leb_le in Hc2.
  assert (c = 48 \/ c = 49 \/ c = 50 \/ c = 51 \/ c = 52 \/ c = 53 \/ c = 54 \/ c = 55 \/ c = 56 \/ c = 57)
    as Hcs by lia.
  by repeat destruct Hcs as [-> | Hcs]; [..|subst c].
Qed.

(** A printed number is read back. *)
Lemma strtol_decimal n s :
  0 <= n <= 2147483647 -> no_digit s -> strtol (decimal n ++ s) = Some (n, s).
Proof.
  intros Hn Hs. unfold strtol. pose proof (digits_value_decimal n s ltac:(lia) Hs) as Hv.
  destruct (decimal_nonempty n) as (c & l & E & Hc). rewrite E in *. cbn [app] in *.
  destruct (isdigit_not_space c Hc) as (Hsp & _).
  cbn [skip_while]. rewrite Hsp, (no_sign (fun t => (-1, t)) (fun t => (1, t))), Hc, Hv by done.
  f_equal. f_equal. lia.
Qed.

Lemma strtoul_decimal n s :
  0 <= n <= 4294967295 -> no_digit s -> strtoul (decimal n ++ s) = Some (n, s).
Proof.
  intros Hn Hs. unfold strtoul. pose proof (digits_value_decimal n s ltac:(lia) Hs) as Hv.
  destruct (decimal_nonempty n) as (c & l & E & Hc). rewrite E in *. cbn [app] in *.
  destruct (isdigit_not_space c Hc) as (Hsp & _).
  cbn [skip_while]. rewrite Hsp, (no_sign (fun t => (true, t)) (fun t => (false, t))), Hc, Hv by done.
  by destruct (Z.ltb_spec 4294967295 n); [lia|].
Qed.

Lemma decimal_cstring n : cstring (decimal n).
Proof.
  eapply Forall_impl; [apply (decimal_loop_digits 20 n []); constructor|].
  intros c H. apply andb_true_iff in H as [H1 H2]. apply Z.leb_le in H1. apply Z.leb_le in H2. lia.
Qed.

Lemma decimal_not_in n c : isdigit c = false -> c ∉ decimal n.
Proof.
  intros Hc Hin. pose proof (decimal_loop_digits 20 n [] (Forall_nil_2 _)) as Hd. fold (decimal n) in Hd.
  rewrite list.Forall_forall in Hd. apply Hd in Hin. congruence.
Qed.


(** ** Error codes of the platform *)

Inductive esp_err_t :=
  | ESP_OK
  | ESP_FAIL
  | ESP_ERR_NO_MEM
  | ESP_ERR_INVALID_ARG
  | ESP_ERR_INVALID_STATE
  | ESP_ERR_INVALID_SIZE
  | ESP_ERR_NOT_FOUND
  | ESP_ERR_NOT_SUPPORTED
  | ESP_ERR_TIMEOUT
  | ESP_ERR_INVALID_RESPONSE
  | ESP_ERR_INVALID_CRC
  | ESP_ERR_INVALID_VERSION
  | ESP_ERR_NVS_NOT_FOUND
  | ESP_ERR_NVS_NOT_ENOUGH_SPACE
  | ESP_ERR_OTHER (code : Z).

#[global] Instance esp_err_eq_dec : EqDecision esp_err_t.
Proof. solve_decision. Defined.

(** ** Little-endian fields of a packed structure *)

Fixpoint le (n : nat) (z : Z) : list Z :=
  match n with O => [] | S n' => (z mod 256) :: le n' (z / 256) end.

Fixpoint le_value (l : list Z) : Z :=
  match l with [] => 0 | b :: l' => b + 256 * le_value l' end.

(** The next [n] bytes, and the rest. *)
Definition read (n : nat) (l : list Z) : list Z * list Z := (take n l, drop n l).

Lemma le_length n z : length (le n z) = n.
Proof. revert z. induction n; intros; simpl; auto. Qed.

Lemma le_bytes n z : bytes (le n z).
Proof.
  revert z. induction n as [|n IH]; intros z; constructor; [|apply IH].
  unfold is_byte. apply Z.mod_pos_bound. lia.
Qed.

Lemma le_value_le n z : 0 <= z < 256 ^ Z.of_nat n -> le_value (le n z) = z.
Proof.
  revert z. induction n as [|n IH]; intros z Hz; [simpl in *; lia|]. cbn [le le_value].
  rewrite Nat2Z.inj_succ, Z.pow_succ_r in Hz by lia. rewrite IH.
  - pose proof (Z.div_mod z 256). lia.
  - split; [apply Z.div_pos; lia|apply Z.div_lt_upper_bound; lia].
Qed.

Lemma le_value_range l : bytes l -> 0 <= le_value l < 256 ^ Z.of_nat (length l).
Proof.
  induction 1 as [|b l Hb _ IH]; [simpl; lia|]. cbn [le_value length].
  rewrite Nat2Z.inj_succ, Z.pow_succ_r by lia. unfold is_byte in Hb. lia.
Qed.

Lemma read_app n (x y : list Z) : length x = n -> read n (x ++ y) = (x, y).
Proof. intros <-. unfold read. by rewrite take_app_length, drop_app_length. Qed.

Lemma read_all n (x : list Z) : length x = n -> read n x = (x, []).
Proof. intros <-. unfold read. by rewrite firstn_all, drop_all. Qed.

(** Signed 32-bit integers, as the two's complement stores them. *)
Definition int32 (z : Z) : Prop := -2147483648 <= z < 2147483648.
Definition to_int32 (z : Z) : Z := if z <? 2147483648 then z else z - 4294967296.

Lemma to_int32_u32 z : int32 z -> to_int32 (u32 z) = z.
Proof.
  unfold int32, to_int32, u32. intros H. destruct (Z.ltb_spec (z mod 4294967296) 2147483648);
    Z.div_mod_to_equations; lia.
Qed.

(** ** Character arrays

    An array of [n] characters is a list of that length; the string in it ends
    at its first 0. *)

Definition terminated (field : list Z) : bool := existsb (Z.eqb 0) field.

(** Store the string [s], with its terminator, at the front of an array. *)
Definition set_string (field s : list Z) : list Z := s ++ [0] ++ drop (length s + 1) field.

(** [snprintf(field, sizeof(field), "%s", s)], which truncates. *)
Definition snprintf_s (field s : list Z) : list Z :=
  set_string field (take (length field - 1) (c_str s)).

Definition zeros (n : nat) : list Z := replicate n 0.
