(* ===== verification/StateMonad.v ===== *)
(** * The state monad and its program logic

    The tasks of the gateway are functions on a record of their variables, with
    the trace of what they did to the platform in it.  [State S A] is such a
    function with a result; [triple P c Q] says that from every state with [P]
    it leads to one with [Q], and [keeps P c] that it keeps [P].  The rules and
    the tactics are shared by the components, which add what their operations
    keep to the hints of [state]. *)

From stdpp Require Import base list.

Definition State (S A : Type) : Type := S -> S * A.

#[export] Instance state_ret {S} : MRet (State S) := fun A x s => (s, x).
#[export] Instance state_bind {S} : MBind (State S) := fun A B f c s => let '(s', x) := c s in f x s'.

Definition gets {S A} (f : S -> A) : State S A := fun s => (s, f s).
Definition modify {S} (f : S -> S) : State S unit := fun s => (f s, tt).
Definition when {S} (b : bool) (c : State S unit) : State S unit := if b then c else mret tt.

(** A computation on a part of the state. *)
Definition zoom {S T A} (part : S -> T) (store : T -> S -> S) (c : State T A) : State S A := fun s =>
  let '(t, x) := c (part s) in (store t s, x).

Create HintDb state.

Definition triple {S A} (P : S -> Prop) (c : State S A) (Q : A -> S -> Prop) : Prop :=
  forall s, P s -> Q (c s).2 (c s).1.

Abbreviation keeps P c := (triple P%_function c (fun _ => P%_function)).

Section Rules.

Context {S : Type}.
Implicit Types P : S -> Prop.

Lemma triple_ret {A} P (Q : A -> S -> Prop) x :
  (forall s, P s -> Q x s) -> triple P (mret x) Q.
Proof. intros H s Hs. exact (H s Hs). Qed.

Lemma triple_bind {A B} P (c : State S A) R (f : A -> State S B) Q :
  triple P c R -> (forall x, triple (R x) (f x) Q) -> triple P (c ≫= f) Q.
Proof.
  intros Hc Hf s Hs. specialize (Hc s Hs). unfold mbind, state_bind.
  destruct (c s) as [s' x]. exact (Hf x s' Hc).
Qed.

Lemma triple_weaken {A} P (P' : S -> Prop) (c : State S A) (Q Q' : A -> S -> Prop) :
  triple P c Q -> (forall s, P' s -> P s) -> (forall x s, Q x s -> Q' x s) -> triple P' c Q'.
Proof. intros Hc HP HQ s Hs. apply HQ, Hc, HP, Hs. Qed.

Lemma triple_pre {A} P (P' : S -> Prop) (c : State S A) (Q : A -> S -> Prop) :
  triple P c Q -> (forall s, P' s -> P s) -> triple P' c Q.
Proof. intros Hc HP s Hs. apply Hc, HP, Hs. Qed.

Lemma triple_and {A} P (c : State S A) Q (P' : S -> Prop) Q' :
  triple P c Q -> triple P' c Q' -> triple (fun s => P s /\ P' s) c (fun x s => Q x s /\ Q' x s).
Proof. intros H H' s [Hs Hs']. split; [exact (H s Hs)|exact (H' s Hs')]. Qed.

Lemma triple_pure {A} (X : Prop) P (c : State S A) Q :
  (X -> triple P c Q) -> triple (fun s => X /\ P s) c Q.
Proof. intros H s [Hx Hs]. exact (H Hx s Hs). Qed.

Lemma triple_modify P f (Q : unit -> S -> Prop) :
  (forall s, P s -> Q tt (f s)) -> triple P (modify f) Q.
Proof. intros H s Hs. exact (H s Hs). Qed.

(** What is read is known afterwards. *)
Lemma triple_gets {A} P (f : S -> A) :
  triple P (gets f) (fun x s => x = f s /\ P s).
Proof. intros s Hs. done. Qed.

Lemma keeps_gets {A} P (f : S -> A) : keeps P (gets f).
Proof. by intros s Hs. Qed.

Lemma keeps_ret {A} (x : A) P : keeps P (mret x : State S A).
Proof. by intros s Hs. Qed.

Lemma keeps_bind {A B} P (c : State S A) (f : A -> State S B) :
  keeps P c -> (forall x, keeps P (f x)) -> keeps P (c ≫= f).
Proof. apply triple_bind. Qed.

Lemma keeps_when P b c : (b = true -> keeps P c) -> keeps P (when b c).
Proof. destruct b; [auto|intros _; apply keeps_ret]. Qed.

Lemma keeps_and {A} P (P' : S -> Prop) (c : State S A) :
  keeps P c -> keeps P' c -> keeps (fun s => P s /\ P' s) c.
Proof. apply triple_and. Qed.

End Rules.

#[export] Hint Resolve keeps_gets keeps_ret : state.

(** Splits a [keeps] goal into those of the parts. *)
Ltac keeps_step :=
  match goal with
  | |- triple _ (mbind _ _) _ => apply keeps_bind; [|intros ?]
  | |- triple _ (when _ _) _ => apply keeps_when; intros ?
  | |- triple _ (if ?b then _ else _) _ => destruct b eqn:?
  | |- triple _ (match ?x with _ => _ end) _ => destruct x eqn:?
  | |- triple _ (let '(_, _) := ?x in _) _ => destruct x eqn:?
  | |- triple _ (mret _) _ => apply keeps_ret
  end.

Ltac keeps_tac := repeat first [solve [eauto with state nocore] | keeps_step].

Ltac head_of t := lazymatch t with ?f _ => head_of f | _ => t end.
