(* ===== verification/GatewayBoard.v ===== *)
(** * The board: power of the USB host socket (components/board/gateway_board.c)

    Which supply path is switched on, and the task that cuts the power at an
    over-current and restores it after a cooldown.  A pin is its number; the
    level that was last set on it is kept in the state, and [gpio_set_level] may
    fail.  Configuring pins as inputs is left out. *)

From Stdlib Require Import Ascii String.
From Stdlib Require Import ZifyBool ZifyNat.
From stdpp Require Import base numbers list strings gmap.
From S2P Require Import Prelude.
From S2P Require Import StateMonad.

Open Scope Z_scope.

Definition USB_OC_CLEAR_COOLDOWN_MS : Z := 5000.
Definition USB_OC_ASSERT_POLLS : Z := 3.

Definition PIN_USB_SEL : Z := 18.
Definition PIN_USB_LIMIT_EN : Z := 17.
Definition PIN_USB_OVERCURRENT : Z := 21.
Definition PIN_DEV_VBUS_EN : Z := 12.
Definition PIN_BOOST_EN : Z := 13.
Definition PIN_LED_GREEN : Z := 15.
Definition PIN_LED_YELLOW : Z := 16.

(** GATEWAY_BUTTON_OK, _UP, _DOWN and _MENU. *)
Definition s_button_pins : list Z := [0; 10; 11; 14].

(** CONFIG_GATEWAY_USB_HOST_POWER_USB_DEV and _BATTERY; neither for
    [POWER_EXTERNAL]. *)
Inductive power_source := POWER_USB_DEV | POWER_BATTERY | POWER_EXTERNAL.

#[export] Instance power_source_eq_dec : EqDecision power_source.
Proof. solve_decision. Defined.

(** [bd_levels]: what was set; [bd_sets] counts the calls. *)
Record board := mk_board {
  bd_mutex : bool;
  power_requested : bool;
  overcurrent_latched : bool;
  overcurrent_events : Z;
  power_cutoffs : Z;
  bd_levels : gmap Z Z;
  bd_sets : nat;
}.

#[export] Instance eta_board : Eta board := fun b =>
  mk_board (bd_mutex b) (power_requested b) (overcurrent_latched b) (overcurrent_events b) (power_cutoffs b)
    (bd_levels b) (bd_sets b).

Definition board_zero : board := mk_board false true false 0 0 ∅ 0.

Section Board.

Variable source : power_source.

(** What the nth call of [gpio_set_level] answers, and [pdMS_TO_TICKS]. *)
Variable gpio : nat -> esp_err_t.
Variable ms_to_ticks : Z -> Z.

Abbreviation M := (State board).

Definition gpio_set_level (pin level : Z) : M esp_err_t := fun b =>
  let err := gpio (bd_sets b) in
  (b <| bd_sets := S (bd_sets b) |>
     <| bd_levels := if bool_decide (err = ESP_OK) then <[pin := level]> (bd_levels b) else bd_levels b |>, err).

(** [ESP_RETURN_ON_ERROR] *)
Definition return_on_error (c rest : M esp_err_t) : M esp_err_t :=
  err ← c; if bool_decide (err <> ESP_OK) then mret err else rest.

(** [direction]: what [gpio_set_direction] answers. *)
Definition set_output (direction : esp_err_t) (pin level : Z) : M esp_err_t :=
  if bool_decide (direction <> ESP_OK) then mret direction else gpio_set_level pin level.

Definition power_apply (enabled : bool) : M esp_err_t :=
  return_on_error (gpio_set_level PIN_DEV_VBUS_EN 0)
    (return_on_error (gpio_set_level PIN_BOOST_EN 0)
       (if negb enabled then mret ESP_OK
        else match source with
             | POWER_USB_DEV => gpio_set_level PIN_DEV_VBUS_EN 1
             | POWER_BATTERY => gpio_set_level PIN_BOOST_EN 1
             | POWER_EXTERNAL => mret ESP_OK
             end)).

(** [taken]: the mutex was taken in time. *)
Definition gateway_board_usb_host_power_set (enabled taken : bool) : M esp_err_t :=
  mutex ← gets bd_mutex;
  if mutex && negb taken then mret ESP_ERR_TIMEOUT
  else
    modify (fun b => b <| power_requested := enabled |>);;
    latched ← gets overcurrent_latched;
    if enabled && latched then mret ESP_ERR_INVALID_STATE else power_apply enabled.

Definition gateway_board_usb_host_power_control_available : bool :=
  match source with POWER_USB_DEV | POWER_BATTERY => true | POWER_EXTERNAL => false end.

Definition gateway_board_usb_host_power_source_name : list Z :=
  match source with
  | POWER_USB_DEV => str "USB_DEV"
  | POWER_BATTERY => str "battery_boost"
  | POWER_EXTERNAL => str "external/off"
  end.

(** [level]: what [gpio_get_level] answers for the pin. *)
Definition gateway_board_usb_overcurrent (level : Z) : bool := level =? 0.

Definition gateway_board_status_led_set (on : bool) : M esp_err_t := gpio_set_level PIN_LED_GREEN (if on then 1 else 0).

(** [level] of the button's pin. *)
Definition gateway_board_button_pressed (button : nat) (level : Z -> Z) : bool :=
  match s_button_pins !! button with Some pin => level pin =? 0 | None => false end.

(** The local variables of [power_monitor_task]. *)
Record monitor := mk_monitor { clear_since : Z; asserted_polls : Z }.

(** One turn of the task: the level of the fault pin, whether the mutex was
    taken, and the ticks that the two calls of [xTaskGetTickCount] return. *)
Definition power_monitor_turn (level : Z) (taken : bool) (tick1 tick2 : Z) (t : monitor) : M monitor :=
  let polls := if gateway_board_usb_overcurrent level then u32 (asserted_polls t + 1) else 0 in
  let t := mk_monitor (clear_since t) polls in
  let asserted := USB_OC_ASSERT_POLLS <=? polls in
  mutex ← gets bd_mutex;
  if negb (mutex && taken) then mret t
  else
    latched ← gets overcurrent_latched;
    if asserted then
      when (negb latched)
        (modify (fun b => b <| overcurrent_latched := true |>
                            <| overcurrent_events := u32 (overcurrent_events b + 1) |>);;
         when gateway_board_usb_host_power_control_available
           (err ← power_apply false;
            when (bool_decide (err = ESP_OK)) (modify (fun b => b <| power_cutoffs := u32 (power_cutoffs b + 1) |>))));;
      mret (mk_monitor 0 polls)
    else if latched : bool then
      let since := if clear_since t =? 0 then tick1 else clear_since t in
      if ms_to_ticks USB_OC_CLEAR_COOLDOWN_MS <=? u32 (tick2 - since) then
        modify (fun b => b <| overcurrent_latched := false |>);;
        requested ← gets power_requested;
        when (requested && gateway_board_usb_host_power_control_available) (power_apply true;; mret tt);;
        mret (mk_monitor 0 polls)
      else mret (mk_monitor since polls)
    else mret t.

(** [out] is not NULL for [true]. *)
Definition gateway_board_power_diagnostics (out taken : bool) (level : Z) (b : board)
  : esp_err_t + (bool * bool * Z * Z) :=
  if negb out then inl ESP_ERR_INVALID_ARG
  else if bd_mutex b && negb taken then inl ESP_ERR_TIMEOUT
  else inr (gateway_board_usb_overcurrent level, overcurrent_latched b, overcurrent_events b, power_cutoffs b).

(** [mutex_created] and [task_created]: FreeRTOS had the memory; [direction]
    and [config]: what [gpio_set_direction] and [gpio_config] answer. *)
Definition gateway_board_init (mutex_created task_created : bool) (direction : Z -> esp_err_t)
    (config : nat -> esp_err_t) : M esp_err_t :=
  modify (fun b => b <| bd_mutex := mutex_created |>);;
  if negb mutex_created then mret ESP_ERR_NO_MEM
  else
    let out pin level := return_on_error (set_output (direction pin) pin level) in
    out PIN_DEV_VBUS_EN 0 (out PIN_BOOST_EN 0 (out PIN_USB_LIMIT_EN 0 (out PIN_USB_SEL 1
      (out PIN_LED_GREEN 0 (out PIN_LED_YELLOW 0
        (return_on_error (mret (config 0%nat)) (return_on_error (mret (config 1%nat))
          (return_on_error (gpio_set_level PIN_USB_LIMIT_EN 1)
            (return_on_error (gateway_board_usb_host_power_set true true)
              (return_on_error (gateway_board_status_led_set true)
                (mret (if task_created then ESP_OK else ESP_ERR_NO_MEM)))))))))))).

(** ** The power follows the latch *)

(** What the two tasks do with the power. *)
Inductive board_step :=
  | B_power_set (enabled taken : bool)
  | B_monitor (level : Z) (taken : bool) (tick1 tick2 : Z)
  | B_led (on : bool).

Definition board_run (step : board_step) : board * monitor -> board * monitor := fun '(b, t) =>
  match step with
  | B_power_set enabled taken => ((gateway_board_usb_host_power_set enabled taken b).1, t)
  | B_monitor level taken tick1 tick2 => power_monitor_turn level taken tick1 tick2 t b
  | B_led on => ((gateway_board_status_led_set on b).1, t)
  end.

Definition board_runs (steps : list board_step) (s : board * monitor) : board * monitor :=
  fold_left (fun s step => board_run step s) steps s.

(** The pin of the path is on, and no other. *)
Definition powered (on : bool) (b : board) : Prop :=
  bd_levels b !! PIN_DEV_VBUS_EN = Some (if on && bool_decide (source = POWER_USB_DEV) then 1 else 0) /\
  bd_levels b !! PIN_BOOST_EN = Some (if on && bool_decide (source = POWER_BATTERY) then 1 else 0).

Definition power_follows (b : board) : Prop := powered (power_requested b && negb (overcurrent_latched b)) b.

Hypothesis gpio_works : forall n, gpio n = ESP_OK.

Lemma set_level_ok pin level b :
  gpio_set_level pin level b = (b <| bd_sets := S (bd_sets b) |> <| bd_levels := <[pin := level]> (bd_levels b) |>, ESP_OK).
Proof. unfold gpio_set_level. by rewrite gpio_works. Qed.

Lemma power_apply_spec enabled b :
  exists b', power_apply enabled b = (b', ESP_OK) /\ powered enabled b' /\
    power_requested b' = power_requested b /\ overcurrent_latched b' = overcurrent_latched b /\ bd_mutex b' = bd_mutex b.
Proof.
  unfold powered, power_apply, return_on_error, mbind, state_bind. rewrite set_level_ok, bool_decide_eq_false_2 by tauto.
  rewrite set_level_ok, bool_decide_eq_false_2 by tauto.
  destruct enabled, source; cbn [negb]; rewrite ?set_level_ok; eexists; (split; [reflexivity|]);
    (split; [|done]); cbn; by simplify_map_eq.
Qed.

Lemma powered_led on b level n :
  powered on b -> powered on (b <| bd_sets := n |> <| bd_levels := <[PIN_LED_GREEN := level]> (bd_levels b) |>).
Proof. unfold powered. cbn. intros [H1 H2]. by simplify_map_eq. Qed.

Lemma power_external b b' on on' :
  gateway_board_usb_host_power_control_available = false -> bd_levels b' = bd_levels b -> powered on b -> powered on' b'.
Proof.
  unfold powered, gateway_board_usb_host_power_control_available. destruct source; [done..|]. intros _ ->.
  by rewrite !andb_false_r.
Qed.

Lemma power_set_follows enabled taken : keeps power_follows (gateway_board_usb_host_power_set enabled taken).
Proof.
  intros b Hb. unfold gateway_board_usb_host_power_set, gets, modify, mbind, state_bind.
  destruct (bd_mutex b && negb taken); [done|].
  change (overcurrent_latched (b <| power_requested := enabled |>)) with (overcurrent_latched b).
  destruct (enabled && overcurrent_latched b) eqn:E.
  { apply andb_true_iff in E as [-> El]. unfold power_follows in *. cbn. rewrite El in *. rewrite andb_false_r in *.
    exact Hb. }
  destruct (power_apply_spec enabled (b <| power_requested := enabled |>)) as (b' & -> & Hp & Hr & Hlat & _).
  unfold power_follows. cbn [fst]. rewrite Hr, Hlat. cbn. destruct enabled; [|exact Hp]. cbn in E. by rewrite E.
Qed.

(** The two requests with the mutex at hand. *)
Lemma power_set_off b :
  exists b', gateway_board_usb_host_power_set false true b = (b', ESP_OK) /\ powered false b' /\
    overcurrent_latched b' = overcurrent_latched b.
Proof.
  unfold gateway_board_usb_host_power_set, gets, modify, mbind, state_bind. rewrite andb_false_r. cbn [andb].
  destruct (power_apply_spec false (b <| power_requested := false |>)) as (b' & -> & Hp & _ & Hl & _). by exists b'.
Qed.

Lemma power_set_on b :
  exists b' err, gateway_board_usb_host_power_set true true b = (b', err) /\
    (overcurrent_latched b = false -> err = ESP_OK /\ powered true b' /\ overcurrent_latched b' = false) /\
    (overcurrent_latched b = true -> err = ESP_ERR_INVALID_STATE /\ bd_levels b' = bd_levels b).
Proof.
  unfold gateway_board_usb_host_power_set, gets, modify, mbind, state_bind. rewrite andb_false_r.
  change (overcurrent_latched (b <| power_requested := true |>)) with (overcurrent_latched b).
  destruct (overcurrent_latched b) eqn:El; cbn [andb]; [by eexists _, _|].
  destruct (power_apply_spec true (b <| power_requested := true |>)) as (b' & -> & Hp & _ & Hl & _).
  eexists _, _. split; [done|]. split; [|done]. intros _. by rewrite Hl.
Qed.

Lemma monitor_follows level taken tick1 tick2 t : keeps power_follows (power_monitor_turn level taken tick1 tick2 t).
Proof.
  intros b Hb. unfold power_monitor_turn, gets, when, modify, mbind, state_bind.
  destruct (negb _); [done|]. destruct (USB_OC_ASSERT_POLLS <=? _).
  - destruct (overcurrent_latched b) eqn:El; [done|]. cbn [negb].
    set (b1 := b <| overcurrent_latched := true |> <| overcurrent_events := u32 (overcurrent_events b + 1) |>).
    destruct gateway_board_usb_host_power_control_available eqn:Ha.
    + destruct (power_apply_spec false b1) as (b' & -> & Hp & Hr & Hlat & _).
      rewrite bool_decide_eq_true_2 by done. unfold power_follows. cbn -[powered]. rewrite Hr, Hlat. cbn -[powered].
      rewrite andb_false_r. exact Hp.
    + cbn. eapply (power_external b); [done|done|exact Hb].
  - destruct (overcurrent_latched b) eqn:El; [|done]. destruct (_ <=? _); [|done].
    set (b1 := b <| overcurrent_latched := false |>). change (power_requested b1) with (power_requested b).
    destruct (power_requested b) eqn:Er; cbn [andb].
    + destruct gateway_board_usb_host_power_control_available eqn:Ha.
      * destruct (power_apply_spec true b1) as (b' & -> & Hp & Hr & Hlat & _).
        unfold power_follows. cbn -[powered]. rewrite Hr, Hlat. cbn -[powered]. by rewrite Er.
      * cbn. eapply (power_external b); [done|done|exact Hb].
    + unfold power_follows in *. cbn -[powered]. rewrite Er in *. exact Hb.
Qed.

Lemma board_run_follows step b t : power_follows b -> power_follows (board_run step (b, t)).1.
Proof.
  intros Hb. destruct step as [enabled taken|level taken tick1 tick2|on]; cbn [board_run fst].
  - by apply power_set_follows.
  - by apply monitor_follows.
  - unfold gateway_board_status_led_set. rewrite set_level_ok. by apply powered_led.
Qed.


(** The board is initialized with the power on. *)
Lemma init_follows direction config b :
  (forall pin, direction pin = ESP_OK) -> (forall n, config n = ESP_OK) -> overcurrent_latched b = false ->
  exists b', gateway_board_init true true direction config b = (b', ESP_OK) /\ power_follows b' /\
    power_requested b' = true.
Proof.
  intros Hd Hc Hl. unfold gateway_board_init, set_output, return_on_error, mbind, state_bind, modify.
  rewrite !Hd, !Hc. cbn [negb].
  repeat (rewrite bool_decide_eq_false_2 by tauto; rewrite ?set_level_ok; cbn [mret state_ret]).
  match goal with |- context [gateway_board_usb_host_power_set true true ?b1] => set (b2 := b1) end.
  unfold gateway_board_usb_host_power_set, gets, modify, mbind, state_bind. rewrite andb_false_r.
  change (overcurrent_latched (b2 <| power_requested := true |>)) with (overcurrent_latched b). rewrite Hl. cbn [andb].
  destruct (power_apply_spec true (b2 <| power_requested := true |>)) as (b3 & -> & Hp & Hr & Hlat & _).
  rewrite (bool_decide_eq_false_2 (ESP_OK <> ESP_OK)) by tauto. unfold gateway_board_status_led_set.
  rewrite set_level_ok, (bool_decide_eq_false_2 (ESP_OK <> ESP_OK)) by tauto. cbn -[powered powered_led PIN_LED_GREEN].
  eexists. split; [reflexivity|]. unfold power_follows. cbn -[powered].
  rewrite Hr, Hlat. cbn -[powered]. rewrite Hl. split; [|done]. exact (powered_led _ b3 1 (S (bd_sets b3)) Hp).
Qed.

End Board.

(** A fault of three polls cuts the power, a request does not restore it, and
    five seconds without a fault do. *)
Definition sample_board : board :=
  (gateway_board_init POWER_BATTERY (fun _ => ESP_OK) true true (fun _ => ESP_OK) (fun _ => ESP_OK) board_zero).1.

Definition sample_board_steps : list board_step :=
  [B_monitor 0 true 0 0; B_monitor 0 true 0 0; B_monitor 0 true 0 0; B_power_set true true].

