(* ===== verification/Gsm7.v ===== *)
(** * UTF-8 and the GSM 03.38 alphabet (components/sms_codec/sms_gsm7.c)

    The UTF-8 cursor and appender, the default alphabet with its escape
    extension, and the encoder and decoder between UTF-8 and septets.  The
    specification side is a text as a list of Unicode scalar values. *)

From Stdlib Require Import Wf_nat.
From stdpp Require Import base numbers list strings.
From S2P Require Import Prelude.

Open Scope Z_scope.

(** ** Tables *)

Definition s_gsm7_basic : list Z := [
    0x0040; 0x00A3; 0x0024; 0x00A5; 0x00E8; 0x00E9; 0x00F9; 0x00EC;
    0x00F2; 0x00C7; 0x000A; 0x00D8; 0x00F8; 0x000D; 0x00C5; 0x00E5;
    0x0394; 0x005F; 0x03A6; 0x0393; 0x039B; 0x03A9; 0x03A0; 0x03A8;
    0x03A3; 0x0398; 0x039E; 0x001B; 0x00C6; 0x00E6; 0x00DF; 0x00C9;
    0x0020; 0x0021; 0x0022; 0x0023; 0x00A4; 0x0025; 0x0026; 0x0027;
    0x0028; 0x0029; 0x002A; 0x002B; 0x002C; 0x002D; 0x002E; 0x002F;
    0x0030; 0x0031; 0x0032; 0x0033; 0x0034; 0x0035; 0x0036; 0x0037;
    0x0038; 0x0039; 0x003A; 0x003B; 0x003C; 0x003D; 0x003E; 0x003F;
    0x00A1; 0x0041; 0x0042; 0x0043; 0x0044; 0x0045; 0x0046; 0x0047;
    0x0048; 0x0049; 0x004A; 0x004B; 0x004C; 0x004D; 0x004E; 0x004F;
    0x0050; 0x0051; 0x0052; 0x0053; 0x0054; 0x0055; 0x0056; 0x0057;
    0x0058; 0x0059; 0x005A; 0x00C4; 0x00D6; 0x00D1; 0x00DC; 0x00A7;
    0x00BF; 0x0061; 0x0062; 0x0063; 0x0064; 0x0065; 0x0066; 0x0067;
    0x0068; 0x0069; 0x006A; 0x006B; 0x006C; 0x006D; 0x006E; 0x006F;
    0x0070; 0x0071; 0x0072; 0x0073; 0x0074; 0x0075; 0x0076; 0x0077;
    0x0078; 0x0079; 0x007A; 0x00E4; 0x00F6; 0x00F1; 0x00FC; 0x00E0].

(** Pairs of a code point and its septet after the escape. *)
Definition s_gsm7_extension : list (Z * Z) := [
    (0x000C, 0x0A);
    (0x005E, 0x14);
    (0x007B, 0x28);
    (0x007D, 0x29);
    (0x005C, 0x2F);
    (0x005B, 0x3C);
    (0x007E, 0x3D);
    (0x005D, 0x3E);
    (0x007C, 0x40);
    (0x20AC, 0x65)].

(** ** UTF-8 *)

(** The code point at the cursor and the advanced cursor. *)
Definition sms_utf8_next (cursor : list Z) : option (Z * list Z) :=
  let p := cursor in
  if p.[0] =? 0 then None
  else if p.[0] <? 0x80 then Some (p.[0], drop 1 cursor)
  else if Z.land p.[0] 0xE0 =? 0xC0 then
    if negb (Z.land p.[1] 0xC0 =? 0x80) then None
    else
      let cp := Z.lor (Z.shiftl (Z.land p.[0] 0x1F) 6) (Z.land p.[1] 0x3F) in
      if cp <? 0x80 then None else Some (cp, drop 2 cursor)
  else if Z.land p.[0] 0xF0 =? 0xE0 then
    if negb (Z.land p.[1] 0xC0 =? 0x80) || negb (Z.land p.[2] 0xC0 =? 0x80) then None
    else
      let cp := Z.lor (Z.lor (Z.shiftl (Z.land p.[0] 0x0F) 12)
                             (Z.shiftl (Z.land p.[1] 0x3F) 6))
                      (Z.land p.[2] 0x3F) in
      if (cp <? 0x800) || ((0xD800 <=? cp) && (cp <=? 0xDFFF)) then None
      else Some (cp, drop 3 cursor)
  else if Z.land p.[0] 0xF8 =? 0xF0 then
    if negb (Z.land p.[1] 0xC0 =? 0x80) || negb (Z.land p.[2] 0xC0 =? 0x80)
       || negb (Z.land p.[3] 0xC0 =? 0x80) then None
    else
      let cp := Z.lor (Z.lor (Z.lor (Z.shiftl (Z.land p.[0] 0x07) 18)
                                    (Z.shiftl (Z.land p.[1] 0x3F) 12))
                             (Z.shiftl (Z.land p.[2] 0x3F) 6))
                      (Z.land p.[3] 0x3F) in
      if (cp <? 0x10000) || (0x10FFFF <? cp) then None
      else Some (cp, drop 4 cursor)
  else None.

(** The bytes [out[0..count)] that [sms_utf8_append] computes. *)
Definition utf8_bytes (codepoint : Z) : option (list Z) :=
  if codepoint <=? 0x7F then Some [u8 codepoint]
  else if codepoint <=? 0x7FF then
    Some [u8 (Z.lor 0xC0 (Z.shiftr codepoint 6));
          u8 (Z.lor 0x80 (Z.land codepoint 0x3F))]
  else if (codepoint <=? 0xFFFF) && negb ((0xD800 <=? codepoint) && (codepoint <=? 0xDFFF)) then
    Some [u8 (Z.lor 0xE0 (Z.shiftr codepoint 12));
          u8 (Z.lor 0x80 (Z.land (Z.shiftr codepoint 6) 0x3F));
          u8 (Z.lor 0x80 (Z.land codepoint 0x3F))]
  else if codepoint <=? 0x10FFFF then
    Some [u8 (Z.lor 0xF0 (Z.shiftr codepoint 18));
          u8 (Z.lor 0x80 (Z.land (Z.shiftr codepoint 12) 0x3F));
          u8 (Z.lor 0x80 (Z.land (Z.shiftr codepoint 6) 0x3F));
          u8 (Z.lor 0x80 (Z.land codepoint 0x3F))]
  else None.

(** [buffer] is the string already in the buffer, so [*length] is its length;
    the result is the string afterwards, whose terminator fits as well. *)
Definition sms_utf8_append (codepoint : Z) (buffer : list Z) (capacity : nat) : option (list Z) :=
  if (capacity <=? length buffer)%nat then None
  else match utf8_bytes codepoint with
       | None => None
       | Some out =>
           if (capacity <=? length out + length buffer)%nat then None
           else Some (buffer ++ out)
       end.

(** ** The default alphabet *)

Fixpoint gsm7_find_basic (codepoint : Z) (i : Z) (table : list Z) : option Z :=
  match table with
  | [] => None
  | e :: table' =>
      if negb (i =? 0x1B) && (e =? codepoint) then Some i
      else gsm7_find_basic codepoint (i + 1) table'
  end.

Fixpoint gsm7_find_extension (codepoint : Z) (table : list (Z * Z)) : option Z :=
  match table with
  | [] => None
  | (c, e) :: table' => if c =? codepoint then Some e else gsm7_find_extension codepoint table'
  end.

(** The one or two septets of a code point; [*count] is their number. *)
Definition gsm7_find (codepoint : Z) : option (list Z) :=
  match gsm7_find_basic codepoint 0 s_gsm7_basic with
  | Some i => Some [u8 i]
  | None =>
      match gsm7_find_extension codepoint s_gsm7_extension with
      | Some e => Some [0x1B; e]
      | None => None
      end
  end.

(** The loop [while ( *cursor != '\0') { sms_utf8_next(...); body }] shared by
    the septet counter, the GSM encoder and the UCS-2 converter; every early
    return of the three is a failure.  [fuel] bounds the iterations. *)
Fixpoint utf8_loop {A} (body : A -> Z -> option A) (fuel : nat) (cursor : list Z) (acc : A)
  : option A :=
  match fuel with
  | O => None
  | S fuel' =>
      if cursor.[0] =? 0 then Some acc
      else match sms_utf8_next cursor with
           | None => None
           | Some (cp, cursor') =>
               match body acc cp with
               | None => None
               | Some acc' => utf8_loop body fuel' cursor' acc'
               end
           end
  end.

(** Each iteration consumes at least one byte, so the length is fuel enough. *)
Definition utf8_fold {A} (body : A -> Z -> option A) (text : list Z) (acc : A) : option A :=
  utf8_loop body (S (length text)) text acc.

Definition septet_count_body (total : Z) (cp : Z) : option Z :=
  match gsm7_find cp with
  | None => None
  | Some septets =>
      let count := Z.of_nat (length septets) in
      if SIZE_MAX - total <? count then None else Some (total + count)
  end.

Definition sms_gsm7_septet_count (utf8_text : option (list Z)) : Z :=
  match utf8_text with
  | None => SIZE_MAX
  | Some text =>
      match utf8_fold septet_count_body text 0 with
      | Some total => total
      | None => SIZE_MAX
      end
  end.

Definition gsm7_encode_body (septet_capacity : nat) (out : list Z) (cp : Z) : option (list Z) :=
  match gsm7_find cp with
  | None => None
  | Some septets =>
      if (septet_capacity <? length out + length septets)%nat then None
      else Some (out ++ septets)
  end.

(** The septets written; [*septet_count] is their number. *)
Definition sms_gsm7_encode (utf8_text : option (list Z)) (septet_capacity : nat)
  : option (list Z) :=
  match utf8_text with
  | None => None
  | Some text => utf8_fold (gsm7_encode_body septet_capacity) text []
  end.

Fixpoint gsm7_extension_search (value : Z) (table : list (Z * Z)) : option Z :=
  match table with
  | [] => None
  | (c, e) :: table' => if e =? value then Some c else gsm7_extension_search value table'
  end.

Definition gsm7_extension_decode (value : Z) : option Z :=
  gsm7_extension_search value s_gsm7_extension.

(** The flag returned and the string left in the buffer, also on failure. *)
Fixpoint gsm7_decode_loop (septets : list Z) (capacity : nat) (out : list Z) : bool * list Z :=
  match septets with
  | [] => (true, out)
  | s :: rest =>
      if s =? 0x1B then
        match rest with
        | [] => (false, out)
        | e :: rest' =>
            match gsm7_extension_decode e with
            | None => (false, out)
            | Some cp =>
                match sms_utf8_append cp out capacity with
                | None => (false, out)
                | Some out' => gsm7_decode_loop rest' capacity out'
                end
            end
        end
      else
        match sms_utf8_append (s_gsm7_basic.[Z.to_nat (Z.land s 0x7F)]) out capacity with
        | None => (false, out)
        | Some out' => gsm7_decode_loop rest capacity out'
        end
  end.

Definition sms_gsm7_decode (septets : list Z) (utf8_capacity : nat) : bool * list Z :=
  if (utf8_capacity =? 0)%nat then (false, []) else gsm7_decode_loop septets utf8_capacity [].

(** ** Specification: text as Unicode scalar values *)

(** The scalar values a C string can hold. *)
Definition scalar (cp : Z) : Prop := 0 < cp <= 0x10FFFF /\ ~ (0xD800 <= cp <= 0xDFFF).

#[global] Instance scalar_dec cp : Decision (scalar cp).
Proof. unfold scalar. apply _. Defined.

Definition utf8_enc (cp : Z) : list Z := default [] (utf8_bytes cp).

Definition utf8 (cps : list Z) : list Z := concat (map utf8_enc cps).

(** ** UTF-8: the cursor and the appender are inverse *)

Section utf8_facts.

Lemma low6 x : 0 <= x < 64 -> Z.land (0x80 + x) 0xC0 = 0x80 /\ Z.land (0x80 + x) 0x3F = x.
Proof. intros Hx. by_range x Hx. Qed.

Lemma lead2 x : 0 <= x < 32 -> Z.land (0xC0 + x) 0xE0 = 0xC0 /\ Z.land (0xC0 + x) 0x1F = x.
Proof. intros Hx. by_range x Hx. Qed.

Lemma lead3 x : 0 <= x < 16 ->
  Z.land (0xE0 + x) 0xE0 = 0xE0 /\ Z.land (0xE0 + x) 0xF0 = 0xE0 /\ Z.land (0xE0 + x) 0x0F = x.
Proof. intros Hx. by_range x Hx. Qed.

Lemma lead4 x : 0 <= x < 8 ->
  Z.land (0xF0 + x) 0xE0 = 0xE0 /\ Z.land (0xF0 + x) 0xF0 = 0xF0 /\
  Z.land (0xF0 + x) 0xF8 = 0xF0 /\ Z.land (0xF0 + x) 0x07 = x.
Proof. intros Hx. by_range x Hx. Qed.

Lemma cont_byte b : is_byte b -> Z.land b 0xC0 = 0x80 -> b = 0x80 + Z.land b 0x3F /\ 0 <= Z.land b 0x3F < 64.
Proof. intros Hb. by_bytes b Hb. Qed.

Lemma lead2_byte b : is_byte b -> Z.land b 0xE0 = 0xC0 -> b = 0xC0 + Z.land b 0x1F /\ 0 <= Z.land b 0x1F < 32.
Proof. intros Hb. by_bytes b Hb. Qed.

Lemma lead3_byte b : is_byte b -> Z.land b 0xF0 = 0xE0 -> b = 0xE0 + Z.land b 0x0F /\ 0 <= Z.land b 0x0F < 16.
Proof. intros Hb. by_bytes b Hb. Qed.

Lemma lead4_byte b : is_byte b -> Z.land b 0xF8 = 0xF0 -> b = 0xF0 + Z.land b 0x07 /\ 0 <= Z.land b 0x07 < 8.
Proof. intros Hb. by_bytes b Hb. Qed.

Lemma u8_lor_lead (base n x : Z) :
  0 <= n -> 0 <= x < 2 ^ n -> base mod 2 ^ n = 0 -> 0 <= base -> base + 2 ^ n <= 256 ->
  u8 (Z.lor base x) = base + x.
Proof.
  intros Hn Hx Hm Hb Hs.
  assert (base = Z.shiftl (base / 2 ^ n) n) as ->.
  { rewrite Z.shiftl_mul_pow2 by done. pose proof (Z.div_mod base (2 ^ n)). lia. }
  rewrite lor_shiftl_add by done. unfold u8. rewrite <- Z.shiftl_mul_pow2 by done.
  assert (Z.shiftl (base / 2 ^ n) n = base) as ->.
  { rewrite Z.shiftl_mul_pow2 by done. pose proof (Z.div_mod base (2 ^ n)). lia. }
  rewrite Z.mod_small; lia.
Qed.

(** The arithmetic form of the encoder. *)
Lemma utf8_bytes_arith cp : scalar cp ->
  utf8_bytes cp = Some
    (if cp <? 0x80 then [cp]
     else if cp <? 0x800 then [0xC0 + cp / 64; 0x80 + cp mod 64]
     else if cp <? 0x10000 then [0xE0 + cp / 4096; 0x80 + (cp / 64) mod 64; 0x80 + cp mod 64]
     else [0xF0 + cp / 262144; 0x80 + (cp / 4096) mod 64; 0x80 + (cp / 64) mod 64; 0x80 + cp mod 64]).
Proof.
  intros [Hr Hs]. unfold utf8_bytes.
  change 0x3F with (2 ^ 6 - 1). rewrite !land_ones_mod, !Z.shiftr_div_pow2 by lia.
  change (2 ^ 6) with 64. change (2 ^ 12) with 4096. change (2 ^ 18) with 262144.
  pose proof (Z.mod_pos_bound cp 64). pose proof (Z.mod_pos_bound (cp / 64) 64).
  pose proof (Z.mod_pos_bound (cp / 4096) 64).
  destruct (Z.leb_spec cp 0x7F), (Z.ltb_spec cp 0x80); try lia.
  { unfold u8. by rewrite Z.mod_small by lia. }
  destruct (Z.leb_spec cp 0x7FF), (Z.ltb_spec cp 0x800); try lia.
  { rewrite (u8_lor_lead 0xC0 5), (u8_lor_lead 0x80 6); (done || lia || (change (2 ^ 5) with 32; Z.div_mod_to_equations; lia)). }
  destruct (Z.leb_spec cp 0xFFFF), (Z.ltb_spec cp 0x10000); try lia.
  { rewrite andb_true_l.
    replace ((0xD800 <=? cp) && (cp <=? 0xDFFF))%bool with false by (symmetry; apply andb_false_iff; lia).
    cbn [negb].
    rewrite (u8_lor_lead 0xE0 4), !(u8_lor_lead 0x80 6); (done || lia || (change (2 ^ 4) with 16; Z.div_mod_to_equations; lia)). }
  rewrite andb_false_l. destruct (Z.leb_spec cp 0x10FFFF); try lia.
  rewrite (u8_lor_lead 0xF0 3), !(u8_lor_lead 0x80 6); (done || lia || (change (2 ^ 3) with 8; Z.div_mod_to_equations; lia)).
Qed.

Lemma utf8_enc_arith cp : scalar cp -> utf8_enc cp =
  if cp <? 0x80 then [cp]
  else if cp <? 0x800 then [0xC0 + cp / 64; 0x80 + cp mod 64]
  else if cp <? 0x10000 then [0xE0 + cp / 4096; 0x80 + (cp / 64) mod 64; 0x80 + cp mod 64]
  else [0xF0 + cp / 262144; 0x80 + (cp / 4096) mod 64; 0x80 + (cp / 64) mod 64; 0x80 + cp mod 64].
Proof. intros H. unfold utf8_enc. by rewrite utf8_bytes_arith. Qed.

(** Recombination of the payload bits of two, three and four bytes. *)
Lemma join2 a b : 0 <= b < 64 -> Z.lor (Z.shiftl a 6) b = a * 64 + b.
Proof. intros. by rewrite lor_shiftl_add by lia. Qed.

Lemma join3 a b c : 0 <= b < 64 -> 0 <= c < 64 ->
  Z.lor (Z.lor (Z.shiftl a 12) (Z.shiftl b 6)) c = a * 4096 + b * 64 + c.
Proof.
  intros. change 12 with (6 + 6). rewrite <- Z.shiftl_shiftl, <- Z.shiftl_lor, join2, join2 by lia. lia.
Qed.

Lemma join4 a b c d : 0 <= b < 64 -> 0 <= c < 64 -> 0 <= d < 64 ->
  Z.lor (Z.lor (Z.lor (Z.shiftl a 18) (Z.shiftl b 12)) (Z.shiftl c 6)) d
  = a * 262144 + b * 4096 + c * 64 + d.
Proof.
  intros. change 18 with (12 + 6). change (Z.shiftl b 12) with (Z.shiftl b (6 + 6)).
  rewrite <- !Z.shiftl_shiftl, <- !Z.shiftl_lor, join2, join3 by lia. lia.
Qed.

Lemma utf8_next_enc cp rest : scalar cp -> sms_utf8_next (utf8_enc cp ++ rest) = Some (cp, rest).
Proof.
  intros H. pose proof H as [Hr Hs]. rewrite utf8_enc_arith by done.
  pose proof (Z.mod_pos_bound cp 64). pose proof (Z.mod_pos_bound (cp / 64) 64).
  pose proof (Z.mod_pos_bound (cp / 4096) 64).
  unfold sms_utf8_next.
  destruct (Z.ltb_spec cp 0x80); [| destruct (Z.ltb_spec cp 0x800);
    [| destruct (Z.ltb_spec cp 0x10000)]]; unfold byte_at; cbn [app nth drop].
  - cases_ltb; done.
  - assert (0 <= cp / 64 < 32) as Hq by (Z.div_mod_to_equations; lia).
    destruct (lead2 _ Hq) as [-> ->]. destruct (low6 (cp mod 64)) as [-> ->]; [lia|].
    rewrite join2 by lia. replace (cp / 64 * 64 + cp mod 64) with cp by (Z.div_mod_to_equations; lia).
    cases_ltb; done.
  - assert (0 <= cp / 4096 < 16) as Hq by (Z.div_mod_to_equations; lia).
    destruct (lead3 _ Hq) as (-> & -> & ->). destruct (low6 (cp mod 64)) as [-> ->]; [lia|].
    destruct (low6 ((cp / 64) mod 64)) as [-> ->]; [lia|]. rewrite join3 by lia.
    replace (cp / 4096 * 4096 + (cp / 64) mod 64 * 64 + cp mod 64) with cp
      by (Z.div_mod_to_equations; lia).
    cases_ltb; done.
  - assert (0 <= cp / 262144 < 8) as Hq by (Z.div_mod_to_equations; lia).
    destruct (lead4 _ Hq) as (-> & -> & -> & ->). destruct (low6 (cp mod 64)) as [-> ->]; [lia|].
    destruct (low6 ((cp / 64) mod 64)) as [-> ->]; [lia|].
    destruct (low6 ((cp / 4096) mod 64)) as [-> ->]; [lia|]. rewrite join4 by lia.
    replace (cp / 262144 * 262144 + (cp / 4096) mod 64 * 4096 + (cp / 64) mod 64 * 64 + cp mod 64)
      with cp by (Z.div_mod_to_equations; lia).
    cases_ltb; done.
Qed.

(** A continuation byte is really in the string: the terminator is not one. *)
Lemma cont_in_string (s : list Z) k :
  Z.land s.[k] 0xC0 = 0x80 -> (k < length s)%nat.
Proof.
  intros H. destruct (decide (k < length s)%nat); [done|].
  unfold byte_at in H. rewrite nth_overflow in H by lia. vm_compute in H. congruence.
Qed.

Lemma utf8_next_inv s cp rest :
  bytes s -> sms_utf8_next s = Some (cp, rest) -> scalar cp /\ s = utf8_enc cp ++ rest.
Proof.
  intros Hs H. pose proof (bytes_at s 0 Hs) as B0.
  assert (0 < length s)%nat as L0.
  { destruct s; [discriminate H | simpl; lia]. }
  unfold sms_utf8_next in H.
  repeat match type of H with
  | context [if ?b then _ else _] => destruct b eqn:?; try discriminate H
  end; boolify; injection H as <- <-.
  - assert (scalar s.[0]) as Hsc by (unfold scalar, is_byte in *; lia).
    split; [done|]. rewrite utf8_enc_arith by done. cases_ltb. simpl.
    by rewrite <- drop_at.
  - pose proof (cont_in_string s 1 ltac:(done)). destruct (lead2_byte s.[0] B0) as [E0 R0]; [done|].
    destruct (cont_byte s.[1] (bytes_at s 1 Hs)) as [E1 R1]; [done|].
    rewrite join2 in * by lia. set (cp := _ + _) in *.
    assert (scalar cp) as Hsc by (unfold scalar; lia).
    split; [done|]. rewrite utf8_enc_arith by done. cases_ltb.
    transitivity (drop 0 s); [done|]. rewrite !drop_at by lia. cbn [app].
    repeat f_equal; (subst cp; Z.div_mod_to_equations; lia).
  - pose proof (cont_in_string s 2 ltac:(done)).
    destruct (lead3_byte s.[0] B0) as [E0 R0]; [done|].
    destruct (cont_byte s.[1] (bytes_at s 1 Hs)) as [E1 R1]; [done|].
    destruct (cont_byte s.[2] (bytes_at s 2 Hs)) as [E2 R2]; [done|].
    rewrite join3 in * by lia. set (cp := _ + _) in *.
    assert (scalar cp) as Hsc.
    { unfold scalar. match goal with H : (_ && _)%bool = false |- _ => apply andb_false_iff in H as [?|?] end;
      boolify; lia. }
    split; [done|]. rewrite utf8_enc_arith by done. cases_ltb.
    transitivity (drop 0 s); [done|]. rewrite !drop_at by lia. cbn [app].
    repeat f_equal; (subst cp; Z.div_mod_to_equations; lia).
  - pose proof (cont_in_string s 3 ltac:(done)).
    destruct (lead4_byte s.[0] B0) as [E0 R0]; [done|].
    destruct (cont_byte s.[1] (bytes_at s 1 Hs)) as [E1 R1]; [done|].
    destruct (cont_byte s.[2] (bytes_at s 2 Hs)) as [E2 R2]; [done|].
    destruct (cont_byte s.[3] (bytes_at s 3 Hs)) as [E3 R3]; [done|].
    rewrite join4 in * by lia. set (cp := _ + _) in *.
    assert (scalar cp) as Hsc by (unfold scalar; lia).
    split; [done|]. rewrite utf8_enc_arith by done. cases_ltb.
    transitivity (drop 0 s); [done|]. rewrite !drop_at by lia. cbn [app].
    repeat f_equal; (subst cp; Z.div_mod_to_equations; lia).
Qed.

End utf8_facts.

Lemma utf8_enc_cstring cp : scalar cp -> cstring (utf8_enc cp).
Proof.
  intros H. rewrite utf8_enc_arith by done. destruct H as [Hr Hs].
  unfold cstring. cases_ltb; repeat constructor; Z.div_mod_to_equations; lia.
Qed.

Lemma utf8_enc_length cp : scalar cp -> (1 <= length (utf8_enc cp) <= 4)%nat.
Proof. intros H. rewrite utf8_enc_arith by done. cases_ltb; simpl; lia. Qed.

Lemma utf8_bytes_enc cp : scalar cp -> utf8_bytes cp = Some (utf8_enc cp).
Proof. intros H. unfold utf8_enc. by rewrite utf8_bytes_arith. Qed.

Lemma utf8_cons cp cps : utf8 (cp :: cps) = utf8_enc cp ++ utf8 cps.
Proof. done. Qed.

Lemma utf8_app cps1 cps2 : utf8 (cps1 ++ cps2) = utf8 cps1 ++ utf8 cps2.
Proof. unfold utf8. by rewrite map_app, concat_app. Qed.

Lemma utf8_cstring cps : Forall scalar cps -> cstring (utf8 cps).
Proof.
  induction 1; [constructor|]. rewrite utf8_cons. apply cstring_app. auto using utf8_enc_cstring.
Qed.

Lemma utf8_head cps : Forall scalar cps -> ((utf8 cps).[0] =? 0) = bool_decide (cps = []).
Proof.
  intros H. destruct H as [|cp cps Hcp Hcps]; [done|]. rewrite utf8_cons.
  pose proof (utf8_enc_length cp Hcp) as L. pose proof (utf8_enc_cstring cp Hcp) as C.
  destruct (utf8_enc cp) as [|b l]; [simpl in L; lia|]. inversion C; subst.
  change (((b :: l) ++ utf8 cps).[0]) with b.
  rewrite bool_decide_eq_false_2 by done. apply Z.eqb_neq. lia.
Qed.

#[export] Hint Resolve utf8_enc_cstring utf8_cstring utf8_next_enc : gw.

(** ** The cursor loop computes a fold over the scalar values of the text *)

Lemma utf8_loop_enc {A} (body : A -> Z -> option A) cps fuel acc :
  Forall scalar cps -> (length cps < fuel)%nat ->
  utf8_loop body fuel (utf8 cps) acc = foldM body cps acc.
Proof.
  intros Hcps. revert fuel acc. induction Hcps as [|cp cps Hcp Hcps IH]; intros [|fuel] acc Hf; simpl in Hf; try lia.
  - done.
  - cbn [utf8_loop]. rewrite utf8_head, bool_decide_eq_false_2 by (done || by constructor).
    rewrite utf8_cons, utf8_next_enc by done. cbn [foldM].
    destruct (body acc cp); [|done]. apply IH. lia.
Qed.

Lemma utf8_length_ge cps : Forall scalar cps -> (length cps <= length (utf8 cps))%nat.
Proof.
  induction 1 as [|cp cps Hcp Hcps IH]; [done|]. rewrite utf8_cons, length_app. simpl.
  pose proof (utf8_enc_length cp Hcp). lia.
Qed.

Lemma utf8_fold_enc {A} (body : A -> Z -> option A) cps acc :
  Forall scalar cps -> utf8_fold body (utf8 cps) acc = foldM body cps acc.
Proof.
  intros H. apply utf8_loop_enc; [done|]. pose proof (utf8_length_ge cps H). lia.
Qed.

Lemma utf8_loop_Some {A} (body : A -> Z -> option A) fuel s acc r :
  cstring s -> utf8_loop body fuel s acc = Some r ->
  exists cps, Forall scalar cps /\ s = utf8 cps.
Proof.
  revert s acc. induction fuel as [|fuel IH]; intros s acc Hs H; [done|]. cbn [utf8_loop] in H.
  destruct (Z.eqb_spec s.[0] 0) as [E|E].
  { exists []. split; [constructor|]. destruct s as [|c s]; [done|]. inversion Hs; subst.
    unfold byte_at in E. simpl in E. lia. }
  destruct (sms_utf8_next s) as [[cp s']|] eqn:En; [|done].
  destruct (body acc cp) as [acc'|]; [|done].
  apply utf8_next_inv in En as [Hsc ->]; [|by apply cstring_bytes].
  apply cstring_app in Hs as [_ Hs].
  destruct (IH _ _ Hs H) as (cps & Hcps & ->). exists (cp :: cps). split; [by constructor|done].
Qed.

(** A loop that returns a result has read a well-formed text. *)
Lemma utf8_fold_Some {A} (body : A -> Z -> option A) s acc r :
  cstring s -> utf8_fold body s acc = Some r ->
  exists cps, Forall scalar cps /\ s = utf8 cps /\ foldM body cps acc = Some r.
Proof.
  intros Hs H. destruct (utf8_loop_Some _ _ _ _ _ Hs H) as (cps & Hcps & ->).
  exists cps. split_and!; [done..|]. by rewrite <- utf8_fold_enc.
Qed.

(** ** The alphabet *)

Lemma gsm7_find_basic_spec cp i0 table i :
  gsm7_find_basic cp i0 table = Some i ->
  exists k, i = i0 + Z.of_nat k /\ table !! k = Some cp /\ i <> 0x1B.
Proof.
  revert i0. induction table as [|e table IH]; intros i0 H; [done|]. simpl in H.
  destruct (negb (i0 =? 0x1B) && (e =? cp))%bool eqn:E.
  - boolify. injection H as <-. exists 0%nat. subst. split_and!; [lia|done|done].
  - destruct (IH _ H) as (k & -> & Hk & Hne). exists (S k). split_and!; [lia|done|done].
Qed.

Lemma gsm7_find_extension_spec cp table e :
  gsm7_find_extension cp table = Some e -> (cp, e) ∈ table.
Proof.
  induction table as [|[c x] table IH]; simpl; [done|]. intros H.
  destruct (Z.eqb_spec c cp); [injection H as <-; subst; left | right; auto].
Qed.

(** Every pair of the extension table is found again from its septet. *)
Lemma gsm7_extension_ok cp e :
  (cp, e) ∈ s_gsm7_extension -> 0 <= e < 128 /\ e <> 0x1B /\ gsm7_extension_decode e = Some cp.
Proof.
  intros Hin.
  assert (Forall (fun p => bool_decide (0 <= p.2 < 128 /\ p.2 <> 0x1B
                             /\ gsm7_extension_decode p.2 = Some p.1)) s_gsm7_extension) as H.
  { repeat constructor; vm_compute; exact I. }
  apply (proj1 (Forall_forall _ _) H) in Hin. by apply bool_decide_unpack in Hin.
Qed.

(** What the encoder emits for a character, the decoder reads back as it. *)
Lemma gsm7_find_decode cp septets :
  gsm7_find cp = Some septets ->
  (exists s, septets = [s] /\ 0 <= s < 128 /\ s <> 0x1B /\ s_gsm7_basic.[Z.to_nat (Z.land s 0x7F)] = cp) \/
  (exists e, septets = [0x1B; e] /\ 0 <= e < 128 /\ e <> 0x1B /\ gsm7_extension_decode e = Some cp).
Proof.
  unfold gsm7_find. destruct (gsm7_find_basic cp 0 s_gsm7_basic) as [i|] eqn:Eb.
  - intros [= <-]. left. destruct (gsm7_find_basic_spec _ _ _ _ Eb) as (k & -> & Hk & Hne).
    pose proof (lookup_lt_Some _ _ _ Hk) as Hlt. change (length s_gsm7_basic) with 128%nat in Hlt.
    assert (u8 (0 + Z.of_nat k) = Z.of_nat k) as -> by (unfold u8; rewrite Z.mod_small; lia).
    exists (Z.of_nat k). split_and!; [done|lia|lia|lia|].
    change 0x7F with (2 ^ 7 - 1). rewrite land_ones_mod, Z.mod_small, Nat2Z.id by lia.
    unfold byte_at. by apply nth_lookup_Some.
  - destruct (gsm7_find_extension cp s_gsm7_extension) as [e|] eqn:Ee; [|done].
    intros [= <-]. right. exists e. apply gsm7_find_extension_spec in Ee.
    destruct (gsm7_extension_ok cp e Ee) as (? & ? & ?). split_and!; [done|lia|lia|done|done].
Qed.

Lemma utf8_append_enc cp out cap :
  scalar cp -> (length out + length (utf8_enc cp) < cap)%nat ->
  sms_utf8_append cp out cap = Some (out ++ utf8_enc cp).
Proof.
  intros Hcp Hlen. unfold sms_utf8_append. rewrite utf8_bytes_enc by done.
  destruct (Nat.leb_spec cap (length out)); [lia|].
  destruct (Nat.leb_spec cap (length (utf8_enc cp) + length out)); [lia|done].
Qed.

(** The septets of a text, as a specification. *)
Definition gsm7_septets (cps : list Z) : list Z := concat (map (fun cp => default [] (gsm7_find cp)) cps).

Definition gsm7_text (cps : list Z) : Prop := Forall (fun cp => scalar cp /\ is_Some (gsm7_find cp)) cps.

#[global] Instance gsm7_text_dec cps : Decision (gsm7_text cps).
Proof. unfold gsm7_text. apply _. Defined.

Lemma gsm7_text_scalar cps : gsm7_text cps -> Forall scalar cps.
Proof. intros H. eapply Forall_impl; [exact H|]. by intros ? [? _]. Qed.

Lemma gsm7_septets_cons cp cps : gsm7_septets (cp :: cps) = default [] (gsm7_find cp) ++ gsm7_septets cps.
Proof. done. Qed.

Lemma gsm7_septets_app cps1 cps2 : gsm7_septets (cps1 ++ cps2) = gsm7_septets cps1 ++ gsm7_septets cps2.
Proof. unfold gsm7_septets. by rewrite map_app, concat_app. Qed.

(** Decoding the septets of a text appends the text. *)
Lemma gsm7_decode_septets cps cap out :
  gsm7_text cps -> (length out + length (utf8 cps) < cap)%nat ->
  gsm7_decode_loop (gsm7_septets cps) cap out = (true, out ++ utf8 cps).
Proof.
  intros H. revert out. induction H as [|cp cps [Hcp [ss Hss]] Hcps IH]; intros out Hlen.
  { simpl. by rewrite app_nil_r. }
  rewrite gsm7_septets_cons, utf8_cons, Hss. simpl default.
  rewrite utf8_cons, length_app in Hlen. rewrite app_assoc.
  destruct (gsm7_find_decode cp ss Hss) as [(s & -> & _ & Hne & Hs) | (e & -> & _ & _ & He)]; cbn [app gsm7_decode_loop].
  - apply Z.eqb_neq in Hne. rewrite Hne, Hs, utf8_append_enc by (done || lia).
    apply IH. rewrite length_app. lia.
  - change (0x1B =? 0x1B) with true. cbn iota. rewrite He, utf8_append_enc by (done || lia).
    apply IH. rewrite length_app. lia.
Qed.

(** ** Encoder, counter and decoder agree *)

Lemma encode_foldM cap cps out :
  Forall scalar cps -> (length out <= cap)%nat ->
  foldM (gsm7_encode_body cap) cps out =
    if bool_decide (gsm7_text cps) && (length out + length (gsm7_septets cps) <=? cap)%nat
    then Some (out ++ gsm7_septets cps) else None.
Proof.
  intros H. revert out. induction H as [|cp cps Hcp Hcps IH]; intros out Hout.
  { rewrite bool_decide_eq_true_2 by constructor. simpl. rewrite Nat.add_0_r, app_nil_r.
    by destruct (Nat.leb_spec (length out) cap); [|lia]. }
  cbn [foldM]. unfold gsm7_encode_body at 1. rewrite gsm7_septets_cons.
  destruct (gsm7_find cp) as [ss|] eqn:Ess.
  - simpl default. rewrite (bool_decide_ext (gsm7_text (cp :: cps)) (gsm7_text cps)).
    2: { unfold gsm7_text. rewrite Forall_cons, Ess. intuition eauto. }
    destruct (Nat.ltb_spec cap (length out + length ss)).
    + rewrite length_app. destruct (Nat.leb_spec (length out + (length ss + length (gsm7_septets cps))) cap); [lia|].
      by rewrite andb_false_r.
    + rewrite IH by (rewrite length_app; lia). rewrite !length_app, <- app_assoc.
      by rewrite Nat.add_assoc.
  - rewrite bool_decide_eq_false_2; [done|]. intros Hn. inversion Hn as [|? ? [_ Hs] ?]; subst.
    rewrite Ess in Hs. by destruct Hs.
Qed.

Lemma count_foldM cps total :
  Forall scalar cps -> total + 2 * Z.of_nat (length cps) < SIZE_MAX ->
  foldM septet_count_body cps total =
    if bool_decide (gsm7_text cps) then Some (total + Z.of_nat (length (gsm7_septets cps))) else None.
Proof.
  intros H. revert total. induction H as [|cp cps Hcp Hcps IH]; intros total Ht.
  { rewrite bool_decide_eq_true_2 by constructor. simpl. by rewrite Z.add_0_r. }
  cbn [foldM length] in *. unfold septet_count_body at 1. rewrite gsm7_septets_cons.
  destruct (gsm7_find cp) as [ss|] eqn:Ess.
  - simpl default. rewrite (bool_decide_ext (gsm7_text (cp :: cps)) (gsm7_text cps)).
    2: { unfold gsm7_text. rewrite Forall_cons, Ess. intuition eauto. }
    assert (length ss <= 2)%nat.
    { destruct (gsm7_find_decode cp ss Ess) as [(? & -> & _) | (? & -> & _)]; simpl; lia. }
    destruct (Z.ltb_spec (SIZE_MAX - total) (Z.of_nat (length ss))); [lia|].
    rewrite IH by lia. rewrite length_app, Nat2Z.inj_add. by rewrite Z.add_assoc.
  - rewrite bool_decide_eq_false_2; [done|]. intros Hn. inversion Hn as [|? ? [_ Hs] ?]; subst.
    rewrite Ess in Hs. by destruct Hs.
Qed.

Lemma gsm7_encode_utf8 cps cap :
  Forall scalar cps ->
  sms_gsm7_encode (Some (utf8 cps)) cap =
    if bool_decide (gsm7_text cps) && (length (gsm7_septets cps) <=? cap)%nat
    then Some (gsm7_septets cps) else None.
Proof.
  intros H. unfold sms_gsm7_encode. rewrite utf8_fold_enc, encode_foldM by (done || simpl; lia). done.
Qed.

Lemma gsm7_encode_Some text cap septets :
  cstring text -> sms_gsm7_encode (Some text) cap = Some septets ->
  exists cps, gsm7_text cps /\ text = utf8 cps /\ septets = gsm7_septets cps /\ (length septets <= cap)%nat.
Proof.
  intros Ht H. destruct (utf8_fold_Some _ _ _ _ Ht H) as (cps & Hcps & -> & _).
  rewrite gsm7_encode_utf8 in H by done. case_bool_decide; [|done].
  simpl in H. destruct (Nat.leb_spec (length (gsm7_septets cps)) cap); [|done].
  injection H as <-. eauto.
Qed.

Lemma septet_count_utf8 cps :
  Forall scalar cps -> 2 * Z.of_nat (length cps) < SIZE_MAX ->
  sms_gsm7_septet_count (Some (utf8 cps)) =
    if bool_decide (gsm7_text cps) then Z.of_nat (length (gsm7_septets cps)) else SIZE_MAX.
Proof.
  intros H Hl. unfold sms_gsm7_septet_count. rewrite utf8_fold_enc, count_foldM by done.
  by case_bool_decide.
Qed.

Lemma gsm7_septets_length_le cps : (length (gsm7_septets cps) <= 2 * length cps)%nat.
Proof.
  induction cps as [|cp cps IH]; [done|]. rewrite gsm7_septets_cons, length_app. simpl length.
  destruct (gsm7_find cp) as [ss|] eqn:E; simpl; [|lia].
  destruct (gsm7_find_decode cp ss E) as [(? & -> & _) | (? & -> & _)]; simpl; lia.
Qed.

(** A counted text is a text of the alphabet, and the count is its septets. *)
Lemma septet_count_inv text :
  cstring text -> 2 * Z.of_nat (length text) < SIZE_MAX ->
  sms_gsm7_septet_count (Some text) <> SIZE_MAX ->
  exists cps, gsm7_text cps /\ text = utf8 cps /\
    sms_gsm7_septet_count (Some text) = Z.of_nat (length (gsm7_septets cps)).
Proof.
  intros Ht Hl Hc. unfold sms_gsm7_septet_count in *.
  destruct (utf8_fold septet_count_body text 0) as [total|] eqn:E; [|done].
  destruct (utf8_fold_Some _ _ _ _ Ht E) as (cps & Hcps & -> & Hf).
  pose proof (utf8_length_ge cps Hcps).
  rewrite count_foldM in Hf by (done || lia). case_bool_decide; [|done].
  injection Hf as <-. exists cps. split_and!; [done..|lia].
Qed.

(** The UTF-8 reader and writer are inverse to each other on every string
    a C pointer can denote: reading what [sms_utf8_append] writes for a scalar
    value gives the value and the rest of the string, and whatever the reader
    accepts is exactly what the writer produces for the value it returns. *)
Theorem utf8_reader_writer_inverse (s : list Z) (cp : Z) (rest : list Z) :
  bytes s ->
  (sms_utf8_next s = Some (cp, rest) <->
   scalar cp /\ exists out, sms_utf8_append cp [] 5 = Some out /\ s = out ++ rest).
Proof.
  intros Hs. split.
  - intros H. destruct (utf8_next_inv s cp rest Hs H) as [Hcp ->]. split; [done|].
    exists (utf8_enc cp). pose proof (utf8_enc_length cp Hcp).
    by rewrite utf8_append_enc by (done || simpl; lia).
  - intros [Hcp (out & Hout & ->)]. pose proof (utf8_enc_length cp Hcp).
    rewrite utf8_append_enc in Hout by (done || simpl; lia). injection Hout as <-.
    by apply utf8_next_enc.
Qed.

Lemma utf8_reader_writer_inverse_witness :
  sms_utf8_next (str "€5") = Some (0x20AC, str "5").
Proof.
  apply (utf8_reader_writer_inverse (str "€5") 0x20AC (str "5")).
  - apply (bool_decide_unpack _). vm_compute. exact I.
  - split; [apply (bool_decide_unpack _); vm_compute; exact I|].
    exists (str "€"). split; reflexivity.
Defined.

(** Decoding the septets that encoding a text produced gives back that
    text, for every text of the alphabet, whenever the output buffer can hold
    it with its terminator. *)
Theorem gsm7_encode_decode_roundtrip (text septets : list Z) (cap cap' : nat) :
  cstring text -> sms_gsm7_encode (Some text) cap = Some septets ->
  (length text < cap')%nat -> sms_gsm7_decode septets cap' = (true, text).
Proof.
  intros Ht He Hc. destruct (gsm7_encode_Some _ _ _ Ht He) as (cps & Hcps & -> & -> & _).
  unfold sms_gsm7_decode. destruct (Nat.eqb_spec cap' 0); [lia|].
  by apply (gsm7_decode_septets cps cap' []).
Qed.

Lemma gsm7_encode_decode_roundtrip_witness :
  sms_gsm7_decode [0x1B; 0x65; 0x1B; 0x3C; 16] 10 = (true, str "€[Δ").
Proof.
  apply (gsm7_encode_decode_roundtrip _ _ 5); [|reflexivity|vm_compute; lia].
  apply (bool_decide_unpack _). vm_compute. exact I.
Defined.

(** [sms_gsm7_septet_count] is the preflight of [sms_gsm7_encode]: when it
    returns [SIZE_MAX] the encoder fails for every capacity, and otherwise the
    encoder succeeds exactly for the capacities that hold the count, writing
    that many septets. *)
Theorem septet_count_predicts_encode (text : list Z) :
  cstring text -> 2 * Z.of_nat (length text) < SIZE_MAX ->
  (sms_gsm7_septet_count (Some text) = SIZE_MAX /\ forall cap, sms_gsm7_encode (Some text) cap = None) \/
  (exists septets, sms_gsm7_septet_count (Some text) = Z.of_nat (length septets) /\
     forall cap, sms_gsm7_encode (Some text) cap =
       if (length septets <=? cap)%nat then Some septets else None).
Proof.
  intros Ht Hl. destruct (decide (sms_gsm7_septet_count (Some text) = SIZE_MAX)) as [E|E].
  - left. split; [done|]. intros cap.
    destruct (sms_gsm7_encode (Some text) cap) as [septets|] eqn:He; [|done]. exfalso.
    destruct (gsm7_encode_Some _ _ _ Ht He) as (cps & Hcps & -> & -> & _).
    pose proof (utf8_length_ge cps (gsm7_text_scalar _ Hcps)).
    rewrite septet_count_utf8, bool_decide_eq_true_2 in E by (done || lia || by apply gsm7_text_scalar).
    pose proof (gsm7_septets_length_le cps). lia.
  - right. destruct (septet_count_inv text Ht Hl E) as (cps & Hcps & -> & ->).
    exists (gsm7_septets cps). split; [done|]. intros cap.
    by rewrite gsm7_encode_utf8, bool_decide_eq_true_2 by (done || by apply gsm7_text_scalar).
Qed.

Lemma septet_count_predicts_encode_witness :
  sms_gsm7_encode (Some (str "a~")) 3 = Some [0x61; 0x1B; 0x3D].
Proof.
  destruct (septet_count_predicts_encode (str "a~")) as [[H _] | (septets & H & _)];
    [apply (bool_decide_unpack _); vm_compute; exact I | reflexivity | | reflexivity].
  vm_compute in H. discriminate H.
Defined.

Lemma decode_loop_bounded septets cap out :
  (length out < cap)%nat -> (length (gsm7_decode_loop septets cap out).2 < cap)%nat.
Proof.
  assert (forall cp o o', sms_utf8_append cp o cap = Some o' -> (length o' < cap)%nat) as App.
  { unfold sms_utf8_append. intros cp o o' H. cases H. boolify. rewrite length_app. lia. }
  revert out. induction septets as [septets IH] using (well_founded_induction (well_founded_ltof _ length)).
  intros out Hout. destruct septets as [|s [|e rest]]; cbn [gsm7_decode_loop]; [done|..].
  - destruct (s =? 0x1B); [done|]. destruct (sms_utf8_append _ _ _) eqn:E; simpl; eauto.
  - destruct (s =? 0x1B).
    + destruct (gsm7_extension_decode e); [|done].
      destruct (sms_utf8_append _ _ _) eqn:E; [|done]. apply IH; [unfold ltof; simpl; lia | eauto].
    + destruct (sms_utf8_append _ _ _) eqn:E; [|done].
      apply (IH (e :: rest)); [unfold ltof; simpl; lia | eauto].
Qed.

(** For arbitrary septets, valid or not, the decoder never writes outside
    its output buffer: the string it leaves there, also when it fails, is
    shorter than the capacity, so that its terminator fits. *)
Theorem gsm7_decode_in_bounds (septets : list Z) (cap : nat) :
  (0 < cap)%nat -> (length (sms_gsm7_decode septets cap).2 < cap)%nat.
Proof.
  intros H. unfold sms_gsm7_decode. destruct (Nat.eqb_spec cap 0); [lia|].
  by apply decode_loop_bounded.
Qed.

Lemma gsm7_decode_in_bounds_witness : (length (sms_gsm7_decode [0x1B; 0x65; 0x41]%Z 4).2 < 4)%nat.
Proof. apply gsm7_decode_in_bounds. lia. Defined.
