(* ===== verification/PduEncode.v ===== *)
(** * SMS-SUBMIT encoding (components/sms_codec/sms_pdu.c, first half)

    Hexadecimal, addresses, user-data headers, septet packing, segmentation
    and the two entry points [sms_submit_encode] and [sms_submit_preflight].

    An output buffer with its length is the list of the bytes written so far;
    a fallible routine returns [None] where the C function returns false. *)

From stdpp Require Import base numbers list strings.
From S2P Require Import Prelude.
From S2P Require Import Gsm7.

Open Scope Z_scope.

(** ** Constants and types (sms_codec.h) *)

Definition SMS_MAX_ADDRESS_LENGTH : nat := 24.
Definition SMS_MAX_TEXT_UTF8 : nat := Z.to_nat 2048.
Definition SMS_MAX_PDU_OCTETS : nat := 176.
Definition SMS_MAX_PDU_HEX : nat := SMS_MAX_PDU_OCTETS * 2 + 1.
Definition SMS_MAX_SEGMENTS : nat := 16.
Definition SMS_MAX_GSM7_SEPTETS : nat := Z.to_nat 2560.
Definition SMS_MAX_UCS2_UNITS : nat := Z.to_nat 1120.

Inductive sms_encoding_t :=
  | SMS_ENCODING_GSM7
  | SMS_ENCODING_UCS2
  | SMS_ENCODING_8BIT
  | SMS_ENCODING_UNKNOWN.

#[global] Instance sms_encoding_eq_dec : EqDecision sms_encoding_t.
Proof. solve_decision. Defined.

Record sms_concat_info_t := mk_concat {
  concat_present : bool;
  concat_is_16bit : bool;
  concat_reference : Z;
  concat_total_parts : Z;
  concat_part_number : Z;
}.

Definition concat_zero : sms_concat_info_t := mk_concat false false 0 0 0.

(** The caller's segment slots are zeroed before the call, so what a slot does
    not get assigned is zero. *)
Record sms_submit_segment_t := mk_segment {
  seg_encoding : sms_encoding_t;
  seg_concat : sms_concat_info_t;
  segment_number : Z;
  segment_count : Z;
  tpdu_length_octets : nat;
  pdu_hex : list Z;
}.

(** ** Hexadecimal output and the bounded PDU buffer *)

Definition hex_digits : list Z := str "0123456789ABCDEF".

Fixpoint hex_encode_bytes (data : list Z) : list Z :=
  match data with
  | [] => []
  | b :: data' =>
      hex_digits.[Z.to_nat (Z.shiftr b 4)] :: hex_digits.[Z.to_nat (Z.land b 0x0F)]
        :: hex_encode_bytes data'
  end.

Definition hex_encode (data : list Z) (out_capacity : nat) : option (list Z) :=
  if (out_capacity <? length data * 2 + 1)%nat then None else Some (hex_encode_bytes data).

Definition buffer_put (buffer : list Z) (byte : Z) : option (list Z) :=
  if (SMS_MAX_PDU_OCTETS <=? length buffer)%nat then None else Some (buffer ++ [byte]).

Definition buffer_append (buffer data : list Z) : option (list Z) :=
  if (SMS_MAX_PDU_OCTETS <? length buffer + length data)%nat then None else Some (buffer ++ data).

(** ** Addresses *)

(** The digits without the plus sign, and whether there was one. *)
Definition address_validate (address : list Z) : option (list Z * bool) :=
  let intl := address.[0] =? 43 in
  let digits := c_str (if intl then drop 1 address else address) in
  if (length digits =? 0)%nat || (20 <? length digits)%nat then None
  else if forallb isdigit digits then Some (digits, intl) else None.

Fixpoint address_encode_digits (buffer digits : list Z) : option (list Z) :=
  match digits with
  | [] => Some buffer
  | [d] => buffer_put buffer (u8 (Z.lor (u8 (d - 48)) (Z.shiftl 0x0F 4)))
  | d1 :: d2 :: digits' =>
      match buffer_put buffer (u8 (Z.lor (u8 (d1 - 48)) (Z.shiftl (u8 (d2 - 48)) 4))) with
      | None => None
      | Some buffer' => address_encode_digits buffer' digits'
      end
  end.

Definition address_encode (buffer address : list Z) : option (list Z) :=
  '(digits, international) ← address_validate address;
  buffer ← buffer_put buffer (u8 (Z.of_nat (length digits)));
  buffer ← buffer_put buffer (if international : bool then 0x91 else 0x81);
  address_encode_digits buffer digits.

(** ** Concatenation header and septet packing *)

(** The header bytes; the C function returns their number. *)
Definition concat_header (reference total sequence : Z) : list Z :=
  if reference <=? 0xFF then [0x05; 0x00; 0x03; u8 reference; total; sequence]
  else [0x06; 0x08; 0x04; u8 (Z.shiftr reference 8); u8 reference; total; sequence].

Definition header_septets (header_bytes : nat) : nat := (header_bytes * 8 + 6) / 7.

(** [out[i] |= v] *)
Definition array_or (out : list Z) (i : nat) (v : Z) : list Z := <[i := Z.lor out.[i] v]> out.

Definition pack_step (total_bytes : nat) (st : list Z * nat) (septet : Z) : list Z * nat :=
  let '(out, bit) := st in
  let value := Z.land septet 0x7F in
  let byte_index := (bit / 8)%nat in
  let shift := Z.of_nat (bit mod 8) in
  let out := array_or out byte_index (u8 (Z.shiftl value shift)) in
  let out :=
    if (1 <? shift) && (byte_index + 1 <? total_bytes)%nat
    then array_or out (byte_index + 1) (u8 (Z.shiftr value (8 - shift)))
    else out in
  (out, bit + 7)%nat.

(** The packed user data and the value of TP-UDL. *)
Definition pack_septets (septets udh : list Z) (out_capacity : nat) : option (list Z * Z) :=
  let hseptets := if (0 <? length udh)%nat then header_septets (length udh) else 0%nat in
  let total_septets := (hseptets + length septets)%nat in
  let total_bytes := ((total_septets * 7 + 7) / 8)%nat in
  if (255 <? total_septets)%nat || (out_capacity <? total_bytes)%nat then None
  else
    let out := udh ++ replicate (total_bytes - length udh) 0 in
    let '(out, _) := fold_left (pack_step total_bytes) septets (out, hseptets * 7)%nat in
    Some (out, u8 (Z.of_nat total_septets)).

(** ** One SUBMIT PDU *)

(** The TPDU length and the hexadecimal PDU that go into the segment. *)
Definition build_submit_pdu (recipient : list Z) (encoding : sms_encoding_t)
    (request_status_report : bool) (udh payload : list Z) : option (nat * list Z) :=
  pdu ← buffer_put [] 0x00;
  let tpdu_start := length pdu in
  let first := 0x01 in
  let first := if request_status_report then Z.lor first 0x20 else first in
  let first := if (0 <? length udh)%nat then Z.lor first 0x40 else first in
  pdu ← buffer_put pdu first;
  pdu ← buffer_put pdu 0x00;
  pdu ← address_encode pdu recipient;
  pdu ← buffer_put pdu 0x00;
  pdu ← match encoding with
        | SMS_ENCODING_GSM7 =>
            pdu ← buffer_put pdu 0x00;
            '(packed, udl) ← pack_septets payload udh 140;
            pdu ← buffer_put pdu udl;
            buffer_append pdu packed
        | SMS_ENCODING_UCS2 =>
            pdu ← buffer_put pdu 0x08;
            let ud_octets := (length udh + length payload)%nat in
            if (140 <? ud_octets)%nat then None else
            pdu ← buffer_put pdu (u8 (Z.of_nat ud_octets));
            pdu ← (if (0 <? length udh)%nat then buffer_append pdu udh else Some pdu);
            buffer_append pdu payload
        | _ => None
        end;
  hex ← hex_encode pdu SMS_MAX_PDU_HEX;
  Some ((length pdu - tpdu_start)%nat, hex).

(** ** Segmentation *)

(** The end offsets of the parts; [slots] counts the parts still allowed. *)
Fixpoint split_gsm7_loop (slots : nat) (septets : list Z) (per_segment pos : nat)
  : option (list nat) :=
  if (length septets <=? pos)%nat then Some []
  else match slots with
  | O => None
  | S slots' =>
      let take := (length septets - pos)%nat in
      let take :=
        if (per_segment <? take)%nat then
          if (0 <? per_segment)%nat && (septets.[(pos + per_segment - 1)%nat] =? 0x1B)
          then (per_segment - 1)%nat else per_segment
        else take in
      if (take =? 0)%nat then None
      else match split_gsm7_loop slots' septets per_segment (pos + take) with
           | None => None
           | Some offsets => Some ((pos + take)%nat :: offsets)
           end
  end.

Definition split_gsm7 (septets : list Z) (per_segment : nat) : option (list nat) :=
  split_gsm7_loop SMS_MAX_SEGMENTS septets per_segment 0.

Definition high_surrogate (unit : Z) : bool := (0xD800 <=? unit) && (unit <=? 0xDBFF).

(** The loop over UTF-16 units that the two entry points share. *)
Fixpoint split_ucs2_loop (slots : nat) (units : list Z) (units_per_segment cursor : nat)
  : option (list nat) :=
  if (length units <=? cursor)%nat then Some []
  else match slots with
  | O => None
  | S slots' =>
      let count := (length units - cursor)%nat in
      let count := if (units_per_segment <? count)%nat then units_per_segment else count in
      let count :=
        if (0 <? count)%nat && (cursor + count <? length units)%nat
           && high_surrogate units.[(cursor + count - 1)%nat]
        then (count - 1)%nat else count in
      if (count =? 0)%nat then None
      else match split_ucs2_loop slots' units units_per_segment (cursor + count) with
           | None => None
           | Some offsets => Some ((cursor + count)%nat :: offsets)
           end
  end.

Definition utf8_to_ucs2_body (capacity : nat) (units : list Z) (cp : Z) : option (list Z) :=
  if cp <=? 0xFFFF then
    if ((0xD800 <=? cp) && (cp <=? 0xDFFF)) || (capacity <=? length units)%nat then None
    else Some (units ++ [u16 cp])
  else if (0x10FFFF <? cp) || (capacity <? length units + 2)%nat then None
  else
    let cp := cp - 0x10000 in
    Some (units ++ [u16 (Z.lor 0xD800 (Z.shiftr cp 10)); u16 (Z.lor 0xDC00 (Z.land cp 0x03FF))]).

Definition utf8_to_ucs2 (text : list Z) (capacity : nat) : option (list Z) :=
  utf8_fold (utf8_to_ucs2_body capacity) text [].

(** The big-endian octets of the units. *)
Fixpoint ucs2_payload (units : list Z) : list Z :=
  match units with
  | [] => []
  | u :: units' => u8 (Z.shiftr u 8) :: u8 u :: ucs2_payload units'
  end.

(** ** Entry points *)

Definition single_segment (recipient : list Z) (encoding : sms_encoding_t)
    (request_status_report : bool) (payload : list Z) : option (list sms_submit_segment_t) :=
  '(tpdu, hex) ← build_submit_pdu recipient encoding request_status_report [] payload;
  Some [mk_segment encoding concat_zero 1 1 tpdu hex].

(** The loop over the parts: part [i] carries the items from [start] to the
    head of [offsets]; [payload_of] turns them into PDU payload. *)
Fixpoint build_parts (recipient : list Z) (encoding : sms_encoding_t)
    (request_status_report : bool) (concat_ref : Z) (parts : nat)
    (payload_of : list Z -> list Z) (items : list Z)
    (i start : nat) (offsets : list nat) : option (list sms_submit_segment_t) :=
  match offsets with
  | [] => Some []
  | stop :: offsets' =>
      let udh := concat_header concat_ref (u8 (Z.of_nat parts)) (u8 (Z.of_nat (i + 1))) in
      let count := (stop - start)%nat in
      '(tpdu, hex) ← build_submit_pdu recipient encoding request_status_report udh
                       (payload_of (take count (drop start items)));
      segments ← build_parts recipient encoding request_status_report concat_ref parts
                   payload_of items (i + 1) stop offsets';
      Some (mk_segment encoding
              (mk_concat true (0xFF <? concat_ref) concat_ref
                         (u8 (Z.of_nat parts)) (u8 (Z.of_nat (i + 1))))
              (u8 (Z.of_nat (i + 1))) (u8 (Z.of_nat parts)) tpdu hex :: segments)
  end.

(** The segments written; [*segment_count] is their number. *)
Definition sms_submit_encode (recipient utf8_text : option (list Z))
    (request_status_report : bool) (concat_ref : Z) (max_segments : nat)
  : option (list sms_submit_segment_t) :=
  match recipient, utf8_text with
  | Some recipient, Some text =>
      if (max_segments =? 0)%nat then None else
      _ ← address_validate recipient;
      let gsm_count := sms_gsm7_septet_count (Some text) in
      if negb (gsm_count =? SIZE_MAX) then
        if Z.of_nat SMS_MAX_GSM7_SEPTETS <? gsm_count then None else
        septets ← sms_gsm7_encode (Some text) SMS_MAX_GSM7_SEPTETS;
        if (length septets <=? 160)%nat then
          single_segment recipient SMS_ENCODING_GSM7 request_status_report septets
        else
          let udh_len := length (concat_header concat_ref 1 1) in
          let capacity := (160 - header_septets udh_len)%nat in
          offsets ← split_gsm7 septets capacity;
          let parts := length offsets in
          if (max_segments <? parts)%nat || (255 <? parts)%nat then None
          else build_parts recipient SMS_ENCODING_GSM7 request_status_report concat_ref parts
                 id septets 0 0 offsets
      else
        units ← utf8_to_ucs2 text SMS_MAX_UCS2_UNITS;
        if (length units <=? 70)%nat then
          single_segment recipient SMS_ENCODING_UCS2 request_status_report (ucs2_payload units)
        else
          let udh_len := length (concat_header concat_ref 1 1) in
          let units_per_segment := ((140 - udh_len) / 2)%nat in
          offsets ← split_ucs2_loop SMS_MAX_SEGMENTS units units_per_segment 0;
          let parts := length offsets in
          if (parts =? 0)%nat || (max_segments <? parts)%nat || (255 <? parts)%nat then None
          else build_parts recipient SMS_ENCODING_UCS2 request_status_report concat_ref parts
                 ucs2_payload units 0 0 offsets
  | _, _ => None
  end.

(** [*encoding] and [*segment_count]; on failure they are left at
    [SMS_ENCODING_UNKNOWN] and 0. *)
Definition sms_submit_preflight (recipient utf8_text : option (list Z)) (concat_ref : Z)
  : option (sms_encoding_t * nat) :=
  match recipient, utf8_text with
  | Some recipient, Some text =>
      _ ← address_validate recipient;
      let gsm_count := sms_gsm7_septet_count (Some text) in
      if negb (gsm_count =? SIZE_MAX) then
        if Z.of_nat SMS_MAX_GSM7_SEPTETS <? gsm_count then None
        else if gsm_count <=? 160 then Some (SMS_ENCODING_GSM7, 1%nat)
        else
          septets ← sms_gsm7_encode (Some text) SMS_MAX_GSM7_SEPTETS;
          let udh_len := length (concat_header concat_ref 1 1) in
          let capacity := (160 - header_septets udh_len)%nat in
          offsets ← split_gsm7 septets capacity;
          let parts := length offsets in
          if (parts =? 0)%nat || (SMS_MAX_SEGMENTS <? parts)%nat then None
          else Some (SMS_ENCODING_GSM7, parts)
      else
        units ← utf8_to_ucs2 text SMS_MAX_UCS2_UNITS;
        if (length units <=? 70)%nat then Some (SMS_ENCODING_UCS2, 1%nat)
        else
          let udh_len := length (concat_header concat_ref 1 1) in
          let units_per_segment := ((140 - udh_len) / 2)%nat in
          offsets ← split_ucs2_loop SMS_MAX_SEGMENTS units units_per_segment 0;
          let parts := length offsets in
          if (parts =? 0)%nat || (SMS_MAX_SEGMENTS <? parts)%nat then None
          else Some (SMS_ENCODING_UCS2, parts)
  | _, _ => None
  end.
