(* ===== verification/PduDecode.v ===== *)
(** * SMS-DELIVER and SMS-STATUS-REPORT decoding
      (components/sms_codec/sms_pdu.c, second half)

    [pdu + pos] with its remaining length is the list [drop pos pdu].  The
    output structure is threaded through and returned with the result code,
    because the service reads it also for one of the error results. *)

From stdpp Require Import base numbers list strings.
From S2P Require Import Prelude.
From S2P Require Import Gsm7.
From S2P Require Import PduEncode.

Open Scope Z_scope.

Inductive sms_pdu_type_t :=
  | SMS_PDU_TYPE_UNKNOWN
  | SMS_PDU_TYPE_DELIVER
  | SMS_PDU_TYPE_STATUS_REPORT.

Inductive sms_pdu_decode_result_t :=
  | SMS_PDU_DECODE_OK
  | SMS_PDU_DECODE_INVALID_HEX
  | SMS_PDU_DECODE_TRUNCATED
  | SMS_PDU_DECODE_UNSUPPORTED
  | SMS_PDU_DECODE_INVALID
  | SMS_PDU_DECODE_TEXT_TOO_LONG.

#[global] Instance sms_pdu_type_eq_dec : EqDecision sms_pdu_type_t.
Proof. solve_decision. Defined.
#[global] Instance sms_pdu_decode_result_eq_dec : EqDecision sms_pdu_decode_result_t.
Proof. solve_decision. Defined.

(** Character arrays hold the string in front of their terminator. *)
Record sms_deliver_t := mk_deliver {
  del_sender : list Z;
  del_encoding : sms_encoding_t;
  del_concat : sms_concat_info_t;
  del_service_center_timestamp : list Z;
  del_text : list Z;
}.

Record sms_status_report_t := mk_report {
  rep_message_reference : Z;
  rep_recipient : list Z;
  rep_service_center_timestamp : list Z;
  rep_discharge_timestamp : list Z;
  rep_status : Z;
  rep_delivered : bool;
}.

(** [memset(out, 0, sizeof( *out))]: 0 is [SMS_ENCODING_GSM7]. *)
Definition deliver_zero : sms_deliver_t := mk_deliver [] SMS_ENCODING_GSM7 concat_zero [] [].
Definition report_zero : sms_status_report_t := mk_report 0 [] [] [] 0 false.

(** ** Hexadecimal input *)

Definition hex_value (ch : Z) : Z :=
  if (48 <=? ch) && (ch <=? 57) then ch - 48
  else if (97 <=? ch) && (ch <=? 102) then ch - 97 + 10
  else if (65 <=? ch) && (ch <=? 70) then ch - 65 + 10
  else -1.

Fixpoint hex_decode_pairs (hex : list Z) : option (list Z) :=
  match hex with
  | h :: l :: hex' =>
      let high := hex_value h in
      let low := hex_value l in
      if (high <? 0) || (low <? 0) then None
      else match hex_decode_pairs hex' with
           | None => None
           | Some out => Some (u8 (Z.lor (Z.shiftl high 4) low) :: out)
           end
  | _ => Some []
  end.

Definition hex_decode (hex : option (list Z)) (out_capacity : nat)
  : sms_pdu_decode_result_t + list Z :=
  match hex with
  | None => inl SMS_PDU_DECODE_INVALID
  | Some hex =>
      let hex := c_str hex in
      let length := length hex in
      if negb (length mod 2 =? 0)%nat then inl SMS_PDU_DECODE_INVALID_HEX
      else if (out_capacity <? length / 2)%nat then inl SMS_PDU_DECODE_TRUNCATED
      else match hex_decode_pairs hex with
           | None => inl SMS_PDU_DECODE_INVALID_HEX
           | Some out => inr out
           end
  end.

(** ** Septets and addresses *)

Definition unpack_septet (packed : list Z) (bit : nat) : option Z :=
  let byte_index := (bit / 8)%nat in
  let shift := Z.of_nat (bit mod 8) in
  if (length packed <=? byte_index)%nat then None
  else
    let value := u16 (Z.shiftr packed.[byte_index] shift) in
    if 1 <? shift then
      if (length packed <=? byte_index + 1)%nat then None
      else
        let value := u16 (Z.lor value (Z.shiftl packed.[(byte_index + 1)%nat] (8 - shift))) in
        Some (u8 (Z.land value 0x7F))
    else Some (u8 (Z.land value 0x7F)).

(** The [count] septets from [bit] on. *)
Fixpoint unpack_septets (packed : list Z) (bit count : nat) : option (list Z) :=
  match count with
  | O => Some []
  | S count' =>
      s ← unpack_septet packed bit;
      rest ← unpack_septets packed (bit + 7) count';
      Some (s :: rest)
  end.

Definition address_char (nibble : Z) : option Z :=
  if nibble <=? 9 then Some (48 + nibble)
  else if nibble =? 0x0A then Some 42
  else if nibble =? 0x0B then Some 35
  else if (0x0C <=? nibble) && (nibble <=? 0x0E) then Some (97 + (nibble - 0x0C))
  else None.

(** The loop over the semi-octets [i .. i + count). *)
Fixpoint address_decode_loop (data : list Z) (i count : nat) (out : list Z) (out_capacity : nat)
  : bool * list Z :=
  match count with
  | O => (true, out)
  | S count' =>
      let nibble :=
        if (i mod 2 =? 0)%nat then Z.land data.[(i / 2)%nat] 0x0F
        else Z.shiftr data.[(i / 2)%nat] 4 in
      match address_char nibble with
      | None => (false, out)
      | Some ch =>
          if (out_capacity <=? length out + 1)%nat then (false, out)
          else address_decode_loop data (i + 1) count' (out ++ [ch]) out_capacity
      end
  end.

(** The flag returned and the string left in the zeroed output. *)
Definition address_decode (data : list Z) (semi_octet_count : nat) (toa : Z)
    (out_capacity : nat) : bool * list Z :=
  if (out_capacity =? 0)%nat then (false, []) else
  let required_bytes := ((semi_octet_count + 1) / 2)%nat in
  if (length data <? required_bytes)%nat then (false, []) else
  let ton := Z.land (Z.shiftr toa 4) 0x07 in
  if ton =? 0x05 then
    let septet_count := ((semi_octet_count * 4) / 7)%nat in
    if (11 <? septet_count)%nat then (false, [])
    else match unpack_septets (take required_bytes data) 0 septet_count with
         | None => (false, [])
         | Some septets => sms_gsm7_decode septets out_capacity
         end
  else if (ton =? 0x01) && (out_capacity <=? 1)%nat then (false, [])
  else address_decode_loop data 0 semi_octet_count (if ton =? 0x01 then [43] else []) out_capacity.

(** ** Data coding scheme and user-data header *)

Definition dcs_encoding (dcs : Z) : sms_encoding_t :=
  if Z.land dcs 0xC0 =? 0x00 then
    if negb (Z.land dcs 0x20 =? 0) then SMS_ENCODING_UNKNOWN
    else match Z.land (Z.shiftr dcs 2) 0x03 with
         | 0 => SMS_ENCODING_GSM7
         | 1 => SMS_ENCODING_8BIT
         | 2 => SMS_ENCODING_UCS2
         | _ => SMS_ENCODING_UNKNOWN
         end
  else if Z.land dcs 0xF0 =? 0xF0 then
    if negb (Z.land dcs 0x04 =? 0) then SMS_ENCODING_8BIT else SMS_ENCODING_GSM7
  else SMS_ENCODING_UNKNOWN.

(** The loop over the information elements in [udh[pos .. end)]; each takes
    at least two bytes, so [fuel = end] is enough. *)
Fixpoint parse_concat_loop (fuel : nat) (udh : list Z) (stop pos : nat)
    (concat : sms_concat_info_t) : bool * sms_concat_info_t :=
  match fuel with
  | O => (false, concat)
  | S fuel' =>
      if (stop <? pos + 2)%nat then (true, concat)
      else
        let iei := udh.[pos] in
        let len := udh.[(pos + 1)%nat] in
        let pos := (pos + 2)%nat in
        if (stop <? pos + Z.to_nat len)%nat then (false, concat)
        else
          let concat :=
            if (iei =? 0x00) && (len =? 3) then
              mk_concat true false udh.[pos] udh.[(pos + 1)%nat] udh.[(pos + 2)%nat]
            else if (iei =? 0x08) && (len =? 4) then
              mk_concat true true (u16 (Z.lor (Z.shiftl udh.[pos] 8) udh.[(pos + 1)%nat]))
                        udh.[(pos + 2)%nat] udh.[(pos + 3)%nat]
            else concat in
          parse_concat_loop fuel' udh stop (pos + Z.to_nat len) concat
  end.

(** The flag returned and what is left in [*concat]. *)
Definition parse_concat_udh (udh : list Z) : bool * sms_concat_info_t :=
  if (length udh =? 0)%nat then (true, concat_zero)
  else
    let stop := (Z.to_nat udh.[0] + 1)%nat in
    if (length udh <? stop)%nat then (false, concat_zero)
    else
      let '(ok, c) := parse_concat_loop (S stop) udh stop 1 concat_zero in
      if negb ok then (false, c)
      else if concat_present c &&
                ((concat_total_parts c =? 0) || (concat_part_number c =? 0)
                 || (concat_total_parts c <? concat_part_number c))
      then (false, c) else (true, c).

Fixpoint national_language_loop (fuel : nat) (udh : list Z) (stop pos : nat) : bool :=
  match fuel with
  | O => false
  | S fuel' =>
      if (stop <? pos + 2)%nat then false
      else
        let iei := udh.[pos] in
        let len := udh.[(pos + 1)%nat] in
        let pos := (pos + 2)%nat in
        if (stop <? pos + Z.to_nat len)%nat then false
        else if (iei =? 0x24) || (iei =? 0x25) then true
        else national_language_loop fuel' udh stop (pos + Z.to_nat len)
  end.

Definition udh_has_national_language_shift (udh : list Z) : bool :=
  let stop := (Z.to_nat udh.[0] + 1)%nat in
  if (length udh =? 0)%nat || (length udh <? stop)%nat then false
  else national_language_loop (S stop) udh stop 1.

(** ** Timestamps *)

Definition semi_octet_value (byte : Z) : Z :=
  let tens := Z.land byte 0x0F in
  let ones := Z.land (Z.shiftr byte 4) 0x0F in
  if (9 <? tens) || (9 <? ones) then -1 else tens * 10 + ones.

(** [%02d] and [%04d] of the values that occur: nonnegative, below 10000. *)
Definition digit (n : Z) : Z := 48 + n mod 10.
Definition format_02d (n : Z) : list Z := [digit (n / 10); digit n].
Definition format_04d (n : Z) : list Z :=
  [digit (n / 1000); digit (n / 100); digit (n / 10); digit n].

Definition timestamp_decode (data : list Z) (out_capacity : nat) : option (list Z) :=
  if (length data <? 7)%nat || (out_capacity <? 24)%nat then None else
  let yy := semi_octet_value data.[0] in
  let month := semi_octet_value data.[1] in
  let day := semi_octet_value data.[2] in
  let hour := semi_octet_value data.[3] in
  let minute := semi_octet_value data.[4] in
  let second := semi_octet_value data.[5] in
  let negative := negb (Z.land data.[6] 0x08 =? 0) in
  let quarters := Z.land data.[6] 0x07 * 10 + Z.land (Z.shiftr data.[6] 4) 0x0F in
  if (yy <? 0) || (month <? 1) || (12 <? month) || (day <? 1) || (31 <? day)
     || (hour <? 0) || (23 <? hour) || (minute <? 0) || (59 <? minute)
     || (second <? 0) || (59 <? second) || (quarters <? 0) || (79 <? quarters)
  then None
  else
    let tz_minutes := quarters * 15 in
    let tz_hours := tz_minutes / 60 in
    let tz_mins := tz_minutes mod 60 in
    let year := if 70 <=? yy then 1900 + yy else 2000 + yy in
    let out := format_04d year ++ [45] ++ format_02d month ++ [45] ++ format_02d day ++ [84]
                 ++ format_02d hour ++ [58] ++ format_02d minute ++ [58] ++ format_02d second
                 ++ [if negative then 45 else 43] ++ format_02d tz_hours ++ [58]
                 ++ format_02d tz_mins in
    if (length out <? out_capacity)%nat then Some out else None.

(** ** User data *)

(** The UCS-2 loop; [ud] is what is left of the user data. *)
Fixpoint ucs2_decode_loop (ud : list Z) (out : list Z) (capacity : nat)
  : sms_pdu_decode_result_t * list Z :=
  match ud with
  | hi :: lo :: ud' =>
      let cp := Z.lor (Z.shiftl hi 8) lo in
      if (0xD800 <=? cp) && (cp <=? 0xDBFF) then
        match ud' with
        | hi2 :: lo2 :: ud'' =>
            let low := Z.lor (Z.shiftl hi2 8) lo2 in
            if (low <? 0xDC00) || (0xDFFF <? low) then (SMS_PDU_DECODE_INVALID, out)
            else
              let cp := 0x10000 + Z.shiftl (cp - 0xD800) 10 + (low - 0xDC00) in
              match sms_utf8_append cp out capacity with
              | None => (SMS_PDU_DECODE_TEXT_TOO_LONG, out)
              | Some out' => ucs2_decode_loop ud'' out' capacity
              end
        | _ => (SMS_PDU_DECODE_INVALID, out)
        end
      else if (0xDC00 <=? cp) && (cp <=? 0xDFFF) then (SMS_PDU_DECODE_INVALID, out)
      else match sms_utf8_append cp out capacity with
           | None => (SMS_PDU_DECODE_TEXT_TOO_LONG, out)
           | Some out' => ucs2_decode_loop ud' out' capacity
           end
  | _ => (SMS_PDU_DECODE_OK, out)
  end.

Record user_data := mk_user_data {
  ud_result : sms_pdu_decode_result_t;
  ud_encoding : sms_encoding_t;
  ud_concat : sms_concat_info_t;
  ud_text : list Z;
}.

Definition decode_user_data (first_octet dcs udl : Z) (ud : list Z) (text_capacity : nat)
  : user_data :=
  let encoding := dcs_encoding dcs in
  let has_udh := negb (Z.land first_octet 0x40 =? 0) in
  match encoding with
  | SMS_ENCODING_GSM7 =>
      let packed_bytes := ((Z.to_nat udl * 7 + 7) / 8)%nat in
      if (length ud <? packed_bytes)%nat || (160 <? udl) then
        mk_user_data SMS_PDU_DECODE_TRUNCATED encoding concat_zero []
      else
        let header_bytes := (Z.to_nat ud.[0] + 1)%nat in
        let '(header_ok, concat) := parse_concat_udh (take header_bytes ud) in
        if has_udh && (packed_bytes =? 0)%nat then
          mk_user_data SMS_PDU_DECODE_INVALID encoding concat_zero []
        else if has_udh && ((packed_bytes <? header_bytes)%nat || negb header_ok) then
          mk_user_data SMS_PDU_DECODE_INVALID encoding
                       (if (packed_bytes <? header_bytes)%nat then concat_zero else concat) []
        else
          let concat := if has_udh then concat else concat_zero in
          if has_udh && udh_has_national_language_shift (take header_bytes ud) then
            mk_user_data SMS_PDU_DECODE_UNSUPPORTED encoding concat []
          else
            let hseptets := if has_udh then header_septets header_bytes else 0%nat in
            if (Z.to_nat udl <? hseptets)%nat then
              mk_user_data SMS_PDU_DECODE_INVALID encoding concat []
            else
              let text_septets := (Z.to_nat udl - hseptets)%nat in
              match unpack_septets (take packed_bytes ud) (hseptets * 7) text_septets with
              | None => mk_user_data SMS_PDU_DECODE_TRUNCATED encoding concat []
              | Some septets =>
                  let '(ok, text) := sms_gsm7_decode septets text_capacity in
                  mk_user_data (if ok then SMS_PDU_DECODE_OK else SMS_PDU_DECODE_TEXT_TOO_LONG)
                               encoding concat text
              end
  | SMS_ENCODING_UCS2 =>
      if (length ud <? Z.to_nat udl)%nat || (140 <? udl) then
        mk_user_data SMS_PDU_DECODE_TRUNCATED encoding concat_zero []
      else
        let header_bytes := (Z.to_nat ud.[0] + 1)%nat in
        let '(header_ok, concat) := parse_concat_udh (take header_bytes ud) in
        if has_udh && (udl =? 0) then
          mk_user_data SMS_PDU_DECODE_INVALID encoding concat_zero []
        else if has_udh && ((Z.to_nat udl <? header_bytes)%nat || negb header_ok) then
          mk_user_data SMS_PDU_DECODE_INVALID encoding
                       (if (Z.to_nat udl <? header_bytes)%nat then concat_zero else concat) []
        else
          let concat := if has_udh then concat else concat_zero in
          if has_udh && udh_has_national_language_shift (take header_bytes ud) then
            mk_user_data SMS_PDU_DECODE_UNSUPPORTED encoding concat []
          else
            let pos := if has_udh then header_bytes else 0%nat in
            if negb ((Z.to_nat udl - pos) mod 2 =? 0)%nat then
              mk_user_data SMS_PDU_DECODE_INVALID encoding concat []
            else
              let '(result, text) :=
                ucs2_decode_loop (drop pos (take (Z.to_nat udl) ud)) [] text_capacity in
              mk_user_data result encoding concat text
  | _ => mk_user_data SMS_PDU_DECODE_UNSUPPORTED encoding concat_zero []
  end.

(** ** Entry points *)

Definition sms_pdu_type_detect (pdu_hex : option (list Z)) : sms_pdu_type_t :=
  match hex_decode pdu_hex SMS_MAX_PDU_OCTETS with
  | inl _ => SMS_PDU_TYPE_UNKNOWN
  | inr pdu =>
      let smsc_len := Z.to_nat pdu.[0] in
      if (length pdu <? 2)%nat || (length pdu <=? 1 + smsc_len)%nat then SMS_PDU_TYPE_UNKNOWN
      else match Z.land pdu.[(1 + smsc_len)%nat] 0x03 with
           | 0 => SMS_PDU_TYPE_DELIVER
           | 2 => SMS_PDU_TYPE_STATUS_REPORT
           | _ => SMS_PDU_TYPE_UNKNOWN
           end
  end.

(** The result code and [*out]; [out0] is what the caller passed in. *)
Definition sms_deliver_decode (pdu_hex : option (list Z)) (out0 : sms_deliver_t)
  : sms_pdu_decode_result_t * sms_deliver_t :=
  match hex_decode pdu_hex SMS_MAX_PDU_OCTETS with
  | inl result => (result, out0)
  | inr pdu =>
      let out := deliver_zero in
      let pdu_len := length pdu in
      if (pdu_len <? 2)%nat then (SMS_PDU_DECODE_TRUNCATED, out) else
      let smsc_len := Z.to_nat pdu.[0] in
      let pos := 1%nat in
      if (pdu_len <=? pos + smsc_len)%nat then (SMS_PDU_DECODE_TRUNCATED, out) else
      let pos := (pos + smsc_len)%nat in
      let first := pdu.[pos] in
      let pos := (pos + 1)%nat in
      if negb (Z.land first 0x03 =? 0x00) || (pdu_len <? pos + 2)%nat then
        (SMS_PDU_DECODE_UNSUPPORTED, out) else
      let oa_digits := Z.to_nat pdu.[pos] in
      let oa_toa := pdu.[(pos + 1)%nat] in
      let pos := (pos + 2)%nat in
      let oa_bytes := ((oa_digits + 1) / 2)%nat in
      if (pdu_len <? pos + oa_bytes + 10)%nat then (SMS_PDU_DECODE_INVALID, out) else
      let '(ok, sender) := address_decode (drop pos pdu) oa_digits oa_toa SMS_MAX_ADDRESS_LENGTH in
      let out := mk_deliver sender SMS_ENCODING_GSM7 concat_zero [] [] in
      if negb ok then (SMS_PDU_DECODE_INVALID, out) else
      let pos := (pos + oa_bytes + 1)%nat in
      let dcs := pdu.[pos] in
      let pos := (pos + 1)%nat in
      match timestamp_decode (drop pos pdu) 40 with
      | None => (SMS_PDU_DECODE_INVALID, out)
      | Some scts =>
          let out := mk_deliver sender SMS_ENCODING_GSM7 concat_zero scts [] in
          let pos := (pos + 7)%nat in
          if (pdu_len <=? pos)%nat then (SMS_PDU_DECODE_TRUNCATED, out) else
          let udl := pdu.[pos] in
          let pos := (pos + 1)%nat in
          let ud := decode_user_data first dcs udl (drop pos pdu) SMS_MAX_TEXT_UTF8 in
          (ud_result ud,
           mk_deliver sender (ud_encoding ud) (ud_concat ud) scts (ud_text ud))
      end
  end.

Definition sms_status_report_decode (pdu_hex : option (list Z)) (out0 : sms_status_report_t)
  : sms_pdu_decode_result_t * sms_status_report_t :=
  match hex_decode pdu_hex SMS_MAX_PDU_OCTETS with
  | inl result => (result, out0)
  | inr pdu =>
      let out := report_zero in
      let pdu_len := length pdu in
      if (pdu_len <? 2)%nat then (SMS_PDU_DECODE_TRUNCATED, out) else
      let smsc_len := Z.to_nat pdu.[0] in
      let pos := 1%nat in
      if (pdu_len <=? pos + smsc_len)%nat then (SMS_PDU_DECODE_TRUNCATED, out) else
      let pos := (pos + smsc_len)%nat in
      let first := pdu.[pos] in
      let pos := (pos + 1)%nat in
      if negb (Z.land first 0x03 =? 0x02) || (pdu_len <? pos + 3)%nat then
        (SMS_PDU_DECODE_UNSUPPORTED, out) else
      let message_reference := pdu.[pos] in
      let ra_digits := Z.to_nat pdu.[(pos + 1)%nat] in
      let ra_toa := pdu.[(pos + 2)%nat] in
      let pos := (pos + 3)%nat in
      let ra_bytes := ((ra_digits + 1) / 2)%nat in
      if (pdu_len <? pos + ra_bytes + 15)%nat then
        (SMS_PDU_DECODE_INVALID, mk_report message_reference [] [] [] 0 false) else
      let '(ok, recipient) := address_decode (drop pos pdu) ra_digits ra_toa SMS_MAX_ADDRESS_LENGTH in
      if negb ok then
        (SMS_PDU_DECODE_INVALID, mk_report message_reference recipient [] [] 0 false) else
      let pos := (pos + ra_bytes)%nat in
      match timestamp_decode (drop pos pdu) 40 with
      | None => (SMS_PDU_DECODE_INVALID, mk_report message_reference recipient [] [] 0 false)
      | Some scts =>
          let pos := (pos + 7)%nat in
          match timestamp_decode (drop pos pdu) 40 with
          | None => (SMS_PDU_DECODE_INVALID, mk_report message_reference recipient scts [] 0 false)
          | Some discharge =>
              let pos := (pos + 7)%nat in
              if (pdu_len <=? pos)%nat then
                (SMS_PDU_DECODE_TRUNCATED, mk_report message_reference recipient scts discharge 0 false)
              else
                let status := pdu.[pos] in
                (SMS_PDU_DECODE_OK,
                 mk_report message_reference recipient scts discharge status (status <? 0x20))
          end
      end
  end.

Definition sms_encoding_name (encoding : sms_encoding_t) : list Z :=
  match encoding with
  | SMS_ENCODING_GSM7 => str "gsm7"
  | SMS_ENCODING_UCS2 => str "ucs2"
  | SMS_ENCODING_8BIT => str "8bit"
  | SMS_ENCODING_UNKNOWN => str "unknown"
  end.
