(* ===== verification/PduBits.v ===== *)
(** * Septet packing: [pack_septets] and [unpack_septets] are inverse

    The packed user data is seen as one string of bits, least significant bit
    of each octet first; the proofs work on that view. *)

From Stdlib Require Import ZifyBool ZifyNat.
From stdpp Require Import base numbers list.
From S2P Require Import Prelude.
From S2P Require Import Gsm7.
From S2P Require Import PduEncode.
From S2P Require Import PduDecode.

Open Scope Z_scope.

(** Bit [k] of an octet string. *)
Definition bit_of (l : list Z) (k : nat) : bool := Z.testbit l.[(k / 8)%nat] (Z.of_nat (k mod 8)).

Definition septet (s : Z) : Prop := 0 <= s < 128.

(** ** Single octets *)

Lemma u8_byte z : is_byte (u8 z).
Proof. unfold is_byte, u8. apply Z.mod_pos_bound. lia. Qed.

Lemma u8_testbit z i : 0 <= i -> Z.testbit (u8 z) i = (i <? 8) && Z.testbit z i.
Proof. intros Hi. unfold u8. change 256 with (2 ^ 8). by apply Z.testbit_mod_pow2. Qed.

Lemma byte_testbit_high b i : is_byte b -> 8 <= i -> Z.testbit b i = false.
Proof. intros Hb Hi. apply (testbit_small b 8); unfold is_byte in Hb; lia. Qed.

Lemma septet_testbit_high s i : septet s -> 7 <= i -> Z.testbit s i = false.
Proof. intros Hb Hi. apply (testbit_small s 7); unfold septet in Hb; lia. Qed.

Lemma lor_byte a b : is_byte a -> is_byte b -> is_byte (Z.lor a b).
Proof.
  unfold is_byte. intros Ha Hb. split; [apply Z.lor_nonneg; lia|].
  change 256 with (2 ^ 8) in *. destruct (Z.eq_dec (Z.lor a b) 0) as [->|Hne]; [lia|].
  apply Z.log2_lt_pow2.
  - assert (0 <= Z.lor a b) by (apply Z.lor_nonneg; lia). lia.
  - rewrite Z.log2_lor by lia. apply Z.max_lub_lt.
    + destruct (Z.eq_dec a 0) as [->|]; [done|]. apply Z.log2_lt_pow2; lia.
    + destruct (Z.eq_dec b 0) as [->|]; [done|]. apply Z.log2_lt_pow2; lia.
Qed.

Lemma land_7f s : septet s -> Z.land s 0x7F = s.
Proof.
  intros Hs. change 0x7F with (2 ^ 7 - 1). rewrite land_ones_mod by lia.
  apply Z.mod_small. exact Hs.
Qed.

(** Two octets with the same eight bits are equal. *)
Lemma byte_bits_eq a b :
  is_byte a -> is_byte b -> (forall i, 0 <= i < 8 -> Z.testbit a i = Z.testbit b i) -> a = b.
Proof.
  intros Ha Hb H. apply Z.bits_inj'. intros i Hi. destruct (Z_lt_dec i 8); [auto with lia|].
  by rewrite !byte_testbit_high by (done || lia).
Qed.

(** ** Updating one octet of the array *)

Lemma array_or_length l i v : length (array_or l i v) = length l.
Proof. apply length_insert. Qed.

Lemma byte_at_insert (l : list Z) i j v :
  (i < length l)%nat -> (<[i := v]> l).[j] = if (j =? i)%nat then v else l.[j].
Proof.
  intros Hi. unfold byte_at. destruct (Nat.eqb_spec j i) as [->|Hne].
  - apply nth_lookup_Some. by apply list_lookup_insert_eq.
  - rewrite !nth_lookup. by rewrite list_lookup_insert_ne.
Qed.

Lemma array_or_bytes l i v : bytes l -> is_byte v -> bytes (array_or l i v).
Proof.
  intros Hl Hv. unfold array_or, bytes. apply Forall_insert; [done|].
  apply lor_byte; [by apply bytes_at | done].
Qed.

Lemma bit_of_array_or l i v k :
  (i < length l)%nat ->
  bit_of (array_or l i v) k =
    bit_of l k || ((k / 8 =? i)%nat && Z.testbit v (Z.of_nat (k mod 8))).
Proof.
  intros Hi. unfold bit_of, array_or. rewrite byte_at_insert by done.
  destruct (Nat.eqb_spec (k / 8) i) as [E|E].
  - by rewrite Z.lor_spec, E, andb_true_l.
  - by rewrite andb_false_l, orb_false_r.
Qed.

(** ** One packing step ors the septet in at its bit position *)

Lemma pack_step_bit total out bit s k :
  length out = total -> septet s -> (bit + 7 <= 8 * total)%nat ->
  bit_of (pack_step total (out, bit) s).1 k =
    bit_of out k || ((bit <=? k)%nat && (k <? bit + 7)%nat && Z.testbit s (Z.of_nat (k - bit))).
Proof.
  intros Hlen Hs Hb. unfold pack_step. rewrite land_7f by done.
  assert (bit = 8 * (bit / 8) + bit mod 8)%nat as Eb by (apply Nat.div_mod_eq).
  assert (k = 8 * (k / 8) + k mod 8)%nat as Ek by (apply Nat.div_mod_eq).
  pose proof (Nat.mod_upper_bound bit 8 ltac:(lia)) as Mb.
  pose proof (Nat.mod_upper_bound k 8 ltac:(lia)) as Mk.
  set (q := (bit / 8)%nat) in *. set (sh := (bit mod 8)%nat) in *.
  set (kq := (k / 8)%nat) in *. set (kr := (k mod 8)%nat) in *.
  assert (forall o, length o = total ->
    bit_of (if (1 <? Z.of_nat sh) && (q + 1 <? total)%nat
            then array_or o (q + 1) (u8 (Z.shiftr s (8 - Z.of_nat sh))) else o) k
    = bit_of o k || ((kq =? q + 1)%nat && Z.testbit s (Z.of_nat kr + (8 - Z.of_nat sh)))) as Hi.
  { intros o Ho. destruct ((1 <? Z.of_nat sh) && (q + 1 <? total)%nat) eqn:E; boolify.
    - rewrite bit_of_array_or by lia. fold kq kr. rewrite u8_testbit, Z.shiftr_spec by lia.
      assert ((Z.of_nat kr <? 8) = true) as -> by lia. done.
    - replace (Z.testbit s (Z.of_nat kr + (8 - Z.of_nat sh))) with (negb (kq =? q + 1)%nat && Z.testbit s (Z.of_nat kr + (8 - Z.of_nat sh))) at 1.
      { destruct (kq =? q + 1)%nat; simpl; by rewrite ?orb_false_r. }
      destruct (Nat.eqb_spec kq (q + 1)); [|done]. simpl. symmetry.
      apply andb_false_iff in E. apply septet_testbit_high; [done|]. destruct E as [E|E]; boolify; lia. }
  cbn [fst]. rewrite Hi by (by rewrite array_or_length).
  rewrite bit_of_array_or by lia. fold kq kr. rewrite u8_testbit, Z.shiftl_spec by lia.
  assert ((Z.of_nat kr <? 8) = true) as -> by lia. rewrite andb_true_l, <- orb_assoc. f_equal.
  destruct (Nat.eqb_spec kq q) as [E1|E1].
  - assert ((kq =? q + 1)%nat = false) as -> by lia. rewrite andb_true_l, andb_false_l, orb_false_r.
    destruct (Nat.leb_spec bit k).
    + replace (Z.of_nat kr - Z.of_nat sh) with (Z.of_nat (k - bit)) by lia.
      destruct (Nat.ltb_spec k (bit + 7)); [done|]. simpl. apply septet_testbit_high; [done|lia].
    + simpl. apply Z.testbit_neg_r. lia.
  - rewrite andb_false_l, orb_false_l. destruct (Nat.eqb_spec kq (q + 1)) as [E2|E2].
    + rewrite andb_true_l. replace (Z.of_nat kr + (8 - Z.of_nat sh)) with (Z.of_nat (k - bit)) by lia.
      assert ((bit <=? k)%nat = true) as -> by lia.
      destruct (Nat.ltb_spec k (bit + 7)); [done|]. simpl. apply septet_testbit_high; [done|lia].
    + symmetry. rewrite andb_false_l. apply andb_false_iff. left. apply andb_false_iff. lia.
Qed.

Lemma pack_step_shape total out bit s :
  length out = total -> bytes out ->
  length (pack_step total (out, bit) s).1 = total /\ bytes (pack_step total (out, bit) s).1 /\
  (pack_step total (out, bit) s).2 = (bit + 7)%nat.
Proof.
  intros Hl Hb. unfold pack_step.
  destruct (_ && _)%bool; cbn [fst snd]; rewrite ?array_or_length;
    (split_and!; [done| |done]); repeat apply array_or_bytes; auto using u8_byte.
Qed.

(** ** The packing loop *)

(** The septets [ss] stand at bit [b] of the octets [l]. *)
Definition packed_at (l : list Z) (b : nat) (ss : list Z) : Prop :=
  forall i s, ss !! i = Some s ->
  forall j, (j < 7)%nat -> bit_of l (b + 7 * i + j) = Z.testbit s (Z.of_nat j).

Lemma pack_loop total ss out b :
  length out = total -> bytes out -> Forall septet ss -> (b + 7 * length ss <= 8 * total)%nat ->
  (forall k, (b <= k)%nat -> bit_of out k = false) ->
  let out' := (fold_left (pack_step total) ss (out, b)).1 in
  length out' = total /\ bytes out' /\ packed_at out' b ss /\
  (forall k, (k < b)%nat -> bit_of out' k = bit_of out k).
Proof.
  intros Hl Hb Hss. revert out b Hl Hb. induction Hss as [|s ss Hs Hss IH]; intros out b Hl Hb Hlen Hz.
  { simpl. split_and!; done. }
  cbn [fold_left length] in *.
  destruct (pack_step_shape total out b s Hl Hb) as (L & B & P).
  assert (forall k, bit_of (pack_step total (out, b) s).1 k = bit_of out k || _) as Hbit
    by (intros k; apply (pack_step_bit total out b s k Hl Hs); lia).
  destruct (pack_step total (out, b) s) as [out1 b1]. cbn [fst snd] in *. subst b1.
  destruct (IH out1 (b + 7)%nat L B) as (L' & B' & P' & K'); [lia| |].
  { intros k Hk. rewrite Hbit, Hz by lia. apply orb_false_iff. split; [done|].
    apply andb_false_iff. left. apply andb_false_iff. lia. }
  split_and!; [done..| |].
  - intros [|i] s' Hi j Hj; simpl in Hi.
    + injection Hi as <-. rewrite K' by lia. rewrite Hbit, Hz by lia. rewrite orb_false_l.
      replace (b + 7 * 0 + j)%nat with (b + j)%nat by lia.
      assert ((b <=? b + j)%nat = true) as -> by lia. assert ((b + j <? b + 7)%nat = true) as -> by lia.
      rewrite !andb_true_l. f_equal. lia.
    + rewrite <- (P' i s' Hi j Hj). f_equal. lia.
  - intros k Hk. rewrite K', Hbit by lia.
    assert ((b <=? k)%nat = false) as -> by lia. by rewrite orb_false_r.
Qed.

(** ** Unpacking reads the bits back *)

Lemma unpack_septet_bits l b s :
  bytes l -> septet s -> (b + 7 <= 8 * length l)%nat ->
  (forall j, (j < 7)%nat -> bit_of l (b + j) = Z.testbit s (Z.of_nat j)) ->
  unpack_septet l b = Some s.
Proof.
  intros Hl Hs Hb Hbits. unfold unpack_septet.
  assert (b = 8 * (b / 8) + b mod 8)%nat as Eb by (apply Nat.div_mod_eq).
  pose proof (Nat.mod_upper_bound b 8 ltac:(lia)) as Mb.
  set (q := (b / 8)%nat) in *. set (sh := (b mod 8)%nat) in *.
  pose proof (bytes_at l q Hl) as Bq. pose proof (bytes_at l (q + 1) Hl) as Bq1.
  destruct (Nat.leb_spec (length l) q); [lia|].
  assert (forall v, (forall j, (j < 7)%nat -> Z.testbit v (Z.of_nat j) = Z.testbit s (Z.of_nat j)) ->
                    Some (u8 (Z.land (u16 v) 0x7F)) = Some s) as Fin.
  { intros v Hv. f_equal. change 0x7F with (2 ^ 7 - 1). rewrite land_ones_mod by lia.
    apply Z.bits_inj'. intros i Hi. rewrite u8_testbit by done. change 65536 with (2 ^ 16).
    rewrite Z.testbit_mod_pow2 by lia. unfold u16. change 65536 with (2 ^ 16).
    rewrite Z.testbit_mod_pow2 by lia.
    destruct (Z.ltb_spec i 7).
    - specialize (Hv (Z.to_nat i) ltac:(lia)). rewrite Z2Nat.id in Hv by done. rewrite <- Hv.
      assert ((i <? 8) = true) as -> by lia. assert ((i <? 16) = true) as -> by lia. done.
    - rewrite andb_false_l, andb_false_r. symmetry. apply septet_testbit_high; [done|lia]. }
  assert (forall j, (j < 7)%nat -> bit_of l (b + j) =
            if (sh + j <? 8)%nat then Z.testbit l.[q] (Z.of_nat (sh + j))
            else Z.testbit l.[(q + 1)%nat] (Z.of_nat (sh + j) - 8)) as Hsplit.
  { intros j Hj. unfold bit_of. destruct (Nat.ltb_spec (sh + j) 8).
    - replace ((b + j) / 8)%nat with q by (apply (Nat.div_unique _ 8 q (sh + j)); lia).
      replace ((b + j) mod 8)%nat with (sh + j)%nat by (apply (Nat.mod_unique _ 8 q (sh + j)); lia). done.
    - replace ((b + j) / 8)%nat with (q + 1)%nat by (apply (Nat.div_unique _ 8 (q + 1) (sh + j - 8)); lia).
      replace ((b + j) mod 8)%nat with (sh + j - 8)%nat by (apply (Nat.mod_unique _ 8 (q + 1) (sh + j - 8)); lia).
      f_equal. lia. }
  destruct (Z.ltb_spec 1 (Z.of_nat sh)).
  - destruct (Nat.leb_spec (length l) (q + 1)); [lia|]. apply Fin. intros j Hj.
    rewrite <- Hbits, Hsplit by done. unfold u16. change 65536 with (2 ^ 16).
    rewrite Z.lor_spec, Z.testbit_mod_pow2, Z.shiftr_spec, Z.shiftl_spec by lia.
    assert ((Z.of_nat j <? 16) = true) as -> by lia. rewrite andb_true_l.
    destruct (Nat.ltb_spec (sh + j) 8).
    + rewrite (Z.testbit_neg_r _ (Z.of_nat j - (8 - Z.of_nat sh))) by lia. rewrite orb_false_r.
      f_equal. lia.
    + rewrite (byte_testbit_high l.[q]) by (done || lia). rewrite orb_false_l. f_equal. lia.
  - apply Fin. intros j Hj. rewrite <- Hbits, Hsplit by done. rewrite Z.shiftr_spec by lia.
    assert ((sh + j <? 8)%nat = true) as -> by lia. f_equal. lia.
Qed.

Lemma unpack_septets_bits l b ss :
  bytes l -> Forall septet ss -> (b + 7 * length ss <= 8 * length l)%nat ->
  packed_at l b ss -> unpack_septets l b (length ss) = Some ss.
Proof.
  intros Hl Hss. revert b. induction Hss as [|s ss Hs Hss IH]; intros b Hlen Hp; [done|].
  cbn [length unpack_septets] in *.
  rewrite (unpack_septet_bits l b s); [|done|done|lia|].
  2: { intros j Hj. specialize (Hp 0%nat s eq_refl j Hj). rewrite <- Hp. f_equal. lia. }
  simpl. rewrite IH; [done|lia|]. intros i s' Hi j Hj.
  rewrite <- (Hp (S i) s' Hi j Hj). f_equal. lia.
Qed.

(** ** The header survives *)

Lemma bits_below_bytes l l' n :
  bytes l -> bytes l' -> (n <= length l)%nat -> (n <= length l')%nat ->
  (forall k, (k < 8 * n)%nat -> bit_of l k = bit_of l' k) -> take n l = take n l'.
Proof.
  intros Hl Hl' Hn Hn' H. apply list_eq. intros i. destruct (decide (i < n)%nat).
  - rewrite !lookup_take_lt by done.
    destruct (lookup_lt_is_Some_2 l i ltac:(lia)) as [x Hx].
    destruct (lookup_lt_is_Some_2 l' i ltac:(lia)) as [y Hy]. rewrite Hx, Hy. f_equal.
    assert (x = l.[i]) as -> by (symmetry; by apply nth_lookup_Some).
    assert (y = l'.[i]) as -> by (symmetry; by apply nth_lookup_Some).
    apply byte_bits_eq; [by apply bytes_at..|]. intros b Hb.
    specialize (H (8 * i + Z.to_nat b)%nat ltac:(lia)). unfold bit_of in H.
    replace ((8 * i + Z.to_nat b) / 8)%nat with i in H by (apply (Nat.div_unique _ 8 i (Z.to_nat b)); lia).
    replace ((8 * i + Z.to_nat b) mod 8)%nat with (Z.to_nat b) in H by (apply (Nat.mod_unique _ 8 i (Z.to_nat b)); lia).
    by rewrite Z2Nat.id in H by lia.
  - rewrite !lookup_take_ge by lia. done.
Qed.

Lemma bit_of_zeros l n k : (8 * length l <= k)%nat -> bit_of (l ++ replicate n 0) k = false.
Proof.
  intros Hk. unfold bit_of, byte_at. rewrite app_nth2.
  - rewrite nth_lookup. destruct (replicate n 0 !! _) eqn:E; simpl; [|by rewrite Z.bits_0].
    apply lookup_replicate in E as [-> _]. apply Z.bits_0.
  - pose proof (Nat.div_mod_eq k 8). pose proof (Nat.mod_upper_bound k 8). lia.
Qed.

Definition udh_septets (udh : list Z) : nat :=
  if (0 <? length udh)%nat then header_septets (length udh) else 0%nat.

Lemma udh_septets_cover udh : (8 * length udh <= 7 * udh_septets udh)%nat.
Proof.
  unfold udh_septets, header_septets. destruct (Nat.ltb_spec 0 (length udh)); [|lia].
  pose proof (Nat.div_mod_eq (length udh * 8 + 6) 7).
  pose proof (Nat.mod_upper_bound (length udh * 8 + 6) 7). lia.
Qed.

(** Everything the decoder needs to know about packed user data. *)
Lemma pack_septets_spec ss udh cap out udl :
  bytes udh -> Forall septet ss -> pack_septets ss udh cap = Some (out, udl) ->
  let n := (udh_septets udh + length ss)%nat in
  length out = ((n * 7 + 7) / 8)%nat /\ (length out <= cap)%nat /\ (n <= 255)%nat /\ bytes out /\
  udl = Z.of_nat n /\ take (length udh) out = udh /\
  unpack_septets out (udh_septets udh * 7) (length ss) = Some ss.
Proof.
  intros Hudh Hss H n. unfold pack_septets in H. fold (udh_septets udh) in H. fold n in H.
  destruct ((255 <? n)%nat || (cap <? (n * 7 + 7) / 8)%nat) eqn:E; [done|]. boolify.
  pose proof (udh_septets_cover udh) as Hc.
  set (total := ((n * 7 + 7) / 8)%nat) in *.
  assert (n * 7 <= 8 * total)%nat as Ht.
  { pose proof (Nat.div_mod_eq (n * 7 + 7) 8). pose proof (Nat.mod_upper_bound (n * 7 + 7) 8). lia. }
  assert (length udh <= total)%nat by lia.
  set (out0 := udh ++ replicate (total - length udh) 0) in *.
  assert (length out0 = total) as L0.
  { unfold out0. rewrite length_app, length_replicate. lia. }
  assert (bytes out0) as B0.
  { apply Forall_app. split; [done|]. apply Forall_replicate. unfold is_byte. lia. }
  destruct (pack_loop total ss out0 (udh_septets udh * 7)%nat L0 B0 Hss) as (L & B & P & K);
    [lia | intros k Hk; apply bit_of_zeros; lia |].
  destruct (fold_left (pack_step total) ss (out0, (udh_septets udh * 7)%nat)) as [out1 b1].
  injection H as <- <-. cbn [fst] in *.
  split_and!; [done|lia|lia|done| | |].
  - unfold u8. apply Z.mod_small. lia.
  - rewrite (bits_below_bytes out1 out0 (length udh)); [|done|done|lia|lia|intros k Hk; apply K; lia].
    unfold out0. by rewrite take_app_length.
  - apply unpack_septets_bits; [done|done|lia|done].
Qed.

(** Septet packing loses nothing: whenever [pack_septets] succeeds, the
    header octets stand unchanged at the front of the output, the output has
    the length TP-UDL announces, and [unpack_septets] at the bit position
    behind the header returns exactly the septets that were packed. *)
Theorem pack_unpack_roundtrip (ss udh : list Z) (cap : nat) (out : list Z) (udl : Z) :
  bytes udh -> Forall septet ss -> pack_septets ss udh cap = Some (out, udl) ->
  take (length udh) out = udh /\ length out = ((Z.to_nat udl * 7 + 7) / 8)%nat /\
  unpack_septets out ((Z.to_nat udl - length ss) * 7) (length ss) = Some ss.
Proof.
  intros Hu Hs H. destruct (pack_septets_spec ss udh cap out udl Hu Hs H) as (L & _ & _ & _ & -> & T & U).
  rewrite Nat2Z.id. split_and!; [done|done|]. rewrite <- U. f_equal. lia.
Qed.

Lemma pack_unpack_roundtrip_witness :
  unpack_septets [0x05; 0; 3; 0x44; 2; 1; 0x90; 0x65] ((Z.to_nat 9 - 2) * 7) 2 = Some [0x48; 0x65].
Proof.
  apply (pack_unpack_roundtrip [0x48; 0x65] [0x05; 0; 3; 0x44; 2; 1] 140
           [0x05; 0; 3; 0x44; 2; 1; 0x90; 0x65] 9);
    [apply (bool_decide_unpack _); vm_compute; exact I
    |repeat constructor; unfold septet; lia | reflexivity].
Defined.
