(* ===== verification/PduFacts.v ===== *)
(** * Facts about the parts of the PDU codec

    Hexadecimal and address round trips, and segmentation: both splitting
    loops cut an encoded text only between characters. *)

From Stdlib Require Import ZifyBool ZifyNat.
From stdpp Require Import base numbers list strings.
From S2P Require Import Prelude.
From S2P Require Import Gsm7.
From S2P Require Import PduEncode.
From S2P Require Import PduDecode.
From S2P Require Import PduBits.

Open Scope Z_scope.

(** ** Hexadecimal *)

Lemma hex_byte b :
  is_byte b ->
  let h := hex_digits.[Z.to_nat (Z.shiftr b 4)] in
  let l := hex_digits.[Z.to_nat (Z.land b 0x0F)] in
  1 <= h < 256 /\ 1 <= l < 256 /\ 0 <= hex_value h /\ 0 <= hex_value l /\
  u8 (Z.lor (Z.shiftl (hex_value h) 4) (hex_value l)) = b.
Proof. intros Hb. cbv zeta. by_bytes b Hb. Qed.

Lemma hex_encode_bytes_length data : length (hex_encode_bytes data) = (2 * length data)%nat.
Proof. induction data as [|b data IH]; simpl; lia. Qed.

Lemma hex_encode_bytes_cstring data : bytes data -> cstring (hex_encode_bytes data).
Proof.
  induction 1 as [|b data Hb Hd IH]; [constructor|].
  destruct (hex_byte b Hb) as (? & ? & _). repeat constructor; [lia..|done].
Qed.

Lemma hex_decode_pairs_encode data : bytes data -> hex_decode_pairs (hex_encode_bytes data) = Some data.
Proof.
  induction 1 as [|b data Hb Hd IH]; [done|]. cbn [hex_encode_bytes hex_decode_pairs].
  destruct (hex_byte b Hb) as (_ & _ & Hh & Hl & E). rewrite E, IH.
  destruct (Z.ltb_spec (hex_value hex_digits.[Z.to_nat (Z.shiftr b 4)]) 0); [lia|].
  destruct (Z.ltb_spec (hex_value hex_digits.[Z.to_nat (Z.land b 0x0F)]) 0); [lia|]. done.
Qed.

Lemma hex_decode_encode data cap :
  bytes data -> (length data <= cap)%nat -> hex_decode (Some (hex_encode_bytes data)) cap = inr data.
Proof.
  intros Hd Hc. unfold hex_decode. rewrite cstring_c_str by by apply hex_encode_bytes_cstring.
  rewrite hex_encode_bytes_length.
  assert ((2 * length data) mod 2 = 0)%nat as -> by (rewrite Nat.mul_comm; by apply Nat.Div0.mod_mul).
  assert ((2 * length data) / 2 = length data)%nat as -> by (rewrite Nat.mul_comm; by apply Nat.div_mul).
  destruct (Nat.ltb_spec cap (length data)); [lia|]. by rewrite hex_decode_pairs_encode.
Qed.

(** Every PDU that decodes consists of octets that fit the buffer. *)
Lemma hex_decode_pairs_bytes hex out :
  hex_decode_pairs hex = Some out -> bytes out /\ length out = (length hex / 2)%nat.
Proof.
  revert out. induction hex as [hex IH] using (well_founded_induction (Wf_nat.well_founded_ltof _ length)).
  intros out H. destruct hex as [|h [|l hex]]; simpl in H;
    [injection H as <-; split; [constructor|done]..|].
  destruct (_ || _)%bool; [done|]. destruct (hex_decode_pairs hex) as [out'|] eqn:E; [|done].
  injection H as <-. destruct (IH hex) with (out := out') as [B L]; [unfold Wf_nat.ltof; simpl; lia|done|].
  split; [constructor; [apply u8_byte|done]|]. cbn [length]. rewrite L.
  replace (S (S (length hex))) with (length hex + 1 * 2)%nat by lia. rewrite Nat.div_add by lia. lia.
Qed.

Lemma hex_decode_bytes hex cap pdu :
  hex_decode hex cap = inr pdu -> bytes pdu /\ (length pdu <= cap)%nat.
Proof.
  unfold hex_decode. intros H. destruct hex as [hex|]; [|done].
  destruct (negb _); [done|]. destruct (Nat.ltb_spec cap (length (c_str hex) / 2)); [done|].
  destruct (hex_decode_pairs (c_str hex)) as [out|] eqn:E; [|done]. injection H as <-.
  destruct (hex_decode_pairs_bytes _ _ E) as [? ->]. split; [done|lia].
Qed.

(** ** Addresses *)

(** The semi-octets of a digit string. *)
Fixpoint semi_octets (digits : list Z) : list Z :=
  match digits with
  | [] => []
  | [d] => [u8 (Z.lor (u8 (d - 48)) (Z.shiftl 0x0F 4))]
  | d1 :: d2 :: digits' =>
      u8 (Z.lor (u8 (d1 - 48)) (Z.shiftl (u8 (d2 - 48)) 4)) :: semi_octets digits'
  end.

Definition address_field (digits : list Z) (intl : bool) : list Z :=
  [Z.of_nat (length digits); if intl then 0x91 else 0x81] ++ semi_octets digits.

Definition digit_char (d : Z) : Prop := 48 <= d <= 57.

Lemma isdigit_spec d : isdigit d = true <-> digit_char d.
Proof. unfold isdigit, digit_char. lia. Qed.

Lemma pair_ind {A} (P : list A -> Prop) :
  P [] -> (forall a, P [a]) -> (forall a b l, P l -> P (a :: b :: l)) -> forall l, P l.
Proof.
  intros H0 H1 H2. fix F 1. intros [|a [|b l]]; [apply H0|apply H1|apply H2, F].
Qed.

Lemma semi_octets_length digits : length (semi_octets digits) = ((length digits + 1) / 2)%nat.
Proof.
  induction digits as [|d|d1 d2 digits IH] using pair_ind; [done..|]. cbn [semi_octets length]. rewrite IH.
  replace (S (S (length digits)) + 1)%nat with (length digits + 1 + 1 * 2)%nat by lia.
  rewrite Nat.div_add by lia. lia.
Qed.

Lemma semi_octets_bytes digits : bytes (semi_octets digits).
Proof.
  induction digits as [|d|d1 d2 digits IH] using pair_ind; repeat constructor; try apply u8_byte. exact IH.
Qed.

Lemma address_validate_Some address digits intl :
  cstring address -> address_validate address = Some (digits, intl) ->
  Forall digit_char digits /\ (1 <= length digits <= 20)%nat /\
  address = (if intl then [43] else []) ++ digits.
Proof.
  intros Ha H. unfold address_validate in H.
  assert (c_str (if address.[0] =? 43 then drop 1 address else address)
          = if address.[0] =? 43 then drop 1 address else address) as Ec.
  { destruct (_ =? _); apply cstring_c_str; [by apply Forall_drop|done]. }
  rewrite Ec in H. set (ds := if address.[0] =? 43 then _ else _) in *.
  destruct ((length ds =? 0)%nat || (20 <? length ds)%nat) eqn:El; [done|].
  destruct (forallb isdigit ds) eqn:Ed; [|done]. injection H as <- <-. split_and!; [|lia..|].
  - apply Forall_forall. intros d Hd. apply isdigit_spec. rewrite forallb_forall in Ed.
    by apply Ed, list_elem_of_In.
  - subst ds. destruct (Z.eqb_spec address.[0] 43) as [E|E]; [|done].
    destruct address as [|c address]; [discriminate E|]. unfold byte_at in E. simpl in E. by subst.
Qed.

Lemma address_encode_digits_spec digits buf :
  (length buf + length (semi_octets digits) <= SMS_MAX_PDU_OCTETS)%nat ->
  address_encode_digits buf digits = Some (buf ++ semi_octets digits).
Proof.
  revert buf. induction digits as [|d|d1 d2 digits IH] using pair_ind; intros buf H; simpl in *.
  - by rewrite app_nil_r.
  - unfold buffer_put. destruct (Nat.leb_spec SMS_MAX_PDU_OCTETS (length buf)); [lia|done].
  - unfold buffer_put. destruct (Nat.leb_spec SMS_MAX_PDU_OCTETS (length buf)); [lia|].
    rewrite IH by (rewrite length_app; simpl; lia). by rewrite <- app_assoc.
Qed.

Lemma semi_pair d1 d2 :
  digit_char d1 -> digit_char d2 ->
  let b := u8 (Z.lor (u8 (d1 - 48)) (Z.shiftl (u8 (d2 - 48)) 4)) in
  Z.land b 0x0F = d1 - 48 /\ Z.shiftr b 4 = d2 - 48.
Proof.
  intros H1 H2. unfold digit_char in *.
  assert (0 <= d1 - 48 < 10) as R1 by lia. assert (0 <= d2 - 48 < 10) as R2 by lia.
  generalize (d1 - 48) (d2 - 48) R1 R2. clear. intros x y Hx. revert y. cbv zeta.
  cut (forallb (fun y => (Z.land (u8 (Z.lor (u8 x) (Z.shiftl (u8 y) 4))) 15 =? x)
        && (Z.shiftr (u8 (Z.lor (u8 x) (Z.shiftl (u8 y) 4))) 4 =? y)) (seqZ 0 10) = true).
  - intros H y Hy. pose proof (range_forall _ 0 10 H y ltac:(lia)) as Hy'. cbv beta in Hy'. boolify. done.
  - by_range x Hx.
Qed.

Lemma semi_last d :
  digit_char d -> Z.land (u8 (Z.lor (u8 (d - 48)) (Z.shiftl 0x0F 4))) 0x0F = d - 48.
Proof.
  intros H1. assert (0 <= d - 48 < 10) as R1 by (unfold digit_char in *; lia).
  generalize (d - 48) R1. clear. intros x Hx. by_range x Hx.
Qed.

Lemma address_char_digit n : 0 <= n <= 9 -> address_char n = Some (48 + n).
Proof. intros H. unfold address_char. destruct (Z.leb_spec n 9); [done|lia]. Qed.

Lemma byte_at_middle (pre l : list Z) b : (pre ++ b :: l).[length pre] = b.
Proof. unfold byte_at. rewrite app_nth2 by lia. by rewrite Nat.sub_diag. Qed.

Lemma address_decode_loop_semi digits pre rest out cap :
  Forall digit_char digits -> (length out + length digits < cap)%nat ->
  address_decode_loop (pre ++ semi_octets digits ++ rest) (2 * length pre) (length digits) out cap
  = (true, out ++ digits).
Proof.
  intros Hd. revert pre out. induction digits as [|d|d1 d2 digits IH] using pair_ind; intros pre out Hc.
  - simpl. by rewrite app_nil_r.
  - inversion Hd as [|? ? H1 _]; subst. cbn [length address_decode_loop semi_octets app] in *.
    assert ((2 * length pre) mod 2 = 0)%nat as -> by (rewrite Nat.mul_comm; by apply Nat.Div0.mod_mul).
    assert ((2 * length pre) / 2 = length pre)%nat as -> by (rewrite Nat.mul_comm; by apply Nat.div_mul).
    cbn [Nat.eqb]. rewrite byte_at_middle, semi_last, address_char_digit by (unfold digit_char in *; lia || done).
    destruct (Nat.leb_spec cap (length out + 1)); [lia|]. repeat f_equal. lia.
  - inversion Hd as [|? ? H1 Hd']; subst. inversion Hd' as [|? ? H2 Hd'']; subst.
    cbn [length address_decode_loop semi_octets app] in *.
    assert ((2 * length pre) mod 2 = 0)%nat as -> by (rewrite Nat.mul_comm; by apply Nat.Div0.mod_mul).
    assert ((2 * length pre) / 2 = length pre)%nat as -> by (rewrite Nat.mul_comm; by apply Nat.div_mul).
    assert ((2 * length pre + 1) mod 2 = 1)%nat as ->
      by (symmetry; apply (Nat.mod_unique _ 2 (length pre)); lia).
    assert ((2 * length pre + 1) / 2 = length pre)%nat as ->
      by (symmetry; apply (Nat.div_unique _ 2 _ 1); lia).
    cbn [Nat.eqb]. destruct (semi_pair d1 d2 H1 H2) as [E1 E2].
    rewrite byte_at_middle, E1, E2, !address_char_digit by (unfold digit_char in *; lia).
    destruct (Nat.leb_spec cap (length out + 1)); [lia|].
    rewrite length_app. cbn [length]. destruct (Nat.leb_spec cap (length out + 1 + 1)); [lia|].
    rewrite cons_middle, app_assoc.
    replace (2 * length pre + 1 + 1)%nat
      with (2 * length (pre ++ [u8 (Z.lor (u8 (d1 - 48)) (Z.shiftl (u8 (d2 - 48)) 4))]))%nat
      by (rewrite length_app; simpl; lia).
    rewrite IH; [|done|rewrite !length_app; simpl; lia].
    rewrite <- !app_assoc. do 2 f_equal. simpl. repeat f_equal; lia.
Qed.

Lemma address_decode_field digits (intl : bool) rest :
  Forall digit_char digits -> (length digits <= 20)%nat ->
  address_decode (semi_octets digits ++ rest) (length digits) (if intl then 0x91 else 0x81)
                 SMS_MAX_ADDRESS_LENGTH
  = (true, (if intl then [43] else []) ++ digits).
Proof.
  intros Hd Hl. unfold address_decode, SMS_MAX_ADDRESS_LENGTH. cbn [Nat.eqb].
  destruct (Nat.ltb_spec (length (semi_octets digits ++ rest)) ((length digits + 1) / 2)) as [H|H].
  { rewrite length_app, semi_octets_length in H. lia. }
  destruct intl; cbn -[address_decode_loop];
    rewrite (address_decode_loop_semi digits [] rest); simpl; (done || lia).
Qed.

(** ** Segmentation *)

Section Split.

(** A character takes one item, or a lead item and a trailing one. *)
Context (enc : Z -> list Z) (lead : Z -> bool) (ok : Z -> Prop).
Context (enc_ok : forall cp, ok cp ->
  (exists a, enc cp = [a] /\ lead a = false) \/
  (exists a b, enc cp = [a; b] /\ lead a = true /\ lead b = false)).

Definition encs (cps : list Z) : list Z := concat (map enc cps).

Lemma encs_app cps1 cps2 : encs (cps1 ++ cps2) = encs cps1 ++ encs cps2.
Proof. unfold encs. by rewrite map_app, concat_app. Qed.

(** The two loops of the source, as one: [k] items, one less when the last
    of them would be a lead item cut off from its trailer. *)
Fixpoint split_loop (slots : nat) (items : list Z) (per pos : nat) : option (list nat) :=
  if (length items <=? pos)%nat then Some []
  else match slots with
  | O => None
  | S slots' =>
      let rest := (length items - pos)%nat in
      let k := if (per <? rest)%nat
               then if (0 <? per)%nat && lead items.[(pos + per - 1)%nat] then (per - 1)%nat else per
               else rest in
      if (k =? 0)%nat then None
      else match split_loop slots' items per (pos + k) with
           | None => None
           | Some offsets => Some ((pos + k)%nat :: offsets)
           end
  end.

(** The items between consecutive offsets. *)
Fixpoint chunks (items : list Z) (start : nat) (offsets : list nat) : list (list Z) :=
  match offsets with
  | [] => []
  | stop :: offsets' => take (stop - start) (drop start items) :: chunks items stop offsets'
  end.

(** Any cut is between characters, or right behind a lead item. *)
Lemma cut_between cps k :
  Forall ok cps -> (k <= length (encs cps))%nat ->
  exists cps1 cps2, cps = cps1 ++ cps2 /\
    (length (encs cps1) = k \/
     (length (encs cps1) + 1 = k)%nat /\ lead (encs cps).[(k - 1)%nat] = true).
Proof.
  intros H. revert k. induction H as [|cp cps Hcp Hcps IH]; intros k Hk.
  { exists [], []. simpl in *. split; [done|left; simpl; lia]. }
  destruct k as [|k]; [exists [], (cp :: cps); auto|].
  change (encs (cp :: cps)) with (enc cp ++ encs cps) in *.
  destruct (enc_ok cp Hcp) as [(a & Ea & La) | (a & b & Ea & La & Lb)]; rewrite Ea in *; simpl in Hk.
  - destruct (IH k ltac:(lia)) as (c1 & c2 & -> & [E | [E L]]).
    + exists (cp :: c1), c2. split; [done|left].
      change (encs (cp :: c1)) with (enc cp ++ encs c1). rewrite Ea. simpl. lia.
    + exists (cp :: c1), c2. split; [done|right].
      change (encs (cp :: c1)) with (enc cp ++ encs c1). rewrite Ea. simpl. split; [lia|].
      destruct k; [lia|]. simpl in L. rewrite Nat.sub_0_r in L. exact L.
  - destruct k as [|k].
    + exists [], (cp :: cps). split; [done|right]. simpl. split; [lia|exact La].
    + destruct (IH k ltac:(lia)) as (c1 & c2 & -> & [E | [E L]]).
      * exists (cp :: c1), c2. split; [done|left].
        change (encs (cp :: c1)) with (enc cp ++ encs c1). rewrite Ea. simpl. lia.
      * exists (cp :: c1), c2. split; [done|right].
        change (encs (cp :: c1)) with (enc cp ++ encs c1). rewrite Ea. simpl. split; [lia|].
        destruct k; [lia|]. simpl in L. rewrite Nat.sub_0_r in L. exact L.
Qed.

(** The last item of a whole text is not a lead item. *)
Lemma last_not_lead cps :
  Forall ok cps -> (0 < length (encs cps))%nat -> lead (encs cps).[(length (encs cps) - 1)%nat] = false.
Proof.
  intros H. induction cps as [|cp cps _] using rev_ind; [simpl; lia|]. intros Hl.
  apply Forall_app in H as [_ Hcp]. inversion Hcp as [|? ? Hc _]; subst.
  rewrite encs_app. change (encs [cp]) with (enc cp ++ []). rewrite app_nil_r, length_app.
  unfold byte_at. rewrite app_nth2; destruct (enc_ok cp Hc) as [(a & -> & La) | (a & b & -> & La & Lb)]; simpl; try lia.
  - by replace (length (encs cps) + 1 - 1 - length (encs cps))%nat with 0%nat by lia.
  - by replace (length (encs cps) + 2 - 1 - length (encs cps))%nat with 1%nat by lia.
Qed.

Lemma byte_at_app_r (l1 l2 : list Z) i : (l1 ++ l2).[(length l1 + i)%nat] = l2.[i].
Proof. unfold byte_at. rewrite app_nth2 by lia. f_equal. lia. Qed.

Lemma byte_at_app_l (l1 l2 : list Z) i : (i < length l1)%nat -> (l1 ++ l2).[i] = l1.[i].
Proof. intros. unfold byte_at. by rewrite app_nth1. Qed.

Lemma split_loop_spec slots cps1 cps2 per offsets :
  Forall ok (cps1 ++ cps2) -> (2 <= per)%nat ->
  split_loop slots (encs (cps1 ++ cps2)) per (length (encs cps1)) = Some offsets ->
  exists groups, cps2 = concat groups /\
    chunks (encs (cps1 ++ cps2)) (length (encs cps1)) offsets = map encs groups /\
    Forall (fun g => (0 < length (encs g) <= per)%nat) groups /\ (length offsets <= slots)%nat.
Proof.
  intros Hok Hper. revert cps1 cps2 offsets Hok.
  induction slots as [|slots IH]; intros cps1 cps2 offsets Hok H; cbn [split_loop] in H;
    rewrite encs_app, length_app in H.
  - destruct (Nat.leb_spec (length (encs cps1) + length (encs cps2)) (length (encs cps1))); [|done].
    injection H as <-. exists []. split_and!; [|done|constructor|simpl; lia].
    apply Forall_app in Hok as [_ Hok]. destruct Hok as [|cp cps Hcp]; [done|]. exfalso.
    change (encs (cp :: cps)) with (enc cp ++ encs cps) in *. rewrite length_app in *.
    destruct (enc_ok cp Hcp) as [(a & Ea & _) | (a & b & Ea & _)]; rewrite Ea in *; simpl in *; lia.
  - destruct (Nat.leb_spec (length (encs cps1) + length (encs cps2)) (length (encs cps1))).
    { injection H as <-. exists []. split_and!; [|done|constructor|simpl; lia].
      apply Forall_app in Hok as [_ Hok]. destruct Hok as [|cp cps Hcp]; [done|]. exfalso.
      change (encs (cp :: cps)) with (enc cp ++ encs cps) in *. rewrite length_app in *.
      destruct (enc_ok cp Hcp) as [(a & Ea & _) | (a & b & Ea & _)]; rewrite Ea in *; simpl in *; lia. }
    pose proof Hok as Hok'. apply Forall_app in Hok' as [Hok1 Hok2].
    replace (length (encs cps1) + length (encs cps2) - length (encs cps1))%nat
      with (length (encs cps2)) in H by lia.
    set (k := if (per <? length (encs cps2))%nat then _ else _) in H.
    assert (exists g rest, cps2 = g ++ rest /\ length (encs g) = k /\ (0 < k <= per)%nat)
      as (g & rest & -> & Eg & Hk).
    { subst k. destruct (Nat.ltb_spec per (length (encs cps2))) as [Hlt|Hge].
      - replace (length (encs cps1) + per - 1)%nat with (length (encs cps1) + (per - 1))%nat by lia.
        rewrite byte_at_app_r.
        destruct (cut_between cps2 per Hok2 ltac:(lia)) as (g & rest & -> & [E | [E L]]).
        + rewrite encs_app in *. rewrite byte_at_app_l by lia.
          assert (lead (encs g).[(per - 1)%nat] = false) as ->.
          { rewrite <- E. apply last_not_lead; [by apply Forall_app in Hok2 as [? _]|lia]. }
          rewrite andb_false_r. exists g, rest. split_and!; (done || lia).
        + rewrite L. destruct (Nat.ltb_spec 0 per); [|lia]. simpl.
          exists g, rest. split_and!; (done || lia).
      - exists cps2, []. rewrite app_nil_r. split_and!; (done || lia). }
    destruct (Nat.eqb_spec k 0); [lia|].
    destruct (split_loop slots _ per _) as [offs|] eqn:Es; [|done]. injection H as <-.
    rewrite <- Eg, <- length_app, <- encs_app in Es. rewrite <- encs_app, app_assoc in Es.
    rewrite app_assoc in Hok.
    destruct (IH (cps1 ++ g) rest offs Hok Es) as (groups & -> & Hch & Hf & Hlen).
    exists (g :: groups). split_and!; [done| |constructor; [lia|done]|simpl; lia].
    cbn [chunks map]. rewrite <- Eg. f_equal.
    + rewrite !encs_app, drop_app_length. replace (_ + _ - _)%nat with (length (encs g)) by lia.
      by rewrite take_app_length.
    + rewrite <- Hch. by rewrite <- length_app, <- encs_app, app_assoc.
Qed.

End Split.

(** The source's loops are instances. *)
Lemma split_gsm7_loop_eq slots septets per pos :
  split_gsm7_loop slots septets per pos = split_loop (fun s => s =? 0x1B) slots septets per pos.
Proof.
  revert pos. induction slots as [|slots IH]; intros pos; cbn [split_gsm7_loop split_loop]; [done|].
  destruct (_ <=? _)%nat; [done|]. destruct (_ =? _)%nat; [done|]. by rewrite IH.
Qed.

Lemma split_ucs2_loop_eq slots units per pos :
  split_ucs2_loop slots units per pos = split_loop high_surrogate slots units per pos.
Proof.
  revert pos. induction slots as [|slots IH]; intros pos; cbn [split_ucs2_loop split_loop]; [done|].
  destruct (Nat.leb_spec (length units) pos) as [|Hlt]; [done|].
  set (k1 := if (0 <? _)%nat && _ && _ then _ else _). set (k2 := if (per <? _)%nat then _ else _).
  assert (k1 = k2) as ->.
  { subst k1 k2. destruct (Nat.ltb_spec per (length units - pos)).
    - destruct (Nat.ltb_spec (pos + per) (length units)); [|lia]. by rewrite andb_true_r.
    - destruct (Nat.ltb_spec (pos + (length units - pos)) (length units)); [lia|].
      by rewrite andb_false_r. }
  destruct (_ =? _)%nat; [done|]. by rewrite IH.
Qed.
