(* ===== verification/PduRoundTrip.v ===== *)
(** * From SMS-SUBMIT to SMS-DELIVER

    What [sms_submit_encode] puts into its PDUs, [sms_deliver_decode] reads
    back after the network has turned the SUBMITs into DELIVERs; and
    [sms_submit_preflight] predicts exactly what the encoder will do. *)

From Stdlib Require Import ZifyBool ZifyNat.
From stdpp Require Import base numbers list strings.
From S2P Require Import Prelude.
From S2P Require Import Gsm7.
From S2P Require Import PduEncode.
From S2P Require Import PduDecode.
From S2P Require Import PduBits.
From S2P Require Import PduFacts.

Open Scope Z_scope.

(** ** The specification side *)

(** The network copies the data coding scheme, the user data with its length
    and the header indicator of a SUBMIT into the DELIVER, and adds the
    sender's address and the service-centre timestamp (3GPP TS 23.040,
    9.2.2.1 and 9.2.2.2; the SMSC field stays empty here). *)
Definition relay (submit : list Z) (sender_digits : list Z) (intl : bool) (scts : list Z) : list Z :=
  let da_bytes := ((Z.to_nat submit.[3] + 1) / 2)%nat in
  let body := drop (5 + da_bytes) submit in
  [0; Z.land submit.[1] 0x40] ++ address_field sender_digits intl
    ++ take 2 body ++ scts ++ drop 2 body.

(** A segment's PDU arrives as the text [part] with the segment's encoding and
    concatenation information, whoever the sender and whatever the time. *)
Definition delivered_as (seg : sms_submit_segment_t) (part : list Z) : Prop :=
  exists pdu, hex_decode (Some (pdu_hex seg)) SMS_MAX_PDU_OCTETS = inr pdu /\
    tpdu_length_octets seg = (length pdu - 1)%nat /\
    forall sender digits intl scts ts out0,
      cstring sender -> address_validate sender = Some (digits, intl) ->
      bytes scts -> length scts = 7%nat -> timestamp_decode scts 40 = Some ts ->
      sms_deliver_decode (Some (hex_encode_bytes (relay pdu digits intl scts))) out0
      = (SMS_PDU_DECODE_OK, mk_deliver sender (seg_encoding seg) (seg_concat seg) ts part).

(** ** UTF-16 *)

Definition utf16_enc (cp : Z) : list Z :=
  if cp <=? 0xFFFF then [cp]
  else [0xD800 + (cp - 0x10000) / 1024; 0xDC00 + (cp - 0x10000) mod 1024].

Definition unit16 (u : Z) : Prop := 0 <= u < 65536.

Lemma utf16_enc_units cp : scalar cp -> Forall unit16 (utf16_enc cp).
Proof.
  intros [H _]. unfold utf16_enc, unit16. destruct (Z.leb_spec cp 0xFFFF); repeat constructor;
    Z.div_mod_to_equations; lia.
Qed.

Lemma utf16_enc_lead cp : scalar cp ->
  (exists a, utf16_enc cp = [a] /\ high_surrogate a = false) \/
  (exists a b, utf16_enc cp = [a; b] /\ high_surrogate a = true /\ high_surrogate b = false).
Proof.
  intros [H Hs]. unfold utf16_enc, high_surrogate. destruct (Z.leb_spec cp 0xFFFF).
  - left. exists cp. split; [done|]. lia.
  - right. do 2 eexists. split; [done|]. split; Z.div_mod_to_equations; lia.
Qed.

Lemma ucs2_body_spec cap units cp : scalar cp ->
  utf8_to_ucs2_body cap units cp =
    if (length units + length (utf16_enc cp) <=? cap)%nat then Some (units ++ utf16_enc cp) else None.
Proof.
  intros [H Hs]. unfold utf8_to_ucs2_body, utf16_enc. destruct (Z.leb_spec cp 0xFFFF).
  - replace ((0xD800 <=? cp) && (cp <=? 0xDFFF)) with false by lia. cbn [orb length].
    unfold u16. rewrite Z.mod_small by lia.
    destruct (Nat.leb_spec cap (length units)), (Nat.leb_spec (length units + 1) cap); (done || lia).
  - destruct (Z.ltb_spec 0x10FFFF cp); [lia|]. cbn [orb length].
    destruct (Nat.ltb_spec cap (length units + 2)), (Nat.leb_spec (length units + 2) cap); try lia; [done|].
    rewrite Z.shiftr_div_pow2 by lia. change 0x03FF with (2 ^ 10 - 1). rewrite land_ones_mod by lia.
    change 0xD800 with (Z.shiftl 54 10). change 0xDC00 with (Z.shiftl 55 10).
    change (2 ^ 10) with 1024. set (x := cp - 0x10000) in *.
    assert (0 <= x / 1024 < 1024 /\ 0 <= x mod 1024 < 1024) as [Hd Hm] by (Z.div_mod_to_equations; lia).
    rewrite !lor_shiftl_add by (change (2 ^ 10) with 1024; lia). change (2 ^ 10) with 1024.
    unfold u16. rewrite !Z.mod_small by lia. reflexivity.
Qed.

Lemma ucs2_foldM cap cps units : Forall scalar cps -> (length units <= cap)%nat ->
  foldM (utf8_to_ucs2_body cap) cps units =
    if (length units + length (encs utf16_enc cps) <=? cap)%nat
    then Some (units ++ encs utf16_enc cps) else None.
Proof.
  intros H. revert units. induction H as [|cp cps Hcp Hcps IH]; intros units Hu.
  { simpl. rewrite app_nil_r, Nat.add_0_r. by destruct (Nat.leb_spec (length units) cap); [|lia]. }
  change (encs utf16_enc (cp :: cps)) with (utf16_enc cp ++ encs utf16_enc cps). cbn [foldM].
  rewrite ucs2_body_spec by done. rewrite length_app.
  destruct (Nat.leb_spec (length units + length (utf16_enc cp)) cap).
  - rewrite IH by (rewrite length_app; lia). rewrite length_app, <- app_assoc. by rewrite Nat.add_assoc.
  - by destruct (Nat.leb_spec (length units + (length (utf16_enc cp) + length (encs utf16_enc cps))) cap); [lia|].
Qed.

Lemma utf8_to_ucs2_spec cap cps : Forall scalar cps ->
  utf8_to_ucs2 (utf8 cps) cap =
    if (length (encs utf16_enc cps) <=? cap)%nat then Some (encs utf16_enc cps) else None.
Proof.
  intros H. unfold utf8_to_ucs2. rewrite utf8_fold_enc, ucs2_foldM by (done || simpl; lia). done.
Qed.

(** The two octets of a unit, joined again. *)
Lemma unit_join u : unit16 u -> Z.lor (Z.shiftl (u8 (Z.shiftr u 8)) 8) (u8 u) = u.
Proof.
  intros Hu. unfold unit16 in Hu. unfold u8. rewrite Z.shiftr_div_pow2 by lia. change (2 ^ 8) with 256.
  rewrite lor_shiftl_add by (change (2 ^ 8) with 256; Z.div_mod_to_equations; lia).
  change (2 ^ 8) with 256. Z.div_mod_to_equations; lia.
Qed.

Lemma ucs2_payload_app l1 l2 : ucs2_payload (l1 ++ l2) = ucs2_payload l1 ++ ucs2_payload l2.
Proof. induction l1 as [|u l1 IH]; simpl; [done|]. by rewrite IH. Qed.

Lemma ucs2_payload_length l : length (ucs2_payload l) = (2 * length l)%nat.
Proof. induction l; simpl; lia. Qed.

Lemma ucs2_payload_bytes l : bytes (ucs2_payload l).
Proof. induction l; repeat constructor; try apply u8_byte. done. Qed.

Lemma ucs2_decode_payload cps cap out :
  Forall scalar cps -> (length out + length (utf8 cps) < cap)%nat ->
  ucs2_decode_loop (ucs2_payload (encs utf16_enc cps)) out cap = (SMS_PDU_DECODE_OK, out ++ utf8 cps).
Proof.
  intros H. revert out. induction H as [|cp cps Hcp Hcps IH]; intros out Hl.
  { simpl. by rewrite app_nil_r. }
  change (encs utf16_enc (cp :: cps)) with (utf16_enc cp ++ encs utf16_enc cps).
  pose proof (utf16_enc_units cp Hcp) as Hu. pose proof Hcp as [Hr Hs].
  rewrite ucs2_payload_app, utf8_cons, app_assoc. rewrite utf8_cons, length_app in Hl.
  unfold utf16_enc in *. destruct (Z.leb_spec cp 0xFFFF); cbn [ucs2_payload app ucs2_decode_loop].
  - inversion Hu; subst. rewrite unit_join by done.
    replace ((0xD800 <=? cp) && (cp <=? 0xDBFF)) with false by lia.
    replace ((0xDC00 <=? cp) && (cp <=? 0xDFFF)) with false by lia.
    rewrite utf8_append_enc by (done || lia). apply IH. rewrite length_app. lia.
  - inversion Hu as [|? ? U1 Hu']; subst. inversion Hu' as [|? ? U2 _]; subst. rewrite !unit_join by done.
    set (h := 0xD800 + _). set (l := 0xDC00 + _).
    replace ((0xD800 <=? h) && (h <=? 0xDBFF)) with true by (subst h; Z.div_mod_to_equations; lia).
    replace ((l <? 0xDC00) || (0xDFFF <? l)) with false by (subst l; Z.div_mod_to_equations; lia).
    assert (0x10000 + Z.shiftl (h - 0xD800) 10 + (l - 0xDC00) = cp) as ->.
    { subst h l. rewrite Z.shiftl_mul_pow2 by lia. change (2 ^ 10) with 1024.
      Z.div_mod_to_equations; lia. }
    rewrite utf8_append_enc by (done || lia). apply IH. rewrite length_app. lia.
Qed.

(** ** The concatenation header *)

(** A header as the encoder builds it, and what the decoder makes of it. *)
Inductive udh_for : list Z -> sms_concat_info_t -> Prop :=
  | udh_none : udh_for [] concat_zero
  | udh_concat reference total sequence :
      0 <= reference < 65536 -> 1 <= sequence <= total -> total <= 255 ->
      udh_for (concat_header reference total sequence)
              (mk_concat true (0xFF <? reference) reference total sequence).

Lemma concat_header_length reference total sequence :
  length (concat_header reference total sequence) = if reference <=? 0xFF then 6%nat else 7%nat.
Proof. unfold concat_header. by destruct (reference <=? 0xFF). Qed.

Lemma udh_for_bytes udh c : udh_for udh c -> bytes udh.
Proof.
  destruct 1 as [|reference total sequence Hr Hs Ht]; [constructor|].
  unfold concat_header. destruct (_ <=? _); repeat constructor; try apply u8_byte; unfold is_byte; lia.
Qed.

Lemma udh_for_length udh c : udh_for udh c -> (length udh <= 7)%nat.
Proof.
  destruct 1; [simpl; lia|]. rewrite concat_header_length. destruct (_ <=? _); lia.
Qed.

(** The header's own length octet covers it. *)
Lemma concat_header_head reference total sequence :
  (Z.to_nat (concat_header reference total sequence).[0] + 1)%nat =
  length (concat_header reference total sequence).
Proof. unfold concat_header. by destruct (_ <=? _). Qed.

Lemma parse_concat_header reference total sequence :
  0 <= reference < 65536 -> 1 <= sequence <= total -> total <= 255 ->
  parse_concat_udh (concat_header reference total sequence) =
    (true, mk_concat true (0xFF <? reference) reference total sequence).
Proof.
  intros Hr Hs Ht. unfold concat_header.
  destruct (Z.leb_spec reference 0xFF).
  - unfold u8. rewrite Z.mod_small by lia.
    transitivity (if (total =? 0) || (sequence =? 0) || (total <? sequence)
                  then (false, mk_concat true false reference total sequence)
                  else (true, mk_concat true false reference total sequence)); [reflexivity|].
    replace ((total =? 0) || (sequence =? 0) || (total <? sequence)) with false by lia.
    do 2 f_equal. lia.
  - transitivity (let r := u16 (Z.lor (Z.shiftl (u8 (Z.shiftr reference 8)) 8) (u8 reference)) in
                  if (total =? 0) || (sequence =? 0) || (total <? sequence)
                  then (false, mk_concat true true r total sequence)
                  else (true, mk_concat true true r total sequence)); [reflexivity|].
    rewrite unit_join by (unfold unit16; lia). unfold u16. rewrite Z.mod_small by lia. cbv zeta.
    replace ((total =? 0) || (sequence =? 0) || (total <? sequence)) with false by lia.
    do 2 f_equal. lia.
Qed.

Lemma no_language_shift reference total sequence :
  udh_has_national_language_shift (concat_header reference total sequence) = false.
Proof. unfold concat_header. by destruct (_ <=? _). Qed.

(** ** User data: decoding what was packed *)

Lemma gsm7_septets_septet cps : gsm7_text cps -> Forall septet (gsm7_septets cps).
Proof.
  induction 1 as [|cp cps [_ [ss Hss]] Hcps IH]; [constructor|]. rewrite gsm7_septets_cons, Hss. simpl default.
  apply Forall_app. split; [|done].
  destruct (gsm7_find_decode cp ss Hss) as [(s & -> & ? & _) | (e & -> & ? & _)];
    repeat constructor; unfold septet; lia.
Qed.

Lemma gsm7_length_ge cps : gsm7_text cps -> (length cps <= length (gsm7_septets cps))%nat.
Proof.
  induction 1 as [|cp cps [_ [ss Hss]] Hcps IH]; [done|]. rewrite gsm7_septets_cons, Hss, length_app. simpl.
  destruct (gsm7_find_decode cp ss Hss) as [(s & -> & _) | (e & -> & _)]; simpl; lia.
Qed.

Lemma utf8_length_le cps : Forall scalar cps -> (length (utf8 cps) <= 4 * length cps)%nat.
Proof.
  induction 1 as [|cp cps Hcp Hcps IH]; [simpl; lia|]. rewrite utf8_cons, length_app. simpl length.
  pose proof (utf8_enc_length cp Hcp). lia.
Qed.

Lemma utf16_length_ge cps : (length cps <= length (encs utf16_enc cps))%nat.
Proof.
  induction cps as [|cp cps IH]; [done|].
  change (encs utf16_enc (cp :: cps)) with (utf16_enc cp ++ encs utf16_enc cps). rewrite length_app. simpl length.
  assert (1 <= length (utf16_enc cp))%nat by (unfold utf16_enc; destruct (_ <=? _); simpl; lia). lia.
Qed.

(** The header-indicator bit of the first octet announces the header. *)
Definition udhi (first : Z) (udh : list Z) : Prop :=
  negb (Z.land first 0x40 =? 0) = negb (length udh =? 0)%nat.

Lemma decode_user_data_gsm7 first udh c g packed udl cap :
  udhi first udh -> udh_for udh c -> gsm7_text g ->
  pack_septets (gsm7_septets g) udh 140 = Some (packed, udl) -> (length (utf8 g) < cap)%nat ->
  decode_user_data first 0x00 udl packed cap = mk_user_data SMS_PDU_DECODE_OK SMS_ENCODING_GSM7 c (utf8 g).
Proof.
  intros Hi Hu Hg Hp Hcap. pose proof (udh_for_bytes _ _ Hu) as Bu.
  destruct (pack_septets_spec _ _ _ _ _ Bu (gsm7_septets_septet g Hg) Hp) as (L & L140 & N & B & -> & T & U).
  set (n := (udh_septets udh + length (gsm7_septets g))%nat) in *.
  assert (n <= 160)%nat.
  { pose proof (Nat.div_mod_eq (n * 7 + 7) 8). pose proof (Nat.mod_upper_bound (n * 7 + 7) 8). lia. }
  unfold decode_user_data. change (dcs_encoding 0) with SMS_ENCODING_GSM7. cbn iota.
  rewrite Nat2Z.id, <- L. rewrite Hi.
  replace ((length packed <? length packed)%nat || (160 <? Z.of_nat n)) with false by lia.
  rewrite (firstn_all packed).
  assert (sms_gsm7_decode (gsm7_septets g) cap = (true, utf8 g)) as Hd.
  { unfold sms_gsm7_decode. destruct (Nat.eqb_spec cap 0); [lia|]. by apply (gsm7_decode_septets g cap []). }
  destruct Hu as [|reference total sequence Hr Hs Ht].
  - cbn [length Nat.eqb negb andb]. change (udh_septets []) with 0%nat in *.
    destruct (parse_concat_udh _) as [hok cc]. cbn [andb].
    destruct (Nat.ltb_spec n 0); [lia|]. rewrite Nat.sub_0_r.
    replace n with (length (gsm7_septets g)) by lia. by rewrite U, Hd.
  - set (udh := concat_header reference total sequence) in *.
    pose proof (concat_header_head reference total sequence) as Hh. fold udh in Hh.
    pose proof (concat_header_length reference total sequence) as Hl. fold udh in Hl.
    assert (0 < length udh)%nat as Hpos by (destruct (reference <=? 0xFF); lia).
    pose proof (udh_septets_cover udh) as Hc.
    assert (length udh <= length packed)%nat.
    { rewrite <- T at 1. rewrite length_take. lia. }
    assert (packed.[0] = udh.[0]) as ->.
    { rewrite <- T. unfold byte_at. by rewrite nth_firstn; destruct (Nat.ltb_spec 0 (length udh)); [|lia]. }
    rewrite Hh, T. unfold udh at 1. rewrite parse_concat_header by done.
    destruct (Nat.eqb_spec (length udh) 0); [lia|]. cbn [negb andb orb].
    destruct (Nat.eqb_spec (length packed) 0); [lia|].
    destruct (Nat.ltb_spec (length packed) (length udh)); [lia|]. cbn [orb].
    unfold udh at 1. rewrite no_language_shift.
    assert (header_septets (length udh) = udh_septets udh) as ->.
    { unfold udh_septets. by destruct (Nat.ltb_spec 0 (length udh)); [|lia]. }
    destruct (Nat.ltb_spec n (udh_septets udh)); [lia|].
    replace (n - udh_septets udh)%nat with (length (gsm7_septets g)) by lia. by rewrite U, Hd.
Qed.

Lemma decode_user_data_ucs2 first udh c g cap :
  udhi first udh -> udh_for udh c -> Forall scalar g ->
  (length udh + 2 * length (encs utf16_enc g) <= 140)%nat -> (length (utf8 g) < cap)%nat ->
  decode_user_data first 0x08 (Z.of_nat (length udh + 2 * length (encs utf16_enc g)))
    (udh ++ ucs2_payload (encs utf16_enc g)) cap
  = mk_user_data SMS_PDU_DECODE_OK SMS_ENCODING_UCS2 c (utf8 g).
Proof.
  intros Hi Hu Hg H140 Hcap. set (units := encs utf16_enc g) in *.
  unfold decode_user_data. change (dcs_encoding 8) with SMS_ENCODING_UCS2. cbn iota.
  rewrite Nat2Z.id, Hi, length_app, ucs2_payload_length.
  set (n := (length udh + 2 * length units)%nat) in *.
  replace ((n <? n)%nat || (140 <? Z.of_nat n)) with false by lia.
  assert (take n (udh ++ ucs2_payload units) = udh ++ ucs2_payload units) as ->.
  { apply firstn_all2. rewrite length_app, ucs2_payload_length. lia. }
  destruct Hu as [|reference total sequence Hr Hs Ht].
  - cbn [length Nat.eqb negb andb app]. destruct (parse_concat_udh _) as [hok cc]. cbn [andb].
    rewrite Nat.sub_0_r. subst n. cbn [length]. rewrite Nat.add_0_l.
    assert ((2 * length units) mod 2 = 0)%nat as -> by (rewrite Nat.mul_comm; by apply Nat.Div0.mod_mul).
    cbn [Nat.eqb negb]. rewrite drop_0. unfold units. by rewrite ucs2_decode_payload.
  - set (udh := concat_header reference total sequence) in *.
    pose proof (concat_header_head reference total sequence) as Hh. fold udh in Hh.
    pose proof (concat_header_length reference total sequence) as Hl. fold udh in Hl.
    assert (0 < length udh)%nat as Hpos by (destruct (reference <=? 0xFF); lia).
    assert ((udh ++ ucs2_payload units).[0] = udh.[0]) as -> by (by apply byte_at_app_l).
    rewrite Hh, take_app_length. unfold udh at 1. rewrite parse_concat_header by done.
    destruct (Nat.eqb_spec (length udh) 0); [lia|]. cbn [negb andb orb].
    replace (Z.of_nat n =? 0) with false by lia. destruct (Nat.ltb_spec n (length udh)); [lia|]. cbn [orb].
    unfold udh at 1. rewrite no_language_shift.
    replace (n - length udh)%nat with (length units * 2)%nat by lia.
    rewrite Nat.Div0.mod_mul. cbn [Nat.eqb negb].
    rewrite drop_app_length. unfold units. by rewrite ucs2_decode_payload.
Qed.
