(* ===== verification/PduDelivery.v ===== *)
(** * The codec end to end

    Every segment that [sms_submit_encode] writes is a PDU that fits the
    modem's buffers and that [sms_deliver_decode] reads back; the parts add up
    to the text; and [sms_submit_preflight] predicts the outcome. *)

From Stdlib Require Import ZifyBool ZifyNat.
From stdpp Require Import base numbers list strings.
From S2P Require Import Prelude.
From S2P Require Import Gsm7.
From S2P Require Import PduEncode.
From S2P Require Import PduDecode.
From S2P Require Import PduBits.
From S2P Require Import PduFacts.
From S2P Require Import PduRoundTrip.

Open Scope Z_scope.

(** ** One SUBMIT PDU *)

Definition submit_first (srr : bool) (udh : list Z) : Z :=
  let first := if srr then Z.lor 0x01 0x20 else 0x01 in
  if (0 <? length udh)%nat then Z.lor first 0x40 else first.

Definition submit_pdu (first : Z) (digits : list Z) (intl : bool) (dcs udl : Z) (ud : list Z) : list Z :=
  ([0; first; 0] ++ address_field digits intl) ++ [0; dcs; udl] ++ ud.

(** Lengths of concatenations against the buffer sizes. *)
Ltac len := rewrite ?length_app; cbn [length app]; unfold SMS_MAX_PDU_HEX, SMS_MAX_PDU_OCTETS in *; lia.

Lemma buffer_put_ok buf b : (length buf < SMS_MAX_PDU_OCTETS)%nat -> buffer_put buf b = Some (buf ++ [b]).
Proof. intros H. unfold buffer_put. destruct (Nat.leb_spec SMS_MAX_PDU_OCTETS (length buf)); [lia|done]. Qed.

Lemma buffer_append_ok buf data :
  (length buf + length data <= SMS_MAX_PDU_OCTETS)%nat -> buffer_append buf data = Some (buf ++ data).
Proof.
  intros H. unfold buffer_append.
  destruct (Nat.ltb_spec SMS_MAX_PDU_OCTETS (length buf + length data)); [lia|done].
Qed.

Lemma address_field_length digits intl :
  length (address_field digits intl) = (2 + (length digits + 1) / 2)%nat.
Proof. unfold address_field. by rewrite length_app, semi_octets_length. Qed.

Lemma address_field_short digits intl :
  (length digits <= 20)%nat -> (length (address_field digits intl) <= 12)%nat.
Proof.
  intros H. rewrite address_field_length.
  assert ((length digits + 1) / 2 <= 21 / 2)%nat by (apply Nat.Div0.div_le_mono; lia).
  change (21 / 2)%nat with 10%nat in *. lia.
Qed.

Lemma address_field_bytes digits intl : (length digits <= 20)%nat -> bytes (address_field digits intl).
Proof.
  intros H. unfold address_field. apply Forall_app. split; [|apply semi_octets_bytes].
  repeat constructor; unfold is_byte; destruct intl; lia.
Qed.

Lemma address_encode_spec buf recipient digits (intl : bool) :
  cstring recipient -> address_validate recipient = Some (digits, intl) ->
  (length buf + 12 <= SMS_MAX_PDU_OCTETS)%nat ->
  address_encode buf recipient = Some (buf ++ address_field digits intl).
Proof.
  intros Hr Hv Hl. destruct (address_validate_Some _ _ _ Hr Hv) as (_ & Hlen & _).
  pose proof (address_field_short digits intl ltac:(lia)) as Hf.
  rewrite address_field_length in Hf.
  unfold address_encode. rewrite Hv. cbn [mbind option_bind].
  rewrite buffer_put_ok by lia. cbn [mbind option_bind].
  rewrite buffer_put_ok by (rewrite length_app; cbn [length]; lia). cbn [mbind option_bind].
  rewrite address_encode_digits_spec by (rewrite !length_app, semi_octets_length; cbn [length]; lia).
  unfold address_field, u8. rewrite Z.mod_small by lia. by rewrite <- !app_assoc.
Qed.

(** The encodings the builder knows, with their DCS octet and user data. *)
Inductive user_data_of : sms_encoding_t -> list Z -> list Z -> Z -> Z -> list Z -> Prop :=
  | gsm7_ud udh payload udl packed :
      pack_septets payload udh 140 = Some (packed, udl) -> (length packed <= 140)%nat ->
      user_data_of SMS_ENCODING_GSM7 udh payload 0x00 udl packed
  | ucs2_ud udh payload :
      (length udh + length payload <= 140)%nat ->
      user_data_of SMS_ENCODING_UCS2 udh payload 0x08 (Z.of_nat (length udh + length payload))
                   (udh ++ payload).

Lemma build_submit_pdu_spec recipient digits intl encoding srr udh payload dcs udl ud :
  cstring recipient -> address_validate recipient = Some (digits, intl) ->
  user_data_of encoding udh payload dcs udl ud ->
  let pdu := submit_pdu (submit_first srr udh) digits intl dcs udl ud in
  build_submit_pdu recipient encoding srr udh payload = Some ((length pdu - 1)%nat, hex_encode_bytes pdu)
  /\ (length pdu <= 158)%nat.
Proof.
  intros Hr Hv Hu pdu. destruct (address_validate_Some _ _ _ Hr Hv) as (_ & Hlen & _).
  pose proof (address_field_short digits intl ltac:(lia)) as Hf.
  assert (length ud <= 140)%nat as Hud by (destruct Hu; rewrite ?length_app; lia).
  assert (length pdu <= 158)%nat as Hpdu.
  { unfold pdu, submit_pdu. rewrite !length_app. cbn [length]. lia. }
  split; [|done].
  unfold build_submit_pdu. rewrite (buffer_put_ok [] 0x00) by len. cbn [mbind option_bind app].
  fold (submit_first srr udh).
  rewrite buffer_put_ok by len. cbn [mbind option_bind app].
  rewrite buffer_put_ok by len. cbn [mbind option_bind app].
  rewrite (address_encode_spec _ _ digits intl) by (done || len). cbn [mbind option_bind].
  rewrite buffer_put_ok by len. cbn [mbind option_bind].
  set (q := [0; submit_first srr udh; 0] ++ _) in *.
  assert (length q <= 15)%nat as Hq by (unfold q; rewrite length_app; cbn [length]; lia).
  assert ((((q ++ [0]) ++ [dcs]) ++ [udl]) ++ ud = pdu) as Ep by (by rewrite <- !app_assoc).
  destruct Hu as [udh payload udl packed Hp Hl | udh payload Hl].
  - rewrite buffer_put_ok by len. cbn [mbind option_bind].
    rewrite Hp. cbn [mbind option_bind].
    rewrite buffer_put_ok by len. cbn [mbind option_bind].
    rewrite buffer_append_ok by len.
    rewrite Ep. cbn [mbind option_bind]. unfold hex_encode.
    destruct (Nat.ltb_spec SMS_MAX_PDU_HEX (length pdu * 2 + 1)) as [H|_];
      [unfold SMS_MAX_PDU_HEX, SMS_MAX_PDU_OCTETS in H; lia|done].
  - rewrite buffer_put_ok by len. cbn [mbind option_bind].
    rewrite length_app in Hud.
    destruct (Nat.ltb_spec 140 (length udh + length payload)); [lia|].
    unfold u8. rewrite Z.mod_small by lia.
    rewrite buffer_put_ok by len. cbn [mbind option_bind].
    assert ((if (0 <? length udh)%nat
             then buffer_append (((q ++ [0]) ++ [8]) ++ [Z.of_nat (length udh + length payload)]) udh
             else Some (((q ++ [0]) ++ [8]) ++ [Z.of_nat (length udh + length payload)]))
            = Some ((((q ++ [0]) ++ [8]) ++ [Z.of_nat (length udh + length payload)]) ++ udh)) as ->.
    { destruct (Nat.ltb_spec 0 (length udh)).
      - apply buffer_append_ok. len.
      - destruct udh; [by rewrite app_nil_r|simpl in *; lia]. }
    cbn [mbind option_bind].
    rewrite buffer_append_ok by len.
    rewrite app_assoc in Ep. rewrite Ep. cbn [mbind option_bind]. unfold hex_encode.
    destruct (Nat.ltb_spec SMS_MAX_PDU_HEX (length pdu * 2 + 1)) as [H'|_];
      [unfold SMS_MAX_PDU_HEX, SMS_MAX_PDU_OCTETS in H'; lia|done].
Qed.

Lemma submit_first_bits srr udh :
  is_byte (submit_first srr udh) /\
  Z.land (submit_first srr udh) 0x40 = (if (length udh =? 0)%nat then 0 else 0x40).
Proof.
  unfold submit_first. destruct srr, udh; (split; [|reflexivity]); unfold is_byte; vm_compute;
    split; congruence.
Qed.

Lemma submit_pdu_bytes srr udh digits intl dcs udl ud :
  (length digits <= 20)%nat -> is_byte dcs -> is_byte udl -> bytes ud ->
  bytes (submit_pdu (submit_first srr udh) digits intl dcs udl ud).
Proof.
  intros Hd Hdcs Hudl Hud. destruct (submit_first_bits srr udh) as [Hf _].
  assert (is_byte 0) by (unfold is_byte; lia).
  pose proof (address_field_bytes digits intl Hd) as Ha. unfold bytes, submit_pdu in *.
  rewrite !Forall_app, !Forall_cons, Forall_nil. naive_solver.
Qed.

(** ** What the receiver sees *)

Lemma relay_submit first digits intl dcs udl ud sdigits sintl scts :
  relay (submit_pdu first digits intl dcs udl ud) sdigits sintl scts =
    [0; Z.land first 0x40] ++ address_field sdigits sintl ++ [0; dcs] ++ scts ++ udl :: ud.
Proof.
  unfold relay. set (pdu := submit_pdu _ _ _ _ _ _).
  assert (pdu.[3] = Z.of_nat (length digits)) as -> by done.
  assert (pdu.[1] = first) as -> by done. rewrite Nat2Z.id.
  assert (drop (5 + (length digits + 1) / 2) pdu = [0; dcs; udl] ++ ud) as ->.
  { assert ((5 + (length digits + 1) / 2)%nat = length ([0; first; 0] ++ address_field digits intl)) as ->.
    { rewrite length_app, address_field_length. cbn [length]. lia. }
    apply drop_app_length. }
  done.
Qed.

Lemma timestamp_decode_app scts rest cap :
  length scts = 7%nat -> timestamp_decode (scts ++ rest) cap = timestamp_decode scts cap.
Proof.
  intros H. do 8 (destruct scts as [|? scts]; try done).
Qed.

Lemma deliver_decode_fields sender sdigits sintl first dcs scts ts udl ud out0 :
  cstring sender -> address_validate sender = Some (sdigits, sintl) ->
  (first = 0 \/ first = 0x40) -> is_byte dcs -> is_byte udl -> bytes ud -> (length ud <= 140)%nat ->
  bytes scts -> length scts = 7%nat -> timestamp_decode scts 40 = Some ts ->
  sms_deliver_decode
    (Some (hex_encode_bytes ([0; first] ++ address_field sdigits sintl ++ [0; dcs] ++ scts ++ udl :: ud))) out0
  = let u := decode_user_data first dcs udl ud SMS_MAX_TEXT_UTF8 in
    (ud_result u, mk_deliver sender (ud_encoding u) (ud_concat u) ts (ud_text u)).
Proof.
  intros Hs Hv Hf Hdcs Hudl Hud Hl Hb Hlt Ht.
  destruct (address_validate_Some _ _ _ Hs Hv) as (Hd & Hlen & ->).
  pose proof (address_field_short sdigits sintl ltac:(lia)) as Ha.
  set (pdu := [0; first] ++ _).
  assert (length pdu = 13 + (length sdigits + 1) / 2 + 1 + length ud)%nat as Lp.
  { unfold pdu. rewrite !length_app, address_field_length. cbn [length]. lia. }
  rewrite address_field_length in Ha.
  unfold sms_deliver_decode. rewrite hex_decode_encode; cycle 1.
  { pose proof (address_field_bytes sdigits sintl ltac:(lia)). unfold bytes, pdu in *.
    assert (is_byte 0) by (unfold is_byte; lia).
    assert (is_byte first) by (unfold is_byte; lia).
    rewrite !Forall_app, !Forall_cons, Forall_nil. naive_solver. }
  { unfold SMS_MAX_PDU_OCTETS. lia. }
  assert (pdu.[0] = 0) as -> by done. change (Z.to_nat 0) with 0%nat. cbn [Nat.add].
  assert (pdu.[1] = first) as -> by done.
  assert (pdu.[2] = Z.of_nat (length sdigits)) as -> by done.
  assert (pdu.[3] = if sintl then 0x91 else 0x81) as -> by done.
  rewrite Nat2Z.id. set (da := ((length sdigits + 1) / 2)%nat) in *.
  assert (drop 4 pdu = semi_octets sdigits ++ [0; dcs] ++ scts ++ udl :: ud) as Ed by done.
  rewrite Ed. rewrite address_decode_field by (done || lia).
  assert (forall k, drop (4 + da + k) pdu = drop k ([0; dcs] ++ scts ++ udl :: ud)) as Edk.
  { intros k. rewrite <- Nat.add_assoc, <- drop_drop, Ed. unfold da. rewrite <- semi_octets_length.
    rewrite <- drop_drop. by rewrite drop_app_length. }
  assert (forall k, pdu.[(4 + da + k)%nat] = ([0; dcs] ++ scts ++ udl :: ud).[k]) as Eb.
  { intros k. unfold byte_at. rewrite !nth_lookup. rewrite <- (Nat.add_0_r (4 + da + k)), <- lookup_drop, Edk.
    by rewrite lookup_drop, Nat.add_0_r. }
  replace (S (S (S (S (da + 1 + 1 + 7 + 1))))) with (4 + da + (2 + (length scts + 1)))%nat by lia.
  replace (S (S (S (S (da + 1 + 1 + 7))))) with (4 + da + (2 + length scts))%nat by lia.
  replace (S (S (S (S (da + 1 + 1))))) with (4 + da + 2)%nat by lia.
  replace (S (S (S (S (da + 1))))) with (4 + da + 1)%nat by lia.
  rewrite Eb. change (([0; dcs] ++ scts ++ udl :: ud).[1]) with dcs.
  rewrite Edk. change (drop 2 ([0; dcs] ++ scts ++ udl :: ud)) with (scts ++ udl :: ud).
  rewrite timestamp_decode_app, Ht by done.
  rewrite Eb, Edk. rewrite <- drop_drop.
  change (drop 2 ([0; dcs] ++ scts ++ udl :: ud)) with (scts ++ udl :: ud).
  rewrite <- drop_drop, drop_app_length. change (drop 1 (udl :: ud)) with ud.
  assert (([0; dcs] ++ scts ++ udl :: ud).[(2 + length scts)%nat] = udl) as ->
    by exact (byte_at_middle scts ud udl).
  assert (negb (Z.land first 3 =? 0) = false) as -> by (destruct Hf as [-> | ->]; done).
  cbn [orb negb].
  repeat match goal with |- context [(?a <? ?b)%nat] => destruct (Nat.ltb_spec a b); [lia|] end.
  repeat match goal with |- context [(?a <=? ?b)%nat] => destruct (Nat.leb_spec a b); [lia|] end.
  reflexivity.
Qed.

(** The PDU of a part, once its user data decodes to the part. *)
Lemma submit_delivered recipient digits intl encoding srr udh payload dcs udl ud c part number count :
  cstring recipient -> address_validate recipient = Some (digits, intl) ->
  user_data_of encoding udh payload dcs udl ud -> is_byte udl -> bytes ud -> (length ud <= 140)%nat ->
  (forall first, udhi first udh ->
     decode_user_data first dcs udl ud SMS_MAX_TEXT_UTF8 = mk_user_data SMS_PDU_DECODE_OK encoding c part) ->
  exists tpdu hex, build_submit_pdu recipient encoding srr udh payload = Some (tpdu, hex) /\
    delivered_as (mk_segment encoding c number count tpdu hex) part.
Proof.
  intros Hr Hv Hu Hudl Hud Hl Hdec.
  destruct (build_submit_pdu_spec recipient digits intl encoding srr udh payload dcs udl ud Hr Hv Hu) as [E L].
  set (pdu := submit_pdu _ _ _ _ _ _) in *.
  destruct (address_validate_Some _ _ _ Hr Hv) as (_ & Hlen & _).
  assert (is_byte dcs) as Hdcs by (destruct Hu; unfold is_byte; lia).
  assert (bytes pdu) by (apply submit_pdu_bytes; (done || lia)).
  exists (length pdu - 1)%nat, (hex_encode_bytes pdu). split; [exact E|]. exists pdu.
  split; [apply hex_decode_encode; [done|unfold SMS_MAX_PDU_OCTETS; lia]|]. split; [done|].
  intros sender sdigits sintl scts ts out0 Hs Hsv Hb Hlt Ht. unfold pdu. rewrite relay_submit.
  destruct (submit_first_bits srr udh) as [_ Hf].
  rewrite (deliver_decode_fields sender _ _ _ _ _ ts); try done.
  - rewrite Hdec; [done|]. unfold udhi. rewrite Hf. by destruct (length udh =? 0)%nat.
  - rewrite Hf. destruct (length udh =? 0)%nat; auto.
Qed.

Lemma pack_septets_total ss udh cap :
  (udh_septets udh + length ss <= 160)%nat -> (140 <= cap)%nat -> is_Some (pack_septets ss udh cap).
Proof.
  intros Hn Hc. unfold pack_septets. fold (udh_septets udh). set (n := (udh_septets udh + length ss)%nat) in *.
  assert ((n * 7 + 7) / 8 <= (160 * 7 + 7) / 8)%nat as Hd by (apply Nat.Div0.div_le_mono; lia).
  change ((160 * 7 + 7) / 8)%nat with 140%nat in Hd.
  destruct (Nat.ltb_spec 255 n); [lia|]. destruct (Nat.ltb_spec cap ((n * 7 + 7) / 8)); [lia|]. cbn [orb].
  destruct (fold_left _ _ _). by eexists.
Qed.

Lemma part_gsm7 recipient digits intl srr udh c g number count :
  cstring recipient -> address_validate recipient = Some (digits, intl) ->
  udh_for udh c -> gsm7_text g -> (udh_septets udh + length (gsm7_septets g) <= 160)%nat ->
  exists tpdu hex,
    build_submit_pdu recipient SMS_ENCODING_GSM7 srr udh (gsm7_septets g) = Some (tpdu, hex) /\
    delivered_as (mk_segment SMS_ENCODING_GSM7 c number count tpdu hex) (utf8 g).
Proof.
  intros Hr Hv Hu Hg Hn.
  destruct (pack_septets_total (gsm7_septets g) udh 140 Hn (le_n _)) as [[packed udl] Hp].
  destruct (pack_septets_spec _ _ _ _ _ (udh_for_bytes _ _ Hu) (gsm7_septets_septet g Hg) Hp)
    as (L & L140 & N & B & Eu & _).
  pose proof (gsm7_length_ge g Hg). pose proof (utf8_length_le g (gsm7_text_scalar g Hg)).
  eapply submit_delivered; [done|done|by constructor|unfold is_byte; lia|done|done|].
  intros first Hi. eapply decode_user_data_gsm7; (done || (unfold SMS_MAX_TEXT_UTF8; lia)).
Qed.

Lemma part_ucs2 recipient digits intl srr udh c g number count :
  cstring recipient -> address_validate recipient = Some (digits, intl) ->
  udh_for udh c -> Forall scalar g -> (length udh + 2 * length (encs utf16_enc g) <= 140)%nat ->
  exists tpdu hex,
    build_submit_pdu recipient SMS_ENCODING_UCS2 srr udh (ucs2_payload (encs utf16_enc g))
      = Some (tpdu, hex) /\
    delivered_as (mk_segment SMS_ENCODING_UCS2 c number count tpdu hex) (utf8 g).
Proof.
  intros Hr Hv Hu Hg Hn. pose proof (ucs2_payload_length (encs utf16_enc g)) as Lp.
  pose proof (utf16_length_ge g). pose proof (utf8_length_le g Hg).
  assert (bytes (udh ++ ucs2_payload (encs utf16_enc g))).
  { apply Forall_app. split; [by eapply udh_for_bytes|apply ucs2_payload_bytes]. }
  eapply submit_delivered; [done|done|constructor; lia|unfold is_byte; lia|done|rewrite length_app; lia|].
  intros first Hi. rewrite Lp. eapply decode_user_data_ucs2; (done || (unfold SMS_MAX_TEXT_UTF8; lia)).
Qed.

(** ** All the parts *)

(** Part [k] of [parts], counting from [i], is announced as [i + k + 1]. *)
Definition numbered (encoding : sms_encoding_t) (reference : Z) (parts i : nat)
    (segs : list sms_submit_segment_t) : Prop :=
  forall k seg, segs !! k = Some seg ->
    seg_encoding seg = encoding /\ segment_number seg = Z.of_nat (i + k + 1) /\
    segment_count seg = Z.of_nat parts /\
    seg_concat seg = mk_concat true (0xFF <? reference) reference (Z.of_nat parts) (Z.of_nat (i + k + 1)).

Section Parts.

Context (recipient : list Z) (encoding : sms_encoding_t) (srr : bool) (reference : Z).
Context (enc : Z -> list Z) (lead : Z -> bool) (ok : Z -> Prop) (payload_of : list Z -> list Z).
Context (per : nat).
Context (enc_ok : forall cp, ok cp ->
  (exists a, enc cp = [a] /\ lead a = false) \/
  (exists a b, enc cp = [a; b] /\ lead a = true /\ lead b = false)).
Context (reference_range : 0 <= reference < 65536).
Context (part_ok : forall c total sequence g number count,
  udh_for (concat_header reference total sequence) c -> Forall ok g ->
  (0 < length (encs enc g) <= per)%nat ->
  exists tpdu hex,
    build_submit_pdu recipient encoding srr (concat_header reference total sequence)
      (payload_of (encs enc g)) = Some (tpdu, hex) /\
    delivered_as (mk_segment encoding c number count tpdu hex) (utf8 g)).

Lemma build_parts_spec items parts groups offsets i start :
  (parts <= 255)%nat -> (i + length offsets = parts)%nat ->
  chunks items start offsets = map (encs enc) groups -> Forall (Forall ok) groups ->
  Forall (fun g => (0 < length (encs enc g) <= per)%nat) groups ->
  exists segs,
    build_parts recipient encoding srr reference parts payload_of items i start offsets = Some segs /\
    Forall2 delivered_as segs (map utf8 groups) /\ numbered encoding reference parts i segs.
Proof.
  intros Hp. revert i start groups. induction offsets as [|stop offsets IH]; intros i start groups Hi Hc Hok Hlen.
  - destruct groups; [|done]. exists []. split_and!; [done|constructor|]. by intros k seg [=].
  - destruct groups as [|g groups]; [done|]. cbn [chunks map] in Hc. injection Hc as Hg Hc.
    inversion Hok; subst. inversion Hlen; subst. cbn [length] in *.
    assert (u8 (Z.of_nat (i + S (length offsets))) = Z.of_nat (i + S (length offsets))) as Ep
      by (unfold u8; apply Z.mod_small; lia).
    assert (u8 (Z.of_nat (i + 1)) = Z.of_nat (i + 1)) as En by (unfold u8; apply Z.mod_small; lia).
    cbn [build_parts]. rewrite Ep, En, Hg.
    set (n := Z.of_nat (i + S (length offsets))) in *. set (m := Z.of_nat (i + 1)) in *.
    destruct (part_ok (mk_concat true (0xFF <? reference) reference n m) n m g m n)
      as (tpdu & hex & -> & Hd); [constructor; lia|done|done|]. cbn [mbind option_bind].
    destruct (IH (i + 1)%nat stop groups) as (segs & Es & Hf & Hn); [lia|done..|].
    rewrite Es. cbn [mbind option_bind]. eexists. split; [done|]. split; [by constructor|].
    intros [|k] seg Hk; cbn in Hk.
    + injection Hk as <-. cbn. by rewrite Nat.add_0_r.
    + destruct (Hn k seg Hk) as (? & ? & ? & ?). replace (i + S k + 1)%nat with (i + 1 + k + 1)%nat by lia. done.
Qed.

Lemma chunks_length items start offsets : length (chunks items start offsets) = length offsets.
Proof. revert start. induction offsets; intros start; simpl; auto. Qed.

Lemma all_parts cps offsets :
  Forall ok cps -> (2 <= per)%nat ->
  split_loop lead SMS_MAX_SEGMENTS (encs enc cps) per 0 = Some offsets ->
  (length offsets <= 16)%nat /\
  exists groups segs, cps = concat groups /\ length segs = length offsets /\
    build_parts recipient encoding srr reference (length offsets) payload_of (encs enc cps) 0 0 offsets
      = Some segs /\
    Forall2 delivered_as segs (map utf8 groups) /\ numbered encoding reference (length segs) 0 segs.
Proof.
  intros Hok Hper Hs.
  destruct (split_loop_spec enc lead ok enc_ok SMS_MAX_SEGMENTS [] cps per offsets Hok Hper Hs)
    as (groups & -> & Hc & Hf & Hl). cbn [app length] in *. unfold SMS_MAX_SEGMENTS in Hl.
  split; [done|].
  destruct (build_parts_spec (encs enc (concat groups)) (length offsets) groups offsets 0 0)
    as (segs & Hb & Hd & Hn); [lia|lia|exact Hc| |done|].
  { by apply Forall_concat. }
  assert (length segs = length offsets) as El.
  { apply Forall2_length in Hd. rewrite length_map in Hd.
    apply (f_equal length) in Hc. rewrite chunks_length, length_map in Hc. lia. }
  exists groups, segs. rewrite El. done.
Qed.

End Parts.

(** ** The outcome of an encoding, and the theorems *)

Lemma gsm7_enc_ok cp : scalar cp /\ is_Some (gsm7_find cp) ->
  (exists a, default [] (gsm7_find cp) = [a] /\ (a =? 0x1B) = false) \/
  (exists a b, default [] (gsm7_find cp) = [a; b] /\ (a =? 0x1B) = true /\ (b =? 0x1B) = false).
Proof.
  intros [_ [ss Hss]]. rewrite Hss. destruct (gsm7_find_decode cp ss Hss) as [(s & -> & H) | (e & -> & H)].
  - left. exists s. split; [done|]. lia.
  - right. exists 0x1B, e. split; [done|]. split; [done|]. lia.
Qed.

Lemma header_septets_udh udh : (0 < length udh)%nat -> udh_septets udh = header_septets (length udh).
Proof. intros H. unfold udh_septets. by destruct (Nat.ltb_spec 0 (length udh)); [|lia]. Qed.

(** Every part of a multipart text has the header of the same length. *)
Lemma concat_header_length_eq reference t s :
  length (concat_header reference t s) = length (concat_header reference 1 1).
Proof. by rewrite !concat_header_length. Qed.

Lemma utf8_concat groups : concat (map utf8 groups) = utf8 (concat groups).
Proof. induction groups as [|g groups IH]; simpl; [done|]. by rewrite utf8_app, IH. Qed.

Section Outcome.

Context (recipient : list Z) (digits : list Z) (intl : bool) (reference : Z).
Context (Hr : cstring recipient) (Hv : address_validate recipient = Some (digits, intl)).
Context (Hc : 0 <= reference < 65536).

Definition described (encoding : sms_encoding_t) (segs : list sms_submit_segment_t) : Prop :=
  (exists tpdu hex, segs = [mk_segment encoding concat_zero 1 1 tpdu hex]) \/
  numbered encoding reference (length segs) 0 segs.

(** What the encoder makes of a text it accepts. *)
Definition encoded (encoding : sms_encoding_t) (text : list Z) (segs : list sms_submit_segment_t) : Prop :=
  described encoding segs /\
  exists parts, concat parts = text /\ Forall2 delivered_as segs parts.

Lemma encoded_single encoding text srr payload :
  (exists tpdu hex, build_submit_pdu recipient encoding srr [] payload = Some (tpdu, hex) /\
     delivered_as (mk_segment encoding concat_zero 1 1 tpdu hex) text) ->
  exists segs, single_segment recipient encoding srr payload = Some segs /\ length segs = 1%nat /\
    encoded encoding text segs.
Proof.
  intros (tpdu & hex & E & D). unfold single_segment. rewrite E. cbn [mbind option_bind].
  eexists. split_and!; [done..|]. split; [left; by eexists _, _|].
  exists [text]. simpl. rewrite app_nil_r. auto using Forall2_cons, Forall2_nil.
Qed.

Lemma split_gsm7_eq septets per :
  split_gsm7 septets per = split_loop (fun s => s =? 0x1B) SMS_MAX_SEGMENTS septets per 0.
Proof. unfold split_gsm7. generalize SMS_MAX_SEGMENTS. intros n. apply split_gsm7_loop_eq. Qed.

Lemma gsm7_per_bound :
  (152 <= 160 - header_septets (length (concat_header reference 1 1)) <= 153)%nat.
Proof. rewrite concat_header_length. destruct (reference <=? 0xFF); cbv; lia. Qed.

Lemma gsm7_part_ok srr c total sequence g number count :
  udh_for (concat_header reference total sequence) c -> gsm7_text g ->
  (0 < length (gsm7_septets g) <= 160 - header_septets (length (concat_header reference 1 1)))%nat ->
  exists tpdu hex,
    build_submit_pdu recipient SMS_ENCODING_GSM7 srr (concat_header reference total sequence)
      (gsm7_septets g) = Some (tpdu, hex) /\
    delivered_as (mk_segment SMS_ENCODING_GSM7 c number count tpdu hex) (utf8 g).
Proof.
  intros Hu Hok Hlen. apply (part_gsm7 recipient digits intl); [exact Hr|exact Hv|exact Hu|exact Hok|].
  pose proof gsm7_per_bound as Hb.
  rewrite header_septets_udh, concat_header_length_eq; [lia|].
  rewrite concat_header_length. destruct (reference <=? 0xFF); lia.
Qed.

Lemma encoded_gsm7 cps srr per offsets :
  per = (160 - header_septets (length (concat_header reference 1 1)))%nat -> gsm7_text cps ->
  split_gsm7 (gsm7_septets cps) per = Some offsets ->
  (length offsets <= 16)%nat /\
  exists segs, build_parts recipient SMS_ENCODING_GSM7 srr reference (length offsets) id
                 (gsm7_septets cps) 0 0 offsets = Some segs /\
    length segs = length offsets /\ encoded SMS_ENCODING_GSM7 (utf8 cps) segs.
Proof.
  intros Hp Hg Hs. rewrite split_gsm7_eq in Hs.
  pose proof gsm7_per_bound as Hb. pose proof (gsm7_part_ok srr) as Hpart. rewrite <- Hp in Hb, Hpart.
  destruct (all_parts recipient SMS_ENCODING_GSM7 srr reference (fun cp => default [] (gsm7_find cp))
              (fun s => s =? 0x1B) (fun cp => scalar cp /\ is_Some (gsm7_find cp)) id per gsm7_enc_ok Hc
              Hpart cps offsets Hg ltac:(lia) Hs)
    as (Hl & groups & segs & Ec & El & Eb & Hd & Hn).
  split; [exact Hl|]. exists segs. split; [exact Eb|]. split; [exact El|]. split; [right; exact Hn|].
  exists (map utf8 groups). split; [|exact Hd]. rewrite Ec. apply utf8_concat.
Qed.

Lemma encoded_ucs2 cps srr per offsets :
  per = ((140 - length (concat_header reference 1 1)) / 2)%nat -> Forall scalar cps ->
  split_ucs2_loop SMS_MAX_SEGMENTS (encs utf16_enc cps) per 0 = Some offsets ->
  (length offsets <= 16)%nat /\
  exists segs, build_parts recipient SMS_ENCODING_UCS2 srr reference (length offsets) ucs2_payload
                 (encs utf16_enc cps) 0 0 offsets = Some segs /\
    length segs = length offsets /\ encoded SMS_ENCODING_UCS2 (utf8 cps) segs.
Proof.
  intros Hp Hg Hs. rewrite split_ucs2_loop_eq in Hs.
  assert (per = if reference <=? 0xFF then 67%nat else 66%nat) as Hper.
  { rewrite Hp, concat_header_length. by destruct (reference <=? 0xFF). }
  destruct (all_parts recipient SMS_ENCODING_UCS2 srr reference utf16_enc
              high_surrogate scalar ucs2_payload per utf16_enc_lead Hc)
    with (cps := cps) (offsets := offsets) as (Hl & groups & segs & Ec & El & Eb & Hd & Hn).
  - intros c total sequence g number count Hu Hok Hlen.
    apply (part_ucs2 recipient digits intl); try done.
    rewrite concat_header_length. rewrite Hper in Hlen. destruct (_ <=? _); lia.
  - done.
  - rewrite Hper. destruct (_ <=? _); lia.
  - exact Hs.
  - split; [done|]. exists segs. split; [exact Eb|]. split; [exact El|]. split; [by right|].
    exists (map utf8 groups). split; [|exact Hd]. rewrite Ec. apply utf8_concat.
Qed.

(** Preflight and encoder decide alike, whatever the report flag. *)
Definition agree (text : list Z) (preflight : option (sms_encoding_t * nat))
    (encode : bool -> nat -> option (list sms_submit_segment_t)) : Prop :=
  match preflight with
  | None => forall srr max, encode srr max = None
  | Some (encoding, n) =>
      (1 <= n <= SMS_MAX_SEGMENTS)%nat /\
      forall srr max,
        if (max <? n)%nat then encode srr max = None
        else exists segs, encode srr max = Some segs /\ length segs = n /\ encoded encoding text segs
  end.

Lemma agree_one encoding text payload :
  (forall srr, exists tpdu hex, build_submit_pdu recipient encoding srr [] payload = Some (tpdu, hex) /\
     delivered_as (mk_segment encoding concat_zero 1 1 tpdu hex) text) ->
  agree text (Some (encoding, 1%nat))
    (fun srr max => if (max =? 0)%nat then None else single_segment recipient encoding srr payload).
Proof.
  intros H. split; [unfold SMS_MAX_SEGMENTS; lia|]. intros srr max.
  destruct (Nat.eqb_spec max 0) as [->|]; [done|]. destruct (Nat.ltb_spec max 1); [lia|].
  apply encoded_single, H.
Qed.

Lemma agree_many encoding text n (build : bool -> option (list sms_submit_segment_t)) :
  (1 <= n <= SMS_MAX_SEGMENTS)%nat ->
  (forall srr, exists segs, build srr = Some segs /\ length segs = n /\ encoded encoding text segs) ->
  agree text (Some (encoding, n))
    (fun srr max => if (max =? 0)%nat then None
                    else if (max <? n)%nat || (255 <? n)%nat then None else build srr).
Proof.
  intros Hn H. split; [done|]. intros srr max. unfold SMS_MAX_SEGMENTS in Hn.
  destruct (Nat.ltb_spec max n); [by destruct (_ =? _)%nat|].
  destruct (Nat.eqb_spec max 0); [lia|]. destruct (Nat.ltb_spec 255 n); [lia|]. apply H.
Qed.

Lemma agree_none text (f : bool -> nat -> option (list sms_submit_segment_t)) :
  (forall srr max, f srr max = None) -> agree text None f.
Proof. done. Qed.

Lemma split_loop_nonempty lead slots items per offsets :
  split_loop lead slots items per 0 = Some offsets -> (0 < length items)%nat -> (1 <= length offsets)%nat.
Proof.
  intros H Hl. destruct slots; cbn [split_loop] in H; destruct (Nat.leb_spec (length items) 0); try lia; [done|].
  destruct (_ =? _)%nat; [done|]. destruct (split_loop _ _ _ _ _); [|done].
  injection H as <-. simpl. lia.
Qed.

(** What the parts lemmas say of a split, so that the proofs below need not
    look into the splitting loop. *)
Definition split_ok (encoding : sms_encoding_t) (text : list Z)
    (build : bool -> list nat -> option (list sms_submit_segment_t)) (split : option (list nat)) : Prop :=
  forall offsets, split = Some offsets ->
    (1 <= length offsets <= SMS_MAX_SEGMENTS)%nat /\
    forall srr, exists segs, build srr offsets = Some segs /\ length segs = length offsets /\
      encoded encoding text segs.

Lemma split_ok_gsm7 cps per :
  per = (160 - header_septets (length (concat_header reference 1 1)))%nat -> gsm7_text cps ->
  (0 < length (gsm7_septets cps))%nat ->
  split_ok SMS_ENCODING_GSM7 (utf8 cps)
    (fun srr offsets => build_parts recipient SMS_ENCODING_GSM7 srr reference (length offsets) id
                          (gsm7_septets cps) 0 0 offsets)
    (split_gsm7 (gsm7_septets cps) per).
Proof.
  intros Hp Hg Hl offsets Es. destruct (encoded_gsm7 cps false per offsets Hp Hg Es) as [H16 _]. split.
  - rewrite split_gsm7_eq in Es. split; [eapply split_loop_nonempty; [exact Es|exact Hl]|exact H16].
  - intros srr. destruct (encoded_gsm7 cps srr per offsets Hp Hg Es) as (_ & segs & H). by exists segs.
Qed.

Lemma split_ok_ucs2 cps per :
  per = ((140 - length (concat_header reference 1 1)) / 2)%nat -> Forall scalar cps ->
  (0 < length (encs utf16_enc cps))%nat ->
  split_ok SMS_ENCODING_UCS2 (utf8 cps)
    (fun srr offsets => build_parts recipient SMS_ENCODING_UCS2 srr reference (length offsets) ucs2_payload
                          (encs utf16_enc cps) 0 0 offsets)
    (split_ucs2_loop SMS_MAX_SEGMENTS (encs utf16_enc cps) per 0).
Proof.
  intros Hp Hg Hl offsets Es. destruct (encoded_ucs2 cps false per offsets Hp Hg Es) as [H16 _]. split.
  - rewrite split_ucs2_loop_eq in Es. split; [eapply split_loop_nonempty; [exact Es|exact Hl]|exact H16].
  - intros srr. destruct (encoded_ucs2 cps srr per offsets Hp Hg Es) as (_ & segs & H). by exists segs.
Qed.

Lemma submit_outcome_gsm7 cps :
  gsm7_text cps -> 2 * Z.of_nat (length cps) < SIZE_MAX ->
  agree (utf8 cps) (sms_submit_preflight (Some recipient) (Some (utf8 cps)) reference)
    (fun srr max => sms_submit_encode (Some recipient) (Some (utf8 cps)) srr reference max).
Proof.
  intros Hg Hl. unfold sms_submit_preflight, sms_submit_encode.
  pose proof (fun per E => split_ok_gsm7 cps per E Hg) as Hsplit. revert Hsplit.
  generalize SMS_MAX_GSM7_SEPTETS split_gsm7. intros septets_max split Hsplit.
  rewrite Hv. cbn [mbind option_bind].
  rewrite septet_count_utf8, gsm7_encode_utf8 by eauto using gsm7_text_scalar.
  rewrite bool_decide_eq_true_2 by done. cbn [andb].
  pose proof (gsm7_septets_length_le cps).
  destruct (Z.eqb_spec (Z.of_nat (length (gsm7_septets cps))) SIZE_MAX) as [E|_]; [lia|]. cbn [negb].
  destruct (Z.ltb_spec (Z.of_nat septets_max) (Z.of_nat (length (gsm7_septets cps))));
    [apply agree_none; intros; by destruct (_ =? _)%nat|].
  destruct (Nat.leb_spec (length (gsm7_septets cps)) septets_max); [|lia]. cbn [mbind option_bind].
  destruct (Z.leb_spec (Z.of_nat (length (gsm7_septets cps))) 160);
    destruct (Nat.leb_spec (length (gsm7_septets cps)) 160); try lia.
  - apply agree_one. intros srr. apply (part_gsm7 recipient digits intl); try done. constructor.
  - destruct (split _ _) as [offsets|] eqn:Es; cbn [mbind option_bind];
      [|apply agree_none; intros; by destruct (_ =? _)%nat].
    destruct (Hsplit _ eq_refl ltac:(lia) offsets Es) as [H16 Hb].
    destruct (Nat.eqb_spec (length offsets) 0); [lia|].
    destruct (Nat.ltb_spec SMS_MAX_SEGMENTS (length offsets)); [lia|].
    by apply agree_many.
Qed.

Lemma submit_outcome_ucs2 text :
  cstring text -> sms_gsm7_septet_count (Some text) = SIZE_MAX ->
  agree text (sms_submit_preflight (Some recipient) (Some text) reference)
    (fun srr max => sms_submit_encode (Some recipient) (Some text) srr reference max).
Proof.
  intros Ht Hc7. unfold sms_submit_preflight, sms_submit_encode.
  pose proof (fun cps per => split_ok_ucs2 cps per) as Hsplit. revert Hsplit.
  generalize SMS_MAX_GSM7_SEPTETS SMS_MAX_UCS2_UNITS split_ucs2_loop.
  intros septets_max units_max split Hsplit. rewrite Hv, Hc7. cbn [mbind option_bind].
  rewrite Z.eqb_refl. cbn [negb].
  destruct (utf8_to_ucs2 text units_max) as [units|] eqn:Eu; cbn [mbind option_bind];
    [|apply agree_none; intros; by destruct (_ =? _)%nat].
  destruct (utf8_fold_Some _ _ _ _ Ht Eu) as (cps & Hcps & -> & _).
  rewrite utf8_to_ucs2_spec in Eu by done.
  destruct (_ <=? units_max)%nat in Eu; [|done]. injection Eu as <-.
  destruct (Nat.leb_spec (length (encs utf16_enc cps)) 70).
  - apply agree_one. intros srr. apply (part_ucs2 recipient digits intl); try done; [constructor|simpl; lia].
  - destruct (split _ _ _ _) as [offsets|] eqn:Es; cbn [mbind option_bind];
      [|apply agree_none; intros; by destruct (_ =? _)%nat].
    destruct (Hsplit _ _ eq_refl Hcps ltac:(lia) offsets Es) as [H16 Hb].
    destruct (Nat.eqb_spec (length offsets) 0); [lia|].
    destruct (Nat.ltb_spec SMS_MAX_SEGMENTS (length offsets)); [lia|].
    by apply agree_many.
Qed.

Lemma submit_outcome text :
  cstring text -> 2 * Z.of_nat (length text) < SIZE_MAX ->
  agree text (sms_submit_preflight (Some recipient) (Some text) reference)
    (fun srr max => sms_submit_encode (Some recipient) (Some text) srr reference max).
Proof.
  intros Ht Hl. destruct (Z.eqb_spec (sms_gsm7_septet_count (Some text)) SIZE_MAX) as [E|E].
  - by apply submit_outcome_ucs2.
  - destruct (septet_count_inv text Ht Hl E) as (cps & Hg & -> & _).
    pose proof (utf8_length_ge cps (gsm7_text_scalar cps Hg)). apply submit_outcome_gsm7; [done|lia].
Qed.

End Outcome.

Lemma address_validate_None_outcome recipient text reference srr max :
  address_validate recipient = None ->
  sms_submit_preflight (Some recipient) (Some text) reference = None /\
  sms_submit_encode (Some recipient) (Some text) srr reference max = None.
Proof.
  intros H. unfold sms_submit_preflight, sms_submit_encode. rewrite H. cbn [mbind option_bind].
  split; [done|]. by destruct (_ =? _)%nat.
Qed.

Lemma submit_encode_Some recipient text reference srr max segs :
  cstring recipient -> cstring text -> 2 * Z.of_nat (length text) < SIZE_MAX -> 0 <= reference < 65536 ->
  sms_submit_encode (Some recipient) (Some text) srr reference max = Some segs ->
  (1 <= length segs <= SMS_MAX_SEGMENTS)%nat /\ (length segs <= max)%nat /\
  exists encoding, encoded reference encoding text segs.
Proof.
  intros Hr Ht Hl Hc H. destruct (address_validate recipient) as [[digits intl]|] eqn:Hv.
  2: { by rewrite (proj2 (address_validate_None_outcome _ _ _ _ _ Hv)) in H. }
  pose proof (submit_outcome recipient digits intl reference Hr Hv Hc text Ht Hl) as A.
  unfold agree in A. destruct (sms_submit_preflight _ _ _) as [[encoding n]|].
  - destruct A as [Hn A]. specialize (A srr max).
    destruct (Nat.ltb_spec max n); [by rewrite A in H|].
    destruct A as (segs' & E & L & D). rewrite E in H. injection H as ->.
    split; [lia|]. split; [lia|]. by exists encoding.
  - by rewrite A in H.
Qed.

(** The room for the segments does not matter to what they are. *)
Lemma submit_encode_unique recipient text reference srr max max' segs segs' :
  sms_submit_encode (Some recipient) (Some text) srr reference max = Some segs ->
  sms_submit_encode (Some recipient) (Some text) srr reference max' = Some segs' -> segs = segs'.
Proof.
  unfold sms_submit_encode. destruct (max =? 0)%nat, (max' =? 0)%nat; try done.
  destruct (address_validate recipient); cbn [mbind option_bind]; [|done]. destruct (negb _).
  - destruct (_ <? _); [done|]. destruct (sms_gsm7_encode _ _) as [septets|]; cbn [mbind option_bind]; [|done].
    destruct (_ <=? _)%nat; [congruence|]. destruct (split_gsm7 _ _); cbn [mbind option_bind]; [|done].
    destruct (_ || _)%bool; [done|]. destruct (_ || _)%bool; congruence.
  - destruct (utf8_to_ucs2 _ _) as [units|]; cbn [mbind option_bind]; [|done].
    destruct (_ <=? _)%nat; [congruence|]. destruct (split_ucs2_loop _ _ _ _); cbn [mbind option_bind]; [|done].
    destruct (_ || _)%bool; [done|]. destruct (_ || _)%bool; congruence.
Qed.

Lemma submit_encode_capacity recipient text reference srr max segs :
  cstring recipient -> cstring text -> 2 * Z.of_nat (length text) < SIZE_MAX -> 0 <= reference < 65536 ->
  sms_submit_encode (Some recipient) (Some text) srr reference max = Some segs ->
  sms_submit_encode (Some recipient) (Some text) srr reference (length segs) = Some segs.
Proof.
  intros Hr Ht Hl Hc H. destruct (address_validate recipient) as [[digits intl]|] eqn:Hv.
  2: { by rewrite (proj2 (address_validate_None_outcome _ _ _ _ _ Hv)) in H. }
  pose proof (submit_outcome recipient digits intl reference Hr Hv Hc text Ht Hl) as A.
  unfold agree in A. destruct (sms_submit_preflight _ _ _) as [[encoding n]|]; [|by rewrite A in H].
  destruct A as [Hn A]. pose proof (A srr max) as Am. destruct (max <? n)%nat; [by rewrite Am in H|].
  destruct Am as (segs1 & E1 & L1 & _). rewrite E1 in H. injection H as ->. rewrite L1.
  specialize (A srr n). rewrite Nat.ltb_irrefl in A. destruct A as (segs2 & E2 & _).
  by rewrite (submit_encode_unique _ _ _ _ _ _ _ _ E1 E2).
Qed.

Lemma delivered_hex seg part : delivered_as seg part ->
  (strlen (pdu_hex seg) <= 352)%nat /\ tpdu_length_octets seg = (strlen (pdu_hex seg) / 2 - 1)%nat.
Proof.
  intros (pdu & H & -> & _). unfold hex_decode, strlen, SMS_MAX_PDU_OCTETS in *.
  destruct (Nat.eqb_spec (length (c_str (pdu_hex seg)) mod 2) 0) as [E|]; [|done]. cbn [negb] in H.
  destruct (Nat.ltb_spec 176 (length (c_str (pdu_hex seg)) / 2)); [done|].
  destruct (hex_decode_pairs (c_str (pdu_hex seg))) as [out|] eqn:Eo; [|done]. injection H as <-.
  destruct (hex_decode_pairs_bytes _ _ Eo) as [_ ->].
  pose proof (Nat.div_mod_eq (length (c_str (pdu_hex seg))) 2). split; [lia|done].
Qed.

(** C5. The text arrives whole: the parts that the receiver decodes from the
    segments' PDUs, each with its segment's encoding and concatenation
    information, add up to the text that [sms_submit_encode] was given. *)
Theorem submit_parts_deliver_text (recipient text : list Z) (reference : Z) (srr : bool) (max : nat)
    (segs : list sms_submit_segment_t) :
  cstring recipient -> cstring text -> 2 * Z.of_nat (length text) < SIZE_MAX -> 0 <= reference < 65536 ->
  sms_submit_encode (Some recipient) (Some text) srr reference max = Some segs ->
  exists parts, concat parts = text /\ Forall2 delivered_as segs parts.
Proof.
  intros Hr Ht Hl Hc H.
  by destruct (submit_encode_Some recipient text reference srr max segs Hr Ht Hl Hc H) as (_ & _ & e & _ & ?).
Qed.

(** 161 septets, the last of them an escape sequence that must not be cut. *)
Definition sample_text : list Z := replicate 152 97 ++ str "€12345678".

Definition sample_segs : list sms_submit_segment_t :=
  Eval vm_compute in
  default [] (sms_submit_encode (Some (str "+4917012345")) (Some sample_text) true 0x1234 4).

Lemma sample_encodes :
  sms_submit_encode (Some (str "+4917012345")) (Some sample_text) true 0x1234 4 = Some sample_segs.
Proof. vm_compute. reflexivity. Qed.

Lemma sample_facts :
  cstring (str "+4917012345") /\ cstring sample_text /\ 2 * Z.of_nat (length sample_text) < SIZE_MAX.
Proof. split_and!; apply (bool_decide_unpack _); vm_compute; exact I. Qed.

Lemma submit_parts_deliver_text_witness :
  exists parts, concat parts = sample_text /\ Forall2 delivered_as sample_segs parts.
Proof.
  destruct sample_facts as (Hr & Ht & Hl).
  apply (submit_parts_deliver_text (str "+4917012345") sample_text 0x1234 true 4 sample_segs Hr Ht Hl);
    [lia | exact sample_encodes].
Defined.

(** C37. [sms_submit_preflight] predicts the encoder: its encoding and its
    segment count are those of the encoding, which fails exactly when
    preflight fails or when the caller has fewer slots than preflight counted. *)
Theorem preflight_predicts_encode (recipient text : list Z) (reference : Z) (srr : bool) (max : nat) :
  cstring recipient -> cstring text -> 2 * Z.of_nat (length text) < SIZE_MAX -> 0 <= reference < 65536 ->
  match sms_submit_preflight (Some recipient) (Some text) reference with
  | None => sms_submit_encode (Some recipient) (Some text) srr reference max = None
  | Some (encoding, n) =>
      (1 <= n <= SMS_MAX_SEGMENTS)%nat /\
      if (max <? n)%nat
      then sms_submit_encode (Some recipient) (Some text) srr reference max = None
      else exists segs, sms_submit_encode (Some recipient) (Some text) srr reference max = Some segs /\
             length segs = n /\ Forall (fun seg => seg_encoding seg = encoding) segs
  end.
Proof.
  intros Hr Ht Hl Hc. destruct (address_validate recipient) as [[digits intl]|] eqn:Hv.
  2: { by destruct (address_validate_None_outcome recipient text reference srr max Hv) as [-> ->]. }
  pose proof (submit_outcome recipient digits intl reference Hr Hv Hc text Ht Hl) as A.
  unfold agree in A. destruct (sms_submit_preflight _ _ _) as [[encoding n]|]; [|apply A].
  destruct A as [Hn A]. split; [done|]. specialize (A srr max). destruct (max <? n)%nat; [done|].
  destruct A as (segs & E & L & D & _). exists segs. split_and!; [done..|].
  destruct D as [(tpdu & hex & ->) | D]; [by repeat constructor|].
  apply Forall_lookup. intros k seg Hk. by destruct (D k seg Hk).
Qed.

Lemma sample_preflight :
  sms_submit_preflight (Some (str "+4917012345")) (Some sample_text) 0x1234 = Some (SMS_ENCODING_GSM7, 2%nat).
Proof. vm_compute. reflexivity. Qed.

Lemma preflight_predicts_encode_witness :
  sms_submit_encode (Some (str "+4917012345")) (Some sample_text) true 0x1234 1 = None.
Proof.
  destruct sample_facts as (Hr & Ht & Hl).
  pose proof (preflight_predicts_encode (str "+4917012345") sample_text 0x1234 true 1 Hr Ht Hl
                ltac:(lia)) as H.
  rewrite sample_preflight in H. destruct H as [_ H]. cbn [Nat.ltb Nat.leb] in H. exact H.
Defined.

(** Segments are consistent: at most 16 and at most as many as the caller
    has slots; the k-th announces itself as part k of that many, in its fields
    and, unless it is the only one, in its concatenation header; its
    hexadecimal PDU fits the 353-byte array, and the length to announce in
    AT+CMGS is the number of octets behind the SMSC field. *)
Theorem submit_segments_consistent (recipient text : list Z) (reference : Z) (srr : bool) (max : nat)
    (segs : list sms_submit_segment_t) :
  cstring recipient -> cstring text -> 2 * Z.of_nat (length text) < SIZE_MAX -> 0 <= reference < 65536 ->
  sms_submit_encode (Some recipient) (Some text) srr reference max = Some segs ->
  (1 <= length segs <= SMS_MAX_SEGMENTS)%nat /\ (length segs <= max)%nat /\
  forall k seg, segs !! k = Some seg ->
    segment_number seg = Z.of_nat (k + 1) /\ segment_count seg = Z.of_nat (length segs) /\
    (seg_concat seg = concat_zero /\ length segs = 1%nat \/
     seg_concat seg = mk_concat true (0xFF <? reference) reference (Z.of_nat (length segs)) (Z.of_nat (k + 1))) /\
    (strlen (pdu_hex seg) < SMS_MAX_PDU_HEX)%nat /\
    tpdu_length_octets seg = (strlen (pdu_hex seg) / 2 - 1)%nat.
Proof.
  intros Hr Ht Hl Hc H.
  destruct (submit_encode_Some _ _ _ _ _ _ Hr Ht Hl Hc H) as (Hn & Hm & encoding & D & parts & _ & Hd).
  split; [done|]. split; [done|]. intros k seg Hk.
  destruct (Forall2_lookup_l _ _ _ _ _ Hd Hk) as (part & _ & Hp).
  destruct (delivered_hex _ _ Hp) as [Hx Ht'].
  assert (strlen (pdu_hex seg) < SMS_MAX_PDU_HEX)%nat by (unfold SMS_MAX_PDU_HEX, SMS_MAX_PDU_OCTETS; lia).
  destruct D as [(tpdu & hex & ->) | D].
  - destruct k; [|done]. injection Hk as <-. by split_and!; [..|left| |].
  - destruct (D k seg Hk) as (_ & ? & ? & ?). by split_and!; [..|right| |].
Qed.

Lemma submit_segments_consistent_witness :
  exists seg, sample_segs !! 1%nat = Some seg /\ segment_number seg = 2 /\ segment_count seg = 2.
Proof.
  destruct sample_facts as (Hr & Ht & Hl).
  destruct (submit_segments_consistent (str "+4917012345") sample_text 0x1234 true 4 sample_segs Hr Ht Hl
              ltac:(lia) sample_encodes) as (_ & _ & H).
  eexists. split; [reflexivity|]. destruct (H 1%nat _ eq_refl) as (-> & -> & _). split; reflexivity.
Defined.
