(* ===== verification/PduDecodeFacts.v ===== *)
(** * The decoder on arbitrary input

    Whatever hex string arrives from the network, the decoders stay inside the
    arrays of their results and leave well-formed fields there, also when they
    fail.  The hex reader bounds the octets, each part of the PDU its own
    output. *)

From Stdlib Require Import ZifyBool ZifyNat.
From stdpp Require Import base numbers list strings.
From S2P Require Import Prelude.
From S2P Require Import Gsm7.
From S2P Require Import PduEncode.
From S2P Require Import PduDecode.
From S2P Require Import PduBits.
From S2P Require Import PduFacts.

Open Scope Z_scope.

(** ** Strings in arrays *)

Lemma bytes_cons b l : is_byte b -> bytes l -> bytes (b :: l).
Proof. by constructor. Qed.

Lemma bytes_nil : bytes [].
Proof. constructor. Qed.

#[local] Hint Resolve bytes_cons bytes_nil : gw.

(** Bytes that leave room for the terminator in an array of [n]. *)
Definition fits (n : nat) (s : list Z) : Prop := bytes s /\ (length s < n)%nat.

Lemma fits_nil n : (0 < n)%nat -> fits n [].
Proof. by split; [constructor|]. Qed.

Lemma utf8_append_fits cp out cap out' : fits cap out -> sms_utf8_append cp out cap = Some out' -> fits cap out'.
Proof.
  intros [Hb _] H. unfold sms_utf8_append in H. destruct (_ <=? _)%nat; [done|].
  destruct (utf8_bytes cp) as [u|] eqn:Eu; [|done]. destruct (Nat.leb_spec cap (length u + length out)); [done|].
  injection H as <-. split; [|rewrite length_app; lia]. apply Forall_app. split; [done|].
  unfold utf8_bytes in Eu. cases Eu; auto 6 using PduBits.u8_byte with gw.
Qed.

Lemma gsm7_decode_fits septets cap : (0 < cap)%nat -> fits cap (sms_gsm7_decode septets cap).2.
Proof.
  intros Hcap. unfold sms_gsm7_decode. destruct (Nat.eqb_spec cap 0); [lia|].
  pose proof (fits_nil cap Hcap) as Hout. revert Hout. generalize (@nil Z) as out.
  induction septets as [septets IH] using (well_founded_induction (well_founded_ltof _ length)).
  intros out Hout. destruct septets as [|s [|e rest]]; cbn [gsm7_decode_loop]; [done|..].
  - destruct (s =? 0x1B); [done|]. destruct (sms_utf8_append _ _ _) eqn:E; [|done]. by eapply utf8_append_fits.
  - destruct (s =? 0x1B).
    + destruct (gsm7_extension_decode e); [|done]. destruct (sms_utf8_append _ _ _) eqn:E; [|done].
      apply IH; [unfold ltof; simpl; lia|]. by eapply utf8_append_fits.
    + destruct (sms_utf8_append _ _ _) eqn:E; [|done].
      apply (IH (e :: rest)); [unfold ltof; simpl; lia|]. by eapply utf8_append_fits.
Qed.

Lemma address_char_byte n c : 0 <= n -> address_char n = Some c -> is_byte c.
Proof. unfold address_char, is_byte. intros Hn H. cases H; boolify; lia. Qed.

Lemma address_loop_fits data i count out cap :
  bytes data -> fits cap out -> fits cap (address_decode_loop data i count out cap).2.
Proof.
  intros Hd. revert i out. induction count as [|count IH]; intros i out Hout; cbn [address_decode_loop]; [done|].
  set (nibble := if (i mod 2 =? 0)%nat then _ else _).
  assert (0 <= nibble) as Hn.
  { pose proof (bytes_at data (i / 2) Hd) as Hb. unfold is_byte in Hb. unfold nibble.
    destruct (_ =? _)%nat; [apply Z.land_nonneg; lia|apply Z.shiftr_nonneg; lia]. }
  destruct (address_char nibble) as [c|] eqn:Ec; [|done].
  destruct (Nat.leb_spec cap (length out + 1)); [done|]. apply IH. destruct Hout as [Hb _].
  split; [|rewrite length_app; cbn; lia]. apply Forall_app. split; [done|].
  apply bytes_cons; [by eapply address_char_byte|apply bytes_nil].
Qed.

Lemma address_decode_fits data n toa cap :
  (0 < cap)%nat -> bytes data -> fits cap (address_decode data n toa cap).2.
Proof.
  intros Hcap Hd. pose proof (fits_nil cap Hcap) as Hnil. unfold address_decode.
  destruct (Nat.eqb_spec cap 0); [lia|]. destruct (_ <? _)%nat; [done|].
  destruct (_ =? 0x05); [destruct (11 <? _)%nat; [done|]; destruct (unpack_septets _ _ _); [|done];
    by apply gsm7_decode_fits|].
  destruct (_ =? 0x01); cbn [andb]; [|by apply address_loop_fits].
  destruct (Nat.leb_spec cap 1); [done|]. apply address_loop_fits; [done|].
  split; [apply bytes_cons; [unfold is_byte; lia|apply bytes_nil]|cbn; lia].
Qed.

(** A timestamp has 25 characters. *)
Lemma timestamp_fits data cap out : timestamp_decode data cap = Some out -> fits 26 out.
Proof.
  unfold timestamp_decode. destruct (_ || _)%bool; [done|]. cbv zeta.
  match goal with |- (if ?b then _ else _) = _ -> _ => destruct b; [done|] end.
  match goal with |- (if (length ?o <? _)%nat then _ else _) = _ -> _ => set (str := o) end.
  destruct (length str <? cap)%nat; [|done]. intros [= <-]. split; [|cbn; lia].
  assert (forall n, is_byte (digit n)) as Hdig.
  { intros n. unfold digit, is_byte. pose proof (Z.mod_pos_bound n 10). lia. }
  assert (forall x, is_byte x -> bytes [x]) as H1 by auto with gw.
  assert (forall n, bytes (format_02d n)) as H2 by (intros n; unfold format_02d; auto with gw).
  assert (forall n, bytes (format_04d n)) as H4 by (intros n; unfold format_04d; auto with gw).
  unfold str, bytes. rewrite !Forall_app.
  split_and!; try apply H2; try apply H4; apply H1; unfold is_byte; try lia.
  destruct (negb _); lia.
Qed.

(** ** User data *)

(** The information of a part, when the user-data header has it. *)
Definition concat_ok (c : sms_concat_info_t) : Prop :=
  0 <= concat_reference c < 65536 /\ is_byte (concat_total_parts c) /\ is_byte (concat_part_number c).

Lemma concat_zero_ok : concat_ok concat_zero.
Proof. unfold concat_ok, is_byte. cbn. lia. Qed.

Lemma concat_loop_ok fuel udh stop pos c :
  bytes udh -> concat_ok c -> concat_ok (parse_concat_loop fuel udh stop pos c).2.
Proof.
  intros Hu. revert pos c. induction fuel as [|fuel IH]; intros pos c Hc; cbn [parse_concat_loop]; [done|].
  destruct (_ <? _)%nat; [done|]. destruct (_ <? _)%nat; [done|]. apply IH.
  assert (forall k, is_byte udh.[k]) as Hb by (intros; by apply bytes_at).
  destruct (_ && _); [|destruct (_ && _); [|done]]; unfold concat_ok;
    cbn [concat_reference concat_total_parts concat_part_number]; split_and!; try apply Hb.
  all: first [apply Z.mod_pos_bound; lia | destruct (Hb (pos + 2)%nat); lia].
Qed.

(** An accepted header numbers its part from 1 to the number of parts. *)
Definition concat_valid (c : sms_concat_info_t) : Prop :=
  concat_present c = true -> 1 <= concat_part_number c <= concat_total_parts c.

Lemma parse_concat_ok udh ok c :
  bytes udh -> parse_concat_udh udh = (ok, c) -> concat_ok c /\ (ok = true -> concat_valid c).
Proof.
  intros Hu. unfold parse_concat_udh. destruct (_ =? _)%nat; [intros [= <- <-]; split; [apply concat_zero_ok|done]|].
  destruct (_ <? _)%nat; [intros [= <- <-]; split; [apply concat_zero_ok|done]|].
  pose proof (concat_loop_ok (S (Z.to_nat udh.[0] + 1)) udh (Z.to_nat udh.[0] + 1) 1 _ Hu concat_zero_ok) as Hc.
  destruct (parse_concat_loop _ _ _ _ _) as [ok1 c1]. cbn [snd] in Hc.
  destruct ok1; cbn [negb]; [|by intros [= <- <-]].
  destruct (concat_present c1 && _) eqn:E; intros [= <- <-]; split; try done.
  intros _ Hp. destruct Hc as (_ & Ht & Hn). unfold is_byte in *. rewrite Hp in E. cbn [andb] in E. boolify. lia.
Qed.

Lemma ucs2_fits ud out cap : fits cap out -> fits cap (ucs2_decode_loop ud out cap).2.
Proof.
  revert out. induction ud as [ud IH] using (well_founded_induction (well_founded_ltof _ length)).
  intros out Hout. destruct ud as [|hi [|lo ud]]; cbn [ucs2_decode_loop]; [done|done|].
  destruct (_ && _).
  - destruct ud as [|hi2 [|lo2 ud]]; [done|done|]. destruct (_ || _)%bool; [done|].
    destruct (sms_utf8_append _ _ _) eqn:E; [|done]. apply IH; [unfold ltof; simpl; lia|]. by eapply utf8_append_fits.
  - destruct (_ && _); [done|]. destruct (sms_utf8_append _ _ _) eqn:E; [|done].
    apply IH; [unfold ltof; simpl; lia|]. by eapply utf8_append_fits.
Qed.

Record user_data_ok (cap : nat) (u : user_data) : Prop := {
  ud_fits : fits cap (ud_text u);
  ud_concat_ok : concat_ok (ud_concat u);
  ud_valid : ud_result u = SMS_PDU_DECODE_OK -> concat_valid (ud_concat u) /\
    (ud_encoding u = SMS_ENCODING_GSM7 \/ ud_encoding u = SMS_ENCODING_UCS2);
}.

Lemma user_data_error cap r e c : (0 < cap)%nat -> r <> SMS_PDU_DECODE_OK -> concat_ok c ->
  user_data_ok cap (mk_user_data r e c []).
Proof. intros Hc Hr Hk. split; [by apply fits_nil|done|by intros E]. Qed.

#[local] Ltac failed Hif Hif' :=
  apply user_data_error; [assumption|discriminate|first [apply concat_zero_ok | apply Hif | apply Hif']].

Lemma decode_user_data_ok first dcs udl ud cap :
  (0 < cap)%nat -> bytes ud -> user_data_ok cap (decode_user_data first dcs udl ud cap).
Proof.
  intros Hcap Hud. unfold decode_user_data. cbv zeta. set (has_udh := negb (Z.land first 0x40 =? 0)).
  destruct (parse_concat_udh (take (Z.to_nat ud.[0] + 1) ud)) as [ok c] eqn:Ec.
  destruct (parse_concat_ok _ _ _ (Forall_take _ _ _ Hud) Ec) as [Hc Hv].
  assert (forall b : bool, concat_ok (if b then c else concat_zero)) as Hif by (intros []; auto using concat_zero_ok).
  assert (forall b : bool, concat_ok (if b then concat_zero else c)) as Hif' by (intros []; auto using concat_zero_ok).
  assert (forall r e t short, fits cap t -> (e = SMS_ENCODING_GSM7 \/ e = SMS_ENCODING_UCS2) ->
    has_udh && (short || negb ok) = false ->
    user_data_ok cap (mk_user_data r e (if has_udh then c else concat_zero) t)) as Hgood.
  { intros r e t short Ht He Hh. split; cbn [ud_text ud_concat ud_result ud_encoding]; [done|apply Hif|].
    intros _. split; [|done]. destruct has_udh; [|done]. apply Hv. cbn in Hh. destruct ok; [done|].
    by rewrite orb_true_r in Hh. }
  destruct (dcs_encoding dcs); [| |failed Hif Hif'|failed Hif Hif'];
    repeat match goal with |- user_data_ok _ (if ?b then _ else _) =>
      let E := fresh "E" in destruct b eqn:E; [failed Hif Hif'|] end.
  - destruct (unpack_septets _ _ _) as [septets|]; [|failed Hif Hif'].
    pose proof (gsm7_decode_fits septets cap Hcap) as Ht. destruct (sms_gsm7_decode septets cap) as [ok' text].
    eapply Hgood; [done|by left|eassumption].
  - match goal with |- context [ucs2_decode_loop ?u [] cap] =>
      pose proof (ucs2_fits u [] cap (fits_nil cap Hcap)) as Ht; destruct (ucs2_decode_loop u [] cap) as [r text] end.
    eapply Hgood; [done|by right|eassumption].
Qed.

(** ** Whole messages *)

Record deliver_ok (d : sms_deliver_t) : Prop := {
  dok_sender : fits SMS_MAX_ADDRESS_LENGTH (del_sender d);
  dok_timestamp : fits 26 (del_service_center_timestamp d);
  dok_text : fits SMS_MAX_TEXT_UTF8 (del_text d);
  dok_concat : concat_ok (del_concat d);
}.

Record report_ok (r : sms_status_report_t) : Prop := {
  rok_reference : is_byte (rep_message_reference r);
  rok_recipient : fits SMS_MAX_ADDRESS_LENGTH (rep_recipient r);
  rok_timestamp : fits 26 (rep_service_center_timestamp r);
  rok_discharge : fits 26 (rep_discharge_timestamp r);
  rok_status : is_byte (rep_status r);
}.

Lemma bytes_drop n l : bytes l -> bytes (drop n l).
Proof. apply Forall_drop. Qed.

#[local] Hint Resolve bytes_drop : gw.

(** The early returns in front of the next step. *)
#[local] Ltac returns tac :=
  repeat match goal with |- (if ?b then _ else _) = _ -> _ => destruct b; [tac|] end.

Lemma deliver_decode_sound pdu_hex r d :
  sms_deliver_decode pdu_hex deliver_zero = (r, d) ->
  deliver_ok d /\ (r = SMS_PDU_DECODE_OK -> concat_valid (del_concat d) /\
                   (del_encoding d = SMS_ENCODING_GSM7 \/ del_encoding d = SMS_ENCODING_UCS2)).
Proof.
  assert (deliver_ok deliver_zero) as Hz.
  { split; try (apply fits_nil; vm_compute; lia). apply concat_zero_ok. }
  unfold sms_deliver_decode. destruct (hex_decode pdu_hex _) as [e|pdu] eqn:Eh; [intros [= <- <-]; split; [done|]|].
  { unfold hex_decode in Eh. destruct pdu_hex; [|by injection Eh as <-]. cases Eh; by intros [=]. }
  destruct (hex_decode_bytes _ _ _ Eh) as [Hb _].
  cbv zeta. returns ltac:(by intros [= <- <-]).
  match goal with |- context [address_decode ?a ?n ?t ?c] =>
    pose proof (address_decode_fits a n t c ltac:(vm_compute; lia) ltac:(auto with gw)) as Hs;
    destruct (address_decode a n t c) as [ok sender] end. cbn [snd] in Hs.
  assert (forall t e, fits 26 t -> deliver_ok (mk_deliver sender e concat_zero t [])) as Hpart.
  { intros t e Ht. split; [done|done|apply fits_nil; vm_compute; lia|apply concat_zero_ok]. }
  assert (fits 26 []) as Hnil by (apply fits_nil; lia).
  destruct ok; cbn [negb]; [|intros [= <- <-]; split; [auto|done]].
  destruct (timestamp_decode _ 40) as [scts|] eqn:Et; [|intros [= <- <-]; split; [auto|done]].
  apply timestamp_fits in Et. destruct (_ <=? _)%nat; [intros [= <- <-]; split; [auto|done]|].
  match goal with |- context [decode_user_data ?f ?c ?l ?u ?n] =>
    pose proof (decode_user_data_ok f c l u n ltac:(vm_compute; lia) ltac:(auto with gw)) as [];
    destruct (decode_user_data f c l u n) end.
  intros [= <- <-]. split; [by split|done].
Qed.

Lemma report_decode_sound pdu_hex r rep :
  sms_status_report_decode pdu_hex report_zero = (r, rep) -> report_ok rep.
Proof.
  assert (fits SMS_MAX_ADDRESS_LENGTH [] /\ fits 26 []) as [Ha Ht] by (split; apply fits_nil; vm_compute; lia).
  assert (is_byte 0) as H0 by (unfold is_byte; lia).
  unfold sms_status_report_decode. destruct (hex_decode pdu_hex _) as [e|pdu] eqn:Eh; [by intros [= <- <-]|].
  destruct (hex_decode_bytes _ _ _ Eh) as [Hb _].
  assert (forall k, is_byte pdu.[k]) as Hk by (intros; by apply bytes_at).
  cbv zeta. returns ltac:(intros [= <- <-]; split; first [apply Hk|assumption]).
  match goal with |- context [address_decode ?a ?n ?t ?c] =>
    pose proof (address_decode_fits a n t c ltac:(vm_compute; lia) ltac:(auto with gw)) as Hs;
    destruct (address_decode a n t c) as [ok recipient] end. cbn [snd] in Hs.
  destruct ok; cbn [negb]; [|intros [= <- <-]; split; first [apply Hk|assumption]].
  destruct (timestamp_decode _ 40) as [scts|] eqn:Et; [|intros [= <- <-]; split; first [apply Hk|assumption]]. apply timestamp_fits in Et.
  destruct (timestamp_decode _ 40) as [discharge|] eqn:Ed; [|intros [= <- <-]; split; first [apply Hk|assumption]]. apply timestamp_fits in Ed.
  destruct (_ <=? _)%nat; intros [= <- <-]; split; first [apply Hk|assumption].
Qed.


(** The second of two parts. *)
Definition sample_part : list Z :=
  str "00440A8121436587090000425031011000000A050003120202D06536".

