(* ===== verification/AtParser.v ===== *)
(** * The AT line parser (components/at_engine/at_parser.c)

    [line] with [line_length] is the list of the characters stored so far.  A
    callback gets the token and may change the parser that emits it (the
    engine switches the prompt off from inside one), so it maps the parser
    together with the state of its user to new ones. *)

From Stdlib Require Import ZifyBool ZifyNat.
From stdpp Require Import base numbers list strings.
From S2P Require Import Prelude.

Open Scope Z_scope.

Definition AT_PARSER_MAX_LINE_LENGTH : nat := 512.

Inductive at_token_t :=
  | AT_TOKEN_LINE (text : list Z)
  | AT_TOKEN_PROMPT
  | AT_TOKEN_LINE_OVERFLOW.

Record at_parser_t := mk_parser {
  line : list Z;
  discarding_overflow : bool;
  skip_prompt_space : bool;
  prompt_enabled : bool;
}.

Definition set_line (p : at_parser_t) (l : list Z) : at_parser_t :=
  mk_parser l (discarding_overflow p) (skip_prompt_space p) (prompt_enabled p).
Definition set_discarding (p : at_parser_t) (b : bool) : at_parser_t :=
  mk_parser (line p) b (skip_prompt_space p) (prompt_enabled p).
Definition set_skip (p : at_parser_t) (b : bool) : at_parser_t :=
  mk_parser (line p) (discarding_overflow p) b (prompt_enabled p).

(** [at_parser_init] and [at_parser_reset] clear the whole structure. *)
Definition at_parser_init : at_parser_t := mk_parser [] false false false.
Definition at_parser_reset (p : at_parser_t) : at_parser_t := at_parser_init.

Definition at_parser_set_prompt_enabled (p : at_parser_t) (enabled : bool) : at_parser_t :=
  mk_parser (line p) (discarding_overflow p)
            (if enabled then skip_prompt_space p else false) enabled.

Definition CR : Z := 13.
Definition LF : Z := 10.
Definition line_end (ch : Z) : bool := (ch =? CR) || (ch =? LF).

Section Feed.

Context {U : Type}.

Definition at_token_callback_t : Type := at_token_t -> at_parser_t * U -> at_parser_t * U.

Definition emit_line (callback : option at_token_callback_t) (s : at_parser_t * U) : at_parser_t * U :=
  let '(p, u) := s in
  match callback with
  | None => (set_line p [], u)
  | Some cb =>
      if (length (line p) =? 0)%nat then (set_line p [], u)
      else let '(p, u) := cb (AT_TOKEN_LINE (line p)) (p, u) in (set_line p [], u)
  end.

(** The optional callback, on a token without a line. *)
Definition notify (callback : option at_token_callback_t) (token : at_token_t)
    (s : at_parser_t * U) : at_parser_t * U :=
  match callback with None => s | Some cb => cb token s end.

(** The body of the loop for one character. *)
Definition feed_char (callback : option at_token_callback_t) (s : at_parser_t * U) (ch : Z)
  : at_parser_t * U :=
  let '(p, u) := s in
  let skipped := skip_prompt_space p && (ch =? 32) in
  let p := set_skip p false in
  if skipped then (p, u)
  else if discarding_overflow p then
    if line_end ch then notify callback AT_TOKEN_LINE_OVERFLOW (set_line (set_discarding p false) [], u)
    else (p, u)
  else if line_end ch then emit_line callback (p, u)
  else if prompt_enabled p && (ch =? 62) && (length (line p) =? 0)%nat then
    let '(p, u) := notify callback AT_TOKEN_PROMPT (p, u) in (set_skip p true, u)
  else if (AT_PARSER_MAX_LINE_LENGTH <=? length (line p))%nat then
    (set_line (set_discarding p true) [], u)
  else (set_line p (line p ++ [ch]), u).

Definition at_parser_feed (p : at_parser_t) (data : list Z)
    (callback : option at_token_callback_t) (user_ctx : U) : at_parser_t * U :=
  fold_left (feed_char callback) data (p, user_ctx).

(** ** Bounds *)

(** [line[line_length]] stays inside its 513 characters, and nothing is
    stored while an overlong line is being discarded. *)
Definition parser_ok (p : at_parser_t) : Prop :=
  (length (line p) <= AT_PARSER_MAX_LINE_LENGTH)%nat /\ (discarding_overflow p = true -> line p = []).

(** What a callback may do to the parser: nothing but switch the prompt. *)
Definition callback_ok (callback : option at_token_callback_t) : Prop :=
  forall cb token p u, callback = Some cb ->
    (cb token (p, u)).1 = p \/ exists b, (cb token (p, u)).1 = at_parser_set_prompt_enabled p b.

Lemma notify_fields callback token p u :
  callback_ok callback ->
  line (notify callback token (p, u)).1 = line p /\
  discarding_overflow (notify callback token (p, u)).1 = discarding_overflow p.
Proof.
  intros H. unfold notify. destruct callback as [cb|]; [|done].
  by destruct (H cb token p u eq_refl) as [-> | [b ->]].
Qed.

Lemma feed_char_ok callback p u ch :
  callback_ok callback -> parser_ok p -> parser_ok (feed_char callback (p, u) ch).1.
Proof.
  intros Hcb [Hl Hd]. unfold feed_char. destruct (skip_prompt_space p && (ch =? 32)); [done|].
  cbn [set_skip discarding_overflow prompt_enabled line].
  destruct (discarding_overflow p) eqn:Ed; destruct (line_end ch).
  - destruct (notify_fields callback AT_TOKEN_LINE_OVERFLOW
                (set_line (set_discarding (set_skip p false) false) []) u Hcb) as [El Ex].
    unfold parser_ok. rewrite El, Ex. simpl. split; [lia|done].
  - split; simpl; [done|]. by rewrite Ed.
  - unfold emit_line. destruct callback as [cb|]; [|split; [simpl; lia|done]].
    destruct (_ =? _)%nat; [split; [simpl; lia|done]|].
    destruct (cb _ _) as [p' u']. split; [simpl; lia|done].
  - destruct (prompt_enabled p && (ch =? 62) && (length (line p) =? 0)%nat).
    + destruct (notify_fields callback AT_TOKEN_PROMPT (set_skip p false) u Hcb) as [El Ex].
      destruct (notify _ _ _) as [p' u']. cbn [fst] in *. unfold parser_ok. simpl.
      rewrite El, Ex. simpl. by rewrite Ed.
    + destruct (Nat.leb_spec AT_PARSER_MAX_LINE_LENGTH (length (line p))).
      * split; [simpl; lia|done].
      * unfold parser_ok. simpl. rewrite length_app. simpl. split; [lia|congruence].
Qed.

(** An invariant of the user's state and the prompt flag that the callback
    keeps is kept by the parser; a prompt token only comes while the prompt is
    enabled. *)
Lemma feed_invariant (I : bool -> U -> Prop) (cb : at_token_callback_t) p data u :
  (forall token p u, I (prompt_enabled p) u -> (token = AT_TOKEN_PROMPT -> prompt_enabled p = true) ->
     I (prompt_enabled (cb token (p, u)).1) (cb token (p, u)).2) ->
  I (prompt_enabled p) u ->
  I (prompt_enabled (at_parser_feed p data (Some cb) u).1) (at_parser_feed p data (Some cb) u).2.
Proof.
  intros Hcb. revert p u. induction data as [|ch data IH]; intros p u HI; [done|].
  unfold at_parser_feed in *. cbn [fold_left].
  assert (I (prompt_enabled (feed_char (Some cb) (p, u) ch).1) (feed_char (Some cb) (p, u) ch).2) as H.
  { unfold feed_char. destruct (skip_prompt_space p && (ch =? 32)); [done|].
    cbn [set_skip discarding_overflow prompt_enabled line].
    destruct (discarding_overflow p), (line_end ch); cbn [notify]; try done.
    - by apply Hcb.
    - unfold emit_line. destruct (_ =? _)%nat; [done|].
      pose proof (Hcb (AT_TOKEN_LINE (line (set_skip p false))) (set_skip p false) u HI ltac:(done)) as H.
      unfold set_skip in *. cbn [line] in *. by destruct (cb _ _) as [p' u'].
    - destruct (prompt_enabled p) eqn:Ep; cbn [andb].
      + destruct ((ch =? 62) && (length (line p) =? 0)%nat).
        * pose proof (Hcb AT_TOKEN_PROMPT (set_skip p false) u) as H. unfold set_skip in *.
          cbn [prompt_enabled line] in *. rewrite Ep in *. specialize (H HI ltac:(done)).
          by destruct (cb _ _) as [p' u'].
        * destruct (_ <=? _)%nat; cbn; by rewrite Ep.
      + destruct (_ <=? _)%nat; cbn; by rewrite Ep. }
  destruct (feed_char (Some cb) (p, u) ch) as [p' u']. by apply IH.
Qed.

End Feed.

(** ** The lines of a byte stream *)

(** The reference: cut at every CR and LF, an unfinished line at the end. *)
Fixpoint split_lines (data : list Z) : list (list Z) * list Z :=
  match data with
  | [] => ([], [])
  | ch :: data' =>
      let '(lines, rest) := split_lines data' in
      if line_end ch then ([] :: lines, rest)
      else match lines with
           | [] => ([], ch :: rest)
           | l :: lines' => ((ch :: l) :: lines', rest)
           end
  end.

(** Empty lines are silent, and overlong ones become one overflow token. *)
Definition line_tokens (l : list Z) : list at_token_t :=
  if (length l =? 0)%nat then []
  else if (AT_PARSER_MAX_LINE_LENGTH <? length l)%nat then [AT_TOKEN_LINE_OVERFLOW]
  else [AT_TOKEN_LINE l].

(** A callback that records the tokens. *)
Definition record_tokens (token : at_token_t) (s : at_parser_t * list at_token_t)
  : at_parser_t * list at_token_t :=
  (s.1, s.2 ++ [token]).

(** The parser in the middle of a line of which it has seen [l]. *)
Definition in_line (l : list Z) : at_parser_t :=
  if (length l <=? AT_PARSER_MAX_LINE_LENGTH)%nat then mk_parser l false false false
  else mk_parser [] true false false.

Lemma feed_char_in_line l ch tokens :
  line_end ch = false ->
  feed_char (Some record_tokens) (in_line l, tokens) ch = (in_line (l ++ [ch]), tokens).
Proof.
  intros He. unfold in_line. rewrite length_app. cbn [length].
  destruct (Nat.leb_spec (length l) AT_PARSER_MAX_LINE_LENGTH) as [H|H];
    cbn [feed_char skip_prompt_space discarding_overflow prompt_enabled line andb set_skip]; rewrite He.
  - destruct (Nat.leb_spec AT_PARSER_MAX_LINE_LENGTH (length l)).
    + by destruct (Nat.leb_spec (length l + 1) AT_PARSER_MAX_LINE_LENGTH); [lia|].
    + by destruct (Nat.leb_spec (length l + 1) AT_PARSER_MAX_LINE_LENGTH); [|lia].
  - by destruct (Nat.leb_spec (length l + 1) AT_PARSER_MAX_LINE_LENGTH); [lia|].
Qed.

Lemma feed_char_line_end l ch tokens :
  line_end ch = true ->
  feed_char (Some record_tokens) (in_line l, tokens) ch = (in_line [], tokens ++ line_tokens l).
Proof.
  intros He. unfold in_line, line_tokens. cbn [length Nat.leb].
  destruct (Nat.leb_spec (length l) AT_PARSER_MAX_LINE_LENGTH) as [H|H];
    cbn [feed_char skip_prompt_space discarding_overflow prompt_enabled line andb set_skip]; rewrite He.
  - unfold emit_line, set_skip. cbn [line]. destruct (Nat.eqb_spec (length l) 0); [by rewrite app_nil_r|].
    by destruct (Nat.ltb_spec AT_PARSER_MAX_LINE_LENGTH (length l)); [lia|].
  - destruct (Nat.eqb_spec (length l) 0); [lia|].
    by destruct (Nat.ltb_spec AT_PARSER_MAX_LINE_LENGTH (length l)); [|lia].
Qed.

Lemma feed_from_line data l tokens :
  at_parser_feed (in_line l) data (Some record_tokens) tokens =
    match split_lines data with
    | ([], rest) => (in_line (l ++ rest), tokens)
    | (l1 :: lines, rest) => (in_line rest, tokens ++ concat (map line_tokens ((l ++ l1) :: lines)))
    end.
Proof.
  revert l tokens. induction data as [|ch data IH]; intros l tokens.
  { simpl. by rewrite app_nil_r. }
  unfold at_parser_feed in *. cbn [fold_left split_lines].
  destruct (line_end ch) eqn:He.
  - rewrite feed_char_line_end by done. rewrite IH. destruct (split_lines data) as [[|l1 lines] rest].
    + cbn [map concat]. by rewrite !app_nil_r.
    + cbn [map concat app]. by rewrite <- app_assoc, app_nil_r.
  - rewrite feed_char_in_line by done. rewrite IH. destruct (split_lines data) as [[|l1 lines] rest].
    + by rewrite <- app_assoc.
    + cbn [map concat]. by rewrite <- app_assoc.
Qed.

(** The parser's line buffer is never overrun, whatever arrives and
    whatever the callback does to the prompt: at most 512 characters are
    stored in front of the terminator, and none while an overlong line is
    being discarded. *)
Theorem parser_feed_in_bounds {U} (callback : option (@at_token_callback_t U)) (p : at_parser_t)
    (data : list Z) (u : U) :
  callback_ok callback -> parser_ok p -> parser_ok (at_parser_feed p data callback u).1.
Proof.
  intros Hcb. revert p u. induction data as [|ch data IH]; intros p u Hp; [done|].
  unfold at_parser_feed in *. cbn [fold_left]. pose proof (feed_char_ok callback p u ch Hcb Hp) as H.
  destruct (feed_char callback (p, u) ch) as [p' u']. by apply IH.
Qed.

Lemma parser_feed_in_bounds_witness :
  parser_ok (at_parser_feed at_parser_init (replicate 600 65) (Some record_tokens) []).1.
Proof.
  apply parser_feed_in_bounds.
  - intros cb token p u [= <-]. left. reflexivity.
  - split; [simpl; lia|done].
Defined.

(** C40. However the stream is cut into chunks, a parser without a prompt
    emits exactly the nonempty lines of the whole stream in order, one
    overflow token for each line of more than 512 characters, and keeps the
    unfinished line for the next chunk. *)
Theorem parser_emits_lines (chunks : list (list Z)) :
  let '(p, tokens) :=
    fold_left (fun s chunk => at_parser_feed s.1 chunk (Some record_tokens) s.2) chunks
              (at_parser_init, []) in
  let '(lines, rest) := split_lines (concat chunks) in
  tokens = concat (map line_tokens lines) /\ p = in_line rest.
Proof.
  assert (forall s, fold_left (fun s chunk => at_parser_feed s.1 chunk (Some record_tokens) s.2) chunks s
                    = at_parser_feed s.1 (concat chunks) (Some record_tokens) s.2) as ->.
  { induction chunks as [|c chunks IH]; intros [p ts]; [done|]. cbn [fold_left concat fst snd].
    rewrite IH. unfold at_parser_feed. rewrite fold_left_app. by destruct (fold_left _ c _). }
  cbn [fst snd]. change at_parser_init with (in_line []). rewrite feed_from_line.
  by destruct (split_lines (concat chunks)) as [[|l1 lines] rest].
Qed.
