(* ===== verification/AtProtocol.v ===== *)
(** * Classifying modem lines (components/at_engine/at_protocol.c, at_router.c)

    A [const char *] that may be NULL is an [option]; an array of prefixes
    with its count is the list of the entries. *)

From Stdlib Require Import ZifyBool ZifyNat.
From stdpp Require Import base numbers list strings.
From S2P Require Import Prelude.

Open Scope Z_scope.

(** ** Prefixes *)

(** [strncmp(line, prefix, strlen(prefix)) == 0] *)
Fixpoint starts_with (prefix line : list Z) : bool :=
  match prefix, line with
  | [], _ => true
  | c :: prefix', d :: line' => (c =? d) && starts_with prefix' line'
  | _ :: _, [] => false
  end.

Definition DEFAULT_URC_PREFIXES : list (list Z) :=
  [str "+CMTI:"; str "+CMT:"; str "+CDS:"; str "+CDSI:"; str "+CBM:"; str "+CREG:"; str "+CGREG:";
   str "+CEREG:"; str "+CUSD:"; str "+CLIP:"; str "+CRING:"; str "+CGEV:"; str "+CPIN:"; str "+CFUN:";
   str "^RSSI:"; str "^MODE:"; str "^SRVST:"; str "^BOOT"; str "^DSFLOWRPT:"; str "^HCSQ:"; str "RING";
   str "NO CARRIER"; str "SMS READY"; str "PB DONE"].

Definition at_protocol_has_prefix (line prefix : option (list Z)) : bool :=
  match line, prefix with
  | Some line, Some prefix => starts_with (c_str prefix) (c_str line)
  | _, _ => false
  end.

Definition at_protocol_matches_any_prefix (line : option (list Z))
    (prefixes : option (list (option (list Z)))) : bool :=
  match line, prefixes with
  | Some _, Some prefixes => existsb (fun prefix => at_protocol_has_prefix line prefix) prefixes
  | _, _ => false
  end.

Definition at_protocol_is_default_urc (line : option (list Z)) : bool :=
  at_protocol_matches_any_prefix line (Some (map Some DEFAULT_URC_PREFIXES)).

Definition at_protocol_urc_continuation_lines (line : option (list Z)) : nat :=
  match line with
  | None => 0
  | Some _ =>
      if at_protocol_has_prefix line (Some (str "+CMT:")) || at_protocol_has_prefix line (Some (str "+CDS:"))
         || at_protocol_has_prefix line (Some (str "+CBM:"))
      then 1 else 0
  end.

Definition at_protocol_should_route_as_urc (line : option (list Z))
    (expected_prefixes : option (list (option (list Z)))) : bool :=
  if negb (at_protocol_is_default_urc line) then false
  else negb (at_protocol_matches_any_prefix line expected_prefixes).

(** ** Final results *)

Inductive at_final_kind_t :=
  | AT_FINAL_NONE
  | AT_FINAL_OK
  | AT_FINAL_ERROR
  | AT_FINAL_CME_ERROR
  | AT_FINAL_CMS_ERROR.

#[global] Instance at_final_kind_eq_dec : EqDecision at_final_kind_t.
Proof. solve_decision. Defined.

Record at_final_status_t := mk_final { kind : at_final_kind_t; error_code : Z }.

Definition blank (c : Z) : bool := (c =? 32) || (c =? 9).

(** [line] starts with [prefix]. *)
Definition parse_prefixed_error (line prefix : list Z) (k : at_final_kind_t) : at_final_status_t :=
  let value := skip_while blank (drop (length prefix) line) in
  match value with
  | [] => mk_final k (-1)
  | _ =>
      match strtol value with
      | None => mk_final k (-1)
      | Some (parsed, stop) =>
          match skip_while blank stop with
          | [] => if (0 <=? parsed) && (parsed <=? 2147483647) then mk_final k parsed else mk_final k (-1)
          | _ => mk_final k (-1)
          end
      end
  end.

Definition at_protocol_final_status (line : option (list Z)) : at_final_status_t :=
  match line with
  | None => mk_final AT_FINAL_NONE (-1)
  | Some line =>
      let line := c_str line in
      if bool_decide (line = str "OK") then mk_final AT_FINAL_OK (-1)
      else if bool_decide (line = str "ERROR") then mk_final AT_FINAL_ERROR (-1)
      else if at_protocol_has_prefix (Some line) (Some (str "+CME ERROR:")) then
        parse_prefixed_error line (str "+CME ERROR:") AT_FINAL_CME_ERROR
      else if at_protocol_has_prefix (Some line) (Some (str "+CMS ERROR:")) then
        parse_prefixed_error line (str "+CMS ERROR:") AT_FINAL_CMS_ERROR
      else mk_final AT_FINAL_NONE (-1)
  end.

(** ** The router *)

Inductive at_route_t := AT_ROUTE_RESPONSE | AT_ROUTE_URC.

(** [at_router_t] is the number of continuation lines still to come. *)
Definition at_router_init : nat := 0.

Definition at_router_route_line (urc_continuation_lines : nat) (line : option (list Z))
    (expected_prefixes : option (list (option (list Z)))) : at_route_t * nat :=
  match line with
  | None => (AT_ROUTE_RESPONSE, urc_continuation_lines)
  | Some _ =>
      if (0 <? urc_continuation_lines)%nat then (AT_ROUTE_URC, (urc_continuation_lines - 1)%nat)
      else if at_protocol_should_route_as_urc line expected_prefixes then
        (AT_ROUTE_URC, at_protocol_urc_continuation_lines line)
      else (AT_ROUTE_RESPONSE, urc_continuation_lines)
  end.

(** ** Facts *)

Lemma starts_with_app prefix s : starts_with prefix (prefix ++ s) = true.
Proof. induction prefix as [|c prefix IH]; [done|]. cbn. by rewrite Z.eqb_refl. Qed.

Lemma starts_with_inv prefix line : starts_with prefix line = true -> exists s, line = prefix ++ s.
Proof.
  revert line. induction prefix as [|c prefix IH]; intros line H; [by eexists|].
  destruct line as [|d line]; [done|]. cbn in H. apply andb_true_iff in H as [Hc H].
  apply Z.eqb_eq in Hc as ->. destruct (IH line H) as [s ->]. by exists s.
Qed.

(** The prefix between a final line's name and its code does not depend on the
    kind of error. *)
Lemma parse_error_code prefix k n blanks blanks' :
  Forall (fun c => blank c = true) blanks -> Forall (fun c => blank c = true) blanks' ->
  0 <= n <= 2147483647 ->
  parse_prefixed_error (prefix ++ blanks ++ decimal n ++ blanks') prefix k = mk_final k n.
Proof.
  intros Hb Hb' Hn. unfold parse_prefixed_error. rewrite drop_app_length.
  assert (forall l s, Forall (fun c => blank c = true) l -> skip_while blank (l ++ s) = skip_while blank s) as Hskip.
  { intros l s. induction 1 as [|c l Hc _ IH]; [done|]. cbn. by rewrite Hc. }
  rewrite Hskip by done.
  assert (no_digit blanks') as Hnd.
  { destruct Hb' as [|c l Hc _]; [done|]. cbn. unfold blank in Hc. unfold isdigit. lia. }
  pose proof (strtol_decimal n blanks' Hn Hnd) as Hs.
  destruct (decimal_nonempty n) as (c & l & E & Hc). rewrite E in *. cbn [app skip_while] in *.
  assert (blank c = false) as -> by (unfold blank, isdigit in *; lia). rewrite Hs.
  specialize (Hskip blanks' [] Hb'). rewrite app_nil_r in Hskip. rewrite Hskip. cbn [skip_while].
  by replace ((0 <=? n) && (n <=? 2147483647)) with true by lia.
Qed.

Lemma parse_error_range line prefix k :
  kind (parse_prefixed_error line prefix k) = k /\
  -1 <= error_code (parse_prefixed_error line prefix k) <= 2147483647.
Proof.
  assert (kind (mk_final k (-1)) = k /\ -1 <= error_code (mk_final k (-1)) <= 2147483647) as Hd
    by (split; [done|cbn; lia]).
  unfold parse_prefixed_error. destruct (skip_while blank _); [done|].
  destruct (strtol _) as [[parsed stop]|]; [|done]. destruct (skip_while blank stop); [|done].
  destruct (Z.leb_spec 0 parsed), (Z.leb_spec parsed 2147483647); try done.
  split; [done|]. cbn. lia.
Qed.

(** The final result of a command: exactly [OK], exactly [ERROR], or a
    line that starts with [+CME ERROR:] or [+CMS ERROR:]; every other line is
    none.  The error code is -1 or a nonnegative [int]. *)
Theorem final_status_kind (line : list Z) :
  let s := at_protocol_final_status (Some line) in
  (kind s = AT_FINAL_OK <-> c_str line = str "OK") /\
  (kind s = AT_FINAL_ERROR <-> c_str line = str "ERROR") /\
  (kind s = AT_FINAL_CME_ERROR <-> exists rest, c_str line = str "+CME ERROR:" ++ rest) /\
  (kind s = AT_FINAL_CMS_ERROR <-> exists rest, c_str line = str "+CMS ERROR:" ++ rest) /\
  -1 <= error_code s <= 2147483647.
Proof.
  cbv zeta. unfold at_protocol_final_status, at_protocol_has_prefix.
  assert (c_str (c_str line) = c_str line) as ->.
  { induction line as [|c line IH]; [done|]. cbn. destruct (c =? 0) eqn:E; [done|]. cbn. by rewrite E, IH. }
  change (c_str (str "+CME ERROR:")) with (str "+CME ERROR:").
  change (c_str (str "+CMS ERROR:")) with (str "+CMS ERROR:").
  case_bool_decide as H1; [rewrite H1; cbn; split_and!; try lia; split; (done || by intros [? ?])|].
  case_bool_decide as H2; [rewrite H2; cbn; split_and!; try lia; split; (done || by intros [? ?])|].
  destruct (starts_with (str "+CME ERROR:") (c_str line)) eqn:H3.
  { destruct (parse_error_range (c_str line) (str "+CME ERROR:") AT_FINAL_CME_ERROR) as [-> ?].
    apply starts_with_inv in H3 as [s H3].
    split_and!; try lia; split; try done; [by eexists|]. intros [? Hx]. by rewrite H3 in Hx. }
  assert (~ exists rest, c_str line = str "+CME ERROR:" ++ rest).
  { intros [rest H]. by rewrite H, starts_with_app in H3. }
  destruct (starts_with (str "+CMS ERROR:") (c_str line)) eqn:H4.
  { destruct (parse_error_range (c_str line) (str "+CMS ERROR:") AT_FINAL_CMS_ERROR) as [-> ?].
    apply starts_with_inv in H4 as [s H4]. split_and!; try lia; split; try done; by eexists. }
  assert (~ exists rest, c_str line = str "+CMS ERROR:" ++ rest).
  { intros [rest H']. by rewrite H', starts_with_app in H4. }
  cbn. split_and!; try lia; done.
Qed.

(** Numeric error codes survive: the code that the modem prints behind
    [+CMS ERROR:] or [+CME ERROR:], with blanks around it, is the code
    reported. *)
Theorem final_status_code (cms : bool) (n : Z) (blanks blanks' : list Z) :
  0 <= n <= 2147483647 ->
  Forall (fun c => blank c = true) blanks -> Forall (fun c => blank c = true) blanks' ->
  at_protocol_final_status
    (Some ((if cms then str "+CMS ERROR:" else str "+CME ERROR:") ++ blanks ++ decimal n ++ blanks')) =
  mk_final (if cms then AT_FINAL_CMS_ERROR else AT_FINAL_CME_ERROR) n.
Proof.
  intros Hn Hb Hb'. unfold at_protocol_final_status, at_protocol_has_prefix.
  assert (forall l, Forall (fun c => blank c = true) l -> cstring l) as Hbl.
  { intros l H. eapply Forall_impl; [exact H|]. unfold blank. lia. }
  set (prefix := if cms then _ else _). set (l := prefix ++ blanks ++ decimal n ++ blanks').
  assert (cstring l) as Hl.
  { unfold l. rewrite !cstring_app. split_and!; [|by apply Hbl|apply decimal_cstring|by apply Hbl].
    destruct cms; apply (bool_decide_unpack _); vm_compute; exact I. }
  rewrite !(cstring_c_str l) by done.
  assert (starts_with (c_str prefix) l = true) as Hp.
  { unfold l. replace (c_str prefix) with prefix by (by destruct cms). apply starts_with_app. }
  rewrite !bool_decide_eq_false_2 by (subst l prefix; by destruct cms).
  subst prefix. destruct cms; [|rewrite Hp; by apply parse_error_code].
  assert (starts_with (c_str (str "+CME ERROR:")) l = false) as -> by done.
  rewrite Hp. by apply parse_error_code.
Qed.

Lemma final_status_code_witness :
  at_protocol_final_status (Some (str "+CMS ERROR: 500 ")) = mk_final AT_FINAL_CMS_ERROR 500.
Proof.
  apply (final_status_code true 500 [32] [32]); [lia | repeat constructor | repeat constructor].
Defined.

Lemma urc_not_final line :
  at_protocol_is_default_urc (Some line) = true ->
  kind (at_protocol_final_status (Some line)) = AT_FINAL_NONE.
Proof.
  intros H. unfold at_protocol_is_default_urc, at_protocol_matches_any_prefix in H.
  apply existsb_exists in H as (p & Hin & H). apply in_map_iff in Hin as (prefix & <- & Hin).
  cbn [at_protocol_has_prefix] in H. apply starts_with_inv in H as [s Hs].
  unfold at_protocol_final_status. set (l := c_str line) in *. clearbody l. subst l.
  repeat (destruct Hin as [<-|Hin]; [reflexivity|]). destruct Hin.
Qed.

(** Unsolicited traffic never completes a command: a line that the router
    takes for a URC is either a payload line announced by the header before
    it, whatever it says (an SMS body may read [OK]), or no final result by
    itself; and a payload header that the command does not expect makes the
    next line, and only that one, a URC. *)
Theorem urc_never_completes (pending : nat) (line : list Z)
    (expected : option (list (option (list Z)))) (pending' : nat) :
  at_router_route_line pending (Some line) expected = (AT_ROUTE_URC, pending') ->
  ((0 < pending)%nat \/ kind (at_protocol_final_status (Some line)) = AT_FINAL_NONE) /\
  (pending = 0%nat ->
   (pending' <= 1)%nat /\
   (pending' = 1%nat <-> at_protocol_has_prefix (Some line) (Some (str "+CMT:")) = true \/
      at_protocol_has_prefix (Some line) (Some (str "+CDS:")) = true \/
      at_protocol_has_prefix (Some line) (Some (str "+CBM:")) = true) /\
   (pending' = 1%nat -> forall next expected',
      at_router_route_line pending' (Some next) expected' = (AT_ROUTE_URC, 0%nat))).
Proof.
  intros H. unfold at_router_route_line in H. destruct (Nat.ltb_spec 0 pending) as [Hp|Hp].
  { split; [by left|intros ->; lia]. }
  assert (pending = 0%nat) as -> by lia.
  destruct (at_protocol_should_route_as_urc _ _) eqn:Hr; [|done].
  assert (pending' = at_protocol_urc_continuation_lines (Some line)) as -> by congruence. clear H.
  split.
  - right. apply urc_not_final. unfold at_protocol_should_route_as_urc in Hr.
    by destruct (at_protocol_is_default_urc _).
  - intros _. unfold at_protocol_urc_continuation_lines.
    generalize (at_protocol_has_prefix (Some line) (Some (str "+CMT:")))
      (at_protocol_has_prefix (Some line) (Some (str "+CDS:")))
      (at_protocol_has_prefix (Some line) (Some (str "+CBM:"))).
    intros [] [] []; cbn [orb]; (split; [lia|split; [|by intros]]); split; naive_solver lia.
Qed.

Lemma urc_never_completes_witness :
  at_router_route_line 1 (Some (str "OK")) None = (AT_ROUTE_URC, 0%nat).
Proof.
  apply (urc_never_completes 0 (str "+CMT: ,24") None 1 eq_refl); reflexivity.
Defined.
