(* ===== verification/AtEngine.v ===== *)
(** * The AT engine (components/at_engine/at_engine.c)

    One worker task executes transactions; other tasks push received bytes,
    report a lost transport or cancel.  The shared state [at_engine_state_t]
    is a record, an operation a function on it.  What the other tasks do, and
    what the clock shows, while the worker waits is an input: a list of
    [poll]s, one for each turn of the waiting loop, each with the operations
    that happen in front of the checks and while the worker waits at the queue.

    The transport is a pair of callbacks: functions of the writes made so far,
    so that every behaviour over time is one of them. *)

From Stdlib Require Import ZifyBool ZifyNat.
From stdpp Require Import base numbers list strings.
From S2P Require Import Prelude.
From S2P Require Import AtParser.
From S2P Require Import AtProtocol.

Open Scope Z_scope.

(** ** Constants and types (at_engine.h) *)

Definition AT_RX_QUEUE_DEPTH : nat := 20.
Definition AT_URC_QUEUE_DEPTH : nat := 16.
Definition AT_RX_CHUNK_SIZE : nat := 256.
Definition AT_DEFAULT_TIMEOUT_MS : Z := 3000.
Definition AT_ENGINE_MAX_COMMAND_LENGTH : nat := 192.
Definition AT_ENGINE_MAX_EXPECTED_PREFIXES : nat := 8.
Definition AT_ENGINE_MAX_RESPONSE_BYTES : nat := Z.to_nat 2048.
Definition AT_ENGINE_MAX_RESPONSE_LINES : nat := 24.
Definition AT_ENGINE_MAX_URC_LENGTH : nat := 512.
Definition AT_ENGINE_MAX_FINAL_LENGTH : nat := 128.

Inductive at_result_t :=
  | AT_RESULT_OK
  | AT_RESULT_ERROR
  | AT_RESULT_CME_ERROR
  | AT_RESULT_CMS_ERROR
  | AT_RESULT_TIMEOUT
  | AT_RESULT_CANCELED
  | AT_RESULT_TRANSPORT_UNAVAILABLE
  | AT_RESULT_TRANSPORT_ERROR
  | AT_RESULT_RX_OVERFLOW
  | AT_RESULT_PROTOCOL_ERROR.

#[global] Instance at_result_eq_dec : EqDecision at_result_t.
Proof. solve_decision. Defined.

Definition AT_RETRY_NONE : Z := 0.
Definition AT_RETRY_ON_TIMEOUT : Z := 1.
Definition AT_RETRY_ON_ERROR : Z := 2.
Definition AT_RETRY_ON_CME_ERROR : Z := 4.
Definition AT_RETRY_ON_CMS_ERROR : Z := 8.
Definition AT_RETRY_ON_TRANSPORT_ERROR : Z := 16.

(** The array of prefixes may be NULL, and so may its entries. *)
Record at_request_t := mk_request {
  command : option (list Z);
  expected_prefixes : option (list (option (list Z)));
  expected_prefix_count : nat;
  timeout_ms : Z;
  max_attempts : Z;
  retry_delay_ms : Z;
  retry_policy : Z;
  wait_for_prompt : bool;
  prompt_payload : option (list Z);
  prompt_payload_len : nat;
}.

(** [data] with [data_length], [line_offsets] with [line_count]. *)
Record at_response_t := mk_response {
  resp_result : at_result_t;
  resp_error_code : Z;
  resp_attempts : Z;
  resp_truncated : bool;
  resp_final_line : list Z;
  resp_data : list Z;
  resp_line_offsets : list nat;
}.

Inductive rx_event_t :=
  | RX_EVENT_DATA (data : list Z)
  | RX_EVENT_TRANSPORT_LOST
  | RX_EVENT_CANCEL.

Record at_engine_diagnostics_t := mk_diag {
  commands_submitted : Z;
  commands_completed : Z;
  commands_retried : Z;
  timeouts : Z;
  cancellations : Z;
  transport_errors : Z;
  rx_overflows : Z;
  parser_overflows : Z;
  urcs_dispatched : Z;
  urcs_dropped : Z;
}.

(** The engine's shared state, and the writes made to the transport. *)
Record at_engine_state_t := mk_engine {
  written : list (list Z);
  rx_queue : list rx_event_t;
  urc_queue : list (list Z);
  dispatched : list (list Z);
  diagnostics : at_engine_diagnostics_t;
  rx_overflow_epoch : Z;
  transport_lost_epoch : Z;
  cancel_epoch : Z;
}.

Record transaction_ctx_t := mk_tx {
  tx_response : at_response_t;
  tx_done : bool;
  tx_payload_sent : bool;
  tx_router : nat;
}.

(** ** Counters and setters *)

Inductive counter :=
  | C_submitted | C_completed | C_retried | C_timeouts | C_cancellations
  | C_transport_errors | C_rx_overflows | C_parser_overflows | C_dispatched | C_dropped.

Definition diag_bump (c : counter) (d : at_engine_diagnostics_t) : at_engine_diagnostics_t :=
  let '(mk_diag a b c' d' e f g h i j) := d in
  match c with
  | C_submitted => mk_diag (u32 (a + 1)) b c' d' e f g h i j
  | C_completed => mk_diag a (u32 (b + 1)) c' d' e f g h i j
  | C_retried => mk_diag a b (u32 (c' + 1)) d' e f g h i j
  | C_timeouts => mk_diag a b c' (u32 (d' + 1)) e f g h i j
  | C_cancellations => mk_diag a b c' d' (u32 (e + 1)) f g h i j
  | C_transport_errors => mk_diag a b c' d' e (u32 (f + 1)) g h i j
  | C_rx_overflows => mk_diag a b c' d' e f (u32 (g + 1)) h i j
  | C_parser_overflows => mk_diag a b c' d' e f g (u32 (h + 1)) i j
  | C_dispatched => mk_diag a b c' d' e f g h (u32 (i + 1)) j
  | C_dropped => mk_diag a b c' d' e f g h i (u32 (j + 1))
  end.

Definition diag_increment (c : counter) (st : at_engine_state_t) : at_engine_state_t :=
  mk_engine (written st) (rx_queue st) (urc_queue st) (dispatched st) (diag_bump c (diagnostics st))
            (rx_overflow_epoch st) (transport_lost_epoch st) (cancel_epoch st).

Definition set_rx_queue (st : at_engine_state_t) (q : list rx_event_t) : at_engine_state_t :=
  mk_engine (written st) q (urc_queue st) (dispatched st) (diagnostics st)
            (rx_overflow_epoch st) (transport_lost_epoch st) (cancel_epoch st).

Definition set_urc_queue (st : at_engine_state_t) (q d : list (list Z)) : at_engine_state_t :=
  mk_engine (written st) (rx_queue st) q d (diagnostics st)
            (rx_overflow_epoch st) (transport_lost_epoch st) (cancel_epoch st).

Definition add_written (st : at_engine_state_t) (data : list Z) : at_engine_state_t :=
  mk_engine (written st ++ [data]) (rx_queue st) (urc_queue st) (dispatched st) (diagnostics st)
            (rx_overflow_epoch st) (transport_lost_epoch st) (cancel_epoch st).

Definition set_epochs (st : at_engine_state_t) (o l c : Z) : at_engine_state_t :=
  mk_engine (written st) (rx_queue st) (urc_queue st) (dispatched st) (diagnostics st) o l c.

Definition set_response_result (r : at_response_t) (result : at_result_t) : at_response_t :=
  mk_response result (resp_error_code r) (resp_attempts r) (resp_truncated r) (resp_final_line r)
              (resp_data r) (resp_line_offsets r).

Definition set_response_truncated (r : at_response_t) : at_response_t :=
  mk_response (resp_result r) (resp_error_code r) (resp_attempts r) true (resp_final_line r)
              (resp_data r) (resp_line_offsets r).

(** ** Responses *)

Definition bounded_strlen (value : option (list Z)) (maximum : nat) : nat :=
  match value with None => 0 | Some value => Nat.min maximum (strlen value) end.

Definition response_reset : at_response_t :=
  mk_response AT_RESULT_PROTOCOL_ERROR (-1) 0 false [] [] [].

Definition response_capture_final (r : at_response_t) (line : list Z) : at_response_t :=
  let length := bounded_strlen (Some line) AT_ENGINE_MAX_FINAL_LENGTH in
  let copy_length :=
    if (length <? AT_ENGINE_MAX_FINAL_LENGTH)%nat then length else (AT_ENGINE_MAX_FINAL_LENGTH - 1)%nat in
  mk_response (resp_result r) (resp_error_code r) (resp_attempts r)
              ((AT_ENGINE_MAX_FINAL_LENGTH <=? length)%nat || resp_truncated r)
              (take copy_length line) (resp_data r) (resp_line_offsets r).

(** The line is stored with its terminator. *)
Definition response_capture_line (r : at_response_t) (line : list Z) : at_response_t :=
  let length := strlen line in
  if (AT_ENGINE_MAX_RESPONSE_LINES <=? List.length (resp_line_offsets r))%nat
     || (AT_ENGINE_MAX_RESPONSE_BYTES <? List.length (resp_data r) + length + 1)%nat
  then set_response_truncated r
  else mk_response (resp_result r) (resp_error_code r) (resp_attempts r) (resp_truncated r)
         (resp_final_line r) (resp_data r ++ c_str line ++ [0])
         (resp_line_offsets r ++ [Z.to_nat (u16 (Z.of_nat (List.length (resp_data r))))]).

Definition at_response_line (response : option at_response_t) (index : nat) : option (list Z) :=
  match response with
  | None => None
  | Some r =>
      match resp_line_offsets r !! index with
      | None => None
      | Some offset =>
          if (length (resp_data r) <=? offset)%nat || (AT_ENGINE_MAX_RESPONSE_BYTES <=? offset)%nat
          then None else Some (c_str (drop offset (resp_data r)))
      end
  end.

(** ** Unsolicited lines *)

Definition queue_urc (line : list Z) (st : at_engine_state_t) : at_engine_state_t :=
  let length := bounded_strlen (Some line) (AT_ENGINE_MAX_URC_LENGTH + 1) in
  if (AT_ENGINE_MAX_URC_LENGTH <? length)%nat then diag_increment C_dropped st
  else if (List.length (urc_queue st) <? AT_URC_QUEUE_DEPTH)%nat then
    set_urc_queue st (urc_queue st ++ [c_str line]) (dispatched st)
  else diag_increment C_dropped st.

Definition map_final_kind (k : at_final_kind_t) : at_result_t :=
  match k with
  | AT_FINAL_OK => AT_RESULT_OK
  | AT_FINAL_ERROR => AT_RESULT_ERROR
  | AT_FINAL_CME_ERROR => AT_RESULT_CME_ERROR
  | AT_FINAL_CMS_ERROR => AT_RESULT_CMS_ERROR
  | AT_FINAL_NONE => AT_RESULT_PROTOCOL_ERROR
  end.

Definition should_retry (result : at_result_t) (policy : Z) : bool :=
  match result with
  | AT_RESULT_TIMEOUT => negb (Z.land policy AT_RETRY_ON_TIMEOUT =? 0)
  | AT_RESULT_ERROR => negb (Z.land policy AT_RETRY_ON_ERROR =? 0)
  | AT_RESULT_CME_ERROR => negb (Z.land policy AT_RETRY_ON_CME_ERROR =? 0)
  | AT_RESULT_CMS_ERROR => negb (Z.land policy AT_RETRY_ON_CMS_ERROR =? 0)
  | AT_RESULT_TRANSPORT_ERROR | AT_RESULT_TRANSPORT_UNAVAILABLE =>
      negb (Z.land policy AT_RETRY_ON_TRANSPORT_ERROR =? 0)
  | _ => false
  end.

Definition valid_request (request : option at_request_t) : bool :=
  match request with
  | None => false
  | Some r =>
      match command r with
      | None => false
      | Some cmd =>
          let command_length := bounded_strlen (Some cmd) (AT_ENGINE_MAX_COMMAND_LENGTH + 1) in
          if (cmd.[0] =? 0) then false
          else if (command_length =? 0)%nat || (AT_ENGINE_MAX_COMMAND_LENGTH <? command_length)%nat
                  || existsb (Z.eqb CR) (c_str cmd) || existsb (Z.eqb LF) (c_str cmd) then false
          else if (AT_ENGINE_MAX_EXPECTED_PREFIXES <? expected_prefix_count r)%nat
                  || ((0 <? expected_prefix_count r)%nat
                      && match expected_prefixes r with None => true | Some _ => false end) then false
          else if wait_for_prompt r
                  && (match prompt_payload r with None => true | Some _ => false end
                      || (prompt_payload_len r =? 0)%nat) then false
          else if negb (wait_for_prompt r)
                  && (match prompt_payload r with None => false | Some _ => true end
                      || (0 <? prompt_payload_len r)%nat) then false
          else true
      end
  end.

(** The array's first [expected_prefix_count] entries. *)
Definition request_prefixes (r : at_request_t) : option (list (option (list Z))) :=
  match expected_prefixes r with
  | None => None
  | Some l => Some (take (expected_prefix_count r) l)
  end.

Definition payload_bytes (r : at_request_t) : list Z :=
  take (prompt_payload_len r) (default [] (prompt_payload r)).

Definition command_bytes (r : at_request_t) : list Z := c_str (default [] (command r)) ++ [CR].

(** ** Operations of the other tasks *)

Fixpoint feed_rx_loop (fuel : nat) (data : list Z) (st : at_engine_state_t) : at_engine_state_t :=
  match fuel with
  | O => st
  | S fuel' =>
      if (length data =? 0)%nat then st
      else
        let chunk := take AT_RX_CHUNK_SIZE data in
        if (length (rx_queue st) <? AT_RX_QUEUE_DEPTH)%nat then
          feed_rx_loop fuel' (drop AT_RX_CHUNK_SIZE data)
                       (set_rx_queue st (rx_queue st ++ [RX_EVENT_DATA chunk]))
        else
          diag_increment C_rx_overflows
            (set_epochs st (u32 (rx_overflow_epoch st + 1)) (transport_lost_epoch st) (cancel_epoch st))
  end.

Definition at_engine_feed_rx (data : list Z) (st : at_engine_state_t) : at_engine_state_t :=
  feed_rx_loop (length data) data st.

(** [xQueueSendToFront] without waiting. *)
Definition send_to_front (ev : rx_event_t) (st : at_engine_state_t) : at_engine_state_t * bool :=
  if (length (rx_queue st) <? AT_RX_QUEUE_DEPTH)%nat then (set_rx_queue st (ev :: rx_queue st), true)
  else (st, false).

Definition at_engine_notify_transport_lost (st : at_engine_state_t) : at_engine_state_t :=
  let st := set_epochs st (rx_overflow_epoch st) (u32 (transport_lost_epoch st + 1)) (cancel_epoch st) in
  (send_to_front RX_EVENT_TRANSPORT_LOST st).1.

Definition at_engine_cancel_current (st : at_engine_state_t) : at_engine_state_t * esp_err_t :=
  let st := set_epochs st (rx_overflow_epoch st) (transport_lost_epoch st) (u32 (cancel_epoch st + 1)) in
  let '(st, ok) := send_to_front RX_EVENT_CANCEL st in
  (st, if ok then ESP_OK else ESP_ERR_NO_MEM).

(** One turn of [urc_dispatch_task] with a callback set. *)
Definition urc_dispatch (st : at_engine_state_t) : at_engine_state_t :=
  match urc_queue st with
  | [] => st
  | l :: q => diag_increment C_dispatched (set_urc_queue st q (dispatched st ++ [l]))
  end.

Inductive env_action :=
  | Env_rx (data : list Z)
  | Env_transport_lost
  | Env_cancel
  | Env_dispatch.

Definition env_step (st : at_engine_state_t) (a : env_action) : at_engine_state_t :=
  match a with
  | Env_rx data => at_engine_feed_rx data st
  | Env_transport_lost => at_engine_notify_transport_lost st
  | Env_cancel => (at_engine_cancel_current st).1
  | Env_dispatch => urc_dispatch st
  end.

Definition env_steps (actions : list env_action) (st : at_engine_state_t) : at_engine_state_t :=
  fold_left env_step actions st.

(** ** The worker *)

(** One turn of the waiting loop: what happens before the checks, the clock
    they read, and what happens until the queue is read or the wait ends. *)
Record poll := mk_poll {
  poll_before : list env_action;
  poll_now : Z;
  poll_during : list env_action;
}.

(** The environment of one attempt: while the command is written, the clock
    behind it, the turns of the loop, and the delay before the next attempt. *)
Record attempt_input := mk_attempt {
  during_write : list env_action;
  start_now : Z;
  polls : list poll;
  during_delay : list env_action;
}.

Section Engine.

(** The transport's callbacks, as functions of the writes made before. *)
Context (transport_write : list (list Z) -> list Z -> esp_err_t).
Context (transport_is_ready : list (list Z) -> bool).

Definition do_write (data : list Z) (st : at_engine_state_t) : at_engine_state_t * esp_err_t :=
  (add_written st data, transport_write (written st) data).

(** The user context of the parser's callback: the engine and the transaction,
    if there is one. *)
Definition token_ctx : Type := at_engine_state_t * option transaction_ctx_t.

Definition process_prompt (request : at_request_t) (s : at_parser_t * token_ctx)
  : at_parser_t * token_ctx :=
  let '(p, (st, t)) := s in
  match t with
  | None => (p, (queue_urc (str ">") st, t))
  | Some tx =>
      if negb (wait_for_prompt request) then (p, (queue_urc (str ">") st, t))
      else
        let p := at_parser_set_prompt_enabled p false in
        let '(st, err) := do_write (payload_bytes request) st in
        if bool_decide (err = ESP_OK) then
          (p, (st, Some (mk_tx (tx_response tx) (tx_done tx) true (tx_router tx))))
        else
          (p, (diag_increment C_transport_errors st,
               Some (mk_tx (set_response_result (tx_response tx) AT_RESULT_TRANSPORT_ERROR)
                           true (tx_payload_sent tx) (tx_router tx))))
  end.

(** A response line of the running transaction. *)
Definition process_line (request : at_request_t) (line : list Z) (st : at_engine_state_t)
    (tx : transaction_ctx_t) : token_ctx :=
  if match command request with Some cmd => bool_decide (c_str line = c_str cmd) | None => false end
  then (st, Some tx)
  else
    let '(route, router) := at_router_route_line (tx_router tx) (Some line) (request_prefixes request) in
    let tx := mk_tx (tx_response tx) (tx_done tx) (tx_payload_sent tx) router in
    match route with
    | AT_ROUTE_URC => (queue_urc line st, Some tx)
    | AT_ROUTE_RESPONSE =>
        let final := at_protocol_final_status (Some line) in
        if bool_decide (kind final <> AT_FINAL_NONE) then
          let r := response_capture_final (tx_response tx) line in
          let r :=
            if bool_decide (kind final = AT_FINAL_OK) && wait_for_prompt request
               && negb (tx_payload_sent tx)
            then set_response_result r AT_RESULT_PROTOCOL_ERROR
            else mk_response (map_final_kind (kind final)) (error_code final) (resp_attempts r)
                   (resp_truncated r) (resp_final_line r) (resp_data r) (resp_line_offsets r) in
          (st, Some (mk_tx r true (tx_payload_sent tx) (tx_router tx)))
        else (st, Some (mk_tx (response_capture_line (tx_response tx) line) (tx_done tx)
                              (tx_payload_sent tx) (tx_router tx)))
    end.

(** The parser's callback.  Outside of a transaction [request] is not used. *)
Definition process_token (request : at_request_t) (token : at_token_t)
    (s : at_parser_t * token_ctx) : at_parser_t * token_ctx :=
  match token with
  | AT_TOKEN_LINE_OVERFLOW =>
      let '(p, (st, t)) := s in
      let st := diag_increment C_parser_overflows st in
      (p, (st, match t with
               | None => None
               | Some tx =>
                   Some (mk_tx (set_response_truncated
                                  (set_response_result (tx_response tx) AT_RESULT_PROTOCOL_ERROR))
                               true (tx_payload_sent tx) (tx_router tx))
               end))
  | AT_TOKEN_PROMPT => process_prompt request s
  | AT_TOKEN_LINE line =>
      let '(p, (st, t)) := s in
      match t with
      | None => (p, (queue_urc line st, t))
      | Some tx =>
          if tx_done tx then (p, (queue_urc line st, t)) else (p, process_line request line st tx)
      end
  end.

Definition send_command (request : at_request_t) (st : at_engine_state_t)
  : at_engine_state_t * esp_err_t :=
  if negb (transport_is_ready (written st)) then (st, ESP_ERR_INVALID_STATE)
  else do_write (command_bytes request) st.

(** One received event outside of a transaction. *)
Definition idle_event (request : at_request_t) (ev : rx_event_t) (p : at_parser_t)
    (st : at_engine_state_t) : at_parser_t * at_engine_state_t :=
  match ev with
  | RX_EVENT_DATA data =>
      if (0 <? length data)%nat then
        let '(p, (st, _)) := at_parser_feed p data (Some (process_token request)) (st, None) in (p, st)
      else (p, st)
  | _ => (at_parser_reset p, st)
  end.

(** The queue is drained: what it holds when the loop starts, as the events
    that other tasks add meanwhile are as good as added afterwards. *)
Definition process_idle_rx (request : at_request_t) (p : at_parser_t) (st : at_engine_state_t)
  : at_parser_t * at_engine_state_t :=
  fold_left (fun '(p, st) ev => idle_event request ev p st) (rx_queue st) (p, set_rx_queue st []).

Definition outcome : Type := at_result_t * at_response_t * at_parser_t * at_engine_state_t.

(** The waiting loop; [None] when the worker still waits at the end of the
    given turns. *)
Fixpoint wait_loop (request : at_request_t) (epochs : Z * Z * Z) (deadline_us : Z)
    (turns : list poll) (p : at_parser_t) (st : at_engine_state_t) (tx : transaction_ctx_t)
  : option outcome :=
  if tx_done tx then Some (resp_result (tx_response tx), tx_response tx, p, st)
  else match turns with
  | [] => None
  | turn :: turns' =>
      let st := env_steps (poll_before turn) st in
      let '(overflow_epoch, lost_epoch, cancel_epoch0) := epochs in
      if negb (rx_overflow_epoch st =? overflow_epoch) then
        Some (AT_RESULT_RX_OVERFLOW, tx_response tx, p, st)
      else if negb (transport_lost_epoch st =? lost_epoch) then
        Some (AT_RESULT_TRANSPORT_ERROR, tx_response tx, p, diag_increment C_transport_errors st)
      else if negb (cancel_epoch st =? cancel_epoch0) then
        Some (AT_RESULT_CANCELED, tx_response tx, p, diag_increment C_cancellations st)
      else if deadline_us - poll_now turn <=? 0 then
        Some (AT_RESULT_TIMEOUT, tx_response tx, p, diag_increment C_timeouts st)
      else
        let st := env_steps (poll_during turn) st in
        match rx_queue st with
        | [] => wait_loop request epochs deadline_us turns' p st tx
        | ev :: queue =>
            let st := set_rx_queue st queue in
            match ev with
            | RX_EVENT_DATA data =>
                if (0 <? length data)%nat then
                  let '(p, (st, t)) :=
                    at_parser_feed p data (Some (process_token request)) (st, Some tx) in
                  wait_loop request epochs deadline_us turns' p st (default tx t)
                else wait_loop request epochs deadline_us turns' p st tx
            | RX_EVENT_TRANSPORT_LOST =>
                Some (AT_RESULT_TRANSPORT_ERROR, tx_response tx, p, diag_increment C_transport_errors st)
            | RX_EVENT_CANCEL =>
                Some (AT_RESULT_CANCELED, tx_response tx, p, diag_increment C_cancellations st)
            end
        end
  end.

Definition effective_timeout_ms (request : at_request_t) : Z :=
  if negb (timeout_ms request =? 0) then timeout_ms request else AT_DEFAULT_TIMEOUT_MS.

Definition execute_attempt (request : at_request_t) (input : attempt_input) (response : at_response_t)
    (p : at_parser_t) (st : at_engine_state_t) : option outcome :=
  let epochs := (rx_overflow_epoch st, transport_lost_epoch st, cancel_epoch st) in
  let '(st, write_err) := send_command request st in
  let st := env_steps (during_write input) st in
  if bool_decide (write_err <> ESP_OK) then
    let st := diag_increment C_transport_errors st in
    Some (if bool_decide (write_err = ESP_ERR_INVALID_STATE) then AT_RESULT_TRANSPORT_UNAVAILABLE
          else AT_RESULT_TRANSPORT_ERROR, response, p, st)
  else
    let tx := mk_tx response false false at_router_init in
    let p := at_parser_set_prompt_enabled p (wait_for_prompt request) in
    let deadline_us := start_now input + effective_timeout_ms request * 1000 in
    wait_loop request epochs deadline_us (polls input) p st tx.

Definition set_attempts (r : at_response_t) (n : Z) : at_response_t :=
  mk_response (resp_result r) (resp_error_code r) n (resp_truncated r) (resp_final_line r)
              (resp_data r) (resp_line_offsets r).

(** The attempts from [attempt] on, one for each input; [None] when the inputs
    run out. *)
Fixpoint attempts_loop (request : at_request_t) (attempt : Z) (inputs : list attempt_input)
    (p : at_parser_t) (st : at_engine_state_t)
  : option (at_response_t * at_parser_t * at_engine_state_t) :=
  match inputs with
  | [] => None
  | input :: inputs' =>
      let max := if max_attempts request =? 0 then 1 else max_attempts request in
      let response := set_attempts response_reset attempt in
      match execute_attempt request input response p st with
      | None => None
      | Some (result, response, p, st) =>
          let p := at_parser_set_prompt_enabled p false in
          let response := set_response_result response result in
          let p := if bool_decide (result <> AT_RESULT_OK) then at_parser_reset p else p in
          if bool_decide (result = AT_RESULT_OK) || negb (should_retry result (retry_policy request))
             || (attempt =? max)
          then Some (response, p, diag_increment C_completed st)
          else
            let st := diag_increment C_retried st in
            let p := at_parser_reset p in
            let '(p, st) := process_idle_rx request p st in
            let '(p, st) :=
              if 0 <? retry_delay_ms request then
                process_idle_rx request p (env_steps (during_delay input) st)
              else (p, st) in
            if u8 (attempt + 1) <=? max then attempts_loop request (u8 (attempt + 1)) inputs' p st
            else Some (response, p, diag_increment C_completed st)
      end
  end.

Definition execute_request (request : at_request_t) (inputs : list attempt_input)
    (p : at_parser_t) (st : at_engine_state_t)
  : option (at_response_t * at_parser_t * at_engine_state_t) :=
  let '(p, st) := process_idle_rx request p st in
  attempts_loop request 1 inputs p st.

(** The caller's side, with the worker idle: the error, or what the worker
    leaves behind when it releases the caller. *)
Definition at_engine_execute (initialized : bool) (request : option at_request_t)
    (inputs : list attempt_input) (p : at_parser_t) (st : at_engine_state_t)
  : esp_err_t + option (at_response_t * at_parser_t * at_engine_state_t) :=
  if negb initialized then inl ESP_ERR_INVALID_STATE
  else if negb (valid_request request) then inl ESP_ERR_INVALID_ARG
  else match request with
       | None => inl ESP_ERR_INVALID_ARG
       | Some r => inr (execute_request r inputs p (diag_increment C_submitted st))
       end.

(** One turn of [worker_task] without a request. *)
Definition worker_idle (request : at_request_t) (p : at_parser_t) (st : at_engine_state_t)
  : at_parser_t * at_engine_state_t :=
  match rx_queue st with
  | [] => (p, st)
  | RX_EVENT_DATA data :: queue =>
      if (0 <? length data)%nat then idle_event request (RX_EVENT_DATA data) p (set_rx_queue st queue)
      else (at_parser_reset p, set_rx_queue st queue)
  | _ :: queue => (at_parser_reset p, set_rx_queue st queue)
  end.

End Engine.

Definition at_engine_result_name (result : at_result_t) : list Z :=
  match result with
  | AT_RESULT_OK => str "ok"
  | AT_RESULT_ERROR => str "error"
  | AT_RESULT_CME_ERROR => str "cme_error"
  | AT_RESULT_CMS_ERROR => str "cms_error"
  | AT_RESULT_TIMEOUT => str "timeout"
  | AT_RESULT_CANCELED => str "canceled"
  | AT_RESULT_TRANSPORT_UNAVAILABLE => str "transport_unavailable"
  | AT_RESULT_TRANSPORT_ERROR => str "transport_error"
  | AT_RESULT_RX_OVERFLOW => str "rx_overflow"
  | AT_RESULT_PROTOCOL_ERROR => str "protocol_error"
  end.

(** ** Creation *)

(** The engine with what it is made of: the queues and tasks that exist, and
    the registered callback. *)
Record at_engine_life := mk_life {
  el_initialized : bool;
  el_request_queue : bool;
  el_rx_queue : bool;
  el_urc_queue : bool;
  el_worker_task : bool;
  el_urc_task : bool;
  el_transport : bool;
  el_urc_callback : option nat;
  el_engine : at_engine_state_t;
}.

Definition diag_zero : at_engine_diagnostics_t := mk_diag 0 0 0 0 0 0 0 0 0 0.

(** Nothing exists, as before the first call. *)
Definition cleanup_failed_init (e : at_engine_life) : at_engine_life :=
  let st := el_engine e in
  mk_life false false false false false false false None
    (mk_engine (written st) [] [] (dispatched st) diag_zero 0 0 0).

(** [transport]: whether it is not NULL and has a write function; then what
    [xQueueCreate] and [xTaskCreate] answer. *)
Definition at_engine_init (transport : bool) (request_queue rx_queue urc_queue worker_task urc_task : bool) (e : at_engine_life)
  : at_engine_life * esp_err_t :=
  if negb transport then (e, ESP_ERR_INVALID_ARG)
  else if el_initialized e then (e, ESP_ERR_INVALID_STATE)
  else
    let st := el_engine e in
    let e := mk_life true request_queue rx_queue urc_queue (el_worker_task e) (el_urc_task e) true None
               (mk_engine (written st) [] [] (dispatched st) diag_zero 0 0 0) in
    if negb request_queue || negb rx_queue || negb urc_queue then (cleanup_failed_init e, ESP_ERR_NO_MEM)
    else
      if negb worker_task then (cleanup_failed_init e, ESP_ERR_NO_MEM)
      else
        let e := mk_life true true true true true (el_urc_task e) true None (el_engine e) in
        if negb urc_task then (cleanup_failed_init e, ESP_ERR_NO_MEM)
        else (mk_life true true true true true true true None (el_engine e), ESP_OK).

Definition at_engine_set_urc_callback (callback : option nat) (e : at_engine_life) : at_engine_life * esp_err_t :=
  if negb (el_initialized e) then (e, ESP_ERR_INVALID_STATE)
  else (mk_life (el_initialized e) (el_request_queue e) (el_rx_queue e) (el_urc_queue e) (el_worker_task e) (el_urc_task e)
          (el_transport e) callback (el_engine e), ESP_OK).

(** [out] is not NULL for [true]. *)
Definition at_engine_get_diagnostics (out : bool) (e : at_engine_life) : esp_err_t + at_engine_diagnostics_t :=
  if out then inr (diagnostics (el_engine e)) else inl ESP_ERR_INVALID_ARG.

(** Whether everything exists, or nothing. *)
Definition complete (e : at_engine_life) : bool :=
  el_request_queue e && el_rx_queue e && el_urc_queue e && el_worker_task e && el_urc_task e && el_transport e.

Definition empty (e : at_engine_life) : bool :=
  negb (el_request_queue e || el_rx_queue e || el_urc_queue e || el_worker_task e || el_urc_task e || el_transport e
        || el_initialized e).

(** An initialization that fails for lack of memory leaves nothing behind, so
    that the next one can succeed; one that succeeds has everything, with the
    counters and epochs at zero; a second one changes nothing. *)
Theorem init_all_or_nothing transport rq rx urc worker urct e :
  (if el_initialized e then complete e = true else empty e = true) ->
  let '(e', err) := at_engine_init transport rq rx urc worker urct e in
  (if el_initialized e' then complete e' = true else empty e' = true) /\
  (err = ESP_OK <-> el_initialized e = false /\ transport && rq && rx && urc && worker && urct = true) /\
  (err = ESP_OK -> el_initialized e' = true /\ diagnostics (el_engine e') = diag_zero /\ rx_queue (el_engine e') = [] /\
     rx_overflow_epoch (el_engine e') = 0 /\ transport_lost_epoch (el_engine e') = 0 /\ cancel_epoch (el_engine e') = 0) /\
  (err <> ESP_OK -> el_initialized e' = el_initialized e /\ complete e' = complete e).
Proof.
  destruct e as [[] q1 q2 q3 t1 t2 tr cb st]; unfold complete, empty; cbn; intros He.
  - destruct transport; cbn; rewrite He; repeat split; try done; intros; intuition congruence.
  - destruct q1, q2, q3, t1, t2, tr; try done. destruct transport, rq, rx, urc, worker, urct; cbn; repeat split; try done; intros; intuition congruence.
Qed.
