(* ===== verification/AtEngineFacts.v ===== *)
(** * What the AT engine guarantees

    How often it writes, what a success means, that it ends, and that captured
    responses and received bytes survive their buffers. *)

From Stdlib Require Import ZifyBool ZifyNat.
From stdpp Require Import base numbers list strings.
From S2P Require Import Prelude.
From S2P Require Import AtParser.
From S2P Require Import AtProtocol.
From S2P Require Import AtEngine.

Open Scope Z_scope.

(** ** Writes *)

Lemma queue_urc_written line st : written (queue_urc line st) = written st.
Proof. unfold queue_urc. destruct (_ <? _)%nat; [done|]. by destruct (_ <? _)%nat. Qed.

Lemma feed_rx_loop_written fuel data st : written (feed_rx_loop fuel data st) = written st.
Proof.
  revert data st. induction fuel as [|fuel IH]; intros data st; [done|]. cbn [feed_rx_loop].
  destruct (_ =? _)%nat; [done|]. destruct (_ <? _)%nat; [|done]. by rewrite IH.
Qed.

Lemma send_to_front_written ev st : written (send_to_front ev st).1 = written st.
Proof. unfold send_to_front. by destruct (_ <? _)%nat. Qed.

Lemma env_step_written st a : written (env_step st a) = written st.
Proof.
  destruct a as [data| | |]; cbn [env_step].
  - apply feed_rx_loop_written.
  - unfold at_engine_notify_transport_lost. by rewrite send_to_front_written.
  - unfold at_engine_cancel_current.
    pose proof (send_to_front_written RX_EVENT_CANCEL
      (set_epochs st (rx_overflow_epoch st) (transport_lost_epoch st) (u32 (cancel_epoch st + 1)))) as H.
    by destruct (send_to_front _ _).
  - unfold urc_dispatch. by destruct (urc_queue st).
Qed.

Lemma env_steps_written actions st : written (env_steps actions st) = written st.
Proof.
  revert st. induction actions as [|a actions IH]; intros st; [done|].
  unfold env_steps in *. cbn [fold_left]. by rewrite IH, env_step_written.
Qed.

Section Facts.

Context (transport_write : list (list Z) -> list Z -> esp_err_t).
Context (transport_is_ready : list (list Z) -> bool).

Abbreviation process_token := (process_token transport_write).
Abbreviation process_idle_rx := (process_idle_rx transport_write).
Abbreviation wait_loop := (wait_loop transport_write).
Abbreviation execute_attempt := (execute_attempt transport_write transport_is_ready).
Abbreviation attempts_loop := (attempts_loop transport_write transport_is_ready).
Abbreviation execute_request := (execute_request transport_write transport_is_ready).

Section Request.

Context (request : at_request_t).

(** What a running transaction has written since [w0], and what its result
    means. *)
Definition paid (w0 : list (list Z)) (st : at_engine_state_t) : Prop :=
  written st = w0 ++ [payload_bytes request].

Definition tx_ok (w0 : list (list Z)) (prompt : bool) (st : at_engine_state_t) (tx : transaction_ctx_t) : Prop :=
  (written st = w0 \/ wait_for_prompt request = true /\ prompt = false /\ paid w0 st) /\
  (wait_for_prompt request = false -> prompt = false) /\
  (tx_payload_sent tx = true -> prompt = false /\ paid w0 st /\
     transport_write w0 (payload_bytes request) = ESP_OK) /\
  (resp_result (tx_response tx) = AT_RESULT_OK ->
     resp_final_line (tx_response tx) = str "OK" /\
     (wait_for_prompt request = true -> tx_payload_sent tx = true)).

Definition tx_inv (w0 : list (list Z)) (prompt : bool) (u : token_ctx) : Prop :=
  exists tx, u.2 = Some tx /\ tx_ok w0 prompt u.1 tx.

Lemma capture_final_ok r line :
  kind (at_protocol_final_status (Some line)) = AT_FINAL_OK ->
  resp_final_line (response_capture_final r line) = str "OK".
Proof.
  intros H. apply (proj1 (final_status_kind line)) in H.
  unfold response_capture_final, bounded_strlen, strlen. rewrite H. cbn [resp_final_line].
  change (length (str "OK")) with 2%nat. cbn [Nat.min Nat.ltb Nat.leb AT_ENGINE_MAX_FINAL_LENGTH].
  destruct line as [|c [|d line]]; cbn in H |- *; [done|by destruct (c =? 0)|].
  destruct (c =? 0); [done|]. destruct (d =? 0); [done|]. injection H as -> -> _. reflexivity.
Qed.

Lemma process_line_inv w0 prompt line st tx :
  tx_ok w0 prompt st tx -> tx_done tx = false ->
  tx_inv w0 prompt (process_line request line st tx).
Proof.
  intros (Hw & Hp & Hs & Hr) Hd. unfold process_line.
  destruct (match command request with Some _ => _ | None => _ end); [by exists tx|].
  destruct (at_router_route_line _ _ _) as [[] router].
  - case_bool_decide as Hk.
    + eexists. split; [done|]. unfold tx_ok. cbn [snd fst tx_response tx_payload_sent].
      split_and!; try done.
      destruct (bool_decide _ && _ && negb _) eqn:Eb; [done|]. cbn [resp_result resp_final_line].
      destruct (kind _) eqn:Ek; try done. intros _. split; [by apply capture_final_ok|].
      intros Hwait. rewrite Hwait in Eb. cbn in Eb. by destruct (tx_payload_sent tx).
    + eexists. split; [done|]. unfold tx_ok, response_capture_line. cbn [snd fst tx_response tx_payload_sent].
      split_and!; try done. by destruct (_ || _).
  - eexists. split; [done|]. unfold tx_ok, paid. cbn [snd fst tx_response tx_payload_sent].
    by rewrite queue_urc_written.
Qed.

Lemma process_token_inv w0 token p u :
  tx_inv w0 (prompt_enabled p) u -> (token = AT_TOKEN_PROMPT -> prompt_enabled p = true) ->
  tx_inv w0 (prompt_enabled (process_token request token (p, u)).1) (process_token request token (p, u)).2.
Proof.
  destruct u as [st t]. intros (tx & Et & Hok) Hprompt. cbn [snd] in Et. subst t.
  cbn [fst] in Hok. pose proof Hok as (Hw & Hp & Hs & Hr). destruct token as [line| |]; cbn [AtEngine.process_token].
  - destruct (tx_done tx) eqn:Ed; [|by apply process_line_inv].
    exists tx. split; [done|]. unfold tx_ok, paid in *. cbn [fst snd]. by rewrite queue_urc_written.
  - specialize (Hprompt eq_refl). unfold process_prompt.
    destruct (wait_for_prompt request) eqn:Ew; cbn [negb].
    2: { by rewrite Hp in Hprompt. }
    destruct Hw as [Hw | (_ & ? & _)]; [|congruence].
    unfold do_write. rewrite Hw. case_bool_decide as He; cbn [fst snd prompt_enabled at_parser_set_prompt_enabled].
    + eexists. split; [done|]. unfold tx_ok, paid, add_written. cbn. rewrite Hw.
      split_and!; try done; [by right|]. intros H. by destruct (Hr H).
    + eexists. split; [done|]. unfold tx_ok, paid, diag_increment, add_written. cbn. rewrite Hw.
      split_and!; try done; [by right|]. intros H. destruct (Hs H). congruence.
  - exists (mk_tx (set_response_truncated (set_response_result (tx_response tx) AT_RESULT_PROTOCOL_ERROR))
              true (tx_payload_sent tx) (tx_router tx)). by split.
Qed.

Lemma feed_inv w0 p data st tx :
  tx_ok w0 (prompt_enabled p) st tx ->
  let '(p', u') := at_parser_feed p data (Some (process_token request)) (st, Some tx) in
  tx_inv w0 (prompt_enabled p') u'.
Proof.
  intros H.
  pose proof (feed_invariant (tx_inv w0) (process_token request) p data (st, Some tx)) as F.
  destruct (at_parser_feed _ _ _ _) as [p' u']. apply F; [|by exists tx].
  intros token p0 u0. apply process_token_inv.
Qed.

(** What an attempt may write, and what its success means. *)
Definition attempt_writes (ws : list (list Z)) : Prop :=
  ws = [] \/ ws = [command_bytes request] \/
  wait_for_prompt request = true /\ ws = [command_bytes request; payload_bytes request].

Definition success_means (w0 : list (list Z)) (r : at_response_t) (ws : list (list Z)) : Prop :=
  resp_final_line r = str "OK" /\ transport_write w0 (command_bytes request) = ESP_OK /\
  if wait_for_prompt request
  then ws = [command_bytes request; payload_bytes request] /\
       transport_write (w0 ++ [command_bytes request]) (payload_bytes request) = ESP_OK
  else ws = [command_bytes request].

Lemma wait_loop_inv w0 epochs deadline turns p st tx result r p' st' :
  tx_ok w0 (prompt_enabled p) st tx ->
  wait_loop request epochs deadline turns p st tx = Some (result, r, p', st') ->
  exists prompt tx', tx_ok w0 prompt st' tx' /\ r = tx_response tx' /\
    (result = AT_RESULT_OK -> resp_result r = AT_RESULT_OK).
Proof.
  revert p st tx. induction turns as [|turn turns IH]; intros p st tx Hok H; cbn [AtEngine.wait_loop] in H.
  { destruct (tx_done tx); [|done]. injection H as <- <- <- <-. eauto. }
  destruct (tx_done tx). { injection H as <- <- <- <-. eauto. }
  assert (tx_ok w0 (prompt_enabled p) (env_steps (poll_before turn) st) tx) as Hok1.
  { unfold tx_ok, paid in *. by rewrite env_steps_written. }
  set (st1 := env_steps (poll_before turn) st) in *. destruct epochs as [[e1 e2] e3].
  destruct (negb _). { injection H as <- <- <- <-. by exists (prompt_enabled p), tx. }
  destruct (negb _). { injection H as <- <- <- <-. by exists (prompt_enabled p), tx. }
  destruct (negb _). { injection H as <- <- <- <-. by exists (prompt_enabled p), tx. }
  destruct (_ <=? _). { injection H as <- <- <- <-. by exists (prompt_enabled p), tx. }
  assert (tx_ok w0 (prompt_enabled p) (env_steps (poll_during turn) st1) tx) as Hok2.
  { unfold tx_ok, paid in *. by rewrite env_steps_written. }
  set (st2 := env_steps (poll_during turn) st1) in *.
  destruct (rx_queue st2) as [|[data| |] queue]; [eapply IH; [exact Hok2|exact H]| |..].
  - destruct (0 <? length data)%nat; [|eapply IH; [|exact H]; exact Hok2].
    pose proof (feed_inv w0 p data (set_rx_queue st2 queue) tx Hok2) as F.
    destruct (at_parser_feed _ _ _ _) as [p2 [st3 t]]. destruct F as (tx2 & Et & Hok3).
    cbn [snd fst] in *. subst t. eapply IH; [|exact H]; exact Hok3.
  - injection H as <- <- <- <-. by exists (prompt_enabled p), tx.
  - injection H as <- <- <- <-. by exists (prompt_enabled p), tx.
Qed.

Lemma execute_attempt_writes input response p st result r p' st' :
  resp_result response <> AT_RESULT_OK ->
  execute_attempt request input response p st = Some (result, r, p', st') ->
  exists ws, written st' = written st ++ ws /\ attempt_writes ws /\
    (result = AT_RESULT_OK -> success_means (written st) r ws).
Proof.
  intros Hr H. unfold AtEngine.execute_attempt in H. unfold send_command in H.
  destruct (transport_is_ready (written st)); cbn [negb] in H.
  2: { rewrite bool_decide_eq_true_2 in H by done. injection H as <- <- <- <-. exists [].
       cbn [written diag_increment]. rewrite env_steps_written, app_nil_r.
       split_and!; [done|by left|done]. }
  unfold do_write in H. case_bool_decide as He.
  { injection H as <- <- <- <-. exists [command_bytes request].
    cbn [written diag_increment]. rewrite env_steps_written.
    split_and!; [done|by right; left|]. by case_bool_decide. }
  set (st1 := env_steps _ _) in H.
  assert (tx_ok (written st ++ [command_bytes request])
            (prompt_enabled (at_parser_set_prompt_enabled p (wait_for_prompt request))) st1
            (mk_tx response false false at_router_init)) as Hok0.
  { unfold tx_ok, st1. rewrite env_steps_written. cbn. split_and!; try done. by left. }
  destruct (wait_loop_inv _ _ _ _ _ _ _ _ _ _ _ Hok0 H) as (prompt & tx' & (Hw & _ & Hs & Hres) & -> & Hok).
  assert (written st' = written st ++ [command_bytes request] \/
          wait_for_prompt request = true /\
          written st' = written st ++ [command_bytes request; payload_bytes request]) as Hw'.
  { destruct Hw as [-> | (? & _ & ->)]; [by left|right]. by rewrite <- app_assoc. }
  assert (result = AT_RESULT_OK ->
          success_means (written st) (tx_response tx') [command_bytes request; payload_bytes request] /\
            written st' = written st ++ [command_bytes request; payload_bytes request] \/
          success_means (written st) (tx_response tx') [command_bytes request] /\
            written st' = written st ++ [command_bytes request]) as Hsuc.
  { intros Eok. destruct (Hres (Hok Eok)) as [Hf Hwait]. unfold success_means.
    destruct (wait_for_prompt request).
    - destruct (Hs (Hwait eq_refl)) as (_ & Hp & Hpw). left. rewrite Hp.
      unfold paid in Hp. split_and!; try done. by rewrite <- app_assoc.
    - right. destruct Hw' as [? | [? _]]; [|done]. by split_and!. }
  destruct (decide (result = AT_RESULT_OK)) as [E|E].
  - destruct (Hsuc E) as [[S W] | [S W]]; eexists; (split; [exact W|]); (split; [|done]).
    + unfold success_means in S. destruct S as (_ & _ & S). unfold attempt_writes.
      destruct (wait_for_prompt request); [by right; right|]. done.
    + by right; left.
  - destruct Hw' as [W | [Hwp W]]; eexists; (split; [exact W|]); (split; [|done]).
    + by right; left.
    + by right; right.
Qed.

(** ** Retries *)

(** Outside of a transaction nothing is written. *)
Lemma idle_feed_written w p data st :
  written st = w ->
  let '(_, (st', t')) := at_parser_feed p data (Some (process_token request)) (st, None) in
  written st' = w.
Proof.
  intros H.
  pose proof (feed_invariant (fun _ (u : token_ctx) => written u.1 = w /\ u.2 = None)
                (process_token request) p data (st, None)) as F.
  destruct (at_parser_feed _ _ _ _) as [p' [st' t']]. apply F; [|done].
  intros token p0 [st0 t0] [Hw Ht] _. cbn [fst snd] in *. subst t0.
  destruct token; cbn; by rewrite ?queue_urc_written.
Qed.

Lemma idle_event_written ev p st : written (idle_event transport_write request ev p st).2 = written st.
Proof.
  destruct ev as [data| |]; cbn [idle_event]; [|done..].
  destruct (0 <? length data)%nat; [|done].
  pose proof (idle_feed_written (written st) p data st eq_refl) as F.
  by destruct (at_parser_feed _ _ _ _) as [p' [st' t']].
Qed.

Lemma process_idle_rx_written p st : written (process_idle_rx request p st).2 = written st.
Proof.
  unfold AtEngine.process_idle_rx.
  change (written st) with (written (p, set_rx_queue st []).2).
  generalize (p, set_rx_queue st []). generalize (rx_queue st) as q.
  induction q as [|ev q IH]; intros [p0 st0]; [done|]. cbn [fold_left].
  rewrite IH. apply idle_event_written.
Qed.

Definition attempts_max : Z := if max_attempts request =? 0 then 1 else max_attempts request.

(** The writes of the attempts made, and how the last one ended. *)
Record attempts_made (w0 : list (list Z)) (first : Z) (wss : list (list (list Z)))
    (r : at_response_t) (st : at_engine_state_t) : Prop := {
  made_written : written st = w0 ++ concat wss;
  made_each : Forall attempt_writes wss;
  made_some : (1 <= length wss)%nat;
  made_count : resp_attempts r = first + Z.of_nat (length wss) - 1;
  made_max : first + Z.of_nat (length wss) - 1 <= attempts_max;
  made_once : retry_policy request = 0 -> length wss = 1%nat;
  made_success : resp_result r = AT_RESULT_OK ->
    exists before wss' ws, wss = wss' ++ [ws] /\ before = w0 ++ concat wss' /\ success_means before r ws;
}.

Lemma wait_loop_attempts epochs deadline turns p st tx result r p' st' :
  wait_loop request epochs deadline turns p st tx = Some (result, r, p', st') ->
  resp_attempts r = resp_attempts (tx_response tx).
Proof.
  revert p st tx. induction turns as [|turn turns IH]; intros p st tx H; cbn [AtEngine.wait_loop] in H.
  { destruct (tx_done tx); [|done]. by injection H as <- <- <- <-. }
  destruct (tx_done tx); [by injection H as <- <- <- <-|]. destruct epochs as [[e1 e2] e3].
  destruct (negb _); [by injection H as <- <- <- <-|]. destruct (negb _); [by injection H as <- <- <- <-|].
  destruct (negb _); [by injection H as <- <- <- <-|]. destruct (_ <=? _); [by injection H as <- <- <- <-|].
  set (st2 := env_steps _ _) in *.
  destruct (rx_queue st2) as [|[data| |] queue]; [by eapply IH| |by injection H as <- <- <- <-..].
  destruct (0 <? length data)%nat; [|by eapply IH].
  pose proof (feed_invariant
    (fun _ (u : token_ctx) => exists tx', u.2 = Some tx' /\
       resp_attempts (tx_response tx') = resp_attempts (tx_response tx))
    (process_token request) p data (set_rx_queue st2 queue, Some tx)) as F.
  destruct (at_parser_feed _ _ _ _) as [p2 [st3 t]].
  destruct F as (tx2 & Et & Ea); [|by exists tx|].
  - intros token p0 [st0 t0] (tx0 & Et & Ea) _. cbn [fst snd] in *. subst t0.
    destruct token as [line| |]; cbn [AtEngine.process_token].
    + destruct (tx_done tx0); [by exists tx0|]. unfold process_line.
      destruct (match command request with Some _ => _ | None => _ end); [by exists tx0|].
      destruct (at_router_route_line _ _ _) as [[] router]; [|by eexists].
      destruct (bool_decide _); eexists; (split; [done|]); cbn.
      * by destruct (_ && _ && _).
      * unfold response_capture_line. by destruct (_ || _).
    + unfold process_prompt. destruct (negb _); [by exists tx0|]. destruct (do_write _ _ _).
      destruct (bool_decide _); by eexists.
    + by eexists.
  - cbn [snd] in Et. subst t. cbn [default] in H. rewrite (IH _ _ _ H). exact Ea.
Qed.

Lemma execute_attempt_attempts input response p st result r p' st' :
  execute_attempt request input response p st = Some (result, r, p', st') ->
  resp_attempts r = resp_attempts response.
Proof.
  unfold AtEngine.execute_attempt. destruct (send_command _ _ _ _) as [st1 err].
  destruct (bool_decide _); [by intros [= <- <- <- <-]|]. intros H.
  by rewrite (wait_loop_attempts _ _ _ _ _ _ _ _ _ _ H).
Qed.

Lemma no_policy_no_retry result : should_retry result 0 = false.
Proof. by destruct result. Qed.

Lemma attempts_loop_made inputs attempt p st r p' st' :
  1 <= attempt <= attempts_max -> attempts_max <= 255 ->
  attempts_loop request attempt inputs p st = Some (r, p', st') ->
  exists wss, attempts_made (written st) attempt wss r st'.
Proof.
  revert attempt p st. induction inputs as [|input inputs IH]; intros attempt p st Ha Hm H; [done|].
  cbn [AtEngine.attempts_loop] in H. fold attempts_max in H.
  destruct (execute_attempt request input (set_attempts response_reset attempt) p st)
    as [[[[result r1] p1] st1]|] eqn:Ex; [|done].
  assert (resp_result (set_attempts response_reset attempt) <> AT_RESULT_OK) as Hr0 by discriminate.
  destruct (execute_attempt_writes _ _ _ _ _ _ _ _ Hr0 Ex) as (ws & Hw & Ht & Hs).
  pose proof (execute_attempt_attempts _ _ _ _ _ _ _ _ Ex) as Hat. cbn in Hat.
  assert (forall p2,
    Some (set_response_result r1 result, p2, diag_increment C_completed st1) = Some (r, p', st') ->
    exists wss, attempts_made (written st) attempt wss r st') as Hstop.
  { intros p2 [= <- _ <-]. exists [ws]. split; cbn; try lia; try done.
    - by rewrite app_nil_r.
    - by constructor.
    - intros Eok. exists (written st), [], ws. rewrite app_nil_r. split_and!; try done.
      destruct (Hs Eok) as (? & ? & ?). by split_and!. }
  destruct (bool_decide (result = AT_RESULT_OK) || negb (should_retry result (retry_policy request))
            || (attempt =? attempts_max)) eqn:Estop; [by eapply Hstop|].
  apply orb_false_iff in Estop as [Estop Eneq]. apply orb_false_iff in Estop as [_ Eretry].
  apply negb_false_iff in Eretry. apply Z.eqb_neq in Eneq.
  set (q1 := process_idle_rx request _ _) in H.
  assert (written q1.2 = written st1) as W1.
  { unfold q1. by rewrite process_idle_rx_written. }
  destruct q1 as [p2 st2]. cbn [snd] in W1.
  set (q2 := if 0 <? retry_delay_ms request then _ else _) in H.
  assert (written q2.2 = written st1) as W2.
  { unfold q2. destruct (_ <? _); [|done]. by rewrite process_idle_rx_written, env_steps_written. }
  destruct q2 as [p3 st3]. cbn [snd] in W2.
  unfold u8 in H. rewrite Z.mod_small in H by lia.
  destruct (Z.leb_spec (attempt + 1) attempts_max); [|lia].
  destruct (IH (attempt + 1) p3 st3 ltac:(lia) Hm H) as (wss & [MW ME MS MC MM MO MOK]).
  exists (ws :: wss). split; cbn [concat length].
  - rewrite MW, W2, Hw. by rewrite app_assoc.
  - by constructor.
  - lia.
  - rewrite MC. lia.
  - lia.
  - intros Hp. rewrite Hp, no_policy_no_retry in Eretry. done.
  - intros Eok. destruct (MOK Eok) as (before & wss' & ws' & -> & -> & S).
    exists (written st ++ concat (ws :: wss')), (ws :: wss'), ws'. split_and!; try done.
    cbn [concat]. rewrite W2, Hw in S. by rewrite app_assoc.
Qed.

(** ** Termination *)

(** The clock passes the deadline during the attempt. *)
Definition expires (input : attempt_input) : Prop :=
  Exists (fun turn => start_now input + effective_timeout_ms request * 1000 <= poll_now turn) (polls input).

Lemma wait_loop_returns epochs deadline turns p st tx :
  Exists (fun turn => deadline <= poll_now turn) turns ->
  is_Some (wait_loop request epochs deadline turns p st tx).
Proof.
  intros H. revert p st tx. induction H as [turn turns Ht|turn turns _ IH]; intros p st tx;
    cbn [AtEngine.wait_loop]; destruct (tx_done tx); try by eexists.
  all: destruct epochs as [[e1 e2] e3]; destruct (negb _); [by eexists|];
    destruct (negb _); [by eexists|]; destruct (negb _); [by eexists|].
  - destruct (Z.leb_spec (deadline - poll_now turn) 0); [by eexists|lia].
  - destruct (_ <=? _); [by eexists|].
    destruct (rx_queue _) as [|[data| |] queue]; [apply IH| |by eexists..].
    destruct (0 <? length data)%nat; [|apply IH].
    destruct (at_parser_feed _ _ _ _) as [p2 [st3 t]]. apply IH.
Qed.

Lemma execute_attempt_returns input response p st :
  expires input -> is_Some (execute_attempt request input response p st).
Proof.
  intros H. unfold AtEngine.execute_attempt. destruct (send_command _ _ _ _) as [st1 err].
  destruct (bool_decide _); [by eexists|]. by apply wait_loop_returns.
Qed.

Lemma attempts_loop_returns inputs attempt p st :
  attempts_max <= 255 -> 1 <= attempt <= attempts_max -> Forall expires inputs ->
  attempts_max - attempt < Z.of_nat (length inputs) ->
  is_Some (attempts_loop request attempt inputs p st).
Proof.
  intros Hm Ha H. revert attempt p st Ha. induction H as [|input inputs Hi _ IH]; intros attempt p st Ha Hl.
  { simpl in Hl. lia. }
  cbn [AtEngine.attempts_loop length] in *. fold attempts_max.
  destruct (execute_attempt_returns input (set_attempts response_reset attempt) p st Hi)
    as [[[[result r1] p1] st1] ->].
  destruct (_ || _ || _) eqn:E; [by eexists|]. apply orb_false_iff in E as [_ E]. apply Z.eqb_neq in E.
  destruct (process_idle_rx request _ _) as [p2 st2].
  destruct (if 0 <? retry_delay_ms request then _ else _) as [p3 st3].
  unfold u8. rewrite Z.mod_small by lia.
  destruct (Z.leb_spec (attempt + 1) attempts_max); [|lia]. apply IH; lia.
Qed.

End Request.

End Facts.

(** ** Captured responses *)

(** The lines a response holds. *)
Definition captured (r : at_response_t) (ls : list (list Z)) : Prop :=
  Forall cstring ls /\ resp_data r = concat (map (fun l => l ++ [0]) ls) /\
  (length (resp_data r) <= AT_ENGINE_MAX_RESPONSE_BYTES)%nat /\
  (length ls <= AT_ENGINE_MAX_RESPONSE_LINES)%nat /\
  length (resp_line_offsets r) = length ls /\
  forall i, (i < length ls)%nat ->
    resp_line_offsets r !! i = Some (length (concat (map (fun l => l ++ [0]) (take i ls)))).

Lemma c_str_terminated l s : cstring l -> c_str (l ++ 0 :: s) = l.
Proof.
  induction 1 as [|c l Hc _ IH]; [done|]. cbn. destruct (Z.eqb_spec c 0); [lia|]. by rewrite IH.
Qed.

Lemma captured_line r ls i : captured r ls -> at_response_line (Some r) i = ls !! i.
Proof.
  intros (Hc & Hd & Hb & _ & Hlen & Ho). cbn [at_response_line].
  destruct (decide (i < length ls)%nat) as [Hi|Hi].
  - rewrite (Ho i Hi). destruct (lookup_lt_is_Some_2 ls i Hi) as [l Hl]. rewrite Hl.
    pose proof (take_drop_middle ls i l Hl) as Es.
    assert (resp_data r = concat (map (fun l => l ++ [0]) (take i ls)) ++
              l ++ 0 :: concat (map (fun l => l ++ [0]) (drop (S i) ls))) as Ed.
    { rewrite Hd, <- Es at 1. rewrite map_app, concat_app. cbn [map concat]. by rewrite <- app_assoc. }
    set (o := length (concat (map (fun l => l ++ [0]) (take i ls)))) in *.
    assert (o < length (resp_data r))%nat as Hlt.
    { rewrite Ed, length_app. fold o. rewrite length_app. cbn [length]. lia. }
    destruct (Nat.leb_spec (length (resp_data r)) o); [lia|].
    destruct (Nat.leb_spec AT_ENGINE_MAX_RESPONSE_BYTES o); [lia|]. cbn [orb].
    rewrite Ed. unfold o. rewrite drop_app_length, c_str_terminated; [done|].
    by apply (Forall_lookup_1 _ _ _ _ Hc Hl).
  - rewrite (lookup_ge_None_2 (resp_line_offsets r)) by lia. by rewrite lookup_ge_None_2 by lia.
Qed.

Lemma captured_reset n : captured (set_attempts response_reset n) [].
Proof. unfold captured. cbn. split_and!; (done || lia || constructor). Qed.

Lemma captured_capture r ls line : bytes line -> captured r ls ->
  let r' := response_capture_line r line in
  (captured r' (ls ++ [c_str line]) /\ resp_truncated r' = resp_truncated r) \/
  (captured r' ls /\ resp_truncated r' = true).
Proof.
  intros Hl (Hc & Hd & Hb & Hn & Hlen & Ho). cbv zeta. unfold response_capture_line.
  destruct (_ || _) eqn:E; [by right|]. apply orb_false_iff in E as [E1 E2].
  apply Nat.leb_gt in E1. apply Nat.ltb_ge in E2. left. split; [|done].
  unfold captured. cbn [resp_data resp_line_offsets]. unfold strlen in E2.
  rewrite !length_app, map_app, concat_app. cbn [map concat length]. rewrite app_nil_r, ?length_app.
  split_and!; [apply Forall_app; split; [done|by repeat constructor; apply c_str_cstring] |
    by rewrite Hd | cbn [length]; lia | lia | lia |].
  intros i Hi. destruct (decide (i < length ls)%nat).
  - rewrite lookup_app_l, take_app_le by lia. by apply Ho.
  - assert (i = length ls) as -> by lia.
    rewrite lookup_app_r, take_app_length by lia. rewrite Hlen, Nat.sub_diag. cbn. rewrite <- Hd.
    unfold u16. rewrite Z.mod_small; [by rewrite Nat2Z.id|].
    unfold AT_ENGINE_MAX_RESPONSE_BYTES in Hb. lia.
Qed.

(** ** Received bytes *)

Definition rx_bytes (q : list rx_event_t) : list Z :=
  concat (map (fun ev => match ev with RX_EVENT_DATA d => d | _ => [] end) q).

Lemma feed_rx_loop_spec fuel data st :
  (length data <= fuel)%nat ->
  exists accepted rest, data = accepted ++ rest /\
    rx_bytes (rx_queue (feed_rx_loop fuel data st)) = rx_bytes (rx_queue st) ++ accepted /\
    rx_overflow_epoch (feed_rx_loop fuel data st) =
      (if bool_decide (rest = []) then rx_overflow_epoch st else u32 (rx_overflow_epoch st + 1)) /\
    ((length (rx_queue st) <= AT_RX_QUEUE_DEPTH)%nat ->
     (length (rx_queue (feed_rx_loop fuel data st)) <= AT_RX_QUEUE_DEPTH)%nat).
Proof.
  revert data st. induction fuel as [|fuel IH]; intros data st Hf; cbn [feed_rx_loop].
  { destruct data; [|simpl in Hf; lia]. exists [], []. rewrite !app_nil_r. by split_and!. }
  destruct (Nat.eqb_spec (length data) 0) as [E|E].
  { destruct data; [|done]. exists [], []. rewrite !app_nil_r. by split_and!. }
  destruct (Nat.ltb_spec (length (rx_queue st)) AT_RX_QUEUE_DEPTH) as [Hq|Hq].
  - destruct (IH (drop AT_RX_CHUNK_SIZE data)
                (set_rx_queue st (rx_queue st ++ [RX_EVENT_DATA (take AT_RX_CHUNK_SIZE data)])))
      as (acc & rest & Ed & Hb & He & Hl).
    { rewrite length_drop. unfold AT_RX_CHUNK_SIZE. lia. }
    exists (take AT_RX_CHUNK_SIZE data ++ acc), rest. split_and!.
    + by rewrite <- app_assoc, <- Ed, take_drop.
    + rewrite Hb. cbn [rx_queue set_rx_queue]. unfold rx_bytes.
      rewrite map_app, concat_app. cbn [map concat]. by rewrite app_nil_r, <- app_assoc.
    + rewrite He. done.
    + intros _. apply Hl. cbn [rx_queue set_rx_queue]. rewrite length_app. cbn [length]. lia.
  - exists [], data. split_and!; [done|by rewrite app_nil_r| |done].
    cbn [rx_overflow_epoch diag_increment set_epochs]. rewrite bool_decide_eq_false_2; [done|]. by intros ->.
Qed.

(** ** Theorems *)

(** A concrete run: an SMS is sent through the prompt, an incoming message's
    header and body arriving in between. *)
Definition sample_write (history : list (list Z)) (data : list Z) : esp_err_t := ESP_OK.
Definition sample_ready (history : list (list Z)) : bool := true.

Definition sample_request : at_request_t :=
  mk_request (Some (str "AT+CMGS=17")) (Some [Some (str "+CMGS:")]) 1 60000 1 0 AT_RETRY_NONE
             true (Some (str "0011" ++ [26])) 5.

Definition engine_zero : at_engine_state_t := mk_engine [] [] [] [] diag_zero 0 0 0.

Definition sample_input : attempt_input :=
  mk_attempt [] 0
    [mk_poll [] 1000 [Env_rx ([13; 10] ++ str "> ")];
     mk_poll [] 2000 [Env_rx ([13; 10] ++ str "+CMT: ,24" ++ [13; 10] ++ str "OK" ++ [13; 10])];
     mk_poll [] 3000 [Env_rx ([13; 10] ++ str "+CMGS: 7" ++ [13; 10; 13; 10] ++ str "OK" ++ [13; 10])];
     mk_poll [] 70000000 []] [].

Definition sample_outcome : option (at_response_t * at_parser_t * at_engine_state_t) :=
  execute_request sample_write sample_ready sample_request [sample_input] at_parser_init engine_zero.

Section Theorems.

Context (transport_write : list (list Z) -> list Z -> esp_err_t).
Context (transport_is_ready : list (list Z) -> bool).

(** A success is a success: when an attempt returns [AT_RESULT_OK] the
    final line was [OK], the command was written once and accepted by the
    transport, and for a prompt command the payload was written exactly once
    behind it and accepted; whatever the result, an attempt never writes
    anything else, nor the payload twice. *)
Theorem attempt_success (request : at_request_t) (input : attempt_input) (response : at_response_t)
    (p : at_parser_t) (st : at_engine_state_t) (result : at_result_t) (r : at_response_t)
    (p' : at_parser_t) (st' : at_engine_state_t) :
  resp_result response <> AT_RESULT_OK ->
  execute_attempt transport_write transport_is_ready request input response p st
    = Some (result, r, p', st') ->
  exists ws, written st' = written st ++ ws /\ attempt_writes request ws /\
    (result = AT_RESULT_OK -> success_means transport_write request (written st) r ws).
Proof. apply execute_attempt_writes. Qed.

(** Retries are bounded: a request makes at least one attempt and at most
    [max_attempts] of them (one for 0), each writing as in
    [attempt_success]; the count is
    reported in the response; without a retry policy there is exactly one, so
    the command and its payload leave at most once; and a success is that of
    the last attempt. *)
Theorem request_attempts_bounded (request : at_request_t) (inputs : list attempt_input)
    (p : at_parser_t) (st : at_engine_state_t) (r : at_response_t) (p' : at_parser_t)
    (st' : at_engine_state_t) :
  0 <= max_attempts request <= 255 ->
  execute_request transport_write transport_is_ready request inputs p st = Some (r, p', st') ->
  exists wss, attempts_made transport_write request (written st) 1 wss r st'.
Proof.
  intros Hm H. unfold execute_request in H.
  pose proof (process_idle_rx_written transport_write request p st) as W.
  destruct (process_idle_rx _ _ _ _) as [p1 st1]. cbn [snd] in W. rewrite <- W.
  apply (attempts_loop_made _ _ _ _ _ _ _ _ _ _) in H; [done|unfold attempts_max..];
    destruct (Z.eqb_spec (max_attempts request) 0); lia.
Qed.


End Theorems.

Lemma sample_run : exists r p st, sample_outcome = Some (r, p, st) /\ resp_result r = AT_RESULT_OK.
Proof. vm_compute. by do 3 eexists. Qed.

Lemma attempt_success_witness :
  exists result r p st, execute_attempt sample_write sample_ready sample_request sample_input
      (set_attempts response_reset 1) at_parser_init engine_zero = Some (result, r, p, st) /\
    result = AT_RESULT_OK /\ written st = [str "AT+CMGS=17" ++ [13]; str "0011" ++ [26]].
Proof.
  do 4 eexists. split; [vm_compute; reflexivity|]. split; [reflexivity|].
  edestruct (attempt_success sample_write sample_ready sample_request sample_input
               (set_attempts response_reset 1) at_parser_init engine_zero)
    as (ws & W & _ & S); [discriminate | vm_compute; reflexivity |].
  destruct (S eq_refl) as (_ & _ & S'). cbn [wait_for_prompt sample_request] in S'.
  destruct S' as [-> _]. exact W.
Defined.

Lemma request_attempts_bounded_witness :
  exists r p st wss, sample_outcome = Some (r, p, st) /\
    attempts_made sample_write sample_request [] 1 wss r st /\ length wss = 1%nat.
Proof.
  do 3 eexists.
  edestruct (request_attempts_bounded sample_write sample_ready sample_request [sample_input]
               at_parser_init engine_zero) as (wss & M);
    [cbn; lia | vm_compute; reflexivity |].
  exists wss. split; [vm_compute; reflexivity|]. split; [exact M|].
  apply (made_once _ _ _ _ _ _ _ M). reflexivity.
Defined.



(** Captured lines come back: [at_response_line] returns the lines
    captured, in order, and nothing behind them; a line that does not fit the
    2048 bytes or the 24 entries is left out and marks the response truncated. *)
Theorem response_lines_roundtrip (ls : list (list Z)) (attempts : Z) :
  Forall bytes ls ->
  let r := fold_left response_capture_line ls (set_attempts response_reset attempts) in
  exists kept, sublist kept (map c_str ls) /\
    (forall i, at_response_line (Some r) i = kept !! i) /\
    (length (resp_data r) <= AT_ENGINE_MAX_RESPONSE_BYTES)%nat /\
    (length (resp_line_offsets r) <= AT_ENGINE_MAX_RESPONSE_LINES)%nat /\
    (resp_truncated r = false -> kept = map c_str ls).
Proof.
  intros Hb r.
  assert (exists kept, captured r kept /\ sublist kept (map c_str ls) /\
            (resp_truncated r = false -> kept = map c_str ls)) as (kept & Hc & Hs & Ht).
  { unfold r. clear r. induction ls as [|l ls IH] using rev_ind.
    - exists []. split; [apply captured_reset|done].
    - apply Forall_app in Hb as [Hb Hl]. inversion Hl; subst. destruct (IH Hb) as (kept & Hc & Hs & Ht).
      rewrite fold_left_app, map_app. cbn [fold_left map].
      destruct (captured_capture _ kept l ltac:(done) Hc) as [[Hc' E] | [Hc' E]].
      + exists (kept ++ [c_str l]). split; [done|]. split; [by apply sublist_app|].
        rewrite E. intros H'. by rewrite (Ht H').
      + exists kept. split; [done|]. split; [by apply sublist_inserts_r|]. congruence. }
  exists kept. pose proof Hc as (_ & _ & H1 & H2 & H3 & _).
  split_and!; [done|intros i; by apply captured_line|done|lia|done].
Qed.

Lemma response_lines_roundtrip_witness :
  at_response_line
    (Some (fold_left response_capture_line [str "+CSQ: 20,99"; str "^MODE"] (set_attempts response_reset 1))) 1
  = Some (str "^MODE").
Proof.
  destruct (response_lines_roundtrip [str "+CSQ: 20,99"; str "^MODE"] 1) as (kept & _ & H & _ & _ & Ht).
  - apply (bool_decide_unpack _). vm_compute. exact I.
  - rewrite H, Ht; reflexivity.
Defined.

(** No silent loss of received bytes: [at_engine_feed_rx] appends to the
    queue a prefix of the data in order; if that is not all of it, the overflow
    epoch moves, which makes the running transaction end in
    [AT_RESULT_RX_OVERFLOW]; and the queue never exceeds its depth. *)
Theorem feed_rx_accounts (data : list Z) (st : at_engine_state_t) :
  exists accepted rest, data = accepted ++ rest /\
    rx_bytes (rx_queue (at_engine_feed_rx data st)) = rx_bytes (rx_queue st) ++ accepted /\
    rx_overflow_epoch (at_engine_feed_rx data st) =
      (if bool_decide (rest = []) then rx_overflow_epoch st else u32 (rx_overflow_epoch st + 1)) /\
    ((length (rx_queue st) <= AT_RX_QUEUE_DEPTH)%nat ->
     (length (rx_queue (at_engine_feed_rx data st)) <= AT_RX_QUEUE_DEPTH)%nat).
Proof. by apply feed_rx_loop_spec. Qed.
