(* ===== verification/SmsMessage.v ===== *)
(** * Messages and their persisted form (components/sms_store)

    [sms_message_t] of sms_store.h, and the packed record that sms_store.c
    keeps in flash: [record_encode] and [record_decode], down to the bytes of
    the blob. *)

From stdpp Require Import base numbers list strings.
From S2P Require Import Prelude.
From S2P Require Import PduEncode.

Open Scope Z_scope.

Definition SMS_STORE_MAX_RECORDS : nat := 128.
Definition SMS_MESSAGE_TEXT_MAX : nat := Z.to_nat 4096.

Inductive sms_direction_t := SMS_DIRECTION_INBOUND | SMS_DIRECTION_OUTBOUND.

Inductive sms_message_status_t :=
  | SMS_MESSAGE_PARTIAL
  | SMS_MESSAGE_RECEIVED
  | SMS_MESSAGE_QUEUED
  | SMS_MESSAGE_SENDING
  | SMS_MESSAGE_SENT
  | SMS_MESSAGE_DELIVERED
  | SMS_MESSAGE_FAILED
  | SMS_MESSAGE_UNSUPPORTED
  | SMS_MESSAGE_UNCERTAIN.

#[global] Instance sms_direction_eq_dec : EqDecision sms_direction_t.
Proof. solve_decision. Defined.
#[global] Instance sms_message_status_eq_dec : EqDecision sms_message_status_t.
Proof. solve_decision. Defined.

(** Character and byte arrays are lists of their full length. *)
Record sms_message_t := mk_message {
  id : Z;
  direction : sms_direction_t;
  status : sms_message_status_t;
  encoding : sms_encoding_t;
  sender : list Z;
  recipient : list Z;
  service_center_timestamp : list Z;
  text : list Z;
  raw_pdu : list Z;
  concat : sms_concat_info_t;
  delivery_report_requested : bool;
  concat_reference : Z;
  segment_count : Z;
  segment_sent_mask : Z;
  segment_delivered_mask : Z;
  segment_failed_mask : Z;
  modem_reference : list Z;
  delivery_status : list Z;
  inflight_segment : Z;
  send_attempts : Z;
  last_modem_error : Z;
}.

#[global] Instance sms_concat_info_eq_dec : EqDecision sms_concat_info_t.
Proof. solve_decision. Defined.
#[global] Instance sms_message_eq_dec : EqDecision sms_message_t.
Proof. solve_decision. Defined.

(** [memset(message, 0, sizeof( *message))] *)
Definition message_zero : sms_message_t :=
  mk_message 0 SMS_DIRECTION_INBOUND SMS_MESSAGE_PARTIAL SMS_ENCODING_GSM7
    (zeros SMS_MAX_ADDRESS_LENGTH) (zeros SMS_MAX_ADDRESS_LENGTH) (zeros 40)
    (zeros SMS_MESSAGE_TEXT_MAX) (zeros SMS_MAX_PDU_HEX) concat_zero false 0 0 0 0 0
    (zeros SMS_MAX_SEGMENTS) (zeros SMS_MAX_SEGMENTS) 0 0 0.

(** ** Enumerations as bytes *)

Definition direction_code (d : sms_direction_t) : Z :=
  match d with SMS_DIRECTION_INBOUND => 0 | SMS_DIRECTION_OUTBOUND => 1 end.

Definition status_code (s : sms_message_status_t) : Z :=
  match s with
  | SMS_MESSAGE_PARTIAL => 0 | SMS_MESSAGE_RECEIVED => 1 | SMS_MESSAGE_QUEUED => 2
  | SMS_MESSAGE_SENDING => 3 | SMS_MESSAGE_SENT => 4 | SMS_MESSAGE_DELIVERED => 5
  | SMS_MESSAGE_FAILED => 6 | SMS_MESSAGE_UNSUPPORTED => 7 | SMS_MESSAGE_UNCERTAIN => 8
  end.

Definition encoding_code (e : sms_encoding_t) : Z :=
  match e with
  | SMS_ENCODING_GSM7 => 0 | SMS_ENCODING_UCS2 => 1 | SMS_ENCODING_8BIT => 2 | SMS_ENCODING_UNKNOWN => 3
  end.

Definition direction_of (z : Z) : sms_direction_t :=
  if z =? 0 then SMS_DIRECTION_INBOUND else SMS_DIRECTION_OUTBOUND.

Definition status_of (z : Z) : sms_message_status_t :=
  match z with
  | 0 => SMS_MESSAGE_PARTIAL | 1 => SMS_MESSAGE_RECEIVED | 2 => SMS_MESSAGE_QUEUED
  | 3 => SMS_MESSAGE_SENDING | 4 => SMS_MESSAGE_SENT | 5 => SMS_MESSAGE_DELIVERED
  | 6 => SMS_MESSAGE_FAILED | 7 => SMS_MESSAGE_UNSUPPORTED | _ => SMS_MESSAGE_UNCERTAIN
  end.

Definition encoding_of (z : Z) : sms_encoding_t :=
  match z with
  | 0 => SMS_ENCODING_GSM7 | 1 => SMS_ENCODING_UCS2 | 2 => SMS_ENCODING_8BIT | _ => SMS_ENCODING_UNKNOWN
  end.

(** ** The persisted record *)

Record persisted_record_t := mk_record {
  r_magic : Z;
  r_version : Z;
  r_size : Z;
  r_id : Z;
  r_direction : Z;
  r_status : Z;
  r_encoding : Z;
  r_delivery_report_requested : Z;
  r_sender : list Z;
  r_recipient : list Z;
  r_service_center_timestamp : list Z;
  r_text : list Z;
  r_raw_pdu : list Z;
  r_concat_present : Z;
  r_concat_is_16bit : Z;
  r_concat_reference : Z;
  r_concat_total_parts : Z;
  r_concat_part_number : Z;
  r_outbound_concat_reference : Z;
  r_segment_count : Z;
  r_segment_sent_mask : Z;
  r_segment_delivered_mask : Z;
  r_segment_failed_mask : Z;
  r_modem_reference : list Z;
  r_delivery_status : list Z;
  r_inflight_segment : Z;
  r_send_attempts : Z;
  r_last_modem_error : Z;
}.

Definition SMS_STORE_RECORD_MAGIC : Z := 0x534D5347.
Definition SMS_STORE_RECORD_VERSION : Z := 1.

(** [sizeof(persisted_record_t)], the structure being packed. *)
Definition RECORD_SIZE : Z := 4606.

Definition b2z (b : bool) : Z := if b then 1 else 0.

Definition record_encode (m : sms_message_t) : persisted_record_t :=
  mk_record SMS_STORE_RECORD_MAGIC SMS_STORE_RECORD_VERSION (u16 RECORD_SIZE) (id m)
    (u8 (direction_code (direction m))) (u8 (status_code (status m))) (u8 (encoding_code (encoding m)))
    (b2z (delivery_report_requested m))
    (sender m) (recipient m) (service_center_timestamp m) (text m) (raw_pdu m)
    (b2z (concat_present (concat m))) (b2z (concat_is_16bit (concat m)))
    (PduEncode.concat_reference (concat m)) (concat_total_parts (concat m)) (concat_part_number (concat m))
    (concat_reference m) (segment_count m) (segment_sent_mask m) (segment_delivered_mask m)
    (segment_failed_mask m) (modem_reference m) (delivery_status m) (inflight_segment m)
    (send_attempts m) (last_modem_error m).

Definition record_decode (r : persisted_record_t) : option sms_message_t :=
  if negb (r_magic r =? SMS_STORE_RECORD_MAGIC) || negb (r_version r =? SMS_STORE_RECORD_VERSION)
     || negb (r_size r =? RECORD_SIZE) || (r_id r =? 0)
     || (1 <? r_direction r) || (8 <? r_status r) || (3 <? r_encoding r)
     || (Z.of_nat SMS_MAX_SEGMENTS <? r_segment_count r)
     || negb (terminated (r_sender r)) || negb (terminated (r_recipient r))
     || negb (terminated (r_service_center_timestamp r)) || negb (terminated (r_text r))
     || negb (terminated (r_raw_pdu r))
  then None
  else Some (mk_message (r_id r) (direction_of (r_direction r)) (status_of (r_status r))
    (encoding_of (r_encoding r)) (r_sender r) (r_recipient r) (r_service_center_timestamp r)
    (r_text r) (r_raw_pdu r)
    (mk_concat (negb (r_concat_present r =? 0)) (negb (r_concat_is_16bit r =? 0))
               (r_concat_reference r) (r_concat_total_parts r) (r_concat_part_number r))
    (negb (r_delivery_report_requested r =? 0)) (r_outbound_concat_reference r)
    (r_segment_count r) (r_segment_sent_mask r) (r_segment_delivered_mask r) (r_segment_failed_mask r)
    (r_modem_reference r) (r_delivery_status r) (r_inflight_segment r) (r_send_attempts r)
    (r_last_modem_error r)).

(** The bytes of the packed structure, little-endian. *)
Definition record_bytes (r : persisted_record_t) : list Z :=
  le 4 (r_magic r) ++ le 2 (r_version r) ++ le 2 (r_size r) ++ le 4 (r_id r) ++ le 1 (r_direction r)
  ++ le 1 (r_status r) ++ le 1 (r_encoding r) ++ le 1 (r_delivery_report_requested r)
  ++ r_sender r ++ r_recipient r ++ r_service_center_timestamp r ++ r_text r ++ r_raw_pdu r
  ++ le 1 (r_concat_present r) ++ le 1 (r_concat_is_16bit r) ++ le 2 (r_concat_reference r)
  ++ le 1 (r_concat_total_parts r) ++ le 1 (r_concat_part_number r)
  ++ le 2 (r_outbound_concat_reference r) ++ le 1 (r_segment_count r) ++ le 2 (r_segment_sent_mask r)
  ++ le 2 (r_segment_delivered_mask r) ++ le 2 (r_segment_failed_mask r)
  ++ r_modem_reference r ++ r_delivery_status r ++ le 1 (r_inflight_segment r)
  ++ le 1 (r_send_attempts r) ++ le 4 (u32 (r_last_modem_error r)).

Definition record_of_bytes (l : list Z) : persisted_record_t :=
  let '(magic, l) := read 4 l in
  let '(version, l) := read 2 l in
  let '(size, l) := read 2 l in
  let '(id, l) := read 4 l in
  let '(direction, l) := read 1 l in
  let '(status, l) := read 1 l in
  let '(encoding, l) := read 1 l in
  let '(report, l) := read 1 l in
  let '(sender, l) := read SMS_MAX_ADDRESS_LENGTH l in
  let '(recipient, l) := read SMS_MAX_ADDRESS_LENGTH l in
  let '(scts, l) := read 40 l in
  let '(text, l) := read SMS_MESSAGE_TEXT_MAX l in
  let '(raw_pdu, l) := read SMS_MAX_PDU_HEX l in
  let '(present, l) := read 1 l in
  let '(is_16bit, l) := read 1 l in
  let '(reference, l) := read 2 l in
  let '(total_parts, l) := read 1 l in
  let '(part_number, l) := read 1 l in
  let '(outbound_reference, l) := read 2 l in
  let '(count, l) := read 1 l in
  let '(sent, l) := read 2 l in
  let '(delivered, l) := read 2 l in
  let '(failed, l) := read 2 l in
  let '(modem_reference, l) := read SMS_MAX_SEGMENTS l in
  let '(delivery_status, l) := read SMS_MAX_SEGMENTS l in
  let '(inflight, l) := read 1 l in
  let '(attempts, l) := read 1 l in
  let '(error, l) := read 4 l in
  mk_record (le_value magic) (le_value version) (le_value size) (le_value id) (le_value direction)
    (le_value status) (le_value encoding) (le_value report) sender recipient scts text raw_pdu
    (le_value present) (le_value is_16bit) (le_value reference) (le_value total_parts)
    (le_value part_number) (le_value outbound_reference) (le_value count) (le_value sent)
    (le_value delivered) (le_value failed) modem_reference delivery_status (le_value inflight)
    (le_value attempts) (to_int32 (le_value error)).

(** ** Well-formed messages *)

Definition uint8 (z : Z) : Prop := 0 <= z < 256.
Definition uint16 (z : Z) : Prop := 0 <= z < 65536.
Definition uint32 (z : Z) : Prop := 0 <= z < 4294967296.

(** Arrays have their length and hold bytes; integers fit their types. *)
Record message_ok (m : sms_message_t) : Prop := {
  ok_id : uint32 (id m);
  ok_sender : length (sender m) = SMS_MAX_ADDRESS_LENGTH /\ bytes (sender m);
  ok_recipient : length (recipient m) = SMS_MAX_ADDRESS_LENGTH /\ bytes (recipient m);
  ok_timestamp : length (service_center_timestamp m) = 40%nat /\ bytes (service_center_timestamp m);
  ok_text : length (text m) = SMS_MESSAGE_TEXT_MAX /\ bytes (text m);
  ok_raw_pdu : length (raw_pdu m) = SMS_MAX_PDU_HEX /\ bytes (raw_pdu m);
  ok_concat : uint16 (PduEncode.concat_reference (concat m)) /\ uint8 (concat_total_parts (concat m)) /\
              uint8 (concat_part_number (concat m));
  ok_reference : uint16 (concat_reference m);
  ok_count : uint8 (segment_count m);
  ok_masks : uint16 (segment_sent_mask m) /\ uint16 (segment_delivered_mask m) /\
             uint16 (segment_failed_mask m);
  ok_modem_reference : length (modem_reference m) = SMS_MAX_SEGMENTS /\ bytes (modem_reference m);
  ok_delivery_status : length (delivery_status m) = SMS_MAX_SEGMENTS /\ bytes (delivery_status m);
  ok_inflight : uint8 (inflight_segment m);
  ok_attempts : uint8 (send_attempts m);
  ok_error : int32 (last_modem_error m);
}.

(** What [sms_store_save] asks of a message before it writes it. *)
Definition storable (m : sms_message_t) : bool :=
  terminated (text m) && terminated (sender m) && terminated (recipient m)
  && terminated (service_center_timestamp m) && terminated (raw_pdu m)
  && (segment_count m <=? Z.of_nat SMS_MAX_SEGMENTS).

Lemma record_bytes_length m :
  message_ok m -> Z.of_nat (length (record_bytes (record_encode m))) = RECORD_SIZE.
Proof.
  intros []. destruct_and?. unfold record_bytes, record_encode. cbn -[le length app RECORD_SIZE].
  rewrite !length_app, !le_length.
  repeat match goal with H : length _ = _ |- _ => rewrite H; clear H end.
  vm_compute. reflexivity.
Qed.

Lemma record_of_bytes_record m :
  message_ok m -> record_of_bytes (record_bytes (record_encode m)) = record_encode m.
Proof.
  intros []. destruct_and?. unfold record_bytes, record_of_bytes.
  repeat (rewrite read_app by (apply le_length || assumption)).
  rewrite read_all by apply le_length.
  unfold record_encode. cbn -[le le_value SMS_STORE_RECORD_MAGIC u16 u8 u32 to_int32].
  assert (forall b, 0 <= b2z b < 256) by (intros []; cbn; lia).
  assert (forall x, 0 <= u8 x < 256) by (intros x; apply Z.mod_pos_bound; lia).
  assert (forall x, 0 <= u16 x < 65536) by (intros x; apply Z.mod_pos_bound; lia).
  assert (forall x, 0 <= u32 x < 4294967296) by (intros x; apply Z.mod_pos_bound; lia).
  rewrite !le_value_le; [by rewrite to_int32_u32|..];
    change (256 ^ Z.of_nat 1) with 256; change (256 ^ Z.of_nat 2) with 65536;
    change (256 ^ Z.of_nat 4) with 4294967296; auto.
  all: unfold SMS_STORE_RECORD_MAGIC, SMS_STORE_RECORD_VERSION; lia.
Qed.

Lemma direction_of_code d : direction_of (u8 (direction_code d)) = d.
Proof. by destruct d. Qed.
Lemma status_of_code s : status_of (u8 (status_code s)) = s.
Proof. by destruct s. Qed.
Lemma encoding_of_code e : encoding_of (u8 (encoding_code e)) = e.
Proof. by destruct e. Qed.
Lemma b2z_test b : negb (b2z b =? 0) = b.
Proof. by destruct b. Qed.

Lemma codes_in_range m :
  (1 <? u8 (direction_code (direction m))) = false /\ (8 <? u8 (status_code (status m))) = false /\
  (3 <? u8 (encoding_code (encoding m))) = false.
Proof. by destruct (direction m), (status m), (encoding m). Qed.

Lemma record_roundtrip_core (m : sms_message_t) :
  message_ok m -> id m <> 0 -> storable m = true ->
  record_decode (record_of_bytes (record_bytes (record_encode m))) = Some m.
Proof.
  intros Hok Hid Hs. rewrite record_of_bytes_record by done.
  unfold storable in Hs. boolify.
  unfold record_decode. destruct (codes_in_range m) as (Hd & Hst & He).
  cbn -[SMS_STORE_RECORD_MAGIC RECORD_SIZE u16 u8 b2z SMS_MAX_SEGMENTS Z.ltb terminated].
  rewrite !Z.eqb_refl, Hd, Hst, He. change (u16 RECORD_SIZE =? RECORD_SIZE) with true.
  destruct (Z.eqb_spec (id m) 0); [done|]. destruct (Z.ltb_spec (Z.of_nat SMS_MAX_SEGMENTS) (segment_count m)); [lia|].
  repeat match goal with H : terminated _ = true |- _ => rewrite H; clear H end. cbn [negb orb].
  rewrite direction_of_code, status_of_code, encoding_of_code, !b2z_test. f_equal.
  clear. destruct m as [? ? ? ? ? ? ? ? ? [] ? ? ? ? ? ? ? ? ? ? ?]. cbn. reflexivity.
Qed.

(** Messages survive flash: a well-formed message with an identifier that
    [sms_store_save] accepts is encoded into 4606 bytes that decode to the same
    message, every field and every array included. *)
Theorem record_roundtrip (m : sms_message_t) :
  message_ok m -> id m <> 0 -> storable m = true ->
  Z.of_nat (length (record_bytes (record_encode m))) = RECORD_SIZE /\
  record_decode (record_of_bytes (record_bytes (record_encode m))) = Some m.
Proof. intros Hok Hid Hs. split; [by apply record_bytes_length|by apply record_roundtrip_core]. Qed.

(** A received message, for the examples. *)
Definition sample_message (n : Z) (s : sms_message_status_t) : sms_message_t :=
  mk_message n SMS_DIRECTION_INBOUND s SMS_ENCODING_GSM7
    (snprintf_s (zeros SMS_MAX_ADDRESS_LENGTH) (str "+491701234")) (zeros SMS_MAX_ADDRESS_LENGTH)
    (snprintf_s (zeros 40) (str "2024-05-01T10:00:00+02:00"))
    (snprintf_s (zeros SMS_MESSAGE_TEXT_MAX) (str "Hello")) (zeros SMS_MAX_PDU_HEX)
    concat_zero false 0 0 0 0 0 (zeros SMS_MAX_SEGMENTS) (zeros SMS_MAX_SEGMENTS) 0 0 (-1).

(** A decidable fact, by evaluation. *)
Ltac evaluate := apply (bool_decide_unpack _); vm_compute; exact I.

Lemma sample_message_ok n s : uint32 n -> message_ok (sample_message n s).
Proof.
  intros Hn. constructor; unfold uint8, uint16, int32, bytes; cbn [id sender recipient
    service_center_timestamp text raw_pdu concat concat_reference segment_count segment_sent_mask
    segment_delivered_mask segment_failed_mask modem_reference delivery_status inflight_segment
    send_attempts last_modem_error sample_message]; try done; evaluate.
Qed.

Lemma record_roundtrip_witness :
  record_decode (record_of_bytes (record_bytes (record_encode (sample_message 7 SMS_MESSAGE_RECEIVED))))
  = Some (sample_message 7 SMS_MESSAGE_RECEIVED).
Proof.
  apply record_roundtrip; [apply sample_message_ok; unfold uint32; lia | discriminate | reflexivity].
Defined.
