(* ===== verification/Nvs.v ===== *)
(** * The flash key-value store, as an interface

    ESP-IDF's NVS is not code of this program.  [Nvs] is the operations the
    store and the idempotency journal call, [NvsLaws] what their documentation
    promises: a write that returns [ESP_OK] is read back, one that fails leaves
    the old or the new value, and no other key is touched.  [MemNvs] is an
    instance in memory, with a list of failures to come. *)

From stdpp Require Import base numbers list strings gmap.
From S2P Require Import Prelude.

Open Scope Z_scope.

Class Nvs (N : Type) := {
  (** The blob, or the error; a blob longer than the buffer is an error. *)
  nvs_get_blob : N -> list Z -> nat -> esp_err_t + list Z;
  nvs_set_blob : N -> list Z -> list Z -> N * esp_err_t;
  nvs_get_u32 : N -> list Z -> esp_err_t + Z;
  nvs_set_u32 : N -> list Z -> Z -> N * esp_err_t;
  nvs_erase_key : N -> list Z -> N * esp_err_t;
  nvs_commit : N -> N * esp_err_t;
}.

(** The reads are described by what is stored under the keys. *)
Class NvsLaws (N : Type) `{Nvs N} := {
  blob_at : N -> list Z -> option (list Z);
  u32_at : N -> list Z -> option Z;
  get_blob_spec n k max :
    nvs_get_blob n k max =
      match blob_at n k with
      | None => inl ESP_ERR_NVS_NOT_FOUND
      | Some b => if (length b <=? max)%nat then inr b else inl (ESP_ERR_OTHER 0x110c)
      end;
  get_u32_spec n k :
    nvs_get_u32 n k = match u32_at n k with None => inl ESP_ERR_NVS_NOT_FOUND | Some v => inr v end;
  set_blob_ok n k b n' : nvs_set_blob n k b = (n', ESP_OK) -> blob_at n' k = Some b;
  set_blob_any n k b n' e : nvs_set_blob n k b = (n', e) ->
    (blob_at n' k = blob_at n k \/ blob_at n' k = Some b) /\
    (forall k', k' <> k -> blob_at n' k' = blob_at n k') /\ (forall k', k' <> k -> u32_at n' k' = u32_at n k');
  set_u32_ok n k v n' : nvs_set_u32 n k v = (n', ESP_OK) -> u32_at n' k = Some v;
  set_u32_any n k v n' e : nvs_set_u32 n k v = (n', e) ->
    (u32_at n' k = u32_at n k \/ u32_at n' k = Some v) /\
    (forall k', k' <> k -> blob_at n' k' = blob_at n k') /\ (forall k', k' <> k -> u32_at n' k' = u32_at n k');
  erase_ok n k n' : nvs_erase_key n k = (n', ESP_OK) -> blob_at n' k = None;
  erase_any n k n' e : nvs_erase_key n k = (n', e) ->
    (blob_at n' k = blob_at n k \/ blob_at n' k = None) /\
    (forall k', k' <> k -> blob_at n' k' = blob_at n k') /\ (forall k', k' <> k -> u32_at n' k' = u32_at n k');
  commit_any n n' e : nvs_commit n = (n', e) ->
    (forall k, blob_at n' k = blob_at n k) /\ (forall k, u32_at n' k = u32_at n k);
}.

(** ** An instance in memory *)

(** [faults] says of each write to come whether it fails. *)
Record mem_nvs := mk_mem {
  mem_blobs : gmap (list Z) (list Z);
  mem_u32s : gmap (list Z) Z;
  mem_faults : list bool;
}.

Definition mem_write (n : mem_nvs) (f : mem_nvs -> mem_nvs) : mem_nvs * esp_err_t :=
  match mem_faults n with
  | true :: faults => (mk_mem (mem_blobs n) (mem_u32s n) faults, ESP_ERR_NVS_NOT_ENOUGH_SPACE)
  | _ :: faults => (f (mk_mem (mem_blobs n) (mem_u32s n) faults), ESP_OK)
  | [] => (f n, ESP_OK)
  end.

Definition mem_erase (n : mem_nvs) (k : list Z) : mem_nvs * esp_err_t :=
  match mem_blobs n !! k with
  | None => (n, ESP_ERR_NVS_NOT_FOUND)
  | Some _ => mem_write n (fun n => mk_mem (delete k (mem_blobs n)) (mem_u32s n) (mem_faults n))
  end.

#[export] Instance MemNvs : Nvs mem_nvs := {
  nvs_get_blob n k max :=
    match mem_blobs n !! k with
    | None => inl ESP_ERR_NVS_NOT_FOUND
    | Some b => if (length b <=? max)%nat then inr b else inl (ESP_ERR_OTHER 0x110c)
    end;
  nvs_set_blob n k b := mem_write n (fun n => mk_mem (<[k := b]> (mem_blobs n)) (mem_u32s n) (mem_faults n));
  nvs_get_u32 n k := match mem_u32s n !! k with None => inl ESP_ERR_NVS_NOT_FOUND | Some v => inr v end;
  nvs_set_u32 n k v := mem_write n (fun n => mk_mem (mem_blobs n) (<[k := v]> (mem_u32s n)) (mem_faults n));
  nvs_erase_key := mem_erase;
  nvs_commit n := mem_write n (fun n => n);
}.

Definition mem_empty : mem_nvs := mk_mem ∅ ∅ [].

Lemma mem_write_cases n f n' e :
  mem_write n f = (n', e) ->
  (exists faults, n' = mk_mem (mem_blobs n) (mem_u32s n) faults /\ e <> ESP_OK) \/
  (exists faults, n' = f (mk_mem (mem_blobs n) (mem_u32s n) faults) /\ e = ESP_OK).
Proof.
  unfold mem_write. destruct n as [b u [|[] faults]]; cbn; intros [= <- <-];
    [right; by eexists|left; by eexists|right; by eexists].
Qed.

#[export] Program Instance MemNvsLaws : NvsLaws mem_nvs := {
  blob_at n k := mem_blobs n !! k;
  u32_at n k := mem_u32s n !! k;
}.
Next Obligation. done. Qed.
Next Obligation. done. Qed.
Next Obligation.
  intros n k b n' H. apply mem_write_cases in H as [(f & -> & ?) | (f & -> & _)]; [done|].
  cbn. by rewrite lookup_insert_eq.
Qed.
Next Obligation.
  intros n k b n' e H. apply mem_write_cases in H as [(f & -> & _) | (f & -> & _)]; cbn; [by auto|].
  split_and!; [right; by rewrite lookup_insert_eq| |done]. intros k' Hk. by rewrite lookup_insert_ne.
Qed.
Next Obligation.
  intros n k b n' H. apply mem_write_cases in H as [(f & -> & ?) | (f & -> & _)]; [done|].
  cbn. by rewrite lookup_insert_eq.
Qed.
Next Obligation.
  intros n k b n' e H. apply mem_write_cases in H as [(f & -> & _) | (f & -> & _)]; cbn; [by auto|].
  split_and!; [right; by rewrite lookup_insert_eq|done|]. intros k' Hk. by rewrite lookup_insert_ne.
Qed.
Next Obligation.
  intros n k n' H. cbn in H. unfold mem_erase in H. destruct (mem_blobs n !! k) eqn:E; [|by injection H as <-].
  apply mem_write_cases in H as [(f & -> & ?) | (f & -> & _)]; [done|]. cbn. by rewrite lookup_delete_eq.
Qed.
Next Obligation.
  intros n k n' e H. cbn in H. unfold mem_erase in H.
  destruct (mem_blobs n !! k) eqn:E; [|injection H as <- <-; auto].
  apply mem_write_cases in H as [(f & -> & _) | (f & -> & _)]; cbn; [rewrite E; by auto|].
  split_and!; [right; by rewrite lookup_delete_eq| |done]. intros k' Hk. by rewrite lookup_delete_ne.
Qed.
Next Obligation.
  intros n n' e H. by apply mem_write_cases in H as [(f & -> & _) | (f & -> & _)].
Qed.

(** ** The strings of the flash key-value store, as an interface

    The operations of NVS on strings, with the name space as an argument where
    the code passes a handle.  [NvsStrings] is the operations, [NvsStringsLaws]
    what their documentation promises, [MemStrings] an instance in memory. *)

Class NvsStrings (N : Type) := {
  (** [nvs_open]: [true] for [NVS_READWRITE]. *)
  nvs_open : N -> list Z -> bool -> N * esp_err_t;
  (** The string, if it fits the buffer with its terminator. *)
  nvs_get_str : N -> list Z -> list Z -> nat -> esp_err_t + list Z;
  nvs_set_str : N -> list Z -> list Z -> list Z -> N * esp_err_t;
  nvs_erase_str : N -> list Z -> list Z -> N * esp_err_t;
  nvs_commit_str : N -> list Z -> N * esp_err_t;
}.

Class NvsStringsLaws (N : Type) `{NvsStrings N} := {
  str_at : N -> list Z -> list Z -> option (list Z);
  get_str_spec n ns k size :
    nvs_get_str n ns k size =
      match str_at n ns k with
      | None => inl ESP_ERR_NVS_NOT_FOUND
      | Some s => if (length s + 1 <=? size)%nat then inr s else inl (ESP_ERR_OTHER 0x110c)
      end;
  open_str_any n ns w n' e : nvs_open n ns w = (n', e) -> forall ns' k, str_at n' ns' k = str_at n ns' k;
  set_str_ok n ns k s n' : nvs_set_str n ns k s = (n', ESP_OK) -> str_at n' ns k = Some s;
  set_str_any n ns k s n' e : nvs_set_str n ns k s = (n', e) ->
    (str_at n' ns k = str_at n ns k \/ str_at n' ns k = Some s) /\
    (forall ns' k', (ns', k') <> (ns, k) -> str_at n' ns' k' = str_at n ns' k');
  erase_str_ok n ns k n' : nvs_erase_str n ns k = (n', ESP_OK) -> str_at n' ns k = None;
  erase_str_any n ns k n' e : nvs_erase_str n ns k = (n', e) ->
    (str_at n' ns k = str_at n ns k \/ str_at n' ns k = None) /\
    (forall ns' k', (ns', k') <> (ns, k) -> str_at n' ns' k' = str_at n ns' k');
  commit_str_any n ns n' e : nvs_commit_str n ns = (n', e) -> forall ns' k, str_at n' ns' k = str_at n ns' k;
}.

(** ** An instance in memory *)

(** [ms_faults] says of each operation to come whether it fails. *)
Record mem_strings := mk_mem_strings {
  ms_strings : gmap (list Z * list Z) (list Z);
  ms_faults : list bool;
}.

Definition ms_step (n : mem_strings) (f : gmap (list Z * list Z) (list Z) -> gmap (list Z * list Z) (list Z))
  : mem_strings * esp_err_t :=
  match ms_faults n with
  | true :: faults => (mk_mem_strings (ms_strings n) faults, ESP_ERR_NVS_NOT_ENOUGH_SPACE)
  | false :: faults => (mk_mem_strings (f (ms_strings n)) faults, ESP_OK)
  | [] => (mk_mem_strings (f (ms_strings n)) [], ESP_OK)
  end.

Definition ms_erase (n : mem_strings) (ns k : list Z) : mem_strings * esp_err_t :=
  match ms_strings n !! (ns, k) with
  | None => (n, ESP_ERR_NVS_NOT_FOUND)
  | Some _ => ms_step n (delete (ns, k))
  end.

#[export] Instance MemStrings : NvsStrings mem_strings := {
  nvs_open n _ _ := ms_step n id;
  nvs_get_str n ns k size :=
    match ms_strings n !! (ns, k) with
    | None => inl ESP_ERR_NVS_NOT_FOUND
    | Some s => if (length s + 1 <=? size)%nat then inr s else inl (ESP_ERR_OTHER 0x110c)
    end;
  nvs_set_str n ns k s := ms_step n (insert (ns, k) s);
  nvs_erase_str := ms_erase;
  nvs_commit_str n _ := ms_step n id;
}.

Definition ms_empty : mem_strings := mk_mem_strings ∅ [].

Lemma ms_step_cases n f n' e :
  ms_step n f = (n', e) -> (e = ESP_OK /\ ms_strings n' = f (ms_strings n)) \/ (e <> ESP_OK /\ ms_strings n' = ms_strings n).
Proof. unfold ms_step. destruct (ms_faults n) as [|[] ?]; intros [= <- <-]; cbn; auto. Qed.

#[export] Program Instance MemStringsLaws : NvsStringsLaws mem_strings := {
  str_at n ns k := ms_strings n !! (ns, k);
}.
Next Obligation. done. Qed.
Next Obligation. intros n ns w n' e H ns' k. by apply ms_step_cases in H as [[_ ->]|[_ ->]]. Qed.
Next Obligation.
  intros n ns k s n' H. apply ms_step_cases in H as [[_ ->]|[? _]]; [|done]. by rewrite lookup_insert_eq.
Qed.
Next Obligation.
  intros n ns k s n' e H. apply ms_step_cases in H as [[_ ->]|[_ ->]]; [|by auto].
  split; [right; by rewrite lookup_insert_eq|]. intros ns' k' Hk. by rewrite lookup_insert_ne by congruence.
Qed.
Next Obligation.
  intros n ns k n' H. cbn in H. unfold ms_erase in H.
  destruct (ms_strings n !! (ns, k)) eqn:E; [|by injection H as <-].
  apply ms_step_cases in H as [[_ ->]|[? _]]; [|done]. by rewrite lookup_delete_eq.
Qed.
Next Obligation.
  intros n ns k n' e H. cbn in H. unfold ms_erase in H.
  destruct (ms_strings n !! (ns, k)) eqn:E; [|injection H as <- <-; auto].
  apply ms_step_cases in H as [[_ ->]|[_ ->]]; [|rewrite E; by auto].
  split; [right; by rewrite lookup_delete_eq|]. intros ns' k' Hk. by rewrite lookup_delete_ne by congruence.
Qed.
Next Obligation. intros n ns n' e H ns' k. by apply ms_step_cases in H as [[_ ->]|[_ ->]]. Qed.

(** The same without failures. *)
Abbreviation string_map := (gmap (list Z * list Z) (list Z)).

#[export] Instance MapStrings : NvsStrings string_map := {
  nvs_open n _ _ := (n, ESP_OK);
  nvs_get_str n ns k size :=
    match n !! (ns, k) with
    | None => inl ESP_ERR_NVS_NOT_FOUND
    | Some s => if (length s + 1 <=? size)%nat then inr s else inl (ESP_ERR_OTHER 0x110c)
    end;
  nvs_set_str n ns k s := (<[(ns, k) := s]> n, ESP_OK);
  nvs_erase_str n ns k := (delete (ns, k) n, if bool_decide (n !! (ns, k) = None) then ESP_ERR_NVS_NOT_FOUND else ESP_OK);
  nvs_commit_str n _ := (n, ESP_OK);
}.

#[export] Program Instance MapStringsLaws : NvsStringsLaws string_map := {
  str_at n ns k := n !! (ns, k);
}.
Next Obligation. done. Qed.
Next Obligation. by intros n ns w n' e [= <- <-]. Qed.
Next Obligation. intros n ns k s n' [= <-]. by rewrite lookup_insert_eq. Qed.
Next Obligation.
  intros n ns k s n' e [= <- <-]. split; [right; by rewrite lookup_insert_eq|].
  intros ns' k' Hk. by rewrite lookup_insert_ne by congruence.
Qed.
Next Obligation. intros n ns k n' [= <- _]. by rewrite lookup_delete_eq. Qed.
Next Obligation.
  intros n ns k n' e [= <- _]. split; [right; by rewrite lookup_delete_eq|].
  intros ns' k' Hk. by rewrite lookup_delete_ne by congruence.
Qed.
Next Obligation. by intros n ns n' e [= <- <-]. Qed.
