(* ===== verification/SmsStore.v ===== *)
(** * The durable message store (components/sms_store/sms_store.c)

    128 slots in NVS, each empty or one packed record.  All operations run
    under the store's mutex, so each is one atomic function on the state.  A
    result pointer is a component of the result, so that the checks that it is
    not NULL do not appear; [s_scan_record] is the message that [load_slot]
    returns. *)

From stdpp Require Import base numbers list strings.
From S2P Require Import Prelude.
From S2P Require Import PduEncode.
From S2P Require Import SmsMessage.
From S2P Require Import Nvs.

Open Scope Z_scope.

Section Store.

Context {N : Type} `{Nvs N}.

Record sms_store := mk_store {
  s_handle : N;
  s_initialized : bool;
  s_pruned_records : Z;
  s_capacity_failures : Z;
  s_replay_watermark : Z;
  s_replay_protection_enabled : bool;
}.

Definition set_handle (st : sms_store) (n : N) : sms_store :=
  mk_store n (s_initialized st) (s_pruned_records st) (s_capacity_failures st)
           (s_replay_watermark st) (s_replay_protection_enabled st).

(** ** Slots *)

(** [snprintf(key, 8, "s%03u", slot)] for the slots that exist. *)
Definition slot_key (slot : nat) : list Z :=
  let n := Z.of_nat slot in
  [115; 48 + n / 100 mod 10; 48 + n / 10 mod 10; 48 + n mod 10].

(** The error, or the message of an occupied slot. *)
Definition load_slot (n : N) (slot : nat) : esp_err_t + option sms_message_t :=
  match nvs_get_blob n (slot_key slot) (Z.to_nat RECORD_SIZE) with
  | inl e => if bool_decide (e = ESP_ERR_NVS_NOT_FOUND) then inr None else inl e
  | inr blob =>
      if negb (Z.of_nat (length blob) =? RECORD_SIZE) then inl ESP_ERR_INVALID_RESPONSE
      else match record_decode (record_of_bytes blob) with
           | None => inl ESP_ERR_INVALID_RESPONSE
           | Some m => inr (Some m)
           end
  end.

Definition write_slot (n : N) (slot : nat) (m : sms_message_t) : N * esp_err_t :=
  let '(n, err) := nvs_set_blob n (slot_key slot) (record_bytes (record_encode m)) in
  if bool_decide (err <> ESP_OK) then (n, err) else nvs_commit n.

(** What the body of a loop over the slots does next. *)
Inductive step (A : Type) := Continue (a : A) | Break (a : A).
Arguments Continue {A} a.
Arguments Break {A} a.

(** [for (slot = first; ...; ++slot)] over [count] slots, each loaded first:
    an error that [load_slot] returns ends the loop. *)
Fixpoint for_slots {A} (n : N) (body : nat -> option sms_message_t -> A -> step A)
    (first count : nat) (a : A) : esp_err_t + A :=
  match count with
  | O => inr a
  | S count' =>
      match load_slot n first with
      | inl e => inl e
      | inr slot =>
          match body first slot a with
          | Break a => inr a
          | Continue a => for_slots n body (S first) count' a
          end
      end
  end.

Definition all_slots {A} (n : N) (body : nat -> option sms_message_t -> A -> step A) (a : A) : esp_err_t + A :=
  for_slots n body 0 SMS_STORE_MAX_RECORDS a.

(** The first slot, with its message, that satisfies a test; [err] when none does. *)
Definition first_slot (n : N) (test : option sms_message_t -> bool) (err : esp_err_t)
  : esp_err_t + nat * option sms_message_t :=
  match all_slots n (fun slot o a => if test o then Break (Some (slot, o)) else Continue a) None with
  | inl e => inl e
  | inr None => inl err
  | inr (Some r) => inr r
  end.

Definition find_id_slot (n : N) (id : Z) : esp_err_t + nat :=
  match first_slot n (fun o => match o with Some m => SmsMessage.id m =? id | None => false end)
          ESP_ERR_NOT_FOUND with
  | inl e => inl e
  | inr (slot, _) => inr slot
  end.

Definition find_empty_slot (n : N) : esp_err_t + nat :=
  match first_slot n (fun o => match o with Some _ => false | None => true end) ESP_ERR_NO_MEM with
  | inl e => inl e
  | inr (slot, _) => inr slot
  end.

Definition record_prunable (st : sms_store) (m : sms_message_t) : bool :=
  match status m with
  | SMS_MESSAGE_RECEIVED => negb (s_replay_protection_enabled st) || (id m <=? s_replay_watermark st)
  | SMS_MESSAGE_SENT => negb (delivery_report_requested m)
  | SMS_MESSAGE_DELIVERED | SMS_MESSAGE_FAILED | SMS_MESSAGE_UNSUPPORTED => true
  | _ => false
  end.

(** The search for the smallest identifier below [UINT32_MAX] that passes a
    test: the candidate is its identifier and slot. *)
Definition oldest_step (test : sms_message_t -> bool) (slot : nat) (o : option sms_message_t)
    (best : option (Z * nat)) : step (option (Z * nat)) :=
  match o with
  | Some m =>
      let oldest_id := match best with Some (i, _) => i | None => UINT32_MAX end in
      if test m && (id m <? oldest_id) then Continue (Some (id m, slot)) else Continue best
  | None => Continue best
  end.

Definition oldest_slot (n : N) (test : sms_message_t -> bool) (err : esp_err_t) : esp_err_t + nat :=
  match all_slots n (oldest_step test) None with
  | inl e => inl e
  | inr None => inl err
  | inr (Some (_, slot)) => inr slot
  end.

Definition find_prunable_slot (st : sms_store) : esp_err_t + nat :=
  oldest_slot (s_handle st) (record_prunable st) ESP_ERR_NO_MEM.

Definition erase_slot (n : N) (slot : nat) : N * esp_err_t :=
  let '(n, err) := nvs_erase_key n (slot_key slot) in
  if bool_decide (err = ESP_OK) then nvs_commit n else (n, err).

Definition next_id_key : list Z := str "next_id".

(** The state, what is left in [*id_out] if it was written, and the error. *)
Definition allocate_id (n : N) : N * option Z * esp_err_t :=
  match (match nvs_get_u32 n next_id_key with
         | inr v => inr v
         | inl e => if bool_decide (e = ESP_ERR_NVS_NOT_FOUND) then inr 1 else inl e
         end) with
  | inl e => (n, None, e)
  | inr next =>
      let next := if next =? 0 then 1 else next in
      let id_out := next in
      let next := u32 (next + 1) in
      let next := if next =? 0 then 1 else next in
      let '(n, err) := nvs_set_u32 n next_id_key next in
      (n, Some id_out, err)
  end.

(** ** Operations *)

Definition sms_store_init (st : sms_store) (flash_init open : esp_err_t) (handle : N) (mutex_created : bool)
  : sms_store * esp_err_t :=
  if s_initialized st then (st, ESP_ERR_INVALID_STATE)
  else if bool_decide (flash_init <> ESP_OK) then (st, flash_init)
  else if bool_decide (open <> ESP_OK) then (st, open)
  else if negb mutex_created then (set_handle st handle, ESP_ERR_NO_MEM)
  else (mk_store handle true (s_pruned_records st) (s_capacity_failures st)
                 (s_replay_watermark st) (s_replay_protection_enabled st), ESP_OK).

Definition set_id (m : sms_message_t) (i : Z) : sms_message_t :=
  mk_message i (direction m) (status m) (encoding m) (sender m) (recipient m)
    (service_center_timestamp m) (text m) (raw_pdu m) (concat m) (delivery_report_requested m)
    (concat_reference m) (segment_count m) (segment_sent_mask m) (segment_delivered_mask m)
    (segment_failed_mask m) (modem_reference m) (delivery_status m) (inflight_segment m)
    (send_attempts m) (last_modem_error m).

Definition bump_pruned (st : sms_store) : sms_store :=
  mk_store (s_handle st) (s_initialized st) (u32 (s_pruned_records st + 1)) (s_capacity_failures st)
           (s_replay_watermark st) (s_replay_protection_enabled st).

Definition bump_capacity (st : sms_store) : sms_store :=
  mk_store (s_handle st) (s_initialized st) (s_pruned_records st) (u32 (s_capacity_failures st + 1))
           (s_replay_watermark st) (s_replay_protection_enabled st).

(** The slot for a new record: an empty one, or the one whose record is pruned. *)
Definition new_slot (st : sms_store) : sms_store * (esp_err_t + nat) :=
  match find_empty_slot (s_handle st) with
  | inl e =>
      if bool_decide (e = ESP_ERR_NO_MEM) then
        match find_prunable_slot st with
        | inl e => (st, inl e)
        | inr slot =>
            let '(n, err) := erase_slot (s_handle st) slot in
            let st := set_handle st n in
            if bool_decide (err = ESP_OK) then (bump_pruned st, inr slot) else (st, inl err)
        end
      else (st, inl e)
  | inr slot => (st, inr slot)
  end.

(** The state, [*message] and the error. *)
Definition sms_store_save (st : sms_store) (m : sms_message_t) : sms_store * sms_message_t * esp_err_t :=
  if negb (s_initialized st) then (st, m, ESP_ERR_INVALID_STATE)
  else if negb (storable m) then (st, m, ESP_ERR_INVALID_ARG)
  else
    let is_new := id m =? 0 in
    let '(st, m, slot) :=
      if is_new then
        match new_slot st with
        | (st, inr slot) =>
            let '(n, id_out, err) := allocate_id (s_handle st) in
            (set_handle st n, set_id m (default (id m) id_out),
             if bool_decide (err = ESP_OK) then inr slot else inl err)
        | (st, inl e) =>
            (if bool_decide (e = ESP_ERR_NO_MEM) then bump_capacity st else st, m, inl e)
        end
      else
        (st, m, match find_id_slot (s_handle st) (id m) with
                | inl e => if bool_decide (e = ESP_ERR_NOT_FOUND) then find_empty_slot (s_handle st) else inl e
                | inr slot => inr slot
                end) in
    match slot with
    | inl e => (st, m, e)
    | inr slot =>
        let '(n, err) := write_slot (s_handle st) slot m in
        (set_handle st n, if bool_decide (err <> ESP_OK) && is_new then set_id m 0 else m, err)
    end.

(** [load_slot(slot, out, NULL)]: an empty slot leaves [*out] and returns
    [ESP_OK]; it cannot be empty here. *)
Definition load_found (n : N) (slot : nat) : esp_err_t + sms_message_t :=
  match load_slot n slot with
  | inl e => inl e
  | inr None => inl ESP_OK
  | inr (Some m) => inr m
  end.

Definition sms_store_get (st : sms_store) (i : Z) : esp_err_t + sms_message_t :=
  if negb (s_initialized st) || (i =? 0) then inl ESP_ERR_INVALID_ARG
  else match find_id_slot (s_handle st) i with
       | inl e => inl e
       | inr slot => load_found (s_handle st) slot
       end.

Definition sms_store_delete (st : sms_store) (i : Z) : sms_store * esp_err_t :=
  if negb (s_initialized st) || (i =? 0) then (st, ESP_ERR_INVALID_ARG)
  else match find_id_slot (s_handle st) i with
       | inl e => (st, e)
       | inr slot => let '(n, err) := erase_slot (s_handle st) slot in (set_handle st n, err)
       end.

Definition sms_store_find_status (st : sms_store) (s : sms_message_status_t) : esp_err_t + sms_message_t :=
  if negb (s_initialized st) then inl ESP_ERR_INVALID_ARG
  else match oldest_slot (s_handle st) (fun m => bool_decide (status m = s)) ESP_ERR_NOT_FOUND with
       | inl e => inl e
       | inr slot => load_found (s_handle st) slot
       end.

(** The first message that passes a test. *)
Definition find_first (st : sms_store) (test : sms_message_t -> bool) : esp_err_t + sms_message_t :=
  match first_slot (s_handle st) (fun o => match o with Some m => test m | None => false end)
          ESP_ERR_NOT_FOUND with
  | inl e => inl e
  | inr (_, Some m) => inr m
  | inr (_, None) => inl ESP_ERR_NOT_FOUND
  end.

Definition is_inbound (m : sms_message_t) : bool := bool_decide (direction m = SMS_DIRECTION_INBOUND).

Definition partial_matches (sender0 : list Z) (reference total_parts part_number : Z) (m : sms_message_t) : bool :=
  is_inbound m && bool_decide (status m = SMS_MESSAGE_PARTIAL) && concat_present (concat m)
  && (PduEncode.concat_reference (concat m) =? reference) && (concat_total_parts (concat m) =? total_parts)
  && (concat_part_number (concat m) =? part_number) && streq (sender m) sender0.

Definition sms_store_find_partial (st : sms_store) (sender0 : option (list Z))
    (reference total_parts part_number : Z) : esp_err_t + sms_message_t :=
  match sender0 with
  | Some sender0 =>
      if negb (s_initialized st) || (total_parts =? 0) || (part_number =? 0) then inl ESP_ERR_INVALID_ARG
      else find_first st (partial_matches sender0 reference total_parts part_number)
  | None => inl ESP_ERR_INVALID_ARG
  end.

Definition identity_matches (sender0 scts : list Z) (e : sms_encoding_t) (text0 : list Z)
    (m : sms_message_t) : bool :=
  is_inbound m && bool_decide (status m = SMS_MESSAGE_RECEIVED) && bool_decide (encoding m = e)
  && streq (sender m) sender0 && streq (service_center_timestamp m) scts && streq (text m) text0.

Definition sms_store_find_inbound_identity (st : sms_store) (sender0 scts : option (list Z))
    (e : sms_encoding_t) (text0 : option (list Z)) : esp_err_t + sms_message_t :=
  match sender0, scts, text0 with
  | Some sender0, Some scts, Some text0 =>
      if negb (s_initialized st) then inl ESP_ERR_INVALID_ARG
      else find_first st (identity_matches sender0 scts e text0)
  | _, _, _ => inl ESP_ERR_INVALID_ARG
  end.

Definition raw_pdu_matches (pdu_hex0 : list Z) (m : sms_message_t) : bool :=
  is_inbound m && bool_decide (status m = SMS_MESSAGE_UNSUPPORTED) && streq (raw_pdu m) pdu_hex0.

Definition sms_store_find_inbound_raw_pdu (st : sms_store) (pdu_hex0 : option (list Z))
  : esp_err_t + sms_message_t :=
  match pdu_hex0 with
  | Some pdu_hex0 =>
      if negb (s_initialized st) then inl ESP_ERR_INVALID_ARG
      else find_first st (raw_pdu_matches pdu_hex0)
  | None => inl ESP_ERR_INVALID_ARG
  end.

(** The loop over the segments of one record: [best] is the newest identifier
    found with its slot and segment. *)
Fixpoint reference_segments (m : sms_message_t) (slot : nat) (reference : Z) (i count : nat)
    (best : option (Z * nat * nat)) : option (Z * nat * nat) :=
  match count with
  | O => best
  | S count' =>
      let newer := match best with None => true | Some (b, _, _) => b <? id m end in
      let best :=
        if Z.testbit (segment_sent_mask m) (Z.of_nat i) && ((modem_reference m).[i] =? reference) && newer
        then Some (id m, slot, i) else best in
      reference_segments m slot reference (S i) count' best
  end.

Definition sms_store_find_outbound_reference (st : sms_store) (recipient0 : option (list Z)) (reference : Z)
  : esp_err_t + sms_message_t * nat :=
  match recipient0 with
  | None => inl ESP_ERR_INVALID_ARG
  | Some recipient0 =>
      if negb (s_initialized st) then inl ESP_ERR_INVALID_ARG
      else
        match all_slots (s_handle st)
                (fun slot o best =>
                   match o with
                   | Some m =>
                       if bool_decide (direction m = SMS_DIRECTION_OUTBOUND) && streq (recipient m) recipient0
                       then Continue (reference_segments m slot reference 0 (Z.to_nat (segment_count m)) best)
                       else Continue best
                   | None => Continue best
                   end) None with
        | inl e => inl e
        | inr None => inl ESP_ERR_NOT_FOUND
        | inr (Some (_, slot, index)) =>
            match load_found (s_handle st) slot with inl e => inl e | inr m => inr (m, index) end
        end
  end.

(** ** Listing *)

(** The index of the first greatest identifier. *)
Fixpoint highest_index (records : list sms_message_t) (i highest : nat) (best : Z) : nat :=
  match records with
  | [] => highest
  | m :: records' =>
      if best <? id m then highest_index records' (S i) i (id m) else highest_index records' (S i) highest best
  end.

Definition highest_of (records : list sms_message_t) : nat :=
  match records with [] => 0%nat | m :: records' => highest_index records' 1 0 (id m) end.

Definition list_step (after_id : Z) (max_records : nat) (slot : nat) (o : option sms_message_t)
    (records : list sms_message_t) : step (list sms_message_t) :=
  match o with
  | None => Continue records
  | Some m =>
      if id m <=? after_id then Continue records
      else if (length records <? max_records)%nat then Continue (records ++ [m])
      else
        let highest := highest_of records in
        match records !! highest with
        | Some h => if id m <? id h then Continue (<[highest := m]> records) else Continue records
        | None => Continue records
        end
  end.

(** The inner loop of the sort: the greater elements of the sorted front move
    up by one, and [m] goes in front of them. *)
Fixpoint insert_shift (m : sms_message_t) (front : list sms_message_t) : list sms_message_t :=
  match front with
  | [] => [m]
  | x :: front' => if id m <? id x then x :: insert_shift m front' else m :: front
  end.

(** [records[0 .. i)] is sorted, and kept here from its last element on. *)
Fixpoint insertion_sort_loop (front records : list sms_message_t) : list sms_message_t :=
  match records with
  | [] => rev front
  | m :: records' => insertion_sort_loop (insert_shift m front) records'
  end.

Definition insertion_sort (records : list sms_message_t) : list sms_message_t :=
  insertion_sort_loop [] records.

Definition sms_store_list (st : sms_store) (after_id : Z) (max_records : nat)
  : esp_err_t + list sms_message_t :=
  if negb (s_initialized st) || (max_records =? 0)%nat then inl ESP_ERR_INVALID_ARG
  else match all_slots (s_handle st) (list_step after_id max_records) [] with
       | inl e => inl e
       | inr records => inr (insertion_sort records)
       end.

(** ** Watermark and diagnostics *)

Definition sms_store_set_replay_watermark (st : sms_store) (protection_enabled : bool) (watermark : Z)
  : sms_store :=
  mk_store (s_handle st) (s_initialized st) (s_pruned_records st) (s_capacity_failures st)
           watermark protection_enabled.

Record sms_store_diagnostics_t := mk_store_diag {
  d_pruned_records : Z;
  d_capacity_failures : Z;
  d_replay_watermark : Z;
  d_replay_protection_enabled : bool;
  d_used_records : Z;
  d_free_records : Z;
}.

Definition sms_store_get_diagnostics (st : sms_store) : esp_err_t + sms_store_diagnostics_t :=
  if negb (s_initialized st) then inl ESP_ERR_INVALID_ARG
  else match all_slots (s_handle st)
               (fun _ o used => Continue (match o with Some _ => u16 (used + 1) | None => used end)) 0 with
       | inl e => inl e
       | inr used =>
           inr (mk_store_diag (s_pruned_records st) (s_capacity_failures st) (s_replay_watermark st)
                  (s_replay_protection_enabled st) used
                  (u16 (Z.of_nat SMS_STORE_MAX_RECORDS - used)))
       end.

End Store.

Arguments sms_store N : clear implicits.

Definition sms_message_status_name (s : sms_message_status_t) : list Z :=
  match s with
  | SMS_MESSAGE_PARTIAL => str "partial"
  | SMS_MESSAGE_RECEIVED => str "received"
  | SMS_MESSAGE_QUEUED => str "queued"
  | SMS_MESSAGE_SENDING => str "sending"
  | SMS_MESSAGE_SENT => str "sent"
  | SMS_MESSAGE_DELIVERED => str "delivered"
  | SMS_MESSAGE_FAILED => str "failed"
  | SMS_MESSAGE_UNSUPPORTED => str "unsupported"
  | SMS_MESSAGE_UNCERTAIN => str "uncertain"
  end.
