(* ===== verification/SmsStoreFacts.v ===== *)
(** * The store refines a finite map

    [records]: the map from identifiers to messages that the slots stand for.
    Every operation of the store is a map operation on it: lookup, insertion,
    deletion, and for a full store the eviction of the oldest record that may
    be pruned. *)

From Stdlib Require Import ZifyBool ZifyNat.
From stdpp Require Import base numbers list strings gmap sorting.
From S2P Require Import Prelude.
From S2P Require Import PduEncode.
From S2P Require Import SmsMessage.
From S2P Require Import Nvs.
From S2P Require Import SmsStore.

Open Scope Z_scope.

(** ** Slot lists as maps *)

Abbreviation slot_list := (list (option sms_message_t)).

(** At most one slot has a given identifier. *)
Definition unique_ids (l : slot_list) : Prop :=
  forall i j m m', l !! i = Some (Some m) -> l !! j = Some (Some m') -> id m = id m' -> i = j.

Fixpoint by_id (l : slot_list) : gmap Z sms_message_t :=
  match l with
  | [] => ∅
  | Some m :: l' => <[id m := m]> (by_id l')
  | None :: l' => by_id l'
  end.

Lemma unique_ids_tail o l : unique_ids (o :: l) -> unique_ids l.
Proof. intros H i j m m' Hi Hj E. by apply Nat.succ_inj, (H (S i) (S j) m m'). Qed.

Lemma by_id_lookup l k m :
  unique_ids l -> (by_id l !! k = Some m <-> exists i, l !! i = Some (Some m) /\ id m = k).
Proof.
  induction l as [|o l IH]; intros Hu.
  { cbn. rewrite lookup_empty. split; [done|]. by intros (i & Hi & _). }
  specialize (IH (unique_ids_tail _ _ Hu)). destruct o as [m0|]; cbn [by_id].
  - destruct (decide (id m0 = k)) as [<-|Hne].
    + rewrite lookup_insert_eq. split.
      * intros [= <-]. by exists 0%nat.
      * intros (i & Hi & E). rewrite (Hu i 0%nat m m0 Hi eq_refl E) in Hi. by injection Hi as ->.
    + rewrite lookup_insert_ne, IH by done. split.
      * intros (i & Hi & E). by exists (S i).
      * intros ([|i] & Hi & E); [|by exists i]. by injection Hi as ->.
  - rewrite IH. split; [intros (i & Hi & E); by exists (S i)|].
    intros ([|i] & Hi & E); [done|by exists i].
Qed.

Lemma by_id_None l k :
  unique_ids l -> (by_id l !! k = None <-> forall i m, l !! i = Some (Some m) -> id m <> k).
Proof.
  intros Hu. rewrite eq_None_not_Some. split.
  - intros H i m Hi E. apply H. exists m. apply by_id_lookup; [done|by exists i].
  - intros H [m Hm]. apply by_id_lookup in Hm as (i & Hi & E); [|done]. by apply (H i m).
Qed.

Lemma by_id_size l : (size (by_id l) <= length l)%nat.
Proof.
  induction l as [|[m|] l IH]; cbn [by_id length]; [done| |lia].
  destruct (by_id l !! id m) eqn:E; [rewrite map_size_insert_Some by eauto; lia|].
  rewrite map_size_insert_None by done. lia.
Qed.

(** Writing a slot whose record is absent, or has the identifier written. *)
Lemma unique_ids_insert l j m :
  unique_ids l -> (forall i m', i <> j -> l !! i = Some (Some m') -> id m' <> id m) ->
  unique_ids (<[j := Some m]> l).
Proof.
  intros Hu Hj i1 i2 m1 m2 H1 H2 E.
  apply list_lookup_insert_Some in H1 as [(<- & [= <-] & _) | (N1 & H1)];
    apply list_lookup_insert_Some in H2 as [(<- & [= <-] & _) | (N2 & H2)].
  - done.
  - exfalso. by apply (Hj i2 m2 (not_eq_sym N2) H2).
  - exfalso. by apply (Hj i1 m1 (not_eq_sym N1) H1).
  - by apply (Hu i1 i2 m1 m2).
Qed.

Lemma unique_ids_erase l j : unique_ids l -> unique_ids (<[j := None]> l).
Proof.
  intros Hu i1 i2 m1 m2 H1 H2 E.
  apply list_lookup_insert_Some in H1 as [(_ & [=] & _) | (N1 & H1)];
    apply list_lookup_insert_Some in H2 as [(_ & [=] & _) | (N2 & H2)]. by apply (Hu i1 i2 m1 m2).
Qed.

Lemma by_id_insert l j m o :
  unique_ids l -> l !! j = Some o -> (forall i m', i <> j -> l !! i = Some (Some m') -> id m' <> id m) ->
  (forall m', o = Some m' -> id m' = id m) ->
  by_id (<[j := Some m]> l) = <[id m := m]> (by_id l).
Proof.
  intros Hu Hj Hne Ho. pose proof (unique_ids_insert l j m Hu Hne) as Hu'.
  apply map_eq. intros k. apply option_eq. intros m'. rewrite by_id_lookup by done.
  rewrite lookup_insert_Some, by_id_lookup by done. split.
  - intros (i & Hi & <-). apply list_lookup_insert_Some in Hi as [(<- & [= <-] & _) | (Nij & Hi)]; [by left|].
    right. split; [by apply not_eq_sym, (Hne i)|by exists i].
  - intros [(<- & <-) | (Hk & i & Hi & <-)].
    + exists j. split; [|done]. apply list_lookup_insert_eq. by apply lookup_lt_Some in Hj.
    + exists i. split; [|done]. rewrite list_lookup_insert_ne; [done|]. intros <-.
      rewrite Hj in Hi. injection Hi as ->. by apply Hk, eq_sym, Ho.
Qed.

Lemma by_id_erase l j v :
  unique_ids l -> l !! j = Some (Some v) -> by_id (<[j := None]> l) = delete (id v) (by_id l).
Proof.
  intros Hu Hj. pose proof (unique_ids_erase l j Hu) as Hu'.
  apply map_eq. intros k. apply option_eq. intros m'.
  rewrite by_id_lookup, lookup_delete_Some, by_id_lookup by done. split.
  - intros (i & Hi & <-). apply list_lookup_insert_Some in Hi as [(_ & [=] & _) | (Nij & Hi)].
    split; [|by exists i]. intros E. by apply Nij, (Hu j i v m').
  - intros (Hk & i & Hi & <-). exists i. split; [|done]. rewrite list_lookup_insert_ne; [done|].
    intros <-. rewrite Hj in Hi. by injection Hi as ->.
Qed.

(** ** Loops over the slots *)

Fixpoint fold_slots {A} (body : nat -> option sms_message_t -> A -> step A) (first : nat) (l : slot_list) (a : A)
  : A :=
  match l with
  | [] => a
  | o :: l' => match body first o a with Break _ a => a | Continue _ a => fold_slots body (S first) l' a end
  end.

Lemma fold_slots_first (test : option sms_message_t -> bool) first l :
  match fold_slots (fun slot o a => if test o then Break _ (Some (slot, o)) else Continue _ a) first l None with
  | None => forall i o, l !! i = Some o -> test o = false
  | Some (slot, o) => exists i, slot = (first + i)%nat /\ l !! i = Some o /\ test o = true /\
      forall i' o', (i' < i)%nat -> l !! i' = Some o' -> test o' = false
  end.
Proof.
  revert first. induction l as [|o l IH]; intros first; cbn [fold_slots]; [done|].
  destruct (test o) eqn:Et.
  - exists 0%nat. split_and!; [lia|done|done|lia].
  - specialize (IH (S first)). destruct (fold_slots _ _ _ _) as [[slot o']|].
    + destruct IH as (i & -> & Hi & Ht & Hb). exists (S i). split_and!; [lia|done|done|].
      intros [|i'] o'' Hlt Ho; [by injection Ho as <-|]. apply (Hb i' o''); [lia|done].
    + intros [|i] o' Ho; [by injection Ho as <-|]. by apply (IH i).
Qed.

(** The search for the smallest identifier: what [best] is after the slots
    [l], when it was the best of the slots before them. *)
Definition oldest_of (test : sms_message_t -> bool) (l : slot_list) (best : option (Z * nat)) : Prop :=
  match best with
  | None => forall i m, l !! i = Some (Some m) -> test m = true -> UINT32_MAX <= id m
  | Some (k, slot) => exists m, l !! slot = Some (Some m) /\ id m = k /\ test m = true /\ k < UINT32_MAX /\
      forall i m', l !! i = Some (Some m') -> test m' = true -> k <= id m'
  end.

Lemma oldest_of_snoc test l o best best' :
  oldest_of test l best -> oldest_step test (length l) o best = Continue _ best' ->
  oldest_of test (l ++ [o]) best'.
Proof.
  intros Hb Hs. unfold oldest_step in Hs.
  assert (Hnew : forall i m, (l ++ [o]) !! i = Some (Some m) -> l !! i = Some (Some m) \/ o = Some m).
  { intros i m Hi. apply lookup_app_Some in Hi as [Hi | [_ Hi]]; [by left|right].
    destruct (i - length l)%nat; [by injection Hi|done]. }
  assert (Hold : forall i m, l !! i = Some (Some m) -> (l ++ [o]) !! i = Some (Some m)).
  { intros i m Hi. by apply lookup_app_l_Some. }
  destruct o as [m|].
  2: { injection Hs as <-. destruct best as [[k slot]|]; cbn in *.
       - destruct Hb as (m & Hl & E & Ht & Hm & Hall). exists m. split_and!; eauto.
         intros i m' Hi. by destruct (Hnew _ _ Hi) as [Hi'|[=]]; eauto.
       - intros i m' Hi. by destruct (Hnew _ _ Hi) as [Hi'|[=]]; eauto. }
  destruct (test m && _) eqn:E.
  - injection Hs as <-. apply andb_true_iff in E as [Et Elt]. apply Z.ltb_lt in Elt.
    cbn. exists m. split_and!; try done.
    + by rewrite lookup_app_r, Nat.sub_diag by lia.
    + destruct best as [[k slot]|]; [|done]. destruct Hb as (_ & _ & _ & _ & Hm & _). lia.
    + intros i m' Hi Ht'. destruct (Hnew _ _ Hi) as [Hi'|[= ->]]; [|lia].
      destruct best as [[k slot]|]; cbn in Hb.
      * destruct Hb as (_ & _ & _ & _ & _ & Hall). specialize (Hall i m' Hi' Ht'). lia.
      * specialize (Hb i m' Hi' Ht'). lia.
  - injection Hs as <-. apply andb_false_iff in E.
    assert (test m = true -> match best with Some (k, _) => k | None => UINT32_MAX end <= id m) as Hle.
    { intros Ht. destruct E as [E|E]; [congruence|]. apply Z.ltb_ge in E. destruct best as [[k slot]|]; done. }
    destruct best as [[k slot]|]; cbn in *.
    + destruct Hb as (m1 & Hl & E1 & Ht & Hm & Hall). exists m1. split_and!; eauto.
      intros i m' Hi Ht'. destruct (Hnew _ _ Hi) as [Hi'|[= ->]]; eauto.
    + intros i m' Hi Ht'. destruct (Hnew _ _ Hi) as [Hi'|[= ->]]; eauto.
Qed.

Lemma fold_slots_oldest test before l best :
  oldest_of test before best ->
  oldest_of test (before ++ l) (fold_slots (oldest_step test) (length before) l best).
Proof.
  revert before best. induction l as [|o l IH]; intros before best Hb; cbn [fold_slots].
  { by rewrite app_nil_r. }
  destruct (oldest_step test (length before) o best) as [best'|best'] eqn:Es.
  - pose proof (oldest_of_snoc _ _ _ _ _ Hb Es) as Hb'. specialize (IH _ _ Hb').
    rewrite length_app in IH. cbn [length] in IH. rewrite Nat.add_1_r, <- app_assoc in IH. exact IH.
  - unfold oldest_step in Es. destruct o; [destruct (_ && _)|]; done.
Qed.

(** ** The slots in flash *)

Lemma slot_key_inj i j : (i < 128)%nat -> (j < 128)%nat -> slot_key i = slot_key j -> i = j.
Proof.
  intros Hi Hj E. unfold slot_key in E. injection E as E1 E2 E3. Z.div_mod_to_equations. lia.
Qed.

Lemma slot_key_not_next i : slot_key i <> next_id_key.
Proof. done. Qed.

Section Facts.

Context {N : Type} `{NvsLaws N}.

(** Every slot can be loaded. *)
Definition readable (n : N) : Prop :=
  forall i, (i < SMS_STORE_MAX_RECORDS)%nat -> exists o, load_slot n i = inr o.

Definition slot_msg (n : N) (i : nat) : option sms_message_t :=
  match load_slot n i with inr o => o | inl _ => None end.

Definition slots (n : N) : slot_list := map (slot_msg n) (seq 0 SMS_STORE_MAX_RECORDS).

Definition records (n : N) : gmap Z sms_message_t := by_id (slots n).

Lemma slots_length n : length (slots n) = SMS_STORE_MAX_RECORDS.
Proof. unfold slots. by rewrite length_map, length_seq. Qed.

Lemma slots_lookup n i : (i < SMS_STORE_MAX_RECORDS)%nat -> slots n !! i = Some (slot_msg n i).
Proof.
  intros Hi. unfold slots. rewrite list_lookup_fmap, lookup_seq_lt by done. done.
Qed.

Lemma readable_load n i :
  readable n -> (i < SMS_STORE_MAX_RECORDS)%nat -> load_slot n i = inr (slot_msg n i).
Proof. intros Hr Hi. destruct (Hr i Hi) as [o E]. unfold slot_msg. by rewrite E. Qed.

Lemma for_slots_readable {A} n (body : nat -> option sms_message_t -> A -> step A) a :
  readable n -> all_slots n body a = inr (fold_slots body 0 (slots n) a).
Proof.
  intros Hr. unfold all_slots, slots.
  assert (forall first count a, (first + count <= SMS_STORE_MAX_RECORDS)%nat ->
    for_slots n body first count a = inr (fold_slots body first (map (slot_msg n) (seq first count)) a)) as Hgen.
  { intros first count. revert first. induction count as [|count IH]; intros first a' Hc; [done|].
    cbn [for_slots seq map fold_slots]. rewrite readable_load by (done || lia).
    destruct (body first (slot_msg n first) a'); [|done]. apply IH. lia. }
  by apply Hgen.
Qed.

(** The first slot that satisfies a test. *)
Lemma first_slot_spec n test err :
  readable n ->
  match first_slot n test err with
  | inl e => e = err /\ forall i o, slots n !! i = Some o -> test o = false
  | inr (slot, o) => slots n !! slot = Some o /\ test o = true /\
      forall i o', (i < slot)%nat -> slots n !! i = Some o' -> test o' = false
  end.
Proof.
  intros Hr. unfold first_slot. rewrite for_slots_readable by done.
  pose proof (fold_slots_first test 0 (slots n)) as F.
  destruct (fold_slots _ _ _ _) as [[slot o]|]; [|by split].
  by destruct F as (i & -> & Hi & Ht & Hb).
Qed.

Lemma oldest_slot_spec n test err :
  readable n ->
  match oldest_slot n test err with
  | inl e => e = err /\ forall i m, slots n !! i = Some (Some m) -> test m = true -> UINT32_MAX <= id m
  | inr slot => exists m, slots n !! slot = Some (Some m) /\ test m = true /\ id m < UINT32_MAX /\
      forall i m', slots n !! i = Some (Some m') -> test m' = true -> id m <= id m'
  end.
Proof.
  intros Hr. unfold oldest_slot. rewrite for_slots_readable by done.
  pose proof (fold_slots_oldest test [] (slots n) None ltac:(done)) as F. cbn [length app] in F.
  destruct (fold_slots _ _ _ _) as [[k slot]|].
  - destruct F as (m & Hl & <- & Ht & Hm & Hall). by exists m.
  - by split.
Qed.

(** ** Writes *)

Definition writable (m : sms_message_t) : Prop := message_ok m /\ id m <> 0 /\ storable m = true.

Lemma load_written n i m :
  writable m -> blob_at n (slot_key i) = Some (record_bytes (record_encode m)) ->
  load_slot n i = inr (Some m).
Proof.
  intros (Hok & Hid & Hs) Hb. unfold load_slot. rewrite get_blob_spec, Hb.
  pose proof (record_bytes_length m Hok) as Hl.
  destruct (Nat.leb_spec (length (record_bytes (record_encode m))) (Z.to_nat RECORD_SIZE)); [|lia].
  rewrite Hl. rewrite Z.eqb_refl. cbn [negb].
  pose proof (record_roundtrip_core m Hok Hid Hs) as ->. done.
Qed.

Lemma load_same n n' i : blob_at n' (slot_key i) = blob_at n (slot_key i) -> load_slot n' i = load_slot n i.
Proof. intros E. unfold load_slot. by rewrite !get_blob_spec, E. Qed.

Lemma load_absent n i : blob_at n (slot_key i) = None -> load_slot n i = inr None.
Proof. intros E. unfold load_slot. by rewrite get_blob_spec, E. Qed.

(** One slot of [n] changed to [o]. *)
Definition slot_set (n n' : N) (j : nat) (o : option sms_message_t) : Prop :=
  readable n' /\ slots n' = <[j := o]> (slots n) /\ u32_at n' next_id_key = u32_at n next_id_key.

Definition slots_kept (n n' : N) : Prop :=
  readable n' /\ slots n' = slots n /\ u32_at n' next_id_key = u32_at n next_id_key.

Lemma slot_set_intro n n' j o :
  readable n -> (j < SMS_STORE_MAX_RECORDS)%nat -> load_slot n' j = inr o ->
  (forall i, (i < SMS_STORE_MAX_RECORDS)%nat -> i <> j -> load_slot n' i = load_slot n i) ->
  u32_at n' next_id_key = u32_at n next_id_key -> slot_set n n' j o.
Proof.
  intros Hr Hj Ho Hi Hu. assert (readable n') as Hr'.
  { intros i Hi'. destruct (decide (i = j)) as [->|Hne]; [by exists o|]. rewrite Hi by done. by apply Hr. }
  split_and!; [done| |done]. apply list_eq_same_length with SMS_STORE_MAX_RECORDS; rewrite ?length_insert, ?slots_length; try done.
  intros i x y Hlt Hx Hy. rewrite slots_lookup in Hx by done. injection Hx as <-.
  apply list_lookup_insert_Some in Hy as [(<- & <- & _) | (Hne & Hy)].
  - unfold slot_msg. by rewrite Ho.
  - rewrite slots_lookup in Hy by done. injection Hy as <-. unfold slot_msg. by rewrite Hi.
Qed.

Lemma slots_kept_intro n n' :
  readable n ->
  (forall i, (i < SMS_STORE_MAX_RECORDS)%nat -> load_slot n' i = load_slot n i) ->
  u32_at n' next_id_key = u32_at n next_id_key -> slots_kept n n'.
Proof.
  intros Hr Hi Hu. split_and!; [|unfold slots|done].
  - intros i Hi'. rewrite Hi by done. by apply Hr.
  - apply map_ext_in. intros i Hin. apply in_seq in Hin. unfold slot_msg. by rewrite Hi by lia.
Qed.

Lemma slot_set_same n n' j :
  slots_kept n n' -> (j < SMS_STORE_MAX_RECORDS)%nat -> slot_set n n' j (slot_msg n j).
Proof.
  intros (Hr & Hs & Hu) Hj. split_and!; [done| |done]. rewrite Hs. symmetry. apply list_insert_id.
  by apply slots_lookup.
Qed.

Lemma write_slot_spec n j m n' e :
  readable n -> (j < SMS_STORE_MAX_RECORDS)%nat -> writable m -> write_slot n j m = (n', e) ->
  (e = ESP_OK -> slot_set n n' j (Some m)) /\ (slots_kept n n' \/ slot_set n n' j (Some m)).
Proof.
  intros Hr Hj Hw E. unfold write_slot in E.
  destruct (nvs_set_blob n (slot_key j) (record_bytes (record_encode m))) as [n1 e1] eqn:E1.
  pose proof (set_blob_any _ _ _ _ _ E1) as (Hself & Hblob & Hu32).
  assert (forall i, (i < SMS_STORE_MAX_RECORDS)%nat -> i <> j -> load_slot n1 i = load_slot n i) as Hother.
  { intros i Hi Hne. apply load_same, Hblob. intros Ek. by apply Hne, slot_key_inj. }
  assert (u32_at n1 next_id_key = u32_at n next_id_key) as Hnext by (by apply Hu32).
  assert (slots_kept n n1 \/ slot_set n n1 j (Some m)) as Hone.
  { destruct Hself as [Hself|Hself].
    - left. apply slots_kept_intro; [done| |done]. intros i Hi.
      destruct (decide (i = j)) as [->|]; [by apply load_same|by apply Hother].
    - right. apply slot_set_intro; [done|done|by apply load_written|done|done]. }
  case_bool_decide as He.
  - injection E as <- <-. by split.
  - assert (e1 = ESP_OK) as -> by by destruct (decide (e1 = ESP_OK)).
    pose proof (set_blob_ok _ _ _ _ E1) as Hset.
    destruct (commit_any _ _ _ E) as [Cb Cu].
    assert (slot_set n n' j (Some m)) as Hs; [|by auto].
    apply slot_set_intro; [done|done| | |].
    + apply load_written; [done|]. by rewrite Cb.
    + intros i Hi Hne. rewrite <- Hother by done. by apply load_same.
    + by rewrite Cu.
Qed.

Lemma erase_slot_spec n j n' e :
  readable n -> (j < SMS_STORE_MAX_RECORDS)%nat -> erase_slot n j = (n', e) ->
  (e = ESP_OK -> slot_set n n' j None) /\ (slots_kept n n' \/ slot_set n n' j None).
Proof.
  intros Hr Hj E. unfold erase_slot in E.
  destruct (nvs_erase_key n (slot_key j)) as [n1 e1] eqn:E1.
  pose proof (erase_any _ _ _ _ E1) as (Hself & Hblob & Hu32).
  assert (forall i, (i < SMS_STORE_MAX_RECORDS)%nat -> i <> j -> load_slot n1 i = load_slot n i) as Hother.
  { intros i Hi Hne. apply load_same, Hblob. intros Ek. by apply Hne, slot_key_inj. }
  assert (u32_at n1 next_id_key = u32_at n next_id_key) as Hnext by (by apply Hu32).
  case_bool_decide as He.
  - subst e1. pose proof (erase_ok _ _ _ E1) as Herase. destruct (commit_any _ _ _ E) as [Cb Cu].
    assert (slot_set n n' j None) as Hs; [|by auto].
    apply slot_set_intro; [done|done| | |].
    + apply load_absent. by rewrite Cb.
    + intros i Hi Hne. rewrite <- Hother by done. by apply load_same.
    + by rewrite Cu.
  - injection E as <- <-. split; [by intros ->|]. destruct Hself as [Hself|Hself].
    + left. apply slots_kept_intro; [done| |done]. intros i Hi.
      destruct (decide (i = j)) as [->|]; [by apply load_same|by apply Hother].
    + right. apply slot_set_intro; [done|done|by apply load_absent|done|done].
Qed.

(** ** The invariant *)

Definition next_of (n : N) : Z :=
  match u32_at n next_id_key with
  | None => 1
  | Some v => if v =? 0 then 1 else v
  end.

(** Every slot can be loaded, the records are well formed, no two share an
    identifier, and the next identifier is above them all. *)
Record flash_ok (n : N) : Prop := {
  fo_readable : readable n;
  fo_unique : unique_ids (slots n);
  fo_writable i m : slots n !! i = Some (Some m) -> writable m;
  fo_below i m : slots n !! i = Some (Some m) -> id m < next_of n;
  fo_next : 1 <= next_of n <= UINT32_MAX;
}.

Definition store_inv (st : sms_store N) : Prop := s_initialized st = true /\ flash_ok (s_handle st).

Lemma records_lookup n k m :
  unique_ids (slots n) -> (records n !! k = Some m <-> exists i, slots n !! i = Some (Some m) /\ id m = k).
Proof. apply by_id_lookup. Qed.

Lemma records_None n k :
  unique_ids (slots n) -> (records n !! k = None <-> forall i m, slots n !! i = Some (Some m) -> id m <> k).
Proof. apply by_id_None. Qed.

Lemma records_size n : (size (records n) <= SMS_STORE_MAX_RECORDS)%nat.
Proof. unfold records. etrans; [apply by_id_size|]. by rewrite slots_length. Qed.

Lemma slots_bound n i o : slots n !! i = Some o -> (i < SMS_STORE_MAX_RECORDS)%nat.
Proof. intros E. apply lookup_lt_Some in E. by rewrite slots_length in E. Qed.

Lemma next_of_same n n' : u32_at n' next_id_key = u32_at n next_id_key -> next_of n' = next_of n.
Proof. intros E. unfold next_of. by rewrite E. Qed.

Lemma flash_ok_kept n n' : flash_ok n -> slots_kept n n' -> flash_ok n' /\ records n' = records n.
Proof.
  intros [Hr Hu Hw Hb Hn] (Hr' & Es & Eu). apply next_of_same in Eu.
  split; [|unfold records; by rewrite Es]. split; rewrite ?Es, ?Eu; done.
Qed.

Lemma flash_ok_set n n' j m :
  flash_ok n -> slot_set n n' j (Some m) -> (j < SMS_STORE_MAX_RECORDS)%nat -> writable m ->
  id m < next_of n ->
  (forall i m', i <> j -> slots n !! i = Some (Some m') -> id m' <> id m) ->
  (forall m', slots n !! j = Some (Some m') -> id m' = id m) ->
  flash_ok n' /\ records n' = <[id m := m]> (records n).
Proof.
  intros [Hr Hu Hw Hb Hn] (Hr' & Es & Eu) Hj Hm Hlt Hne Hself. apply next_of_same in Eu. split.
  - split; rewrite ?Es, ?Eu; try done.
    + by apply unique_ids_insert.
    + intros i m' Hi. apply list_lookup_insert_Some in Hi as [(_ & [= <-] & _) | (_ & Hi)]; eauto.
    + intros i m' Hi. apply list_lookup_insert_Some in Hi as [(_ & [= <-] & _) | (_ & Hi)]; eauto.
  - unfold records. rewrite Es. apply by_id_insert with (o := slot_msg n j); try done.
    + by apply slots_lookup.
    + intros m' E. apply Hself. by rewrite slots_lookup, E.
Qed.

Lemma flash_ok_erase n n' j :
  flash_ok n -> slot_set n n' j None ->
  flash_ok n' /\ forall v, slots n !! j = Some (Some v) -> records n' = delete (id v) (records n).
Proof.
  intros [Hr Hu Hw Hb Hn] (Hr' & Es & Eu). apply next_of_same in Eu. split.
  - split; rewrite ?Es, ?Eu; try done.
    + by apply unique_ids_erase.
    + intros i m' Hi. apply list_lookup_insert_Some in Hi as [(_ & [=] & _) | (_ & Hi)]; eauto.
    + intros i m' Hi. apply list_lookup_insert_Some in Hi as [(_ & [=] & _) | (_ & Hi)]; eauto.
  - intros v Hv. unfold records. rewrite Es. by apply by_id_erase.
Qed.

(** The next identifier is fresh, and moves on. *)
Lemma allocate_id_spec n n' out e :
  flash_ok n -> allocate_id n = (n', out, e) ->
  out = Some (next_of n) /\ flash_ok n' /\ records n' = records n /\ slots n' = slots n /\
  next_of n <= next_of n' <= next_of n + 1 /\ (e = ESP_OK -> next_of n' = next_of n + 1) \/
  next_of n = UINT32_MAX.
Proof.
  intros Hf E. destruct (decide (next_of n = UINT32_MAX)) as [|Hmax]; [by right|left].
  pose proof Hf as [Hr Hu Hw Hb Hn].
  assert ((let '(n1, err) := nvs_set_u32 n next_id_key (next_of n + 1) in (n1, Some (next_of n), err))
          = (n', out, e)) as E2.
  { unfold allocate_id in E. rewrite get_u32_spec in E. unfold next_of, UINT32_MAX in *.
    destruct (u32_at n next_id_key) as [v|].
    - set (next := if v =? 0 then 1 else v) in *. unfold u32 in E. rewrite Z.mod_small in E by lia.
      destruct (Z.eqb_spec (next + 1) 0); [lia|done].
    - by rewrite bool_decide_eq_true_2 in E. }
  clear E. set (next := next_of n) in *.
  destruct (nvs_set_u32 n next_id_key (next + 1)) as [n1 e1] eqn:Es. injection E2 as <- <- <-.
  pose proof (set_u32_any _ _ _ _ _ Es) as (Hself & Hblob & _).
  assert (forall i, (i < SMS_STORE_MAX_RECORDS)%nat -> load_slot n1 i = load_slot n i) as Hl.
  { intros i _. apply load_same, Hblob, slot_key_not_next. }
  assert (readable n1) as Hr1 by (intros i Hi; rewrite Hl by done; by apply Hr).
  assert (slots n1 = slots n) as Es1.
  { unfold slots. apply map_ext_in. intros i Hin. apply in_seq in Hin. unfold slot_msg. by rewrite Hl by lia. }
  assert (next <= next_of n1 <= next + 1 /\ next_of n1 <= UINT32_MAX) as [Hn1 Hn2].
  { unfold UINT32_MAX in *. destruct Hself as [Hs|Hs].
    - rewrite (next_of_same _ _ Hs). fold next. lia.
    - unfold next_of. rewrite Hs. destruct (Z.eqb_spec (next + 1) 0); lia. }
  split; [done|]. split; [|split; [unfold records; by rewrite Es1|split; [done|split; [lia|]]]].
  - split; rewrite ?Es1; try done; [|lia].
    intros i m Hi. specialize (Hb i m Hi). fold next in Hb. lia.
  - intros ->. unfold next_of. rewrite (set_u32_ok _ _ _ _ Es). fold next. destruct (Z.eqb_spec (next + 1) 0); lia.
Qed.

Lemma find_id_slot_spec n k :
  flash_ok n ->
  match find_id_slot n k with
  | inl e => e = ESP_ERR_NOT_FOUND /\ records n !! k = None
  | inr slot => exists m, slots n !! slot = Some (Some m) /\ id m = k /\ records n !! k = Some m
  end.
Proof.
  intros [Hr Hu _ _ _]. unfold find_id_slot.
  pose proof (first_slot_spec n (fun o => match o with Some m => id m =? k | None => false end) ESP_ERR_NOT_FOUND Hr) as F.
  destruct (first_slot _ _ _) as [e|[slot o]].
  - destruct F as [-> F]. split; [done|]. apply by_id_None; [done|]. intros i m Hi E.
    specialize (F _ _ Hi). cbn in F. lia.
  - destruct F as (Hl & Ht & _). destruct o as [m|]; [|done]. apply Z.eqb_eq in Ht. exists m.
    split_and!; [done|done|]. apply by_id_lookup; [done|by exists slot].
Qed.

Lemma find_empty_slot_spec n :
  readable n ->
  match find_empty_slot n with
  | inl e => e = ESP_ERR_NO_MEM /\ forall i o, slots n !! i = Some o -> is_Some o
  | inr slot => slots n !! slot = Some None
  end.
Proof.
  intros Hr. unfold find_empty_slot.
  pose proof (first_slot_spec n (fun o => match o with Some _ => false | None => true end) ESP_ERR_NO_MEM Hr) as F.
  destruct (first_slot _ _ _) as [e|[slot o]].
  - destruct F as [-> F]. split; [done|]. intros i o Hi. specialize (F _ _ Hi). destruct o; [by eexists|done].
  - by destruct F as (Hl & Ht & _), o.
Qed.

Lemma load_found_spec n slot m :
  readable n -> slots n !! slot = Some (Some m) -> load_found n slot = inr m.
Proof.
  intros Hr Hl. pose proof (slots_bound _ _ _ Hl) as Hb. unfold load_found.
  rewrite readable_load by done. rewrite slots_lookup in Hl by done. by injection Hl as ->.
Qed.

(** ** Saving *)

Lemma writable_set_id m k :
  message_ok m -> storable m = true -> uint32 k -> k <> 0 -> writable (set_id m k).
Proof. intros [] Hs Hk Hnz. split; [|by split]. by split. Qed.

(** The outcome of a search for a new slot: nothing changes, or the oldest
    prunable record of a full store goes. *)
Definition evicted (st : sms_store N) (v : sms_message_t) : Prop :=
  (forall i o, slots (s_handle st) !! i = Some o -> is_Some o) /\
  records (s_handle st) !! id v = Some v /\ record_prunable st v = true /\
  (forall k w, records (s_handle st) !! k = Some w -> record_prunable st w = true -> id v <= k).

(** [n'] is [n], perhaps without its evicted record. *)
Definition maybe_evicted (st : sms_store N) (n' : N) : Prop :=
  records n' = records (s_handle st) \/
  exists v, evicted st v /\ records n' = delete (id v) (records (s_handle st)).

Lemma new_slot_spec st st' r :
  flash_ok (s_handle st) -> new_slot st = (st', r) ->
  flash_ok (s_handle st') /\ next_of (s_handle st') = next_of (s_handle st) /\
  s_initialized st' = s_initialized st /\ maybe_evicted st (s_handle st') /\
  match r with
  | inl e => e <> ESP_OK
  | inr slot => slots (s_handle st') !! slot = Some None /\
      ((exists slot, slots (s_handle st) !! slot = Some None) -> records (s_handle st') = records (s_handle st))
  end.
Proof.
  intros Hf E. unfold new_slot in E. pose proof (find_empty_slot_spec _ (fo_readable _ Hf)) as Hempty.
  destruct (find_empty_slot (s_handle st)) as [e|slot].
  2: { injection E as <- <-. split_and!; try done. by left. }
  destruct Hempty as [-> Hfull]. rewrite bool_decide_eq_true_2 in E by done.
  pose proof (oldest_slot_spec (s_handle st) (record_prunable st) ESP_ERR_NO_MEM (fo_readable _ Hf)) as Ho.
  unfold find_prunable_slot in E. destruct (oldest_slot _ _ _) as [e|slot].
  { injection E as <- <-. destruct Ho as [-> _]. split_and!; try done. by left. }
  destruct Ho as (v & Hv & Hp & _ & Hmin).
  destruct (erase_slot (s_handle st) slot) as [n' err] eqn:Ee.
  destruct (erase_slot_spec _ _ _ _ (fo_readable _ Hf) (slots_bound _ _ _ Hv) Ee) as [Hok Hany].
  assert (evicted st v) as Hev.
  { split_and!; try done.
    - apply records_lookup; [apply Hf|by exists slot].
    - intros k w Hw Hpw. apply records_lookup in Hw as (i & Hi & <-); [by eapply Hmin|apply Hf]. }
  assert (flash_ok n' /\ next_of n' = next_of (s_handle st) /\ maybe_evicted st n') as (Hf' & Hn' & Hm').
  { destruct Hany as [Hk|Hs].
    - destruct (flash_ok_kept _ _ Hf Hk) as [? Hrec]. split_and!; [done|apply next_of_same, Hk|by left].
    - destruct (flash_ok_erase _ _ _ Hf Hs) as [? Hrec]. split_and!; [done|apply next_of_same, Hs|].
      right. exists v. auto. }
  case_bool_decide as He; injection E as <- <-; cbn [s_handle set_handle bump_pruned s_initialized].
  - split_and!; try done.
    + destruct (Hok He) as (_ & -> & _). apply list_lookup_insert_eq. by apply lookup_lt_Some in Hv.
    + intros [i Hi]. by destruct (Hfull _ _ Hi).
  - by split_and!.
Qed.

(** The outcome of a save: how the records change, and what becomes of the
    message. *)
Lemma save_new_spec st m st' m' e :
  store_inv st -> message_ok m -> storable m = true -> id m = 0 -> next_of (s_handle st) < UINT32_MAX ->
  sms_store_save st m = (st', m', e) ->
  store_inv st' /\ next_of (s_handle st) <= next_of (s_handle st') <= next_of (s_handle st) + 1 /\
  exists n1, maybe_evicted st n1 /\
  ((exists slot, slots (s_handle st) !! slot = Some None) -> e = ESP_OK -> records n1 = records (s_handle st)) /\
  let k := next_of (s_handle st) in
  records n1 !! k = None /\
  if bool_decide (e = ESP_OK)
  then m' = set_id m k /\ next_of (s_handle st') = k + 1 /\ records (s_handle st') = <[k := m']> (records n1)
  else records (s_handle st') = records n1 \/
       records (s_handle st') = <[k := set_id m k]> (records n1).
Proof.
  intros [Hinit Hf] Hok Hs Hid Hnext E. unfold sms_store_save in E. rewrite Hinit, Hs, Hid in E.
  cbn [negb Z.eqb] in E. destruct (new_slot st) as [st1 r] eqn:En.
  destruct (new_slot_spec _ _ _ Hf En) as (Hf1 & Hn1 & Hi1 & Hev & Hr).
  set (k := next_of (s_handle st)) in *.
  assert (forall n, flash_ok n -> next_of n = k -> records n !! k = None) as Hfresh.
  { intros n Hfn Hnk. apply by_id_None; [apply Hfn|]. intros i w Hi. pose proof (fo_below _ Hfn i w Hi). lia. }
  destruct r as [err|slot].
  { injection E as <- <- <-. rewrite (bool_decide_eq_false_2 (_ = ESP_OK)) by done.
    assert (s_handle (if bool_decide (err = ESP_ERR_NO_MEM) then bump_capacity st1 else st1) = s_handle st1
      /\ s_initialized (if bool_decide (err = ESP_ERR_NO_MEM) then bump_capacity st1 else st1) = s_initialized st1)
      as [Eh Ei] by (by case_bool_decide).
    split; [by split; rewrite ?Eh, ?Ei, ?Hi1|]. split; [rewrite Eh; lia|].
    exists (s_handle st1). rewrite Eh. cbv zeta. split_and!; try done.
    - by apply Hfresh.
    - by left. }
  destruct Hr as [Hslot Hkeep].
  destruct (allocate_id (s_handle st1)) as [[n2 out] err] eqn:Ea.
  destruct (allocate_id_spec _ _ _ _ Hf1 Ea) as [(-> & Hf2 & Hr2 & Hs2 & Hle & Hinc) | Hmax]; [|lia].
  rewrite Hn1 in *. cbn [from_option] in E. change (Datatypes.id k) with k in E.
  case_bool_decide as Herr.
  2: { injection E as <- <- <-. rewrite (bool_decide_eq_false_2 (_ = ESP_OK)) by done.
       split; [by split; cbn; rewrite ?Hi1|]. split; [cbn; lia|].
       exists (s_handle st1). cbv zeta. split_and!; try done; [by apply Hfresh|].
       left. exact Hr2. }
  specialize (Hinc Herr). cbn [s_handle set_handle] in E.
  pose proof (writable_set_id m k Hok Hs) as Hw. pose proof (fo_next _ Hf) as Hn. fold k in Hn.
  specialize (Hw ltac:(unfold uint32, UINT32_MAX in *; lia) ltac:(lia)).
  destruct (write_slot n2 slot (set_id m k)) as [n3 e3] eqn:Ew.
  assert (slot < SMS_STORE_MAX_RECORDS)%nat as Hb by (by eapply slots_bound).
  destruct (write_slot_spec _ _ _ _ _ (fo_readable _ Hf2) Hb Hw Ew) as [Hwok Hwany].
  assert (forall n', slot_set n2 n' slot (Some (set_id m k)) ->
            flash_ok n' /\ next_of n' = k + 1 /\ records n' = <[k := set_id m k]> (records (s_handle st1))) as Hset.
  { intros n' Hset. destruct (flash_ok_set n2 n' slot (set_id m k) Hf2 Hset Hb Hw) as [Hf' Hrec].
    - cbn. lia.
    - intros i w _ Hi. rewrite Hs2 in Hi. pose proof (fo_below _ Hf1 i w Hi). cbn. lia.
    - intros w Hi. rewrite Hs2, Hslot in Hi. done.
    - split_and!; [done| |by rewrite Hrec, Hr2]. rewrite (next_of_same _ _ (proj2 (proj2 Hset))). done. }
  injection E as <- <- <-. cbn [s_handle set_handle s_initialized].
  assert (flash_ok n3) as Hf3.
  { destruct Hwany as [Hk|Hs3]; [by apply (flash_ok_kept n2)|by apply Hset]. }
  split; [by split; cbn; rewrite ?Hi1|]. split.
  { destruct Hwany as [Hk|Hs3]; [rewrite (next_of_same _ _ (proj2 (proj2 Hk)))|destruct (Hset _ Hs3) as (_ & -> & _)]; lia. }
  exists (s_handle st1).
  cbv zeta. split_and!; [done|by intros; apply Hkeep|by apply Hfresh|]. case_bool_decide as He.
  - destruct (Hset _ (Hwok He)) as (_ & Hn3 & Hr3). rewrite bool_decide_eq_false_2 by (intros Hx; exact (Hx He)). done.
  - destruct Hwany as [Hk|Hs3].
    + left. rewrite <- Hr2. by apply (flash_ok_kept n2).
    + right. by apply Hset.
Qed.

Lemma save_existing_spec st m st' m' e :
  store_inv st -> message_ok m -> storable m = true -> id m <> 0 -> id m < next_of (s_handle st) ->
  sms_store_save st m = (st', m', e) ->
  store_inv st' /\ next_of (s_handle st') = next_of (s_handle st) /\ m' = m /\
  (forall j m0, e = ESP_OK -> slots (s_handle st) !! j = Some (Some m0) -> id m0 = id m ->
     slots (s_handle st') = <[j := Some m]> (slots (s_handle st))) /\
  if bool_decide (e = ESP_OK) then records (s_handle st') = <[id m := m]> (records (s_handle st))
  else records (s_handle st') = records (s_handle st) \/
       records (s_handle st') = <[id m := m]> (records (s_handle st)).
Proof.
  intros [Hinit Hf] Hok Hs Hid Hlt E. unfold sms_store_save in E. rewrite Hinit, Hs in E.
  cbn [negb] in E. destruct (Z.eqb_spec (id m) 0); [done|].
  assert (writable m) as Hw by done.
  set (slot := match find_id_slot (s_handle st) (id m) with inl _ => _ | inr _ => _ end) in E.
  assert (match slot with
          | inl e => e <> ESP_OK
          | inr j => (j < SMS_STORE_MAX_RECORDS)%nat /\
              (forall i m', i <> j -> slots (s_handle st) !! i = Some (Some m') -> id m' <> id m) /\
              (forall m', slots (s_handle st) !! j = Some (Some m') -> id m' = id m)
          end) as Hslot.
  { unfold slot. pose proof (find_id_slot_spec _ (id m) Hf) as F.
    destruct (find_id_slot _ _) as [e0|j].
    - destruct F as [-> F]. rewrite bool_decide_eq_true_2 by done.
      pose proof (find_empty_slot_spec _ (fo_readable _ Hf)) as Fe.
      destruct (find_empty_slot _) as [e1|j]; [by destruct Fe as [-> _]|].
      rewrite records_None in F by apply (fo_unique _ Hf).
      split_and!; [by eapply slots_bound|by intros i w _ Hi; eapply F|]. intros w Hm'. by rewrite Fe in Hm'.
    - destruct F as (w & Hl & Ew & _). split_and!; [by eapply slots_bound| |].
      + intros i w' Hne Hi Em. apply Hne. apply (fo_unique _ Hf i j w' w Hi Hl). by rewrite Ew.
      + intros w' Hm'. rewrite Hl in Hm'. by injection Hm' as <-. }
  destruct slot as [e0|j].
  { injection E as <- <- <-. split; [by split|]. do 2 (split; [done|]). split; [by intros j m0 He|].
    rewrite (bool_decide_eq_false_2 (_ = ESP_OK)) by done. by left. }
  destruct Hslot as (Hb & Hne & Hself).
  destruct (write_slot (s_handle st) j m) as [n3 e3] eqn:Ew. injection E as <- <- <-.
  destruct (write_slot_spec _ _ _ _ _ (fo_readable _ Hf) Hb Hw Ew) as [Hwok Hwany].
  assert (forall n', slot_set (s_handle st) n' j (Some m) ->
     flash_ok n' /\ records n' = <[id m := m]> (records (s_handle st))) as Hset.
  { intros n' Hset. by apply (flash_ok_set (s_handle st) n' j m Hf Hset). }
  cbn [s_handle set_handle]. rewrite andb_false_r. split; [|split; [|split; [done|split]]].
  2: { destruct Hwany as [Hk|Hs3]; apply next_of_same; [apply Hk|apply Hs3]. }
  2: { intros j0 m0 He Hj0 E0. destruct (Hwok He) as (_ & -> & _). f_equal.
       destruct (decide (j = j0)) as [|Hne0]; [done|]. by destruct (Hne j0 m0 (not_eq_sym Hne0) Hj0 E0). }
  - split; [done|]. cbn. destruct Hwany as [Hk|Hs3]; [by apply (flash_ok_kept (s_handle st))|by apply Hset].
  - case_bool_decide as He; [by apply Hset, Hwok|].
    destruct Hwany as [Hk|Hs3]; [left; by apply (flash_ok_kept (s_handle st))|right; by apply Hset].
Qed.

End Facts.
