(* ===== verification/SmsStoreSpec.v ===== *)
(** * The store's operations as map operations

    The theorems about [sms_store_save], [sms_store_get], [sms_store_delete],
    the searches and [sms_store_list], stated on [records]. *)

From Stdlib Require Import ZifyBool ZifyNat.
From stdpp Require Import base numbers list strings gmap sorting.
From S2P Require Import Prelude.
From S2P Require Import PduEncode.
From S2P Require Import SmsMessage.
From S2P Require Import Nvs.
From S2P Require Import SmsStore.
From S2P Require Import SmsStoreFacts.

Open Scope Z_scope.

(** ** Sorting *)

Definition id_lt (m m' : sms_message_t) : Prop := id m < id m'.
Definition id_le (m m' : sms_message_t) : Prop := id m <= id m'.

Lemma insert_shift_perm m front : insert_shift m front ≡ₚ m :: front.
Proof.
  induction front as [|x front IH]; cbn; [done|]. destruct (id m <? id x); [|done].
  rewrite IH. constructor.
Qed.

Lemma insert_shift_sorted m front :
  StronglySorted (flip id_le) front -> StronglySorted (flip id_le) (insert_shift m front).
Proof.
  induction 1 as [|x front Hs IH Hx]; cbn; [by repeat constructor|].
  destruct (Z.ltb_spec (id m) (id x)).
  - constructor; [done|]. rewrite insert_shift_perm. constructor; [unfold flip, id_le; lia|done].
  - constructor; [by constructor|]. constructor; [unfold flip, id_le; lia|].
    eapply Forall_impl; [exact Hx|]. unfold flip, id_le. intros y. lia.
Qed.

Lemma sorted_rev l : StronglySorted (flip id_le) l -> StronglySorted id_le (rev l).
Proof.
  induction 1 as [|x l _ IH Hx]; cbn; [constructor|]. apply StronglySorted_app.
  split_and!; [|done|by repeat constructor]. intros a b Ha Hb.
  apply list_elem_of_singleton in Hb as ->. rewrite Forall_forall in Hx. apply Hx.
  by apply list_elem_of_In, in_rev, list_elem_of_In.
Qed.

Lemma insertion_sort_loop_spec front l :
  StronglySorted (flip id_le) front ->
  insertion_sort_loop front l ≡ₚ front ++ l /\ StronglySorted id_le (insertion_sort_loop front l).
Proof.
  revert front. induction l as [|m l IH]; intros front Hs; cbn [insertion_sort_loop].
  - split; [by rewrite app_nil_r, <- Permutation_rev|by apply sorted_rev].
  - destruct (IH _ (insert_shift_sorted m front Hs)) as [Hp Hs']. split; [|done].
    rewrite Hp, insert_shift_perm. cbn. by rewrite Permutation_middle.
Qed.

Lemma insertion_sort_spec l : insertion_sort l ≡ₚ l /\ StronglySorted id_le (insertion_sort l).
Proof. apply insertion_sort_loop_spec. constructor. Qed.

(** ** The bounded selection *)

Lemma highest_index_spec rs all i h best :
  all !! h = Some best -> (forall j m, (j < i)%nat -> all !! j = Some m -> id m <= id best) ->
  drop i all = rs ->
  exists m, all !! highest_index rs i h (id best) = Some m /\ forall j m', all !! j = Some m' -> id m' <= id m.
Proof.
  revert i h best. induction rs as [|m rs IH]; intros i h best Hb Hall Hd; cbn [highest_index].
  - exists best. split; [done|]. intros j m' Hj. apply (Hall j m'); [|done].
    apply lookup_lt_Some in Hj. apply (f_equal length) in Hd. rewrite length_drop in Hd. simpl in Hd. lia.
  - assert (all !! i = Some m) as Hi.
    { rewrite <- (Nat.add_0_r i), <- lookup_drop, Hd. done. }
    assert (drop (S i) all = rs) as Hd'.
    { rewrite <- Nat.add_1_r, <- drop_drop, Hd. done. }
    destruct (Z.ltb_spec (id best) (id m)).
    + apply IH; [done| |done]. intros j m' Hj Hm. destruct (decide (j = i)) as [->|]; [rewrite Hi in Hm; by injection Hm as ->|].
      specialize (Hall j m' ltac:(lia) Hm). lia.
    + apply IH; [done| |done]. intros j m' Hj Hm. destruct (decide (j = i)) as [->|].
      * rewrite Hi in Hm. injection Hm as ->. lia.
      * apply (Hall j m'); [lia|done].
Qed.

Lemma highest_of_spec rs :
  rs <> [] -> exists m, rs !! highest_of rs = Some m /\ forall m', m' ∈ rs -> id m' <= id m.
Proof.
  intros Hne. destruct rs as [|m rs]; [done|]. cbn [highest_of].
  destruct (highest_index_spec rs (m :: rs) 1 0 m) as (h & Hh & Hall); [done| |done|].
  - intros [|j] m' Hj Hm; [by injection Hm as ->|lia].
  - exists h. split; [done|]. intros m' Hin. apply list_elem_of_lookup in Hin as [j Hj]. eauto.
Qed.

(** After the slots [l]: the [max] smallest identifiers above [after]. *)
Record selected (after : Z) (max : nat) (l : slot_list) (rs : list sms_message_t) : Prop := {
  sel_from m : m ∈ rs -> Some m ∈ l /\ after < id m;
  sel_nodup : NoDup rs;
  sel_length : (length rs <= max)%nat;
  sel_all w : Some w ∈ l -> after < id w ->
    w ∈ rs \/ length rs = max /\ forall m, m ∈ rs -> id m < id w;
}.

Definition distinct (l : slot_list) : Prop :=
  forall m m', Some m ∈ l -> Some m' ∈ l -> id m = id m' -> m = m'.

Lemma selected_step after max l o rs rs' :
  (0 < max)%nat -> distinct (l ++ [o]) -> (forall m, o = Some m -> Some m ∉ l) -> selected after max l rs ->
  list_step after max (length l) o rs = Continue _ rs' -> selected after max (l ++ [o]) rs'.
Proof.
  intros Hmax Hd Hfresh [Hfrom Hnd Hlen Hall] Hs. unfold list_step in Hs.
  assert (forall m, Some m ∈ l -> Some m ∈ l ++ [o]) as Hl by (intros m Hm; apply elem_of_app; by left).
  assert (forall m, Some m ∈ l ++ [o] -> Some m ∈ l \/ o = Some m) as Hl'.
  { intros m Hm. apply elem_of_app in Hm as [Hm|Hm]; [by left|]. by apply list_elem_of_singleton in Hm; right. }
  destruct o as [m|].
  2: { injection Hs as <-. split; try done.
       - intros m Hm. destruct (Hfrom m Hm). auto.
       - intros w Hw. destruct (Hl' w Hw) as [?|[=]]. eauto. }
  specialize (Hfresh m eq_refl).
  assert (Some m ∈ l ++ [Some m]) as Hml by (apply elem_of_app; right; by apply list_elem_of_singleton).
  assert (m ∉ rs) as Hmrs by (intros Hin; by destruct (Hfrom m Hin)).
  destruct (Z.leb_spec (id m) after).
  { injection Hs as <-. split; try done.
    - intros m' Hm. destruct (Hfrom m' Hm). auto.
    - intros w Hw Hlt. destruct (Hl' w Hw) as [?|[= ->]]; [eauto|lia]. }
  destruct (Nat.ltb_spec (length rs) max).
  { injection Hs as <-. split.
    - intros m' Hm'. apply elem_of_app in Hm' as [Hm'|Hm'].
      + destruct (Hfrom m' Hm'). auto.
      + by apply list_elem_of_singleton in Hm' as ->.
    - apply NoDup_app. split_and!; [done| |apply NoDup_singleton].
      intros m' Hm' Hs. by apply list_elem_of_singleton in Hs as ->.
    - rewrite length_app. cbn. lia.
    - intros w Hw Hlt. left. apply elem_of_app.
      destruct (Hl' w Hw) as [Hw'|[= ->]]; [|right; by apply list_elem_of_singleton].
      left. destruct (Hall w Hw' Hlt) as [?|[? _]]; [done|lia]. }
  assert (length rs = max) as Hfull by lia.
  destruct (highest_of_spec rs) as (h & Hh & Hhmax); [intros ->; simpl in *; lia|].
  rewrite Hh in Hs.
  assert (h ∈ rs) as Hhin by (by apply list_elem_of_lookup_2 in Hh).
  assert (forall m', m' ∈ rs -> m' <> h -> id m' < id h) as Hlth.
  { intros m' Hm' Hne. specialize (Hhmax m' Hm'). destruct (decide (id m' = id h)) as [E|]; [|lia].
    exfalso. apply Hne, Hd; [by apply Hl, Hfrom|by apply Hl, Hfrom|done]. }
  assert (id m <> id h) as Hneq.
  { intros E. assert (m = h) as ->; [|done]. apply Hd; [done|by apply Hl, Hfrom|done]. }
  destruct (Z.ltb_spec (id m) (id h)); injection Hs as <-.
  - assert (forall x, x ∈ <[highest_of rs := m]> rs -> x = m \/ x ∈ rs /\ x <> h) as Hin.
    { intros x Hx. apply list_elem_of_lookup in Hx as [j Hj].
      apply list_lookup_insert_Some in Hj as [(_ & <- & _) | (Nj & Hj)]; [by left|right].
      split; [by apply list_elem_of_lookup_2 in Hj|]. intros ->. by apply Nj, (NoDup_lookup rs _ _ h). }
    split.
    + intros m' Hm'. destruct (Hin m' Hm') as [->|[Hm2 _]]; [done|]. destruct (Hfrom m' Hm2). auto.
    + apply NoDup_alt. intros i j x Hi Hj.
      apply list_lookup_insert_Some in Hi as [(<- & <- & _) | (Ni & Hi)];
        apply list_lookup_insert_Some in Hj as [(<- & Ex & _) | (Nj & Hj)]; try done.
      * exfalso. by apply list_elem_of_lookup_2, Hmrs in Hj.
      * subst x. exfalso. by apply list_elem_of_lookup_2, Hmrs in Hi.
      * by apply (NoDup_lookup rs i j x).
    + by rewrite length_insert.
    + intros w Hw Hlt. rewrite length_insert.
      destruct (decide (w = m)) as [->|Hwm].
      { left. apply list_elem_of_lookup. exists (highest_of rs). apply list_lookup_insert_eq.
        by apply lookup_lt_Some in Hh. }
      destruct (Hl' w Hw) as [Hw'|[= ?]]; [|congruence].
      destruct (decide (w = h)) as [->|Hwh].
      { right. split; [done|]. intros x Hx. destruct (Hin x Hx) as [->|[Hx1 Hx2]]; [done|by apply Hlth]. }
      destruct (Hall w Hw' Hlt) as [Hwrs|[_ Hgt]].
      * left. apply list_elem_of_lookup in Hwrs as [j Hj]. apply list_elem_of_lookup. exists j.
        rewrite list_lookup_insert_ne; [done|]. intros <-. rewrite Hh in Hj. congruence.
      * right. split; [done|]. intros x Hx. destruct (Hin x Hx) as [->|[Hx1 _]]; [|by apply Hgt].
        specialize (Hgt h Hhin). lia.
  - split; try done.
    + intros m' Hm'. destruct (Hfrom m' Hm'). auto.
    + intros w Hw Hlt. destruct (Hl' w Hw) as [Hw'|[= ->]]; [by apply Hall|].
      right. split; [done|]. intros x Hx. specialize (Hhmax x Hx). lia.
Qed.

Lemma fold_slots_selected after max before l rs :
  (0 < max)%nat -> unique_ids (before ++ l) -> selected after max before rs ->
  selected after max (before ++ l) (fold_slots (list_step after max) (length before) l rs).
Proof.
  intros Hmax. revert before rs. induction l as [|o l IH]; intros before rs Hu Hsel; cbn [fold_slots].
  { by rewrite app_nil_r. }
  destruct (list_step after max (length before) o rs) as [rs'|rs'] eqn:Es.
  - assert (selected after max (before ++ [o]) rs') as Hsel'.
    { eapply selected_step; [done| | |done|done].
      - intros m m' Hm Hm' E. apply list_elem_of_lookup in Hm as [i Hi]. apply list_elem_of_lookup in Hm' as [j Hj].
        assert ((before ++ o :: l) = (before ++ [o]) ++ l) as Eq by (by rewrite <- app_assoc).
        rewrite Eq in Hu.
        assert (i = j) as -> by (apply (Hu i j m m'); [by apply lookup_app_l_Some..|done]).
        rewrite Hi in Hj. by injection Hj.
      - intros m -> Hm. apply list_elem_of_lookup in Hm as [i Hi].
        assert (i = length before) as ->.
        { apply (Hu i (length before) m m); [by apply lookup_app_l_Some| |done].
          by rewrite lookup_app_r, Nat.sub_diag by lia. }
        apply lookup_lt_Some in Hi. lia. }
    specialize (IH (before ++ [o]) rs'). rewrite <- app_assoc in IH. cbn [app] in IH.
    rewrite length_app in IH. cbn [length] in IH. rewrite Nat.add_1_r in IH. by apply IH.
  - unfold list_step in Es. destruct o as [m|]; [|done]. destruct (_ <=? _); [done|].
    destruct (_ <? _)%nat; [done|]. destruct (rs !! _); [|done]. by destruct (_ <? _).
Qed.

(** ** Theorems *)

Section Spec.

Context {N : Type} `{NvsLaws N}.

Lemma find_first_spec (st : sms_store N) test :
  flash_ok (s_handle st) ->
  match find_first st test with
  | inl e => e = ESP_ERR_NOT_FOUND /\ forall k m, records (s_handle st) !! k = Some m -> test m = false
  | inr m => records (s_handle st) !! id m = Some m /\ test m = true
  end.
Proof.
  intros Hf. unfold find_first.
  pose proof (first_slot_spec (s_handle st) (fun o => match o with Some m => test m | None => false end)
                ESP_ERR_NOT_FOUND (fo_readable _ Hf)) as F.
  destruct (first_slot _ _ _) as [e|[slot o]].
  - destruct F as [-> F]. split; [done|]. intros k m Hm.
    apply records_lookup in Hm as (i & Hi & _); [|apply Hf]. apply (F _ _ Hi).
  - destruct F as (Hl & Ht & _). destruct o as [m|]; [|done]. split; [|done].
    apply records_lookup; [apply Hf|by exists slot].
Qed.

(** A search that found [m] finds what replaces it, if that passes the test. *)
Lemma find_first_replace (st st' : sms_store N) test m :
  flash_ok (s_handle st) -> flash_ok (s_handle st') -> find_first st test = inr m ->
  exists j m0, slots (s_handle st) !! j = Some (Some m0) /\ id m0 = id m /\
  forall m', slots (s_handle st') = <[j := Some m']> (slots (s_handle st)) -> test m' = true ->
    find_first st' test = inr m'.
Proof.
  intros Hf Hf' E. unfold find_first in *. set (test' := fun o : option sms_message_t => _) in *.
  pose proof (first_slot_spec (s_handle st) test' ESP_ERR_NOT_FOUND (fo_readable _ Hf)) as F.
  destruct (first_slot (s_handle st) _ _) as [e|[slot o]]; [done|]. destruct F as (Hl & Ht & Hb).
  destruct o as [m0|]; [|done]. injection E as ->. exists slot, m. split; [done|]. split; [done|].
  intros m' Es Hm'.
  pose proof (first_slot_spec (s_handle st') test' ESP_ERR_NOT_FOUND (fo_readable _ Hf')) as F'.
  assert (slots (s_handle st') !! slot = Some (Some m')) as Hs'.
  { rewrite Es. apply list_lookup_insert_eq. by apply lookup_lt_Some in Hl. }
  destruct (first_slot (s_handle st') _ _) as [e|[slot' o']].
  - destruct F' as [_ F']. specialize (F' _ _ Hs'). cbn in F'. congruence.
  - destruct F' as (Hl' & Ht' & Hb'). destruct (Nat.lt_trichotomy slot' slot) as [Hlt|[->|Hgt]].
    + rewrite Es, list_lookup_insert_ne in Hl' by lia. rewrite (Hb slot' o' Hlt Hl') in Ht'. done.
    + rewrite Hs' in Hl'. by injection Hl' as <-.
    + specialize (Hb' slot _ Hgt Hs'). cbn in Hb'. congruence.
Qed.

(** C29. A new message is stored under a fresh identifier: when
    [sms_store_save] succeeds on a message without one, the message gets the
    next identifier, which no record had, and the records are the old ones
    with it added; only if every slot was occupied, one record is gone, the
    oldest of those that may be pruned. *)
Theorem save_new (st : sms_store N) (m : sms_message_t) (st' : sms_store N) (m' : sms_message_t) :
  store_inv st -> message_ok m -> storable m = true -> id m = 0 -> next_of (s_handle st) < UINT32_MAX ->
  sms_store_save st m = (st', m', ESP_OK) ->
  let k := next_of (s_handle st) in
  store_inv st' /\ next_of (s_handle st') = k + 1 /\ m' = set_id m k /\
  records (s_handle st) !! k = None /\
  (records (s_handle st') = <[k := m']> (records (s_handle st)) \/
   exists v, evicted st v /\ records (s_handle st') = <[k := m']> (delete (id v) (records (s_handle st)))).
Proof.
  intros Hinv Hok Hs Hid Hnext E k.
  destruct (save_new_spec st m st' m' ESP_OK Hinv Hok Hs Hid Hnext E) as (Hinv' & _ & n1 & Hev & _ & Hfresh & Hrec).
  fold k in Hfresh, Hrec. rewrite bool_decide_eq_true_2 in Hrec by done. destruct Hrec as (-> & Hk & Hrec).
  split_and!; try done.
  - apply records_None; [apply Hinv|]. intros i w Hi Ek. pose proof (fo_below _ (proj2 Hinv) i w Hi). lia.
  - rewrite Hrec. destruct Hev as [-> | (v & Hv & ->)]; [by left|right; by exists v].
Qed.

(** A message with an identifier replaces the record of that identifier,
    or is added; nothing else changes.  When the save fails, the record is the
    old or the new one and nothing else changes. *)
Theorem save_existing (st : sms_store N) (m : sms_message_t) (st' : sms_store N) (m' : sms_message_t)
    (e : esp_err_t) :
  store_inv st -> message_ok m -> storable m = true -> id m <> 0 -> id m < next_of (s_handle st) ->
  sms_store_save st m = (st', m', e) ->
  store_inv st' /\ m' = m /\
  if bool_decide (e = ESP_OK) then records (s_handle st') = <[id m := m]> (records (s_handle st))
  else records (s_handle st') = records (s_handle st) \/
       records (s_handle st') = <[id m := m]> (records (s_handle st)).
Proof.
  intros Hinv Hok Hs Hid Hlt E.
  by destruct (save_existing_spec st m st' m' e Hinv Hok Hs Hid Hlt E) as (? & _ & ? & _ & ?).
Qed.

(** A record that is still to be sent, reported, assembled or replayed. *)
Definition still_needed (st : sms_store N) (w : sms_message_t) : Prop :=
  match status w with
  | SMS_MESSAGE_PARTIAL | SMS_MESSAGE_QUEUED | SMS_MESSAGE_SENDING | SMS_MESSAGE_UNCERTAIN => True
  | SMS_MESSAGE_SENT => delivery_report_requested w = true
  | SMS_MESSAGE_RECEIVED => s_replay_protection_enabled st = true /\ s_replay_watermark st < id w
  | SMS_MESSAGE_DELIVERED | SMS_MESSAGE_FAILED | SMS_MESSAGE_UNSUPPORTED => False
  end.

Lemma still_needed_kept st w : still_needed st w -> record_prunable st w = false.
Proof.
  unfold still_needed, record_prunable. destruct (status w); try done.
  - intros [-> ?]. cbn [negb orb]. lia.
  - by intros ->.
Qed.

(** C7. No save, successful or not, loses a record that must not be pruned:
    partial, queued, sending and uncertain messages, sent ones that wait for a
    report and received ones above the watermark stay as they are. *)
Theorem save_keeps_live (st : sms_store N) (m : sms_message_t) (st' : sms_store N) (m' : sms_message_t)
    (e : esp_err_t) (k : Z) (w : sms_message_t) :
  store_inv st -> message_ok m -> storable m = true -> id m < next_of (s_handle st) ->
  next_of (s_handle st) < UINT32_MAX ->
  sms_store_save st m = (st', m', e) ->
  records (s_handle st) !! k = Some w -> k <> id m -> still_needed st w ->
  store_inv st' /\ records (s_handle st') !! k = Some w.
Proof.
  intros Hinv Hok Hs Hlt Hnext E Hw Hk Hp%still_needed_kept. destruct (decide (id m = 0)) as [Hid|Hid].
  - destruct (save_new_spec st m st' m' e Hinv Hok Hs Hid Hnext E) as (Hinv' & _ & n1 & Hev & _ & Hfresh & Hrec).
    split; [done|]. set (next := next_of (s_handle st)) in *.
    assert (records n1 !! k = Some w) as Hw1.
    { destruct Hev as [-> | (v & (_ & Hv & Hpv & _) & ->)]; [done|]. rewrite lookup_delete_ne; [done|].
      intros Ev. rewrite Ev, Hw in Hv. congruence. }
    assert (k <> next) by (intros ->; congruence).
    case_bool_decide.
    + destruct Hrec as (_ & _ & ->). by rewrite lookup_insert_ne.
    + destruct Hrec as [-> | ->]; [done|]. by rewrite lookup_insert_ne.
  - destruct (save_existing_spec st m st' m' e Hinv Hok Hs Hid Hlt E) as (Hinv' & _ & _ & _ & Hrec). split; [done|].
    case_bool_decide; [rewrite Hrec; by rewrite lookup_insert_ne|].
    destruct Hrec as [-> | ->]; [done|]. by rewrite lookup_insert_ne.
Qed.

(** Lookup. *)
Lemma get_spec (st : sms_store N) (k : Z) :
  store_inv st -> k <> 0 ->
  sms_store_get st k =
    match records (s_handle st) !! k with
    | Some m => inr m
    | None => inl ESP_ERR_NOT_FOUND
    end.
Proof.
  intros [Hinit Hf] Hk. unfold sms_store_get. rewrite Hinit. destruct (Z.eqb_spec k 0); [done|]. cbn [negb orb].
  pose proof (find_id_slot_spec (s_handle st) k Hf) as F. destruct (find_id_slot _ _) as [e|slot].
  - by destruct F as [-> ->].
  - destruct F as (m & Hl & _ & ->). apply load_found_spec; [apply Hf|done].
Qed.

(** [sms_store_get] is the map's lookup. *)
Theorem get_lookup (st : sms_store N) (k : Z) :
  store_inv st -> k <> 0 ->
  sms_store_get st k =
    match records (s_handle st) !! k with
    | Some m => inr m
    | None => inl ESP_ERR_NOT_FOUND
    end.
Proof. apply get_spec. Qed.

Lemma delete_next (st : sms_store N) (k : Z) (st' : sms_store N) (e : esp_err_t) :
  store_inv st -> sms_store_delete st k = (st', e) -> next_of (s_handle st') = next_of (s_handle st).
Proof.
  intros [_ Hf] E. unfold sms_store_delete in E. destruct (_ || _); [by injection E as <- <-|].
  pose proof (find_id_slot_spec (s_handle st) k Hf) as F. destruct (find_id_slot _ _) as [e0|slot].
  { by injection E as <- <-. }
  destruct F as (m & Hl & _ & _). destruct (erase_slot (s_handle st) slot) as [n' err] eqn:Ee.
  injection E as <- <-.
  destruct (erase_slot_spec _ _ _ _ (fo_readable _ Hf) (slots_bound _ _ _ Hl) Ee) as [_ [Hk|Hs]];
    apply next_of_same; [apply Hk|apply Hs].
Qed.

(** What a delete does to the records. *)
Lemma delete_spec (st : sms_store N) (k : Z) (st' : sms_store N) (e : esp_err_t) :
  store_inv st -> k <> 0 -> sms_store_delete st k = (st', e) ->
  store_inv st' /\
  (e = ESP_OK -> records (s_handle st') = delete k (records (s_handle st))) /\
  (records (s_handle st) !! k = None -> e = ESP_ERR_NOT_FOUND) /\
  (records (s_handle st') = records (s_handle st) \/
   records (s_handle st') = delete k (records (s_handle st))).
Proof.
  intros [Hinit Hf] Hk E. unfold sms_store_delete in E. rewrite Hinit in E.
  destruct (Z.eqb_spec k 0); [done|]. cbn [negb orb] in E.
  pose proof (find_id_slot_spec (s_handle st) k Hf) as F. destruct (find_id_slot _ _) as [e0|slot].
  - destruct F as [-> F]. injection E as <- <-. split_and!; try done. by left.
  - destruct F as (m & Hl & Em & Hm). destruct (erase_slot (s_handle st) slot) as [n' err] eqn:Ee.
    injection E as <- <-.
    destruct (erase_slot_spec _ _ _ _ (fo_readable _ Hf) (slots_bound _ _ _ Hl) Ee) as [Hok Hany].
    assert (slot_set (s_handle st) n' slot None ->
            flash_ok n' /\ records n' = delete k (records (s_handle st))) as Hset.
    { intros Hs. destruct (flash_ok_erase _ _ _ Hf Hs) as [? Hrec]. rewrite <- Em. auto. }
    cbn [s_handle set_handle]. split_and!.
    + split; [done|]. cbn. destruct Hany as [Hkept|Hs]; [by apply (flash_ok_kept (s_handle st))|by apply Hset].
    + intros Hok'. by apply Hset, Hok.
    + by rewrite Hm.
    + destruct Hany as [Hkept|Hs]; [left; by apply (flash_ok_kept (s_handle st))|right; by apply Hset].
Qed.

(** [sms_store_delete] removes the record and nothing else; when it fails
    the record may still be there. *)
Theorem delete_removes (st : sms_store N) (k : Z) (st' : sms_store N) (e : esp_err_t) :
  store_inv st -> k <> 0 -> sms_store_delete st k = (st', e) ->
  store_inv st' /\
  (e = ESP_OK -> records (s_handle st') = delete k (records (s_handle st))) /\
  (records (s_handle st) !! k = None -> e = ESP_ERR_NOT_FOUND) /\
  (records (s_handle st') = records (s_handle st) \/
   records (s_handle st') = delete k (records (s_handle st))).
Proof. apply delete_spec. Qed.

(** The oldest record with a status. *)
Lemma find_status_spec (st : sms_store N) (s : sms_message_status_t) :
  store_inv st ->
  match sms_store_find_status st s with
  | inr m => records (s_handle st) !! id m = Some m /\ status m = s /\
      forall k w, records (s_handle st) !! k = Some w -> status w = s -> id m <= k
  | inl e => e = ESP_ERR_NOT_FOUND /\ forall k w, records (s_handle st) !! k = Some w -> status w <> s
  end.
Proof.
  intros [Hinit Hf]. unfold sms_store_find_status. rewrite Hinit. cbn [negb].
  pose proof (oldest_slot_spec (s_handle st) (fun m => bool_decide (status m = s)) ESP_ERR_NOT_FOUND
                (fo_readable _ Hf)) as F.
  destruct (oldest_slot _ _ _) as [e|slot].
  - destruct F as [-> F]. split; [done|]. intros k w Hw Es.
    apply records_lookup in Hw as (i & Hi & _); [|apply Hf].
    specialize (F i w Hi ltac:(by apply bool_decide_eq_true_2)).
    pose proof (fo_below _ Hf i w Hi). pose proof (fo_next _ Hf). lia.
  - destruct F as (m & Hl & Es & _ & Hmin). apply bool_decide_eq_true_1 in Es.
    rewrite (load_found_spec _ _ m) by (apply Hf || done). split_and!; [|done|].
    + apply records_lookup; [apply Hf|by exists slot].
    + intros k w Hw Ew. apply records_lookup in Hw as (i & Hi & <-); [|apply Hf].
      apply (Hmin i w Hi). by apply bool_decide_eq_true_2.
Qed.

(** [sms_store_find_status] returns the oldest record with the status,
    and [ESP_ERR_NOT_FOUND] only when there is none. *)
Theorem find_status_oldest (st : sms_store N) (s : sms_message_status_t) :
  store_inv st ->
  match sms_store_find_status st s with
  | inr m => records (s_handle st) !! id m = Some m /\ status m = s /\
      forall k w, records (s_handle st) !! k = Some w -> status w = s -> id m <= k
  | inl e => e = ESP_ERR_NOT_FOUND /\ forall k w, records (s_handle st) !! k = Some w -> status w <> s
  end.
Proof. apply find_status_spec. Qed.

(** The records listed. *)
Lemma list_spec (st : sms_store N) (after_id : Z) (max_records : nat) :
  store_inv st -> (0 < max_records)%nat ->
  exists ms, sms_store_list st after_id max_records = inr ms /\
    StronglySorted id_lt ms /\ (length ms <= max_records)%nat /\
    (forall m, m ∈ ms -> records (s_handle st) !! id m = Some m /\ after_id < id m) /\
    (forall k w, records (s_handle st) !! k = Some w -> after_id < k ->
       w ∈ ms \/ length ms = max_records /\ forall m, m ∈ ms -> id m < k).
Proof.
  intros [Hinit Hf] Hmax. unfold sms_store_list. rewrite Hinit.
  destruct (Nat.eqb_spec max_records 0); [lia|]. cbn [negb orb].
  rewrite for_slots_readable by apply Hf.
  pose proof (fold_slots_selected after_id max_records [] (slots (s_handle st)) [] Hmax (fo_unique _ Hf)) as F.
  cbn [app length] in F. set (rs := fold_slots _ _ _ _) in *.
  destruct F as [Hfrom Hnd Hlen Hall].
  { split; [by intros m Hm%elem_of_nil|constructor|simpl; lia|]. by intros w Hw%elem_of_nil. }
  destruct (insertion_sort_spec rs) as [Hp Hsort]. eexists. split; [done|].
  assert (forall m, m ∈ rs -> records (s_handle st) !! id m = Some m /\ after_id < id m) as Hin.
  { intros m Hm. destruct (Hfrom m Hm) as [Hm' ?]. split; [|done].
    apply list_elem_of_lookup in Hm' as [i Hi]. apply records_lookup; [apply Hf|by exists i]. }
  split_and!.
  - assert (NoDup (insertion_sort rs)) as Hnd' by (by rewrite Hp).
    assert (forall m, m ∈ insertion_sort rs -> records (s_handle st) !! id m = Some m) as Hrec.
    { intros m Hm. apply Hin. by rewrite <- Hp. }
    clear -Hsort Hnd' Hrec. induction Hsort as [|x l Hs IH Hx]; [constructor|].
    apply NoDup_cons in Hnd' as [Hxl Hnd']. constructor.
    + apply IH; [done|]. intros m Hm. apply Hrec. by right.
    + apply Forall_forall. intros y Hy. rewrite Forall_forall in Hx. specialize (Hx y Hy). unfold id_lt, id_le in *.
      destruct (decide (id x = id y)) as [E|]; [|lia]. exfalso. apply Hxl.
      pose proof (Hrec x ltac:(by left)) as Rx. pose proof (Hrec y ltac:(by right)) as Ry.
      rewrite E, Ry in Rx. by injection Rx as ->.
  - by rewrite Hp.
  - intros m Hm. apply Hin. by rewrite <- Hp.
  - intros k w Hw Hlt. apply records_lookup in Hw as (i & Hi & <-); [|apply Hf].
    destruct (Hall w) as [Hin'|[Hl Hgt]]; [by apply list_elem_of_lookup; exists i|done| |].
    + left. by rewrite Hp.
    + right. rewrite Hp. split; [done|]. intros m Hm. apply Hgt. by rewrite <- Hp.
Qed.

(** [sms_store_list] returns, in ascending order, the records above
    [after_id] with the smallest identifiers: as many as there are, or as the
    caller has room for, and then every record left out is above them all. *)
Theorem list_smallest (st : sms_store N) (after_id : Z) (max_records : nat) :
  store_inv st -> (0 < max_records)%nat ->
  exists ms, sms_store_list st after_id max_records = inr ms /\
    StronglySorted id_lt ms /\ (length ms <= max_records)%nat /\
    (forall m, m ∈ ms -> records (s_handle st) !! id m = Some m /\ after_id < id m) /\
    (forall k w, records (s_handle st) !! k = Some w -> after_id < k ->
       w ∈ ms \/ length ms = max_records /\ forall m, m ∈ ms -> id m < k).
Proof. apply list_spec. Qed.

(** The search for a copy of a message. *)
Lemma find_identity_spec (st : sms_store N) (sender0 scts : list Z) (e : sms_encoding_t) (text0 : list Z) :
  store_inv st ->
  match sms_store_find_inbound_identity st (Some sender0) (Some scts) e (Some text0) with
  | inr m => records (s_handle st) !! id m = Some m /\ direction m = SMS_DIRECTION_INBOUND /\
      status m = SMS_MESSAGE_RECEIVED /\ encoding m = e /\ c_str (sender m) = c_str sender0 /\
      c_str (service_center_timestamp m) = c_str scts /\ c_str (text m) = c_str text0
  | inl err => err = ESP_ERR_NOT_FOUND /\
      forall k m, records (s_handle st) !! k = Some m -> direction m = SMS_DIRECTION_INBOUND ->
        status m = SMS_MESSAGE_RECEIVED -> encoding m = e -> c_str (sender m) = c_str sender0 ->
        c_str (service_center_timestamp m) = c_str scts -> c_str (text m) <> c_str text0
  end.
Proof.
  intros [Hinit Hf]. cbn [sms_store_find_inbound_identity]. rewrite Hinit. cbn [negb].
  pose proof (find_first_spec st (identity_matches sender0 scts e text0) Hf) as F.
  unfold identity_matches, is_inbound, streq in F. destruct (find_first _ _) as [err|m].
  - destruct F as [-> F]. split; [done|]. intros k m Hm H1 H2 H3 H4 H5 H6. specialize (F k m Hm).
    cbv beta in F. by rewrite !bool_decide_eq_true_2 in F.
  - destruct F as [Hm F]. split; [done|]. rewrite !andb_true_iff, !bool_decide_eq_true in F. tauto.
Qed.

(** Deduplication finds what is there: [sms_store_find_inbound_identity]
    returns a stored complete inbound message with the same sender, timestamp,
    encoding and text, and reports [ESP_ERR_NOT_FOUND] only if there is none. *)
Theorem find_identity_complete (st : sms_store N) (sender0 scts : list Z) (e : sms_encoding_t) (text0 : list Z) :
  store_inv st ->
  match sms_store_find_inbound_identity st (Some sender0) (Some scts) e (Some text0) with
  | inr m => records (s_handle st) !! id m = Some m /\ direction m = SMS_DIRECTION_INBOUND /\
      status m = SMS_MESSAGE_RECEIVED /\ encoding m = e /\ c_str (sender m) = c_str sender0 /\
      c_str (service_center_timestamp m) = c_str scts /\ c_str (text m) = c_str text0
  | inl err => err = ESP_ERR_NOT_FOUND /\
      forall k m, records (s_handle st) !! k = Some m -> direction m = SMS_DIRECTION_INBOUND ->
        status m = SMS_MESSAGE_RECEIVED -> encoding m = e -> c_str (sender m) = c_str sender0 ->
        c_str (service_center_timestamp m) = c_str scts -> c_str (text m) <> c_str text0
  end.
Proof. apply find_identity_spec. Qed.

End Spec.

(** ** Examples: a store in memory *)

Definition empty_store : sms_store mem_nvs := mk_store mem_empty true 0 0 0 true.

Lemma empty_store_inv : store_inv empty_store.
Proof.
  assert (forall i, load_slot (s_handle empty_store) i = inr None) as Hl by done.
  assert (forall i m, slots (s_handle empty_store) !! i <> Some (Some m)) as Hs.
  { intros i m Hi. pose proof (slots_bound _ _ _ Hi). rewrite slots_lookup in Hi by done.
    unfold slot_msg in Hi. by rewrite Hl in Hi. }
  split; [done|]. split.
  - intros i _. by eexists.
  - intros i j m m' Hi. by destruct (Hs i m).
  - intros i m Hi. by destruct (Hs i m).
  - intros i m Hi. by destruct (Hs i m).
  - change (1 <= 1 <= 4294967295). lia.
Qed.

Lemma sample_storable s n : storable (sample_message n s) = true.
Proof. vm_compute. reflexivity. Qed.

Definition sample_save : sms_store mem_nvs * sms_message_t * esp_err_t :=
  sms_store_save empty_store (sample_message 0 SMS_MESSAGE_RECEIVED).

Lemma sample_save_ok : sample_save = (sample_save.1.1, sample_save.1.2, ESP_OK).
Proof.
  rewrite (surjective_pairing sample_save) at 1. rewrite (surjective_pairing sample_save.1) at 1.
  f_equal; vm_compute; reflexivity.
Qed.

(** The store with one received message. *)
Definition sample_store : sms_store mem_nvs := sample_save.1.1.

Lemma sample_next : next_of (s_handle sample_store) = 2.
Proof. vm_compute. reflexivity. Qed.

Lemma sample_store_facts :
  store_inv sample_store /\ records (s_handle sample_store) !! 1 = Some (sample_message 1 SMS_MESSAGE_RECEIVED).
Proof.
  destruct (save_new_spec empty_store (sample_message 0 SMS_MESSAGE_RECEIVED) _ _ _ empty_store_inv
              (sample_message_ok 0 _ ltac:(unfold uint32; lia)) (sample_storable _ _) eq_refl
              ltac:(vm_compute; reflexivity) sample_save_ok) as (Hinv & _ & n1 & _ & _ & _ & Hrec).
  rewrite bool_decide_eq_true_2 in Hrec by done. destruct Hrec as (Em & _ & Hr). split; [exact Hinv|].
  unfold sample_store. rewrite Hr, Em. apply lookup_insert_eq.
Qed.

Lemma save_new_witness :
  next_of (s_handle sample_store) = 2 /\ sample_save.1.2 = sample_message 1 SMS_MESSAGE_RECEIVED.
Proof.
  destruct (save_new empty_store (sample_message 0 SMS_MESSAGE_RECEIVED) _ _ empty_store_inv
              (sample_message_ok 0 _ ltac:(unfold uint32; lia)) (sample_storable _ _) eq_refl
              ltac:(vm_compute; reflexivity) sample_save_ok) as (_ & Hk & Hm & _).
  split; [exact Hk|exact Hm].
Defined.

Definition sample_update : sms_store mem_nvs * sms_message_t * esp_err_t :=
  sms_store_save sample_store (sample_message 1 SMS_MESSAGE_UNSUPPORTED).

Lemma sample_update_ok : sample_update = (sample_update.1.1, sample_update.1.2, ESP_OK).
Proof.
  rewrite (surjective_pairing sample_update) at 1. rewrite (surjective_pairing sample_update.1) at 1.
  f_equal; vm_compute; reflexivity.
Qed.

Lemma save_existing_witness :
  records (s_handle sample_update.1.1) =
    <[1 := sample_message 1 SMS_MESSAGE_UNSUPPORTED]> (records (s_handle sample_store)).
Proof.
  destruct (save_existing sample_store (sample_message 1 SMS_MESSAGE_UNSUPPORTED) _ _ _
              (proj1 sample_store_facts) (sample_message_ok 1 _ ltac:(unfold uint32; lia)) (sample_storable _ _)
              ltac:(discriminate) ltac:(rewrite sample_next; cbn; lia) sample_update_ok) as (_ & _ & Hr).
  rewrite bool_decide_eq_true_2 in Hr by reflexivity. exact Hr.
Defined.

Definition sample_second : sms_store mem_nvs * sms_message_t * esp_err_t :=
  sms_store_save sample_store (sample_message 0 SMS_MESSAGE_QUEUED).

Lemma sample_second_ok : sample_second = (sample_second.1.1, sample_second.1.2, ESP_OK).
Proof.
  rewrite (surjective_pairing sample_second) at 1. rewrite (surjective_pairing sample_second.1) at 1.
  f_equal; vm_compute; reflexivity.
Qed.

Lemma save_keeps_live_witness :
  records (s_handle sample_second.1.1) !! 1 = Some (sample_message 1 SMS_MESSAGE_RECEIVED).
Proof.
  apply (save_keeps_live sample_store (sample_message 0 SMS_MESSAGE_QUEUED) sample_second.1.1 sample_second.1.2
           ESP_OK 1 (sample_message 1 SMS_MESSAGE_RECEIVED)).
  - apply sample_store_facts.
  - apply sample_message_ok. unfold uint32. lia.
  - apply sample_storable.
  - rewrite sample_next. cbn. lia.
  - rewrite sample_next. unfold UINT32_MAX. lia.
  - apply sample_second_ok.
  - apply sample_store_facts.
  - discriminate.
  - vm_compute. split; reflexivity.
Defined.

Lemma get_lookup_witness : sms_store_get sample_store 1 = inr (sample_message 1 SMS_MESSAGE_RECEIVED).
Proof.
  rewrite (get_lookup sample_store 1 (proj1 sample_store_facts) ltac:(discriminate)).
  rewrite (proj2 sample_store_facts). reflexivity.
Defined.

Lemma delete_removes_witness :
  records (s_handle (sms_store_delete sample_store 1).1) = delete 1 (records (s_handle sample_store)).
Proof.
  destruct (delete_removes sample_store 1 (sms_store_delete sample_store 1).1 ESP_OK (proj1 sample_store_facts))
    as (_ & H & _).
  - discriminate.
  - rewrite (surjective_pairing (sms_store_delete sample_store 1)) at 1. f_equal; vm_compute; reflexivity.
  - apply H. reflexivity.
Defined.

Lemma find_status_oldest_witness :
  exists m, sms_store_find_status sample_store SMS_MESSAGE_RECEIVED = inr m /\ status m = SMS_MESSAGE_RECEIVED.
Proof.
  pose proof (find_status_oldest sample_store SMS_MESSAGE_RECEIVED (proj1 sample_store_facts)) as F.
  destruct (sms_store_find_status sample_store SMS_MESSAGE_RECEIVED) as [e|m].
  - destruct F as [_ F]. destruct (F 1 _ (proj2 sample_store_facts) eq_refl).
  - exists m. split; [reflexivity|apply F].
Defined.

Lemma list_smallest_witness :
  exists ms, sms_store_list sample_store 0 10 = inr ms /\ sample_message 1 SMS_MESSAGE_RECEIVED ∈ ms.
Proof.
  destruct (list_smallest sample_store 0 10 (proj1 sample_store_facts) ltac:(lia))
    as (ms & E & _ & _ & Hm & H).
  exists ms. split; [exact E|].
  destruct (H 1 _ (proj2 sample_store_facts) ltac:(lia)) as [Hin|[Hl _]]; [exact Hin|].
  assert (sms_store_list sample_store 0 10 = inr [sample_message 1 SMS_MESSAGE_RECEIVED]) as E'
    by (vm_compute; reflexivity).
  rewrite E in E'. injection E' as ->. discriminate Hl.
Defined.

Lemma find_identity_complete_witness :
  exists m, sms_store_find_inbound_identity sample_store (Some (str "+491701234"))
      (Some (str "2024-05-01T10:00:00+02:00")) SMS_ENCODING_GSM7 (Some (str "Hello")) = inr m /\
    c_str (text m) = str "Hello".
Proof.
  pose proof (find_identity_complete sample_store (str "+491701234") (str "2024-05-01T10:00:00+02:00")
                SMS_ENCODING_GSM7 (str "Hello") (proj1 sample_store_facts)) as F.
  destruct (sms_store_find_inbound_identity _ _ _ _ _) as [e|m].
  - destruct F as [_ F]. exfalso.
    apply (F 1 _ (proj2 sample_store_facts) eq_refl eq_refl eq_refl); vm_compute; reflexivity.
  - exists m. split; [reflexivity|apply F].
Defined.
