(* ===== verification/GatewaySecurity.v ===== *)
(** * The API token (components/gateway_security/gateway_security.c)

    The bearer token of the management interface is kept as its SHA-256, in
    NVS and in memory.  SHA-256 is code of the crypto library: what it wrote, or
    [None] when it failed.  Random bytes, and what [nvs_open] answers, are
    arguments.  Wiping of local copies from memory is left out. *)

From Stdlib Require Import Ascii String.
From Stdlib Require Import ZifyBool ZifyNat.
From stdpp Require Import base numbers list strings.
From S2P Require Import Prelude.
From S2P Require Import Nvs.

Open Scope Z_scope.

Definition GATEWAY_API_TOKEN_HEX_LEN : nat := 64.
Definition GATEWAY_SHA256_LEN : nat := 32.
Definition TOKEN_HASH_KEY : list Z := str "api_hash".

(** ** Digests *)

(** [diff == 0] behind the loop over both arrays. *)
Definition constant_equal (a b : list Z) (len : nat) : bool :=
  fold_left (fun diff i => Z.lor diff (u8 (Z.lxor (a.[i]) (b.[i])))) (seq 0 len) 0 =? 0.

Definition hex_digit (nibble : Z) : Z := (str "0123456789abcdef").[Z.to_nat nibble].

(** Without the terminator. *)
Fixpoint hex_encode (src : list Z) : list Z :=
  match src with
  | [] => []
  | b :: src' => hex_digit (Z.land (Z.shiftr b 4) 0x0f) :: hex_digit (Z.land b 0x0f) :: hex_encode src'
  end.

Section Security.

Context {N : Type} `{Nvs N}.

Variable psa_hash_compute : list Z -> option (list Z).

Definition gateway_security_sha256 (data : list Z) : esp_err_t + list Z :=
  match psa_hash_compute data with
  | Some out => if (length out =? GATEWAY_SHA256_LEN)%nat then inr out else inl ESP_FAIL
  | None => inl ESP_FAIL
  end.

(** ** The token *)

(** The namespace in flash, and the static variables. *)
Record security := mk_security {
  sec_nvs : N;
  token_hash : list Z;
  sec_initialized : bool;
}.

Definition set_hash (st : security) (n : N) (hash : list Z) : security := mk_security n hash (sec_initialized st).

Definition start (st : security) : security := mk_security (sec_nvs st) (token_hash st) true.

(** Store a digest: [nvs_set_blob] and [nvs_commit]. *)
Definition store_hash (n : N) (digest : list Z) : N * esp_err_t :=
  let '(n, err) := nvs_set_blob n TOKEN_HASH_KEY digest in
  if bool_decide (err = ESP_OK) then nvs_commit n else (n, err).

(** The part behind the random bytes: the new state, the error and the token
    buffer. *)
Definition bootstrap (random_bytes bootstrap_token : list Z) (st : security) : security * esp_err_t * list Z :=
  let token := set_string bootstrap_token (hex_encode random_bytes) in
  let '(st, err) :=
    match gateway_security_sha256 (c_str token) with
    | inl err => (st, err)
    | inr hash => let '(n, err) := store_hash (sec_nvs st) hash in (set_hash st n hash, err)
    end in
  if bool_decide (err <> ESP_OK)
  then (set_hash st (sec_nvs st) (zeros GATEWAY_SHA256_LEN), err, zeros (length bootstrap_token))
  else (start st, ESP_OK, token).

(** The state, the error, [*generated] and [bootstrap_token]; [generated] is
    not NULL. *)
Definition gateway_security_init (bootstrap_token : option (list Z)) (open : esp_err_t) (random_bytes : list Z)
    (st : security) : security * esp_err_t * bool * option (list Z) :=
  let bootstrap_token :=
    match bootstrap_token with
    | Some token => Some (if (0 <? length token)%nat then set_string token [] else token)
    | None => None
    end in
  if bool_decide (open <> ESP_OK) then (st, open, false, bootstrap_token)
  else
    match nvs_get_blob (sec_nvs st) TOKEN_HASH_KEY GATEWAY_SHA256_LEN with
    | inr blob =>
        let st := set_hash st (sec_nvs st) (blob ++ drop (length blob) (token_hash st)) in
        if (length blob =? GATEWAY_SHA256_LEN)%nat then (start st, ESP_OK, false, bootstrap_token)
        else (st, ESP_ERR_INVALID_SIZE, false, bootstrap_token)
    | inl err =>
        if bool_decide (err <> ESP_ERR_NVS_NOT_FOUND) then (st, err, false, bootstrap_token)
        else
          match bootstrap_token with
          | None => (start st, ESP_OK, false, bootstrap_token)
          | Some token =>
              if (length token =? 0)%nat then (start st, ESP_OK, false, bootstrap_token)
              else if (length token <? GATEWAY_API_TOKEN_HEX_LEN + 1)%nat
              then (st, ESP_ERR_INVALID_SIZE, false, bootstrap_token)
              else
                let '(st, err, token) := bootstrap random_bytes token st in
                (st, err, bool_decide (err = ESP_OK), Some token)
          end
    end.

Definition token_length_ok (token : list Z) : bool :=
  negb ((strlen token <? 32)%nat || (128 <? strlen token)%nat).

Definition gateway_security_set_token (token : option (list Z)) (open : esp_err_t) (st : security)
  : security * esp_err_t :=
  match token with
  | None => (st, ESP_ERR_INVALID_ARG)
  | Some token =>
      if negb (token_length_ok token) then (st, ESP_ERR_INVALID_ARG)
      else
        match gateway_security_sha256 (c_str token) with
        | inl err => (st, err)
        | inr digest =>
            if bool_decide (open <> ESP_OK) then (st, open)
            else
              let '(n, err) := store_hash (sec_nvs st) digest in
              (set_hash st n (if bool_decide (err = ESP_OK) then digest else token_hash st), err)
        end
  end.

(** The state, the error and [out]. *)
Definition gateway_security_generate_token (out : option (list Z)) (open : esp_err_t) (random_bytes : list Z)
    (st : security) : security * esp_err_t * option (list Z) :=
  match out with
  | None => (st, ESP_ERR_INVALID_ARG, out)
  | Some buffer =>
      if (length buffer <? GATEWAY_API_TOKEN_HEX_LEN + 1)%nat then (st, ESP_ERR_INVALID_ARG, out)
      else
        let token := set_string buffer (hex_encode random_bytes) in
        let '(st, err) := gateway_security_set_token (Some token) open st in
        (st, err, Some (if bool_decide (err <> ESP_OK) then zeros (length buffer) else token))
  end.

Definition gateway_security_has_token (st : security) : bool :=
  sec_initialized st && negb (fold_left Z.lor (token_hash st) 0 =? 0).

Definition gateway_security_validate_bearer (token : option (list Z)) (st : security) : bool :=
  match token with
  | None => false
  | Some token =>
      if negb (sec_initialized st) then false
      else if negb (token_length_ok token) then false
      else match gateway_security_sha256 (c_str token) with
           | inl _ => false
           | inr candidate => constant_equal candidate (token_hash st) GATEWAY_SHA256_LEN
           end
  end.

End Security.

Arguments security N : clear implicits.

(** ** Digests as bytes and as text *)

Definition hash_ok (h : list Z) : Prop := length h = GATEWAY_SHA256_LEN /\ bytes h.

Lemma byte_eq_xor a b : is_byte a -> is_byte b -> u8 (Z.lxor a b) = 0 -> a = b.
Proof.
  unfold is_byte. intros Ha Hb E. apply Z.lxor_eq. rewrite <- E. symmetry. unfold u8. apply Z.mod_small.
  split; [apply Z.lxor_nonneg; lia|]. destruct (Z.eq_dec (Z.lxor a b) 0) as [->|Hne]; [lia|].
  apply (Z.log2_lt_pow2 (Z.lxor a b) 8); [pose proof (proj2 (Z.lxor_nonneg a b)); lia|].
  pose proof (Z.log2_lxor a b ltac:(lia) ltac:(lia)).
  assert (forall x, 0 <= x < 256 -> Z.log2 x < 8) as Hlog.
  { intros x Hx. destruct (Z.eq_dec x 0) as [->|]; [cbn; lia|]. apply Z.log2_lt_pow2; lia. }
  pose proof (Hlog a Ha). pose proof (Hlog b Hb). lia.
Qed.

Lemma lor_fold_zero (f : nat -> Z) l d :
  fold_left (fun diff i => Z.lor diff (f i)) l d = 0 <-> d = 0 /\ Forall (fun i => f i = 0) l.
Proof.
  revert d. induction l as [|i l IH]; intros d; cbn [fold_left].
  - split; [by intros ->|by intros [-> _]].
  - rewrite IH, Z.lor_eq_0_iff, Forall_cons. tauto.
Qed.

Lemma constant_equal_spec n a b :
  length a = n -> length b = n -> bytes a -> bytes b -> constant_equal a b n = bool_decide (a = b).
Proof.
  intros La Lb Ba Bb. apply eq_bool_prop_intro. rewrite bool_decide_spec. unfold constant_equal.
  rewrite Is_true_true, Z.eqb_eq, (lor_fold_zero (fun i => u8 (Z.lxor (a.[i]) (b.[i])))). split.
  - intros [_ Hall]. apply list_eq_same_length with n; [done|done|].
    intros i x y Hi Hx Hy. rewrite Forall_forall in Hall. specialize (Hall i ltac:(apply elem_of_seq; lia)).
    cbv beta in Hall. pose proof (bytes_at a i Ba). pose proof (bytes_at b i Bb). unfold byte_at in *.
    rewrite (nth_lookup_Some _ _ _ _ Hx), (nth_lookup_Some _ _ _ _ Hy) in *. by apply byte_eq_xor.
  - intros ->. split; [done|]. apply Forall_forall. intros i _. by rewrite Z.lxor_nilpotent.
Qed.
