(* ===== verification/GatewayDiag.v ===== *)
(** * Diagnostics across resets (components/gateway_diag/gateway_diag.c)

    Why the gateway was reset, how often in a row, what the last crash was, and
    the safe mode that follows from it.  A boot clears the static variables and
    keeps RTC memory, NVS and the core dump partition.  The platform's answers
    at a boot are the record [boot_environment]; a character array is the
    string in it.  [CONFIG_ESP_COREDUMP_ENABLE_TO_FLASH] is set. *)

From Stdlib Require Import Ascii String.
From Stdlib Require Import ZifyBool ZifyNat.
From stdpp Require Import base numbers list strings.
From S2P Require Import Prelude.
From S2P Require Import Nvs.
From S2P Require Import GatewaySecurity.

Open Scope Z_scope.

Definition GATEWAY_DIAG_CRASH_TEXT_MAX : nat := 192.
Definition DIAG_NAMESPACE : list Z := str "gw_diag".
Definition DIAG_CRASH_KEY : list Z := str "last_crash".
Definition DIAG_FATAL_KEY : list Z := str "boot_fatal".
Definition DIAG_RESTART_KEY : list Z := str "restart".
Definition DIAG_RESTART_TEXT_MAX : nat := 64.
Definition DIAG_RTC_MAGIC : Z := 0x53474449.
Definition DIAG_SAFE_MODE_CRASHES : Z := 3.
Definition DIAG_SAFE_MODE_DEEP_CRASHES : Z := 6.
Definition DIAG_BACKTRACE_ENTRIES : nat := 8.

(** Of ESP-IDF. *)
Inductive esp_reset_reason_t :=
  | ESP_RST_UNKNOWN | ESP_RST_POWERON | ESP_RST_EXT | ESP_RST_SW | ESP_RST_PANIC | ESP_RST_INT_WDT
  | ESP_RST_TASK_WDT | ESP_RST_WDT | ESP_RST_DEEPSLEEP | ESP_RST_BROWNOUT | ESP_RST_SDIO | ESP_RST_USB
  | ESP_RST_JTAG | ESP_RST_EFUSE | ESP_RST_PWR_GLITCH | ESP_RST_CPU_LOCKUP.

#[global] Instance esp_reset_reason_eq_dec : EqDecision esp_reset_reason_t.
Proof. solve_decision. Defined.

Inductive gateway_safe_mode_t :=
  | GATEWAY_SAFE_MODE_OFF
  | GATEWAY_SAFE_MODE_NO_MODEM
  | GATEWAY_SAFE_MODE_NO_MODEM_NO_DISPLAY.

#[global] Instance gateway_safe_mode_eq_dec : EqDecision gateway_safe_mode_t.
Proof. solve_decision. Defined.

Definition reason_is_abnormal (reason : esp_reset_reason_t) : bool :=
  match reason with
  | ESP_RST_PANIC | ESP_RST_INT_WDT | ESP_RST_TASK_WDT | ESP_RST_WDT | ESP_RST_BROWNOUT | ESP_RST_USB
  | ESP_RST_CPU_LOCKUP | ESP_RST_PWR_GLITCH => true
  | _ => false
  end.

(** What the core dump of a panic holds; [calloc] and the reading of the
    summary are answers of the boot. *)
Record core_dump_t := mk_core_dump {
  exc_panic : list Z;
  exc_task : list Z;
  exc_pc : Z;
  exc_bt : list Z;
}.

(** [%x], and [%08lx] of 32 bits. *)
Fixpoint hex_loop (fuel : nat) (n : Z) (acc : list Z) : list Z :=
  match fuel with
  | O => acc
  | S fuel => let acc := hex_digit (n mod 16) :: acc in if n <? 16 then acc else hex_loop fuel (n / 16) acc
  end.

Definition hexadecimal (n : Z) : list Z := hex_loop 8 n [].

Definition hexadecimal_8 (n : Z) : list Z :=
  let h := hexadecimal n in replicate (8 - length h) (chr "0") ++ h.

(** The string that [snprintf] leaves in a buffer of [size] bytes. *)
Definition snprintf (size : nat) (s : list Z) : list Z := take (size - 1) s.

Section Diag.

Context {N : Type} `{NvsStrings N}.

(** The variables in RTC memory, the static variables, NVS and the core dump
    partition. *)
Record diag := mk_diag {
  s_rtc_magic : Z;
  s_rtc_crashes : Z;
  s_reason : esp_reset_reason_t;
  s_crashes_before_boot : Z;
  s_safe_mode : gateway_safe_mode_t;
  s_last_crash : list Z;
  s_crash_fresh : bool;
  s_restart_cause : list Z;
  s_stable_timer : bool;
  dg_nvs : N;
  dg_dump : option core_dump_t;
}.

#[global] Instance diag_eta : Eta diag := fun d =>
  mk_diag (s_rtc_magic d) (s_rtc_crashes d) (s_reason d) (s_crashes_before_boot d) (s_safe_mode d) (s_last_crash d)
    (s_crash_fresh d) (s_restart_cause d) (s_stable_timer d) (dg_nvs d) (dg_dump d).

(** [bt_lost]: what RTC memory holds when it did not survive; [bt_dumped]: the
    image that the panic handler wrote; then the answers of [calloc],
    [esp_core_dump_get_summary], [esp_core_dump_image_erase] and
    [esp_timer_create] with [esp_timer_start_once]. *)
Record boot_environment := mk_boot {
  bt_reason : esp_reset_reason_t;
  bt_lost : option (Z * Z);
  bt_dumped : option core_dump_t;
  bt_calloc : bool;
  bt_summary : bool;
  bt_erased : bool;
  bt_timer : bool;
}.

Definition gateway_diag_reset_reason (d : diag) : list Z :=
  match s_reason d with
  | ESP_RST_POWERON => str "power-on"
  | ESP_RST_EXT => str "external reset"
  | ESP_RST_SW => str "software restart"
  | ESP_RST_PANIC => str "crash (panic)"
  | ESP_RST_INT_WDT => str "interrupt watchdog"
  | ESP_RST_TASK_WDT => str "task watchdog"
  | ESP_RST_WDT => str "watchdog"
  | ESP_RST_DEEPSLEEP => str "deep sleep wake"
  | ESP_RST_BROWNOUT => str "brownout (supply voltage dropped)"
  | ESP_RST_USB => str "reset by USB host (DTR/RTS)"
  | ESP_RST_JTAG => str "JTAG"
  | ESP_RST_CPU_LOCKUP => str "CPU lockup"
  | ESP_RST_PWR_GLITCH => str "power glitch"
  | _ => str "unknown"
  end.

Definition store_crash_text (d : diag) : diag :=
  let '(n, err) := nvs_open (dg_nvs d) DIAG_NAMESPACE true in
  if bool_decide (err <> ESP_OK) then d <| dg_nvs := n |>
  else
    let '(n, _) := if bool_decide (s_last_crash d <> []) then nvs_set_str n DIAG_NAMESPACE DIAG_CRASH_KEY (s_last_crash d)
                   else nvs_erase_str n DIAG_NAMESPACE DIAG_CRASH_KEY in
    let '(n, _) := nvs_commit_str n DIAG_NAMESPACE in
    d <| dg_nvs := n |>.

Definition load_crash_text (d : diag) : diag :=
  let '(n, err) := nvs_open (dg_nvs d) DIAG_NAMESPACE false in
  if bool_decide (err <> ESP_OK) then d <| dg_nvs := n |>
  else
    (d <| dg_nvs := n |>)
      <| s_last_crash := match nvs_get_str n DIAG_NAMESPACE DIAG_CRASH_KEY GATEWAY_DIAG_CRASH_TEXT_MAX with
                         | inr text => text
                         | inl _ => []
                         end |>.

(** The loop over the backtrace: [n] is the sum of what [snprintf] returned. *)
Fixpoint backtrace_loop (bt : list Z) (n : nat) (text : list Z) : list Z :=
  match bt with
  | [] => text
  | pc :: bt =>
      if (0 <? n)%nat && (n <? GATEWAY_DIAG_CRASH_TEXT_MAX)%nat then
        let s := str " " ++ hexadecimal_8 pc in
        backtrace_loop bt (n + length s) (take n text ++ snprintf (GATEWAY_DIAG_CRASH_TEXT_MAX - n) s)
      else text
  end.

Definition crash_text (dump : core_dump_t) : list Z :=
  let panic := take 48 (c_str (exc_panic dump)) in
  let s := panic ++ (if bool_decide (panic <> []) then str " | " else []) ++ str "task " ++ take 15 (c_str (exc_task dump))
           ++ str " PC " ++ hexadecimal_8 (exc_pc dump) ++ str " BT" in
  backtrace_loop (take DIAG_BACKTRACE_ENTRIES (exc_bt dump)) (length s) (snprintf GATEWAY_DIAG_CRASH_TEXT_MAX s).

Definition image_erase (b : boot_environment) (d : diag) : diag :=
  d <| dg_dump := if bt_erased b then None else dg_dump d |>.

Definition summarize_core_dump (b : boot_environment) (d : diag) : diag * bool :=
  match dg_dump d with
  | None => (d, false)
  | Some dump =>
      if negb (bt_calloc b) then (d, false)
      else
        let '(d, ok) := if bt_summary b then (d <| s_last_crash := crash_text dump |>, true) else (d, false) in
        (image_erase b d, ok)
  end.

(** [None]: not found, and the buffer is as it was. *)
Definition take_string (key : list Z) (size : nat) (d : diag) : diag * option (list Z) :=
  let '(n, err) := nvs_open (dg_nvs d) DIAG_NAMESPACE true in
  if bool_decide (err <> ESP_OK) then (d <| dg_nvs := n |>, None)
  else
    match nvs_get_str n DIAG_NAMESPACE key size with
    | inl _ => (d <| dg_nvs := n |>, None)
    | inr text =>
        let '(n, _) := nvs_erase_str n DIAG_NAMESPACE key in
        let '(n, _) := nvs_commit_str n DIAG_NAMESPACE in
        (d <| dg_nvs := n |>, Some text)
    end.

(** Stores a string and commits it, as the two functions below do. *)
Definition leave_string (key text : list Z) (d : diag) : diag :=
  let '(n, err) := nvs_open (dg_nvs d) DIAG_NAMESPACE true in
  if bool_decide (err <> ESP_OK) then d <| dg_nvs := n |>
  else
    let '(n, _) := nvs_set_str n DIAG_NAMESPACE key text in
    let '(n, _) := nvs_commit_str n DIAG_NAMESPACE in
    d <| dg_nvs := n |>.

(** Up to [esp_restart]. *)
Definition gateway_diag_restart (reason : list Z) (d : diag) : diag :=
  leave_string DIAG_RESTART_KEY (snprintf DIAG_RESTART_TEXT_MAX (c_str reason)) d.

Definition gateway_diag_restart_cause (d : diag) : option (list Z) :=
  if bool_decide (s_restart_cause d <> []) then Some (s_restart_cause d) else None.

(** [name] and [code] of the error, the free heap and its largest block. *)
Definition boot_failed_text (step name : list Z) (code free largest : Z) : list Z :=
  snprintf GATEWAY_DIAG_CRASH_TEXT_MAX
    (str "boot: " ++ c_str step ++ str " failed: " ++ c_str name ++ str " (0x" ++ hexadecimal code ++ str "), free heap "
     ++ decimal free ++ str ", largest block " ++ decimal largest).

(** Up to [abort]. *)
Definition gateway_diag_boot_step_failed (step name : list Z) (code free largest : Z) (d : diag) : diag :=
  leave_string DIAG_FATAL_KEY (boot_failed_text step name code free largest) d.

Definition stable_cb (d : diag) : diag := d <| s_rtc_crashes := 0 |>.

(** ** gateway_diag_init *)

(** The counter in RTC memory. *)
Definition count_reset (b : boot_environment) (d : diag) : diag :=
  let d := d <| s_reason := bt_reason b |> in
  let d := if negb (s_rtc_magic d =? DIAG_RTC_MAGIC) || bool_decide (s_reason d = ESP_RST_POWERON)
           then (d <| s_rtc_magic := DIAG_RTC_MAGIC |>) <| s_rtc_crashes := 0 |> else d in
  let d := d <| s_rtc_crashes := if reason_is_abnormal (s_reason d) then u32 (s_rtc_crashes d + 1) else 0 |> in
  d <| s_crashes_before_boot := s_rtc_crashes d |>.

(** The restart cause and the crash text. *)
Definition collect_texts (b : boot_environment) (d : diag) : diag :=
  let d := load_crash_text d in
  let '(d, cause) := take_string DIAG_RESTART_KEY DIAG_RESTART_TEXT_MAX d in
  let d := if bool_decide (s_reason d = ESP_RST_SW)
           then d <| s_restart_cause := snprintf DIAG_RESTART_TEXT_MAX (default (str "not recorded") (c_str <$> cause)) |>
           else d in
  let '(d, fatal) := take_string DIAG_FATAL_KEY GATEWAY_DIAG_CRASH_TEXT_MAX d in
  match fatal with
  | Some fatal =>
      let d := (d <| s_last_crash := snprintf GATEWAY_DIAG_CRASH_TEXT_MAX (c_str fatal) |>) <| s_crash_fresh := true |> in
      let d := if bool_decide (dg_dump d <> None) then image_erase b d else d in
      store_crash_text d
  | None =>
      let '(d, summarized) := summarize_core_dump b d in
      if summarized then store_crash_text (d <| s_crash_fresh := reason_is_abnormal (s_reason d) |>)
      else if bool_decide (s_reason d = ESP_RST_BROWNOUT) || bool_decide (s_reason d = ESP_RST_USB)
              || bool_decide (s_reason d = ESP_RST_TASK_WDT) || bool_decide (s_reason d = ESP_RST_INT_WDT)
              || bool_decide (s_reason d = ESP_RST_WDT)
      then store_crash_text ((d <| s_last_crash := snprintf GATEWAY_DIAG_CRASH_TEXT_MAX (gateway_diag_reset_reason d) |>)
                               <| s_crash_fresh := true |>)
      else d
  end.

Definition gateway_diag_init (b : boot_environment) (d : diag) : diag * esp_err_t :=
  let d := collect_texts b (count_reset b d) in
  let d := d <| s_safe_mode :=
      if DIAG_SAFE_MODE_DEEP_CRASHES <=? s_crashes_before_boot d then GATEWAY_SAFE_MODE_NO_MODEM_NO_DISPLAY
      else if DIAG_SAFE_MODE_CRASHES <=? s_crashes_before_boot d then GATEWAY_SAFE_MODE_NO_MODEM
      else s_safe_mode d |> in
  (d <| s_stable_timer := bt_timer b |>, ESP_OK).

Definition gateway_diag_safe_mode (d : diag) : gateway_safe_mode_t := s_safe_mode d.
Definition gateway_diag_crash_count (d : diag) : Z := s_crashes_before_boot d.
Definition gateway_diag_last_crash (d : diag) : list Z * bool := (s_last_crash d, s_crash_fresh d).

Definition gateway_diag_clear_crash (d : diag) : diag :=
  store_crash_text ((d <| s_last_crash := [] |>) <| s_crash_fresh := false |>).

(** ** Boots *)

(** The static variables are cleared; RTC memory may be lost. *)
Definition reset (b : boot_environment) (d : diag) : diag :=
  let '(magic, crashes) := default (s_rtc_magic d, s_rtc_crashes d) (bt_lost b) in
  mk_diag magic crashes ESP_RST_UNKNOWN 0 GATEWAY_SAFE_MODE_OFF [] false [] false (dg_nvs d)
    (match bt_dumped b with Some dump => Some dump | None => dg_dump d end).

Definition boot (b : boot_environment) (d : diag) : diag := (gateway_diag_init b (reset b d)).1.

(** What happens to the diagnostics, over as many boots as one likes.  The
    timer fires a minute after the boot that started it. *)
Inductive diag_event :=
  | D_boot (b : boot_environment)
  | D_stable
  | D_restart (reason : list Z)
  | D_boot_step_failed (step name : list Z) (code free largest : Z)
  | D_clear_crash.

Definition diag_step (d : diag) (e : diag_event) : diag :=
  match e with
  | D_boot b => boot b d
  | D_stable => if s_stable_timer d then stable_cb d else d
  | D_restart reason => gateway_diag_restart reason d
  | D_boot_step_failed step name code free largest => gateway_diag_boot_step_failed step name code free largest d
  | D_clear_crash => gateway_diag_clear_crash d
  end.

Definition diag_run (d : diag) (es : list diag_event) : diag := fold_left diag_step es d.

End Diag.

#[global] Arguments diag N : clear implicits.
