(* ===== verification/GatewayDiagFacts.v ===== *)
(** * Diagnostics across resets: the safe mode follows the crashes, texts
      reach the next boots *)

From Stdlib Require Import Ascii String.
From Stdlib Require Import ZifyBool ZifyNat.
From stdpp Require Import base numbers list strings.
From S2P Require Import Prelude.
From S2P Require Import Nvs.
From S2P Require Import GatewaySecurity.
From S2P Require Import GatewayDiag.

Open Scope Z_scope.

Section Counting.

Context {N : Type} `{NvsStrings N}.

(** ** The safe mode *)

(** The abnormal resets in a row: so far, and up to the present boot; and
    whether the minute of this boot is being timed. *)
Record crash_spec := mk_spec { cs_row : nat; cs_boot : nat; cs_timed : bool }.

Definition spec_step (c : crash_spec) (e : diag_event) : crash_spec :=
  match e with
  | D_boot b =>
      let row := match bt_lost b with Some _ => 0%nat | None => cs_row c end in
      let row := if reason_is_abnormal (bt_reason b) then S row else 0%nat in
      mk_spec row row (bt_timer b)
  | D_stable => mk_spec (if cs_timed c then 0%nat else cs_row c) (cs_boot c) (cs_timed c)
  | _ => c
  end.

Definition spec_run (es : list diag_event) : crash_spec := fold_left spec_step es (mk_spec 0 0 false).

(** RTC memory that did not survive does not look as if it did, unless the
    power was off. *)
Definition rtc_sane (e : diag_event) : Prop :=
  match e with
  | D_boot b => match bt_lost b with
                | Some (magic, _) => magic <> DIAG_RTC_MAGIC \/ bt_reason b = ESP_RST_POWERON
                | None => True
                end
  | _ => True
  end.

Definition safe_mode_of (crashes : Z) : gateway_safe_mode_t :=
  if 6 <=? crashes then GATEWAY_SAFE_MODE_NO_MODEM_NO_DISPLAY
  else if 3 <=? crashes then GATEWAY_SAFE_MODE_NO_MODEM
  else GATEWAY_SAFE_MODE_OFF.

Definition counted (c : crash_spec) (d : diag N) : Prop :=
  s_rtc_magic d = DIAG_RTC_MAGIC /\ s_rtc_crashes d = u32 (Z.of_nat (cs_row c)) /\
  s_crashes_before_boot d = u32 (Z.of_nat (cs_boot c)) /\ s_stable_timer d = cs_timed c /\
  s_safe_mode d = safe_mode_of (u32 (Z.of_nat (cs_boot c))).

(** Everything but the counter, for the functions that only touch texts. *)
Definition same_counts (d d' : diag N) : Prop :=
  s_rtc_magic d' = s_rtc_magic d /\ s_rtc_crashes d' = s_rtc_crashes d /\ s_reason d' = s_reason d /\
  s_crashes_before_boot d' = s_crashes_before_boot d /\ s_stable_timer d' = s_stable_timer d /\
  s_safe_mode d' = s_safe_mode d.

#[local] Instance same_counts_trans : PreOrder same_counts.
Proof. split; [by repeat split|]. unfold same_counts. intros d1 d2 d3 H1 H2. destruct_and!. split_and!; congruence. Qed.

Lemma store_counts d : same_counts d (store_crash_text d).
Proof. unfold store_crash_text. repeat (case_match; try done). Qed.

Lemma leave_counts key text d : same_counts d (leave_string key text d).
Proof. unfold leave_string. repeat (case_match; try done). Qed.

Lemma load_counts d : same_counts d (load_crash_text d).
Proof. unfold load_crash_text. repeat (case_match; try done). Qed.

Lemma take_counts key size d : same_counts d (take_string key size d).1.
Proof. unfold take_string. repeat (case_match; try done). Qed.

Lemma summarize_counts b d : same_counts d (summarize_core_dump b d).1.
Proof. unfold summarize_core_dump. repeat (case_match; simplify_eq; try done). Qed.

Lemma collect_counts b d : same_counts d (collect_texts b d).
Proof.
  unfold collect_texts. etransitivity; [apply load_counts|]. generalize (load_crash_text d). clear d. intros d.
  pose proof (take_counts DIAG_RESTART_KEY DIAG_RESTART_TEXT_MAX d) as Ht.
  destruct (take_string _ _ _) as [d1 cause]. etransitivity; [exact Ht|]. clear Ht.
  set (d2 := if bool_decide (s_reason d1 = ESP_RST_SW) then _ else _).
  assert (same_counts d1 d2) as H2 by (unfold d2; by case_bool_decide). etransitivity; [exact H2|]. clearbody d2. clear H2.
  pose proof (take_counts DIAG_FATAL_KEY GATEWAY_DIAG_CRASH_TEXT_MAX d2) as Ht.
  destruct (take_string _ _ _) as [d3 fatal]. etransitivity; [exact Ht|]. clear Ht.
  destruct fatal as [fatal|].
  - etransitivity; [|apply store_counts]. by case_bool_decide.
  - pose proof (summarize_counts b d3) as Hs. destruct (summarize_core_dump b d3) as [d4 ok].
    etransitivity; [exact Hs|]. destruct ok; [etransitivity; [|apply store_counts]; done|].
    destruct (_ || _ || _ || _ || _); [|done]. etransitivity; [|apply store_counts]. done.
Qed.

Lemma u32_succ n : u32 (u32 (Z.of_nat n) + 1) = u32 (Z.of_nat (S n)).
Proof. unfold u32. rewrite Z.add_mod_idemp_l by lia. f_equal. lia. Qed.

Lemma count_reset_spec b c d :
  counted c d \/ bt_lost b <> None -> rtc_sane (D_boot b) ->
  let d' := count_reset b (reset b d) in
  s_rtc_magic d' = DIAG_RTC_MAGIC /\ s_safe_mode d' = GATEWAY_SAFE_MODE_OFF /\
  s_rtc_crashes d' = u32 (Z.of_nat (cs_row (spec_step c (D_boot b)))) /\
  s_crashes_before_boot d' = s_rtc_crashes d'.
Proof.
  intros Hc Hs. unfold count_reset. cbn [spec_step cs_row].
  set (d0 := (reset b d) <| s_reason := bt_reason b |>). change (s_reason d0) with (bt_reason b).
  set (d1 := if negb (s_rtc_magic d0 =? DIAG_RTC_MAGIC) || bool_decide (bt_reason b = ESP_RST_POWERON) then _ else d0).
  assert (s_rtc_magic d1 = DIAG_RTC_MAGIC /\ s_safe_mode d1 = GATEWAY_SAFE_MODE_OFF /\ s_reason d1 = bt_reason b /\
    (reason_is_abnormal (bt_reason b) = true -> s_rtc_crashes d1 = u32 (Z.of_nat (match bt_lost b with Some _ => 0%nat | None => cs_row c end))))
    as (Hm & Hsafe & Hr & Hcr).
  { unfold d1, d0, reset. cbn in Hs. destruct (bt_lost b) as [[magic crashes]|]; cbn.
    - destruct (Z.eqb_spec magic DIAG_RTC_MAGIC) as [->|]; cbn; [|done]. destruct Hs as [?|Hs]; [done|].
      by rewrite Hs.
    - destruct Hc as [(-> & -> & _)|?]; [|done]. cbn. by case_bool_decide as E; [rewrite E|]. }
  clearbody d1. clear d0. rewrite Hr.
  split; [exact Hm|split; [exact Hsafe|split; [|done]]]. cbn.
  destruct (reason_is_abnormal (bt_reason b)); [|done]. rewrite Hcr by done. apply u32_succ.
Qed.

Lemma boot_counted b c d :
  counted c d \/ bt_lost b <> None -> rtc_sane (D_boot b) -> counted (spec_step c (D_boot b)) (boot b d).
Proof.
  intros Hc Hs. destruct (count_reset_spec b c d Hc Hs) as (Hm & Hsafe & Hn & Hb).
  unfold boot, gateway_diag_init. pose proof (collect_counts b (count_reset b (reset b d))) as (E1 & E2 & E3 & E4 & E5 & E6).
  set (d' := collect_texts b (count_reset b (reset b d))) in *. clearbody d'. unfold counted.
  cbn -[spec_step count_reset]. rewrite E1, E2, E4, E6, Hb, Hsafe, Hn, Hm. by split_and!.
Qed.

Lemma same_counted c d d' : same_counts d d' -> counted c d -> counted c d'.
Proof. unfold counted. intros (-> & -> & _ & -> & -> & ->). done. Qed.

Lemma step_counted e c d : counted c d -> rtc_sane e -> counted (spec_step c e) (diag_step d e).
Proof.
  intros Hc Hs. destruct e as [b| |reason|step name code free largest|]; cbn [diag_step].
  - apply boot_counted; auto.
  - destruct Hc as (? & Hr & ? & Ht & ?). unfold counted. cbn. rewrite Ht. by destruct (cs_timed c).
  - eapply same_counted; [apply leave_counts|done].
  - eapply same_counted; [apply leave_counts|done].
  - eapply same_counted; [apply store_counts|done].
Qed.


(** ** The texts *)

Context `{!NvsStringsLaws N}.

(** No operation of the flash fails. *)
Definition flash_works : Prop :=
  (forall n ns w, (nvs_open n ns w).2 = ESP_OK) /\ (forall n ns k s, (nvs_set_str n ns k s).2 = ESP_OK) /\
  (forall n ns k, str_at n ns k <> None -> (nvs_erase_str n ns k).2 = ESP_OK).

Hypothesis works : flash_works.

Definition text_at (d : diag N) (k : list Z) : option (list Z) := str_at (dg_nvs d) DIAG_NAMESPACE k.

(** Everything but the stored strings. *)
Definition same_but_nvs (d d' : diag N) : Prop := exists n, d' = d <| dg_nvs := n |>.

Lemma erased n k n' e :
  nvs_erase_str n DIAG_NAMESPACE k = (n', e) ->
  str_at n' DIAG_NAMESPACE k = None /\ forall k', k' <> k -> str_at n' DIAG_NAMESPACE k' = str_at n DIAG_NAMESPACE k'.
Proof.
  intros E. destruct (erase_str_any _ _ _ _ _ E) as [Hk Ho]. split; [|intros; apply Ho; congruence].
  destruct (str_at n DIAG_NAMESPACE k) eqn:Es; [|by destruct Hk].
  destruct works as (_ & _ & Hw). specialize (Hw n DIAG_NAMESPACE k). rewrite Es, E in Hw. cbn in Hw.
  rewrite Hw in E by done. by apply erase_str_ok in E.
Qed.

Lemma stored n k s n' e :
  nvs_set_str n DIAG_NAMESPACE k s = (n', e) ->
  str_at n' DIAG_NAMESPACE k = Some s /\ forall k', k' <> k -> str_at n' DIAG_NAMESPACE k' = str_at n DIAG_NAMESPACE k'.
Proof.
  intros E. destruct (set_str_any _ _ _ _ _ _ E) as [_ Ho]. split; [|intros; apply Ho; congruence].
  destruct works as (_ & Hw & _). specialize (Hw n DIAG_NAMESPACE k s). rewrite E in Hw. cbn in Hw. subst e.
  by apply set_str_ok in E.
Qed.

Lemma opened n w : exists n', nvs_open n DIAG_NAMESPACE w = (n', ESP_OK) /\
  forall k, str_at n' DIAG_NAMESPACE k = str_at n DIAG_NAMESPACE k.
Proof.
  destruct works as (Hw & _). specialize (Hw n DIAG_NAMESPACE w). destruct (nvs_open n DIAG_NAMESPACE w) as [n' e] eqn:E.
  cbn in Hw. subst e. exists n'. split; [done|]. intros k. by apply (open_str_any _ _ _ _ _ E).
Qed.

Lemma committed n n' e : nvs_commit_str n DIAG_NAMESPACE = (n', e) ->
  forall k, str_at n' DIAG_NAMESPACE k = str_at n DIAG_NAMESPACE k.
Proof. intros E k. by apply (commit_str_any _ _ _ _ E). Qed.

Lemma leave_spec key text d :
  let d' := leave_string key text d in
  same_but_nvs d d' /\ text_at d' key = Some text /\ forall k, k <> key -> text_at d' k = text_at d k.
Proof.
  unfold leave_string, text_at, same_but_nvs. destruct (opened (dg_nvs d) true) as (n1 & -> & H1).
  rewrite bool_decide_eq_false_2 by tauto.
  destruct (nvs_set_str _ _ _ _) as [n2 e2] eqn:E2. destruct (stored _ _ _ _ _ E2) as [Hk Ho].
  destruct (nvs_commit_str _ _) as [n3 e3] eqn:E3. pose proof (committed _ _ _ E3) as H3. cbn.
  split; [by eexists|]. split; [by rewrite H3|]. intros k Hne. by rewrite H3, Ho, H1.
Qed.

Lemma store_spec d :
  let d' := store_crash_text d in
  same_but_nvs d d' /\
  text_at d' DIAG_CRASH_KEY = (if bool_decide (s_last_crash d <> []) then Some (s_last_crash d) else None) /\
  forall k, k <> DIAG_CRASH_KEY -> text_at d' k = text_at d k.
Proof.
  unfold store_crash_text, text_at, same_but_nvs. destruct (opened (dg_nvs d) true) as (n1 & -> & H1).
  rewrite (bool_decide_eq_false_2 (ESP_OK <> ESP_OK)) by tauto. case_bool_decide as El.
  - destruct (nvs_set_str _ _ _ _) as [n2 e2] eqn:E2. destruct (stored _ _ _ _ _ E2) as [Hk Ho].
    destruct (nvs_commit_str _ _) as [n3 e3] eqn:E3. pose proof (committed _ _ _ E3) as H3. cbn.
    split; [by eexists|]. split; [by rewrite H3|]. intros k Hne. by rewrite H3, Ho, H1.
  - destruct (nvs_erase_str _ _ _) as [n2 e2] eqn:E2. destruct (erased _ _ _ _ E2) as [Hk Ho].
    destruct (nvs_commit_str _ _) as [n3 e3] eqn:E3. pose proof (committed _ _ _ E3) as H3. cbn.
    split; [by eexists|]. split; [by rewrite H3|]. intros k Hne. by rewrite H3, Ho, H1.
Qed.

(** What fits a buffer. *)
Definition fitting (size : nat) (text : option (list Z)) : option (list Z) :=
  text ≫= fun s => if (length s + 1 <=? size)%nat then Some s else None.

Lemma load_spec d :
  let d' := load_crash_text d in
  same_but_nvs (d <| s_last_crash := default [] (fitting GATEWAY_DIAG_CRASH_TEXT_MAX (text_at d DIAG_CRASH_KEY)) |>) d' /\
  forall k, text_at d' k = text_at d k.
Proof.
  unfold load_crash_text, text_at, same_but_nvs, fitting. destruct (opened (dg_nvs d) false) as (n1 & -> & H1).
  rewrite bool_decide_eq_false_2 by tauto. rewrite get_str_spec, H1. cbn -[GATEWAY_DIAG_CRASH_TEXT_MAX].
  split; [|done]. exists n1. destruct (str_at _ _ _) as [s|]; cbn -[GATEWAY_DIAG_CRASH_TEXT_MAX]; [|done].
  by destruct (_ <=? _)%nat.
Qed.

Lemma take_spec key size d :
  let '(d', text) := take_string key size d in
  same_but_nvs d d' /\ text = fitting size (text_at d key) /\ (text <> None -> text_at d' key = None) /\
  (text = None -> text_at d' key = text_at d key) /\ forall k, k <> key -> text_at d' k = text_at d k.
Proof.
  unfold take_string, text_at, same_but_nvs, fitting. destruct (opened (dg_nvs d) true) as (n1 & -> & H1).
  rewrite bool_decide_eq_false_2 by tauto. rewrite get_str_spec, H1.
  destruct (str_at (dg_nvs d) DIAG_NAMESPACE key) as [s|] eqn:Es; cbn; [|split_and!; rewrite ?H1; by eauto].
  destruct (_ <=? _)%nat; [|cbn; split_and!; rewrite ?H1; by eauto].
  destruct (nvs_erase_str _ _ _) as [n2 e2] eqn:E2. destruct (erased _ _ _ _ E2) as [Hk Ho].
  destruct (nvs_commit_str _ _) as [n3 e3] eqn:E3. pose proof (committed _ _ _ E3) as H3. cbn.
  split_and!; [by eexists|done|by rewrite H3|done|]. intros k Hne. by rewrite H3, Ho, H1.
Qed.

(** The first half of [collect_texts], up to the restart cause. *)
Lemma collect_first b d :
  exists d1, collect_texts b d =
      (let '(d, fatal) := take_string DIAG_FATAL_KEY GATEWAY_DIAG_CRASH_TEXT_MAX d1 in
       match fatal with
       | Some fatal =>
           let d := (d <| s_last_crash := snprintf GATEWAY_DIAG_CRASH_TEXT_MAX (c_str fatal) |>) <| s_crash_fresh := true |> in
           let d := if bool_decide (dg_dump d <> None) then image_erase b d else d in
           store_crash_text d
       | None =>
           let '(d, summarized) := summarize_core_dump b d in
           if summarized then store_crash_text (d <| s_crash_fresh := reason_is_abnormal (s_reason d) |>)
           else if bool_decide (s_reason d = ESP_RST_BROWNOUT) || bool_decide (s_reason d = ESP_RST_USB)
                   || bool_decide (s_reason d = ESP_RST_TASK_WDT) || bool_decide (s_reason d = ESP_RST_INT_WDT)
                   || bool_decide (s_reason d = ESP_RST_WDT)
           then store_crash_text ((d <| s_last_crash := snprintf GATEWAY_DIAG_CRASH_TEXT_MAX (gateway_diag_reset_reason d) |>)
                                    <| s_crash_fresh := true |>)
           else d
       end) /\
    (same_but_nvs ((d <| s_last_crash := default [] (fitting GATEWAY_DIAG_CRASH_TEXT_MAX (text_at d DIAG_CRASH_KEY)) |>)
       <| s_restart_cause := if bool_decide (s_reason d = ESP_RST_SW)
            then snprintf DIAG_RESTART_TEXT_MAX
                   (default (str "not recorded") (c_str <$> fitting DIAG_RESTART_TEXT_MAX (text_at d DIAG_RESTART_KEY)))
            else s_restart_cause d |>) d1) /\
    (fitting DIAG_RESTART_TEXT_MAX (text_at d DIAG_RESTART_KEY) <> None -> text_at d1 DIAG_RESTART_KEY = None) /\
    (fitting DIAG_RESTART_TEXT_MAX (text_at d DIAG_RESTART_KEY) = None ->
     text_at d1 DIAG_RESTART_KEY = text_at d DIAG_RESTART_KEY) /\
    (forall k, k <> DIAG_RESTART_KEY -> text_at d1 k = text_at d k).
Proof.
  unfold collect_texts. destruct (load_spec d) as [Hl Hlk]. set (d0 := load_crash_text d) in *. clearbody d0.
  pose proof (take_spec DIAG_RESTART_KEY DIAG_RESTART_TEXT_MAX d0) as Ht.
  destruct (take_string DIAG_RESTART_KEY DIAG_RESTART_TEXT_MAX d0) as [d1 cause].
  destruct Ht as (Hs & Hc & Hg & Hsame & Ho). rewrite Hlk in Hc.
  eexists. split; [reflexivity|]. rewrite <- Hc. destruct Hl as [n0 ->], Hs as [n1 ->].
  change (s_reason (_ <| dg_nvs := n1 |>)) with (s_reason d).
  case_bool_decide; (split; [by exists n1|]); cbn -[snprintf fitting] in *; unfold text_at in *; cbn in Hg, Hsame, Ho, Hlk |- *;
    split_and!; intros; rewrite <- ?Hlk; auto.
Qed.

(** The rest of [collect_texts] leaves the restart cause and its key alone. *)
Lemma store_cause d :
  s_restart_cause (store_crash_text d) = s_restart_cause d /\ text_at (store_crash_text d) DIAG_RESTART_KEY = text_at d DIAG_RESTART_KEY.
Proof. destruct (store_spec d) as ([n E] & _ & Ho). split; [by rewrite E|]. by apply Ho. Qed.

Lemma collect_cause b d :
  s_restart_cause (collect_texts b d) =
    (if bool_decide (s_reason d = ESP_RST_SW)
     then snprintf DIAG_RESTART_TEXT_MAX
            (default (str "not recorded") (c_str <$> fitting DIAG_RESTART_TEXT_MAX (text_at d DIAG_RESTART_KEY)))
     else s_restart_cause d) /\
  text_at (collect_texts b d) DIAG_RESTART_KEY =
    (if fitting DIAG_RESTART_TEXT_MAX (text_at d DIAG_RESTART_KEY) is Some _ then None else text_at d DIAG_RESTART_KEY).
Proof.
  destruct (collect_first b d) as (d1 & -> & Hs & Hg & Hk & _).
  assert (s_restart_cause d1 = if bool_decide (s_reason d = ESP_RST_SW)
     then snprintf DIAG_RESTART_TEXT_MAX
            (default (str "not recorded") (c_str <$> fitting DIAG_RESTART_TEXT_MAX (text_at d DIAG_RESTART_KEY)))
     else s_restart_cause d) as <- by (by destruct Hs as [? ->]).
  assert (text_at d1 DIAG_RESTART_KEY =
    if fitting DIAG_RESTART_TEXT_MAX (text_at d DIAG_RESTART_KEY) is Some _ then None else text_at d DIAG_RESTART_KEY) as <-.
  { destruct (fitting _ _); [by apply Hg|by apply Hk]. }
  clear Hs Hg Hk d. pose proof (take_spec DIAG_FATAL_KEY GATEWAY_DIAG_CRASH_TEXT_MAX d1) as Ht.
  destruct (take_string _ _ d1) as [d2 fatal]. destruct Ht as (Hs & _ & _ & _ & Ho).
  rewrite <- (Ho DIAG_RESTART_KEY) by done. assert (s_restart_cause d1 = s_restart_cause d2) as -> by (by destruct Hs as [? ->]).
  clear Hs Ho d1. destruct fatal as [fatal|].
  - rewrite (proj1 (store_cause _)), (proj2 (store_cause _)). by case_bool_decide.
  - pose proof (fun d => proj1 (store_cause d)) as Hc. pose proof (fun d => proj2 (store_cause d)) as Hk.
    unfold summarize_core_dump. destruct (dg_dump d2) as [dump|], (bt_calloc b), (bt_summary b); cbn [negb];
      rewrite ?Hc, ?Hk; try done; (destruct (_ || _ || _ || _ || _); [rewrite Hc, Hk|]; done).
Qed.

Lemma count_reset_nvs b (d : diag N) : dg_nvs (count_reset b (reset b d)) = dg_nvs d.
Proof. unfold count_reset, reset. destruct (bt_lost b) as [[]|]; cbn; by case_match. Qed.

Lemma count_reset_rest b (d : diag N) :
  s_reason (count_reset b (reset b d)) = bt_reason b /\ s_restart_cause (count_reset b (reset b d)) = [] /\
  s_crash_fresh (count_reset b (reset b d)) = false /\
  dg_dump (count_reset b (reset b d)) = (if bt_dumped b is Some dump then Some dump else dg_dump d) /\
  forall k, text_at (count_reset b (reset b d)) k = text_at d k.
Proof.
  split_and!; [..|intros k; unfold text_at; by rewrite count_reset_nvs]; unfold count_reset, reset;
    (destruct (bt_lost b) as [[]|]; cbn; by case_match).
Qed.

Lemma boot_cause b d :
  s_restart_cause (boot b d) =
    (if bool_decide (bt_reason b = ESP_RST_SW)
     then snprintf DIAG_RESTART_TEXT_MAX
            (default (str "not recorded") (c_str <$> fitting DIAG_RESTART_TEXT_MAX (text_at d DIAG_RESTART_KEY)))
     else []) /\
  text_at (boot b d) DIAG_RESTART_KEY =
    (if fitting DIAG_RESTART_TEXT_MAX (text_at d DIAG_RESTART_KEY) is Some _ then None else text_at d DIAG_RESTART_KEY).
Proof.
  destruct (count_reset_rest b d) as (Er & Ec & _ & _ & Ek).
  pose proof (collect_cause b (count_reset b (reset b d))) as Hc. rewrite Er, Ec, !Ek in Hc. exact Hc.
Qed.

(** ** The cause of a restart *)

(** Between two boots, and without another restart. *)
Definition running (e : diag_event) : Prop := match e with D_boot _ | D_restart _ => False | _ => True end.

Lemma running_cause es d :
  Forall running es ->
  s_restart_cause (diag_run d es) = s_restart_cause d /\ text_at (diag_run d es) DIAG_RESTART_KEY = text_at d DIAG_RESTART_KEY.
Proof.
  intros H1. revert d. induction H1 as [|e es He _ IH]; intros d; [done|].
  change (diag_run d (e :: es)) with (diag_run (diag_step d e) es). destruct (IH (diag_step d e)) as [E1 E2]. rewrite E1, E2. destruct e; try done; cbn [diag_step]; unfold gateway_diag_boot_step_failed, gateway_diag_clear_crash.
  - by destruct (s_stable_timer d).
  - destruct (leave_spec DIAG_FATAL_KEY (boot_failed_text step name code free largest) d) as ([n E] & _ & Ho).
    split; [by rewrite E|by apply Ho].
  - by rewrite (proj1 (store_cause _)), (proj2 (store_cause _)).
Qed.

(** The reason given for a restart is what the next boot reports, cut to
    the 63 bytes of its buffer, if that boot is a software restart; whatever
    else happens before then next boot, that one does not report it again, and
    says that nothing is recorded if it is a software restart too. *)
Theorem restart_cause_told_once reason d b1 es b2 :
  cstring reason -> reason <> [] -> Forall running es ->
  let d1 := diag_run d (D_restart reason :: D_boot b1 :: es) in
  gateway_diag_restart_cause d1 = (if bool_decide (bt_reason b1 = ESP_RST_SW) then Some (take 63 reason) else None) /\
  gateway_diag_restart_cause (boot b2 d1) =
    (if bool_decide (bt_reason b2 = ESP_RST_SW) then Some (str "not recorded") else None).
Proof.
  intros Hr Hne Hes. cbn [diag_run fold_left diag_step]. fold (diag_run (boot b1 (gateway_diag_restart reason d)) es).
  destruct (leave_spec DIAG_RESTART_KEY (snprintf DIAG_RESTART_TEXT_MAX (c_str reason)) d) as (_ & Ek & _).
  fold (gateway_diag_restart reason d) in Ek. rewrite (cstring_c_str reason Hr) in Ek.
  destruct (boot_cause b1 (gateway_diag_restart reason d)) as [Ec1 Ek1]. rewrite Ek in Ec1, Ek1.
  destruct (running_cause es (boot b1 (gateway_diag_restart reason d)) Hes) as [Ec Ek'].
  assert (fitting DIAG_RESTART_TEXT_MAX (Some (snprintf DIAG_RESTART_TEXT_MAX reason)) = Some (take 63 reason)) as Ef.
  { unfold fitting, snprintf. cbn [mbind option_bind]. rewrite (proj2 (Nat.leb_le _ _)); [done|].
    rewrite length_take. change DIAG_RESTART_TEXT_MAX with 64%nat. lia. }
  rewrite Ef in Ec1, Ek1. rewrite Ek1 in Ek'. 
  change (default (str "not recorded") (c_str <$> Some (take 63 reason))) with (c_str (take 63 reason)) in Ec1.
  assert (cstring (take 63 reason)) as Hc by by apply Forall_take.
  rewrite (cstring_c_str _ Hc) in Ec1. unfold snprintf in Ec1. change (DIAG_RESTART_TEXT_MAX - 1)%nat with 63%nat in Ec1.
  rewrite take_take in Ec1. change (63 `min` 63)%nat with 63%nat in Ec1.
  destruct (boot_cause b2 (diag_run (boot b1 (gateway_diag_restart reason d)) es)) as [Ec2 _]. rewrite Ek' in Ec2.
  unfold gateway_diag_restart_cause. rewrite Ec, Ec1, Ec2. split.
  - destruct (bool_decide (bt_reason b1 = ESP_RST_SW)); [|done]. rewrite bool_decide_eq_true_2; [done|]. by destruct reason.
  - by destruct (bool_decide (bt_reason b2 = ESP_RST_SW)).
Qed.

(** ** The text of a crash *)

Definition crash_kept (text : list Z) (d : diag N) : Prop :=
  s_last_crash d = text /\ text_at d DIAG_CRASH_KEY = (if bool_decide (text <> []) then Some text else None) /\
  text_at d DIAG_FATAL_KEY = None /\ dg_dump d = None.

(** No new crash, and no other text. *)
Definition uneventful (e : diag_event) : Prop :=
  match e with
  | D_boot b => bt_dumped b = None /\
      bt_reason b ∉ [ESP_RST_BROWNOUT; ESP_RST_USB; ESP_RST_TASK_WDT; ESP_RST_INT_WDT; ESP_RST_WDT]
  | D_stable | D_restart _ => True
  | _ => False
  end.

Definition is_boot (e : diag_event) : bool := if e is D_boot _ then true else false.

Lemma boot_uneventful b text d :
  (length text <= 191)%nat -> uneventful (D_boot b) -> crash_kept text d ->
  crash_kept text (boot b d) /\ s_crash_fresh (boot b d) = false.
Proof.
  intros Hl [Hd Hr] (_ & Hc & Hf & Hdump).
  destruct (count_reset_rest b d) as (Er & _ & Efr & Ed & Ek). rewrite Hd, Hdump in Ed.
  unfold boot, gateway_diag_init. set (d0 := count_reset b (reset b d)) in *. clearbody d0.
  destruct (collect_first b d0) as (d1 & E & [n E1] & _ & _ & Ho).
  pose proof (Ho DIAG_FATAL_KEY ltac:(done)) as Hf1. pose proof (Ho DIAG_CRASH_KEY ltac:(done)) as Hc1.
  rewrite Ek, Hf in Hf1. rewrite Ek, Hc in Hc1. rewrite (Ek DIAG_CRASH_KEY), Hc in E1.
  assert (default [] (fitting GATEWAY_DIAG_CRASH_TEXT_MAX (if bool_decide (text <> []) then Some text else None)) = text) as Et.
  { case_bool_decide as Hn; [|by destruct text]. unfold fitting. cbn -[GATEWAY_DIAG_CRASH_TEXT_MAX].
    rewrite (proj2 (Nat.leb_le _ _)); [done|]. change GATEWAY_DIAG_CRASH_TEXT_MAX with 192%nat. lia. }
  assert (s_last_crash d1 = text /\ s_crash_fresh d1 = false /\ dg_dump d1 = None /\ s_reason d1 = bt_reason b) as (H1 & H2 & H3 & H4)
    by (by rewrite <- Et, E1, <- Efr, <- Ed, <- Er).
  clear E1. pose proof (take_spec DIAG_FATAL_KEY GATEWAY_DIAG_CRASH_TEXT_MAX d1) as Ht.
  destruct (take_string _ _ d1) as [d2 fatal]. destruct Ht as ([n2 ->] & Hfat & _ & Hsame & Hother).
  rewrite Hf1 in Hfat. subst fatal. specialize (Hsame eq_refl). rewrite Hf1 in Hsame.
  specialize (Hother DIAG_CRASH_KEY ltac:(done)). rewrite Hc1 in Hother.
  unfold summarize_core_dump in E. change (dg_dump (d1 <| dg_nvs := n2 |>)) with (dg_dump d1) in E.
  rewrite H3 in E. change (s_reason (d1 <| dg_nvs := n2 |>)) with (s_reason d1) in E. rewrite H4 in E.
  assert (collect_texts b d0 = d1 <| dg_nvs := n2 |>) as ->.
  { rewrite E. clear -Hr. rewrite !not_elem_of_cons in Hr. destruct Hr as (? & ? & ? & ? & ? & _).
    by rewrite !bool_decide_eq_false_2 by done. }
  done.
Qed.

Lemma uneventful_kept e text d :
  (length text <= 191)%nat -> uneventful e -> crash_kept text d ->
  crash_kept text (diag_step d e) /\
  s_crash_fresh (diag_step d e) = (if is_boot e then false else s_crash_fresh d).
Proof.
  intros Hl He Hk. destruct e as [b| |reason| |]; try done; cbn [diag_step is_boot].
  - by apply boot_uneventful.
  - by destruct (s_stable_timer d).
  - destruct (leave_spec DIAG_RESTART_KEY (snprintf DIAG_RESTART_TEXT_MAX (c_str reason)) d) as ([n E] & _ & Ho).
    unfold gateway_diag_restart. destruct Hk as (H1 & H2 & H3 & H4). split; [|by rewrite E].
    split_and!; [by rewrite E|by rewrite Ho|by rewrite Ho|by rewrite E].
Qed.

Lemma uneventful_run es text d :
  (length text <= 191)%nat -> Forall uneventful es -> crash_kept text d ->
  crash_kept text (diag_run d es) /\
  s_crash_fresh (diag_run d es) = (if existsb is_boot es then false else s_crash_fresh d).
Proof.
  intros Hl H1. revert d. induction H1 as [|e es He _ IH]; intros d Hk; [done|].
  change (diag_run d (e :: es)) with (diag_run (diag_step d e) es). cbn [existsb].
  destruct (uneventful_kept e text d Hl He Hk) as [Hk' Hfr]. destruct (IH _ Hk') as [Hk'' ->].
  split; [done|]. rewrite Hfr. by destruct (is_boot e), (existsb is_boot es).
Qed.

Lemma clear_kept text d : crash_kept text d ->
  crash_kept [] (gateway_diag_clear_crash d) /\ s_crash_fresh (gateway_diag_clear_crash d) = false.
Proof.
  intros (H1 & H2 & H3 & H4). unfold gateway_diag_clear_crash.
  destruct (store_spec ((d <| s_last_crash := [] |>) <| s_crash_fresh := false |>)) as ([n E] & Hc & Ho).
  split; [|by rewrite E]. split_and!; [by rewrite E|by rewrite Hc|by rewrite Ho|by rewrite E].
Qed.

(** The text of a failed boot step is found by the next boot. *)
Lemma boot_fatal b text d :
  (0 < length text <= 191)%nat -> cstring text -> bt_erased b = true -> text_at d DIAG_FATAL_KEY = Some text ->
  crash_kept text (boot b d) /\ s_crash_fresh (boot b d) = true.
Proof.
  intros Hl Hcs He Hf. destruct (count_reset_rest b d) as (_ & _ & _ & _ & Ek).
  unfold boot, gateway_diag_init. set (d0 := count_reset b (reset b d)) in *. clearbody d0.
  destruct (collect_first b d0) as (d1 & E & _ & _ & _ & Ho).
  pose proof (Ho DIAG_FATAL_KEY ltac:(done)) as Hf1. rewrite Ek, Hf in Hf1.
  pose proof (take_spec DIAG_FATAL_KEY GATEWAY_DIAG_CRASH_TEXT_MAX d1) as Ht.
  destruct (take_string _ _ d1) as [d2 fatal]. destruct Ht as (_ & Hfat & Hnone & _ & _). rewrite Hf1 in Hfat.
  assert (fitting GATEWAY_DIAG_CRASH_TEXT_MAX (Some text) = Some text) as Ef.
  { unfold fitting. cbn -[GATEWAY_DIAG_CRASH_TEXT_MAX]. rewrite (proj2 (Nat.leb_le _ _)); [done|].
    change GATEWAY_DIAG_CRASH_TEXT_MAX with 192%nat. lia. }
  rewrite Ef in Hfat. subst fatal. specialize (Hnone ltac:(done)).
  assert (snprintf GATEWAY_DIAG_CRASH_TEXT_MAX (c_str text) = text) as Es.
  { rewrite (cstring_c_str _ Hcs). unfold snprintf. change (GATEWAY_DIAG_CRASH_TEXT_MAX - 1)%nat with 191%nat.
    apply take_ge. lia. }
  rewrite Es in E. cbv zeta in E. set (d3 := (d2 <| s_last_crash := text |>) <| s_crash_fresh := true |>) in *.
  set (d4 := if bool_decide (dg_dump d3 <> None) then image_erase b d3 else d3) in *.
  assert (s_last_crash d4 = text /\ s_crash_fresh d4 = true /\ dg_dump d4 = None /\ text_at d4 DIAG_FATAL_KEY = None)
    as (H1 & H2 & H3 & H4).
  { unfold d4, image_erase. rewrite He. case_bool_decide as Hd; split_and!; done. }
  clearbody d4. rewrite E. destruct (store_spec d4) as ([n En] & Hc & Hother).
  revert En Hc Hother. generalize (store_crash_text d4). intros d5 En Hc Hother.
  split; [|by rewrite En]. split_and!.
  - by rewrite En.
  - change (text_at d5 DIAG_CRASH_KEY = if bool_decide (text <> []) then Some text else None). by rewrite Hc, H1.
  - change (text_at d5 DIAG_FATAL_KEY = None). by rewrite Hother.
  - by rewrite En.
Qed.

Lemma hex_loop_cstring fuel n acc : cstring acc -> cstring (hex_loop fuel n acc).
Proof.
  revert n acc. induction fuel as [|fuel IH]; intros n acc Ha; [done|]. cbn [hex_loop].
  assert (cstring (hex_digit (n mod 16) :: acc)).
  { constructor; [|done]. pose proof (Z.mod_pos_bound n 16 ltac:(lia)) as Hm. revert Hm. generalize (n mod 16).
    intros m Hm. by_range m Hm. }
  destruct (n <? 16); auto.
Qed.

Lemma boot_failed_text_fits step name code free largest :
  bytes step -> bytes name ->
  let text := boot_failed_text step name code free largest in cstring text /\ (0 < length text <= 191)%nat.
Proof.
  intros Hs Hn. unfold boot_failed_text, snprintf. change (GATEWAY_DIAG_CRASH_TEXT_MAX - 1)%nat with 191%nat. split.
  - enough (forall s, cstring s -> cstring (take 191 s)) as Ht; [apply Ht; clear Ht|intros; by apply Forall_take].
    rewrite !cstring_app.
    repeat match goal with |- _ /\ _ => split end; first [by apply c_str_cstring | (apply hex_loop_cstring; constructor) | apply decimal_cstring
                      | by apply (bool_decide_unpack _); vm_compute].
  - rewrite length_take, length_app. change (length (str "boot: ")) with 6%nat. lia.
Qed.

(** When a boot step fails, the next boot reports what failed as the fresh
    crash, keeps reporting it over later boots, as an older crash, as long as
    nothing new happens, and forgets it for good when it is cleared. *)
Theorem boot_failure_reported step name code free largest b es es' d :
  bytes step -> bytes name -> bt_erased b = true -> Forall uneventful (es ++ es') ->
  let text := boot_failed_text step name code free largest in
  let d1 := diag_run d [D_boot_step_failed step name code free largest; D_boot b] in
  gateway_diag_last_crash (diag_run d1 es) = (text, negb (existsb is_boot es)) /\
  gateway_diag_last_crash (diag_run d1 (es ++ D_clear_crash :: es')) = ([], false).
Proof.
  intros Hs Hn He Hes. apply Forall_app in Hes as [Hes Hes'].
  destruct (boot_failed_text_fits step name code free largest Hs Hn) as [Hc Hl].
  set (text := boot_failed_text step name code free largest) in *.
  change (diag_run d [_; _]) with (boot b (leave_string DIAG_FATAL_KEY text d)). cbv zeta.
  destruct (leave_spec DIAG_FATAL_KEY text d) as (_ & Hk & _).
  destruct (boot_fatal b text _ Hl Hc He Hk) as [Hkept Hfresh].
  destruct (uneventful_run es text _ ltac:(lia) Hes Hkept) as [Hkept1 Hfresh1]. rewrite Hfresh in Hfresh1. split.
  - destruct Hkept1 as [El _]. unfold gateway_diag_last_crash. rewrite El, Hfresh1. by destruct (existsb is_boot es).
  - assert (forall d0, diag_run d0 (es ++ D_clear_crash :: es') = diag_run (gateway_diag_clear_crash (diag_run d0 es)) es') as ->
      by (intros d0; unfold diag_run; by rewrite fold_left_app).
    destruct (clear_kept text _ Hkept1) as [Hkept2 Hfresh2].
    destruct (uneventful_run es' [] _ ltac:(cbn; lia) Hes' Hkept2) as [(E2 & _) Hfresh3].
    unfold gateway_diag_last_crash. rewrite E2, Hfresh3, Hfresh2. by destruct (existsb is_boot es').
Qed.

End Counting.

(** ** Examples *)

Definition plain_boot (reason : esp_reset_reason_t) : boot_environment := mk_boot reason None None true true true true.

Definition first_boot : boot_environment := mk_boot ESP_RST_POWERON (Some (0x12345678, 77)) None true true true true.

Definition sample_diag : diag string_map :=
  mk_diag 0 0 ESP_RST_UNKNOWN 0 GATEWAY_SAFE_MODE_OFF [] false [] false ∅ None.

Lemma map_flash_works : flash_works (N := string_map).
Proof.
  split_and!; [done|done|]. intros n ns k Hk. cbn in *. by rewrite bool_decide_eq_false_2.
Qed.


Lemma restart_cause_told_once_witness :
  let d1 := diag_run sample_diag [D_restart (str "firmware update"); D_boot (plain_boot ESP_RST_SW); D_stable] in
  gateway_diag_restart_cause d1 = Some (str "firmware update") /\
  gateway_diag_restart_cause (boot (plain_boot ESP_RST_SW) d1) = Some (str "not recorded").
Proof.
  refine (restart_cause_told_once map_flash_works (str "firmware update") sample_diag (plain_boot ESP_RST_SW) [D_stable]
    (plain_boot ESP_RST_SW) _ _ _); [by apply (bool_decide_unpack _); vm_compute|done|by repeat constructor].
Defined.

Lemma boot_failure_reported_witness :
  let failed := D_boot_step_failed (str "mqtt_service_init()") (str "ESP_ERR_NO_MEM") 0x101 3000 512 in
  let text := str "boot: mqtt_service_init() failed: ESP_ERR_NO_MEM (0x101), free heap 3000, largest block 512" in
  let d1 := diag_run sample_diag [failed; D_boot (plain_boot ESP_RST_PANIC)] in
  gateway_diag_last_crash (diag_run d1 [D_stable]) = (text, true) /\
  gateway_diag_last_crash (diag_run d1 ([D_stable] ++ D_clear_crash :: [D_boot (plain_boot ESP_RST_SW)])) = ([], false).
Proof.
  refine (boot_failure_reported map_flash_works (str "mqtt_service_init()") (str "ESP_ERR_NO_MEM") 0x101 3000 512
    (plain_boot ESP_RST_PANIC) [D_stable] [D_boot (plain_boot ESP_RST_SW)] sample_diag _ _ eq_refl _).
  1, 2: by apply (bool_decide_unpack _); vm_compute.
  repeat constructor. rewrite !not_elem_of_cons. split_and!; try done. apply not_elem_of_nil.
Defined.

(** A summary fits its buffer. *)
Example crash_text_example :
  crash_text (mk_core_dump (str "assert failed: x") (str "usb_host_lib") 0x42037625 [0x4037cf25; 0xa]) =
  str "assert failed: x | task usb_host_lib PC 42037625 BT 4037cf25 0000000a".
Proof. vm_compute. reflexivity. Qed.
