(* ===== verification/NetworkService.v ===== *)
(** * Wi-Fi (components/network_service/network_service.c, and the life of the
      portal's servers in provisioning_portal.c)

    The network task: connecting and reconnecting, the setup portal, and the
    test of new credentials.  What the Wi-Fi driver, the HTTP server, the clock
    and the random numbers answer is a [network_environment], whose answers may
    depend on the whole trace.  A character array is the string in it. *)

From Stdlib Require Import Ascii String.
From Stdlib Require Import ZifyBool ZifyNat.
From stdpp Require Import base numbers list strings gmap.
From S2P Require Import Prelude.
From S2P Require Import StateMonad.
From S2P Require Import PduEncode.
From S2P Require Import GatewaySecurity.
From S2P Require Import Nvs.

Open Scope Z_scope.

Definition NET_QUEUE_DEPTH : nat := 12.
Definition RECONNECT_MIN_MS : Z := 1000.
Definition RECONNECT_MAX_MS : Z := 30000.
Definition RECONNECT_WITH_PORTAL_MS : Z := 30000.
Definition SETUP_CONNECT_ATTEMPTS : Z := 3.
Definition SETUP_CONNECT_TIMEOUT_MS : Z := 30000.
Definition SETUP_RESTART_DELAY_MS : Z := 10000.
Definition PORTAL_PASSWORD_CHARS : nat := 12.
Definition NET_NVS_NAMESPACE : list Z := str "net_cfg".
Definition NET_NVS_PORTAL_PASS : list Z := str "ap_pass".
Definition NETWORK_IPV4_MAX : nat := 16.
Definition NETWORK_SSID_MAX : nat := 33.
Definition NETWORK_PORTAL_PASSWORD_MAX : nat := 17.
Definition WIFI_REASON_ASSOC_LEAVE : Z := 8.
Definition DNS_TASK_EXIT_WAIT_MS : Z := 2500.

Inductive network_portal_reason_t :=
  | NETWORK_PORTAL_CLOSED
  | NETWORK_PORTAL_FIRST_SETUP
  | NETWORK_PORTAL_FALLBACK
  | NETWORK_PORTAL_MANUAL.

#[global] Instance portal_reason_eq_dec : EqDecision network_portal_reason_t.
Proof. solve_decision. Defined.

Inductive network_setup_state_t :=
  | NETWORK_SETUP_IDLE
  | NETWORK_SETUP_CONNECTING
  | NETWORK_SETUP_CONNECTED
  | NETWORK_SETUP_FAILED.

#[global] Instance setup_state_eq_dec : EqDecision network_setup_state_t.
Proof. solve_decision. Defined.

Record network_service_snapshot_t := mk_snapshot {
  ns_initialized : bool;
  ns_provisioned : bool;
  ns_provisioning : bool;
  ns_connected : bool;
  ns_time_synced : bool;
  ns_portal_reason : network_portal_reason_t;
  ns_setup_state : network_setup_state_t;
  ns_reconnects : Z;
  ns_disconnects : Z;
  ns_last_disconnect_reason : Z;
  ns_device_id : list Z;
  ns_hostname : list Z;
  ns_ipv4 : list Z;
  ns_sta_ssid : list Z;
  ns_portal_ssid : list Z;
  ns_portal_passphrase : list Z;
}.

#[export] Instance eta_net_snapshot : Eta network_service_snapshot_t := fun d =>
  mk_snapshot (ns_initialized d) (ns_provisioned d) (ns_provisioning d) (ns_connected d) (ns_time_synced d)
    (ns_portal_reason d) (ns_setup_state d) (ns_reconnects d) (ns_disconnects d) (ns_last_disconnect_reason d)
    (ns_device_id d) (ns_hostname d) (ns_ipv4 d) (ns_sta_ssid d) (ns_portal_ssid d) (ns_portal_passphrase d).

Definition snapshot_zero : network_service_snapshot_t :=
  mk_snapshot false false false false false NETWORK_PORTAL_CLOSED NETWORK_SETUP_IDLE 0 0 0 [] [] [] [] [] [].

(** [net_cmd_t], with the fields that its type uses. *)
Inductive net_cmd_t :=
  | NET_CMD_STA_START
  | NET_CMD_DISCONNECTED (reason : Z)
  | NET_CMD_GOT_IP (ipv4 : list Z)
  | NET_CMD_OPEN_PORTAL (reason : network_portal_reason_t)
  | NET_CMD_SETUP_SUBMITTED (ssid password : list Z)
  | NET_CMD_TICK.

(** What was asked of the rest of the world, the last one first. *)
Inductive net_effect :=
  | NE_asked
  | NE_changed (snapshot : network_service_snapshot_t)
  | NE_before_portal_start
  | NE_connect (err : esp_err_t)
  | NE_disconnect
  | NE_set_mode (ap : bool) (err : esp_err_t)
  | NE_set_ap (ssid password : list Z) (err : esp_err_t)
  | NE_set_sta (ssid password : list Z) (err : esp_err_t)
  | NE_httpd_start (err : esp_err_t)
  | NE_httpd_stop
  | NE_delay (ms : Z)
  | NE_restart.

Record network_environment := mk_net_env {
  nenv_now : list net_effect -> Z;
  nenv_random : list net_effect -> list Z;
  nenv_connect : list net_effect -> esp_err_t;
  nenv_set_mode : list net_effect -> esp_err_t;
  nenv_set_config : list net_effect -> esp_err_t;
  nenv_set_sta_config : list net_effect -> esp_err_t;
  nenv_get_config : list net_effect -> esp_err_t;
  nenv_ap_netif : list net_effect -> bool;
  nenv_sntp : list net_effect -> esp_err_t;
  nenv_httpd_start : list net_effect -> esp_err_t;
  nenv_httpd_register : list net_effect -> nat -> esp_err_t;
  nenv_dns_task : list net_effect -> bool;
  (** The DNS task has ended by now. *)
  nenv_dns_ended : list net_effect -> bool;
}.

(** The settings of the build. *)
Record network_config := mk_network_config {
  CONFIG_GATEWAY_WIFI_PORTAL_FALLBACK_SECONDS : Z;
  CONFIG_GATEWAY_WIFI_MANUAL_PORTAL_SECONDS : Z;
}.

(** [ESP_ERR_WIFI_STATE] *)
Definition ESP_ERR_WIFI_STATE : esp_err_t := ESP_ERR_OTHER 0x3006.

Section Network.

Context {N : Type} `{NvsStrings N}.

(** [nw_saved] is the station configuration in the driver: SSID and
    password. *)
Record network := mk_network {
  nw_snapshot : network_service_snapshot_t;
  nw_on_change : bool;
  nw_before_portal_start : bool;
  nw_queue : option (list net_cmd_t);
  nw_ap_netif : bool;
  nw_sntp_started : bool;
  nw_reconnect_delay_ms : Z;
  nw_next_connect_ms : Z;
  nw_offline_since_ms : Z;
  nw_portal_opened_ms : Z;
  nw_setup_deadline_ms : Z;
  nw_restart_at_ms : Z;
  nw_setup_failures : Z;
  nw_sta_connecting : bool;
  nw_saved : list Z * list Z;
  nw_nvs : N;
  nw_httpd : bool;
  nw_running : bool;
  nw_dns_running : bool;
  nw_trace : list net_effect;
}.

#[global] Instance eta_network : Eta network := fun d =>
  mk_network (nw_snapshot d) (nw_on_change d) (nw_before_portal_start d) (nw_queue d) (nw_ap_netif d) (nw_sntp_started d)
    (nw_reconnect_delay_ms d) (nw_next_connect_ms d) (nw_offline_since_ms d) (nw_portal_opened_ms d)
    (nw_setup_deadline_ms d) (nw_restart_at_ms d) (nw_setup_failures d) (nw_sta_connecting d) (nw_saved d) (nw_nvs d)
    (nw_httpd d) (nw_running d) (nw_dns_running d) (nw_trace d).

Abbreviation M := (State network).

Variable cfg : network_config.
Variable env : network_environment.

Definition net_log (e : net_effect) : M unit := modify (fun s => s <| nw_trace := e :: nw_trace s |>).

Definition update_snapshot (f : network_service_snapshot_t -> network_service_snapshot_t) : M unit :=
  modify (fun s => s <| nw_snapshot := f (nw_snapshot s) |>).

(** The answer to a question, and the log of an action with its answer. *)
Definition answer {A} (f : list net_effect -> A) : M A :=
  net_log NE_asked;; gets (fun s => f (nw_trace s)).

Definition perform (f : list net_effect -> esp_err_t) (e : esp_err_t -> net_effect) : M esp_err_t :=
  err ← gets (fun s => f (nw_trace s));
  net_log (e err);;
  mret err.

Definition now_ms : M Z := answer (nenv_now env).

(** [mac]: its last three bytes. *)
Definition build_identity (mac : list Z) : M unit :=
  update_snapshot (fun d =>
    d <| ns_device_id := str "smsgw-" ++ hex_encode (take 3 mac) |>
      <| ns_hostname := str "sms-gateway-" ++ hex_encode (take 3 mac) |>
      <| ns_portal_ssid := str "SMS-Gateway-" ++ hex_encode_bytes (take 3 mac) |>).

Definition copy_snapshot : M network_service_snapshot_t := gets nw_snapshot.

Definition emit_snapshot : M unit :=
  on_change ← gets nw_on_change;
  when on_change (snapshot ← copy_snapshot; net_log (NE_changed snapshot)).

(** [xQueueSend] without waiting. *)
Definition post (cmd : net_cmd_t) : M bool := fun s =>
  match nw_queue s with
  | Some q => if (length q <? NET_QUEUE_DEPTH)%nat then (s <| nw_queue := Some (q ++ [cmd]) |>, true) else (s, false)
  | None => (s, false)
  end.

(** ** The setup access point *)

Definition password_alphabet : list Z := str "ABCDEFGHJKLMNPQRSTUVWXYZ23456789".

Definition password_of (random : list Z) : list Z :=
  map (fun r => password_alphabet.[Z.to_nat (r mod 32)]) (take PORTAL_PASSWORD_CHARS random).

Definition nvs_step {A} (f : N -> N * A) : M A := fun s => let '(n, x) := f (nw_nvs s) in (s <| nw_nvs := n |>, x).

(** The error, or the password. *)
Definition new_portal_password : M (esp_err_t + list Z) :=
  random ← answer (nenv_random env);
  let out := password_of random in
  err ← nvs_step (fun n => nvs_set_str n NET_NVS_NAMESPACE NET_NVS_PORTAL_PASS out);
  err ← (if bool_decide (err = ESP_OK) then nvs_step (fun n => nvs_commit_str n NET_NVS_NAMESPACE) else mret err);
  mret (if bool_decide (err = ESP_OK) then inr out else inl err).

Definition load_portal_password : M (esp_err_t + list Z) :=
  err ← nvs_step (fun n => nvs_open n NET_NVS_NAMESPACE true);
  if bool_decide (err <> ESP_OK) then mret (inl err)
  else
    stored ← gets (fun s => nvs_get_str (nw_nvs s) NET_NVS_NAMESPACE NET_NVS_PORTAL_PASS NETWORK_PORTAL_PASSWORD_MAX);
    match stored with
    | inr out => if (8 <=? length out)%nat then mret (inr out) else new_portal_password
    | inl _ => new_portal_password
    end.

(** The SSID of the saved network: provisioned if it is not empty. *)
Definition sta_credentials_saved : M (list Z * bool) :=
  err ← answer (nenv_get_config env);
  if bool_decide (err <> ESP_OK) then mret ([], false)
  else
    saved ← gets nw_saved;
    mret (take 32 saved.1, bool_decide (saved.1 <> [])).

(** ** The servers of the portal (provisioning_portal.c) *)

Definition PORTAL_ROUTES : nat := 5.

(** The loop that registers the routes: the errors of the calls. *)
Fixpoint register_routes (routes : list nat) : M bool :=
  match routes with
  | [] => mret true
  | i :: routes =>
      err ← answer (fun tr => nenv_httpd_register env tr i);
      if bool_decide (err <> ESP_OK) then
        net_log NE_httpd_stop;;
        modify (fun s => s <| nw_httpd := false |>);;
        mret false
      else register_routes routes
  end.

Definition provisioning_portal_start : M esp_err_t :=
  running ← gets nw_running;
  if running : bool then mret ESP_OK
  else
    err ← perform (nenv_httpd_start env) NE_httpd_start;
    if bool_decide (err <> ESP_OK) then mret err
    else
      modify (fun s => s <| nw_httpd := true |>);;
      registered ← register_routes (seq 0 PORTAL_ROUTES);
      if negb registered then mret ESP_FAIL
      else
        created ← answer (nenv_dns_task env);
        modify (fun s => s <| nw_running := true |> <| nw_dns_running := created |>);;
        mret ESP_OK.

(** The wait for the DNS task, in steps of 100 ms. *)
Fixpoint dns_wait (rounds : nat) : M unit :=
  match rounds with
  | O => mret tt
  | S rounds =>
      ended ← answer (nenv_dns_ended env);
      when ended (modify (fun s => s <| nw_dns_running := false |>));;
      waiting ← gets nw_dns_running;
      when waiting (net_log (NE_delay 100);; dns_wait rounds)
  end.

Definition provisioning_portal_stop : M unit :=
  modify (fun s => s <| nw_running := false |>);;
  httpd ← gets nw_httpd;
  when httpd (net_log NE_httpd_stop;; modify (fun s => s <| nw_httpd := false |>));;
  dns_wait (Z.to_nat (DNS_TASK_EXIT_WAIT_MS / 100)).

(** ** Connecting *)

Definition sta_connect_now : M unit :=
  modify (fun s => s <| nw_next_connect_ms := 0 |> <| nw_sta_connecting := true |>);;
  err ← perform (nenv_connect env) NE_connect;
  when (bool_decide (err <> ESP_OK)) (modify (fun s => s <| nw_sta_connecting := false |>)).

Definition schedule_reconnect : M unit :=
  portal ← gets (fun s => ns_provisioning (nw_snapshot s));
  update_snapshot (fun d => d <| ns_reconnects := u32 (ns_reconnects d + 1) |>);;
  delay ← gets nw_reconnect_delay_ms;
  let delay := if portal && (delay <? RECONNECT_WITH_PORTAL_MS) then RECONNECT_WITH_PORTAL_MS else delay in
  now ← now_ms;
  modify (fun s => s <| nw_next_connect_ms := now + delay |>);;
  modify (fun s =>
    if nw_reconnect_delay_ms s <? RECONNECT_MAX_MS then
      let doubled := u32 (nw_reconnect_delay_ms s * 2) in
      s <| nw_reconnect_delay_ms := if RECONNECT_MAX_MS <? doubled then RECONNECT_MAX_MS else doubled |>
    else s).

(** ** The portal *)

(** Up to the servers of the portal. *)
Definition start_access_point (passphrase : list Z) : M esp_err_t :=
  ssid ← gets (fun s => ns_portal_ssid (nw_snapshot s));
  err ← perform (nenv_set_mode env) (NE_set_mode true);
  err ← (if bool_decide (err = ESP_OK) then perform (nenv_set_config env) (NE_set_ap ssid passphrase) else mret err);
  if bool_decide (err = ESP_OK) then provisioning_portal_start else mret err.

Definition open_portal (reason : network_portal_reason_t) : M esp_err_t :=
  provisioning ← gets (fun s => ns_provisioning (nw_snapshot s));
  if provisioning : bool then
    when (bool_decide (reason = NETWORK_PORTAL_MANUAL)) (update_snapshot (fun d => d <| ns_portal_reason := reason |>));;
    now ← now_ms;
    modify (fun s => s <| nw_portal_opened_ms := now |>);;
    emit_snapshot;;
    mret ESP_OK
  else
    before ← gets nw_before_portal_start;
    when before (net_log NE_before_portal_start);;
    netif ← gets nw_ap_netif;
    created ← (if netif : bool then mret true else answer (nenv_ap_netif env));
    modify (fun s => s <| nw_ap_netif := created |>);;
    if negb created then mret ESP_ERR_NO_MEM
    else
      loaded ← load_portal_password;
      match loaded with
      | inl err => mret err
      | inr passphrase =>
          err ← start_access_point passphrase;
          if bool_decide (err <> ESP_OK) then
            perform (nenv_set_mode env) (NE_set_mode false);;
            mret err
          else
            update_snapshot (fun d => d <| ns_provisioning := true |> <| ns_portal_reason := reason |>
                                        <| ns_portal_passphrase := passphrase |>);;
            now ← now_ms;
            modify (fun s => s <| nw_portal_opened_ms := now |>);;
            emit_snapshot;;
            mret ESP_OK
      end.

Definition close_portal : M unit :=
  provisioning ← gets (fun s => ns_provisioning (nw_snapshot s));
  if negb provisioning then mret tt
  else
    provisioning_portal_stop;;
    perform (nenv_set_mode env) (NE_set_mode false);;
    update_snapshot (fun d => d <| ns_provisioning := false |> <| ns_portal_reason := NETWORK_PORTAL_CLOSED |>
                                <| ns_portal_passphrase := [] |>);;
    emit_snapshot.

Definition set_setup_state (state : network_setup_state_t) : M unit :=
  update_snapshot (fun d => d <| ns_setup_state := state |>);;
  emit_snapshot.

Definition start_sntp_once : M unit :=
  started ← gets nw_sntp_started;
  when (negb started)
    (err ← answer (nenv_sntp env);
     when (bool_decide (err = ESP_OK)) (modify (fun s => s <| nw_sntp_started := true |>))).

(** ** Commands *)

Definition handle_disconnected (reason : Z) : M unit :=
  modify (fun s => s <| nw_sta_connecting := false |>);;
  before ← copy_snapshot;
  update_snapshot (fun d => d <| ns_connected := false |> <| ns_ipv4 := [] |>
    <| ns_disconnects := u32 (ns_disconnects d + 1) |> <| ns_last_disconnect_reason := reason |>);;
  when (ns_connected before)
    (now ← now_ms;
     modify (fun s => s <| nw_offline_since_ms := now |> <| nw_reconnect_delay_ms := RECONNECT_MIN_MS |>));;
  if bool_decide (ns_setup_state before = NETWORK_SETUP_CONNECTING) then
    if reason =? WIFI_REASON_ASSOC_LEAVE then mret tt
    else
      modify (fun s => s <| nw_setup_failures := u32 (nw_setup_failures s + 1) |>);;
      failures ← gets nw_setup_failures;
      if SETUP_CONNECT_ATTEMPTS <=? failures then
        set_setup_state NETWORK_SETUP_FAILED;;
        schedule_reconnect
      else
        now ← now_ms;
        modify (fun s => s <| nw_next_connect_ms := now + 2000 |>);;
        emit_snapshot
  else if bool_decide (ns_setup_state before = NETWORK_SETUP_CONNECTED) then mret tt
  else
    when (ns_provisioned before) schedule_reconnect;;
    emit_snapshot.

Definition handle_got_ip (ip : list Z) : M unit :=
  modify (fun s => s <| nw_sta_connecting := false |> <| nw_next_connect_ms := 0 |>
                     <| nw_reconnect_delay_ms := RECONNECT_MIN_MS |>);;
  saved ← sta_credentials_saved;
  update_snapshot (fun d =>
    (d <| ns_connected := true |> <| ns_provisioned := true |> <| ns_ipv4 := take (NETWORK_IPV4_MAX - 1) (c_str ip) |>
       <| ns_sta_ssid := saved.1 |>)
      <| ns_setup_state := if bool_decide (ns_setup_state d = NETWORK_SETUP_FAILED) then NETWORK_SETUP_IDLE
                           else ns_setup_state d |>);;
  after ← copy_snapshot;
  let portal := if ns_provisioning after then ns_portal_reason after else NETWORK_PORTAL_CLOSED in
  start_sntp_once;;
  if bool_decide (ns_setup_state after = NETWORK_SETUP_CONNECTING) then
    now ← now_ms;
    modify (fun s => s <| nw_restart_at_ms := now + SETUP_RESTART_DELAY_MS |>);;
    set_setup_state NETWORK_SETUP_CONNECTED
  else if bool_decide (portal = NETWORK_PORTAL_FALLBACK) || bool_decide (portal = NETWORK_PORTAL_FIRST_SETUP)
  then close_portal
  else emit_snapshot.

(** The loop of [esp_wifi_set_config]. *)
Fixpoint set_sta_config (attempts : nat) (ssid password : list Z) (err : esp_err_t) : M esp_err_t :=
  match attempts with
  | O => mret err
  | S attempts =>
      err ← perform (nenv_set_sta_config env) (NE_set_sta ssid password);
      if bool_decide (err <> ESP_ERR_WIFI_STATE) then
        when (bool_decide (err = ESP_OK)) (modify (fun s => s <| nw_saved := (ssid, password) |>));;
        mret err
      else net_log (NE_delay 300);; set_sta_config attempts ssid password err
  end.

Definition apply_sta_credentials (ssid password : list Z) : M esp_err_t :=
  net_log NE_disconnect;;
  set_sta_config 5 (take 32 ssid) (take 64 password) ESP_FAIL.

Definition handle_setup_submitted (ssid password : list Z) : M unit :=
  err ← apply_sta_credentials ssid password;
  modify (fun s => s <| nw_sta_connecting := false |>);;
  if bool_decide (err <> ESP_OK) then set_setup_state NETWORK_SETUP_FAILED
  else
    update_snapshot (fun d => d <| ns_provisioned := true |> <| ns_setup_state := NETWORK_SETUP_CONNECTING |>
                                <| ns_sta_ssid := ssid |>);;
    modify (fun s => s <| nw_setup_failures := 0 |>);;
    now ← now_ms;
    modify (fun s => s <| nw_setup_deadline_ms := now + SETUP_CONNECT_TIMEOUT_MS |>
                       <| nw_reconnect_delay_ms := RECONNECT_MIN_MS |>);;
    now ← now_ms;
    modify (fun s => s <| nw_next_connect_ms := now + 1000 |>);;
    emit_snapshot.

(** The five parts of [handle_tick], which all look at the snapshot taken at
    its beginning.  A restart does not return; the model goes on behind it. *)
Definition tick_restart (now : Z) : M unit :=
  restart_at ← gets nw_restart_at_ms;
  when (negb (restart_at =? 0) && (restart_at <=? now)) (net_log NE_restart).

Definition tick_setup (now : Z) (snap : network_service_snapshot_t) : M unit :=
  deadline ← gets nw_setup_deadline_ms;
  when (bool_decide (ns_setup_state snap = NETWORK_SETUP_CONNECTING) && (deadline <=? now))
    (set_setup_state NETWORK_SETUP_FAILED;; net_log NE_disconnect;; schedule_reconnect).

Definition tick_connect (now : Z) (snap : network_service_snapshot_t) : M unit :=
  next ← gets nw_next_connect_ms;
  when (negb (next =? 0) && (next <=? now) && negb (ns_connected snap) && ns_provisioned snap) sta_connect_now.

Definition tick_fallback (now : Z) (snap : network_service_snapshot_t) : M unit :=
  offline_since ← gets nw_offline_since_ms;
  when (negb (ns_connected snap) && ns_provisioned snap && negb (ns_provisioning snap)
        && (CONFIG_GATEWAY_WIFI_PORTAL_FALLBACK_SECONDS cfg * 1000 <=? now - offline_since))
    (err ← open_portal NETWORK_PORTAL_FALLBACK;
     when (bool_decide (err <> ESP_OK)) (modify (fun s => s <| nw_offline_since_ms := now |>))).

Definition tick_manual (now : Z) (snap : network_service_snapshot_t) : M unit :=
  opened ← gets nw_portal_opened_ms;
  when (ns_provisioning snap && bool_decide (ns_portal_reason snap = NETWORK_PORTAL_MANUAL)
        && bool_decide (ns_setup_state snap <> NETWORK_SETUP_CONNECTING)
        && bool_decide (ns_setup_state snap <> NETWORK_SETUP_CONNECTED)
        && (CONFIG_GATEWAY_WIFI_MANUAL_PORTAL_SECONDS cfg * 1000 <=? now - opened))
    (close_portal;;
     when (negb (ns_connected snap)) (modify (fun s => s <| nw_offline_since_ms := now |>))).

Definition handle_tick : M unit :=
  now ← now_ms;
  snap ← copy_snapshot;
  tick_restart now;;
  tick_setup now snap;;
  tick_connect now snap;;
  tick_fallback now snap;;
  tick_manual now snap.

Definition network_command (cmd : net_cmd_t) : M unit :=
  match cmd with
  | NET_CMD_STA_START =>
      snap ← copy_snapshot;
      when (ns_provisioned snap && bool_decide (ns_portal_reason snap <> NETWORK_PORTAL_FIRST_SETUP)) sta_connect_now
  | NET_CMD_DISCONNECTED reason => handle_disconnected reason
  | NET_CMD_GOT_IP ipv4 => handle_got_ip ipv4
  | NET_CMD_OPEN_PORTAL reason => open_portal reason;; mret tt
  | NET_CMD_SETUP_SUBMITTED ssid password => handle_setup_submitted ssid password
  | NET_CMD_TICK => mret tt
  end.

(** One turn of the loop of [network_task]. *)
Definition network_turn : M unit :=
  cmd ← (fun s => match nw_queue s with
                  | Some (cmd :: q) => (s <| nw_queue := Some q |>, cmd)
                  | _ => (s, NET_CMD_TICK)
                  end);
  network_command cmd;;
  handle_tick.

(** ** Other tasks *)

(** The events that [event_handler] is registered for; [event_data] may be
    NULL. *)
Inductive net_event :=
  | WIFI_EVENT_STA_START
  | WIFI_EVENT_STA_DISCONNECTED (reason : option Z)
  | IP_EVENT_STA_GOT_IP (ip : option (Z * Z * Z * Z))
  | EVENT_OTHER.

(** [IPSTR] *)
Definition ip_text (ip : Z * Z * Z * Z) : list Z :=
  let '(a, b, c, d) := ip in
  decimal a ++ str "." ++ decimal b ++ str "." ++ decimal c ++ str "." ++ decimal d.

Definition event_handler (event : net_event) : M unit :=
  match event with
  | WIFI_EVENT_STA_START => post NET_CMD_STA_START;; mret tt
  | WIFI_EVENT_STA_DISCONNECTED reason => post (NET_CMD_DISCONNECTED (default 0 reason));; mret tt
  | IP_EVENT_STA_GOT_IP ip =>
      post (NET_CMD_GOT_IP (take (NETWORK_IPV4_MAX - 1) (default [] (ip_text <$> ip))));; mret tt
  | EVENT_OTHER => mret tt
  end.

Definition network_service_open_portal : M esp_err_t :=
  initialized ← gets (fun s => ns_initialized (nw_snapshot s));
  if negb initialized then mret ESP_ERR_INVALID_STATE
  else
    posted ← post (NET_CMD_OPEN_PORTAL NETWORK_PORTAL_MANUAL);
    mret (if posted : bool then ESP_OK else ESP_ERR_NO_MEM).

(** The arguments are NULL for [None]. *)
Definition network_service_submit_credentials (ssid password : option (list Z)) : M esp_err_t :=
  match ssid, password with
  | Some ssid, Some password =>
      initialized ← gets (fun s => ns_initialized (nw_snapshot s));
      if negb initialized then mret ESP_ERR_INVALID_STATE
      else
        let ssid_len := strlen ssid in
        let password_len := strlen password in
        if (ssid_len =? 0)%nat || (32 <? ssid_len)%nat || (64 <? password_len)%nat
           || ((0 <? password_len)%nat && (password_len <? 8)%nat)
        then mret ESP_ERR_INVALID_ARG
        else
          queued ← post (NET_CMD_SETUP_SUBMITTED (c_str ssid) (c_str password));
          mret (if queued : bool then ESP_OK else ESP_ERR_NO_MEM)
  | _, _ => mret ESP_ERR_INVALID_ARG
  end.

(** [out] is not NULL for [true]; [time] in seconds. *)
Definition network_service_get_snapshot (out : bool) (time : Z) (s : network) : esp_err_t + network_service_snapshot_t :=
  if negb out then inl ESP_ERR_INVALID_ARG
  else if negb (ns_initialized (nw_snapshot s)) then inl ESP_ERR_INVALID_STATE
  else inr (if nw_sntp_started s then (nw_snapshot s) <| ns_time_synced := 1700000000 <? time |> else nw_snapshot s).

Definition network_service_is_online (s : network) : bool :=
  match network_service_get_snapshot true 0 s with inr snapshot => ns_connected snapshot | inl _ => false end.

Definition network_service_device_id (mac : list Z) : M (list Z) :=
  id ← gets (fun s => ns_device_id (nw_snapshot s));
  when (bool_decide (id = [])) (build_identity mac);;
  gets (fun s => ns_device_id (nw_snapshot s)).

Definition network_service_hostname (mac : list Z) : M (list Z) :=
  name ← gets (fun s => ns_hostname (nw_snapshot s));
  when (bool_decide (name = [])) (build_identity mac);;
  gets (fun s => ns_hostname (nw_snapshot s)).

(** [config]: the two callbacks of the argument, if it is not NULL; [platform]:
    the errors of the eight calls of ESP-IDF in their order, of which the first
    two may be ESP_ERR_INVALID_STATE; then what could be created. *)
Definition return_first (errs : list esp_err_t) (rest : M esp_err_t) : M esp_err_t :=
  match filter (.≠ ESP_OK) errs with [] => rest | err :: _ => mret err end.

Definition already (err : esp_err_t) : esp_err_t := if bool_decide (err = ESP_ERR_INVALID_STATE) then ESP_OK else err.

Definition network_service_init (config : option (bool * bool)) (mac : list Z) (queue netif : bool)
    (netif_init event_loop wifi_init wifi_handler ip_handler wifi_mode wifi_start : esp_err_t) (task : bool) : M esp_err_t :=
  initialized ← gets (fun s => ns_initialized (nw_snapshot s));
  if initialized : bool then mret ESP_ERR_INVALID_STATE
  else
    modify (fun s => s <| nw_snapshot := snapshot_zero |>);;
    when (bool_decide (config <> None))
      (modify (fun s => s <| nw_on_change := default false (fst <$> config) |>
                          <| nw_before_portal_start := default false (snd <$> config) |>));;
    build_identity mac;;
    modify (fun s => s <| nw_queue := if queue then Some [] else None |>);;
    if negb queue then mret ESP_ERR_NO_MEM
    else
      return_first [already netif_init; already event_loop]
        (if negb netif then mret ESP_ERR_NO_MEM
         else
           return_first [wifi_init; wifi_handler; ip_handler]
             (saved ← sta_credentials_saved;
              let '(ssid, provisioned) := saved in
              update_snapshot (fun d => d <| ns_provisioned := provisioned |> <| ns_sta_ssid := ssid |>
                                          <| ns_initialized := true |>);;
              now ← now_ms;
              modify (fun s => s <| nw_offline_since_ms := now |>);;
              return_first [wifi_mode; wifi_start]
                (when (negb provisioned) (post (NET_CMD_OPEN_PORTAL NETWORK_PORTAL_FIRST_SETUP);; mret tt);;
                 if negb task then mret ESP_ERR_NO_MEM
                 else emit_snapshot;; mret ESP_OK))).

(** ** All of it *)

Inductive net_step :=
  | W_turn
  | W_event (event : net_event)
  | W_open_portal
  | W_submit (ssid password : option (list Z)).

Definition net_step_run (step : net_step) : M unit :=
  match step with
  | W_turn => network_turn
  | W_event event => event_handler event
  | W_open_portal => network_service_open_portal;; mret tt
  | W_submit ssid password => network_service_submit_credentials ssid password;; mret tt
  end.

Fixpoint net_run (steps : list net_step) : M unit :=
  match steps with
  | [] => mret tt
  | step :: steps => net_step_run step;; net_run steps
  end.

End Network.

#[global] Arguments network N : clear implicits.

(** ** Wi-Fi: the platform of the examples *)

(** Every question and action takes 300 ms; [connect] and [httpd] are the
    answers of the driver and of the HTTP server. *)
Definition sample_net_env (connect httpd : esp_err_t) : network_environment :=
  mk_net_env (fun tr => 1 + 300 * Z.of_nat (length tr)) (fun _ => seqZ 100 12) (fun _ => connect) (fun _ => ESP_OK)
    (fun _ => ESP_OK) (fun _ => ESP_OK) (fun _ => ESP_OK) (fun _ => true) (fun _ => ESP_OK) (fun _ => httpd)
    (fun _ _ => ESP_OK) (fun _ => true) (fun _ => true).

Definition sample_net_config : network_config := mk_network_config 180 600.

Definition net_zero (saved : list Z * list Z) : network string_map :=
  mk_network snapshot_zero false false None false false 1000 0 0 0 0 0 0 false saved ∅ false false false [].

(** The gateway after its start. *)
Definition booted_net (env : network_environment) (saved : list Z * list Z) : network string_map :=
  (network_service_init env (Some (true, true)) [0xa; 0xb; 0xc] true true ESP_OK ESP_OK ESP_OK ESP_OK ESP_OK ESP_OK ESP_OK true
     (net_zero saved)).1.

Definition home : list Z * list Z := (str "home", str "secret123").

Definition good_env : network_environment := sample_net_env ESP_OK ESP_OK.

(** Provisioned, and told by the driver to start. *)
Definition trying_net : network string_map :=
  (net_run sample_net_config good_env [W_event WIFI_EVENT_STA_START; W_turn] (booted_net good_env home)).1.
