(* ===== verification/NetworkFacts.v ===== *)
(** * Wi-Fi: the portal is coherent, reconnecting does not stop *)

From Stdlib Require Import Ascii String.
From Stdlib Require Import ZifyBool ZifyNat.
From stdpp Require Import base numbers list strings.
From S2P Require Import Prelude.
From S2P Require Import StateMonad.
From S2P Require Import Nvs.
From S2P Require Import NetworkService.

Open Scope Z_scope.

Section Facts.

Context {N : Type} `{NvsStrings N}.

Variable cfg : network_config.
Variable env : network_environment.

Abbreviation net := (network N).
Implicit Types P : net -> Prop.

(** ** Commands that leave a predicate alone *)

Lemma keeps_answer {A} P (f : list net_effect -> A) :
  keeps P (net_log (N := N) NE_asked) -> keeps P (answer f).
Proof. intros Hl. unfold answer. apply keeps_bind; [done|]. intros _. apply keeps_gets. Qed.

Lemma keeps_perform P f e : (forall err, keeps P (net_log (N := N) (e err))) -> keeps P (perform f e).
Proof.
  intros Hl. unfold perform. apply keeps_bind; [apply keeps_gets|]. intros err. apply keeps_bind; [apply Hl|]. intros _.
  apply keeps_ret.
Qed.

Lemma keeps_nvs {A} P (f : N -> N * A) : (forall n, keeps P (modify (fun s => s <| nw_nvs := n |>))) -> keeps P (nvs_step f).
Proof.
  intros Hm s Hs. unfold nvs_step. destruct (f (nw_nvs s)) as [n x]. exact (Hm n s Hs).
Qed.

(** ** The portal *)

(** Before the HTTP server of the portal is started the API server, which uses
    the same port, was stopped. *)
Fixpoint api_stopped (tr : list net_effect) : bool :=
  match tr with
  | [] => false
  | NE_before_portal_start :: _ => true
  | NE_httpd_stop :: _ => false
  | _ :: tr => api_stopped tr
  end.

Fixpoint portal_after_api (tr : list net_effect) : Prop :=
  match tr with
  | [] => True
  | e :: tr => (if e is NE_httpd_start _ then api_stopped tr = true else True) /\ portal_after_api tr
  end.

(** The access point is announced exactly while the portal's servers run, with
    a reason and a password that WPA2 accepts. *)
Definition portal_open (s : net) : Prop :=
  nw_running s = true /\ nw_httpd s = true /\ ns_portal_reason (nw_snapshot s) <> NETWORK_PORTAL_CLOSED /\
  (8 <= length (ns_portal_passphrase (nw_snapshot s)) <= 16)%nat.

Definition portal_closed (s : net) : Prop :=
  nw_running s = false /\ nw_httpd s = false /\ ns_portal_reason (nw_snapshot s) = NETWORK_PORTAL_CLOSED /\
  ns_portal_passphrase (nw_snapshot s) = [].

Definition proper_command (cmd : net_cmd_t) : Prop :=
  if cmd is NET_CMD_OPEN_PORTAL reason then reason <> NETWORK_PORTAL_CLOSED else True.

(** What never changes while the portal is opened or closed. *)
Definition portal_rest (s : net) : Prop :=
  nw_before_portal_start s = true /\ portal_after_api (nw_trace s) /\
  Forall proper_command (default [] (nw_queue s)).

Definition portal_coherent (s : net) : Prop :=
  portal_rest s /\ if ns_provisioning (nw_snapshot s) then portal_open s else portal_closed s.

(** The password's random bytes are as many as were asked for. *)
Hypothesis random_fills : forall tr, length (nenv_random env tr) = PORTAL_PASSWORD_CHARS.

(** Nothing that the coherence depends on. *)
Definition same_portal (s s' : net) : Prop :=
  nw_before_portal_start s' = nw_before_portal_start s /\ nw_queue s' = nw_queue s /\ nw_trace s' = nw_trace s /\
  nw_running s' = nw_running s /\ nw_httpd s' = nw_httpd s /\
  ns_provisioning (nw_snapshot s') = ns_provisioning (nw_snapshot s) /\
  ns_portal_reason (nw_snapshot s') = ns_portal_reason (nw_snapshot s) /\
  ns_portal_passphrase (nw_snapshot s') = ns_portal_passphrase (nw_snapshot s).

(** The predicates on these parts: the portal with the flag [p] and the rest. *)
Definition portal_at (p : bool) (s : net) : Prop :=
  portal_rest s /\ ns_provisioning (nw_snapshot s) = p /\ if p then portal_open s else portal_closed s.

Lemma portal_at_same p s s' : same_portal s s' -> portal_at p s -> portal_at p s'.
Proof.
  unfold portal_at, portal_rest, portal_open, portal_closed. intros (-> & -> & -> & -> & -> & -> & -> & ->). done.
Qed.

Lemma portal_modify p f : (forall s, same_portal s (f s)) -> keeps (portal_at p) (modify f).
Proof. intros Hf s Hs. exact (portal_at_same p s (f s) (Hf s) Hs). Qed.

Lemma portal_log p e : (forall err, e <> NE_httpd_start err) -> keeps (portal_at p) (net_log e).
Proof.
  intros He s ((Hb & Ht & Hq) & Hp). split; [|exact Hp]. split; [done|]. split; [|done]. cbn. split; [|done].
  destruct e; try done. by destruct (He err).
Qed.

Lemma portal_answer {A} p (f : list net_effect -> A) : keeps (portal_at p) (answer f).
Proof. apply keeps_answer. by apply portal_log. Qed.

Lemma portal_perform p f e : (forall err err', e err <> NE_httpd_start err') -> keeps (portal_at p) (perform f e).
Proof. intros He. apply keeps_perform. intros err. by apply portal_log. Qed.

Lemma portal_nvs {A} p (f : N -> N * A) : keeps (portal_at p) (nvs_step f).
Proof. apply keeps_nvs. intros n. by apply portal_modify. Qed.

Lemma portal_emit p : keeps (portal_at p) emit_snapshot.
Proof.
  unfold emit_snapshot, copy_snapshot. apply keeps_bind; [apply keeps_gets|]. intros []; [|apply keeps_ret].
  apply keeps_bind; [apply keeps_gets|]. intros snap. by apply portal_log.
Qed.

#[local] Hint Resolve portal_answer portal_emit portal_nvs : state.

Lemma portal_now p : keeps (portal_at p) (now_ms env).
Proof. apply portal_answer. Qed.

Lemma portal_connect p : keeps (portal_at p) (sta_connect_now env).
Proof.
  unfold sta_connect_now. apply keeps_bind; [by apply portal_modify|]. intros _.
  apply keeps_bind; [by apply portal_perform|]. intros err. apply keeps_when. intros _. by apply portal_modify.
Qed.

Lemma portal_schedule p : keeps (portal_at p) (schedule_reconnect env).
Proof.
  unfold schedule_reconnect. apply keeps_bind; [apply keeps_gets|]. intros portal.
  apply keeps_bind; [by apply portal_modify|]. intros _. apply keeps_bind; [apply keeps_gets|]. intros delay.
  apply keeps_bind; [apply portal_now|]. intros now. apply keeps_bind; [by apply portal_modify|]. intros _.
  apply portal_modify. intros s. by destruct (_ <? _).
Qed.

Lemma portal_setup p state : keeps (portal_at p) (set_setup_state state).
Proof. unfold set_setup_state. apply keeps_bind; [by apply portal_modify|]. intros _. apply portal_emit. Qed.

Lemma portal_saved p : keeps (portal_at p) (sta_credentials_saved env).
Proof. unfold sta_credentials_saved. keeps_tac. Qed.

(** The password that is found or made. *)
Definition password_fits (r : esp_err_t + list Z) : Prop := if r is inr out then (8 <= length out <= 16)%nat else True.

Lemma load_password P `{!NvsStringsLaws N} :
  keeps P (net_log (N := N) NE_asked) -> (forall n, keeps P (modify (fun s => s <| nw_nvs := n |>))) ->
  triple P (load_portal_password env) (fun r s => password_fits r /\ P s).
Proof.
  intros Hl Hn. assert (triple P (new_portal_password env) (fun r s => password_fits r /\ P s)) as Hnew.
  { unfold new_portal_password.
    apply (triple_bind _ _ (fun random s => length random = PORTAL_PASSWORD_CHARS /\ P s)).
    { intros s Hs. split; [apply random_fills|]. exact (keeps_answer P (nenv_random env) Hl s Hs). }
    intros random. apply triple_pure. intros Hr. apply (triple_bind _ _ (fun _ => P)); [by apply keeps_nvs|].
    intros err. apply (triple_bind _ _ (fun _ => P)); [destruct (bool_decide _); [by apply keeps_nvs|apply keeps_ret]|].
    intros err'. apply triple_ret. intros s Hs. split; [|done]. destruct (bool_decide _); [|done]. cbn.
    unfold password_of. rewrite length_map, length_take, Hr. cbn. lia. }
  unfold load_portal_password. apply (triple_bind _ _ (fun _ => P)); [by apply keeps_nvs|]. intros err.
  destruct (bool_decide _); [by apply triple_ret|].
  apply (triple_bind _ _ (fun r s => (if r is inr out then (length out <= 16)%nat else True) /\ P s)).
  { intros s Hs. split; [|done]. cbn. rewrite get_str_spec. destruct (str_at _ _ _) as [out|]; [|done].
    change NETWORK_PORTAL_PASSWORD_MAX with 17%nat. destruct (Nat.leb_spec (length out + 1) 17); [lia|done]. }
  intros stored. apply triple_pure. intros Hlen. destruct stored as [e|out]; [done|].
  destruct (Nat.leb_spec 8 (length out)); [|done]. apply triple_ret. cbn. intros s Hs. split; [lia|done].
Qed.

(** The servers: [httpd] is what runs of them. *)
Definition servers (running httpd : bool) (s : net) : Prop :=
  portal_rest s /\ ns_provisioning (nw_snapshot s) = false /\
  ns_portal_reason (nw_snapshot s) = NETWORK_PORTAL_CLOSED /\ ns_portal_passphrase (nw_snapshot s) = [] /\
  nw_running s = running /\ nw_httpd s = httpd.

Lemma servers_log running httpd e : (forall err, e <> NE_httpd_start err) -> keeps (servers running httpd) (net_log e).
Proof.
  intros He s ((Hb & Ht & Hq) & Hp). split; [|exact Hp]. split; [done|]. split; [|done]. cbn. split; [|done].
  destruct e; try done. by destruct (He err).
Qed.

Lemma servers_routes routes :
  triple (servers false true) (register_routes env routes)
    (fun ok => servers false ok).
Proof.
  induction routes as [|i routes IH]; cbn [register_routes]; [by apply triple_ret|].
  apply (triple_bind _ _ (fun _ => servers false true)); [apply keeps_answer; by apply servers_log|]. intros err.
  destruct (bool_decide _); [|done].
  apply (triple_bind _ _ (fun _ => servers false true)); [by apply servers_log|]. intros _.
  apply (triple_bind _ _ (fun _ => servers false false)); [by intros s (? & ? & ? & ? & ? & ?)|]. intros _. by apply triple_ret.
Qed.

Lemma servers_start :
  triple (fun s => api_stopped (nw_trace s) = true /\ servers false false s) (provisioning_portal_start env)
    (fun err => servers (bool_decide (err = ESP_OK)) (bool_decide (err = ESP_OK))).
Proof.
  unfold provisioning_portal_start.
  apply (triple_bind _ _ (fun running s => running = false /\ api_stopped (nw_trace s) = true /\ servers false false s)).
  { intros s (Ha & Hs). split; [by destruct Hs as (_ & _ & _ & _ & Hr & _)|done]. }
  intros running. apply triple_pure. intros ->. unfold perform.
  apply (triple_bind _ _ (fun _ => servers false false)).
  { intros s (Ha & (Hb & Ht & Hq) & Hs). split; [|exact Hs]. split; [done|]. split; [|done]. by split. }
  intros err. destruct (bool_decide (err <> ESP_OK)) eqn:E.
  { apply bool_decide_eq_true in E. apply triple_ret. intros s Hs. by rewrite bool_decide_eq_false_2. }
  apply (triple_bind _ _ (fun _ => servers false true)); [by intros s (? & ? & ? & ? & ? & ?)|]. intros _.
  eapply triple_bind; [apply servers_routes|]. intros []; cbn [negb]; [|by apply triple_ret].
  apply (triple_bind _ _ (fun _ => servers false true)); [apply keeps_answer; by apply servers_log|]. intros created.
  apply (triple_bind _ _ (fun _ => servers true true)); [by intros s (? & ? & ? & ? & ? & ?)|]. intros _. by apply triple_ret.
Qed.

(** The servers can be started. *)
Definition startable (s : net) : Prop := api_stopped (nw_trace s) = true /\ servers false false s.

Lemma startable_log e :
  (forall err, e <> NE_httpd_start err) -> e <> NE_httpd_stop -> keeps startable (net_log e).
Proof.
  intros He Hstop s [Ha Hs]. split; [|by apply servers_log]. by destruct e.
Qed.

Lemma startable_modify f : (forall s, same_portal s (f s)) -> keeps startable (modify f).
Proof.
  unfold startable, servers, portal_rest. intros Hf s. destruct (Hf s) as (E1 & E2 & E3 & E4 & E5 & E6 & E7 & E8).
  cbn. by rewrite E1, E2, E3, E4, E5, E6, E7, E8.
Qed.

Lemma startable_perform f e :
  (forall err err', e err <> NE_httpd_start err') -> (forall err, e err <> NE_httpd_stop) -> keeps startable (perform f e).
Proof. intros. apply keeps_perform. intros err. by apply startable_log. Qed.

Lemma access_point_start passphrase :
  triple startable (start_access_point env passphrase)
    (fun err => servers (bool_decide (err = ESP_OK)) (bool_decide (err = ESP_OK))).
Proof.
  assert (forall err, err <> ESP_OK -> triple startable (mret err : State net esp_err_t)
    (fun err => servers (bool_decide (err = ESP_OK)) (bool_decide (err = ESP_OK)))) as Hret.
  { intros err Hne. apply triple_ret. intros s [_ Hs]. by rewrite bool_decide_eq_false_2. }
  unfold start_access_point. apply (triple_bind _ _ (fun _ => startable)); [apply keeps_gets|]. intros ssid.
  apply (triple_bind _ _ (fun _ => startable)); [by apply startable_perform|]. intros err.
  apply (triple_bind _ _ (fun _ => startable)).
  { destruct (bool_decide (err = ESP_OK)); [by apply startable_perform|apply keeps_ret]. }
  intros err'. destruct (bool_decide (err' = ESP_OK)) eqn:E; [apply servers_start|].
  apply Hret. by apply bool_decide_eq_false in E.
Qed.

Lemma closed_servers s : portal_at false s <-> servers false false s.
Proof. unfold portal_at, servers, portal_closed. tauto. Qed.

Lemma portal_announce reason passphrase :
  reason <> NETWORK_PORTAL_CLOSED -> (8 <= length passphrase <= 16)%nat ->
  triple (servers true true)
    (update_snapshot (fun d => d <| ns_provisioning := true |> <| ns_portal_reason := reason |>
                                 <| ns_portal_passphrase := passphrase |>)) (fun _ => portal_at true).
Proof. intros Hr Hp s (Hrest & _ & _ & _ & E1 & E2). split; [exact Hrest|]. by split. Qed.

Definition coherent (s : net) : Prop := exists p, portal_at p s.

Lemma coherent_keeps {A} (c : State net A) : (forall p, keeps (portal_at p) c) -> keeps coherent c.
Proof. intros Hc s [p Hs]. exists p. by apply Hc. Qed.

Lemma coherent_open reason `{!NvsStringsLaws N} :
  reason <> NETWORK_PORTAL_CLOSED -> keeps coherent (open_portal env reason).
Proof.
  intros Hr. unfold open_portal.
  apply (triple_bind _ _ (fun p s => p = ns_provisioning (nw_snapshot s) /\ portal_at p s)).
  { intros s [p (H1 & <- & H3)]. done. }
  intros p. destruct p.
  - apply triple_pre with (portal_at true); [|by intros s [_ ?]].
    apply (triple_bind _ _ (fun _ => portal_at true)).
    { apply keeps_when. intros _ s (H1 & H2 & H3 & H4 & H5 & H6).
      split; [done|]. split; [done|]. split; [done|]. split; [done|]. by split. }
    intros _. apply (triple_bind _ _ (fun _ => portal_at true)); [apply portal_now|]. intros now.
    apply (triple_bind _ _ (fun _ => portal_at true)); [by apply portal_modify|]. intros _.
    apply (triple_bind _ _ (fun _ => portal_at true)); [apply portal_emit|]. intros _. apply triple_ret. intros s Hs. exact (ex_intro _ true Hs).
  - apply triple_pre with (portal_at false); [|by intros s [_ ?]].
    apply (triple_bind _ _ (fun before s => before = true /\ portal_at false s)).
    { intros s Hs. split; [|done]. by destruct Hs as ((Hb & _) & _). }
    intros before. apply triple_pure. intros ->. cbn [when].
    apply (triple_bind _ _ (fun _ => startable)).
    { intros s Hs%closed_servers. split; [done|]. by apply servers_log. }
    intros _. apply (triple_bind _ _ (fun _ => startable)); [apply keeps_gets|]. intros netif.
    apply (triple_bind _ _ (fun _ => startable)).
    { destruct netif; [apply keeps_ret|]. apply keeps_answer. by apply startable_log. }
    intros created. apply (triple_bind _ _ (fun _ => startable)); [by apply startable_modify|]. intros _.
    destruct created; cbn [negb]; [|apply triple_ret; intros s [_ Hs]; by exists false; apply closed_servers].
    eapply triple_bind.
    { apply load_password; [done|by apply startable_log|]. intros n. by apply startable_modify. }
    intros loaded. apply triple_pure. intros Hfit. destruct loaded as [err|passphrase].
    { apply triple_ret. intros s [_ Hs]. exists false. by apply closed_servers. }
    eapply triple_bind; [apply access_point_start|]. intros err. destruct (bool_decide (err <> ESP_OK)) eqn:E.
    + apply bool_decide_eq_true in E. rewrite bool_decide_eq_false_2 by done.
      apply (triple_bind _ _ (fun _ => servers false false)).
      { apply keeps_perform. intros e. by apply servers_log. }
      intros _. apply triple_ret. intros s Hs. exists false. by apply closed_servers.
    + apply bool_decide_eq_false in E. rewrite bool_decide_eq_true_2 by (destruct (decide (err = ESP_OK)); tauto).
      apply (triple_bind _ _ (fun _ => portal_at true)); [by apply portal_announce|]. intros _.
      apply (triple_bind _ _ (fun _ => portal_at true)); [apply portal_now|]. intros now.
      apply (triple_bind _ _ (fun _ => portal_at true)); [by apply portal_modify|]. intros _.
      apply (triple_bind _ _ (fun _ => portal_at true)); [apply portal_emit|]. intros _. apply triple_ret. intros s Hs. exact (ex_intro _ true Hs).
Qed.

(** The servers are stopped, and still announced. *)
Definition stopped (s : net) : Prop := portal_rest s /\ nw_running s = false /\ nw_httpd s = false.

Lemma stopped_log e : (forall err, e <> NE_httpd_start err) -> keeps stopped (net_log e).
Proof.
  intros He s ((Hb & Ht & Hq) & Hp). split; [|exact Hp]. split; [done|]. split; [|done]. cbn. split; [|done].
  destruct e; try done. by destruct (He err).
Qed.

Lemma stopped_wait rounds : keeps stopped (dns_wait env rounds).
Proof.
  induction rounds as [|rounds IH]; cbn [dns_wait]; [apply keeps_ret|].
  apply keeps_bind; [apply keeps_answer; by apply stopped_log|]. intros ended.
  apply keeps_bind; [apply keeps_when; intros _; by intros s (? & ? & ?)|]. intros _.
  apply keeps_bind; [apply keeps_gets|]. intros waiting. apply keeps_when. intros _.
  apply keeps_bind; [by apply stopped_log|done].
Qed.

Lemma coherent_close : keeps coherent (close_portal env).
Proof.
  unfold close_portal. apply (triple_bind _ _ (fun p s => p = ns_provisioning (nw_snapshot s) /\ portal_at p s)).
  { intros s [p (H1 & <- & H3)]. done. }
  intros p. destruct p; cbn [negb]; [|apply triple_ret; intros s [_ Hs]; by exists false].
  apply triple_pre with (portal_at true); [|by intros s [_ ?]].
  apply (triple_bind _ _ (fun _ => stopped)).
  { unfold provisioning_portal_stop.
    apply (triple_bind _ _ (fun _ s => portal_rest s /\ nw_running s = false /\ nw_httpd s = true));
      [by intros s (? & ? & ? & ? & ?)|]. intros _.
    apply (triple_bind _ _ (fun httpd s => httpd = true /\ portal_rest s /\ nw_running s = false));
      [by intros s (? & ? & ?)|]. intros httpd. apply triple_pure. intros ->. cbn [when].
    apply (triple_bind _ _ (fun _ => stopped)); [|intros _; apply stopped_wait].
    intros s ((Hb & Ht & Hq) & Hr). split; [by repeat split|]. done. }
  intros _. apply (triple_bind _ _ (fun _ => stopped)).
  { apply keeps_perform. intros e. by apply stopped_log. }
  intros _. apply (triple_bind _ _ (fun _ => portal_at false)).
  { intros s (Hrest & E1 & E2). split; [exact Hrest|]. done. }
  intros _. intros s Hs. exists false. by apply portal_emit.
Qed.

Lemma coherent_modify f : (forall s, same_portal s (f s)) -> keeps coherent (modify f).
Proof. intros Hf. apply coherent_keeps. intros p. by apply portal_modify. Qed.

Lemma coherent_log e : (forall err, e <> NE_httpd_start err) -> keeps coherent (net_log e).
Proof. intros He. apply coherent_keeps. intros p. by apply portal_log. Qed.

Lemma coherent_answer {A} (f : list net_effect -> A) : keeps coherent (answer f).
Proof. apply coherent_keeps. intros p. apply portal_answer. Qed.

Lemma coherent_perform f e : (forall err err', e err <> NE_httpd_start err') -> keeps coherent (perform f e).
Proof. intros He. apply coherent_keeps. intros p. by apply portal_perform. Qed.

Lemma coherent_emit : keeps coherent emit_snapshot.
Proof. apply coherent_keeps. intros p. apply portal_emit. Qed.

Lemma coherent_now : keeps coherent (now_ms env).
Proof. apply coherent_answer. Qed.

Lemma coherent_connect : keeps coherent (sta_connect_now env).
Proof. apply coherent_keeps. intros p. apply portal_connect. Qed.

Lemma coherent_schedule : keeps coherent (schedule_reconnect env).
Proof. apply coherent_keeps. intros p. apply portal_schedule. Qed.

Lemma coherent_setup state : keeps coherent (set_setup_state state).
Proof. apply coherent_keeps. intros p. apply portal_setup. Qed.

Lemma coherent_saved : keeps coherent (sta_credentials_saved env).
Proof. apply coherent_keeps. intros p. apply portal_saved. Qed.

#[local] Hint Resolve coherent_answer coherent_emit coherent_now coherent_connect coherent_schedule coherent_setup
  coherent_saved coherent_close : state.

Lemma coherent_post cmd : proper_command cmd -> keeps coherent (post cmd).
Proof.
  intros Hc s Hs. unfold post. destruct (nw_queue s) as [q|] eqn:Eq; [|done].
  destruct (_ <? _)%nat; [|done]. destruct Hs as [p ((Hb & Ht & Hq) & Hp)]. rewrite Eq in Hq. exists p. split; [|exact Hp]. split; [done|].
  split; [done|]. cbn. by apply Forall_app_2; [|constructor].
Qed.

Lemma coherent_sntp : keeps coherent (start_sntp_once env).
Proof.
  unfold start_sntp_once. apply keeps_bind; [apply keeps_gets|]. intros started. apply keeps_when. intros _.
  apply keeps_bind; [apply coherent_answer|]. intros err. apply keeps_when. intros _. by apply coherent_modify.
Qed.

Lemma coherent_disconnected reason : keeps coherent (handle_disconnected env reason).
Proof.
  unfold handle_disconnected, copy_snapshot. apply keeps_bind; [by apply coherent_modify|]. intros _.
  apply keeps_bind; [apply keeps_gets|]. intros before. apply keeps_bind; [by apply coherent_modify|]. intros _.
  apply keeps_bind.
  { apply keeps_when. intros _. apply keeps_bind; [apply coherent_now|]. intros now. by apply coherent_modify. }
  intros _. destruct (bool_decide _).
  - destruct (_ =? _); [apply keeps_ret|]. apply keeps_bind; [by apply coherent_modify|]. intros _.
    apply keeps_bind; [apply keeps_gets|]. intros failures. destruct (_ <=? _).
    + apply keeps_bind; [apply coherent_setup|]. intros _. apply coherent_schedule.
    + apply keeps_bind; [apply coherent_now|]. intros now. apply keeps_bind; [by apply coherent_modify|]. intros _.
      apply coherent_emit.
  - destruct (bool_decide _); [apply keeps_ret|]. keeps_tac.
Qed.

Lemma coherent_got_ip ip : keeps coherent (handle_got_ip env ip).
Proof.
  unfold handle_got_ip, copy_snapshot. apply keeps_bind; [by apply coherent_modify|]. intros _.
  apply keeps_bind; [apply coherent_saved|]. intros saved. apply keeps_bind; [by apply coherent_modify|]. intros _.
  apply keeps_bind; [apply keeps_gets|]. intros after. apply keeps_bind; [apply coherent_sntp|]. intros _.
  destruct (bool_decide _).
  - apply keeps_bind; [apply coherent_now|]. intros now. apply keeps_bind; [by apply coherent_modify|]. intros _.
    apply coherent_setup.
  - destruct (_ || _); [apply coherent_close|apply coherent_emit].
Qed.

Lemma coherent_sta_config attempts ssid password err : keeps coherent (set_sta_config env attempts ssid password err).
Proof.
  revert err. induction attempts as [|attempts IH]; intros err; cbn [set_sta_config]; [apply keeps_ret|].
  apply keeps_bind; [by apply coherent_perform|]. intros err'. destruct (bool_decide _).
  - apply keeps_bind; [apply keeps_when; intros _; by apply coherent_modify|]. intros _. apply keeps_ret.
  - apply keeps_bind; [by apply coherent_log|]. intros _. apply IH.
Qed.

Lemma coherent_submitted ssid password : keeps coherent (handle_setup_submitted env ssid password).
Proof.
  unfold handle_setup_submitted, apply_sta_credentials. apply keeps_bind.
  { apply keeps_bind; [by apply coherent_log|]. intros _. apply coherent_sta_config. }
  intros err. apply keeps_bind; [by apply coherent_modify|]. intros _. destruct (bool_decide _); [apply coherent_setup|].
  apply keeps_bind; [by apply coherent_modify|]. intros _. apply keeps_bind; [by apply coherent_modify|]. intros _.
  apply keeps_bind; [apply coherent_now|]. intros now. apply keeps_bind; [by apply coherent_modify|]. intros _.
  apply keeps_bind; [apply coherent_now|]. intros now'. apply keeps_bind; [by apply coherent_modify|]. intros _.
  apply coherent_emit.
Qed.

Context `{!NvsStringsLaws N}.

Lemma coherent_tick : keeps coherent (handle_tick cfg env).
Proof.
  unfold handle_tick, copy_snapshot. apply keeps_bind; [apply coherent_now|]. intros now.
  apply keeps_bind; [apply keeps_gets|]. intros snap. apply keeps_bind.
  { unfold tick_restart. apply keeps_bind; [apply keeps_gets|]. intros at_. apply keeps_when. intros _. by apply coherent_log. }
  intros _. apply keeps_bind.
  { unfold tick_setup. apply keeps_bind; [apply keeps_gets|]. intros deadline. apply keeps_when. intros _.
    apply keeps_bind; [apply coherent_setup|]. intros _. apply keeps_bind; [by apply coherent_log|]. intros _.
    apply coherent_schedule. }
  intros _. apply keeps_bind; [unfold tick_connect; keeps_tac|]. intros _. apply keeps_bind.
  { unfold tick_fallback. apply keeps_bind; [apply keeps_gets|]. intros since. apply keeps_when. intros _.
    apply keeps_bind; [by apply coherent_open|]. intros err. apply keeps_when. intros _. by apply coherent_modify. }
  intros _. unfold tick_manual. apply keeps_bind; [apply keeps_gets|]. intros opened. apply keeps_when. intros _.
  apply keeps_bind; [apply coherent_close|]. intros _. apply keeps_when. intros _. by apply coherent_modify.
Qed.

Lemma coherent_turn : keeps coherent (network_turn cfg env).
Proof.
  unfold network_turn. apply (triple_bind _ _ (fun cmd s => proper_command cmd /\ coherent s)).
  { intros s Hs. destruct (nw_queue s) as [[|cmd q]|] eqn:Eq; [done| |done].
    destruct Hs as [p ((Hb & Ht & Hq) & Hp)]. rewrite Eq in Hq. apply Forall_cons in Hq as [Hc Hq].
    split; [done|]. by exists p. }
  intros cmd. apply triple_pure. intros Hc. apply keeps_bind; [|intros _; apply coherent_tick].
  destruct cmd as [|reason|ip|reason|ssid password|]; cbn [network_command].
  - unfold copy_snapshot. keeps_tac.
  - apply coherent_disconnected.
  - apply coherent_got_ip.
  - apply keeps_bind; [by apply coherent_open|]. intros. apply keeps_ret.
  - apply coherent_submitted.
  - apply keeps_ret.
Qed.

Lemma coherent_step step : keeps coherent (net_step_run cfg env step).
Proof.
  destruct step as [|event| |ssid password]; cbn [net_step_run]; [apply coherent_turn| | |].
  - destruct event; cbn [event_handler]; try apply keeps_ret;
      (apply keeps_bind; [by apply coherent_post|]; intros; apply keeps_ret).
  - apply keeps_bind; [|intros; apply keeps_ret]. unfold network_service_open_portal.
    apply keeps_bind; [apply keeps_gets|]. intros []; cbn [negb]; [|apply keeps_ret].
    apply keeps_bind; [by apply coherent_post|]. intros. apply keeps_ret.
  - apply keeps_bind; [|intros; apply keeps_ret]. unfold network_service_submit_credentials.
    destruct ssid as [ssid|], password as [password|]; try apply keeps_ret.
    apply keeps_bind; [apply keeps_gets|]. intros []; cbn [negb]; [|apply keeps_ret].
    destruct (_ || _); [apply keeps_ret|]. apply keeps_bind; [by apply coherent_post|]. intros. apply keeps_ret.
Qed.

(** C18. The setup portal is announced exactly while its server runs: then there
    is a reason for it and a password of 8 to 16 characters for its access
    point, and otherwise none of them, and no server; and its server is never
    started before the API server on the same port was stopped.  This holds
    after every sequence of events of the driver, requests and turns of the
    network task, whatever fails. *)
Theorem portal_announced_while_open steps s : portal_coherent s -> portal_coherent (net_run cfg env steps s).1.
Proof.
  assert (forall s, portal_coherent s <-> coherent s) as Hc.
  { intros s'. unfold portal_coherent, coherent, portal_at. split; [intros (H1 & H2)|intros [p (H1 & <- & H3)]; done].
    by exists (ns_provisioning (nw_snapshot s')). }
  rewrite !Hc. enough (keeps coherent (net_run cfg env steps)) as Hk by apply Hk.
  induction steps as [|step steps IH]; cbn [net_run]; [apply keeps_ret|]. apply keeps_bind; [apply coherent_step|done].
Qed.

End Facts.

(** The portal is opened by the button and closed by its timeout. *)
Lemma portal_announced_while_open_witness :
  let steps := [W_open_portal; W_turn] in
  portal_coherent (net_run sample_net_config good_env steps trying_net).1 /\
  ns_portal_passphrase (nw_snapshot (net_run sample_net_config good_env steps trying_net).1) = str "EFGHJKLMNPQR" /\
  ns_provisioning (nw_snapshot (net_run sample_net_config good_env (steps ++ replicate 2100 W_turn) trying_net).1) = false.
Proof.
  split; [|split; vm_compute; reflexivity].
  refine (portal_announced_while_open sample_net_config good_env (fun _ => eq_refl) [W_open_portal; W_turn] trying_net _).
  vm_compute. split; [|done]. split; [done|]. split; [|constructor]. by repeat split.
Defined.
