(* ===== verification/NetworkReconnect.v ===== *)
(** * Wi-Fi: an offline gateway keeps trying *)

From Stdlib Require Import Ascii String.
From Stdlib Require Import ZifyBool ZifyNat.
From stdpp Require Import base numbers list strings.
From S2P Require Import Prelude.
From S2P Require Import StateMonad.
From S2P Require Import Nvs.
From S2P Require Import NetworkService.
From S2P Require Import NetworkFacts.

Open Scope Z_scope.

Section Reconnect.

Context {N : Type} `{NvsStrings N}.

Variable cfg : network_config.
Variable env : network_environment.

Abbreviation net := (network N).
Implicit Types P : net -> Prop.

(** ** What the reconnecting depends on *)

Definition view (s : net) :=
  (ns_connected (nw_snapshot s), ns_provisioned (nw_snapshot s), ns_setup_state (nw_snapshot s),
   nw_reconnect_delay_ms s, nw_next_connect_ms s, nw_setup_deadline_ms s, nw_sta_connecting s, nw_trace s).

(** A predicate on the view that survives whatever is logged. *)
Record framed P : Prop := {
  framed_log : forall e, keeps P (net_log e);
  framed_modify : forall f, (forall s, view (f s) = view s) -> keeps P (modify f);
}.

Section Framed.

Context P (Hf : framed P).

Lemma framed_answer {A} (f : list net_effect -> A) : keeps P (answer f).
Proof. apply keeps_answer. by apply framed_log. Qed.

Lemma framed_perform f e : keeps P (perform f e).
Proof. apply keeps_perform. intros. by apply framed_log. Qed.

Lemma framed_nvs {A} (f : N -> N * A) : keeps P (nvs_step f).
Proof. apply keeps_nvs. intros. by apply framed_modify. Qed.

Lemma framed_emit : keeps P emit_snapshot.
Proof.
  unfold emit_snapshot, copy_snapshot. apply keeps_bind; [apply keeps_gets|]. intros []; [|apply keeps_ret].
  apply keeps_bind; [apply keeps_gets|]. intros snap. by apply framed_log.
Qed.

#[local] Hint Resolve framed_answer framed_perform framed_nvs framed_emit framed_log : state.

Lemma framed_load : keeps P (load_portal_password env).
Proof. unfold load_portal_password, new_portal_password. keeps_tac. Qed.

Lemma framed_start : keeps P (provisioning_portal_start env).
Proof.
  unfold provisioning_portal_start. apply keeps_bind; [apply keeps_gets|]. intros []; [apply keeps_ret|].
  apply keeps_bind; [apply framed_perform|]. intros err. destruct (bool_decide _); [apply keeps_ret|].
  apply keeps_bind; [by apply framed_modify|]. intros _. apply keeps_bind.
  { generalize (seq 0 PORTAL_ROUTES). intros routes. induction routes as [|i routes IH]; cbn [register_routes]; [apply keeps_ret|].
    apply keeps_bind; [apply framed_answer|]. intros err'. destruct (bool_decide _); [|done].
    apply keeps_bind; [by apply framed_log|]. intros _. apply keeps_bind; [by apply framed_modify|]. intros _. apply keeps_ret. }
  intros []; cbn [negb]; [|apply keeps_ret]. apply keeps_bind; [apply framed_answer|]. intros created.
  apply keeps_bind; [by apply framed_modify|]. intros _. apply keeps_ret.
Qed.

Lemma framed_stop : keeps P (provisioning_portal_stop env).
Proof.
  unfold provisioning_portal_stop. apply keeps_bind; [by apply framed_modify|]. intros _.
  apply keeps_bind; [apply keeps_gets|]. intros httpd. apply keeps_bind.
  { apply keeps_when. intros _. apply keeps_bind; [by apply framed_log|]. intros _. by apply framed_modify. }
  intros _. generalize (Z.to_nat (DNS_TASK_EXIT_WAIT_MS / 100)). intros rounds.
  induction rounds as [|rounds IH]; cbn [dns_wait]; [apply keeps_ret|].
  apply keeps_bind; [apply framed_answer|]. intros ended.
  apply keeps_bind; [apply keeps_when; intros _; by apply framed_modify|]. intros _.
  apply keeps_bind; [apply keeps_gets|]. intros waiting. apply keeps_when. intros _.
  apply keeps_bind; [by apply framed_log|done].
Qed.

Lemma framed_open reason : keeps P (open_portal env reason).
Proof.
  unfold open_portal. apply keeps_bind; [apply keeps_gets|]. intros [].
  - apply keeps_bind; [apply keeps_when; intros _; by apply framed_modify|]. intros _.
    apply keeps_bind; [apply framed_answer|]. intros now. apply keeps_bind; [by apply framed_modify|]. intros _.
    apply keeps_bind; [apply framed_emit|]. intros _. apply keeps_ret.
  - apply keeps_bind; [apply keeps_gets|]. intros before. apply keeps_bind; [keeps_tac|]. intros _.
    apply keeps_bind; [apply keeps_gets|]. intros netif. apply keeps_bind; [keeps_tac|]. intros created.
    apply keeps_bind; [by apply framed_modify|]. intros _. destruct (negb created); [apply keeps_ret|].
    apply keeps_bind; [apply framed_load|]. intros [err|passphrase]; [apply keeps_ret|].
    apply keeps_bind.
    { unfold start_access_point. apply keeps_bind; [apply keeps_gets|]. intros ssid.
      apply keeps_bind; [apply framed_perform|]. intros err. apply keeps_bind; [keeps_tac|]. intros err'.
      destruct (bool_decide _); [apply framed_start|apply keeps_ret]. }
    intros err. destruct (bool_decide _); [keeps_tac|].
    apply keeps_bind; [by apply framed_modify|]. intros _. apply keeps_bind; [apply framed_answer|]. intros now.
    apply keeps_bind; [by apply framed_modify|]. intros _. apply keeps_bind; [apply framed_emit|]. intros _. apply keeps_ret.
Qed.

Lemma framed_close : keeps P (close_portal env).
Proof.
  unfold close_portal. apply keeps_bind; [apply keeps_gets|]. intros []; cbn [negb]; [|apply keeps_ret].
  apply keeps_bind; [apply framed_stop|]. intros _. apply keeps_bind; [apply framed_perform|]. intros _.
  apply keeps_bind; [by apply framed_modify|]. intros _. apply framed_emit.
Qed.

Lemma framed_saved : keeps P (sta_credentials_saved env).
Proof. unfold sta_credentials_saved. keeps_tac. Qed.

Lemma framed_sntp : keeps P (start_sntp_once env).
Proof.
  unfold start_sntp_once. apply keeps_bind; [apply keeps_gets|]. intros started. apply keeps_when. intros _.
  apply keeps_bind; [apply framed_answer|]. intros err. apply keeps_when. intros _. by apply framed_modify.
Qed.

Lemma framed_fallback now snap : keeps P (tick_fallback cfg env now snap).
Proof.
  unfold tick_fallback. apply keeps_bind; [apply keeps_gets|]. intros since. apply keeps_when. intros _.
  apply keeps_bind; [apply framed_open|]. intros err. apply keeps_when. intros _. by apply framed_modify.
Qed.

Lemma framed_manual now snap : keeps P (tick_manual cfg env now snap).
Proof.
  unfold tick_manual. apply keeps_bind; [apply keeps_gets|]. intros opened. apply keeps_when. intros _.
  apply keeps_bind; [apply framed_close|]. intros _. apply keeps_when. intros _. by apply framed_modify.
Qed.

Lemma framed_restart now : keeps P (tick_restart now).
Proof.
  unfold tick_restart. apply keeps_bind; [apply keeps_gets|]. intros at_. apply keeps_when. intros _. by apply framed_log.
Qed.

End Framed.

(** ** The invariant *)

(** Time passes, the driver takes every connection request and every
    configuration. *)
Hypothesis clock : forall e tr, 0 < nenv_now env tr <= nenv_now env (e :: tr).
Hypothesis connects_accepted : forall tr, nenv_connect env tr = ESP_OK.
Hypothesis config_accepted : forall tr, nenv_set_sta_config env tr = ESP_OK.

Definition delays_ok (s : net) : Prop :=
  1000 <= nw_reconnect_delay_ms s <= 30000 /\
  (nw_next_connect_ms s = 0 \/ 0 < nw_next_connect_ms s <= nenv_now env (nw_trace s) + 30000).

Definition deadline_ok (s : net) : Prop :=
  ns_setup_state (nw_snapshot s) = NETWORK_SETUP_CONNECTING ->
  nw_setup_deadline_ms s <= nenv_now env (nw_trace s) + 30000.

Definition trying (s : net) : Prop :=
  ns_provisioned (nw_snapshot s) = true -> ns_connected (nw_snapshot s) = false ->
  ns_setup_state (nw_snapshot s) = NETWORK_SETUP_IDLE \/ ns_setup_state (nw_snapshot s) = NETWORK_SETUP_FAILED ->
  nw_next_connect_ms s <> 0 \/ nw_sta_connecting s = true.

Definition bounded (s : net) : Prop := delays_ok s /\ deadline_ok s.
Definition persistent (s : net) : Prop := bounded s /\ trying s.

(** With fixed values of what the handlers look at. *)
Definition bounded_at (provisioned connected : bool) (setup : network_setup_state_t) (s : net) : Prop :=
  bounded s /\ ns_provisioned (nw_snapshot s) = provisioned /\ ns_connected (nw_snapshot s) = connected /\
  ns_setup_state (nw_snapshot s) = setup.

Definition scheduled (s : net) : Prop := bounded s /\ nw_next_connect_ms s <> 0.

Lemma clock_log e (s : net) : nenv_now env (nw_trace s) <= nenv_now env (e :: nw_trace s).
Proof. apply clock. Qed.

Lemma bounded_log e (s : net) : bounded s -> bounded (s <| nw_trace := e :: nw_trace s |>).
Proof.
  intros [[Hd Hn] Hl]. pose proof (clock_log e s). split; [split; [done|]|].
  - cbn. destruct Hn as [->|Hn]; [by left|right; lia].
  - intros Hs. specialize (Hl Hs). cbn. lia.
Qed.

Lemma bounded_view (s s' : net) : view s' = view s -> bounded s -> bounded s'.
Proof. unfold view, bounded, delays_ok, deadline_ok. intros [= _ _ -> -> -> -> _ ->]. done. Qed.

Lemma trying_view (s s' : net) : view s' = view s -> trying s -> trying s'.
Proof. unfold view, trying. intros [= -> -> -> _ -> _ -> _]. done. Qed.

Lemma framed_bounded : framed bounded.
Proof. split; [intros e s; apply bounded_log|]. intros f Hf s. exact (bounded_view s (f s) (Hf s)). Qed.

Lemma framed_persistent : framed persistent.
Proof.
  split; [intros e s [Hb Ht]; split; [by apply bounded_log|exact Ht]|].
  intros f Hf s [Hb Ht]. split; [exact (bounded_view s (f s) (Hf s) Hb)|exact (trying_view s (f s) (Hf s) Ht)].
Qed.

Lemma framed_scheduled : framed scheduled.
Proof.
  split; [intros e s [Hb Ht]; split; [by apply bounded_log|exact Ht]|].
  intros f Hf s [Hb Ht]. split; [exact (bounded_view s (f s) (Hf s) Hb)|]. specialize (Hf s). unfold view in Hf. injection Hf. intros. cbn. congruence.
Qed.

Lemma framed_at p c st : framed (bounded_at p c st).
Proof.
  split; [intros e s [Hb Ht]; split; [by apply bounded_log|exact Ht]|].
  intros f Hf s (Hb & E1 & E2 & E3). split; [exact (bounded_view s (f s) (Hf s) Hb)|]. specialize (Hf s). unfold view in Hf. injection Hf.
  intros. cbn. split_and!; congruence.
Qed.

Lemma scheduled_persistent s : scheduled s -> persistent s.
Proof. intros [Hb Hn]. split; [done|]. by left. Qed.

(** Nothing to wait for in these states. *)
Lemma at_persistent p c st s :
  p = false \/ c = true \/ st = NETWORK_SETUP_CONNECTING \/ st = NETWORK_SETUP_CONNECTED ->
  bounded_at p c st s -> persistent s.
Proof.
  intros Hc (Hb & E1 & E2 & E3). split; [done|]. unfold trying. rewrite E1, E2, E3. intros -> -> Hst. by destruct Hc as [?|[?|[->| ->]]], Hst.
Qed.

Lemma connect_persistent : triple bounded (sta_connect_now env) (fun _ => persistent).
Proof.
  unfold sta_connect_now, perform.
  intros s [[Hd Hn] Hl]. unfold net_log, gets, modify, mbind, state_bind. cbn. rewrite connects_accepted. cbn.
  assert (bounded (s <| nw_next_connect_ms := 0 |> <| nw_sta_connecting := true |>)) as Hb.
  { split; [split; [done|by left]|]. exact Hl. }
  pose proof (bounded_log (NE_connect ESP_OK) _ Hb) as Hb'. split; [exact Hb'|]. intros _ _ _. by right.
Qed.

Lemma schedule_scheduled : triple bounded (schedule_reconnect env) (fun _ => scheduled).
Proof.
  unfold schedule_reconnect. apply (triple_bind _ _ (fun _ => bounded)); [apply keeps_gets|]. intros portal.
  apply (triple_bind _ _ (fun _ => bounded)); [by apply framed_bounded|]. intros _.
  apply (triple_bind _ _ (fun delay s => (1000 <= delay <= 30000) /\ bounded s)).
  { intros s Hs. split; [|done]. destruct Hs as [[Hd _] _]. exact Hd. }
  intros delay. apply triple_pure. intros Hdelay. unfold now_ms, answer.
  set (d := if portal && (delay <? RECONNECT_WITH_PORTAL_MS) then RECONNECT_WITH_PORTAL_MS else delay).
  assert (1000 <= d <= 30000) as Hd by (unfold d, RECONNECT_WITH_PORTAL_MS; destruct (portal && _); lia). clearbody d.
  apply (triple_bind _ _ (fun now s => now = nenv_now env (nw_trace s) /\ bounded s)).
  { intros s Hs. split; [done|]. by apply (bounded_log NE_asked). }
  intros now. apply (triple_bind _ _ (fun _ => scheduled)).
  { intros s [-> [[Hdl _] Hl]]. pose proof (clock NE_asked (nw_trace s)). unfold scheduled, bounded, delays_ok, modify. cbn.
    split; [|lia]. split; [split; [done|right; lia]|exact Hl]. }
  intros _ s [[[Hdl Hn] Hl] Hne]. unfold modify, RECONNECT_MAX_MS. cbn [fst snd].
  destruct (Z.ltb_spec (nw_reconnect_delay_ms s) 30000); [|done]. split; [|done]. split; [|exact Hl]. split; [|exact Hn].
  cbn. unfold u32. rewrite Z.mod_small by lia. destruct (Z.ltb_spec 30000 (nw_reconnect_delay_ms s * 2)); lia.
Qed.

(** ** The commands *)

(** What the handlers read is known. *)
Lemma bounded_split s : bounded s ->
  bounded_at (ns_provisioned (nw_snapshot s)) (ns_connected (nw_snapshot s)) (ns_setup_state (nw_snapshot s)) s.
Proof. by split. Qed.

Lemma persistent_schedule : triple bounded (schedule_reconnect env) (fun _ => persistent).
Proof. eapply triple_weaken; [apply schedule_scheduled|done|]. intros [] s Hs. by apply scheduled_persistent. Qed.

Lemma bounded_setup st : st <> NETWORK_SETUP_CONNECTING -> keeps bounded (set_setup_state st).
Proof.
  intros Hst. unfold set_setup_state. apply keeps_bind; [|intros _; apply framed_emit, framed_bounded].
  intros s [[Hd Hn] Hl]. split; [by split|]. intros Hs. cbn in Hs. congruence.
Qed.

Lemma disconnected_persistent reason : triple persistent (handle_disconnected env reason) (fun _ => persistent).
Proof.
  unfold handle_disconnected, copy_snapshot.
  apply (triple_bind _ _ (fun _ => bounded)); [by intros s [[[Hd Hn] Hl] _]|]. intros _.
  apply (triple_bind _ _ (fun before s => bounded_at (ns_provisioned before) (ns_connected before) (ns_setup_state before) s)).
  { intros s Hs. by apply bounded_split. }
  intros before. set (P := bounded_at (ns_provisioned before) false (ns_setup_state before)).
  apply (triple_bind _ _ (fun _ => P)); [by intros s (Hb & E1 & E2 & E3)|]. intros _.
  apply (triple_bind _ _ (fun _ => P)).
  { apply keeps_when. intros _. apply keeps_bind; [apply framed_answer, framed_at|]. intros now.
    intros s (([Hd Hn] & Hl) & E). split; [|exact E]. split; [|exact Hl]. by split. }
  intros _. destruct (bool_decide (ns_setup_state before = NETWORK_SETUP_CONNECTING)) eqn:E.
  - apply bool_decide_eq_true in E. destruct (_ =? _).
    { apply triple_ret. intros s Hs. eapply at_persistent; [|exact Hs]. rewrite E. auto. }
    apply (triple_bind _ _ (fun _ => P)); [by apply framed_at|]. intros _.
    apply (triple_bind _ _ (fun _ => P)); [apply keeps_gets|]. intros failures. destruct (_ <=? _).
    + apply (triple_bind _ _ (fun _ => bounded)); [|intros _; apply persistent_schedule].
      eapply triple_pre; [by apply bounded_setup|]. by intros s (Hb & _).
    + apply (triple_bind _ _ (fun now s => now = nenv_now env (nw_trace s) /\ P s)).
      { intros s Hs. split; [done|]. exact (framed_log _ (framed_at _ _ _) NE_asked s Hs). }
      intros now. apply (triple_bind _ _ (fun _ => P)).
      { intros s [-> (([Hd Hn] & Hl) & E')]. pose proof (clock NE_asked (nw_trace s)).
        split; [|exact E']. split; [|exact Hl]. split; [done|]. right. cbn. lia. }
      intros [] s Hs. eapply at_persistent; [|exact (framed_emit _ (framed_at _ _ _) s Hs)]. rewrite E. auto.
  - destruct (bool_decide (ns_setup_state before = NETWORK_SETUP_CONNECTED)) eqn:E'.
    { apply bool_decide_eq_true in E'. apply triple_ret. intros s Hs. eapply at_persistent; [|exact Hs]. rewrite E'. auto. }
    apply (triple_bind _ _ (fun _ => persistent)); [|intros _; apply framed_emit, framed_persistent].
    destruct (ns_provisioned before) eqn:Ep; cbn [when].
    + eapply triple_pre; [apply persistent_schedule|]. by intros s (Hb & _).
    + apply triple_ret. intros s Hs. eapply at_persistent; [|exact Hs]. auto.
Qed.

Lemma got_ip_persistent ip : triple persistent (handle_got_ip env ip) (fun _ => persistent).
Proof.
  set (P := fun s : net => bounded s /\ ns_connected (nw_snapshot s) = true).
  assert (framed P) as HP.
  { split; [intros e s [Hb Hc]; split; [by apply bounded_log|exact Hc]|].
    intros f Hf s [Hb Hc]. split; [exact (bounded_view s (f s) (Hf s) Hb)|]. specialize (Hf s). unfold view in Hf.
    injection Hf. intros. cbn. congruence. }
  assert (forall s, P s -> persistent s) as Hpers.
  { intros s [Hb Hc]. split; [done|]. unfold trying. by rewrite Hc. }
  unfold handle_got_ip, copy_snapshot.
  apply (triple_bind _ _ (fun _ => bounded)).
  { intros s [[[Hd Hn] Hl] _]. split; [split; [cbn; unfold RECONNECT_MIN_MS; lia|by left]|exact Hl]. }
  intros _. apply (triple_bind _ _ (fun _ => bounded)); [apply framed_saved, framed_bounded|]. intros saved.
  apply (triple_bind _ _ (fun _ => P)).
  { intros s [[Hd Hn] Hl]. split; [|done]. split; [done|]. intros Hs. apply Hl. cbn in Hs. by case_bool_decide. }
  intros _. apply (triple_bind _ _ (fun _ => P)); [apply keeps_gets|]. intros after.
  apply (triple_bind _ _ (fun _ => P)); [apply framed_sntp, HP|]. intros _.
  destruct (bool_decide _).
  - apply (triple_bind _ _ (fun _ => P)); [apply framed_answer, HP|]. intros now.
    apply (triple_bind _ _ (fun _ => P)); [by apply HP|]. intros _.
    unfold set_setup_state. apply (triple_bind _ _ (fun _ => P)); [by intros s ([[Hd Hn] Hl] & Hc)|].
    intros [] s Hs. apply Hpers. exact (framed_emit _ HP s Hs).
  - destruct (_ || _); intros s Hs; apply Hpers; [exact (framed_close _ HP s Hs)|exact (framed_emit _ HP s Hs)].
Qed.

Lemma sta_config_accepted ssid password err :
  triple bounded (set_sta_config env 5 ssid password err) (fun r s => r = ESP_OK /\ bounded s).
Proof.
  cbn [set_sta_config].
  apply (triple_bind _ _ (fun r s => r = ESP_OK /\ bounded s)).
  { intros s Hs. unfold perform, gets, net_log, modify, mbind, state_bind. cbn. rewrite config_accepted. split; [done|]. by apply bounded_log. }
  intros r. apply triple_pure. intros ->. rewrite bool_decide_eq_true_2 by done.
  apply (triple_bind _ _ (fun _ => bounded)); [apply keeps_when; intros _; by apply framed_bounded|]. intros _.
  by apply triple_ret.
Qed.

Lemma submitted_persistent ssid password : triple persistent (handle_setup_submitted env ssid password) (fun _ => persistent).
Proof.
  unfold handle_setup_submitted, apply_sta_credentials.
  apply (triple_bind _ _ (fun r s => r = ESP_OK /\ bounded s)).
  { apply (triple_bind _ _ (fun _ => bounded)); [intros s [Hb _]; by apply bounded_log|]. intros _. apply sta_config_accepted. }
  intros err. apply triple_pure. intros ->.
  apply (triple_bind _ _ (fun _ => bounded)); [by intros s [[Hd Hn] Hl]|]. intros _.
  rewrite bool_decide_eq_false_2 by tauto.
  set (P := fun s : net => delays_ok s /\ ns_setup_state (nw_snapshot s) = NETWORK_SETUP_CONNECTING).
  apply (triple_bind _ _ (fun _ => P)); [by intros s [[Hd Hn] Hl]|]. intros _.
  apply (triple_bind _ _ (fun _ => P)); [by intros s [[Hd Hn] Hl]|]. intros _.
  apply (triple_bind _ _ (fun now s => now = nenv_now env (nw_trace s) /\ P s)).
  { intros s [[Hd Hn] Hs]. split; [done|]. change (P (s <| nw_trace := NE_asked :: nw_trace s |>)).
    split; [|exact Hs]. split; [exact Hd|].
    pose proof (clock NE_asked (nw_trace s)). cbn. destruct Hn as [->|Hn]; [by left|right; lia]. }
  intros now. apply (triple_bind _ _ (fun _ s => bounded s /\ ns_setup_state (nw_snapshot s) = NETWORK_SETUP_CONNECTING)).
  { intros s [-> [[Hd Hn] Hs]]. split; [|exact Hs]. split; [split; [cbn; unfold RECONNECT_MIN_MS; lia|exact Hn]|].
    intros _. cbn. unfold SETUP_CONNECT_TIMEOUT_MS. lia. }
  intros _. apply (triple_bind _ _ (fun now s => now = nenv_now env (nw_trace s) /\ bounded s /\
    ns_setup_state (nw_snapshot s) = NETWORK_SETUP_CONNECTING)).
  { intros s [Hb Hs]. split; [done|]. split; [by apply (bounded_log NE_asked)|exact Hs]. }
  intros now'. apply (triple_bind _ _ (fun _ => persistent)); [|intros _; apply framed_emit, framed_persistent].
  intros s [-> [[[Hd Hn] Hl] Hs]]. pose proof (clock NE_asked (nw_trace s)). split; [split; [split; [exact Hd|]|exact Hl]|].
  - right. cbn. lia.
  - intros _ _ [E|E]; cbn in E; congruence.
Qed.

Lemma tick_persistent : triple persistent (handle_tick cfg env) (fun _ => persistent).
Proof.
  unfold handle_tick, copy_snapshot. apply (triple_bind _ _ (fun _ => persistent)); [apply framed_answer, framed_persistent|].
  intros now. apply (triple_bind _ _ (fun _ => persistent)); [apply keeps_gets|]. intros snap.
  apply (triple_bind _ _ (fun _ => persistent)); [apply framed_restart, framed_persistent|]. intros _.
  apply (triple_bind _ _ (fun _ => persistent)).
  { unfold tick_setup. apply (triple_bind _ _ (fun _ => persistent)); [apply keeps_gets|]. intros deadline.
    destruct (_ && _); cbn [when]; [|by apply triple_ret].
    apply (triple_bind _ _ (fun _ => bounded)).
    { eapply triple_pre; [by apply bounded_setup|]. by intros s [Hb _]. }
    intros _. apply (triple_bind _ _ (fun _ => bounded)); [intros s Hs; by apply bounded_log|]. intros _.
    apply persistent_schedule. }
  intros _. apply (triple_bind _ _ (fun _ => persistent)).
  { unfold tick_connect. apply (triple_bind _ _ (fun _ => persistent)); [apply keeps_gets|]. intros next.
    destruct (_ && _); cbn [when]; [|by apply triple_ret]. eapply triple_pre; [apply connect_persistent|]. by intros s [Hb _]. }
  intros _. apply (triple_bind _ _ (fun _ => persistent)); [apply framed_fallback, framed_persistent|]. intros _.
  apply framed_manual, framed_persistent.
Qed.

Lemma command_persistent cmd : triple persistent (network_command env cmd) (fun _ => persistent).
Proof.
  destruct cmd as [|reason|ip|reason|ssid password|]; cbn [network_command].
  - apply (triple_bind _ _ (fun _ => persistent)); [apply keeps_gets|]. intros snap.
    destruct (_ && _); cbn [when]; [|by apply triple_ret]. eapply triple_pre; [apply connect_persistent|]. by intros s [Hb _].
  - apply disconnected_persistent.
  - apply got_ip_persistent.
  - apply (triple_bind _ _ (fun _ => persistent)); [apply framed_open, framed_persistent|]. intros _. by apply triple_ret.
  - apply submitted_persistent.
  - by apply triple_ret.
Qed.

Lemma turn_persistent : triple persistent (network_turn cfg env) (fun _ => persistent).
Proof.
  unfold network_turn. apply (triple_bind _ _ (fun _ => persistent)).
  { intros s Hs. by destruct (nw_queue s) as [[|cmd q]|]. }
  intros cmd. apply (triple_bind _ _ (fun _ => persistent)); [apply command_persistent|]. intros _. apply tick_persistent.
Qed.

Lemma post_persistent cmd : triple persistent (post cmd) (fun _ => persistent).
Proof. intros s Hs. unfold post. destruct (nw_queue s) as [q|]; [|done]. by destruct (_ <? _)%nat. Qed.

Lemma step_persistent step : triple persistent (net_step_run cfg env step) (fun _ => persistent).
Proof.
  destruct step as [|event| |ssid password]; cbn [net_step_run]; [apply turn_persistent| | |].
  - destruct event; cbn [event_handler]; try (apply triple_ret; done);
      (apply keeps_bind; [apply post_persistent|]; intros; apply keeps_ret).
  - apply keeps_bind; [|intros; apply keeps_ret]. unfold network_service_open_portal.
    apply keeps_bind; [apply keeps_gets|]. intros []; cbn [negb]; [|apply keeps_ret].
    apply keeps_bind; [apply post_persistent|]. intros. apply keeps_ret.
  - apply keeps_bind; [|intros; apply keeps_ret]. unfold network_service_submit_credentials.
    destruct ssid as [ssid|], password as [password|]; try apply keeps_ret.
    apply keeps_bind; [apply keeps_gets|]. intros []; cbn [negb]; [|apply keeps_ret].
    destruct (_ || _); [apply keeps_ret|]. apply keeps_bind; [apply post_persistent|]. intros. apply keeps_ret.
Qed.

(** The requests to the driver to connect. *)
Fixpoint connects (tr : list net_effect) : nat :=
  match tr with [] => 0 | NE_connect _ :: tr => S (connects tr) | _ :: tr => connects tr end.

Lemma framed_connects k : framed (fun s : net => (k <= connects (nw_trace s))%nat).
Proof.
  split.
  - intros e s Hs. cbn. destruct e; lia.
  - intros f Hf s Hs. specialize (Hf s). unfold view in Hf. injection Hf. intros. cbn. congruence.
Qed.

(** A turn without a command at the time of the next attempt makes it. *)
Lemma due_connects s :
  ns_provisioned (nw_snapshot s) = true -> ns_connected (nw_snapshot s) = false ->
  ns_setup_state (nw_snapshot s) <> NETWORK_SETUP_CONNECTING -> nw_queue s = Some [] -> nw_next_connect_ms s <> 0 ->
  nw_next_connect_ms s <= nenv_now env (NE_asked :: nw_trace s) ->
  (connects (nw_trace s) < connects (nw_trace (network_turn cfg env s).1))%nat.
Proof.
  intros Hp Hc Hst Hq Hne Hdue. unfold network_turn, mbind at 1, state_bind at 1. rewrite Hq.
  change ((network_command env NET_CMD_TICK;; handle_tick cfg env) s) with (handle_tick cfg env s).
  unfold handle_tick, now_ms, answer, copy_snapshot, net_log. cbn -[tick_restart tick_setup tick_connect tick_fallback tick_manual Nat.lt].
  set (now := nenv_now env (NE_asked :: nw_trace s)) in *. set (snap := nw_snapshot s) in *.
  set (k := S (connects (nw_trace s))).
  set (s1 := s <| nw_trace := NE_asked :: nw_trace s |>).
  set (P := fun s' : net => nw_next_connect_ms s' = nw_next_connect_ms s /\ (connects (nw_trace s) <= connects (nw_trace s'))%nat).
  assert (P s1) as HP1 by (by split).
  enough (triple P (tick_restart now;; tick_setup env now snap;; tick_connect env now snap;; tick_fallback cfg env now snap;;
     tick_manual cfg env now snap) (fun _ s' => (k <= connects (nw_trace s'))%nat)) as Ht by exact (Ht s1 HP1).
  assert (framed P) as HP.
  { split.
    - intros e s' [H1 H2]. split; [exact H1|]. cbn. destruct e; lia.
    - intros f Hf s' [H1 H2]. specialize (Hf s'). unfold view in Hf. injection Hf. intros. unfold P. cbn. split; congruence. }
  apply (triple_bind _ _ (fun _ => P)); [apply framed_restart, HP|]. intros _.
  apply (triple_bind _ _ (fun _ => P)).
  { unfold tick_setup. apply (triple_bind _ _ (fun _ => P)); [apply keeps_gets|]. intros deadline.
    rewrite bool_decide_eq_false_2 by done. by apply triple_ret. }
  intros _. apply (triple_bind _ _ (fun _ s' => (k <= connects (nw_trace s'))%nat)).
  { unfold tick_connect. apply (triple_bind _ _ (fun next s' => next = nw_next_connect_ms s /\ P s')); [by intros s' [? ?]|].
    intros next. apply triple_pure. intros ->. rewrite Hp, Hc, (proj2 (Z.eqb_neq _ _) Hne), (proj2 (Z.leb_le _ _) Hdue). cbn [negb andb when].
    unfold sta_connect_now, perform. intros s' [_ H2]. unfold gets, net_log, modify, mbind, state_bind, k. cbn.
    destruct (bool_decide _); cbn; lia. }
  intros _. apply (triple_bind _ _ (fun _ s' => (k <= connects (nw_trace s'))%nat)); [apply framed_fallback, framed_connects|].
  intros _. apply framed_manual, framed_connects.
Qed.


End Reconnect.


(** ** What the hypotheses are for, and what the handlers mistake *)

(** A request that the driver refuses is not made again, at least for 100
    turns. *)
Example refused_request_ends :
  let env := sample_net_env ESP_FAIL ESP_OK in
  let s := (net_run sample_net_config env (W_event WIFI_EVENT_STA_START :: replicate 100 W_turn) (booted_net env home)).1 in
  (connects (nw_trace s), nw_next_connect_ms s, nw_sta_connecting s) = (1%nat, 0, false).
Proof. vm_compute. reflexivity. Qed.

(** A first setup whose portal cannot be opened is not tried again. *)
Example first_setup_not_retried :
  let env := sample_net_env ESP_OK ESP_FAIL in
  let s := (net_run sample_net_config env (replicate 100 W_turn) (booted_net env ([], []))).1 in
  (ns_provisioning (nw_snapshot s), length (List.filter (fun e => if e is NE_httpd_start _ then true else false) (nw_trace s))) = (false, 1%nat).
Proof. vm_compute. reflexivity. Qed.

(** An address that the previous network gave while new credentials wait in
    the queue counts as their success: no attempt was made with them. *)
Example old_address_counts :
  let s := (net_run sample_net_config good_env
    [W_submit (Some (str "other")) (Some (str "wrongpassword")); W_event (IP_EVENT_STA_GOT_IP (Some (10, 0, 0, 7))); W_turn; W_turn]
    trying_net).1 in
  (ns_setup_state (nw_snapshot s), ns_sta_ssid (nw_snapshot s), connects (nw_trace s), connects (nw_trace trying_net)) =
  (NETWORK_SETUP_CONNECTED, str "other", 1%nat, 1%nat).
Proof. vm_compute. reflexivity. Qed.
