(* ===== verification/GatewaySecurityFacts.v ===== *)
(** * The API token: who is let in *)

From Stdlib Require Import Ascii String.
From Stdlib Require Import ZifyBool ZifyNat.
From stdpp Require Import base numbers list strings gmap.
From S2P Require Import Prelude.
From S2P Require Import Nvs.
From S2P Require Import GatewaySecurity.

Open Scope Z_scope.

(** ** Hexadecimal digits *)

Lemma hex_digit_range n : 0 <= n < 16 -> 1 <= hex_digit n < 256.
Proof.
  intros H. apply (range_decide (fun n => bool_decide (1 <= hex_digit n < 256)) 16) in H; [|by vm_compute].
  by apply bool_decide_spec in H.
Qed.

Lemma hex_encode_cstring src : bytes src -> cstring (hex_encode src).
Proof.
  induction 1 as [|b src Hb _ IH]; [constructor|]. unfold is_byte in Hb. cbn [hex_encode].
  assert (forall x, 0 <= Z.land x 0x0f < 16) as Hl.
  { intros x. change 0x0f with (Z.ones 4). rewrite Z.land_ones by lia. apply Z.mod_pos_bound. lia. }
  constructor; [by apply hex_digit_range|]. constructor; [by apply hex_digit_range|]. done.
Qed.

Lemma hex_encode_length src : length (hex_encode src) = (2 * length src)%nat.
Proof. induction src as [|b src IH]; [done|]. cbn [hex_encode length]. lia. Qed.

Section Facts.

Context {N : Type} `{NvsLaws N}.

Variable psa_hash_compute : list Z -> option (list Z).

(** The crypto library writes bytes. *)
Hypothesis hash_bytes : forall data out, psa_hash_compute data = Some out -> bytes out.

Implicit Types st : security N.

Lemma sha256_ok data hash : gateway_security_sha256 psa_hash_compute data = inr hash -> hash_ok hash.
Proof.
  unfold gateway_security_sha256. destruct (psa_hash_compute data) as [out|] eqn:E; [|done].
  destruct (Nat.eqb_spec (length out) GATEWAY_SHA256_LEN) as [Hl|]; [|done]. intros [= <-].
  split; [done|]. by apply hash_bytes in E.
Qed.

(** The strings that are accepted as the bearer of the digest [hash]. *)
Definition bears (hash token : list Z) : Prop :=
  token_length_ok token = true /\ gateway_security_sha256 psa_hash_compute (c_str token) = inr hash.

Lemma validate_spec token st :
  sec_initialized st = true -> hash_ok (token_hash st) ->
  gateway_security_validate_bearer psa_hash_compute (Some token) st = true <-> bears (token_hash st) token.
Proof.
  intros Hi [Hl Hb]. unfold gateway_security_validate_bearer, bears. rewrite Hi. cbn [negb].
  destruct (token_length_ok token); cbn [negb]; [|split; [done|by intros [? _]]].
  destruct (gateway_security_sha256 _ _) as [e|hash] eqn:E; [split; [done|by intros [_ ?]]|].
  apply sha256_ok in E as [Hl' Hb'].
  rewrite (constant_equal_spec GATEWAY_SHA256_LEN) by done. rewrite bool_decide_eq_true. split; [by intros ->|].
  by intros [_ [= ->]].
Qed.

Lemma store_hash_spec (n n' : N) digest e :
  store_hash n digest = (n', e) ->
  (e = ESP_OK -> blob_at n' TOKEN_HASH_KEY = Some digest) /\
  (blob_at n' TOKEN_HASH_KEY = blob_at n TOKEN_HASH_KEY \/ blob_at n' TOKEN_HASH_KEY = Some digest).
Proof.
  unfold store_hash. destruct (nvs_set_blob n TOKEN_HASH_KEY digest) as [n1 e1] eqn:Es.
  pose proof (set_blob_any _ _ _ _ _ Es) as (Hany & _). case_bool_decide as He.
  - subst e1. apply set_blob_ok in Es. intros Ec. apply commit_any in Ec as [Hc _]. rewrite (Hc TOKEN_HASH_KEY). auto.
  - intros [= <- <-]. by split.
Qed.

(** What [gateway_security_set_token] does to the digests. *)
Lemma set_token_spec token open st st' e :
  gateway_security_set_token psa_hash_compute (Some token) open st = (st', e) ->
  sec_initialized st' = sec_initialized st /\
  (e = ESP_OK -> bears (token_hash st') token /\ blob_at (sec_nvs st') TOKEN_HASH_KEY = Some (token_hash st')) /\
  (e <> ESP_OK -> token_hash st' = token_hash st /\
    (blob_at (sec_nvs st') TOKEN_HASH_KEY = blob_at (sec_nvs st) TOKEN_HASH_KEY \/
     exists hash, bears hash token /\ blob_at (sec_nvs st') TOKEN_HASH_KEY = Some hash)).
Proof.
  unfold gateway_security_set_token. destruct (token_length_ok token) eqn:Hl; cbn [negb].
  2: { intros [= <- <-]. split_and!; [done|done|auto]. }
  destruct (gateway_security_sha256 _ _) as [e1|digest] eqn:Ed.
  { intros [= <- <-]. split_and!; [done| |auto]. intros ->. unfold gateway_security_sha256 in Ed. repeat case_match; done. }
  case_bool_decide.
  { intros [= <- <-]. split_and!; [done|done|auto]. }
  destruct (store_hash (sec_nvs st) digest) as [n e1] eqn:Es. intros [= <- <-].
  apply store_hash_spec in Es as [Hok Hany]. cbn [set_hash sec_initialized token_hash sec_nvs]. split; [done|]. split.
  - intros ->. rewrite bool_decide_eq_true_2 by done. split; [done|auto].
  - intros He. rewrite bool_decide_eq_false_2 by done. split; [done|]. destruct Hany as [?|?]; [auto|].
    right. by exists digest.
Qed.

(** The static variables at power-on. *)
Definition security_boot (n : N) : security N := mk_security n (zeros GATEWAY_SHA256_LEN) false.

(** A start on a flash with a stored digest. *)
Lemma init_stored hash bootstrap_token random_bytes (n : N) :
  length hash = GATEWAY_SHA256_LEN -> blob_at n TOKEN_HASH_KEY = Some hash ->
  exists started token,
    gateway_security_init psa_hash_compute bootstrap_token ESP_OK random_bytes (security_boot n) =
      (started, ESP_OK, false, token) /\ sec_initialized started = true /\ token_hash started = hash.
Proof.
  intros Hl Hb. unfold gateway_security_init. rewrite bool_decide_eq_false_2 by (intros ?; done).
  cbn [sec_nvs security_boot]. rewrite get_blob_spec, Hb, Hl, Nat.leb_refl, Hl, Nat.eqb_refl.
  eexists _, _. split; [done|]. split; [done|]. cbn [start set_hash token_hash security_boot].
  by rewrite drop_ge, app_nil_r by (by unfold zeros; rewrite length_replicate).
Qed.

(** Whoever knows the token gets in, and nobody else does: a token that
    [gateway_security_set_token] stores admits exactly the strings with its
    digest, now and after every later start on that flash.  One that is refused
    or cannot be stored changes nothing for now, and on the flash the old
    digest stays, or the one of the new token is there. *)
Theorem token_replaced token open st st' e :
  sec_initialized st = true -> hash_ok (token_hash st) ->
  gateway_security_set_token psa_hash_compute (Some token) open st = (st', e) ->
  let admits st u := gateway_security_validate_bearer psa_hash_compute (Some u) st = true in
  (e = ESP_OK -> exists hash, bears hash token /\ (forall u, admits st' u <-> bears hash u) /\
    forall n bootstrap_token random_bytes, blob_at n TOKEN_HASH_KEY = blob_at (sec_nvs st') TOKEN_HASH_KEY ->
      exists started buffer,
        gateway_security_init psa_hash_compute bootstrap_token ESP_OK random_bytes (security_boot n)
          = (started, ESP_OK, false, buffer) /\
    forall u, admits started u <-> bears hash u) /\
  (e <> ESP_OK -> (forall u, admits st' u <-> admits st u) /\
    (blob_at (sec_nvs st') TOKEN_HASH_KEY = blob_at (sec_nvs st) TOKEN_HASH_KEY \/
     exists hash, bears hash token /\ blob_at (sec_nvs st') TOKEN_HASH_KEY = Some hash)).
Proof.
  intros Hi Hh E admits. apply set_token_spec in E as (Hi' & Hok & Hbad). rewrite Hi in Hi'. split.
  - intros He. destruct (Hok He) as [[Hl Hd] Hb]. pose proof (sha256_ok _ _ Hd) as Hh'.
    exists (token_hash st'). split; [done|]. split; [intros u; by apply validate_spec|].
    intros n bt rnd Hn. rewrite Hb in Hn.
    destruct (init_stored (token_hash st') bt rnd n (proj1 Hh') Hn) as (started & buffer & E & Hs & Ht).
    exists started, buffer. split; [done|]. intros u. rewrite <- Ht. apply validate_spec; [done|by rewrite Ht].
  - intros He. destruct (Hbad He) as [Ht Hf]. split; [|done]. intros u.
    assert (hash_ok (token_hash st')) as Hh' by by rewrite Ht.
    unfold admits. rewrite !validate_spec by done. by rewrite Ht.
Qed.

(** A generated token has the 64 digits of its random bytes, so that different
    bytes give different tokens, and it is the token from then on; without
    one, the buffer is wiped. *)
Theorem generated_token_admitted buffer open random_bytes st st' e out :
  sec_initialized st = true -> bytes random_bytes -> length random_bytes = (GATEWAY_API_TOKEN_HEX_LEN / 2)%nat ->
  gateway_security_generate_token psa_hash_compute (Some buffer) open random_bytes st = (st', e, out) ->
  (e = ESP_OK -> exists token, out = Some token /\ c_str token = hex_encode random_bytes /\
    length (c_str token) = GATEWAY_API_TOKEN_HEX_LEN /\
    gateway_security_validate_bearer psa_hash_compute out st' = true) /\
  (e <> ESP_OK -> token_hash st' = token_hash st /\
    (out = Some (zeros (length buffer)) \/ (length buffer < GATEWAY_API_TOKEN_HEX_LEN + 1)%nat)).
Proof.
  intros Hi Hr Hl. unfold gateway_security_generate_token.
  destruct (Nat.ltb_spec (length buffer) (GATEWAY_API_TOKEN_HEX_LEN + 1)).
  { intros [= <- <- <-]. split; [done|]. auto. }
  set (token := set_string buffer (hex_encode random_bytes)).
  assert (c_str token = hex_encode random_bytes) as Et.
  { unfold token, set_string. apply (c_str_terminates _ _ (hex_encode_cstring _ Hr)). }
  destruct (gateway_security_set_token _ _ _ _) as [st1 e1] eqn:E. apply set_token_spec in E as (Hi' & Hok & Hbad).
  rewrite Hi in Hi'. intros [= <- <- <-]. split.
  - intros ->. rewrite bool_decide_eq_false_2 by (intros ?; done). destruct (Hok eq_refl) as [Hb _].
    exists token. split; [done|]. split; [done|]. split.
    + rewrite Et, hex_encode_length, Hl. done.
    + apply validate_spec; [done| |done]. by destruct Hb as [_ Hd%sha256_ok].
  - intros He. rewrite bool_decide_eq_true_2 by done. destruct (Hbad He) as [-> _]. auto.
Qed.

End Facts.

(** ** Witnesses *)

(** A digest that shows the hypothesis on the crypto library to hold. *)
Definition toy_digest (data : list Z) : option (list Z) :=
  Some (map u8 (take GATEWAY_SHA256_LEN (rev data ++ zeros GATEWAY_SHA256_LEN))).

Lemma toy_digest_bytes data out : toy_digest data = Some out -> bytes out.
Proof.
  intros [= <-]. apply Forall_forall. intros x Hx%list_elem_of_In%in_map_iff. destruct Hx as (y & <- & _).
  apply Z.mod_pos_bound. lia.
Qed.

Definition sample_token : list Z := str "0123456789abcdef0123456789abcdef".

Lemma token_replaced_witness :
  exists st', gateway_security_set_token toy_digest (Some sample_token) ESP_OK
      (start (security_boot mem_empty)) = (st', ESP_OK) /\
    gateway_security_validate_bearer toy_digest (Some sample_token) st' = true /\
    gateway_security_validate_bearer toy_digest (Some (rev sample_token)) st' = false.
Proof.
  destruct (gateway_security_set_token toy_digest (Some sample_token) ESP_OK (start (security_boot mem_empty)))
    as [st' e] eqn:E.
  assert (e = ESP_OK) as -> by (apply (f_equal snd) in E; vm_compute in E; by destruct E).
  exists st'. split; [done|].
  assert (hash_ok (zeros GATEWAY_SHA256_LEN)) as Hz by (split; [done|apply (bool_decide_unpack _); vm_compute; exact I]).
  destruct (token_replaced toy_digest toy_digest_bytes sample_token ESP_OK (start (security_boot mem_empty)) st' ESP_OK
    eq_refl Hz E) as [Hok _].
  destruct (Hok eq_refl) as (hash & Hb & Hadm & _). split; [by apply Hadm|].
  apply not_true_iff_false. rewrite Hadm. intros [_ H]. destruct Hb as [_ Hb]. rewrite <- H in Hb.
  vm_compute in Hb. discriminate Hb.
Defined.
