(* ===== verification/ApiIdempotency.v ===== *)
(** * The journal of idempotency keys (components/api_idempotency)

    A request with an [Idempotency-Key] reserves a slot of the journal before
    its message is queued, and finalizes it with the identifier of the message
    afterwards.  The journal lives in NVS, and keeps hashes: SHA-256 is code of
    the crypto library, [psa_hash_compute] with the bytes it wrote.

    [taken] says whether the mutex was taken in time.  Wiping the hashes from
    memory is left out. *)

From Stdlib Require Import Ascii String.
From Stdlib Require Import ZifyBool ZifyNat.
From stdpp Require Import base numbers list strings gmap.
From S2P Require Import Prelude.
From S2P Require Import Nvs.
From S2P Require Import GatewaySecurity.

Open Scope Z_scope.

Definition GATEWAY_IDEMPOTENCY_MAX_RECORDS : nat := 32.
Definition IDEM_MAGIC : Z := 0x4944454d.
Definition IDEM_VERSION : Z := 2.

Inductive gateway_idempotency_result_t :=
  | GATEWAY_IDEMPOTENCY_MISS
  | GATEWAY_IDEMPOTENCY_REPLAY
  | GATEWAY_IDEMPOTENCY_CONFLICT.

#[export] Instance idempotency_result_eq_dec : EqDecision gateway_idempotency_result_t.
Proof. solve_decision. Defined.

Record gateway_idempotency_diagnostics_t := mk_idem_diag {
  pending_records : Z;
  finalized_records : Z;
  free_records : Z;
}.

Record idem_record_t := mk_idem {
  idem_magic : Z;
  idem_version : Z;
  idem_reserved : Z;
  idem_sequence : Z;
  idem_message_id : Z;
  key_hash : list Z;
  request_hash : list Z;
}.

(** The bytes of the structure, which has no padding. *)
Definition idem_record_bytes (r : idem_record_t) : list Z :=
  le 4 (idem_magic r) ++ le 2 (idem_version r) ++ le 2 (idem_reserved r) ++ le 4 (idem_sequence r)
  ++ le 4 (idem_message_id r) ++ key_hash r ++ request_hash r.

Definition IDEM_RECORD_SIZE : nat := 16 + 2 * GATEWAY_SHA256_LEN.

Definition idem_record_of_bytes (l : list Z) : idem_record_t :=
  let '(magic, l) := read 4 l in
  let '(version, l) := read 2 l in
  let '(reserved, l) := read 2 l in
  let '(sequence, l) := read 4 l in
  let '(message_id, l) := read 4 l in
  let '(key, l) := read GATEWAY_SHA256_LEN l in
  let '(request, _) := read GATEWAY_SHA256_LEN l in
  mk_idem (le_value magic) (le_value version) (le_value reserved) (le_value sequence) (le_value message_id)
    key request.

Definition equal32 (a b : list Z) : bool :=
  fold_left (fun diff i => Z.lor diff (u8 (Z.lxor (a.[i]) (b.[i])))) (seq 0 GATEWAY_SHA256_LEN) 0 =? 0.

(** ["r%02u"] *)
Definition idem_slot_key (slot : nat) : list Z :=
  let n := Z.of_nat slot in [114; 48 + n / 10 mod 10; 48 + n mod 10].

Section Idempotency.

Context {N : Type} `{Nvs N}.

(** What the crypto library wrote, or [None] when it failed. *)
Variable psa_hash_compute : list Z -> option (list Z).

Definition hash_key (key : list Z) : esp_err_t + list Z := gateway_security_sha256 psa_hash_compute (c_str key).

Record idem_state := mk_idem_state { i_nvs : N; i_initialized : bool; i_mutex : bool }.

Definition set_i_nvs (st : idem_state) (n : N) : idem_state := mk_idem_state n (i_initialized st) (i_mutex st).

Definition read_slot (n : N) (slot : nat) : esp_err_t + idem_record_t :=
  match nvs_get_blob n (idem_slot_key slot) IDEM_RECORD_SIZE with
  | inl e => inl e
  | inr blob =>
      let record := idem_record_of_bytes blob in
      if negb (length blob =? IDEM_RECORD_SIZE)%nat || negb (idem_magic record =? IDEM_MAGIC)
         || negb (idem_version record =? IDEM_VERSION)
      then inl ESP_ERR_INVALID_VERSION else inr record
  end.

(** The loops go on at such a slot. *)
Definition skipped (e : esp_err_t) : bool :=
  bool_decide (e = ESP_ERR_NVS_NOT_FOUND) || bool_decide (e = ESP_ERR_INVALID_VERSION).

Definition idem_write_slot (n : N) (slot : nat) (record : idem_record_t) : N * esp_err_t :=
  let '(n, err) := nvs_set_blob n (idem_slot_key slot) (idem_record_bytes record) in
  if bool_decide (err = ESP_OK) then nvs_commit n else (n, err).

(** [taken]: the mutex was taken before the timeout. *)
Definition lock_store (st : idem_state) (taken : bool) : esp_err_t :=
  if negb (i_initialized st) || negb (i_mutex st) then ESP_ERR_INVALID_STATE
  else if taken then ESP_OK else ESP_ERR_TIMEOUT.

Definition gateway_idempotency_init (mutex_created : bool) (open : esp_err_t) (handle : N) (st : idem_state)
  : idem_state * esp_err_t :=
  if i_initialized st then (st, ESP_OK)
  else if negb mutex_created then (mk_idem_state (i_nvs st) false false, ESP_ERR_NO_MEM)
  else if bool_decide (open = ESP_OK) then (mk_idem_state handle true true, ESP_OK)
  else (mk_idem_state (i_nvs st) false true, open).

(** [allocated]: malloc returned the buffer. *)
Definition gateway_idempotency_sms_fingerprint (recipient text : option (list Z)) (delivery_report : bool)
    (allocated : bool) : esp_err_t + list Z :=
  match recipient, text with
  | Some recipient, Some text =>
      let a := strlen recipient in
      let b := strlen text in
      if SIZE_MAX - Z.of_nat b - 3 <? Z.of_nat a then inl ESP_ERR_INVALID_SIZE
      else if negb allocated then inl ESP_ERR_NO_MEM
      else gateway_security_sha256 psa_hash_compute
             (c_str recipient ++ [0] ++ c_str text ++ [0] ++ [if delivery_report then 1 else 0])
  | _, _ => inl ESP_ERR_INVALID_ARG
  end.

Definition all_records : list nat := seq 0 GATEWAY_IDEMPOTENCY_MAX_RECORDS.

(** [*result] and [*message_id]. *)
Definition match_result (record : idem_record_t) (request : list Z) : gateway_idempotency_result_t * Z :=
  (if equal32 (request_hash record) request then GATEWAY_IDEMPOTENCY_REPLAY else GATEWAY_IDEMPOTENCY_CONFLICT,
   idem_message_id record).

Fixpoint lookup_loop (n : N) (key request : list Z) (slots : list nat)
  : esp_err_t + gateway_idempotency_result_t * Z :=
  match slots with
  | [] => inr (GATEWAY_IDEMPOTENCY_MISS, 0)
  | i :: slots' =>
      match read_slot n i with
      | inl e => if skipped e then lookup_loop n key request slots' else inl e
      | inr record =>
          if equal32 (key_hash record) key then inr (match_result record request)
          else lookup_loop n key request slots'
      end
  end.

Definition gateway_idempotency_lookup (key request : option (list Z)) (taken : bool) (st : idem_state)
  : esp_err_t + gateway_idempotency_result_t * Z :=
  match key, request with
  | Some key, Some request =>
      let err := lock_store st taken in
      if bool_decide (err <> ESP_OK) then inl err
      else match hash_key key with
           | inl e => inl e
           | inr kh => lookup_loop (i_nvs st) kh request all_records
           end
  | _, _ => inl ESP_ERR_INVALID_ARG
  end.

(** The local variables of the loop in [gateway_idempotency_claim]. *)
Record claim_scan := mk_scan {
  empty_slot : option nat;
  oldest_finalized_slot : option nat;
  oldest_sequence : Z;
  max_sequence : Z;
}.

(** The answer for a key that is found, or the variables after the loop. *)
Fixpoint claim_loop (n : N) (key request : list Z) (slots : list nat) (s : claim_scan)
  : esp_err_t + (gateway_idempotency_result_t * Z) + claim_scan :=
  match slots with
  | [] => inr s
  | i :: slots' =>
      match read_slot n i with
      | inl e =>
          if skipped e then
            claim_loop n key request slots'
              (mk_scan (match empty_slot s with None => Some i | Some _ => empty_slot s end)
                 (oldest_finalized_slot s) (oldest_sequence s) (max_sequence s))
          else inl (inl e)
      | inr record =>
          let older := negb (idem_message_id record =? 0) && (idem_sequence record <? oldest_sequence s) in
          let s := mk_scan (empty_slot s)
                     (if older then Some i else oldest_finalized_slot s)
                     (if older then idem_sequence record else oldest_sequence s)
                     (if max_sequence s <? idem_sequence record then idem_sequence record else max_sequence s) in
          if equal32 (key_hash record) key then inl (inr (match_result record request))
          else claim_loop n key request slots' s
      end
  end.

Definition reservation (key request : list Z) (max_sequence : Z) : idem_record_t :=
  mk_idem IDEM_MAGIC IDEM_VERSION 0 (if max_sequence =? UINT32_MAX then 1 else max_sequence + 1) 0 key request.

(** [key] is its hash. *)
Definition claim_hashed (key request : list Z) (st : idem_state)
  : idem_state * (esp_err_t + gateway_idempotency_result_t * Z) :=
  match claim_loop (i_nvs st) key request all_records (mk_scan None None UINT32_MAX 0) with
  | inl (inl e) => (st, inl e)
  | inl (inr r) => (st, inr r)
  | inr s =>
      match (match empty_slot s with Some i => Some i | None => oldest_finalized_slot s end) with
      | None => (st, inl ESP_ERR_NO_MEM)
      | Some chosen =>
          let '(n, err) := idem_write_slot (i_nvs st) chosen (reservation key request (max_sequence s)) in
          (set_i_nvs st n,
           if bool_decide (err = ESP_OK) then inr (GATEWAY_IDEMPOTENCY_MISS, 0) else inl err)
      end
  end.

Definition gateway_idempotency_claim (key request : option (list Z)) (taken : bool) (st : idem_state)
  : idem_state * (esp_err_t + gateway_idempotency_result_t * Z) :=
  match key, request with
  | Some key, Some request =>
      let err := lock_store st taken in
      if bool_decide (err <> ESP_OK) then (st, inl err)
      else match hash_key key with
           | inl e => (st, inl e)
           | inr kh => claim_hashed kh request st
           end
  | _, _ => (st, inl ESP_ERR_INVALID_ARG)
  end.

(** The loop of finalizing and releasing: the first record with the key, and
    what is done with it. *)
Fixpoint with_record (f : nat -> idem_record_t -> N * esp_err_t) (n : N) (key : list Z) (slots : list nat)
  : N * esp_err_t :=
  match slots with
  | [] => (n, ESP_ERR_NOT_FOUND)
  | i :: slots' =>
      match read_slot n i with
      | inl e => if skipped e then with_record f n key slots' else (n, e)
      | inr record => if equal32 (key_hash record) key then f i record else with_record f n key slots'
      end
  end.

Definition set_message_id (record : idem_record_t) (message_id : Z) : idem_record_t :=
  mk_idem (idem_magic record) (idem_version record) (idem_reserved record) (idem_sequence record) message_id
    (key_hash record) (request_hash record).

Definition finalize_hashed (key request : list Z) (message_id : Z) (st : idem_state) : idem_state * esp_err_t :=
  let '(n, err) :=
    with_record (fun i record =>
      if negb (equal32 (request_hash record) request) then (i_nvs st, ESP_ERR_INVALID_STATE)
      else idem_write_slot (i_nvs st) i (set_message_id record message_id)) (i_nvs st) key all_records in
  (set_i_nvs st n, err).

Definition gateway_idempotency_finalize (key request : option (list Z)) (message_id : Z) (taken : bool)
    (st : idem_state) : idem_state * esp_err_t :=
  match key, request with
  | Some key, Some request =>
      if message_id =? 0 then (st, ESP_ERR_INVALID_ARG)
      else
        let err := lock_store st taken in
        if bool_decide (err <> ESP_OK) then (st, err)
        else match hash_key key with
             | inl e => (st, e)
             | inr kh => finalize_hashed kh request message_id st
             end
  | _, _ => (st, ESP_ERR_INVALID_ARG)
  end.

Definition release_hashed (key request : list Z) (st : idem_state) : idem_state * esp_err_t :=
  let '(n, err) :=
    with_record (fun i record =>
      if negb (equal32 (request_hash record) request) || negb (idem_message_id record =? 0)
      then (i_nvs st, ESP_ERR_INVALID_STATE)
      else
        let '(n, err) := nvs_erase_key (i_nvs st) (idem_slot_key i) in
        if bool_decide (err = ESP_OK) then nvs_commit n else (n, err)) (i_nvs st) key all_records in
  (set_i_nvs st n, err).

Definition gateway_idempotency_release_pending (key request : option (list Z)) (taken : bool) (st : idem_state)
  : idem_state * esp_err_t :=
  match key, request with
  | Some key, Some request =>
      let err := lock_store st taken in
      if bool_decide (err <> ESP_OK) then (st, err)
      else match hash_key key with
           | inl e => (st, e)
           | inr kh => release_hashed kh request st
           end
  | _, _ => (st, ESP_ERR_INVALID_ARG)
  end.

(** [taken1] and [taken2]: the mutex is taken twice. *)
Definition gateway_idempotency_remember (key request : option (list Z)) (message_id : Z) (taken1 taken2 : bool)
    (st : idem_state) : idem_state * esp_err_t :=
  let '(st, r) := gateway_idempotency_claim key request taken1 st in
  match r with
  | inl e => (st, e)
  | inr (result, existing) =>
      if bool_decide (result = GATEWAY_IDEMPOTENCY_CONFLICT) then (st, ESP_ERR_INVALID_STATE)
      else if bool_decide (result = GATEWAY_IDEMPOTENCY_REPLAY) && negb (existing =? 0)
              && negb (existing =? message_id)
      then (st, ESP_ERR_INVALID_STATE)
      else gateway_idempotency_finalize key request message_id taken2 st
  end.

Fixpoint diagnostics_loop (n : N) (slots : list nat) (d : gateway_idempotency_diagnostics_t)
  : gateway_idempotency_diagnostics_t * esp_err_t :=
  match slots with
  | [] => (d, ESP_OK)
  | i :: slots' =>
      match read_slot n i with
      | inl e =>
          if skipped e then
            diagnostics_loop n slots' (mk_idem_diag (pending_records d) (finalized_records d) (u16 (free_records d + 1)))
          else (d, e)
      | inr record =>
          diagnostics_loop n slots'
            (if idem_message_id record =? 0
             then mk_idem_diag (u16 (pending_records d + 1)) (finalized_records d) (free_records d)
             else mk_idem_diag (pending_records d) (u16 (finalized_records d + 1)) (free_records d))
      end
  end.

Definition gateway_idempotency_get_diagnostics (taken : bool) (st : idem_state)
  : esp_err_t + gateway_idempotency_diagnostics_t * esp_err_t :=
  let err := lock_store st taken in
  if bool_decide (err <> ESP_OK) then inl err
  else inr (diagnostics_loop (i_nvs st) all_records (mk_idem_diag 0 0 0)).

(** [*cleared] counts the erased records. *)
Fixpoint clear_loop (n : N) (slots : list nat) (cleared : Z) : N * Z * esp_err_t :=
  match slots with
  | [] => (n, cleared, ESP_OK)
  | i :: slots' =>
      match read_slot n i with
      | inl e => if skipped e then clear_loop n slots' cleared else (n, cleared, e)
      | inr record =>
          if idem_message_id record =? 0 then
            let '(n, err) := nvs_erase_key n (idem_slot_key i) in
            if bool_decide (err = ESP_OK) then clear_loop n slots' (u32 (cleared + 1)) else (n, cleared, err)
          else clear_loop n slots' cleared
      end
  end.

Definition gateway_idempotency_clear_pending (taken : bool) (st : idem_state) : idem_state * Z * esp_err_t :=
  let err := lock_store st taken in
  if bool_decide (err <> ESP_OK) then (st, 0, err)
  else
    let '(n, cleared, err) := clear_loop (i_nvs st) all_records 0 in
    if bool_decide (err = ESP_OK) && (0 <? cleared) then
      let '(n, err) := nvs_commit n in (set_i_nvs st n, cleared, err)
    else (set_i_nvs st n, cleared, err).

End Idempotency.
