(* ===== verification/ApiIdempotencyFacts.v ===== *)
(** * What the journal of idempotency keys guarantees

    The journal as a partial function from key hashes: [recorded].  A pending
    reservation is never evicted, and a finalized key is answered with the
    identifier of its message. *)

From Stdlib Require Import Ascii String.
From Stdlib Require Import ZifyBool ZifyNat.
From stdpp Require Import base numbers list strings gmap.
From S2P Require Import Prelude.
From S2P Require Import Nvs.
From S2P Require Import GatewaySecurity.
From S2P Require Import ApiIdempotency.

Open Scope Z_scope.

(** ** Hashes and records *)

Lemma equal32_spec a b : hash_ok a -> hash_ok b -> equal32 a b = bool_decide (a = b).
Proof.
  intros [La Ba] [Lb Bb].
  assert (equal32 a b = constant_equal a b GATEWAY_SHA256_LEN) as -> by (unfold equal32, constant_equal; reflexivity).
  by rewrite (constant_equal_spec GATEWAY_SHA256_LEN) by done.
Qed.

(** A record as the journal writes it. *)
Record idem_ok (r : idem_record_t) : Prop := {
  io_magic : idem_magic r = IDEM_MAGIC;
  io_version : idem_version r = IDEM_VERSION;
  io_reserved : 0 <= idem_reserved r < 65536;
  io_sequence : 0 <= idem_sequence r <= UINT32_MAX;
  io_message_id : 0 <= idem_message_id r <= UINT32_MAX;
  io_key : hash_ok (key_hash r);
  io_request : hash_ok (request_hash r);
}.

Lemma idem_record_roundtrip r : idem_ok r -> idem_record_of_bytes (idem_record_bytes r) = r.
Proof.
  intros [Hm Hv Hr Hs Hi [Hk _] [Hq _]]. unfold idem_record_bytes, idem_record_of_bytes.
  repeat (rewrite read_app by (apply le_length || assumption)). rewrite read_all by assumption.
  unfold UINT32_MAX in *. rewrite !le_value_le; [by destruct r|..];
    change (256 ^ Z.of_nat 2) with 65536; change (256 ^ Z.of_nat 4) with 4294967296; try lia.
  - rewrite Hv. unfold IDEM_VERSION. lia.
  - rewrite Hm. unfold IDEM_MAGIC. lia.
Qed.

Lemma idem_record_length r : idem_ok r -> length (idem_record_bytes r) = IDEM_RECORD_SIZE.
Proof.
  intros [_ _ _ _ _ [Hk _] [Hq _]]. unfold idem_record_bytes. rewrite !length_app, !le_length, Hk, Hq. done.
Qed.

Lemma idem_slot_key_inj i j : (i < 100)%nat -> (j < 100)%nat -> idem_slot_key i = idem_slot_key j -> i = j.
Proof.
  intros Hi Hj E. unfold idem_slot_key in E. injection E as E1 E2. Z.div_mod_to_equations. lia.
Qed.

Section Journal.

Context {N : Type} `{NvsLaws N}.

Variable psa_hash_compute : list Z -> option (list Z).

(** The library's hashes are bytes. *)
Hypothesis psa_bytes : forall data out, psa_hash_compute data = Some out -> bytes out.

Lemma hash_key_ok key kh : hash_key psa_hash_compute key = inr kh -> hash_ok kh.
Proof.
  unfold hash_key, gateway_security_sha256. destruct (psa_hash_compute _) as [out|] eqn:E; [|done].
  destruct (Nat.eqb_spec (length out) GATEWAY_SHA256_LEN); [|done]. intros [= <-]. split; [done|by eapply psa_bytes].
Qed.

(** ** Slots *)

Abbreviation RECORDS := GATEWAY_IDEMPOTENCY_MAX_RECORDS.

Lemma read_same n n' i : blob_at n' (idem_slot_key i) = blob_at n (idem_slot_key i) -> read_slot n' i = read_slot n i.
Proof. intros E. unfold read_slot. by rewrite !get_blob_spec, E. Qed.

Lemma read_written n i r : idem_ok r -> blob_at n (idem_slot_key i) = Some (idem_record_bytes r) -> read_slot n i = inr r.
Proof.
  intros Hr E. unfold read_slot. rewrite get_blob_spec, E, (idem_record_length r Hr), Nat.leb_refl.
  rewrite (idem_record_length r Hr), (idem_record_roundtrip r Hr), Nat.eqb_refl, (io_magic _ Hr), (io_version _ Hr).
  by rewrite !Z.eqb_refl.
Qed.

(** Slot [i] of [n'] holds [o], and the other slots what they hold in [n]. *)
Definition slot_is (n n' : N) (i : nat) (o : esp_err_t + idem_record_t) : Prop :=
  read_slot n' i = o /\ forall j, (j < RECORDS)%nat -> j <> i -> read_slot n' j = read_slot n j.

Lemma idem_write_spec n i r n' e :
  (i < RECORDS)%nat -> idem_ok r -> idem_write_slot n i r = (n', e) ->
  (e = ESP_OK -> slot_is n n' i (inr r)) /\ (slot_is n n' i (read_slot n i) \/ slot_is n n' i (inr r)).
Proof.
  intros Hi Hr E. unfold idem_write_slot in E.
  destruct (nvs_set_blob n (idem_slot_key i) (idem_record_bytes r)) as [n1 e1] eqn:E1.
  destruct (set_blob_any _ _ _ _ _ E1) as (Hb & Ho & _).
  assert (forall k, blob_at n' k = blob_at n1 k) as Hc.
  { destruct (bool_decide (e1 = ESP_OK)); [by apply (commit_any _ _ _ E)|by injection E as <- _]. }
  assert (forall o, read_slot n' i = o -> slot_is n n' i o) as Hslot.
  { intros o Ho'. split; [done|]. intros j Hj Hne. apply read_same. rewrite Hc. apply Ho.
    intros Ek. apply Hne. apply idem_slot_key_inj; [unfold RECORDS in *; lia..|done]. }
  assert (blob_at n1 (idem_slot_key i) = Some (idem_record_bytes r) -> slot_is n n' i (inr r)) as Hnew.
  { intros Hn. apply Hslot, read_written; [done|]. by rewrite Hc. }
  split.
  - intros ->. apply Hnew. case_bool_decide as He; [subst; by eapply set_blob_ok|by injection E].
  - destruct Hb as [Hb|Hb]; [left; apply Hslot, read_same; by rewrite Hc|right; by apply Hnew].
Qed.

Lemma idem_erase_spec n i n' e :
  (i < RECORDS)%nat ->
  (let '(n1, e1) := nvs_erase_key n (idem_slot_key i) in
   if bool_decide (e1 = ESP_OK) then nvs_commit n1 else (n1, e1)) = (n', e) ->
  (e = ESP_OK -> slot_is n n' i (inl ESP_ERR_NVS_NOT_FOUND)) /\
  (slot_is n n' i (read_slot n i) \/ slot_is n n' i (inl ESP_ERR_NVS_NOT_FOUND)).
Proof.
  intros Hi E. destruct (nvs_erase_key n (idem_slot_key i)) as [n1 e1] eqn:E1.
  destruct (erase_any _ _ _ _ E1) as (Hb & Ho & _).
  assert (forall k, blob_at n' k = blob_at n1 k) as Hc.
  { destruct (bool_decide (e1 = ESP_OK)); [by apply (commit_any _ _ _ E)|by injection E as <- _]. }
  assert (forall o, read_slot n' i = o -> slot_is n n' i o) as Hslot.
  { intros o Ho'. split; [done|]. intros j Hj Hne. apply read_same. rewrite Hc. apply Ho.
    intros Ek. apply Hne. apply idem_slot_key_inj; [unfold RECORDS in *; lia..|done]. }
  assert (blob_at n1 (idem_slot_key i) = None -> slot_is n n' i (inl ESP_ERR_NVS_NOT_FOUND)) as Hnew.
  { intros Hn. apply Hslot. unfold read_slot. by rewrite get_blob_spec, Hc, Hn. }
  split.
  - intros ->. apply Hnew. case_bool_decide as He; [subst; by eapply erase_ok|by injection E].
  - destruct Hb as [Hb|Hb]; [left; apply Hslot, read_same; by rewrite Hc|right; by apply Hnew].
Qed.

(** ** The journal *)

Record journal_ok (n : N) : Prop := {
  jo_slot i : (i < RECORDS)%nat ->
    match read_slot n i with inr r => idem_ok r | inl e => skipped e = true end;
  jo_unique i j ri rj : (i < RECORDS)%nat -> (j < RECORDS)%nat ->
    read_slot n i = inr ri -> read_slot n j = inr rj -> key_hash ri = key_hash rj -> i = j;
}.

(** The journal has the key, with this request and message. *)
Definition recorded (n : N) (key request : list Z) (message_id : Z) : Prop :=
  exists i r, (i < RECORDS)%nat /\ read_slot n i = inr r /\ key_hash r = key /\ request_hash r = request /\
    idem_message_id r = message_id.

Lemma recorded_unique n key q1 q2 m1 m2 :
  journal_ok n -> recorded n key q1 m1 -> recorded n key q2 m2 -> q1 = q2 /\ m1 = m2.
Proof.
  intros Hj (i & r & Hi & Er & Hk & <- & <-) (i' & r' & Hi' & Er' & Hk' & <- & <-).
  assert (i = i') as <- by (eapply jo_unique; [exact Hj|..]; try done; congruence).
  rewrite Er in Er'. by injection Er' as <-.
Qed.

Lemma all_records_elem i : i ∈ all_records <-> (i < RECORDS)%nat.
Proof. unfold all_records. rewrite elem_of_seq. lia. Qed.

(** Slot [i] overwritten, or emptied. *)
Lemma journal_set n n' i r :
  journal_ok n -> (i < RECORDS)%nat -> idem_ok r -> slot_is n n' i (inr r) ->
  (forall j rj, (j < RECORDS)%nat -> j <> i -> read_slot n j = inr rj -> key_hash rj <> key_hash r) -> journal_ok n'.
Proof.
  intros [Hs Hu] Hi Hr [Ei Eo] Hfresh. split.
  - intros j Hj. destruct (decide (j = i)) as [->|Hne]; [by rewrite Ei|]. rewrite Eo by done. by apply Hs.
  - intros j k rj rk Hj Hk Ej Ek E. destruct (decide (j = i)) as [->|Hj'], (decide (k = i)) as [->|Hk']; [done|..].
    + rewrite Ei in Ej. injection Ej as <-. rewrite Eo in Ek by done. by destruct (Hfresh k rk Hk Hk' Ek).
    + rewrite Ei in Ek. injection Ek as <-. rewrite Eo in Ej by done. by destruct (Hfresh j rj Hj Hj' Ej).
    + rewrite Eo in Ej, Ek by done. by eapply Hu.
Qed.

Lemma journal_erase n n' i :
  journal_ok n -> (i < RECORDS)%nat -> slot_is n n' i (inl ESP_ERR_NVS_NOT_FOUND) -> journal_ok n'.
Proof.
  intros [Hs Hu] Hi [Ei Eo]. split.
  - intros j Hj. destruct (decide (j = i)) as [->|Hne]; [by rewrite Ei|]. rewrite Eo by done. by apply Hs.
  - intros j k rj rk Hj Hk Ej Ek E.
    assert (j <> i) by (intros ->; congruence). assert (k <> i) by (intros ->; congruence).
    rewrite Eo in Ej, Ek by done. by eapply Hu.
Qed.

Lemma journal_same n n' i : journal_ok n -> slot_is n n' i (read_slot n i) ->
  journal_ok n' /\ forall key request m, recorded n' key request m <-> recorded n key request m.
Proof.
  intros [Hs Hu] [Ei Eo].
  assert (forall j, (j < RECORDS)%nat -> read_slot n' j = read_slot n j) as E.
  { intros j Hj. destruct (decide (j = i)) as [->|Hne]; [done|by apply Eo]. }
  split; [split|].
  - intros j Hj. rewrite E by done. by apply Hs.
  - intros j k rj rk Hj Hk Ej Ek. rewrite E in Ej, Ek by done. by eapply Hu.
  - intros key request m. unfold recorded. split; intros (j & r & Hj & Er & Hr); exists j, r;
      (split; [done|]); [rewrite E in Er by done|rewrite E by done]; done.
Qed.

(** What is recorded in the other slots stays. *)
Lemma recorded_other n n' i o key request m :
  slot_is n n' i o -> recorded n key request m ->
  (exists r, read_slot n i = inr r /\ key_hash r = key /\ request_hash r = request /\ idem_message_id r = m) \/
  recorded n' key request m.
Proof.
  intros [_ Eo] (j & r & Hj & Er & Hr). destruct (decide (j = i)) as [->|Hne]; [left; by exists r|].
  right. exists j, r. split; [done|]. by rewrite Eo.
Qed.

(** ** The loops *)

Lemma lookup_loop_spec n key request slots :
  journal_ok n -> hash_ok key -> Forall (fun i => (i < RECORDS)%nat) slots ->
  (exists i r, i ∈ slots /\ read_slot n i = inr r /\ key_hash r = key /\
     lookup_loop n key request slots = inr (match_result r request)) \/
  (forall i r, i ∈ slots -> read_slot n i = inr r -> key_hash r <> key) /\
  lookup_loop n key request slots = inr (GATEWAY_IDEMPOTENCY_MISS, 0).
Proof.
  intros Hj Hk. induction 1 as [|i slots Hi _ IH]; cbn [lookup_loop].
  { right. split; [|done]. by intros i r ?%elem_of_nil. }
  pose proof (jo_slot _ Hj i Hi) as Hs. destruct (read_slot n i) as [e|r] eqn:Er.
  - rewrite Hs. destruct IH as [(i' & r & Hin & H1)|[Hno IH]].
    + left. exists i', r. split; [by right|done].
    + right. split; [|done]. intros i' r [->|Hin]%elem_of_cons Er'; [congruence|by eapply Hno].
  - rewrite equal32_spec by (apply Hs || done). case_bool_decide as Heq.
    { left. exists i, r. split; [by left|done]. }
    destruct IH as [(i' & r' & Hin & H1)|[Hno IH]].
    + left. exists i', r'. split; [by right|done].
    + right. split; [|done]. intros i' r' [->|Hin]%elem_of_cons Er'; [congruence|by eapply Hno].
Qed.

(** The proofs go by what is in the list, not by its length. *)
#[local] Opaque all_records.

(** What the answer of a match says. *)
Lemma match_result_spec n i r request :
  (i < RECORDS)%nat -> read_slot n i = inr r -> idem_ok r -> hash_ok request ->
  match match_result r request with
  | (GATEWAY_IDEMPOTENCY_MISS, _) => False
  | (GATEWAY_IDEMPOTENCY_REPLAY, m) => recorded n (key_hash r) request m
  | (GATEWAY_IDEMPOTENCY_CONFLICT, m) => exists request', request' <> request /\ recorded n (key_hash r) request' m
  end.
Proof.
  intros Hi Er Hr Hq. unfold match_result. rewrite equal32_spec by (apply Hr || done). case_bool_decide as Heq.
  - exists i, r. by split_and!.
  - exists (request_hash r). split; [done|]. exists i, r. by split_and!.
Qed.

(** The local variables of the loop over the slots [seen]. *)
Record scanned (n : N) (key : list Z) (seen : list nat) (s : claim_scan) : Prop := {
  sc_fresh i r : i ∈ seen -> read_slot n i = inr r -> key_hash r <> key;
  sc_empty : match empty_slot s with
    | Some i => i ∈ seen /\ exists e, read_slot n i = inl e
    | None => forall i, i ∈ seen -> exists r, read_slot n i = inr r end;
  sc_oldest i : oldest_finalized_slot s = Some i ->
    i ∈ seen /\ exists r, read_slot n i = inr r /\ idem_message_id r <> 0;
  sc_max : 0 <= max_sequence s <= UINT32_MAX;
}.

Lemma claim_loop_spec n key request seen slots s :
  journal_ok n -> hash_ok key -> Forall (fun i => (i < RECORDS)%nat) slots -> scanned n key seen s ->
  match claim_loop n key request slots s with
  | inl (inl _) => False
  | inl (inr res) => exists i r, i ∈ slots /\ read_slot n i = inr r /\ key_hash r = key /\ res = match_result r request
  | inr s' => scanned n key (seen ++ slots) s'
  end.
Proof.
  intros Hj Hk Hslots. revert seen s. induction Hslots as [|i slots Hi _ IH]; intros seen s Hs; cbn [claim_loop].
  { by rewrite app_nil_r. }
  destruct Hs as [Hfresh Hempty Hold Hmax]. pose proof (jo_slot _ Hj i Hi) as Hr.
  assert (forall s', scanned n key (seen ++ [i]) s' ->
    match claim_loop n key request slots s' with
    | inl (inl _) => False
    | inl (inr res) => exists i' r, i' ∈ i :: slots /\ read_slot n i' = inr r /\ key_hash r = key /\ res = match_result r request
    | inr s'' => scanned n key (seen ++ i :: slots) s''
    end) as Hnext.
  { intros s' Hs'. specialize (IH _ _ Hs'). rewrite <- app_assoc in IH. cbn [app] in IH.
    destruct (claim_loop n key request slots s') as [[e|res]|s'']; [done| |done].
    destruct IH as (i' & r & Hin & H1). exists i', r. split; [by right|done]. }
  destruct (read_slot n i) as [e|r] eqn:Er.
  - rewrite Hr. apply Hnext. split; cbn [empty_slot oldest_finalized_slot max_sequence]; [..|done].
    + intros i' r' [Hin|Hin%list_elem_of_singleton]%elem_of_app Er'; [by eapply Hfresh|congruence].
    + destruct (empty_slot s) as [i0|].
      * destruct Hempty as [Hin He]. split; [apply elem_of_app; by left|done].
      * split; [apply elem_of_app; right; by left|by exists e].
    + intros i' Hi'. destruct (Hold i' Hi') as [Hin Ho]. split; [apply elem_of_app; by left|done].
  - rewrite equal32_spec by (apply Hr || done). case_bool_decide as Heq; [exists i, r; split; [by left|done]|].
    apply Hnext. pose proof (io_sequence _ Hr) as Hseq.
    split; cbn [empty_slot oldest_finalized_slot max_sequence].
    + intros i' r' [Hin|Hin%list_elem_of_singleton]%elem_of_app Er'; [by eapply Hfresh|congruence].
    + destruct (empty_slot s) as [i0|].
      * destruct Hempty as [Hin He]. split; [apply elem_of_app; by left|done].
      * intros i' [Hin|Hin%list_elem_of_singleton]%elem_of_app; [by apply Hempty|subst i'; by exists r].
    + intros i' Hi'. destruct (negb (idem_message_id r =? 0) && (idem_sequence r <? oldest_sequence s)) eqn:Eo.
      * injection Hi' as <-. boolify. split; [apply elem_of_app; right; by left|]. exists r. split; [done|lia].
      * destruct (Hold i' Hi') as [Hin Ho]. split; [apply elem_of_app; by left|done].
    + destruct (_ <? _); lia.
Qed.

Lemma all_records_bound : Forall (fun i => (i < RECORDS)%nat) all_records.
Proof. apply Forall_forall. intros i. apply all_records_elem. Qed.

Lemma with_record_spec f n key slots :
  journal_ok n -> hash_ok key -> Forall (fun i => (i < RECORDS)%nat) slots ->
  (exists i r, i ∈ slots /\ read_slot n i = inr r /\ key_hash r = key /\ with_record f n key slots = f i r) \/
  (forall i r, i ∈ slots -> read_slot n i = inr r -> key_hash r <> key) /\
  with_record f n key slots = (n, ESP_ERR_NOT_FOUND).
Proof.
  intros Hj Hk. induction 1 as [|i slots Hi _ IH]; cbn [with_record].
  { right. split; [|done]. by intros i r ?%elem_of_nil. }
  pose proof (jo_slot _ Hj i Hi) as Hs. destruct (read_slot n i) as [e|r] eqn:Er.
  - rewrite Hs. destruct IH as [(i' & r & Hin & H1)|[Hno IH]].
    + left. exists i', r. split; [by right|done].
    + right. split; [|done]. intros i' r [->|Hin]%elem_of_cons Er'; [congruence|by eapply Hno].
  - rewrite equal32_spec by (apply Hs || done). case_bool_decide as Heq.
    { left. exists i, r. split; [by left|done]. }
    destruct IH as [(i' & r' & Hin & H1)|[Hno IH]].
    + left. exists i', r'. split; [by right|done].
    + right. split; [|done]. intros i' r' [->|Hin]%elem_of_cons Er'; [congruence|by eapply Hno].
Qed.

(** ** Operations on hashed keys *)

(** Pending reservations of the keys in [K] stay. *)
Definition pending_kept (K : list Z -> Prop) (n n' : N) : Prop :=
  forall key request, K key -> recorded n key request 0 -> recorded n' key request 0.

Lemma pending_refl K n : pending_kept K n n.
Proof. by intros key request _. Qed.

Lemma claim_hashed_spec key request (st st' : @idem_state N) res :
  journal_ok (i_nvs st) -> hash_ok key -> hash_ok request -> claim_hashed key request st = (st', res) ->
  journal_ok (i_nvs st') /\ pending_kept (fun _ => True) (i_nvs st) (i_nvs st') /\
  i_initialized st' = i_initialized st /\ i_mutex st' = i_mutex st /\
  match res with
  | inr (GATEWAY_IDEMPOTENCY_MISS, m) => m = 0 /\ recorded (i_nvs st') key request 0 /\
      forall request' m', ~ recorded (i_nvs st) key request' m'
  | inr (GATEWAY_IDEMPOTENCY_REPLAY, m) => st' = st /\ recorded (i_nvs st) key request m
  | inr (GATEWAY_IDEMPOTENCY_CONFLICT, m) => st' = st /\
      exists request', request' <> request /\ recorded (i_nvs st) key request' m
  | inl e => e <> ESP_OK
  end.
Proof.
  intros Hj Hk Hq E. unfold claim_hashed in E. set (n := i_nvs st) in *.
  pose proof (claim_loop_spec n key request [] all_records (mk_scan None None UINT32_MAX 0) Hj Hk all_records_bound) as L.
  destruct (claim_loop n key request all_records _) as [[e|[result m]]|s].
  { destruct L. split; cbn; [by intros ? ? ?%elem_of_nil|by intros ? ?%elem_of_nil|done|unfold UINT32_MAX; lia]. }
  { injection E as <- <-. destruct L as (i & r & Hin & Er & <- & Em).
    { split; cbn; [by intros ? ? ?%elem_of_nil|by intros ? ?%elem_of_nil|done|unfold UINT32_MAX; lia]. }
    apply all_records_elem in Hin. pose proof (jo_slot _ Hj i Hin) as Hr. rewrite Er in Hr.
    pose proof (match_result_spec n i r request Hin Er Hr Hq) as M. rewrite <- Em in M.
    split_and!; [done|apply pending_refl|done|done|]. destruct result; [done|by split|by split]. }
  destruct L as [Hfresh Hempty Hold Hmax].
  { split; cbn; [by intros ? ? ?%elem_of_nil|by intros ? ?%elem_of_nil|done|unfold UINT32_MAX; lia]. }
  destruct (match empty_slot s with Some i => Some i | None => oldest_finalized_slot s end) as [chosen|] eqn:Ec.
  2: { injection E as <- <-. split_and!; [done|apply pending_refl|done..]. }
  assert ((chosen < RECORDS)%nat /\ forall r, read_slot n chosen = inr r -> idem_message_id r <> 0) as [Hc Hnp].
  { destruct (empty_slot s) as [i|].
    - injection Ec as ->. destruct Hempty as [Hin [e Er]]. split; [by apply all_records_elem|congruence].
    - destruct (Hold _ Ec) as (Hin & r & Er & Hr). split; [by apply all_records_elem|congruence]. }
  set (r := reservation key request (max_sequence s)) in *.
  assert (idem_ok r) as Hr.
  { split; cbn [r reservation idem_magic idem_version idem_reserved idem_sequence idem_message_id key_hash request_hash];
      try done; unfold UINT32_MAX in *; try lia. destruct (Z.eqb_spec (max_sequence s) 4294967295); lia. }
  destruct (idem_write_slot n chosen r) as [n' err] eqn:Ew.
  destruct (idem_write_spec n chosen r n' err Hc Hr Ew) as [Hok Hany].
  assert (forall i r', (i < RECORDS)%nat -> i <> chosen -> read_slot n i = inr r' -> key_hash r' <> key_hash r) as Hf.
  { intros i r' Hi _. apply Hfresh. by apply all_records_elem. }
  injection E as <- <-. cbn [i_nvs i_initialized i_mutex set_i_nvs].
  assert (journal_ok n') as Hj'.
  { destruct Hany as [Hsl|Hsl]; [by eapply journal_same|by eapply journal_set]. }
  assert (pending_kept (fun _ => True) n n') as Hp.
  { intros k q _ Hrec. destruct Hany as [Hsl|Hsl].
    - by apply (journal_same _ _ _ Hj Hsl).
    - destruct (recorded_other _ _ _ _ _ _ _ Hsl Hrec) as [(r' & Er & _ & _ & Em)|?]; [|done].
      by destruct (Hnp r' Er). }
  split_and!; [done..|]. case_bool_decide as He; [|done]. split_and!; [done| |].
  - exists chosen, r. split_and!; try done. by apply Hok.
  - intros q m (i & r' & Hi & Er & Hk' & _). eapply Hfresh; [by apply all_records_elem|exact Er|exact Hk'].
Qed.

Lemma finalize_hashed_spec key request m (st st' : @idem_state N) e :
  journal_ok (i_nvs st) -> hash_ok key -> hash_ok request -> 0 < m <= UINT32_MAX ->
  finalize_hashed key request m st = (st', e) ->
  journal_ok (i_nvs st') /\ pending_kept (fun k => k <> key) (i_nvs st) (i_nvs st') /\
  i_initialized st' = i_initialized st /\ i_mutex st' = i_mutex st /\
  (e = ESP_OK -> recorded (i_nvs st') key request m).
Proof.
  intros Hj Hk Hq Hm E. unfold finalize_hashed in E. set (n := i_nvs st) in *.
  match type of E with context [with_record ?g n key all_records] => set (f := g) in E end.
  destruct (with_record_spec f n key all_records Hj Hk all_records_bound) as [(i & r & Hin & Er & Hkr & Ef)|[_ Ef]];
    rewrite Ef in E.
  2: { injection E as <- <-. split_and!; [done|apply pending_refl|done..]. }
  apply all_records_elem in Hin. pose proof (jo_slot _ Hj i Hin) as Hr. rewrite Er in Hr.
  unfold f in E. rewrite equal32_spec in E by (apply Hr || done). case_bool_decide as Heq; cbn [negb] in E.
  2: { injection E as <- <-. split_and!; [done|apply pending_refl|done..]. }
  destruct (idem_write_slot n i (set_message_id r m)) as [n' err] eqn:Ew. injection E as <- <-.
  assert (idem_ok (set_message_id r m)) as Hr' by (destruct Hr; split; cbn; done || lia).
  destruct (idem_write_spec n i _ n' err Hin Hr' Ew) as [Hok Hany]. cbn [i_nvs i_initialized i_mutex set_i_nvs].
  split_and!; [| |done|done|].
  - destruct Hany as [Hsl|Hsl]; [by eapply journal_same|]. eapply journal_set; [exact Hj|exact Hin|exact Hr'|exact Hsl|].
    intros j rj Hjr Hne Ej Ek. apply Hne. eapply jo_unique; [exact Hj|done|done|exact Ej|exact Er|exact Ek].
  - intros k q Hkk Hrec. destruct Hany as [Hsl|Hsl]; [by apply (journal_same _ _ _ Hj Hsl)|].
    destruct (recorded_other _ _ _ _ _ _ _ Hsl Hrec) as [(r' & Er' & Ek & _)|?]; [|done].
    rewrite Er in Er'. injection Er' as <-. congruence.
  - intros He. destruct (Hok He) as [Ei _]. exists i, (set_message_id r m). by split_and!.
Qed.

Lemma release_hashed_spec key request (st st' : @idem_state N) e :
  journal_ok (i_nvs st) -> hash_ok key -> hash_ok request -> release_hashed key request st = (st', e) ->
  journal_ok (i_nvs st') /\ pending_kept (fun k => k <> key) (i_nvs st) (i_nvs st') /\
  i_initialized st' = i_initialized st /\ i_mutex st' = i_mutex st.
Proof.
  intros Hj Hk Hq E. unfold release_hashed in E. set (n := i_nvs st) in *.
  match type of E with context [with_record ?g n key all_records] => set (f := g) in E end.
  destruct (with_record_spec f n key all_records Hj Hk all_records_bound) as [(i & r & Hin & Er & Hkr & Ef)|[_ Ef]];
    rewrite Ef in E.
  2: { injection E as <- <-. split_and!; [done|apply pending_refl|done..]. }
  apply all_records_elem in Hin. unfold f in E. destruct (_ || _)%bool.
  { injection E as <- <-. split_and!; [done|apply pending_refl|done..]. }
  match type of E with (let '(_, _) := ?w in _) = _ => destruct w as [n' err] eqn:Ew end. injection E as <- <-.
  destruct (idem_erase_spec n i n' err Hin Ew) as [_ Hany]. cbn [i_nvs i_initialized i_mutex set_i_nvs].
  split_and!; [| |done|done].
  - destruct Hany as [Hsl|Hsl]; [by eapply journal_same|by eapply journal_erase].
  - intros k q Hkk Hrec. destruct Hany as [Hsl|Hsl]; [by apply (journal_same _ _ _ Hj Hsl)|].
    destruct (recorded_other _ _ _ _ _ _ _ Hsl Hrec) as [(r' & Er' & Ek & _)|?]; [|done].
    rewrite Er in Er'. injection Er' as <-. congruence.
Qed.

(** ** Known keys *)

Definition key_known (n : N) (key : list Z) : Prop := exists request m, recorded n key request m.

Lemma key_known_slot n n' i r r' key :
  (i < RECORDS)%nat -> read_slot n i = inr r -> key_hash r = key -> key_hash r' = key ->
  slot_is n n' i (read_slot n i) \/ slot_is n n' i (inr r') -> key_known n' key.
Proof.
  intros Hi Er Hk Hk' [[E _]|[E _]]; [rewrite Er in E; exists (request_hash r), (idem_message_id r), i, r|
    exists (request_hash r'), (idem_message_id r'), i, r']; by split_and!.
Qed.

(** Finalizing does not lose the key, whether it succeeds or not. *)
Lemma finalize_keeps_key key request m (st st' : @idem_state N) e :
  journal_ok (i_nvs st) -> hash_ok key -> hash_ok request -> 0 < m <= UINT32_MAX -> key_known (i_nvs st) key ->
  finalize_hashed key request m st = (st', e) -> key_known (i_nvs st') key.
Proof.
  intros Hj Hk Hq Hm Hknown E. unfold finalize_hashed in E. set (n := i_nvs st) in *.
  match type of E with context [with_record ?g n key all_records] => set (f := g) in E end.
  destruct (with_record_spec f n key all_records Hj Hk all_records_bound) as [(i & r & Hin & Er & Hkr & Ef)|[_ Ef]];
    rewrite Ef in E.
  2: { by injection E as <- <-. }
  apply all_records_elem in Hin. pose proof (jo_slot _ Hj i Hin) as Hr. rewrite Er in Hr.
  unfold f in E. rewrite equal32_spec in E by (apply Hr || done). case_bool_decide as Heq; cbn [negb] in E.
  2: { by injection E as <- <-. }
  destruct (idem_write_slot n i (set_message_id r m)) as [n' err] eqn:Ew. injection E as <- <-.
  assert (idem_ok (set_message_id r m)) as Hr' by (destruct Hr; split; cbn; done || lia).
  destruct (idem_write_spec n i _ n' err Hin Hr' Ew) as [_ Hany].
  exact (key_known_slot n n' i r (set_message_id r m) key Hin Er Hkr Hkr Hany).
Qed.

(** ** The answer for a key that is recorded *)

Definition answer (request request' : list Z) (m : Z) : gateway_idempotency_result_t * Z :=
  (if bool_decide (request = request') then GATEWAY_IDEMPOTENCY_REPLAY else GATEWAY_IDEMPOTENCY_CONFLICT, m).

Lemma match_recorded n key request request' m i r :
  journal_ok n -> recorded n key request m -> hash_ok request' -> (i < RECORDS)%nat -> read_slot n i = inr r ->
  key_hash r = key -> match_result r request' = answer request request' m.
Proof.
  intros Hj Hrec Hq Hi Er Hk. pose proof (jo_slot _ Hj i Hi) as Hr. rewrite Er in Hr.
  destruct (recorded_unique n key request (request_hash r) m (idem_message_id r) Hj Hrec) as [-> ->]; [by exists i, r|].
  unfold match_result, answer. by rewrite equal32_spec by (apply Hr || done).
Qed.

Lemma lookup_recorded n key request request' m :
  journal_ok n -> hash_ok key -> hash_ok request' -> recorded n key request m ->
  lookup_loop n key request' all_records = inr (answer request request' m).
Proof.
  intros Hj Hk Hq Hrec.
  destruct (lookup_loop_spec n key request' all_records Hj Hk all_records_bound) as [(i & r & Hin & Er & Hkr & E)|[Hno _]].
  - rewrite E. f_equal. eapply match_recorded; try done. by apply all_records_elem.
  - destruct Hrec as (i & r & Hi & Er & Hkr & _). exfalso. eapply Hno; [by apply all_records_elem|exact Er|exact Hkr].
Qed.

Lemma claim_recorded key request request' m (st : @idem_state N) :
  journal_ok (i_nvs st) -> hash_ok key -> hash_ok request' -> recorded (i_nvs st) key request m ->
  claim_hashed key request' st = (st, inr (answer request request' m)).
Proof.
  intros Hj Hk Hq Hrec. unfold claim_hashed.
  pose proof (claim_loop_spec (i_nvs st) key request' [] all_records (mk_scan None None UINT32_MAX 0) Hj Hk all_records_bound) as L.
  destruct (claim_loop _ _ _ _ _) as [[e|res]|s].
  - destruct L. split; cbn; [by intros ? ? ?%elem_of_nil|by intros ? ?%elem_of_nil|done|unfold UINT32_MAX; lia].
  - destruct L as (i & r & Hin & Er & Hkr & ->).
    { split; cbn; [by intros ? ? ?%elem_of_nil|by intros ? ?%elem_of_nil|done|unfold UINT32_MAX; lia]. }
    do 2 f_equal. eapply match_recorded; try done. by apply all_records_elem.
  - destruct L as [Hfresh _ _ _].
    { split; cbn; [by intros ? ? ?%elem_of_nil|by intros ? ?%elem_of_nil|done|unfold UINT32_MAX; lia]. }
    destruct Hrec as (i & r & Hi & Er & Hkr & _). exfalso. eapply Hfresh; [by apply all_records_elem|exact Er|exact Hkr].
Qed.

(** ** The operations *)

Abbreviation idem_state := (@idem_state N).
Abbreviation claim := (gateway_idempotency_claim psa_hash_compute).
Abbreviation finalize := (gateway_idempotency_finalize psa_hash_compute).
Abbreviation release := (gateway_idempotency_release_pending psa_hash_compute).
Abbreviation lookup := (gateway_idempotency_lookup psa_hash_compute).

Definition usable (st : idem_state) : Prop :=
  journal_ok (i_nvs st) /\ i_initialized st = true /\ i_mutex st = true.

Lemma lock_cases (st : idem_state) taken :
  lock_store st taken = ESP_OK \/ bool_decide (lock_store st taken <> ESP_OK) = true.
Proof. destruct (decide (lock_store st taken = ESP_OK)); [by left|right; by apply bool_decide_eq_true_2]. Qed.

Lemma lock_usable (st : idem_state) : usable st -> lock_store st true = ESP_OK.
Proof. intros (_ & Hi & Hm). unfold lock_store. by rewrite Hi, Hm. Qed.

(** ** The operations on a usable journal *)

Lemma claim_usable key request taken (st st' : idem_state) kh res :
  usable st -> hash_ok request -> hash_key psa_hash_compute key = inr kh ->
  claim (Some key) (Some request) taken st = (st', res) ->
  usable st' /\ (key_known (i_nvs st) kh -> st' = st /\ forall m, res <> inr (GATEWAY_IDEMPOTENCY_MISS, m)) /\
  (forall m, res = inr (GATEWAY_IDEMPOTENCY_MISS, m) -> key_known (i_nvs st') kh).
Proof.
  intros (Hj & Hi & Hm) Hq Hk E. cbn [gateway_idempotency_claim] in E. rewrite Hk in E.
  case_bool_decide as Hl; [injection E as <- <-; by split_and!|].
  destruct (claim_hashed_spec kh request st st' res Hj (hash_key_ok _ _ Hk) Hq E) as (Hj' & _ & Hi' & Hm' & Hres).
  split; [unfold usable; by rewrite Hi', Hm'|]. split.
  - intros (q & m & Hrec). pose proof (claim_recorded kh q request m st Hj (hash_key_ok _ _ Hk) Hq Hrec) as Hc.
    rewrite Hc in E. injection E as <- <-. split; [done|]. intros m'. unfold answer. by case_bool_decide.
  - intros m ->. destruct Hres as (_ & Hrec & _). by exists request, 0.
Qed.

Lemma finalize_usable key request m taken (st st' : idem_state) kh e :
  usable st -> hash_ok request -> hash_key psa_hash_compute key = inr kh -> 0 < m <= UINT32_MAX ->
  key_known (i_nvs st) kh -> finalize (Some key) (Some request) m taken st = (st', e) ->
  usable st' /\ key_known (i_nvs st') kh.
Proof.
  intros (Hj & Hi & Hx) Hq Hk Hm Hknown E. cbn [gateway_idempotency_finalize] in E. rewrite Hk in E.
  destruct (Z.eqb_spec m 0); [lia|]. case_bool_decide as Hl; [by injection E as <- <-|].
  pose proof (hash_key_ok _ _ Hk) as Hkh.
  destruct (finalize_hashed_spec kh request m st st' e Hj Hkh Hq Hm E) as (Hj' & _ & Hi' & Hx' & _).
  split; [unfold usable; by rewrite Hi', Hx'|]. exact (finalize_keeps_key kh request m st st' e Hj Hkh Hq Hm Hknown E).
Qed.

Lemma release_usable key request taken (st st' : idem_state) kh e :
  usable st -> hash_ok request -> hash_key psa_hash_compute key = inr kh ->
  release (Some key) (Some request) taken st = (st', e) -> usable st'.
Proof.
  intros (Hj & Hi & Hx) Hq Hk E. cbn [gateway_idempotency_release_pending] in E. rewrite Hk in E.
  case_bool_decide as Hl; [by injection E as <- <-|].
  destruct (release_hashed_spec kh request st st' e Hj (hash_key_ok _ _ Hk) Hq E) as (Hj' & _ & Hi' & Hx').
  unfold usable; by rewrite Hi', Hx'.
Qed.

(** What a claim answers: a key that the journal has is a replay or a
    conflict, with the identifier recorded for it (0 while pending), and
    changes nothing; a miss means that the key was not there and is reserved
    now; an error is reported as one.  Whatever the answer and whatever the
    flash does, the journal stays well formed and no pending reservation, of
    any key, is evicted. *)
Theorem claim_answers key request taken (st st' : idem_state) kh res :
  journal_ok (i_nvs st) -> hash_ok request -> hash_key psa_hash_compute key = inr kh ->
  claim (Some key) (Some request) taken st = (st', res) ->
  journal_ok (i_nvs st') /\ pending_kept (fun _ => True) (i_nvs st) (i_nvs st') /\
  match res with
  | inr (GATEWAY_IDEMPOTENCY_MISS, m) => m = 0 /\ recorded (i_nvs st') kh request 0 /\
      forall request' m', ~ recorded (i_nvs st) kh request' m'
  | inr (GATEWAY_IDEMPOTENCY_REPLAY, m) => st' = st /\ recorded (i_nvs st) kh request m
  | inr (GATEWAY_IDEMPOTENCY_CONFLICT, m) => st' = st /\
      exists request', request' <> request /\ recorded (i_nvs st) kh request' m
  | inl e => e <> ESP_OK
  end.
Proof.
  intros Hj Hq Hk E. cbn [gateway_idempotency_claim] in E. rewrite Hk in E.
  case_bool_decide as Hl.
  - injection E as <- <-. split_and!; [done|apply pending_refl|done].
  - by destruct (claim_hashed_spec kh request st st' res Hj (hash_key_ok _ _ Hk) Hq E) as (? & ? & _ & _ & ?).
Qed.

(** What may happen meanwhile: claims of any key, the end of other requests,
    restarts. *)
Inductive meanwhile (kh : list Z) : idem_state -> idem_state -> Prop :=
  | mw_refl st : meanwhile kh st st
  | mw_claim st1 st2 st3 key request taken r :
      meanwhile kh st1 st2 -> hash_ok request -> claim (Some key) (Some request) taken st2 = (st3, r) ->
      meanwhile kh st1 st3
  | mw_finalize st1 st2 st3 key request m taken e :
      meanwhile kh st1 st2 -> hash_ok request -> 0 < m <= UINT32_MAX -> hash_key psa_hash_compute key <> inr kh ->
      finalize (Some key) (Some request) m taken st2 = (st3, e) -> meanwhile kh st1 st3
  | mw_release st1 st2 st3 key request taken e :
      meanwhile kh st1 st2 -> hash_ok request -> hash_key psa_hash_compute key <> inr kh ->
      release (Some key) (Some request) taken st2 = (st3, e) -> meanwhile kh st1 st3
  | mw_restart st1 st2 n :
      meanwhile kh st1 st2 -> (forall k, blob_at n k = blob_at (i_nvs st2) k) ->
      meanwhile kh st1 (mk_idem_state n true true).

Lemma meanwhile_pending kh request (st st' : idem_state) :
  meanwhile kh st st' -> usable st -> recorded (i_nvs st) kh request 0 ->
  usable st' /\ recorded (i_nvs st') kh request 0.
Proof.
  induction 1 as [st|st1 st2 st3 key q taken r _ IH Hq E|st1 st2 st3 key q m taken e _ IH Hq Hm Hne E|
    st1 st2 st3 key q taken e _ IH Hq Hne E|st1 st2 n _ IH Hsame]; intros Hu Hrec; [done|..];
    destruct (IH Hu Hrec) as [Hu2 Hrec2]; pose proof Hu2 as (Hj & Hi & Hx).
  - cbn [gateway_idempotency_claim] in E. case_bool_decide; [by injection E as <- _|].
    destruct (hash_key psa_hash_compute key) as [e|kh'] eqn:Hk; [by injection E as <- _|].
    destruct (claim_hashed_spec kh' q st2 st3 r Hj (hash_key_ok _ _ Hk) Hq E) as (Hj' & Hp & Hi' & Hx' & _).
    split; [split_and!; [done|congruence..]|by apply Hp].
  - cbn [gateway_idempotency_finalize] in E. destruct (m =? 0); [by injection E as <- _|].
    case_bool_decide; [by injection E as <- _|].
    destruct (hash_key psa_hash_compute key) as [e'|kh'] eqn:Hk; [by injection E as <- _|].
    destruct (finalize_hashed_spec kh' q m st2 st3 e Hj (hash_key_ok _ _ Hk) Hq Hm E) as (Hj' & Hp & Hi' & Hx' & _).
    split; [split_and!; [done|congruence..]|apply Hp; [congruence|done]].
  - cbn [gateway_idempotency_release_pending] in E. case_bool_decide; [by injection E as <- _|].
    destruct (hash_key psa_hash_compute key) as [e'|kh'] eqn:Hk; [by injection E as <- _|].
    destruct (release_hashed_spec kh' q st2 st3 e Hj (hash_key_ok _ _ Hk) Hq E) as (Hj' & Hp & Hi' & Hx').
    split; [split_and!; [done|congruence..]|apply Hp; [congruence|done]].
  - destruct (journal_same (i_nvs st2) n 0 Hj) as [Hj' Hr].
    { split; [|intros j _ _]; by apply read_same. }
    split; [by split_and!|by apply Hr].
Qed.

(** One key, one message: after a claim that was answered with a miss, and
    whatever other requests do and however often the gateway restarts, the key
    is never answered with a miss again before it is finalized or released;
    and once it is finalized, the same request gets the identifier of its
    message back and another request with the key gets a conflict. *)
Theorem claimed_key_replayed key request request' taken (st st1 st2 st3 : idem_state) kh m t e :
  usable st -> hash_ok request -> hash_ok request' -> hash_key psa_hash_compute key = inr kh ->
  0 < m <= UINT32_MAX ->
  claim (Some key) (Some request) taken st = (st1, inr (GATEWAY_IDEMPOTENCY_MISS, 0)) ->
  meanwhile kh st1 st2 ->
  finalize (Some key) (Some request) m t st2 = (st3, e) ->
  claim (Some key) (Some request') true st2 = (st2, inr (answer request request' 0)) /\
  (e = ESP_OK ->
     lookup (Some key) (Some request') true st3 = inr (answer request request' m) /\
     claim (Some key) (Some request') true st3 = (st3, inr (answer request request' m))).
Proof.
  intros Hu Hq Hq' Hk Hm E1 Hmw E3. pose proof (hash_key_ok _ _ Hk) as Hkh.
  assert (usable st1 /\ recorded (i_nvs st1) kh request 0) as [Hu1 Hrec1].
  { destruct Hu as (Hj & Hi & Hx). cbn [gateway_idempotency_claim] in E1. rewrite Hk in E1.
    case_bool_decide; [done|].
    destruct (claim_hashed_spec kh request st st1 _ Hj Hkh Hq E1) as (Hj' & _ & Hi' & Hx' & _ & Hrec & _).
    split; [split_and!; [done|congruence..]|done]. }
  destruct (meanwhile_pending kh request st1 st2 Hmw Hu1 Hrec1) as [Hu2 Hrec2].
  cbn [gateway_idempotency_claim gateway_idempotency_lookup]. rewrite Hk, (lock_usable _ Hu2).
  rewrite bool_decide_eq_false_2 by (intros Hx; exact (Hx eq_refl)).
  split; [apply claim_recorded; [apply Hu2|done..]|]. intros ->.
  cbn [gateway_idempotency_finalize] in E3. rewrite Hk in E3. destruct (Z.eqb_spec m 0); [lia|].
  destruct (lock_cases st2 t) as [El|El]; [rewrite El, bool_decide_eq_false_2 in E3 by (intros Hx; exact (Hx eq_refl))|
    rewrite El in E3; injection E3 as _ E3; apply bool_decide_eq_true in El; done].
  destruct (finalize_hashed_spec kh request m st2 st3 ESP_OK (proj1 Hu2) Hkh Hq Hm E3) as (Hj3 & _ & Hi3 & Hx3 & Hrec3).
  assert (usable st3) as Hu3.
  { destruct Hu2 as (_ & ? & ?). split_and!; [done|congruence..]. }
  rewrite (lock_usable _ Hu3), bool_decide_eq_false_2 by (intros Hx; exact (Hx eq_refl)). split.
  - apply lookup_recorded; [apply Hu3|done|done|by apply Hrec3].
  - apply claim_recorded; [apply Hu3|done|done|by apply Hrec3].
Qed.

End Journal.

(** ** Example: a key is claimed, another one too, and it is finalized *)

(** A hash that tells short keys apart. *)
Definition sample_hash (data : list Z) : option (list Z) := Some (take 32 (List.map u8 data ++ zeros 32)).

Lemma sample_hash_bytes data out : sample_hash data = Some out -> bytes out.
Proof.
  intros [= <-]. apply Forall_take, Forall_app. split.
  - apply Forall_fmap, Forall_forall. intros x _. unfold is_byte, compose, u8. apply Z.mod_pos_bound. lia.
  - apply Forall_replicate. unfold is_byte. lia.
Qed.

Definition sample_journal : @idem_state mem_nvs := mk_idem_state mem_empty true true.

Lemma sample_journal_usable : usable sample_journal.
Proof.
  split_and!; [|done|done]. split.
  - intros i _. done.
  - intros i j ri rj _ _ Ei. done.
Qed.

Definition sample_request : list Z := zeros 32.

Lemma sample_request_ok : hash_ok sample_request.
Proof. split; [done|]. apply Forall_replicate. unfold is_byte. lia. Qed.

Abbreviation claim_step key := (gateway_idempotency_claim sample_hash (Some (str key)) (Some sample_request) true).

Lemma claim_answers_witness :
  recorded (i_nvs (claim_step "request-0001" sample_journal).1)
    (take 32 (str "request-0001" ++ zeros 32)) sample_request 0.
Proof.
  assert ((claim_step "request-0001" sample_journal).2 = inr (GATEWAY_IDEMPOTENCY_MISS, 0)) as E by (vm_compute; reflexivity).
  destruct (claim_answers sample_hash sample_hash_bytes (str "request-0001") sample_request true sample_journal
    (claim_step "request-0001" sample_journal).1 (take 32 (str "request-0001" ++ zeros 32))
    (claim_step "request-0001" sample_journal).2 (proj1 sample_journal_usable) sample_request_ok
    ltac:(vm_compute; reflexivity) (surjective_pairing _)) as (_ & _ & H).
  rewrite E in H. apply H.
Defined.

Lemma claimed_key_replayed_witness :
  gateway_idempotency_lookup sample_hash (Some (str "request-0001")) (Some sample_request) true
    (gateway_idempotency_finalize sample_hash (Some (str "request-0001")) (Some sample_request) 42 true
       (claim_step "request-0002" (claim_step "request-0001" sample_journal).1).1).1
  = inr (GATEWAY_IDEMPOTENCY_REPLAY, 42).
Proof.
  set (st1 := (claim_step "request-0001" sample_journal).1).
  set (st2 := (claim_step "request-0002" st1).1).
  set (last := gateway_idempotency_finalize sample_hash (Some (str "request-0001")) (Some sample_request) 42 true st2).
  destruct (claimed_key_replayed sample_hash sample_hash_bytes (str "request-0001") sample_request sample_request true
    sample_journal st1 st2 last.1 (take 32 (str "request-0001" ++ zeros 32)) 42 true last.2) as [_ H].
  - apply sample_journal_usable.
  - apply sample_request_ok.
  - apply sample_request_ok.
  - vm_compute. reflexivity.
  - unfold UINT32_MAX. lia.
  - assert ((claim_step "request-0001" sample_journal).2 = inr (GATEWAY_IDEMPOTENCY_MISS, 0)) as E by (vm_compute; reflexivity).
    rewrite <- E. exact (surjective_pairing _).
  - eapply mw_claim; [apply mw_refl|apply sample_request_ok|exact (surjective_pairing (claim_step "request-0002" st1))].
  - exact (surjective_pairing last).
  - apply H. vm_compute. reflexivity.
Defined.
