(* ===== verification/SmsService.v ===== *)
(** * The message service (components/sms_service/sms_service.c)

    Incoming PDUs are stored before the modem's copy is deleted, long messages
    are put together from their stored parts, outgoing messages are sent one
    segment at a time.

    The platform is the [environment]: the modem's AT engine, the readiness
    callback, the allocator, the tick counter and the random numbers.  Each
    answer may depend on everything that happened before, which [sv_trace]
    records, the newest effect first, with the store as it was at that moment.
    A local variable that the code reads only after it is written has no
    initial value here. *)

From Stdlib Require Import Ascii String.
From stdpp Require Import base numbers list strings.
From S2P Require Import Prelude.
From S2P Require Import PduEncode.
From S2P Require Import PduDecode.
From S2P Require Import AtEngine.
From S2P Require Import SmsMessage.
From S2P Require Import Nvs.
From S2P Require Import SmsStore.

Open Scope Z_scope.

Definition SMS_SERVICE_QUEUE_DEPTH : nat := 8.
Definition SMS_SERVICE_AT_TIMEOUT_MS : Z := 10000.
Definition SMS_SERVICE_CMGS_TIMEOUT_MS : Z := 60000.
Definition SMS_SERVICE_SETUP_RETRY_MS : Z := 30000.
Definition SMS_SERVICE_INBOX_POLL_MS : Z := 60000.
Definition SMS_SERVICE_URC_MAX : nat := AT_ENGINE_MAX_URC_LENGTH.

Inductive sms_service_event_t :=
  | SMS_SERVICE_EVENT_RECEIVED
  | SMS_SERVICE_EVENT_PARTIAL_RECEIVED
  | SMS_SERVICE_EVENT_SENT
  | SMS_SERVICE_EVENT_DELIVERED
  | SMS_SERVICE_EVENT_FAILED
  | SMS_SERVICE_EVENT_UNSUPPORTED_RECEIVED
  | SMS_SERVICE_EVENT_UNCERTAIN.

#[global] Instance sms_service_event_eq_dec : EqDecision sms_service_event_t.
Proof. solve_decision. Defined.

(** [service_event_t]: only a URC event carries a line. *)
Inductive service_event_t :=
  | SERVICE_EVENT_MODEM_READY
  | SERVICE_EVENT_MODEM_LOST
  | SERVICE_EVENT_URC (urc : list Z)
  | SERVICE_EVENT_WAKE.

Inductive direct_urc_pending_t := DIRECT_URC_NONE | DIRECT_URC_DELIVER | DIRECT_URC_STATUS_REPORT.

(** The [uint32_t] counters of [sms_service_diagnostics_t]. *)
Inductive service_counter :=
  | C_inbound_pdus | C_inbound_messages | C_inbound_parts | C_duplicate_parts | C_duplicate_messages
  | C_decode_failures | C_unsupported_pdus | C_store_failures | C_outbound_queued
  | C_outbound_segments_sent | C_outbound_uncertain | C_delivery_reports | C_urcs_dropped
  | C_setup_attempts | C_inbox_scans | C_inbox_scan_failures.

#[global] Instance service_counter_eq_dec : EqDecision service_counter.
Proof. solve_decision. Defined.

(** [counts] is the value of each counter; the store's figures are only filled
    in by [sms_service_get_diagnostics]. *)
Record sms_service_diagnostics_t := mk_service_diag {
  sd_initialized : bool;
  sd_modem_ready : bool;
  sd_pdu_mode_configured : bool;
  sd_counts : service_counter -> Z;
  sd_last_cms_error : Z;
  sd_last_error : esp_err_t;
  sd_setup_failed_command : option (list Z);
  sd_setup_failed_result : at_result_t;
  sd_setup_failed_code : Z;
}.

(** ** Messages: the assignments to their fields *)

Definition set_status (s : sms_message_status_t) (m : sms_message_t) : sms_message_t :=
  mk_message (id m) (direction m) s (encoding m) (sender m) (recipient m)
    (service_center_timestamp m) (text m) (raw_pdu m) (concat m) (delivery_report_requested m)
    (concat_reference m) (segment_count m) (segment_sent_mask m) (segment_delivered_mask m)
    (segment_failed_mask m) (modem_reference m) (delivery_status m) (inflight_segment m)
    (send_attempts m) (last_modem_error m).

Definition set_inflight (i : Z) (m : sms_message_t) : sms_message_t :=
  mk_message (id m) (direction m) (status m) (encoding m) (sender m) (recipient m)
    (service_center_timestamp m) (text m) (raw_pdu m) (concat m) (delivery_report_requested m)
    (concat_reference m) (segment_count m) (segment_sent_mask m) (segment_delivered_mask m)
    (segment_failed_mask m) (modem_reference m) (delivery_status m) i
    (send_attempts m) (last_modem_error m).

Definition set_send_attempts (a : Z) (m : sms_message_t) : sms_message_t :=
  mk_message (id m) (direction m) (status m) (encoding m) (sender m) (recipient m)
    (service_center_timestamp m) (text m) (raw_pdu m) (concat m) (delivery_report_requested m)
    (concat_reference m) (segment_count m) (segment_sent_mask m) (segment_delivered_mask m)
    (segment_failed_mask m) (modem_reference m) (delivery_status m) (inflight_segment m)
    a (last_modem_error m).

Definition set_last_modem_error (e : Z) (m : sms_message_t) : sms_message_t :=
  mk_message (id m) (direction m) (status m) (encoding m) (sender m) (recipient m)
    (service_center_timestamp m) (text m) (raw_pdu m) (concat m) (delivery_report_requested m)
    (concat_reference m) (segment_count m) (segment_sent_mask m) (segment_delivered_mask m)
    (segment_failed_mask m) (modem_reference m) (delivery_status m) (inflight_segment m)
    (send_attempts m) e.

(** [modem_reference[index] = reference] and bit [index] of the sent mask. *)
Definition set_sent (index : nat) (reference : Z) (m : sms_message_t) : sms_message_t :=
  mk_message (id m) (direction m) (status m) (encoding m) (sender m) (recipient m)
    (service_center_timestamp m) (text m) (raw_pdu m) (concat m) (delivery_report_requested m)
    (concat_reference m) (segment_count m) (Z.lor (segment_sent_mask m) (u16 (Z.shiftl 1 (Z.of_nat index))))
    (segment_delivered_mask m) (segment_failed_mask m) (<[index := reference]> (modem_reference m))
    (delivery_status m) (inflight_segment m) (send_attempts m) (last_modem_error m).

(** [delivery_status[segment] = status] and the two masks of the reports. *)
Definition set_report (segment : nat) (report : Z) (delivered failed : bool) (m : sms_message_t) : sms_message_t :=
  let bit := u16 (Z.shiftl 1 (Z.of_nat segment)) in
  mk_message (id m) (direction m) (status m) (encoding m) (sender m) (recipient m)
    (service_center_timestamp m) (text m) (raw_pdu m) (concat m) (delivery_report_requested m)
    (concat_reference m) (segment_count m) (segment_sent_mask m)
    (if delivered then Z.lor (segment_delivered_mask m) bit else segment_delivered_mask m)
    (if failed then Z.lor (segment_failed_mask m) bit else segment_failed_mask m)
    (modem_reference m) (<[segment := report]> (delivery_status m)) (inflight_segment m)
    (send_attempts m) (last_modem_error m).

(** The fields of an inbound message. *)
Definition set_content (e : sms_encoding_t) (c : sms_concat_info_t) (scts text0 : list Z) (m : sms_message_t)
  : sms_message_t :=
  mk_message (id m) (direction m) (status m) e (sender m) (recipient m)
    scts text0 (raw_pdu m) c (delivery_report_requested m)
    (concat_reference m) (segment_count m) (segment_sent_mask m) (segment_delivered_mask m)
    (segment_failed_mask m) (modem_reference m) (delivery_status m) (inflight_segment m)
    (send_attempts m) (last_modem_error m).

(** A zeroed message with the fields an inbound one has. *)
Definition inbound_message (s : sms_message_status_t) (e : sms_encoding_t) (sender0 scts text0 pdu0 : list Z)
    (c : sms_concat_info_t) (reference count : Z) : sms_message_t :=
  mk_message 0 SMS_DIRECTION_INBOUND s e sender0 (recipient message_zero) scts text0 pdu0 c false
    reference count 0 0 0 (modem_reference message_zero) (delivery_status message_zero) 0 0 0.

(** [strncpy(dst, src, sizeof(dst) - 1)]: the rest of the copied part is
    filled with zeros, the last character of [dst] stays. *)
Definition strncpy_into (dst src : list Z) : list Z :=
  let n := (length dst - 1)%nat in
  take n (c_str src ++ zeros n) ++ drop n dst.

(** [memcpy(dst + offset, src, length(src))] *)
Definition array_write (dst : list Z) (offset : nat) (src : list Z) : list Z :=
  take offset dst ++ src ++ drop (offset + length src) dst.

(** The bits of [n] segments. *)
Definition all_segments (n : Z) : Z := if 16 <=? n then 0xFFFF else u16 (Z.shiftl 1 n - 1).

(** ** Lines of the modem *)

(** The text from the last [c] on. *)
Fixpoint strrchr (l : list Z) (c : Z) : option (list Z) :=
  match l with
  | [] => None
  | x :: l' => match strrchr l' c with Some r => Some r | None => if x =? c then Some l else None end
  end.

(** When nothing is converted, [end] is the start, and moves over the white
    space that follows. *)
Definition parse_index_urc (line prefix : list Z) : option Z :=
  if negb (bool_decide (take (length prefix) line = prefix)) then None
  else match strrchr line (chr ",") with
       | None => None
       | Some comma =>
           let start := drop 1 comma in
           let '(value, end0) := match strtol start with Some r => r | None => (0, start) end in
           let end0 := skip_while isspace end0 in
           if bool_decide (length end0 = length start) || negb (bool_decide (end0 = []))
              || (value <? 0) || (65535 <? value)
           then None else Some value
       end.

Definition parse_cmgl_index (line : list Z) : option Z :=
  if negb (bool_decide (take 6 line = str "+CMGL:")) then None
  else match strtol (skip_while isspace (drop 6 line)) with
       | None => None
       | Some (value, _) => if (value <? 0) || (65535 <? value) then None else Some value
       end.

(** One line of [parse_cmgs_reference]. *)
Definition cmgs_reference (line : option (list Z)) : option Z :=
  match line with
  | None => None
  | Some line =>
      if negb (bool_decide (take 6 line = str "+CMGS:")) then None
      else match strtol (skip_while isspace (drop 6 line)) with
           | None => None
           | Some (value, _) => if (0 <=? value) && (value <=? 255) then Some value else None
           end
  end.

Fixpoint cmgs_reference_loop (response : at_response_t) (i count : nat) : option Z :=
  match count with
  | O => None
  | S count' =>
      match cmgs_reference (at_response_line (Some response) i) with
      | Some r => Some r
      | None => cmgs_reference_loop response (S i) count'
      end
  end.

Definition parse_cmgs_reference (response : at_response_t) : option Z :=
  cmgs_reference_loop response 0 (length (resp_line_offsets response)).

Definition isxdigit (c : Z) : bool :=
  isdigit c || ((65 <=? c) && (c <=? 70)) || ((97 <=? c) && (c <=? 102)).

Definition is_hex_pdu_line (line : option (list Z)) : bool :=
  match line with
  | None => false
  | Some l =>
      let len := strlen l in
      if (len <? 4)%nat || Nat.odd len then false
      else if negb (forallb isxdigit (c_str l)) then false
      else negb (bool_decide (sms_pdu_type_detect line = SMS_PDU_TYPE_UNKNOWN))
  end.

(** ** State *)

Section Service.

Context {N : Type} `{Nvs N}.

(** What the service did and asked, with the store at that moment.  A request
    that carries a segment says which message and segment that is; only the
    theorems look at it. *)
Inductive effect :=
  | E_ready (answer : bool)
  | E_alloc (ok : bool)
  | E_request (tag : option (Z * nat)) (request : at_request_t) (err : esp_err_t) (response : at_response_t) (st : sms_store N)
  | E_event (event : sms_service_event_t) (message : sms_message_t) (st : sms_store N)
  | E_ticks (now : Z)
  | E_random (value : Z).

(** What the C types say of a response: the array of the line offsets bounds
    their number, the code is an [int]. *)
Definition response_ok (r : at_response_t) : Prop :=
  (length (resp_line_offsets r) <= AT_ENGINE_MAX_RESPONSE_LINES)%nat /\ int32 (resp_error_code r).

(** [env_execute] gets what the caller's [response] holds before the call. *)
Record environment := mk_environment {
  env_ready : list effect -> bool;
  env_alloc : list effect -> bool;
  env_execute : list effect -> at_request_t -> at_response_t -> esp_err_t * at_response_t;
  env_ticks : list effect -> Z;
  env_random : list effect -> Z;
  env_ms_to_ticks : Z -> Z;
  env_response_ok trace request response :
    response_ok response -> response_ok (env_execute trace request response).2;
}.

(** [sv_transport], [sv_event_cb]: the callbacks are not NULL. *)
Record service := mk_service {
  sv_store : sms_store N;
  sv_initialized : bool;
  sv_transport : bool;
  sv_event_cb : bool;
  sv_queue : option (list service_event_t);
  sv_direct_pending : direct_urc_pending_t;
  sv_diagnostics : sms_service_diagnostics_t;
  sv_trace : list effect;
}.

Variable env : environment.

Definition set_store (sv : service) (st : sms_store N) : service :=
  mk_service st (sv_initialized sv) (sv_transport sv) (sv_event_cb sv) (sv_queue sv) (sv_direct_pending sv)
    (sv_diagnostics sv) (sv_trace sv).
Definition set_queue (sv : service) (q : option (list service_event_t)) : service :=
  mk_service (sv_store sv) (sv_initialized sv) (sv_transport sv) (sv_event_cb sv) q (sv_direct_pending sv)
    (sv_diagnostics sv) (sv_trace sv).
Definition set_direct_pending (sv : service) (p : direct_urc_pending_t) : service :=
  mk_service (sv_store sv) (sv_initialized sv) (sv_transport sv) (sv_event_cb sv) (sv_queue sv) p
    (sv_diagnostics sv) (sv_trace sv).
Definition set_diagnostics (sv : service) (d : sms_service_diagnostics_t) : service :=
  mk_service (sv_store sv) (sv_initialized sv) (sv_transport sv) (sv_event_cb sv) (sv_queue sv)
    (sv_direct_pending sv) d (sv_trace sv).
Definition log (e : effect) (sv : service) : service :=
  mk_service (sv_store sv) (sv_initialized sv) (sv_transport sv) (sv_event_cb sv) (sv_queue sv)
    (sv_direct_pending sv) (sv_diagnostics sv) (e :: sv_trace sv).

Definition diag_set_error (err : esp_err_t) (cms_error : Z) (sv : service) : service :=
  let d := sv_diagnostics sv in
  set_diagnostics sv
    (mk_service_diag (sd_initialized d) (sd_modem_ready d) (sd_pdu_mode_configured d) (sd_counts d)
       (if 0 <=? cms_error then cms_error else sd_last_cms_error d) err
       (sd_setup_failed_command d) (sd_setup_failed_result d) (sd_setup_failed_code d)).

Definition count (c : service_counter) (sv : service) : service :=
  let d := sv_diagnostics sv in
  set_diagnostics sv
    (mk_service_diag (sd_initialized d) (sd_modem_ready d) (sd_pdu_mode_configured d)
       (fun c' => if bool_decide (c' = c) then u32 (sd_counts d c' + 1) else sd_counts d c')
       (sd_last_cms_error d) (sd_last_error d)
       (sd_setup_failed_command d) (sd_setup_failed_result d) (sd_setup_failed_code d)).

Definition emit_event (event : sms_service_event_t) (message : sms_message_t) (sv : service) : service :=
  if sv_event_cb sv then log (E_event event message (sv_store sv)) sv else sv.

(** ** The environment's answers *)

(** Whether [calloc] or [malloc] returned memory. *)
Definition allocate (sv : service) : service * bool :=
  let ok := env_alloc env (sv_trace sv) in (log (E_alloc ok) sv, ok).

Definition xTaskGetTickCount (sv : service) : service * Z :=
  let now := u32 (env_ticks env (sv_trace sv)) in (log (E_ticks now) sv, now).

Definition esp_random (sv : service) : service * Z :=
  let r := u32 (env_random env (sv_trace sv)) in (log (E_random r) sv, r).

Definition modem_ready (sv : service) : service * bool :=
  if sv_transport sv then let ready := env_ready env (sv_trace sv) in (log (E_ready ready) sv, ready)
  else (sv, false).

(** The error, and what [*response] holds afterwards. *)
Definition execute (tag : option (Z * nat)) (request : at_request_t) (response : at_response_t) (sv : service)
  : service * esp_err_t * at_response_t :=
  let '(sv, ready) := modem_ready sv in
  if negb ready then (sv, ESP_ERR_INVALID_STATE, response)
  else
    let '(err, response) := env_execute env (sv_trace sv) request response in
    (log (E_request tag request err response (sv_store sv)) sv, err, response).

Definition svc_save (m : sms_message_t) (sv : service) : service * sms_message_t * esp_err_t :=
  let '(st, m, err) := sms_store_save (sv_store sv) m in (set_store sv st, m, err).

Definition svc_delete (i : Z) (sv : service) : service * esp_err_t :=
  let '(st, err) := sms_store_delete (sv_store sv) i in (set_store sv st, err).

(** ** Simple commands *)

Definition simple_request (command0 : list Z) (prefixes : list (list Z)) (timeout : Z) : at_request_t :=
  mk_request (Some command0) (match prefixes with [] => None | _ => Some (List.map Some prefixes) end)
    (length prefixes) timeout 1 0 AT_RETRY_NONE false None 0.

Definition execute_simple (command0 : list Z) (prefixes : list (list Z)) (timeout : Z)
    (response : at_response_t) (sv : service) : service * bool * at_response_t :=
  let '(sv, err, response) := execute None (simple_request command0 prefixes timeout) response sv in
  if bool_decide (err <> ESP_OK) then (diag_set_error err (-1) sv, false, response)
  else if bool_decide (resp_result response <> AT_RESULT_OK) then
    (diag_set_error ESP_FAIL
       (if bool_decide (resp_result response = AT_RESULT_CMS_ERROR) then resp_error_code response else -1) sv,
     false, response)
  else (sv, true, response).

Definition cmgd_request (index : Z) : at_request_t :=
  simple_request (str "AT+CMGD=" ++ decimal index ++ str ",0") [] SMS_SERVICE_AT_TIMEOUT_MS.

(** [at_response_t response = {0};] *)
Definition response_zero : at_response_t := mk_response AT_RESULT_OK 0 0 false [] [] [].

Definition delete_modem_index (index : Z) (sv : service) : service * esp_err_t :=
  let '(sv, ok, _) :=
    execute_simple (str "AT+CMGD=" ++ decimal index ++ str ",0") [] SMS_SERVICE_AT_TIMEOUT_MS response_zero sv in
  (sv, if ok then ESP_OK else ESP_FAIL).

(** ** Incoming messages *)

(** The loop over the parts: [*assembled], the length of its text, and the
    identifiers of the parts found.  [part] is a [uint8_t]. *)
Fixpoint assemble_parts (fuel : nat) (st : sms_store N) (deliver : sms_deliver_t) (part : Z)
    (assembled : sms_message_t) (output_len : nat) (partial_ids : list Z)
  : esp_err_t + sms_message_t * list Z :=
  match fuel with
  | O => inr (assembled, partial_ids)
  | S fuel' =>
      let c := del_concat deliver in
      if negb (part <=? concat_total_parts c) then inr (assembled, partial_ids)
      else
        match sms_store_find_partial st (Some (del_sender deliver)) (PduEncode.concat_reference c)
                (concat_total_parts c) part with
        | inl e => inl e
        | inr partial =>
            let length := bounded_strlen (Some (text partial)) (List.length (text partial)) in
            if (List.length (text partial) <=? length)%nat
               || (List.length (text assembled) <=? output_len + length)%nat
            then inl ESP_ERR_INVALID_SIZE
            else
              let text0 := array_write (text assembled) output_len (take length (text partial) ++ [0]) in
              let scts := if part =? 1
                          then strncpy_into (service_center_timestamp assembled) (service_center_timestamp partial)
                          else service_center_timestamp assembled in
              assemble_parts fuel' st deliver (u8 (part + 1))
                (set_content (encoding assembled) (concat assembled) scts text0 assembled)
                (output_len + length) (partial_ids ++ [id partial])
        end
  end.

(** Delete the parts; a failure is only logged. *)
Definition delete_partials (partial_ids : list Z) (sv : service) : service :=
  fold_left (fun sv i => (svc_delete i sv).1) partial_ids sv.

Definition assembly_start (deliver : sms_deliver_t) : sms_message_t :=
  inbound_message SMS_MESSAGE_RECEIVED (del_encoding deliver)
    (strncpy_into (sender message_zero) (del_sender deliver))
    (strncpy_into (service_center_timestamp message_zero) (del_service_center_timestamp deliver))
    (text message_zero) (raw_pdu message_zero) concat_zero
    (PduEncode.concat_reference (del_concat deliver)) (concat_total_parts (del_concat deliver)).

(** The error or, for [ESP_OK], [*assembled] and [*created]. *)
Definition assemble_with (fuel : nat) (deliver : sms_deliver_t) (sv : service)
  : service * (esp_err_t + sms_message_t * bool) :=
  if negb (concat_present (del_concat deliver)) then (sv, inl ESP_ERR_INVALID_ARG)
  else
    let '(sv, ok) := allocate sv in
    if negb ok then (sv, inl ESP_ERR_NO_MEM)
    else match assemble_parts fuel (sv_store sv) deliver 1 (assembly_start deliver) 0 [] with
         | inl e => (sv, inl e)
         | inr (assembled, partial_ids) =>
             let '(sv, ok) := allocate sv in
             if negb ok then (sv, inl ESP_ERR_NO_MEM)
             else
               let '(sv, result) :=
                 match sms_store_find_inbound_identity (sv_store sv) (Some (sender assembled))
                         (Some (service_center_timestamp assembled)) (encoding assembled)
                         (Some (text assembled)) with
                 | inr existing => (count C_duplicate_messages sv, inr (existing, false))
                 | inl e =>
                     if bool_decide (e = ESP_ERR_NOT_FOUND) then
                       let '(sv, assembled, err) := svc_save assembled sv in
                       (sv, if bool_decide (err = ESP_OK) then inr (assembled, true) else inl err)
                     else (sv, inl e)
                 end in
               match result with
               | inl e => (sv, inl e)
               | inr r => (delete_partials partial_ids sv, inr r)
               end
         end.

(** 256 rounds are more than a [uint8_t] counts. *)
Definition assemble_if_complete : sms_deliver_t -> service -> service * (esp_err_t + sms_message_t * bool) :=
  assemble_with 256.

Definition deliver_record (deliver : sms_deliver_t) : sms_message_t :=
  let present := concat_present (del_concat deliver) in
  inbound_message (if present then SMS_MESSAGE_PARTIAL else SMS_MESSAGE_RECEIVED) (del_encoding deliver)
    (strncpy_into (sender message_zero) (del_sender deliver))
    (strncpy_into (service_center_timestamp message_zero) (del_service_center_timestamp deliver))
    (strncpy_into (text message_zero) (del_text deliver)) (raw_pdu message_zero) (del_concat deliver)
    (PduEncode.concat_reference (del_concat deliver))
    (if present then concat_total_parts (del_concat deliver) else 1).

(** The first half of the branch for a part: the part is stored, or an earlier
    copy of it is found or replaced. *)
Definition persist_part (deliver : sms_deliver_t) (sv : service) : service * (esp_err_t + sms_message_t) :=
  let c := del_concat deliver in
  match sms_store_find_partial (sv_store sv) (Some (del_sender deliver)) (PduEncode.concat_reference c)
          (concat_total_parts c) (concat_part_number c) with
  | inr existing =>
      if streq (text existing) (del_text deliver) then (count C_duplicate_parts sv, inr existing)
      else
        let existing :=
          set_content (del_encoding deliver) c
            (strncpy_into (service_center_timestamp existing) (del_service_center_timestamp deliver))
            (strncpy_into (text existing) (del_text deliver)) existing in
        let '(sv, existing, err) := svc_save existing sv in
        (sv, if bool_decide (err = ESP_OK) then inr existing else inl err)
  | inl e =>
      if bool_decide (e = ESP_ERR_NOT_FOUND) then
        let '(sv, record, err) := svc_save (deliver_record deliver) sv in
        if bool_decide (err = ESP_OK) then (count C_inbound_parts sv, inr record) else (sv, inl err)
      else (sv, inl e)
  end.

Definition persist_single (deliver : sms_deliver_t) (sv : service) : service * esp_err_t :=
  let '(sv, ok) := allocate sv in
  if negb ok then (sv, ESP_ERR_NO_MEM)
  else
    let record := deliver_record deliver in
    match sms_store_find_inbound_identity (sv_store sv) (Some (sender record))
            (Some (service_center_timestamp record)) (encoding record) (Some (text record)) with
    | inr _ => (count C_duplicate_messages sv, ESP_OK)
    | inl e =>
        if bool_decide (e = ESP_ERR_NOT_FOUND) then
          let '(sv, record, err) := svc_save record sv in
          if bool_decide (err = ESP_OK)
          then (emit_event SMS_SERVICE_EVENT_RECEIVED record (count C_inbound_messages sv), ESP_OK)
          else (sv, err)
        else (sv, e)
    end.

(** [*event_message] matters only for the events. *)
Definition persist_deliver (deliver : sms_deliver_t) (sv : service) : service * esp_err_t :=
  let '(sv, ok) := allocate sv in
  if negb ok then (sv, ESP_ERR_NO_MEM)
  else if concat_present (del_concat deliver) then
    let '(sv, ok1) := allocate sv in
    let '(sv, ok2) := allocate sv in
    if negb ok1 || negb ok2 then (sv, ESP_ERR_NO_MEM)
    else
      let '(sv, result) := persist_part deliver sv in
      match result with
      | inl e => (sv, e)
      | inr event_message =>
          let '(sv, assembly) := assemble_if_complete deliver sv in
          match assembly with
          | inr (assembled, created) =>
              (if created then emit_event SMS_SERVICE_EVENT_RECEIVED assembled (count C_inbound_messages sv)
               else sv, ESP_OK)
          | inl e =>
              if bool_decide (e = ESP_ERR_NOT_FOUND)
              then (emit_event SMS_SERVICE_EVENT_PARTIAL_RECEIVED event_message sv, ESP_OK)
              else (sv, e)
          end
      end
  else persist_single deliver sv.

(** What a status report does to its message. *)
Definition apply_report (report : sms_status_report_t) (segment : nat) (m : sms_message_t) : sms_message_t :=
  let m := set_report segment (rep_status report) (rep_delivered report)
             (negb (rep_delivered report) && (0x40 <=? rep_status report)) m in
  let all := all_segments (segment_count m) in
  if Z.land (segment_delivered_mask m) all =? all then set_status SMS_MESSAGE_DELIVERED m
  else if negb (Z.land (segment_failed_mask m) all =? 0) then set_status SMS_MESSAGE_FAILED m
  else m.

Definition process_status_report_pdu (pdu : list Z) (sv : service) : service * esp_err_t :=
  let '(decode, report) := sms_status_report_decode (Some pdu) report_zero in
  if negb (bool_decide (decode = SMS_PDU_DECODE_OK)) then
    (count C_decode_failures sv, ESP_ERR_INVALID_RESPONSE)
  else
    let sv := count C_delivery_reports sv in
    let '(sv, ok) := allocate sv in
    if negb ok then (sv, ESP_ERR_NO_MEM)
    else match sms_store_find_outbound_reference (sv_store sv) (Some (rep_recipient report))
                 (rep_message_reference report) with
         | inl err => (sv, err)
         | inr (message, segment) =>
             let '(sv, message, err) := svc_save (apply_report report segment message) sv in
             (if bool_decide (err = ESP_OK) then
                if bool_decide (status message = SMS_MESSAGE_DELIVERED)
                then emit_event SMS_SERVICE_EVENT_DELIVERED message sv
                else if bool_decide (status message = SMS_MESSAGE_FAILED)
                then emit_event SMS_SERVICE_EVENT_FAILED message sv
                else sv
              else sv, err)
         end.

Definition unsupported_record (pdu : list Z) (deliver : sms_deliver_t) : sms_message_t :=
  inbound_message SMS_MESSAGE_UNSUPPORTED (del_encoding deliver)
    (strncpy_into (sender message_zero) (del_sender deliver))
    (strncpy_into (service_center_timestamp message_zero) (del_service_center_timestamp deliver))
    (text message_zero) (strncpy_into (raw_pdu message_zero) pdu) concat_zero 0 1.

Definition persist_unsupported_deliver (pdu : list Z) (deliver : sms_deliver_t) (sv : service)
  : service * esp_err_t :=
  let '(sv, ok) := allocate sv in
  if negb ok then (sv, ESP_ERR_NO_MEM)
  else match sms_store_find_inbound_raw_pdu (sv_store sv) (Some pdu) with
       | inr _ => (count C_duplicate_messages sv, ESP_OK)
       | inl err =>
           if negb (bool_decide (err = ESP_ERR_NOT_FOUND)) then (sv, err)
           else
             let '(sv, stored, err) := svc_save (unsupported_record pdu deliver) sv in
             (if bool_decide (err = ESP_OK)
              then emit_event SMS_SERVICE_EVENT_UNSUPPORTED_RECEIVED stored (count C_unsupported_pdus sv)
              else sv, err)
       end.

(** The modem's copy goes when the message is stored; a failure to delete it
    is only logged. *)
Definition delete_if (modem_index : Z) (sv : service) : service :=
  if 0 <=? modem_index then (delete_modem_index modem_index sv).1 else sv.

Definition process_deliver_pdu (pdu : list Z) (modem_index : Z) (sv : service) : service * esp_err_t :=
  let '(sv, ok1) := allocate sv in
  let '(sv, ok2) := allocate sv in
  if negb ok1 || negb ok2 then (sv, ESP_ERR_NO_MEM)
  else
    let '(decode, deliver) := sms_deliver_decode (Some pdu) deliver_zero in
    if bool_decide (decode = SMS_PDU_DECODE_UNSUPPORTED)
       && bool_decide (del_encoding deliver = SMS_ENCODING_8BIT) then
      let '(sv, err) := persist_unsupported_deliver pdu deliver (count C_inbound_pdus sv) in
      (if bool_decide (err = ESP_OK) then delete_if modem_index sv else sv, err)
    else if negb (bool_decide (decode = SMS_PDU_DECODE_OK)) then
      (count C_decode_failures sv, ESP_ERR_INVALID_RESPONSE)
    else
      let '(sv, err) := persist_deliver deliver (count C_inbound_pdus sv) in
      if negb (bool_decide (err = ESP_OK)) then (diag_set_error err (-1) (count C_store_failures sv), err)
      else (delete_if modem_index sv, ESP_OK).

Definition process_any_pdu (pdu : list Z) (modem_index : Z) (sv : service) : service * esp_err_t :=
  match sms_pdu_type_detect (Some pdu) with
  | SMS_PDU_TYPE_DELIVER => process_deliver_pdu pdu modem_index sv
  | SMS_PDU_TYPE_STATUS_REPORT =>
      let '(sv, err) := process_status_report_pdu pdu sv in
      (if bool_decide (err = ESP_OK) then delete_if modem_index sv else sv, err)
  | SMS_PDU_TYPE_UNKNOWN => (count C_decode_failures sv, ESP_ERR_NOT_SUPPORTED)
  end.

(** The first line from [i] on that holds a PDU. *)
Fixpoint first_pdu_line (response : at_response_t) (i n : nat) : option (list Z) :=
  match n with
  | O => None
  | S n' =>
      let line := at_response_line (Some response) i in
      if is_hex_pdu_line line then line else first_pdu_line response (S i) n'
  end.

Definition read_modem_index (index : Z) (sv : service) : service * esp_err_t :=
  let '(sv, ok, response) :=
    execute_simple (str "AT+CMGR=" ++ decimal index) [str "+CMGR:"] SMS_SERVICE_AT_TIMEOUT_MS response_zero sv in
  if negb ok then (sv, ESP_FAIL)
  else match first_pdu_line response 0 (length (resp_line_offsets response)) with
       | Some line => process_any_pdu line index sv
       | None => (sv, ESP_ERR_INVALID_RESPONSE)
       end.

(** The lines of one listing from [i] on: how many PDUs were processed. *)
Fixpoint scan_lines (response : at_response_t) (i n : nat) (pending_index : Z) (processed : nat) (sv : service)
  : service * nat :=
  match n with
  | O => (sv, processed)
  | S n' =>
      let line := at_response_line (Some response) i in
      match match line with Some l => parse_cmgl_index l | None => None end with
      | Some index => scan_lines response (S i) n' index processed sv
      | None =>
          match line with
          | Some l =>
              if (0 <=? pending_index) && is_hex_pdu_line line then
                let '(sv, err) := process_any_pdu l pending_index sv in
                scan_lines response (S i) n' (-1)
                  (if bool_decide (err = ESP_OK) then S processed else processed) sv
              else scan_lines response (S i) n' pending_index processed sv
          | None => scan_lines response (S i) n' pending_index processed sv
          end
      end
  end.

Fixpoint scan_batches (batches : nat) (sv : service) : service :=
  match batches with
  | O => sv
  | S batches' =>
      let '(sv, ok, response) := execute_simple (str "AT+CMGL=4") [str "+CMGL:"] 30000 response_zero sv in
      if negb ok then count C_inbox_scan_failures sv
      else
        let '(sv, processed) := scan_lines response 0 (length (resp_line_offsets response)) (-1) 0 sv in
        if (processed =? 0)%nat then sv else scan_batches batches' sv
  end.

Definition scan_stored_messages (sv : service) : service :=
  scan_batches SMS_STORE_MAX_RECORDS (count C_inbox_scans sv).

(** ** Setting up the modem *)

Definition setup_command (command0 : list Z) (sv : service) : service * bool :=
  let '(sv, ok, response) := execute_simple command0 [] SMS_SERVICE_AT_TIMEOUT_MS response_zero sv in
  if ok then (sv, true)
  else
    let d := sv_diagnostics sv in
    (set_diagnostics sv
       (mk_service_diag (sd_initialized d) (sd_modem_ready d) (sd_pdu_mode_configured d) (sd_counts d)
          (sd_last_cms_error d) (sd_last_error d) (Some command0) (resp_result response)
          (resp_error_code response)), false).

Definition cnmi : list (list Z) :=
  [str "AT+CNMI=2,1,0,2,0"; str "AT+CNMI=2,1,0,1,0"; str "AT+CNMI=1,1,0,1,0";
   str "AT+CNMI=2,1,0,0,0"; str "AT+CNMI=1,1,0,0,0"].

Fixpoint setup_first (commands : list (list Z)) (sv : service) : service * bool :=
  match commands with
  | [] => (sv, false)
  | c :: commands' =>
      let '(sv, ok) := setup_command c sv in if ok then (sv, true) else setup_first commands' sv
  end.

Definition configure_pdu_mode (sv : service) : service * bool :=
  let '(sv, ok) := setup_command (str "AT+CMGF=0") (count C_setup_attempts sv) in
  if negb ok then (sv, false)
  else
    let '(sv, indications) := setup_first cnmi sv in
    if negb indications then (sv, false)
    else
      let d := sv_diagnostics sv in
      (scan_stored_messages
         (set_diagnostics sv
            (mk_service_diag (sd_initialized d) (sd_modem_ready d) true (sd_counts d) (-1) ESP_OK None
               (sd_setup_failed_result d) (sd_setup_failed_code d))), true).

(** The tick count is 32 bits wide. *)
Definition poll_inbox_if_due (last_poll : Z) (sv : service) : service * Z :=
  let configured := sd_pdu_mode_configured (sv_diagnostics sv) in
  let '(sv, now) := xTaskGetTickCount sv in
  if negb configured then (sv, last_poll)
  else
    let '(sv, ready) := modem_ready sv in
    if negb ready || (u32 (now - last_poll) <? env_ms_to_ticks env SMS_SERVICE_INBOX_POLL_MS)
    then (sv, last_poll)
    else (scan_stored_messages sv, now).

Definition set_modem_ready (ready configured : bool) (sv : service) : service :=
  let d := sv_diagnostics sv in
  set_diagnostics sv
    (mk_service_diag (sd_initialized d) ready configured (sd_counts d) (sd_last_cms_error d) (sd_last_error d)
       (sd_setup_failed_command d) (sd_setup_failed_result d) (sd_setup_failed_code d)).

Definition retry_pdu_mode_if_needed (last_attempt : Z) (sv : service) : service * Z :=
  let configured := sd_pdu_mode_configured (sv_diagnostics sv) in
  if configured then (sv, last_attempt)
  else
    let '(sv, ready) := modem_ready sv in
    if negb ready then (sv, last_attempt)
    else
      let '(sv, now) := xTaskGetTickCount sv in
      if negb (last_attempt =? 0)
         && (u32 (now - last_attempt) <? env_ms_to_ticks env SMS_SERVICE_SETUP_RETRY_MS)
      then (sv, last_attempt)
      else ((configure_pdu_mode (set_modem_ready true configured sv)).1, now).

(** ** Outgoing messages *)

(** The loop over the stored messages; [None] when the fuel runs out. *)
Fixpoint mark_interrupted_loop (fuel : nat) (after : Z) (sv : service) : option service :=
  match fuel with
  | O => None
  | S fuel' =>
      match sms_store_list (sv_store sv) after 1 with
      | inr (record :: _) =>
          let sv :=
            if bool_decide (direction record = SMS_DIRECTION_OUTBOUND)
               && bool_decide (status record = SMS_MESSAGE_SENDING) then
              let '(sv, record, _) := svc_save (set_status SMS_MESSAGE_UNCERTAIN record) sv in
              emit_event SMS_SERVICE_EVENT_UNCERTAIN record sv
            else sv in
          mark_interrupted_loop fuel' (id record) sv
      | _ => Some sv
      end
  end.

Definition mark_interrupted_sends_uncertain (fuel : nat) (sv : service) : option service :=
  let '(sv, ok) := allocate sv in
  if negb ok then Some (diag_set_error ESP_ERR_NO_MEM (-1) sv) else mark_interrupted_loop fuel 0 sv.

(** The PDU and Ctrl-Z. *)
Definition cmgs_payload (segment : sms_submit_segment_t) : list Z := c_str (pdu_hex segment) ++ [0x1A].

Definition cmgs_request (segment : sms_submit_segment_t) : at_request_t :=
  mk_request (Some (str "AT+CMGS=" ++ decimal (Z.of_nat (tpdu_length_octets segment))))
    (Some [Some (str "+CMGS:")]) 1 SMS_SERVICE_CMGS_TIMEOUT_MS 1 0 AT_RETRY_NONE true
    (Some (cmgs_payload segment)) (length (cmgs_payload segment)).

(** The modem confirmed the segment. *)
Definition confirmed (err : esp_err_t) (response : at_response_t) : option Z :=
  if bool_decide (err <> ESP_OK) || bool_decide (resp_result response <> AT_RESULT_OK) then None
  else parse_cmgs_reference response.

Definition send_segment (message : sms_message_t) (segment : sms_submit_segment_t) (index : nat) (sv : service)
  : service * sms_message_t * esp_err_t :=
  if segment_count message <=? Z.of_nat index then (sv, message, ESP_ERR_INVALID_ARG)
  else
    let message :=
      set_send_attempts (u8 (send_attempts message + 1))
        (set_inflight (u8 (Z.of_nat index + 1)) (set_status SMS_MESSAGE_SENDING message)) in
    let '(sv, message, err) := svc_save message sv in
    if bool_decide (err <> ESP_OK) then (sv, message, err)
    else
      let '(sv, ok) := allocate sv in
      if negb ok then
        let '(sv, message, _) := svc_save (set_inflight 0 (set_status SMS_MESSAGE_QUEUED message)) sv in
        (sv, message, ESP_ERR_NO_MEM)
      else
        let '(sv, err, response) := execute (Some (id message, index)) (cmgs_request segment) response_zero sv in
        match confirmed err response with
        | None =>
            let message :=
              set_last_modem_error (if bool_decide (err = ESP_OK) then resp_error_code response else -1)
                (set_status SMS_MESSAGE_UNCERTAIN message) in
            let '(sv, message, _) := svc_save message sv in
            let sv := diag_set_error (if bool_decide (err = ESP_OK) then ESP_FAIL else err)
                        (if bool_decide (err = ESP_OK) && bool_decide (resp_result response = AT_RESULT_CMS_ERROR)
                         then resp_error_code response else -1) (count C_outbound_uncertain sv) in
            (emit_event SMS_SERVICE_EVENT_UNCERTAIN message sv, message,
             if bool_decide (err = ESP_OK) then ESP_FAIL else err)
        | Some modem_reference =>
            let message := set_last_modem_error 0 (set_inflight 0 (set_sent index modem_reference message)) in
            let '(sv, message, err) := svc_save message sv in
            (if bool_decide (err = ESP_OK) then count C_outbound_segments_sent sv else sv, message, err)
        end.

(** The loop over the segments from [i] on; [false] when it ends early. *)
Fixpoint send_segments (message : sms_message_t) (segments : list sms_submit_segment_t) (i : nat) (sv : service)
  : service * sms_message_t * bool :=
  match segments with
  | [] => (sv, message, true)
  | segment :: segments' =>
      if Z.testbit (segment_sent_mask message) (Z.of_nat i) then send_segments message segments' (S i) sv
      else
        let '(sv, message, err) := send_segment message segment i sv in
        if bool_decide (err = ESP_OK) then send_segments message segments' (S i) sv
        else (sv, message, false)
  end.

(** The segments a stored message is encoded to. *)
Definition stored_encode (message : sms_message_t) : option (list sms_submit_segment_t) :=
  let capacity := if (1 <=? segment_count message) && (segment_count message <=? Z.of_nat SMS_MAX_SEGMENTS)
                  then Z.to_nat (segment_count message) else SMS_MAX_SEGMENTS in
  match sms_submit_encode (Some (c_str (recipient message))) (Some (c_str (text message)))
          (delivery_report_requested message) (concat_reference message) capacity with
  | Some segments =>
      if (length segments =? 0)%nat || negb (Z.of_nat (length segments) =? segment_count message) then None
      else Some segments
  | None => None
  end.

Definition process_one_outbound (sv : service) : service :=
  let pdu_ready := sd_pdu_mode_configured (sv_diagnostics sv) in
  let '(sv, ready) := modem_ready sv in
  if negb ready || negb pdu_ready then sv
  else
    let '(sv, ok) := allocate sv in
    if negb ok then diag_set_error ESP_ERR_NO_MEM (-1) sv
    else match sms_store_find_status (sv_store sv) SMS_MESSAGE_QUEUED with
         | inl _ => sv
         | inr message =>
             let '(sv, ok) := allocate sv in
             if negb ok then diag_set_error ESP_ERR_NO_MEM (-1) sv
             else match stored_encode message with
                  | None =>
                      let '(sv, message, _) :=
                        svc_save (set_last_modem_error (-1) (set_status SMS_MESSAGE_FAILED message)) sv in
                      emit_event SMS_SERVICE_EVENT_FAILED message sv
                  | Some segments =>
                      let '(sv, message, done) := send_segments message segments 0 sv in
                      if negb done then sv
                      else
                        let all := all_segments (Z.of_nat (length segments)) in
                        if Z.land (segment_sent_mask message) all =? all then
                          let '(sv, message, err) :=
                            svc_save (set_inflight 0 (set_status SMS_MESSAGE_SENT message)) sv in
                          if bool_decide (err = ESP_OK) then emit_event SMS_SERVICE_EVENT_SENT message sv else sv
                        else sv
                  end
         end.

(** ** The task *)

Definition handle_urc_line (line : list Z) (sv : service) : service :=
  match sv_direct_pending sv with
  | DIRECT_URC_NONE =>
      if bool_decide (take 5 line = str "+CMT:") then set_direct_pending sv DIRECT_URC_DELIVER
      else if bool_decide (take 5 line = str "+CDS:") then set_direct_pending sv DIRECT_URC_STATUS_REPORT
      else match (match parse_index_urc line (str "+CMTI:") with
                  | Some i => Some i
                  | None => parse_index_urc line (str "+CDSI:")
                  end) with
           | Some index => (read_modem_index index sv).1
           | None => sv
           end
  | pending =>
      let sv := set_direct_pending sv DIRECT_URC_NONE in
      if is_hex_pdu_line (Some line) then
        match pending with
        | DIRECT_URC_DELIVER => (process_deliver_pdu line (-1) sv).1
        | _ => (process_status_report_pdu line sv).1
        end
      else count C_decode_failures sv
  end.

(** One turn of [service_task], with [last_setup] and [last_poll]; the queue
    may be empty when the wait ends. *)
Definition handle_event (event : service_event_t) (sv : service) (last_setup last_poll : Z)
  : service * Z * Z :=
  match event with
  | SERVICE_EVENT_MODEM_READY =>
      let '(sv, now) := xTaskGetTickCount (set_modem_ready true false sv) in
      ((configure_pdu_mode sv).1, now, now)
  | SERVICE_EVENT_MODEM_LOST =>
      (set_modem_ready false false (set_direct_pending sv DIRECT_URC_NONE), last_setup, last_poll)
  | SERVICE_EVENT_URC urc => (handle_urc_line urc sv, last_setup, last_poll)
  | SERVICE_EVENT_WAKE => (sv, last_setup, last_poll)
  end.

Definition service_turn (sv : service) (last_setup last_poll : Z) : service * Z * Z :=
  let '(sv, last_setup, last_poll) :=
    match sv_queue sv with
    | Some (event :: queue) => handle_event event (set_queue sv (Some queue)) last_setup last_poll
    | _ => (sv, last_setup, last_poll)
    end in
  let '(sv, last_setup) := retry_pdu_mode_if_needed last_setup sv in
  let sv := process_one_outbound sv in
  let '(sv, last_poll) := poll_inbox_if_due last_poll sv in
  (sv, last_setup, last_poll).

(** ** Operations of the other tasks *)

Definition service_diag_zero : sms_service_diagnostics_t :=
  mk_service_diag false false false (fun _ => 0) (-1) ESP_OK None AT_RESULT_OK 0.

(** The arguments of [sms_store_init] come first; [queue_created] and
    [task_created] say whether FreeRTOS had the memory. *)
Definition sms_service_init (flash_init open : esp_err_t) (handle : N) (mutex_created : bool)
    (transport_valid event_cb queue_created task_created : bool) (sv : service) : service * esp_err_t :=
  if sv_initialized sv then (sv, ESP_ERR_INVALID_STATE)
  else if negb transport_valid then (sv, ESP_ERR_INVALID_ARG)
  else
    let '(st, err) := sms_store_init (sv_store sv) flash_init open handle mutex_created in
    if bool_decide (err <> ESP_OK) then (set_store sv st, err)
    else if negb queue_created then
      (mk_service st false true event_cb None DIRECT_URC_NONE service_diag_zero (sv_trace sv), ESP_ERR_NO_MEM)
    else if negb task_created then
      (mk_service st false true event_cb None DIRECT_URC_NONE service_diag_zero (sv_trace sv), ESP_ERR_NO_MEM)
    else
      let d := service_diag_zero in
      (mk_service st true true event_cb (Some []) DIRECT_URC_NONE
         (mk_service_diag true (sd_modem_ready d) (sd_pdu_mode_configured d) (sd_counts d) (sd_last_cms_error d)
            (sd_last_error d) (sd_setup_failed_command d) (sd_setup_failed_result d) (sd_setup_failed_code d))
         (sv_trace sv), ESP_OK).

(** [xQueueSend] without waiting, and the count of the events dropped. *)
Definition queue_event (event : service_event_t) (sv : service) : service :=
  match sv_queue sv with
  | None => sv
  | Some q =>
      if negb (sv_initialized sv) then sv
      else if (length q <? SMS_SERVICE_QUEUE_DEPTH)%nat then set_queue sv (Some (q ++ [event]))
      else count C_urcs_dropped sv
  end.

Definition sms_service_notify_modem_ready (sv : service) : service := queue_event SERVICE_EVENT_MODEM_READY sv.
Definition sms_service_notify_modem_lost (sv : service) : service := queue_event SERVICE_EVENT_MODEM_LOST sv.

Definition sms_service_handle_urc (line : option (list Z)) (sv : service) : service :=
  match line with
  | None => sv
  | Some l =>
      if negb (sv_initialized sv) || match sv_queue sv with None => true | Some _ => false end then sv
      else if (SMS_SERVICE_URC_MAX <=? bounded_strlen line SMS_SERVICE_URC_MAX)%nat then count C_urcs_dropped sv
      else queue_event (SERVICE_EVENT_URC (c_str l)) sv
  end.

(** The record of an accepted message. *)
Definition queued_message (recipient0 utf8_text : list Z) (report : bool) (reference : Z)
    (segments : list sms_submit_segment_t) : sms_message_t :=
  mk_message 0 SMS_DIRECTION_OUTBOUND SMS_MESSAGE_QUEUED
    (match segments with s :: _ => seg_encoding s | [] => SMS_ENCODING_UNKNOWN end)
    (sender message_zero) (strncpy_into (recipient message_zero) recipient0)
    (service_center_timestamp message_zero) (strncpy_into (text message_zero) utf8_text)
    (raw_pdu message_zero) concat_zero report reference (u8 (Z.of_nat (length segments))) 0 0 0
    (replicate SMS_MAX_SEGMENTS 0xFF) (replicate SMS_MAX_SEGMENTS 0xFF) 0 0 0.

(** The error, or [*message_id]. *)
Definition sms_service_send (recipient0 utf8_text : option (list Z)) (report : bool) (sv : service)
  : service * (esp_err_t + Z) :=
  match recipient0, utf8_text with
  | Some r, Some t =>
      if negb (sv_initialized sv) then (sv, inl ESP_ERR_INVALID_ARG)
      else if (SMS_MESSAGE_TEXT_MAX <=? bounded_strlen utf8_text SMS_MESSAGE_TEXT_MAX)%nat
      then (sv, inl ESP_ERR_INVALID_SIZE)
      else
        let '(sv, ok) := allocate sv in
        if negb ok then (sv, inl ESP_ERR_NO_MEM)
        else
          let '(sv, random) := esp_random sv in
          let reference := if u16 random =? 0 then 1 else u16 random in
          match sms_submit_encode recipient0 utf8_text report reference SMS_MAX_SEGMENTS with
          | None => (sv, inl ESP_ERR_INVALID_ARG)
          | Some segments =>
              if (length segments =? 0)%nat || (SMS_MAX_SEGMENTS <? length segments)%nat
              then (sv, inl ESP_ERR_INVALID_ARG)
              else
                let '(sv, ok) := allocate sv in
                if negb ok then (sv, inl ESP_ERR_NO_MEM)
                else
                  let '(sv, message, err) := svc_save (queued_message r t report reference segments) sv in
                  if bool_decide (err = ESP_OK)
                  then (queue_event SERVICE_EVENT_WAKE (count C_outbound_queued sv), inr (id message))
                  else (sv, inl err)
          end
  | _, _ => (sv, inl ESP_ERR_INVALID_ARG)
  end.

Definition sms_service_get (i : Z) (sv : service) : esp_err_t + sms_message_t := sms_store_get (sv_store sv) i.

Definition sms_service_list (after_id : Z) (max_records : nat) (sv : service) : esp_err_t + list sms_message_t :=
  sms_store_list (sv_store sv) after_id max_records.

Definition sms_service_delete (i : Z) (sv : service) : service * esp_err_t :=
  let '(sv, ok) := allocate sv in
  if negb ok then (sv, ESP_ERR_NO_MEM)
  else match sms_store_get (sv_store sv) i with
       | inl e => (sv, e)
       | inr m =>
           if bool_decide (direction m = SMS_DIRECTION_OUTBOUND)
              && (bool_decide (status m = SMS_MESSAGE_QUEUED) || bool_decide (status m = SMS_MESSAGE_SENDING))
           then (sv, ESP_ERR_INVALID_STATE)
           else svc_delete i sv
       end.

Definition sms_service_retry_uncertain (i : Z) (sv : service) : service * esp_err_t :=
  let '(sv, ok) := allocate sv in
  if negb ok then (sv, ESP_ERR_NO_MEM)
  else match sms_store_get (sv_store sv) i with
       | inl e => (sv, e)
       | inr m =>
           if negb (bool_decide (direction m = SMS_DIRECTION_OUTBOUND))
              || negb (bool_decide (status m = SMS_MESSAGE_UNCERTAIN))
           then (sv, ESP_ERR_INVALID_STATE)
           else
             let '(sv, _, err) := svc_save (set_inflight 0 (set_status SMS_MESSAGE_QUEUED m)) sv in
             (if bool_decide (err = ESP_OK) then queue_event SERVICE_EVENT_WAKE sv else sv, err)
       end.

(** The service's figures, and the store's when they can be read. *)
Definition sms_service_get_diagnostics (sv : service)
  : esp_err_t + sms_service_diagnostics_t * option sms_store_diagnostics_t :=
  if negb (sv_initialized sv) then inl ESP_ERR_INVALID_ARG
  else inr (sv_diagnostics sv,
            match sms_store_get_diagnostics (sv_store sv) with inr d => Some d | inl _ => None end).

Definition sms_service_set_event_replay_watermark (protection_enabled : bool) (watermark : Z) (sv : service)
  : service :=
  set_store sv (sms_store_set_replay_watermark (sv_store sv) protection_enabled watermark).

End Service.
