(* ===== verification/SmsServiceFacts.v ===== *)
(** * How the service changes the store

    [evolves]: what every operation of the service guarantees.  The store stays
    well formed, records with identifiers handed out before only move forward
    ([record_step]), and each new effect satisfies a predicate.  The relation
    composes, so the operations inherit it from their steps. *)

From Stdlib Require Import ZifyBool ZifyNat.
From stdpp Require Import base numbers list strings gmap.
From S2P Require Import Prelude.
From S2P Require Import PduEncode.
From S2P Require Import PduDecode.
From S2P Require Import AtEngine.
From S2P Require Import SmsMessage.
From S2P Require Import Nvs.
From S2P Require Import SmsStore.
From S2P Require Import SmsStoreFacts.
From S2P Require Import SmsStoreSpec.
From S2P Require Import SmsService.

Open Scope Z_scope.

(** ** Messages *)

Lemma lor_range n a b : 0 <= n -> 0 <= a < 2 ^ n -> 0 <= b < 2 ^ n -> 0 <= Z.lor a b < 2 ^ n.
Proof.
  intros Hn Ha Hb. assert (Z.lor a b = Z.lor a b mod 2 ^ n) as ->.
  { by rewrite <- Z.land_ones, Z.land_lor_distr_l, !Z.land_ones, !Z.mod_small by lia. }
  apply Z.mod_pos_bound. lia.
Qed.

Lemma lor_uint16 a b : uint16 a -> uint16 (Z.lor a (u16 b)).
Proof.
  intros Ha. apply (lor_range 16); [lia|exact Ha|]. unfold u16. apply Z.mod_pos_bound. lia.
Qed.

Lemma bytes_insert l i b : bytes l -> is_byte b -> bytes (<[i := b]> l).
Proof. intros Hl Hb. by apply Forall_insert. Qed.

Lemma bytes_zeros n : bytes (zeros n).
Proof. apply Forall_replicate. unfold is_byte. lia. Qed.

Lemma u8_uint8 z : uint8 (u8 z).
Proof. unfold uint8, u8. apply Z.mod_pos_bound. lia. Qed.

(** A message that keeps its identifier, and can be saved as before. *)
Ltac message_setter :=
  intros; match goal with H : writable _ |- _ => destruct H as ([] & ? & ?) end;
  destruct_and?; split; [constructor|split; [assumption|assumption]];
  cbn [id sender recipient service_center_timestamp text raw_pdu concat concat_reference segment_count
       segment_sent_mask segment_delivered_mask segment_failed_mask modem_reference delivery_status
       inflight_segment send_attempts last_modem_error set_status set_inflight set_send_attempts
       set_last_modem_error set_sent set_report]; try assumption; try (by split_and!).

Lemma writable_status s m : writable m -> writable (set_status s m).
Proof. message_setter. Qed.
Lemma writable_inflight i m : writable m -> uint8 i -> writable (set_inflight i m).
Proof. message_setter. Qed.
Lemma writable_attempts a m : writable m -> uint8 a -> writable (set_send_attempts a m).
Proof. message_setter. Qed.
Lemma writable_error e m : writable m -> int32 e -> writable (set_last_modem_error e m).
Proof. message_setter. Qed.

Lemma writable_sent i r m : writable m -> is_byte r -> writable (set_sent i r m).
Proof.
  message_setter.
  - split_and!; [by apply lor_uint16|done..].
  - by rewrite length_insert; split; [|apply bytes_insert].
Qed.

Lemma writable_report i s d f m : writable m -> is_byte s -> writable (set_report i s d f m).
Proof.
  message_setter.
  - split_and!; [done|destruct d; [by apply lor_uint16|done]|destruct f; [by apply lor_uint16|done]].
  - by rewrite length_insert; split; [|apply bytes_insert].
Qed.

#[export] Hint Resolve writable_status writable_inflight writable_attempts writable_error writable_sent
  writable_report u8_uint8 : gw.

(** ** Steps of a record *)

(** The fields the segments of a message are made from. *)
Definition same_payload (m m' : sms_message_t) : Prop :=
  recipient m' = recipient m /\ text m' = text m /\
  delivery_report_requested m' = delivery_report_requested m /\
  concat_reference m' = concat_reference m /\ segment_count m' = segment_count m.

(** The fields that a received message is reported with. *)
Definition same_content (m m' : sms_message_t) : Prop :=
  sender m' = sender m /\ text m' = text m /\ service_center_timestamp m' = service_center_timestamp m.

(** A record moves forward: what was sent stays marked as sent, an outbound
    message keeps its payload and a received one its content, and nothing
    becomes queued again or a received message. *)
Record record_step (m m' : sms_message_t) : Prop := {
  rs_id : id m' = id m;
  rs_direction : direction m' = direction m;
  rs_queued : status m' = SMS_MESSAGE_QUEUED -> status m = SMS_MESSAGE_QUEUED;
  rs_received : status m' = SMS_MESSAGE_RECEIVED -> status m = SMS_MESSAGE_RECEIVED /\ same_content m m';
  rs_sent j : Z.testbit (segment_sent_mask m) j = true -> Z.testbit (segment_sent_mask m') j = true;
  rs_payload : direction m = SMS_DIRECTION_OUTBOUND -> same_payload m m';
}.

#[export] Instance record_step_preorder : PreOrder record_step.
Proof.
  split.
  - intros m. by split; auto.
  - intros m1 m2 m3 [] []. unfold same_payload, same_content in *. split; try congruence; auto.
    + intros E. destruct (rs_received1 E) as [E' (? & ? & ?)]. destruct (rs_received0 E') as [? (? & ? & ?)].
      unfold same_content. split_and!; congruence.
    + intros E. unfold same_payload. destruct rs_payload0 as (? & ? & ? & ? & ?); [done|].
      destruct rs_payload1 as (? & ? & ? & ? & ?); [congruence|]. split_and!; congruence.
Qed.

Lemma record_step_status s m :
  s <> SMS_MESSAGE_QUEUED -> s <> SMS_MESSAGE_RECEIVED -> record_step m (set_status s m).
Proof. intros. by split; try done. Qed.
Lemma record_step_inflight i m : record_step m (set_inflight i m).
Proof. by split; try done. Qed.
Lemma record_step_attempts a m : record_step m (set_send_attempts a m).
Proof. by split; try done. Qed.
Lemma record_step_error e m : record_step m (set_last_modem_error e m).
Proof. by split; try done. Qed.
Lemma record_step_sent i r m : record_step m (set_sent i r m).
Proof. split; try done. intros j Hj. cbn [segment_sent_mask set_sent]. by rewrite Z.lor_spec, Hj. Qed.
Lemma record_step_report i s d f m : record_step m (set_report i s d f m).
Proof. by split; try done. Qed.

#[export] Hint Resolve record_step_status record_step_inflight record_step_attempts record_step_error
  record_step_sent record_step_report : gw.

(** ** The relation *)

#[global] Opaque records next_of.

Section Facts.

Context {N : Type} `{NvsLaws N}.

Abbreviation service := (@service N).
Abbreviation effect := (@effect N).

Definition recs (sv : service) : gmap Z sms_message_t := records (s_handle (sv_store sv)).
Definition next (sv : service) : Z := next_of (s_handle (sv_store sv)).
Definition inv (sv : service) : Prop := store_inv (sv_store sv).

(** At most [n] identifiers are used up. *)
Record evolution (P : effect -> Prop) (n : Z) (sv sv' : service) : Prop := {
  ev_inv : inv sv';
  ev_next : next sv <= next sv' <= next sv + n;
  ev_records k m' : k < next sv -> recs sv' !! k = Some m' -> exists m, recs sv !! k = Some m /\ record_step m m';
  ev_trace : exists es, sv_trace sv' = es ++ sv_trace sv /\ Forall P es;
}.

(** There are identifiers left for it. *)
Definition evolves (P : effect -> Prop) (n : Z) (sv sv' : service) : Prop :=
  inv sv -> next sv + n <= UINT32_MAX -> evolution P n sv sv'.

Lemma evolves_same P sv sv' es :
  sv_store sv' = sv_store sv -> sv_trace sv' = es ++ sv_trace sv -> Forall P es -> evolves P 0 sv sv'.
Proof.
  intros Es Et HP Hinv Hn. unfold inv, next, recs in *. split; unfold inv, next, recs; rewrite ?Es.
  - done.
  - lia.
  - intros k m' _ Hm. by exists m'.
  - by exists es.
Qed.

Lemma evolves_refl P sv : evolves P 0 sv sv.
Proof. by apply (evolves_same _ _ _ []). Qed.

Lemma evolves_trans P n m sv1 sv2 sv3 :
  0 <= n -> 0 <= m -> evolves P n sv1 sv2 -> evolves P m sv2 sv3 -> evolves P (n + m) sv1 sv3.
Proof.
  intros Hn Hm E1 E2 Hinv Hmax. destruct (E1 Hinv ltac:(lia)) as [I1 N1 R1 (es1 & T1 & P1)].
  destruct (E2 I1 ltac:(lia)) as [I2 N2 R2 (es2 & T2 & P2)]. split; [done|lia| |].
  - intros k m3 Hk H3. destruct (R2 k m3 ltac:(lia) H3) as (m2 & Hm2 & S2).
    destruct (R1 k m2 Hk Hm2) as (m1 & Hm1 & S1). exists m1. split; [done|by trans m2].
  - exists (es2 ++ es1). rewrite T2, T1. split; [by rewrite app_assoc|by apply Forall_app].
Qed.

Lemma evolves_weaken (P Q : effect -> Prop) n m sv sv' :
  n <= m -> (forall e, P e -> Q e) -> evolves P n sv sv' -> evolves Q m sv sv'.
Proof.
  intros Hnm HPQ E Hinv Hmax. destruct (E Hinv ltac:(lia)) as [I1 N1 R1 (es & T & HP)].
  split; [done|lia|done|]. exists es. split; [done|]. eapply Forall_impl; eauto.
Qed.

(** In a chain of operations the last ones do not matter to the store. *)
Lemma evolves_then P n sv1 sv2 sv3 :
  0 <= n -> evolves P n sv1 sv2 -> evolves P 0 sv2 sv3 -> evolves P n sv1 sv3.
Proof. intros Hn E1 E2. rewrite <- (Z.add_0_r n). by eapply evolves_trans. Qed.

Lemma evolves_after P n sv1 sv2 sv3 :
  0 <= n -> evolves P 0 sv1 sv2 -> evolves P n sv2 sv3 -> evolves P n sv1 sv3.
Proof. intros Hn E1 E2. rewrite <- (Z.add_0_l n). by eapply evolves_trans. Qed.

(** ** Effects *)

Definition tag_of (e : effect) : option (Z * nat) :=
  match e with E_request tag _ _ _ _ => tag | _ => None end.

(** Events that promise that the message is in the store. *)
Definition durable (event : sms_service_event_t) : bool :=
  match event with
  | SMS_SERVICE_EVENT_FAILED | SMS_SERVICE_EVENT_UNCERTAIN => false
  | _ => true
  end.

(** At the moment of the request the store has the message marked as being
    sent, with this segment in flight and not sent before. *)
Definition in_flight (st : sms_store N) (k : Z) (j : nat) (request : at_request_t) : Prop :=
  exists m segments segment,
    records (s_handle st) !! k = Some m /\ status m = SMS_MESSAGE_SENDING /\ inflight_segment m = Z.of_nat j + 1 /\
    Z.testbit (segment_sent_mask m) (Z.of_nat j) = false /\
    stored_encode m = Some segments /\ segments !! j = Some segment /\ request = cmgs_request segment.

(** Only a tagged request carries a payload. *)
Definition sound (e : effect) : Prop :=
  match e with
  | E_request (Some (k, j)) request _ _ st => in_flight st k j request
  | E_request None request _ _ _ => wait_for_prompt request = false
  | E_event event m st => durable event = true -> records (s_handle st) !! id m = Some m
  | _ => True
  end.

Definition quiet (e : effect) : Prop := sound e /\ tag_of e = None.

(** No request at all. *)
Definition silent (e : effect) : Prop :=
  sound e /\ match e with E_request _ _ _ _ _ => False | _ => True end.

Lemma silent_quiet e : silent e -> quiet e.
Proof. intros [Hs He]. split; [done|]. by destruct e. Qed.

(** Silent operations in front, or behind. *)
Lemma evolves_pre (P : effect -> Prop) n m sv1 sv2 sv3 :
  0 <= n -> 0 <= m -> (forall e, silent e -> P e) -> evolves silent n sv1 sv2 -> evolves P m sv2 sv3 ->
  evolves P (n + m) sv1 sv3.
Proof. intros Hn Hm HP E1 E2. eapply evolves_trans; [done|done| |exact E2]. by eapply evolves_weaken; [| |exact E1]. Qed.

Lemma evolves_post (P : effect -> Prop) n sv1 sv2 sv3 :
  0 <= n -> (forall e, silent e -> P e) -> evolves P n sv1 sv2 -> evolves silent 0 sv2 sv3 -> evolves P n sv1 sv3.
Proof. intros Hn HP E1 E2. eapply evolves_then; [done|exact E1|]. by eapply evolves_weaken; [| |exact E2]. Qed.

Variable env : @environment N.

Lemma log_evolves e sv : silent e -> evolves silent 0 sv (log e sv).
Proof. intros He. apply (evolves_same _ _ _ [e]); [reflexivity..|]. by constructor. Qed.

Lemma allocate_evolves sv sv' ok : allocate env sv = (sv', ok) -> sv_store sv' = sv_store sv /\ evolves silent 0 sv sv'.
Proof. intros [= <- <-]. split; [reflexivity|]. by apply log_evolves. Qed.

Lemma count_evolves c sv : evolves silent 0 sv (count c sv).
Proof. by apply (evolves_same _ _ _ []). Qed.

Lemma diag_evolves e c sv : evolves silent 0 sv (diag_set_error e c sv).
Proof. by apply (evolves_same _ _ _ []). Qed.

Lemma diagnostics_evolves d sv : evolves silent 0 sv (set_diagnostics sv d).
Proof. by apply (evolves_same _ _ _ []). Qed.

Lemma emit_evolves event m sv :
  (durable event = true -> recs sv !! id m = Some m) -> evolves silent 0 sv (emit_event event m sv).
Proof.
  intros Hm. unfold emit_event. destruct (sv_event_cb sv); [|apply evolves_refl].
  apply log_evolves. split; [exact Hm|reflexivity].
Qed.

Lemma emit_store event m (sv : service) : sv_store (emit_event event m sv) = sv_store sv.
Proof. unfold emit_event. by destruct (sv_event_cb sv). Qed.

Lemma ready_evolves sv sv' r : modem_ready env sv = (sv', r) -> sv_store sv' = sv_store sv /\ evolves silent 0 sv sv'.
Proof.
  unfold modem_ready. destruct (sv_transport sv); intros [= <- <-]; (split; [reflexivity|]);
    [by apply log_evolves|apply evolves_refl].
Qed.

Lemma ticks_evolves sv sv' t : xTaskGetTickCount env sv = (sv', t) -> evolves silent 0 sv sv'.
Proof.
  intros [= <- <-]. by apply log_evolves.
Qed.

(** What a request adds to the trace: nothing when the modem is not ready. *)
Lemma execute_cases tag request response sv sv' err response' :
  execute env tag request response sv = (sv', err, response') ->
  sv_store sv' = sv_store sv /\
  exists es, sv_trace sv' = es ++ sv_trace sv /\
    (es = [] /\ err = ESP_ERR_INVALID_STATE \/ (exists b, es = [E_ready b] /\ err = ESP_ERR_INVALID_STATE) \/
     exists b, es = [E_request tag request err response' (sv_store sv); E_ready b]).
Proof.
  unfold execute, modem_ready. destruct (sv_transport sv).
  - destruct (env_ready env (sv_trace sv)) eqn:Er; cbn [negb].
    + destruct (env_execute _ _ _ _) as [e r]. intros [= <- <- <-]. split; [done|].
      eexists [_; _]. split; [done|]. right; right. by exists true.
    + intros [= <- <- <-]. split; [done|]. eexists [_]. split; [done|]. right; left. by exists false.
  - intros [= <- <- <-]. split; [done|]. exists []. split; [done|]. by left.
Qed.

Lemma execute_response tag request response sv sv' err response' :
  response_ok response -> execute env tag request response sv = (sv', err, response') -> response_ok response'.
Proof.
  intros Hr. unfold execute. destruct (modem_ready env sv) as [sv1 []]; cbn [negb].
  - pose proof (env_response_ok env (sv_trace sv1) request response Hr).
    destruct (env_execute _ _ _ _) as [e r]. by intros [= <- <- <-].
  - by intros [= <- <- <-].
Qed.

Lemma response_zero_ok : response_ok response_zero.
Proof. split; [cbn; lia|]. unfold int32. cbn. lia. Qed.

(** The request [r], if any, and the store at that moment. *)
Definition only (r : at_request_t) (st : sms_store N) (e : effect) : Prop :=
  quiet e /\ match e with E_request _ r' _ _ st' => r' = r /\ st' = st | _ => True end.

Lemma silent_only r st e : silent e -> only r st e.
Proof. intros Hs. split; [by apply silent_quiet|]. destruct e; try done. by destruct Hs. Qed.

Lemma simple_evolves command0 prefixes timeout response sv sv' ok response' :
  response_ok response -> execute_simple env command0 prefixes timeout response sv = (sv', ok, response') ->
  sv_store sv' = sv_store sv /\
  evolves (only (simple_request command0 prefixes timeout) (sv_store sv)) 0 sv sv' /\ response_ok response'.
Proof.
  intros Hr. unfold execute_simple.
  destruct (execute _ _ _ _ _) as [[sv1 err] resp] eqn:E.
  pose proof (execute_response _ _ _ _ _ _ _ Hr E) as Hr'.
  destruct (execute_cases _ _ _ _ _ _ _ E) as (Es & es & Et & Hes).
  assert (evolves (only (simple_request command0 prefixes timeout) (sv_store sv)) 0 sv sv1) as E1.
  { apply (evolves_same _ _ _ es Es Et).
    destruct Hes as [[-> _]|[(b & -> & _)|(b & ->)]]; by repeat constructor. }
  case_bool_decide; [|case_bool_decide]; intros [= <- <- <-]; split_and!; try done;
    by eapply evolves_post; [lia|apply silent_only|exact E1|apply diag_evolves].
Qed.

(** ** Saving and deleting *)

Lemma records_writable sv k m : inv sv -> recs sv !! k = Some m -> writable m /\ id m = k /\ k < next sv.
Proof.
  intros [_ Hf] Hm. apply records_lookup in Hm as (i & Hi & <-); [|apply Hf].
  split_and!; [by eapply fo_writable|done|by eapply fo_below].
Qed.

Lemma save_existing_evolves m0 m sv sv' m' err :
  inv sv -> recs sv !! id m = Some m0 -> record_step m0 m -> writable m -> svc_save m sv = (sv', m', err) ->
  evolves silent 0 sv sv' /\ m' = m /\ sv_trace sv' = sv_trace sv /\
  (forall j w, err = ESP_OK -> slots (s_handle (sv_store sv)) !! j = Some (Some w) -> id w = id m ->
     slots (s_handle (sv_store sv')) = <[j := Some m]> (slots (s_handle (sv_store sv)))) /\
  (err = ESP_OK -> recs sv' = <[id m := m]> (recs sv)) /\
  (recs sv' = recs sv \/ recs sv' = <[id m := m]> (recs sv)).
Proof.
  intros Hinv Hm Hstep (Hok & Hid & Hs) E. unfold svc_save in E.
  destruct (sms_store_save (sv_store sv) m) as [[st m1] e] eqn:Es. injection E as <- <- <-.
  destruct (records_writable sv _ _ Hinv Hm) as (_ & _ & Hlt).
  destruct (save_existing_spec _ _ _ _ _ Hinv Hok Hs Hid Hlt Es) as (Hinv' & Hnext & -> & Hslots & Hrec).
  assert (recs (set_store sv st) = recs sv \/ recs (set_store sv st) = <[id m := m]> (recs sv)) as Hrec2.
  { unfold recs in *. cbn [set_store sv_store]. case_bool_decide; [by right|done]. }
  split_and!; try done.
  2: { intros ->. by rewrite bool_decide_eq_true_2 in Hrec. }
  intros _ _. split; [done|unfold next in *; cbn [set_store sv_store]; lia| |by exists []].
  intros k w _ Hw. destruct Hrec2 as [R|R]; rewrite R in Hw; [by exists w|].
  apply lookup_insert_Some in Hw as [(<- & <-)|(_ & Hw)]; [by exists m0|by exists w].
Qed.

Lemma save_new_evolves m sv sv' m' err :
  inv sv -> next sv + 1 <= UINT32_MAX -> message_ok m -> id m = 0 ->
  svc_save m sv = (sv', m', err) ->
  evolves silent 1 sv sv' /\ sv_trace sv' = sv_trace sv /\
  (err = ESP_OK -> m' = set_id m (next sv) /\ recs sv' !! next sv = Some m') /\
  (forall k w, k <> next sv -> recs sv' !! k = Some w -> recs sv !! k = Some w) /\
  (forall k w, recs sv !! k = Some w -> record_prunable (sv_store sv) w = false -> recs sv' !! k = Some w).
Proof.
  intros Hinv Hmax Hok Hid E. destruct (storable m) eqn:Hs.
  2: { assert (sv' = sv /\ err = ESP_ERR_INVALID_ARG) as [-> ->].
       { unfold svc_save, sms_store_save in E. rewrite Hs in E. rewrite (proj1 Hinv) in E. cbn [negb] in E.
         injection E as <- _ <-. by destruct sv. }
       split_and!; [|done..]. eapply evolves_weaken; [|done|apply evolves_refl]. lia. }
  unfold svc_save in E.
  destruct (sms_store_save (sv_store sv) m) as [[st m1] e] eqn:Es. injection E as <- <- <-.
  destruct (save_new_spec _ _ _ _ _ Hinv Hok Hs Hid ltac:(unfold next in *; lia) Es)
    as (Hinv' & Hnext & n1 & Hev & _ & Hfresh & Hrec).
  assert (forall k w, k <> next sv -> records (s_handle st) !! k = Some w -> recs sv !! k = Some w) as Hback.
  { intros k w Hk Hw. assert (records n1 !! k = Some w) as Hw1.
    { case_bool_decide; [destruct Hrec as (_ & _ & Hrec); rewrite Hrec in Hw; by rewrite lookup_insert_ne in Hw|].
      destruct Hrec as [Hrec|Hrec]; rewrite Hrec in Hw; [done|by rewrite lookup_insert_ne in Hw]. }
    unfold recs. destruct Hev as [R|(v & _ & R)]; rewrite R in Hw1; [done|].
    by apply lookup_delete_Some in Hw1 as [_ ?]. }
  split_and!.
  - intros _ _. split; [done|exact Hnext| |by exists []].
    intros k w Hk Hw. exists w. split; [|done]. apply Hback; [lia|exact Hw].
  - done.
  - intros ->. rewrite bool_decide_eq_true_2 in Hrec by done. destruct Hrec as (-> & _ & Hrec).
    split; [done|]. unfold recs. cbn [set_store sv_store]. rewrite Hrec. apply lookup_insert_eq.
  - exact Hback.
  - intros k w Hw Hp. assert (k <> next sv) as Hk.
    { destruct (records_writable sv k w Hinv Hw) as (_ & _ & ?). lia. }
    assert (records n1 !! k = Some w) as Hw1.
    { destruct Hev as [R|(v & (_ & Hv & Hpv & _) & R)]; rewrite R; [done|].
      rewrite lookup_delete_ne; [done|]. intros Ev. unfold recs in Hw. rewrite <- Ev, Hv in Hw. congruence. }
    unfold recs. cbn [set_store sv_store]. case_bool_decide.
    + destruct Hrec as (_ & _ & ->). by rewrite lookup_insert_ne.
    + destruct Hrec as [-> | ->]; [done|by rewrite lookup_insert_ne].
Qed.

Lemma delete_evolves k sv sv' err :
  inv sv -> k <> 0 -> svc_delete k sv = (sv', err) ->
  evolves silent 0 sv sv' /\ sv_trace sv' = sv_trace sv /\
  (forall k' w, k' <> k -> recs sv !! k' = Some w -> recs sv' !! k' = Some w) /\
  (err = ESP_OK -> recs sv' = delete k (recs sv)).
Proof.
  intros Hinv Hk E. unfold svc_delete in E. destruct (sms_store_delete (sv_store sv) k) as [st e] eqn:Ed.
  injection E as <- <-. pose proof (delete_next _ _ _ _ Hinv Ed) as Hnext.
  destruct (delete_spec _ _ _ _ Hinv Hk Ed) as (Hinv' & Hok & _ & Hrec). unfold recs in *. cbn [set_store sv_store].
  split_and!; try done.
  - intros _ _. split; [done|unfold next in *; cbn [set_store sv_store]; lia| |by exists []].
    intros k' w _ Hw. exists w. split; [|done]. unfold recs in *. cbn [set_store sv_store] in Hw.
    destruct Hrec as [R|R]; rewrite R in Hw; [done|]. by apply lookup_delete_Some in Hw as [_ ?].
  - intros k' w Hne Hw. destruct Hrec as [R|R]; rewrite R; [done|]. by rewrite lookup_delete_ne.
Qed.
End Facts.
