(* ===== verification/SmsServiceSample.v ===== *)
(** * Sample services, for the examples

    A service over the flash in memory with one outgoing message, and a modem
    that accepts every command and confirms every segment. *)

From Stdlib Require Import Ascii String.
From Stdlib Require Import ZifyBool ZifyNat.
From stdpp Require Import base numbers list strings gmap.
From S2P Require Import Prelude.
From S2P Require Import PduEncode.
From S2P Require Import AtEngine.
From S2P Require Import SmsMessage.
From S2P Require Import Nvs.
From S2P Require Import SmsStore.
From S2P Require Import SmsStoreFacts.
From S2P Require Import SmsStoreSpec.
From S2P Require Import SmsService.
From S2P Require Import SmsServiceFacts.

Open Scope Z_scope.

(** The answer to every command. *)
Definition sample_response : at_response_t :=
  mk_response AT_RESULT_OK 0 1 false (str "OK") (str "+CMGS: 7" ++ [0]) [0%nat].

Lemma sample_response_ok : response_ok sample_response.
Proof. split; [evaluate|]. unfold int32. cbn. lia. Qed.

Definition sample_env : @environment mem_nvs :=
  mk_environment (fun _ => true) (fun _ => true) (fun _ _ _ => (ESP_OK, sample_response)) (fun _ => 1000)
    (fun _ => 77) (fun ms => ms) (fun _ _ _ _ => sample_response_ok).

Definition sample_diagnostics : sms_service_diagnostics_t :=
  mk_service_diag true true true (fun _ => 0) (-1) ESP_OK None AT_RESULT_OK 0.

Definition sample_service (st : sms_store mem_nvs) : @service mem_nvs :=
  mk_service st true true true (Some []) DIRECT_URC_NONE sample_diagnostics [].

(** An outgoing message of one segment, with the given status. *)
Definition sample_outbound (s : sms_message_status_t) : sms_message_t :=
  set_status s
    (queued_message (str "+491701234") (str "Hello") true 77
       [mk_segment SMS_ENCODING_GSM7 concat_zero 1 1 0 []]).

Lemma sample_outbound_ok s : message_ok (sample_outbound s).
Proof.
  constructor; unfold uint8, uint16, uint32, int32, bytes; cbn [id sender recipient
    service_center_timestamp text raw_pdu concat concat_reference segment_count segment_sent_mask
    segment_delivered_mask segment_failed_mask modem_reference delivery_status inflight_segment
    send_attempts last_modem_error sample_outbound set_status queued_message]; try done; evaluate.
Qed.

(** The service whose store has it. *)
Definition sample_sender (s : sms_message_status_t) : @service mem_nvs :=
  (svc_save (sample_outbound s) (sample_service empty_store)).1.1.

Lemma sample_sender_facts s :
  inv (sample_sender s) /\ next (sample_sender s) <= 2 /\
  recs (sample_sender s) !! 1 = Some (set_id (sample_outbound s) 1).
Proof.
  assert (svc_save (sample_outbound s) (sample_service empty_store) =
    (sample_sender s, (svc_save (sample_outbound s) (sample_service empty_store)).1.2, ESP_OK)) as E.
  { assert ((svc_save (sample_outbound s) (sample_service empty_store)).2 = ESP_OK) as E
      by (destruct s; vm_compute; reflexivity).
    unfold sample_sender. destruct (svc_save _ _) as [[sv m] err]. cbn [fst snd] in *. by subst err. }
  assert (next (sample_service empty_store) = 1) as N0 by (vm_compute; reflexivity).
  assert (inv (sample_service empty_store)) as Hinv0 by exact empty_store_inv.
  destruct (save_new_evolves _ _ _ _ _ Hinv0 ltac:(rewrite N0; unfold UINT32_MAX; lia)
    (sample_outbound_ok s) eq_refl E) as (Hev & _ & Hok & _).
  destruct (Hev Hinv0 ltac:(rewrite N0; unfold UINT32_MAX; lia)) as [Hinv Hnext _ _].
  destruct (Hok eq_refl) as [Em Hm]. rewrite N0 in *. split_and!; [exact Hinv|lia|]. by rewrite Hm, Em.
Qed.
