(* ===== verification/SmsServiceInbound.v ===== *)
(** * Incoming messages

    The strings that [strncpy] and [memcpy] put into a record, the records that
    incoming messages are stored as, and the operations on them as steps of
    [evolves]. *)

From Stdlib Require Import Ascii String.
From Stdlib Require Import ZifyBool ZifyNat.
From stdpp Require Import base numbers list strings gmap.
From S2P Require Import Prelude.
From S2P Require Import PduEncode.
From S2P Require Import PduDecode.
From S2P Require Import PduDecodeFacts.
From S2P Require Import AtEngine.
From S2P Require Import SmsMessage.
From S2P Require Import Nvs.
From S2P Require Import SmsStore.
From S2P Require Import SmsStoreFacts.
From S2P Require Import SmsStoreSpec.
From S2P Require Import SmsService.
From S2P Require Import SmsServiceFacts.
From S2P Require Import SmsServiceSample.

Open Scope Z_scope.

(** ** Strings in arrays *)

Lemma c_str_zero s tail : c_str (c_str s ++ 0 :: tail) = c_str s.
Proof.
  induction s as [|c s IH]; cbn [c_str]; [done|]. destruct (Z.eqb_spec c 0); cbn [app c_str]; [done|].
  rewrite (proj2 (Z.eqb_neq c 0)) by done. by rewrite IH.
Qed.

Lemma terminated_app a b : terminated (a ++ b) = terminated a || terminated b.
Proof. unfold terminated. apply existsb_app. Qed.

Lemma terminated_zero s tail : terminated (s ++ 0 :: tail) = true.
Proof. rewrite terminated_app. cbn. by rewrite orb_true_r. Qed.

(** The array holds the string [s], terminated. *)
Definition holds (field s : list Z) : Prop := exists tail, field = c_str s ++ 0 :: tail.

Lemma holds_c_str field s : holds field s -> c_str field = c_str s.
Proof. intros [tail ->]. apply c_str_zero. Qed.

Lemma holds_terminated field s : holds field s -> terminated field = true.
Proof. intros [tail ->]. apply terminated_zero. Qed.

(** A terminated array is its string, the terminator and the rest. *)
Lemma terminated_holds field : terminated field = true -> holds field field.
Proof.
  unfold holds. induction field as [|c l IH]; [done|]. unfold terminated. cbn [existsb c_str].
  destruct (Z.eqb_spec 0 c) as [<-|Hc]; [by exists l|]. intros H. destruct (IH H) as [tail E].
  rewrite (proj2 (Z.eqb_neq c 0)) by auto. exists tail. cbn [app]. by rewrite <- E.
Qed.

Lemma strncpy_length dst src : (0 < length dst)%nat -> length (strncpy_into dst src) = length dst.
Proof.
  intros H. unfold strncpy_into. rewrite length_app, length_take, length_drop, length_app.
  unfold zeros. rewrite length_replicate. lia.
Qed.

Lemma c_str_bytes s : bytes s -> bytes (c_str s).
Proof. intros H. apply cstring_bytes. by apply c_str_cstring. Qed.

Lemma strncpy_bytes dst src : bytes dst -> bytes src -> bytes (strncpy_into dst src).
Proof.
  intros Hd Hs. apply Forall_app. split; [|by apply Forall_drop]. apply Forall_take, Forall_app.
  split; [by apply c_str_bytes|apply bytes_zeros].
Qed.

(** There is room for the string, or the last character is the terminator. *)
Lemma strncpy_holds dst src :
  (length src + 1 < length dst)%nat \/
  ((length src < length dst)%nat /\ drop (length dst - 1) dst = [0]) ->
  holds (strncpy_into dst src) src.
Proof.
  pose proof (c_str_length src) as Hl. intros H. unfold strncpy_into, holds.
  set (n := (length dst - 1)%nat) in *. rewrite take_app.
  assert (take n (c_str src) = c_str src) as -> by (apply take_ge; lia).
  destruct H as [H|[H ->]].
  - assert (take (n - length (c_str src)) (zeros n) = 0 :: zeros (n - length (c_str src) - 1)) as ->.
    { unfold zeros. rewrite take_replicate.
      replace (Nat.min _ _) with (S (n - length (c_str src) - 1)) by lia. done. }
    eexists. by rewrite <- app_assoc.
  - destruct (n - length (c_str src))%nat eqn:E.
    + exists []. rewrite take_0, app_nil_r. done.
    + unfold zeros. destruct n as [|n']; [lia|]. cbn [take replicate]. eexists. by rewrite <- app_assoc.
Qed.

Lemma strncpy_zeros_holds n src : (length src < n)%nat -> holds (strncpy_into (zeros n) src) src.
Proof.
  intros H. apply strncpy_holds. right. unfold zeros. rewrite length_replicate. split; [done|].
  rewrite drop_replicate. by replace (n - (n - 1))%nat with 1%nat by lia.
Qed.

(** ** Records of incoming messages *)

(** Arrays of the right size that hold strings. *)
Record inbound_ok (sender0 scts text0 pdu0 : list Z) : Prop := {
  in_sender : length sender0 = SMS_MAX_ADDRESS_LENGTH /\ bytes sender0 /\ terminated sender0 = true;
  in_timestamp : length scts = 40%nat /\ bytes scts /\ terminated scts = true;
  in_text : length text0 = SMS_MESSAGE_TEXT_MAX /\ bytes text0 /\ terminated text0 = true;
  in_pdu : length pdu0 = SMS_MAX_PDU_HEX /\ bytes pdu0 /\ terminated pdu0 = true;
}.

Lemma inbound_message_ok s e sender0 scts text0 pdu0 c reference count0 :
  inbound_ok sender0 scts text0 pdu0 -> concat_ok c -> uint16 reference -> uint8 count0 ->
  message_ok (inbound_message s e sender0 scts text0 pdu0 c reference count0).
Proof.
  intros [] (? & ? & ?) ? ?. destruct_and?. pose proof (bytes_zeros SMS_MAX_ADDRESS_LENGTH).
  pose proof (bytes_zeros SMS_MAX_SEGMENTS).
  constructor; cbn [inbound_message id sender recipient service_center_timestamp text raw_pdu concat
    concat_reference segment_count segment_sent_mask segment_delivered_mask segment_failed_mask
    modem_reference delivery_status inflight_segment send_attempts last_modem_error message_zero];
    try done.
  all: unfold uint8, uint16, uint32, int32; try lia; try (by split_and!).
Qed.

Lemma fits_strncpy n s : fits n s -> (0 < n)%nat ->
  length (strncpy_into (zeros n) s) = n /\ bytes (strncpy_into (zeros n) s) /\
  terminated (strncpy_into (zeros n) s) = true.
Proof.
  intros [Hb Hl] Hn. split_and!.
  - rewrite strncpy_length; unfold zeros; rewrite length_replicate; [done|lia].
  - apply strncpy_bytes; [apply bytes_zeros|done].
  - by eapply holds_terminated, strncpy_zeros_holds.
Qed.

Lemma fits_le n m s : (n <= m)%nat -> fits n s -> fits m s.
Proof. intros Hnm [? ?]. split; [done|lia]. Qed.

Lemma zeros_ok n : (0 < n)%nat -> length (zeros n) = n /\ bytes (zeros n) /\ terminated (zeros n) = true.
Proof.
  intros Hn. split_and!; [apply length_replicate|apply bytes_zeros|].
  destruct n; [lia|done].
Qed.

(** The text of a message fits its record. *)
Lemma text_fits s : fits SMS_MAX_TEXT_UTF8 s -> fits SMS_MESSAGE_TEXT_MAX s.
Proof. apply fits_le. unfold SMS_MAX_TEXT_UTF8, SMS_MESSAGE_TEXT_MAX. lia. Qed.

Lemma deliver_record_ok d : deliver_ok d -> message_ok (deliver_record d).
Proof.
  intros [Hs Ht Hx (Hr & Hp & Hq)]. apply inbound_message_ok.
  - split; cbn [message_zero sender service_center_timestamp text raw_pdu].
    + apply fits_strncpy; [done|vm_compute; lia].
    + apply fits_strncpy; [eapply fits_le, Ht|]; lia.
    + apply fits_strncpy; [by apply text_fits|unfold SMS_MESSAGE_TEXT_MAX; lia].
    + apply zeros_ok. vm_compute. lia.
  - done.
  - exact Hr.
  - destruct (concat_present _); [exact Hp|unfold uint8; lia].
Qed.

Lemma assembly_start_ok d : deliver_ok d -> message_ok (assembly_start d).
Proof.
  intros [Hs Ht Hx (Hr & Hp & Hq)]. apply inbound_message_ok.
  - split; cbn [message_zero sender service_center_timestamp text raw_pdu].
    + apply fits_strncpy; [done|vm_compute; lia].
    + apply fits_strncpy; [eapply fits_le, Ht|]; lia.
    + apply zeros_ok. unfold SMS_MESSAGE_TEXT_MAX. lia.
    + apply zeros_ok. vm_compute. lia.
  - apply concat_zero_ok.
  - exact Hr.
  - exact Hp.
Qed.

(** A PDU the decoder reads is no longer than the array for it. *)
Lemma unsupported_record_ok pdu d :
  deliver_ok d -> fits SMS_MAX_PDU_HEX pdu -> message_ok (unsupported_record pdu d).
Proof.
  intros [Hs Ht Hx (Hr & Hp & Hq)] Hpdu. apply inbound_message_ok.
  - split; cbn [message_zero sender service_center_timestamp text raw_pdu].
    + apply fits_strncpy; [done|vm_compute; lia].
    + apply fits_strncpy; [eapply fits_le, Ht|]; lia.
    + apply zeros_ok. unfold SMS_MESSAGE_TEXT_MAX. lia.
    + apply fits_strncpy; [done|vm_compute; lia].
  - apply concat_zero_ok.
  - unfold uint16. lia.
  - unfold uint8. lia.
Qed.

(** The content of a stored part is replaced. *)
Lemma writable_content e c scts text0 m :
  writable m -> concat_ok c -> fits 26 scts -> fits SMS_MAX_TEXT_UTF8 text0 ->
  writable (set_content e c (strncpy_into (service_center_timestamp m) scts)
              (strncpy_into (SmsMessage.text m) text0) m).
Proof.
  intros ([] & Hid & Hs) (Hr & Hp & Hq) Ht Hx. destruct_and?.
  assert (forall n dst s, length dst = n -> fits (n - 1) s -> holds (strncpy_into dst s) s) as Hholds.
  { intros n dst s <- [_ Hl]. apply strncpy_holds. left. lia. }
  assert (0 < SMS_MESSAGE_TEXT_MAX)%nat as Hpos by (unfold SMS_MESSAGE_TEXT_MAX; lia).
  assert (fits (SMS_MESSAGE_TEXT_MAX - 1) text0) as Hx'.
  { eapply fits_le, Hx. unfold SMS_MESSAGE_TEXT_MAX, SMS_MAX_TEXT_UTF8. lia. }
  assert (fits (40 - 1) scts) as Ht' by (eapply fits_le, Ht; lia).
  split; [constructor|split; [done|]]; cbn [id sender recipient service_center_timestamp text raw_pdu concat
    concat_reference segment_count segment_sent_mask segment_delivered_mask segment_failed_mask
    modem_reference delivery_status inflight_segment send_attempts last_modem_error set_content];
    try done; try (by split_and!).
  - rewrite strncpy_length by lia. split; [done|]. apply strncpy_bytes; [done|apply Ht].
  - rewrite strncpy_length by (rewrite ?ok_text; lia). split; [done|]. apply strncpy_bytes; [done|apply Hx].
  - unfold storable in *.
    cbn [text sender recipient service_center_timestamp raw_pdu segment_count set_content]. boolify.
    rewrite !andb_true_iff. split_and!; try done.
    + eapply holds_terminated, (Hholds SMS_MESSAGE_TEXT_MAX); done.
    + eapply holds_terminated, (Hholds 40%nat); done.
    + by apply Z.leb_le.
Qed.

(** ** Putting the parts together *)

Lemma c_str_app a b : c_str a = a -> c_str (a ++ b) = a ++ c_str b.
Proof.
  induction a as [|c a IH]; cbn [app c_str]; [done|]. destruct (c =? 0); [done|].
  intros E. injection E as E. by rewrite IH.
Qed.

Lemma array_write_app acc x tail s :
  (length s <= length tail + 1)%nat ->
  array_write (acc ++ x :: tail) (length acc) s = acc ++ s ++ drop (length s - 1) tail \/ s = [].
Proof.
  intros Hl. destruct s as [|c s]; [by right|left]. unfold array_write. rewrite take_app_length. f_equal. f_equal.
  rewrite <- drop_drop, drop_app_length. cbn [length drop]. f_equal. lia.
Qed.

Section Inbound.

Context {N : Type} `{NvsLaws N}.

Abbreviation service := (@service N).
Abbreviation effect := (@effect N).

Lemma find_partial_spec (st : sms_store N) sender0 reference total part :
  store_inv st ->
  match sms_store_find_partial st (Some sender0) reference total part with
  | inr m => records (s_handle st) !! id m = Some m /\ partial_matches sender0 reference total part m = true /\
      total <> 0 /\ part <> 0
  | inl e => e = ESP_ERR_INVALID_ARG /\ (total = 0 \/ part = 0) \/
      e = ESP_ERR_NOT_FOUND /\ forall k m, records (s_handle st) !! k = Some m ->
        partial_matches sender0 reference total part m = false
  end.
Proof.
  intros [Hinit Hf]. cbn [sms_store_find_partial]. rewrite Hinit. cbn [negb orb].
  destruct (Z.eqb_spec total 0); cbn [orb]; [by left; auto|]. destruct (Z.eqb_spec part 0); [by left; auto|].
  pose proof (find_first_spec st (partial_matches sender0 reference total part) Hf) as F.
  destruct (find_first _ _) as [e|m]; [by right|]. by destruct F.
Qed.

(** The parts of a message, in order. *)
Definition parts_of (st : sms_store N) (d : sms_deliver_t) (first : Z) (parts : list sms_message_t) : Prop :=
  forall i p, parts !! i = Some p ->
    sms_store_find_partial st (Some (del_sender d)) (PduEncode.concat_reference (del_concat d))
      (concat_total_parts (del_concat d)) (first + Z.of_nat i) = inr p.

Definition texts_of (parts : list sms_message_t) : list (list Z) :=
  List.map (fun p => c_str (SmsMessage.text p)) parts.

(** What the loop keeps of [*assembled]. *)
Record assembling (d : sms_deliver_t) (a : sms_message_t) (acc : list Z) : Prop := {
  as_ok : message_ok a;
  as_id : id a = 0;
  as_text : holds (SmsMessage.text a) acc;
  as_acc : c_str acc = acc;
  as_last : drop 39 (service_center_timestamp a) = [0];
  as_status : status a = SMS_MESSAGE_RECEIVED /\ direction a = SMS_DIRECTION_INBOUND;
  as_encoding : encoding a = del_encoding d;
  as_sender : holds (sender a) (del_sender d);
}.

Lemma strncpy_last dst src :
  length dst = 40%nat -> drop 39 dst = [0] -> drop 39 (strncpy_into dst src) = [0].
Proof.
  intros Hl Hd. unfold strncpy_into. rewrite Hl. change (40 - 1)%nat with 39%nat.
  rewrite drop_app_ge; rewrite length_take, length_app; unfold zeros; rewrite length_replicate; [|lia].
  rewrite Nat.min_l by lia. done.
Qed.

Lemma assembling_start d : deliver_ok d -> assembling d (assembly_start d) [].
Proof.
  intros Hd. pose proof Hd as [Hs Ht _ _]. split; try done.
  - by apply assembly_start_ok.
  - exists (zeros (SMS_MESSAGE_TEXT_MAX - 1)). cbn [c_str app assembly_start inbound_message SmsMessage.text message_zero].
    unfold zeros, SMS_MESSAGE_TEXT_MAX. replace (Z.to_nat 4096) with (S (Z.to_nat 4096 - 1)) at 1 by lia. done.
  - by apply strncpy_last.
  - cbn [assembly_start inbound_message sender message_zero]. apply strncpy_zeros_holds, Hs.
Qed.

(** One round of the loop. *)
Lemma assembling_step d a acc p part :
  assembling d a acc -> writable p ->
  (length acc + length (c_str (SmsMessage.text p)) < length (SmsMessage.text a))%nat ->
  let text0 := array_write (SmsMessage.text a) (length acc) (c_str (SmsMessage.text p) ++ [0]) in
  let scts := if part =? 1
              then strncpy_into (service_center_timestamp a) (service_center_timestamp p)
              else service_center_timestamp a in
  assembling d (set_content (encoding a) (concat a) scts text0 a) (acc ++ c_str (SmsMessage.text p)).
Proof.
  intros [Hok Hid [tail Etail] Hacc Hlast Hst Henc Hsnd] (Hp & _ & _) Hl text0 scts.
  set (s := c_str (SmsMessage.text p)) in *.
  rewrite Hacc in Etail. pose proof (f_equal length Etail) as Elen. rewrite length_app in Elen. cbn [length] in Elen.
  assert (text0 = (acc ++ s) ++ 0 :: drop (length s) tail) as Et.
  { unfold text0. rewrite Etail. destruct (array_write_app acc 0 tail (s ++ [0])) as [E|E].
    - rewrite length_app. cbn. lia.
    - rewrite E, length_app. cbn [length]. rewrite Nat.add_sub, <- !app_assoc. done.
    - by apply app_nil in E as [_ ?]. }
  assert (bytes s) as Hs by apply c_str_bytes, (ok_text _ Hp).
  assert (length text0 = length (SmsMessage.text a)) as Htl.
  { rewrite Et, length_app, length_app. cbn [length]. rewrite length_drop. lia. }
  assert (bytes text0) as Htb.
  { pose proof (proj2 (ok_text _ Hok)) as Hb. rewrite Etail in Hb. apply Forall_app in Hb as [Hb1 Hb2].
    apply Forall_cons in Hb2 as [Hz Hb2]. rewrite Et. apply Forall_app. split; [by apply Forall_app|].
    constructor; [done|by apply Forall_drop]. }
  assert (length scts = 40%nat /\ bytes scts /\ drop 39 scts = [0]) as (Hsl & Hsb & Hsd).
  { pose proof (ok_timestamp _ Hok) as [Hl40 Hb40]. unfold scts. destruct (part =? 1); [|by split_and!].
    split_and!; [rewrite strncpy_length; lia|apply strncpy_bytes; [done|apply Hp]|by apply strncpy_last]. }
  split; try done.
  - destruct Hok. constructor; try done. by rewrite <- (proj1 ok_text) in *; split.
  - exists (drop (length s) tail). rewrite c_str_app by done. unfold s. rewrite c_str_idem. exact Et.
  - rewrite c_str_app by done. unfold s. by rewrite c_str_idem.
Qed.

Lemma bounded_strlen_c_str (l : list Z) : bounded_strlen (Some l) (length l) = length (c_str l).
Proof. unfold bounded_strlen, strlen. pose proof (c_str_length l). lia. Qed.

Lemma c_str_take l : take (length (c_str l)) l = c_str l.
Proof.
  induction l as [|c l IH]; cbn [c_str]; [done|]. destruct (c =? 0); [done|]. cbn [length take]. by rewrite IH.
Qed.

(** The loop stops at the first part missing; when it ends, the text is that of
    the parts, in order. *)
Lemma assemble_parts_spec fuel (st : sms_store N) d part a acc ids a' ids' :
  store_inv st -> 1 <= part <= concat_total_parts (del_concat d) + 1 -> concat_total_parts (del_concat d) < 256 ->
  concat_total_parts (del_concat d) + 1 - part < Z.of_nat fuel ->
  assembling d a acc ->
  assemble_parts fuel st d part a (length acc) ids = inr (a', ids') ->
  exists parts, parts_of st d part parts /\
    Z.of_nat (length parts) = concat_total_parts (del_concat d) + 1 - part /\
    ids' = ids ++ map id parts /\ assembling d a' (acc ++ List.concat (texts_of parts)).
Proof.
  intros Hinv. revert part a acc ids. induction fuel as [|fuel IH]; intros part a acc ids Hp Ht Hfuel Ha E; [lia|].
  cbn [assemble_parts] in E. set (total := concat_total_parts (del_concat d)) in *.
  destruct (Z.leb_spec part total); cbn [negb] in E.
  2: { injection E as <- <-. exists []. split; [by intros i p Hi|]. cbn. rewrite !app_nil_r.
       split_and!; [lia|done|done]. }
  destruct (sms_store_find_partial _ _ _ _ _) as [e|p] eqn:Ep; [done|].
  pose proof (find_partial_spec st (del_sender d) (PduEncode.concat_reference (del_concat d)) total part Hinv) as F.
  rewrite Ep in F. destruct F as (Hrec & _ & _ & _).
  assert (writable p) as Hw.
  { apply records_lookup in Hrec as (i & Hi & _); [|apply Hinv]. by eapply fo_writable; [apply Hinv|]. }
  rewrite bounded_strlen_c_str in E. destruct (_ || _) eqn:Eb in E; [done|]. boolify.
  rewrite c_str_take, <- length_app in E.
  pose proof (assembling_step d a acc p part Ha Hw ltac:(lia)) as Ha'. cbv zeta in Ha'.
  assert (u8 (part + 1) = part + 1 \/ u8 (part + 1) = 0 /\ part = 255) as [Eu|[Eu Ep255]] by (unfold u8; Z.div_mod_to_equations; lia).
  - rewrite Eu in E. destruct (IH (part + 1) _ _ _ ltac:(lia) Ht ltac:(lia) Ha' E) as (parts & Hparts & Hlen & -> & Ha2).
    exists (p :: parts). split_and!.
    + intros [|i] q Hi; [injection Hi as <-; by rewrite Z.add_0_r|].
      cbn in Hi. specialize (Hparts i q Hi). rewrite Nat2Z.inj_succ. by replace (part + Z.succ (Z.of_nat i)) with (part + 1 + Z.of_nat i) by lia.
    + cbn [length]. lia.
    + by rewrite <- app_assoc.
    + cbn. by rewrite <- app_assoc in Ha2.
  - rewrite Eu in E. destruct fuel as [|fuel]; [lia|]. cbn [assemble_parts] in E. fold total in E.
    destruct (Z.leb_spec 0 total); [|lia]. cbn [negb] in E.
    pose proof (find_partial_spec st (del_sender d) (PduEncode.concat_reference (del_concat d)) total 0 Hinv) as F.
    destruct (sms_store_find_partial st (Some (del_sender d)) (PduEncode.concat_reference (del_concat d)) total 0);
      [done|]. by destruct F as (_ & _ & _ & ?).
Qed.

(** Deleting the parts leaves everything else. *)
Lemma delete_partials_spec ids (sv : service) :
  inv sv -> Forall (fun i => i <> 0) ids ->
  evolves silent 0 sv (delete_partials ids sv) /\ sv_trace (delete_partials ids sv) = sv_trace sv /\
  inv (delete_partials ids sv) /\
  forall k w, ~ (k ∈ ids) -> recs sv !! k = Some w -> recs (delete_partials ids sv) !! k = Some w.
Proof.
  unfold delete_partials. revert sv. induction ids as [|i ids IH]; intros sv Hinv Hids; cbn [fold_left].
  { split_and!; try done. apply evolves_refl. }
  apply Forall_cons in Hids as [Hi Hids]. destruct (svc_delete i sv) as [sv1 err] eqn:E. cbn [fst].
  destruct (delete_evolves _ _ _ _ Hinv Hi E) as (E1 & T1 & K1 & _).
  assert (inv sv1) as Hinv1 by (apply (ev_inv _ _ _ _ (E1 Hinv ltac:(by pose proof (fo_next _ (proj2 Hinv)); unfold next; lia)))).
  destruct (IH sv1 Hinv1 Hids) as (E2 & T2 & I2 & K2). split_and!.
  - by eapply evolves_then; [lia|exact E1|exact E2].
  - by rewrite T2.
  - done.
  - intros k w Hk Hw. apply K2; [intros Hin; apply Hk; by right|].
    apply K1; [intros ->; apply Hk; by left|done].
Qed.
(** ** Storing *)

Lemma inv_bound (sv : service) : inv sv -> next sv <= UINT32_MAX.
Proof. intros [_ Hf]. apply (fo_next _ Hf). Qed.

Lemma evolves_inv P n (sv sv' : service) : evolves P n sv sv' -> inv sv -> next sv + n <= UINT32_MAX -> inv sv'.
Proof. intros E Hinv Hn. apply (ev_inv _ _ _ _ (E Hinv Hn)). Qed.

Definition find_part (sv : service) (d : sms_deliver_t) : esp_err_t + sms_message_t :=
  sms_store_find_partial (sv_store sv) (Some (del_sender d)) (PduEncode.concat_reference (del_concat d))
    (concat_total_parts (del_concat d)) (concat_part_number (del_concat d)).

(** The search for a part only depends on the records' slots. *)
Lemma find_part_store (sv sv' : service) d : sv_store sv' = sv_store sv -> find_part sv' d = find_part sv d.
Proof. unfold find_part. by intros ->. Qed.

Lemma find_part_first (sv : service) d :
  inv sv -> 1 <= concat_part_number (del_concat d) <= concat_total_parts (del_concat d) ->
  find_part sv d =
    find_first (sv_store sv) (partial_matches (del_sender d) (PduEncode.concat_reference (del_concat d))
      (concat_total_parts (del_concat d)) (concat_part_number (del_concat d))).
Proof.
  intros [Hinit _] Hv. unfold find_part. cbn [sms_store_find_partial]. rewrite Hinit. cbn [negb orb].
  destruct (Z.eqb_spec (concat_total_parts (del_concat d)) 0); [lia|].
  by destruct (Z.eqb_spec (concat_part_number (del_concat d)) 0); [lia|].
Qed.

(** A stored part: found, and not to be pruned. *)
Definition part_stored (sv : service) (d : sms_deliver_t) (m : sms_message_t) : Prop :=
  recs sv !! id m = Some m /\ find_part sv d = inr m /\ c_str (SmsMessage.text m) = c_str (del_text d).

Lemma part_not_prunable sender0 reference total part (st : sms_store N) m :
  partial_matches sender0 reference total part m = true -> record_prunable st m = false.
Proof.
  unfold partial_matches, record_prunable. rewrite !andb_true_iff, bool_decide_eq_true.
  intros [[[[[[_ ->] _] _] _] _] _]. done.
Qed.

Lemma persist_part_spec d (sv sv' : service) r :
  inv sv -> next sv + 1 <= UINT32_MAX -> deliver_ok d -> concat_present (del_concat d) = true ->
  concat_valid (del_concat d) -> persist_part d sv = (sv', r) ->
  evolves silent 1 sv sv' /\ (forall m, r = inr m -> part_stored sv' d m) /\
  (forall k w, recs sv !! k = Some w -> record_prunable (sv_store sv) w = false ->
     (forall m, find_part sv d = inr m -> id m <> k) -> recs sv' !! k = Some w).
Proof.
  intros Hinv Hmax Hd Hpres Hval E. unfold persist_part in E. fold (find_part sv d) in E.
  pose proof (find_partial_spec (sv_store sv) (del_sender d) (PduEncode.concat_reference (del_concat d))
    (concat_total_parts (del_concat d)) (concat_part_number (del_concat d)) Hinv) as F.
  fold (find_part sv d) in F. destruct (find_part sv d) as [e|m0] eqn:Ef.
  - case_bool_decide as He; [|injection E as <- <-; split_and!; [|done..];
      by eapply evolves_weaken; [|done|apply evolves_refl]].
    destruct F as [[-> _]|[_ F]]; [done|].
    destruct (svc_save (deliver_record d) sv) as [[sv1 m1] err] eqn:Es.
    destruct (save_new_evolves _ _ _ _ _ Hinv Hmax (deliver_record_ok d Hd) eq_refl Es) as (E1 & T1 & Hok & Hback & Hkeep).
    case_bool_decide as Herr; injection E as <- <-; split_and!; try done;
      [by eapply evolves_then; [lia|exact E1|apply count_evolves]| |by eauto..].
    intros m [= <-]. destruct (Hok Herr) as [-> Hm].
    assert (inv sv1) as Hinv1 by by eapply evolves_inv.
    set (m1 := set_id (deliver_record d) (next sv)) in *.
    assert (holds (sender m1) (del_sender d)) as Hsnd by (by apply strncpy_zeros_holds, Hd).
    assert (holds (SmsMessage.text m1) (del_text d)) as Htext by (by apply strncpy_zeros_holds, text_fits, Hd).
    pose proof (find_partial_spec (sv_store sv1) (del_sender d) (PduEncode.concat_reference (del_concat d))
      (concat_total_parts (del_concat d)) (concat_part_number (del_concat d)) Hinv1) as F1.
    fold (find_part sv1 d) in F1. unfold part_stored, recs. cbn [count set_diagnostics sv_store].
    fold (recs sv1). rewrite (find_part_store sv1) by done.
    assert (partial_matches (del_sender d) (PduEncode.concat_reference (del_concat d))
      (concat_total_parts (del_concat d)) (concat_part_number (del_concat d)) m1 = true) as Hmatch.
    { unfold partial_matches, is_inbound, streq.
      cbn [direction status concat sender m1 set_id deliver_record inbound_message]. rewrite Hpres.
      rewrite !bool_decide_eq_true_2, !Z.eqb_refl; [done| |done|done]. exact (holds_c_str _ _ Hsnd). }
    split_and!; [exact Hm| |exact (holds_c_str _ _ Htext)].
    destruct (find_part sv1 d) as [e'|m'].
    + exfalso. destruct F1 as [[_ F1]|[_ F1]]; [|by rewrite (F1 _ _ Hm) in Hmatch].
      specialize (Hval Hpres). lia.
    + destruct F1 as (Hm' & Hmatch' & _). f_equal. destruct (decide (id m' = next sv)) as [Ei|Hne].
      * rewrite Ei in Hm'. unfold recs in Hm. rewrite Hm in Hm'. by injection Hm'.
      * rewrite (F _ _ (Hback _ _ Hne Hm')) in Hmatch'. done.
  - destruct F as (Hm0 & Hmatch & _). destruct (streq _ _) eqn:Eq.
    { injection E as <- <-. split_and!; [eapply evolves_weaken; [|done|apply count_evolves]; lia| |done].
      intros m [= <-]. split_and!; [done|by rewrite (find_part_store sv)|by apply bool_decide_eq_true in Eq]. }
    destruct (records_writable sv _ _ Hinv Hm0) as (Hw & _).
    set (m1 := set_content _ _ _ _ m0) in E.
    assert (writable m1) as Hw1 by (apply writable_content; try apply Hd; done).
    assert (record_step m0 m1) as Hstep.
    { unfold partial_matches, is_inbound in Hmatch. rewrite !andb_true_iff, !bool_decide_eq_true in Hmatch.
      destruct Hmatch as [[[[[[Ed Es'] _] _] _] _] _]. split; try done; [intros Er|intros Ed']; cbn in *; congruence. }
    destruct (svc_save m1 sv) as [[sv1 m1'] err] eqn:Es.
    destruct (save_existing_evolves m0 m1 _ _ _ _ Hinv Hm0 Hstep Hw1 Es) as (E1 & -> & T1 & Hslots & Hrec & Hrec2).
    injection E as <- <-. split_and!; [by eapply evolves_weaken; [|done|exact E1]| |].
    + intros m Hm. case_bool_decide as Herr; [|done]. injection Hm as <-.
      assert (inv sv1) as Hinv1 by (eapply evolves_inv; [exact E1|done|lia]).
      split_and!.
      * rewrite (Hrec Herr). apply lookup_insert_eq.
      * rewrite find_part_first in Ef |- * by auto.
        destruct (find_first_replace _ (sv_store sv1) _ _ (proj2 Hinv) (proj2 Hinv1) Ef) as (j & w & Hj & Ew & Hrep).
        apply Hrep; [by eapply Hslots|]. unfold partial_matches, is_inbound in Hmatch |- *.
        rewrite !andb_true_iff in Hmatch. destruct Hmatch as [[[[[[Hd1 Hd2] _] _] _] _] Hd3].
        cbn [m1 set_content direction status concat sender]. by rewrite Hd1, Hd2, Hd3, Hpres, !Z.eqb_refl.
      * apply holds_c_str, strncpy_holds. left. destruct Hw as ([] & _). rewrite (proj1 ok_text).
        pose proof (proj2 (dok_text _ Hd)). unfold SMS_MESSAGE_TEXT_MAX, SMS_MAX_TEXT_UTF8 in *. lia.
    + intros k w Hk _ Hne. specialize (Hne m0 eq_refl). change (id m1) with (id m0) in Hrec2.
      destruct Hrec2 as [-> | ->]; [done|]. by rewrite lookup_insert_ne.
Qed.

(** The message made from the parts is stored. *)
Definition assembled_from (st : sms_store N) (d : sms_deliver_t) (a : sms_message_t) : Prop :=
  exists parts, parts_of st d 1 parts /\ Z.of_nat (length parts) = concat_total_parts (del_concat d) /\
    direction a = SMS_DIRECTION_INBOUND /\ status a = SMS_MESSAGE_RECEIVED /\
    c_str (sender a) = c_str (del_sender d) /\
    c_str (SmsMessage.text a) = List.concat (texts_of parts).

Lemma parts_ids (sv : service) d parts p :
  inv sv -> parts_of (sv_store sv) d 1 parts -> p ∈ parts ->
  recs sv !! id p = Some p /\ status p = SMS_MESSAGE_PARTIAL /\ id p <> 0 /\ id p < next sv.
Proof.
  intros Hinv Hp Hin. apply list_elem_of_lookup in Hin as [i Hi]. specialize (Hp i p Hi).
  pose proof (find_partial_spec (sv_store sv) (del_sender d) (PduEncode.concat_reference (del_concat d))
    (concat_total_parts (del_concat d)) (1 + Z.of_nat i) Hinv) as F. rewrite Hp in F.
  destruct F as (Hrec & Hmatch & _). unfold partial_matches in Hmatch.
  rewrite !andb_true_iff, bool_decide_eq_true in Hmatch. destruct Hmatch as [[[[[[_ Hst] _] _] _] _] _].
  destruct (records_writable sv _ _ Hinv Hrec) as ((_ & ? & _) & _ & ?). by split_and!.
Qed.

(** The assembled message, or an earlier copy of it. *)
Lemma assembling_from (st : sms_store N) d parts a m :
  parts_of st d 1 parts -> Z.of_nat (length parts) = concat_total_parts (del_concat d) + 1 - 1 ->
  assembling d a (List.concat (texts_of parts)) ->
  direction m = SMS_DIRECTION_INBOUND -> status m = SMS_MESSAGE_RECEIVED ->
  c_str (sender m) = c_str (sender a) -> c_str (SmsMessage.text m) = c_str (SmsMessage.text a) ->
  assembled_from st d m.
Proof.
  intros Hp Hl Ha Hd Hs Hsnd Ht. exists parts. split_and!; [done|lia|done|done| |].
  - by rewrite Hsnd, (holds_c_str _ _ (as_sender _ _ _ Ha)).
  - by rewrite Ht, (holds_c_str _ _ (as_text _ _ _ Ha)), (as_acc _ _ _ Ha).
Qed.

Lemma assemble_spec env fuel d (sv sv' : service) r :
  256 <= Z.of_nat fuel -> inv sv -> next sv + 1 <= UINT32_MAX -> deliver_ok d -> concat_present (del_concat d) = true ->
  concat_valid (del_concat d) -> assemble_with env fuel d sv = (sv', r) ->
  evolves silent 1 sv sv' /\
  (forall a created, r = inr (a, created) ->
     recs sv' !! id a = Some a /\ assembled_from (sv_store sv) d a /\
     (created = false -> recs sv !! id a = Some a)) /\
  (forall e, r = inl e -> forall k w, recs sv !! k = Some w -> record_prunable (sv_store sv) w = false ->
     recs sv' !! k = Some w).
Proof.
  intros Hfuel Hinv Hmax Hd Hpres Hval E. unfold assemble_with in E. rewrite Hpres in E. cbn [negb] in E.
  destruct (allocate env sv) as [sv1 ok] eqn:Ea. destruct (allocate_evolves _ _ _ _ Ea) as [Es1 E1].
  assert (evolves silent 1 sv sv1) as E1' by (eapply evolves_weaken; [|done|exact E1]; lia).
  assert (recs sv1 = recs sv) as R1 by (unfold recs; by rewrite Es1).
  assert (inv sv1) as Hinv1 by (unfold inv; by rewrite Es1).
  assert (next sv1 = next sv) as N1 by (unfold next; by rewrite Es1).
  destruct ok; cbn [negb] in E.
  2: { injection E as <- <-. split_and!; [done|done|]. intros; by rewrite R1. }
  destruct (assemble_parts fuel _ _ _ _ _ _) as [e|[a ids]] eqn:Eparts.
  { injection E as <- <-. split_and!; [done|done|]. intros; by rewrite R1. }
  pose proof (dok_concat _ Hd) as (_ & Ht & _). unfold is_byte in Ht. specialize (Hval Hpres).
  destruct (assemble_parts_spec fuel (sv_store sv1) d 1 (assembly_start d) [] [] a ids Hinv1 ltac:(lia) ltac:(lia)
    ltac:(lia) (assembling_start d Hd) Eparts) as (parts & Hparts & Hlen & -> & Ha).
  cbn [app] in Ha. clear Eparts.
  destruct (allocate env sv1) as [sv2 ok2] eqn:Ea2. destruct (allocate_evolves _ _ _ _ Ea2) as [Es2 E2].
  assert (evolves silent 1 sv sv2) as E2' by (by eapply evolves_then; [|exact E1'|exact E2]).
  assert (recs sv2 = recs sv) as R2 by (unfold recs; by rewrite Es2, Es1).
  assert (inv sv2) as Hinv2 by (unfold inv; by rewrite Es2).
  assert (next sv2 = next sv) as N2 by (unfold next; by rewrite Es2, Es1).
  rewrite Es1 in Hparts.
  destruct ok2; cbn [negb] in E.
  2: { injection E as <- <-. split_and!; [done|done|]. intros; by rewrite R2. }
  assert (Forall (fun i => i <> 0) (map id parts)) as Hids.
  { apply Forall_fmap, Forall_forall. intros p Hin.
    by destruct (parts_ids sv d parts p Hinv Hparts Hin) as (_ & _ & ? & _). }
  destruct (sms_store_find_inbound_identity _ _ _ _ _) as [e|ex] eqn:Ei.
  - pose proof (find_identity_spec (sv_store sv2) (sender a) (service_center_timestamp a) (encoding a)
      (SmsMessage.text a) Hinv2) as F. rewrite Ei in F. destruct F as [-> _].
    rewrite bool_decide_eq_true_2 in E by done.
    destruct (svc_save a sv2) as [[sv3 a'] err] eqn:Es.
    destruct (save_new_evolves a sv2 sv3 a' err Hinv2 ltac:(lia) (as_ok _ _ _ Ha) (as_id _ _ _ Ha) Es)
      as (E3 & T3 & Hok & Hback & Hkeep).
    assert (evolves silent 1 sv sv3) as E3'.
    { eapply (evolves_after _ 1 _ sv2); [lia| |exact E3].
      by eapply evolves_then; [lia|exact E1|exact E2]. }
    case_bool_decide as He.
    2: { injection E as <- <-. split_and!; [done|done|]. intros e _ k w Hw Hp. apply Hkeep; [by rewrite R2|].
         by rewrite Es2, Es1. }
    destruct (Hok He) as [-> Hrec]. injection E as <- <-.
    assert (inv sv3) as Hinv3 by (eapply evolves_inv; [exact E3|done|lia]).
    destruct (delete_partials_spec (map id parts) sv3 Hinv3 Hids) as (E4 & _ & _ & Hkeep4).
    split_and!; [by eapply evolves_then; [lia|exact E3'|exact E4]| |done].
    intros a0 created [= <- <-]. split_and!; [|eapply assembling_from; [exact Hparts|exact Hlen|exact Ha|..]; first [done|apply (as_status _ _ _ Ha)]|done].
    apply Hkeep4; [|exact Hrec]. intros Hin. apply list_elem_of_fmap in Hin as (p & Ep & Hin).
    destruct (parts_ids sv d parts p Hinv Hparts Hin) as (_ & _ & _ & Hlt). cbn in Ep. lia.
  - pose proof (find_identity_spec (sv_store sv2) (sender a) (service_center_timestamp a) (encoding a)
      (SmsMessage.text a) Hinv2) as F. rewrite Ei in F.
    destruct F as (Hrec & Hdir & Hst & _ & Hsnd & _ & Htext). injection E as <- <-.
    set (sv3 := count C_duplicate_messages sv2).
    assert (recs sv !! id ex = Some ex) as Hex by (by rewrite <- R2).
    destruct (delete_partials_spec (map id parts) sv3 Hinv2 Hids) as (E4 & _ & _ & Hkeep4).
    split_and!; [|intros a0 created [= <- <-]|done].
    + eapply evolves_then; [lia| |exact E4]. eapply evolves_then; [lia|exact E2'|apply count_evolves].
    + split_and!; [|eapply assembling_from; [exact Hparts|exact Hlen|exact Ha|..]; first [done|apply (as_status _ _ _ Ha)]|done].
      apply Hkeep4; [|exact Hrec]. intros Hin. apply list_elem_of_fmap in Hin as (p & Ep & Hin).
      destruct (parts_ids sv d parts p Hinv Hparts Hin) as (Hp & Hpst & _). rewrite <- Ep, Hex in Hp.
      injection Hp as ->. congruence.
Qed.

(** An error is reported as one. *)
Lemma find_partial_error (st : sms_store N) sender0 reference total part e :
  store_inv st -> sms_store_find_partial st (Some sender0) reference total part = inl e -> e <> ESP_OK.
Proof.
  intros Hinv E. pose proof (find_partial_spec st sender0 reference total part Hinv) as F. rewrite E in F.
  by destruct F as [[-> _]|[-> _]].
Qed.

Lemma persist_part_error d (sv sv' : service) e : inv sv -> persist_part d sv = (sv', inl e) -> e <> ESP_OK.
Proof.
  intros Hinv. unfold persist_part. intros E. destruct (sms_store_find_partial _ _ _ _ _) as [e'|m] eqn:Ef.
  - case_bool_decide; [|simplify_eq; by eapply find_partial_error].
    destruct (svc_save _ _) as [[sv1 m] err]. by case_bool_decide; simplify_eq.
  - destruct (streq _ _); [done|]. destruct (svc_save _ _) as [[sv1 m'] err]. by case_bool_decide; simplify_eq.
Qed.

Lemma assemble_parts_error fuel (st : sms_store N) d part a len ids e :
  store_inv st -> assemble_parts fuel st d part a len ids = inl e -> e <> ESP_OK.
Proof.
  intros Hinv. revert part a len ids. induction fuel as [|fuel IH]; intros part a len ids E; [done|].
  cbn [assemble_parts] in E. destruct (negb _); [done|].
  destruct (sms_store_find_partial _ _ _ _ _) as [e'|p] eqn:Ef; [simplify_eq; by eapply find_partial_error|].
  destruct (_ || _)%bool; [by simplify_eq|]. by eapply IH.
Qed.

Lemma assemble_error env fuel d (sv sv' : service) e :
  inv sv -> assemble_with env fuel d sv = (sv', inl e) -> e <> ESP_OK.
Proof.
  intros Hinv E. unfold assemble_with in E. destruct (negb _); [by simplify_eq|].
  destruct (allocate env sv) as [sv1 ok] eqn:Ea. destruct (allocate_evolves _ _ _ _ Ea) as [Es1 _].
  destruct (negb ok); [by simplify_eq|].
  destruct (assemble_parts _ _ _ _ _ _ _) as [e'|[a ids]] eqn:Ep.
  { simplify_eq. eapply assemble_parts_error; [|exact Ep]. by rewrite Es1. }
  destruct (allocate env sv1) as [sv2 ok2] eqn:Ea2. destruct (allocate_evolves _ _ _ _ Ea2) as [Es2 _].
  destruct (negb ok2); [by simplify_eq|].
  pose proof (find_identity_spec (sv_store sv2) (sender a) (service_center_timestamp a) (encoding a)
    (SmsMessage.text a) ltac:(by rewrite Es2, Es1)) as F.
  destruct (sms_store_find_inbound_identity _ _ _ _ _) as [e'|ex]; [|done].
  destruct F as [-> _]. rewrite bool_decide_eq_true_2 in E by done.
  destruct (svc_save a sv2) as [[sv3 a'] err]. by case_bool_decide; simplify_eq.
Qed.

(** C6. A long message is put together from its parts, in their order: when
    the last part has arrived the service keeps one complete message from the
    same sender whose text is the texts of the stored parts 1, 2, ... of that
    message one after the other; when it reports an error instead, it has kept
    every record that is still needed. *)
Theorem assembled_text env pdu d (sv sv' : service) r :
  inv sv -> next sv + 1 <= UINT32_MAX ->
  sms_deliver_decode (Some pdu) deliver_zero = (SMS_PDU_DECODE_OK, d) -> concat_present (del_concat d) = true ->
  assemble_if_complete env d sv = (sv', r) ->
  inv sv' /\
  match r with
  | inr (a, _) =>
      recs sv' !! id a = Some a /\ direction a = SMS_DIRECTION_INBOUND /\ status a = SMS_MESSAGE_RECEIVED /\
      c_str (sender a) = c_str (del_sender d) /\
      exists parts, Z.of_nat (length parts) = concat_total_parts (del_concat d) /\
        c_str (SmsMessage.text a) = List.concat (List.map (fun p => c_str (SmsMessage.text p)) parts) /\
        forall i p, parts !! i = Some p ->
          recs sv !! id p = Some p /\
          partial_matches (del_sender d) (PduEncode.concat_reference (del_concat d))
            (concat_total_parts (del_concat d)) (Z.of_nat i + 1) p = true
  | inl e => e <> ESP_OK /\ forall k w, recs sv !! k = Some w -> still_needed (sv_store sv) w ->
      recs sv' !! k = Some w
  end.
Proof.
  intros Hinv Hmax Ed Hp E. destruct (deliver_decode_sound _ _ _ Ed) as [Hd Hok].
  destruct (Hok eq_refl) as [Hval _].
  destruct (assemble_spec env 256 d sv sv' r ltac:(lia) Hinv Hmax Hd Hp Hval E) as (Ev & Hsome & Hnone).
  split; [by eapply evolves_inv|]. destruct r as [e|[a created]].
  - split; [|intros k w Hw Hn; apply (Hnone e eq_refl k w Hw); by apply still_needed_kept]. intros ->. by destruct (assemble_error env 256 d sv sv' ESP_OK Hinv E).
  - destruct (Hsome a created eq_refl) as (Ha & (parts & Hparts & Hlen & Hdir & Hst & Hsnd & Htext) & _).
    split_and!; try done. exists parts. split_and!; [done|exact Htext|]. intros i p Hi.
    pose proof (find_partial_spec (sv_store sv) (del_sender d) (PduEncode.concat_reference (del_concat d))
      (concat_total_parts (del_concat d)) (1 + Z.of_nat i) Hinv) as F.
    rewrite (Hparts i p Hi) in F. destruct F as (Hrec & Hmatch & _). split; [done|].
    by rewrite Z.add_comm.
Qed.

End Inbound.

(** ** Example: a message of two parts *)

(** The contents of a PDU, and the first part of the message 0x12, whose
    second one is [sample_part]. *)
Definition sample_deliver (pdu : list Z) : sms_deliver_t := (sms_deliver_decode (Some pdu) deliver_zero).2.
Definition sample_part_1 : list Z := str "00440A8121436587090000425031011000000A050003120201906536".

Lemma sample_part_1_ok :
  sms_deliver_decode (Some sample_part_1) deliver_zero = (SMS_PDU_DECODE_OK, sample_deliver sample_part_1).
Proof. unfold sample_deliver. rewrite (surjective_pairing (sms_deliver_decode _ _)) at 1. f_equal. Qed.
Lemma sample_part_2_ok :
  sms_deliver_decode (Some sample_part) deliver_zero = (SMS_PDU_DECODE_OK, sample_deliver sample_part).
Proof. unfold sample_deliver. rewrite (surjective_pairing (sms_deliver_decode _ _)) at 1. f_equal. Qed.

(** The service after both parts were stored. *)
Definition sample_first : @service mem_nvs := (persist_part (sample_deliver sample_part_1) (sample_service empty_store)).1.
Definition sample_both : @service mem_nvs := (persist_part (sample_deliver sample_part) sample_first).1.

Lemma sample_both_facts : inv sample_both /\ next sample_both <= 3.
Proof.
  assert (forall pdu (sv : @service mem_nvs), sms_deliver_decode (Some pdu) deliver_zero = (SMS_PDU_DECODE_OK, sample_deliver pdu) ->
    concat_present (del_concat (sample_deliver pdu)) = true -> inv sv -> next sv + 1 <= UINT32_MAX ->
    inv (persist_part (sample_deliver pdu) sv).1 /\ next (persist_part (sample_deliver pdu) sv).1 <= next sv + 1) as Hstep.
  { intros pdu sv Ed Hp Hinv Hmax. destruct (deliver_decode_sound _ _ _ Ed) as [Hd Hok].
    destruct (Hok eq_refl) as [Hval _].
    destruct (persist_part_spec _ sv _ _ Hinv Hmax Hd Hp Hval (surjective_pairing _)) as (Ev & _).
    destruct (Ev Hinv Hmax) as [? ? _ _]. split; [done|lia]. }
  assert (next (sample_service empty_store) = 1) as N0 by (vm_compute; reflexivity).
  destruct (Hstep sample_part_1 (sample_service empty_store) sample_part_1_ok) as [I1 N1];
    [vm_compute; reflexivity|exact empty_store_inv|rewrite N0; unfold UINT32_MAX; lia|].
  fold sample_first in I1, N1.
  destruct (Hstep sample_part sample_first sample_part_2_ok) as [I2 N2];
    [vm_compute; reflexivity|exact I1|unfold UINT32_MAX; lia|].
  fold sample_both in I2, N2. split; [exact I2|lia].
Qed.

Lemma assembled_text_witness :
  exists a created,
    (assemble_if_complete sample_env (sample_deliver sample_part) sample_both).2 = inr (a, created) /\
    exists parts : list sms_message_t, length parts = 2%nat /\
      c_str (SmsMessage.text a) = List.concat (List.map (fun p => c_str (SmsMessage.text p)) parts).
Proof.
  destruct sample_both_facts as [Hinv Hn].
  pose proof (assembled_text sample_env sample_part (sample_deliver sample_part) sample_both _ _ Hinv
    ltac:(unfold UINT32_MAX; lia) sample_part_2_ok ltac:(vm_compute; reflexivity) (surjective_pairing _)) as (_ & F).
  assert (match (assemble_if_complete sample_env (sample_deliver sample_part) sample_both).2 with
          | inr _ => true | inl _ => false end = true) as Hsome by (vm_compute; reflexivity).
  destruct (assemble_if_complete sample_env (sample_deliver sample_part) sample_both).2 as [e|[a created]]; [discriminate|].
  exists a, created. split; [reflexivity|]. destruct F as (_ & _ & _ & _ & parts & Hlen & Htext & _).
  exists parts. split; [|exact Htext].
  assert (concat_total_parts (del_concat (sample_deliver sample_part)) = 2) as Ht by (vm_compute; reflexivity).
  rewrite Ht in Hlen. lia.
Defined.
