(* ===== verification/SmsServicePersist.v ===== *)
(** * Incoming messages are kept

    [persist_deliver] and the handlers of one PDU: what they have stored when
    they succeed, and that the modem's copy is deleted only then. *)

From Stdlib Require Import Ascii String.
From Stdlib Require Import ZifyBool ZifyNat.
From stdpp Require Import base numbers list strings gmap.
From S2P Require Import Prelude.
From S2P Require Import PduEncode.
From S2P Require Import PduDecode.
From S2P Require Import PduDecodeFacts.
From S2P Require Import AtEngine.
From S2P Require Import SmsMessage.
From S2P Require Import Nvs.
From S2P Require Import SmsStore.
From S2P Require Import SmsStoreFacts.
From S2P Require Import SmsStoreSpec.
From S2P Require Import SmsService.
From S2P Require Import SmsServiceFacts.
From S2P Require Import SmsServiceSample.
From S2P Require Import SmsServiceInbound.

Open Scope Z_scope.

Section Persist.

Context {N : Type} `{NvsLaws N}.

Abbreviation service := (@service N).
Abbreviation effect := (@effect N).

Variable env : @environment N.

(** ** What it means that a message is kept *)

(** A message that is not a part: the complete inbound record of it. *)
Definition single_kept (st : sms_store N) (d : sms_deliver_t) : Prop :=
  exists m, records (s_handle st) !! id m = Some m /\
    direction m = SMS_DIRECTION_INBOUND /\ status m = SMS_MESSAGE_RECEIVED /\ encoding m = del_encoding d /\
    c_str (sender m) = c_str (del_sender d) /\
    c_str (service_center_timestamp m) = c_str (del_service_center_timestamp d) /\
    c_str (text m) = c_str (del_text d).

(** A part: the record of the part, or the whole message with the part's text
    in its place. *)
Definition part_kept (st : sms_store N) (d : sms_deliver_t) : Prop :=
  (exists m, records (s_handle st) !! id m = Some m /\
     partial_matches (del_sender d) (PduEncode.concat_reference (del_concat d))
       (concat_total_parts (del_concat d)) (concat_part_number (del_concat d)) m = true /\
     c_str (text m) = c_str (del_text d)) \/
  (exists m texts, records (s_handle st) !! id m = Some m /\
     direction m = SMS_DIRECTION_INBOUND /\ status m = SMS_MESSAGE_RECEIVED /\
     c_str (sender m) = c_str (del_sender d) /\
     c_str (text m) = List.concat texts /\ Z.of_nat (length texts) = concat_total_parts (del_concat d) /\
     texts !! Z.to_nat (concat_part_number (del_concat d) - 1) = Some (c_str (del_text d))).

Definition deliver_kept (st : sms_store N) (d : sms_deliver_t) : Prop :=
  if concat_present (del_concat d) then part_kept st d else single_kept st d.

(** ** Storing a message *)

Lemma count_store c (sv : service) : sv_store (count c sv) = sv_store sv.
Proof. done. Qed.

(** After an allocation everything but the trace is as before. *)
Lemma allocate_spec (sv sv' : service) ok :
  inv sv -> allocate env sv = (sv', ok) ->
  sv_store sv' = sv_store sv /\ evolves silent 0 sv sv' /\ inv sv' /\ next sv' = next sv /\ recs sv' = recs sv.
Proof.
  intros Hinv E. destruct (allocate_evolves _ _ _ _ E) as [Es E1].
  unfold inv, next, recs. rewrite Es. by split_and!.
Qed.

Lemma single_matches d m k :
  deliver_ok d -> concat_present (del_concat d) = false -> m = set_id (deliver_record d) k ->
  direction m = SMS_DIRECTION_INBOUND /\ status m = SMS_MESSAGE_RECEIVED /\ encoding m = del_encoding d /\
  c_str (sender m) = c_str (del_sender d) /\
  c_str (service_center_timestamp m) = c_str (del_service_center_timestamp d) /\
  c_str (text m) = c_str (del_text d).
Proof.
  intros [Hs Ht Hx _] Hp ->. unfold deliver_record. rewrite Hp.
  cbn [set_id inbound_message direction status encoding sender service_center_timestamp text].
  split_and!; try done; apply holds_c_str, strncpy_zeros_holds; [apply Hs| |by apply text_fits].
  destruct Ht. lia.
Qed.

Lemma persist_single_spec d (sv sv' : service) e :
  inv sv -> next sv + 1 <= UINT32_MAX -> deliver_ok d -> concat_present (del_concat d) = false ->
  persist_single env d sv = (sv', e) ->
  evolves silent 1 sv sv' /\ (e = ESP_OK -> single_kept (sv_store sv') d).
Proof.
  intros Hinv Hmax Hd Hp E. unfold persist_single in E.
  destruct (allocate env sv) as [sv1 ok] eqn:Ea. destruct (allocate_spec _ _ _ Hinv Ea) as (_ & E1 & Hinv1 & N1 & R1).
  assert (evolves silent 1 sv sv1) as E1' by (eapply evolves_weaken; [|done|exact E1]; lia).
  destruct ok; cbn [negb] in E; [|by injection E as <- <-].
  pose proof (find_identity_spec (sv_store sv1) (sender (deliver_record d))
    (service_center_timestamp (deliver_record d)) (encoding (deliver_record d)) (text (deliver_record d)) Hinv1) as F.
  destruct (single_matches d (set_id (deliver_record d) 0) 0 Hd Hp eq_refl) as (_ & _ & _ & Hsnd & Hts & Htext).
  cbn [set_id sender service_center_timestamp text] in Hsnd, Hts, Htext.
  destruct (sms_store_find_inbound_identity _ _ _ _ _) as [err|ex].
  - destruct F as [-> _]. rewrite bool_decide_eq_true_2 in E by done.
    destruct (svc_save (deliver_record d) sv1) as [[sv2 m] err] eqn:Es.
    destruct (save_new_evolves _ _ _ _ _ Hinv1 ltac:(lia) (deliver_record_ok d Hd) eq_refl Es) as (E2 & _ & Hok & _).
    assert (evolves silent 1 sv sv2) as E2' by (by eapply (evolves_after _ 1); [lia|exact E1|exact E2]).
    case_bool_decide as He; injection E as <- <-; [|done]. destruct (Hok He) as [Em Hm].
    split.
    + eapply evolves_then; [lia|exact E2'|]. eapply evolves_then; [lia|apply count_evolves|].
      apply emit_evolves. intros _. change (id m) with (id m). rewrite Em. cbn [id set_id]. by rewrite <- Em.
    + intros _. exists m. rewrite emit_store. split; [by rewrite Em at 1|]. by eapply single_matches.
  - destruct F as (Hm & Hdir & Hst & Henc & F1 & F2 & F3). injection E as <- <-. split.
    + eapply evolves_then; [lia|exact E1'|apply count_evolves].
    + intros _. exists ex. rewrite count_store. split_and!; try done; congruence.
Qed.

Lemma persist_deliver_spec d (sv sv' : service) e :
  inv sv -> next sv + 2 <= UINT32_MAX -> deliver_ok d -> concat_valid (del_concat d) ->
  persist_deliver env d sv = (sv', e) ->
  evolves silent 2 sv sv' /\ (e = ESP_OK -> deliver_kept (sv_store sv') d).
Proof.
  intros Hinv Hmax Hd Hval E. unfold persist_deliver in E. unfold deliver_kept.
  destruct (allocate env sv) as [sv1 ok] eqn:Ea. destruct (allocate_spec _ _ _ Hinv Ea) as (_ & E1 & Hinv1 & N1 & R1).
  destruct ok; cbn [negb] in E.
  2: { injection E as <- <-. split; [|done]. eapply evolves_weaken; [|done|exact E1]; lia. }
  destruct (concat_present (del_concat d)) eqn:Hp.
  2: { destruct (persist_single_spec d _ _ _ Hinv1 ltac:(lia) Hd Hp E) as [E2 Hk]. split; [|done].
       eapply evolves_weaken; [|done|eapply (evolves_after _ 1); [lia|exact E1|exact E2]]. lia. }
  destruct (allocate env sv1) as [sv2 ok1] eqn:Ea2. destruct (allocate_spec _ _ _ Hinv1 Ea2) as (_ & E2 & Hinv2 & N2 & R2).
  destruct (allocate env sv2) as [sv3 ok2] eqn:Ea3. destruct (allocate_spec _ _ _ Hinv2 Ea3) as (_ & E3 & Hinv3 & N3 & R3).
  assert (evolves silent 0 sv sv3) as E3'.
  { eapply evolves_then; [lia| |exact E3]. eapply evolves_then; [lia|exact E1|exact E2]. }
  destruct (negb ok1 || negb ok2).
  { injection E as <- <-. split; [|done]. eapply evolves_weaken; [|done|exact E3']; lia. }
  destruct (persist_part d sv3) as [sv4 r] eqn:Ep.
  destruct (persist_part_spec d _ _ _ Hinv3 ltac:(lia) Hd Hp Hval Ep) as (E4 & Hpart & _).
  assert (evolves silent 1 sv sv4) as E4' by (by eapply (evolves_after _ 1); [lia|exact E3'|exact E4]).
  assert (inv sv4) as Hinv4 by (eapply evolves_inv; [exact E4'|done|lia]).
  pose proof (ev_next _ _ _ _ (E4' Hinv ltac:(lia))) as N4.
  destruct r as [err|m].
  { injection E as <- <-. split; [eapply evolves_weaken; [|done|exact E4']; lia|intros ->].
    by destruct (persist_part_error d sv3 sv4 ESP_OK Hinv3 Ep). }
  destruct (Hpart m eq_refl) as (Hm & Hfind & Htext).
  destruct (assemble_if_complete env d sv4) as [sv5 r] eqn:Eas.
  destruct (assemble_spec env 256 d sv4 sv5 r ltac:(lia) Hinv4 ltac:(lia) Hd Hp Hval Eas) as (E5 & Hsome & Hnone).
  assert (evolves silent 2 sv sv5) as E5' by (by eapply (evolves_trans _ 1 1); [lia|lia|exact E4'|exact E5]).
  pose proof (find_partial_spec (sv_store sv4) (del_sender d) (PduEncode.concat_reference (del_concat d))
    (concat_total_parts (del_concat d)) (concat_part_number (del_concat d)) Hinv4) as F.
  unfold find_part in Hfind. rewrite Hfind in F. destruct F as (_ & Hmatch & _).
  destruct r as [err|[a created]].
  - pose proof (Hnone err eq_refl _ _ Hm (part_not_prunable _ _ _ _ _ _ Hmatch)) as Hm5.
    case_bool_decide as He; injection E as <- <-.
    + split; [eapply evolves_then; [lia|exact E5'|by apply emit_evolves]|].
      intros _. rewrite emit_store. left. by exists m.
    + split; [exact E5'|]. intros ->. by destruct (assemble_error env 256 d sv4 sv5 ESP_OK Hinv4 Eas).
  - destruct (Hsome a created eq_refl) as (Ha & Hfrom & _). injection E as <- <-. split.
    + destruct created; [|exact E5']. eapply evolves_then; [lia|exact E5'|].
      eapply evolves_then; [lia|apply count_evolves|by apply emit_evolves].
    + intros _. right. assert (sv_store (if created then emit_event SMS_SERVICE_EVENT_RECEIVED a
        (count C_inbound_messages sv5) else sv5) = sv_store sv5) as -> by (destruct created; [by rewrite emit_store|done]).
      destruct Hfrom as (parts & Hparts & Hlen & Hdir & Hst & Hsnd & Htxt).
      exists a, (texts_of parts). unfold texts_of at 2. rewrite length_map. split_and!; try done.
      specialize (Hval Hp). set (i := Z.to_nat (concat_part_number (del_concat d) - 1)).
      destruct (lookup_lt_is_Some_2 parts i ltac:(unfold i; lia)) as [p Hi].
      pose proof (Hparts i p Hi) as Hp'. replace (1 + Z.of_nat i) with (concat_part_number (del_concat d)) in Hp' by (unfold i; lia).
      rewrite Hfind in Hp'. injection Hp' as <-. unfold texts_of. rewrite list_lookup_fmap, Hi. cbn. by rewrite Htext.
Qed.

(** ** One PDU *)

Lemma hex_pairs_digits hex out : hex_decode_pairs hex = Some out -> Nat.even (length hex) = true -> bytes hex.
Proof.
  revert out. induction hex as [hex IH] using (well_founded_induction (Wf_nat.well_founded_ltof _ length)).
  intros out E He. destruct hex as [|h [|l hex]]; [apply bytes_nil|done|].
  assert (forall c, (hex_value c <? 0) = false -> is_byte c) as Hv.
  { intros c. unfold hex_value, is_byte. intros Hc. repeat case_match; boolify; lia. }
  cbn [hex_decode_pairs] in E. destruct ((hex_value h <? 0) || (hex_value l <? 0)) eqn:Eb; [done|].
  apply orb_false_iff in Eb as [E1 E2]. destruct (hex_decode_pairs hex) as [out'|] eqn:Eh; [|done].
  apply bytes_cons; [by apply Hv|]. apply bytes_cons; [by apply Hv|].
  apply (IH hex) with (out := out'); [unfold Wf_nat.ltof; cbn; lia|done|done].
Qed.

(** A PDU that the decoder reads fits the array for it. *)
Lemma pdu_fits pdu octets : hex_decode (Some pdu) SMS_MAX_PDU_OCTETS = inr octets -> fits SMS_MAX_PDU_HEX (c_str pdu).
Proof.
  unfold hex_decode. destruct (Nat.eqb_spec (length (c_str pdu) mod 2) 0) as [Em|]; cbn [negb]; [|done].
  destruct (Nat.ltb_spec SMS_MAX_PDU_OCTETS (length (c_str pdu) / 2)); [done|].
  destruct (hex_decode_pairs (c_str pdu)) as [out|] eqn:Eh; [|done]. intros _. split.
  - eapply hex_pairs_digits; [exact Eh|]. apply Nat.Div0.mod_divides in Em as [k Hk].
    apply Nat.even_spec. by exists k.
  - unfold SMS_MAX_PDU_HEX. apply Nat.Div0.mod_divides in Em as [k Hk]. rewrite Hk in *.
    rewrite Nat.mul_comm, Nat.div_mul in *; lia.
Qed.

Definition unsupported_kept (st : sms_store N) (pdu : list Z) : Prop :=
  exists m, records (s_handle st) !! id m = Some m /\ direction m = SMS_DIRECTION_INBOUND /\
    status m = SMS_MESSAGE_UNSUPPORTED /\ c_str (raw_pdu m) = c_str pdu.

Lemma strncpy_c_str dst src : strncpy_into dst (c_str src) = strncpy_into dst src.
Proof. unfold strncpy_into. by rewrite c_str_idem. Qed.

Lemma persist_unsupported_spec pdu d (sv sv' : service) e :
  inv sv -> next sv + 1 <= UINT32_MAX -> deliver_ok d -> fits SMS_MAX_PDU_HEX (c_str pdu) ->
  persist_unsupported_deliver env pdu d sv = (sv', e) ->
  evolves silent 1 sv sv' /\ (e = ESP_OK -> unsupported_kept (sv_store sv') pdu).
Proof.
  intros Hinv Hmax Hd Hpdu E. unfold persist_unsupported_deliver in E.
  destruct (allocate env sv) as [sv1 ok] eqn:Ea. destruct (allocate_spec _ _ _ Hinv Ea) as (_ & E1 & Hinv1 & N1 & R1).
  assert (evolves silent 1 sv sv1) as E1' by (eapply evolves_weaken; [|done|exact E1]; lia).
  destruct ok; cbn [negb] in E; [|by injection E as <- <-].
  pose proof (find_first_spec (sv_store sv1) (raw_pdu_matches pdu) (proj2 Hinv1)) as F.
  unfold sms_store_find_inbound_raw_pdu in E. rewrite (proj1 Hinv1) in E. cbn [negb] in E.
  destruct (find_first _ _) as [err|ex].
  - destruct F as [-> _]. rewrite bool_decide_eq_true_2 in E by done. cbn [negb] in E.
    assert (unsupported_record pdu d = unsupported_record (c_str pdu) d) as Er.
    { unfold unsupported_record. by rewrite strncpy_c_str. }
    destruct (svc_save (unsupported_record pdu d) sv1) as [[sv2 m] err] eqn:Es. rewrite Er in Es.
    destruct (save_new_evolves _ _ _ _ _ Hinv1 ltac:(lia) (unsupported_record_ok _ d Hd Hpdu) eq_refl Es)
      as (E2 & _ & Hok & _).
    assert (evolves silent 1 sv sv2) as E2' by (by eapply (evolves_after _ 1); [lia|exact E1|exact E2]).
    case_bool_decide as He; injection E as <- <-; [|done]. destruct (Hok He) as [Em Hm].
    assert (recs sv2 !! id m = Some m) as Hrec by (by rewrite Em at 1).
    split.
    + eapply evolves_then; [lia|exact E2'|]. by eapply evolves_then; [lia|apply count_evolves|apply emit_evolves].
    + intros _. exists m. rewrite emit_store. split_and!; [exact Hrec|by rewrite Em..|].
      rewrite Em. cbn [set_id raw_pdu unsupported_record inbound_message message_zero].
      rewrite strncpy_c_str. apply holds_c_str. rewrite <- strncpy_c_str.
      destruct (strncpy_zeros_holds SMS_MAX_PDU_HEX (c_str pdu) (proj2 Hpdu)) as [tail Et].
      exists tail. by rewrite c_str_idem in Et.
  - destruct F as (Hm & F). unfold raw_pdu_matches, is_inbound, streq in F.
    rewrite !andb_true_iff, !bool_decide_eq_true in F. destruct F as [[F1 F2] F3]. injection E as <- <-. split.
    + eapply evolves_then; [lia|exact E1'|apply count_evolves].
    + intros _. by exists ex.
Qed.

(** What has to be in the store before the modem's copy of a PDU may go. *)
Definition pdu_kept (st : sms_store N) (pdu : list Z) : Prop :=
  match sms_deliver_decode (Some pdu) deliver_zero with
  | (SMS_PDU_DECODE_OK, d) => deliver_kept st d
  | (SMS_PDU_DECODE_UNSUPPORTED, d) => del_encoding d = SMS_ENCODING_8BIT /\ unsupported_kept st pdu
  | _ => False
  end.

(** The only request is the deletion, in a store that keeps the PDU. *)
Definition deletes_kept (pdu : list Z) (index : Z) (e : effect) : Prop :=
  quiet e /\
  match e with E_request _ r _ _ st => r = cmgd_request index /\ pdu_kept st pdu | _ => True end.

Lemma silent_deletes pdu index e : silent e -> deletes_kept pdu index e.
Proof. intros Hs. split; [by apply silent_quiet|]. destruct e; try done. by destruct Hs. Qed.

Lemma delete_if_spec index (sv : service) :
  sv_store (delete_if env index sv) = sv_store sv /\
  evolves (only (cmgd_request index) (sv_store sv)) 0 sv (delete_if env index sv).
Proof.
  unfold delete_if. destruct (0 <=? index); [|split; [done|apply evolves_refl]].
  unfold delete_modem_index.
  destruct (execute_simple _ _ _ _ _ _) as [[sv1 ok] resp] eqn:E.
  by destruct (simple_evolves _ _ _ _ _ _ _ _ _ response_zero_ok E) as (Es & E1 & _).
Qed.

Lemma delete_if_kept pdu index (sv : service) :
  pdu_kept (sv_store sv) pdu -> evolves (deletes_kept pdu index) 0 sv (delete_if env index sv).
Proof.
  intros Hk. eapply evolves_weaken; [reflexivity| |apply delete_if_spec]. intros e [Hq He].
  split; [done|]. destruct e; try done. destruct He as [-> ->]. done.
Qed.

Lemma decode_unsupported_fits pdu d :
  sms_deliver_decode (Some pdu) deliver_zero = (SMS_PDU_DECODE_UNSUPPORTED, d) -> fits SMS_MAX_PDU_HEX (c_str pdu).
Proof.
  unfold sms_deliver_decode. destruct (hex_decode (Some pdu) SMS_MAX_PDU_OCTETS) as [r|octets] eqn:Eh.
  - intros [= -> _]. unfold hex_decode in Eh. by repeat case_match.
  - intros _. by eapply pdu_fits.
Qed.

Lemma deliver_pdu_spec pdu index (sv sv' : service) e :
  inv sv -> next sv + 2 <= UINT32_MAX -> process_deliver_pdu env pdu index sv = (sv', e) ->
  evolves (deletes_kept pdu index) 2 sv sv' /\ (e = ESP_OK -> pdu_kept (sv_store sv') pdu).
Proof.
  intros Hinv Hmax E. unfold process_deliver_pdu in E. unfold pdu_kept.
  pose proof (silent_deletes pdu index) as HP.
  destruct (allocate env sv) as [sv1 ok1] eqn:Ea1. destruct (allocate_spec _ _ _ Hinv Ea1) as (_ & E1 & Hinv1 & N1 & R1).
  destruct (allocate env sv1) as [sv2 ok2] eqn:Ea2. destruct (allocate_spec _ _ _ Hinv1 Ea2) as (_ & E2 & Hinv2 & N2 & R2).
  assert (evolves silent 0 sv sv2) as E2' by (by eapply evolves_then; [lia|exact E1|exact E2]).
  assert (evolves (deletes_kept pdu index) 2 sv sv2) as E2q by (eapply evolves_weaken; [|exact HP|exact E2']; lia).
  destruct (negb ok1 || negb ok2); [by injection E as <- <-|].
  destruct (sms_deliver_decode (Some pdu) deliver_zero) as [r d] eqn:Ed.
  destruct (deliver_decode_sound _ _ _ Ed) as [Hd Hok].
  assert (next (count C_inbound_pdus sv2) + 1 <= UINT32_MAX) as Hmax1 by (change (next sv2 + 1 <= UINT32_MAX); lia).
  destruct (bool_decide (r = SMS_PDU_DECODE_UNSUPPORTED) && bool_decide (del_encoding d = SMS_ENCODING_8BIT)) eqn:Eu.
  { apply andb_true_iff in Eu as [Er%bool_decide_eq_true He8%bool_decide_eq_true]. subst r.
    destruct (persist_unsupported_deliver env pdu d (count C_inbound_pdus sv2)) as [sv3 err] eqn:Ep.
    destruct (persist_unsupported_spec pdu d (count C_inbound_pdus sv2) sv3 err Hinv2 Hmax1 Hd
      (decode_unsupported_fits _ _ Ed) Ep) as [E3 Hk].
    assert (evolves silent 1 sv sv3) as E3'.
    { eapply (evolves_after _ 1); [lia| |exact E3]. by eapply evolves_then; [lia|exact E2'|apply count_evolves]. }
    case_bool_decide as Herr; injection E as <- <-.
    - specialize (Hk Herr). destruct (delete_if_spec index sv3) as [Es3 _]. split.
      + apply (evolves_weaken (deletes_kept pdu index) _ 1 2); [lia|done|].
        eapply (evolves_pre _ 1 0); [lia|lia|exact HP|exact E3'|]. apply delete_if_kept. unfold pdu_kept. by rewrite Ed.
      + intros _. by rewrite Es3.
    - split; [eapply evolves_weaken; [|exact HP|exact E3']; lia|done]. }
  case_bool_decide as Er; cbn [negb] in E.
  2: { injection E as <- <-. split; [|done].
       eapply evolves_post; [lia|exact HP|exact E2q|apply count_evolves]. }
  subst r. destruct (Hok eq_refl) as [Hval _].
  destruct (persist_deliver env d (count C_inbound_pdus sv2)) as [sv3 err] eqn:Ep.
  assert (next (count C_inbound_pdus sv2) + 2 <= UINT32_MAX) as Hmax2 by (change (next sv2 + 2 <= UINT32_MAX); lia).
  destruct (persist_deliver_spec d (count C_inbound_pdus sv2) sv3 err Hinv2 Hmax2 Hd Hval Ep) as [E3 Hk].
  assert (evolves silent 2 sv sv3) as E3'.
  { eapply (evolves_after _ 2); [lia| |exact E3]. by eapply evolves_then; [lia|exact E2'|apply count_evolves]. }
  case_bool_decide as Herr; cbn [negb] in E; injection E as <- <-.
  - specialize (Hk Herr). destruct (delete_if_spec index sv3) as [Es3 _]. split.
    + eapply (evolves_pre _ 2 0); [lia|lia|exact HP|exact E3'|]. apply delete_if_kept. unfold pdu_kept. by rewrite Ed.
    + intros _. by rewrite Es3.
  - split; [|done]. eapply evolves_weaken; [reflexivity|exact HP|].
    eapply evolves_then; [lia|exact E3'|]. by eapply evolves_then; [lia|apply count_evolves|apply diag_evolves].
Qed.

(** The second copy of a message changes nothing: when a message that is
    not a part has been stored, or was already there, the same PDU contents
    arriving again leave every record and the next identifier as they are, and
    no event is emitted. *)
Theorem duplicate_message_ignored pdu d (sv sv1 : service) (env2 : @environment N) sv2 e :
  inv sv -> next sv + 2 <= UINT32_MAX ->
  sms_deliver_decode (Some pdu) deliver_zero = (SMS_PDU_DECODE_OK, d) -> concat_present (del_concat d) = false ->
  persist_deliver env d sv = (sv1, ESP_OK) -> persist_deliver env2 d sv1 = (sv2, e) ->
  sv_store sv2 = sv_store sv1 /\
  (exists es, sv_trace sv2 = es ++ sv_trace sv1 /\ forall event m st, E_event event m st ∉ es) /\
  (e = ESP_OK \/ e = ESP_ERR_NO_MEM).
Proof.
  intros Hinv Hmax Ed Hp E1 E2. destruct (deliver_decode_sound _ _ _ Ed) as [Hd Hok].
  destruct (Hok eq_refl) as [Hval _].
  destruct (persist_deliver_spec d sv sv1 ESP_OK Hinv Hmax Hd Hval E1) as [Ev Hkept].
  destruct (Ev Hinv Hmax) as [Hinv1 _ _ _]. specialize (Hkept eq_refl). unfold deliver_kept in Hkept. rewrite Hp in Hkept.
  unfold persist_deliver in E2.
  assert (forall ok1, ok1 = env_alloc env2 (sv_trace sv1) -> forall ok2 sv', sv' = log (E_alloc ok2) (log (E_alloc ok1) sv1) ->
    exists es, sv_trace sv' = es ++ sv_trace sv1 /\ forall event m st, E_event event m st ∉ es) as Htrace.
  { intros ok1 _ ok2 sv' ->. exists [E_alloc ok2; E_alloc ok1]. split; [done|].
    intros event m st Hin. apply elem_of_cons in Hin as [Hin|Hin]; [discriminate Hin|].
    apply list_elem_of_singleton in Hin. discriminate Hin. }
  destruct (allocate env2 sv1) as [sv3 ok] eqn:Ea. injection Ea as <- Eok. destruct ok; cbn [negb] in E2.
  2: { injection E2 as <- <-. split_and!; [done| |by right]. exists [E_alloc false].
       split; [by rewrite Eok|]. intros event m st Hin. apply list_elem_of_singleton in Hin. discriminate Hin. }
  rewrite Hp in E2. unfold persist_single in E2. set (sv3 := log _ sv1) in E2.
  destruct (allocate env2 sv3) as [sv4 ok] eqn:Ea. injection Ea as <- Eok2. destruct ok; cbn [negb] in E2.
  2: { injection E2 as <- <-. split_and!; [done| |by right]. by apply (Htrace _ eq_refl (env_alloc env2 (sv_trace sv3))). }
  set (sv4 := log _ sv3) in E2.
  destruct (single_matches d (set_id (deliver_record d) 0) 0 Hd Hp eq_refl) as (_ & _ & _ & Hsnd & Hts & Htext).
  cbn [set_id sender service_center_timestamp text] in Hsnd, Hts, Htext.
  pose proof (find_identity_spec (sv_store sv4) (sender (deliver_record d))
    (service_center_timestamp (deliver_record d)) (encoding (deliver_record d)) (text (deliver_record d)) Hinv1) as F.
  destruct (sms_store_find_inbound_identity _ _ _ _ _) as [err|ex].
  - exfalso. destruct F as [_ F]. destruct Hkept as (m & Hm & Hdir & Hst & Henc & F1 & F2 & F3).
    apply (F (id m) m Hm Hdir Hst Henc); congruence.
  - injection E2 as <- <-. split_and!; [done| |by left].
    destruct (Htrace _ eq_refl (env_alloc env2 (sv_trace sv3)) _ eq_refl) as (es & T & Hn). by exists es.
Qed.

End Persist.

(** ** Example: a message of one part arrives twice *)

Definition sample_deliver_pdu : list Z := str "00040A81214365870900004250310110000005E8329BFD06".

Lemma sample_deliver_ok :
  sms_deliver_decode (Some sample_deliver_pdu) deliver_zero = (SMS_PDU_DECODE_OK, sample_deliver sample_deliver_pdu).
Proof. unfold sample_deliver. rewrite (surjective_pairing (sms_deliver_decode _ _)) at 1. f_equal. Qed.

Definition sample_received : @service mem_nvs :=
  (persist_deliver sample_env (sample_deliver sample_deliver_pdu) (sample_service empty_store)).1.

Lemma duplicate_message_ignored_witness :
  sv_store (persist_deliver sample_env (sample_deliver sample_deliver_pdu) sample_received).1 = sv_store sample_received.
Proof.
  assert ((persist_deliver sample_env (sample_deliver sample_deliver_pdu) (sample_service empty_store)).2 = ESP_OK) as E
    by (vm_compute; reflexivity).
  apply (duplicate_message_ignored sample_env sample_deliver_pdu (sample_deliver sample_deliver_pdu)
    (sample_service empty_store) sample_received sample_env _
    (persist_deliver sample_env (sample_deliver sample_deliver_pdu) sample_received).2).
  - exact empty_store_inv.
  - vm_compute. discriminate.
  - apply sample_deliver_ok.
  - vm_compute. reflexivity.
  - unfold sample_received. rewrite <- E. apply surjective_pairing.
  - apply surjective_pairing.
Defined.
