(* ===== verification/SmsServiceTurn.v ===== *)
(** * The service's own turns, apart from sending

    Every handler of an incoming line, the listing of the modem's inbox and the
    set-up are [quiet] steps of [evolves]: they never send a segment, and leave
    the outgoing messages' payload, marks and queue as they are. *)

From Stdlib Require Import Ascii String.
From Stdlib Require Import ZifyBool ZifyNat.
From stdpp Require Import base numbers list strings gmap.
From S2P Require Import Prelude.
From S2P Require Import PduEncode.
From S2P Require Import PduDecode.
From S2P Require Import PduDecodeFacts.
From S2P Require Import AtEngine.
From S2P Require Import SmsMessage.
From S2P Require Import Nvs.
From S2P Require Import SmsStore.
From S2P Require Import SmsStoreFacts.
From S2P Require Import SmsStoreSpec.
From S2P Require Import SmsService.
From S2P Require Import SmsServiceFacts.
From S2P Require Import SmsServiceSample.
From S2P Require Import SmsServiceInbound.
From S2P Require Import SmsServicePersist.

Open Scope Z_scope.

Section Turn.

Context {N : Type} `{NvsLaws N}.

Abbreviation service := (@service N).
Abbreviation effect := (@effect N).

Variable env : @environment N.

(** ** Status reports *)

Lemma fold_slots_inv {A} (I : A -> Prop) body first (l : list (option sms_message_t)) a :
  I a ->
  (forall i o a, (first <= i < first + length l)%nat -> I a ->
     match body i o a with Continue _ a' | Break _ a' => I a' end) ->
  I (fold_slots body first l a).
Proof.
  revert first a. induction l as [|o l IH]; intros first a Ha Hb; cbn [fold_slots]; [done|].
  pose proof (Hb first o a ltac:(cbn; lia) Ha) as H1. destruct (body first o a); [|done].
  apply IH; [done|]. intros i o' a' Hi. apply Hb. cbn. lia.
Qed.

Lemma reference_segments_slot m slot reference i n best :
  match reference_segments m slot reference i n best with
  | Some (_, s, _) => s = slot \/ (exists k j, best = Some (k, s, j))
  | None => True
  end.
Proof.
  revert i best. induction n as [|n IH]; intros i best; cbn [reference_segments].
  { destruct best as [[[k s] j]|]; [right; by exists k, j|done]. }
  specialize (IH (S i) (if Z.testbit (segment_sent_mask m) (Z.of_nat i) && ((modem_reference m).[i] =? reference)
    && match best with None => true | Some (b, _, _) => b <? id m end then Some (id m, slot, i) else best)).
  destruct (reference_segments _ _ _ _ _ _) as [[[k s] j]|]; [|done].
  destruct IH as [->|(k' & j' & Eb)]; [by left|].
  destruct (_ && _ && _); [injection Eb as <- <- <-; by left|right; by exists k', j'].
Qed.

Lemma outbound_reference_spec (st : sms_store N) recipient0 reference m i :
  store_inv st -> sms_store_find_outbound_reference st (Some recipient0) reference = inr (m, i) ->
  records (s_handle st) !! id m = Some m.
Proof.
  intros [Hinit Hf]. unfold sms_store_find_outbound_reference. rewrite Hinit. cbn [negb].
  rewrite for_slots_readable by apply Hf.
  match goal with |- context [fold_slots ?b 0 ?l None] =>
    pose proof (fold_slots_inv (fun a : option (Z * nat * nat) =>
      match a with Some (_, s, _) => (s < SMS_STORE_MAX_RECORDS)%nat | None => True end) b 0 l None I) as F end.
  destruct (fold_slots _ _ _ _) as [[[k slot] j]|]; [|done].
  assert (slot < SMS_STORE_MAX_RECORDS)%nat as Hslot.
  { apply F. intros i0 o a Hi Ha. rewrite slots_length in Hi. destruct o as [m0|]; [|done].
    destruct (_ && _); [|done].
    pose proof (reference_segments_slot m0 i0 reference 0 (Z.to_nat (segment_count m0)) a) as R.
    destruct (reference_segments _ _ _ _ _ _) as [[[k' s] j']|]; [|done].
    destruct R as [->|(k2 & j2 & ->)]; [lia|done]. }
  clear F. unfold load_found. rewrite readable_load by (apply Hf || done).
  destruct (slot_msg (s_handle st) slot) as [m'|] eqn:Es; intros [= -> ->].
  apply records_lookup; [apply Hf|]. exists slot. split; [|done]. rewrite slots_lookup by done. by rewrite Es.
Qed.

Lemma apply_report_step report segment m :
  writable m -> is_byte (rep_status report) ->
  record_step m (apply_report report segment m) /\ writable (apply_report report segment m).
Proof.
  intros Hw Hb. unfold apply_report. set (m1 := set_report _ _ _ _ m).
  assert (writable m1) as Hw1 by (by apply writable_report).
  assert (record_step m m1) as Hs1 by apply record_step_report. clearbody m1. cbv zeta.
  destruct (_ =? _); [|destruct (negb _)]; [split; [trans m1; [done|by apply record_step_status]|by apply writable_status]..|done].
Qed.

Lemma status_report_evolves pdu (sv sv' : service) e :
  inv sv -> process_status_report_pdu env pdu sv = (sv', e) -> evolves silent 0 sv sv'.
Proof.
  intros Hinv E. unfold process_status_report_pdu in E.
  destruct (sms_status_report_decode (Some pdu) report_zero) as [r report] eqn:Ed.
  pose proof (report_decode_sound _ _ _ Ed) as Hrep.
  case_bool_decide; cbn [negb] in E; [|injection E as <- <-; apply count_evolves].
  destruct (allocate env (count C_delivery_reports sv)) as [sv1 ok] eqn:Ea.
  destruct (allocate_spec env (count C_delivery_reports sv) sv1 ok Hinv Ea) as (Es1 & E1 & Hinv1 & _ & _).
  assert (evolves silent 0 sv sv1) as E1' by (eapply evolves_then; [lia|apply count_evolves|exact E1]).
  destruct ok; cbn [negb] in E; [|by injection E as <- <-].
  destruct (sms_store_find_outbound_reference _ _ _) as [err|[m segment]] eqn:Ef; [by injection E as <- <-|].
  pose proof (outbound_reference_spec _ _ _ _ _ Hinv1 Ef) as Hm.
  destruct (records_writable sv1 _ _ Hinv1 Hm) as (Hw & _).
  destruct (apply_report_step report segment m Hw (rok_status _ Hrep)) as [Hstep Hw'].
  set (m1 := apply_report report segment m) in *.
  assert (id m1 = id m) as Ei by apply Hstep.
  destruct (svc_save m1 sv1) as [[sv2 m2] err] eqn:Es.
  destruct (save_existing_evolves m m1 _ _ _ _ Hinv1 ltac:(by rewrite Ei) Hstep Hw' Es) as (E2 & -> & _ & _ & Hrec & _).
  injection E as <- <-. eapply evolves_then; [lia|exact E1'|]. eapply evolves_then; [lia|exact E2|].
  case_bool_decide as He; [|apply evolves_refl].
  assert (recs sv2 !! id m1 = Some m1) as Hm2 by (rewrite (Hrec He); apply lookup_insert_eq).
  by do 2 (case_bool_decide; [by apply emit_evolves|]); apply evolves_refl.
Qed.

(** ** Lines and listings *)

Lemma any_pdu_spec pdu index (sv sv' : service) e :
  inv sv -> next sv + 2 <= UINT32_MAX -> process_any_pdu env pdu index sv = (sv', e) ->
  evolves (fun ef => quiet ef /\ match ef with
    | E_request _ r _ _ st => r = cmgd_request index /\
        (sms_pdu_type_detect (Some pdu) = SMS_PDU_TYPE_DELIVER -> pdu_kept st pdu)
    | _ => True end) 2 sv sv'.
Proof.
  intros Hinv Hmax E. unfold process_any_pdu in E. set (P := fun ef : effect => _).
  assert (forall ef, silent ef -> P ef) as HP.
  { intros ef Hs. split; [by apply silent_quiet|]. destruct ef; try done. by destruct Hs. }
  destruct (sms_pdu_type_detect (Some pdu)) eqn:Et.
  - injection E as <- <-. eapply evolves_weaken; [|exact HP|apply count_evolves]. lia.
  - destruct (deliver_pdu_spec _ _ _ _ _ _ Hinv Hmax E) as [E1 _].
    eapply evolves_weaken; [reflexivity| |exact E1]. intros ef [Hq He]. split; [done|].
    destruct ef; try done. by destruct He.
  - destruct (process_status_report_pdu env pdu sv) as [sv1 err] eqn:Er.
    pose proof (status_report_evolves _ _ _ _ Hinv Er) as E1. injection E as <- <-.
    apply (evolves_weaken P _ 0 2); [lia|done|].
    assert (evolves P 0 sv sv1) as E1' by (by eapply evolves_weaken; [|exact HP|exact E1]).
    case_bool_decide; [|done]. eapply evolves_then; [lia|exact E1'|].
    eapply evolves_weaken; [reflexivity| |apply delete_if_spec]. intros ef [Hq He]. split; [done|].
    destruct ef; try done. by destruct He as [-> _].
Qed.

(** C4. The modem's copy goes last: whatever PDU is read from slot [index] of
    the modem, the only thing asked of the modem is to delete that slot, and
    at that moment an incoming message is in the store (its complete record,
    its part, the message assembled from its parts, or the raw PDU when it
    cannot be shown); and when the service reports success it still is. *)
Theorem modem_copy_deleted_last pdu index (sv sv' : service) e :
  inv sv -> next sv + 2 <= UINT32_MAX -> process_any_pdu env pdu index sv = (sv', e) ->
  inv sv' /\
  (exists es, sv_trace sv' = es ++ sv_trace sv /\
     forall tag r err resp st, E_request tag r err resp st ∈ es ->
       r = cmgd_request index /\ tag = None /\
       (sms_pdu_type_detect (Some pdu) = SMS_PDU_TYPE_DELIVER -> pdu_kept st pdu)) /\
  (e = ESP_OK -> sms_pdu_type_detect (Some pdu) = SMS_PDU_TYPE_DELIVER -> pdu_kept (sv_store sv') pdu).
Proof.
  intros Hinv Hmax E. destruct (any_pdu_spec _ _ _ _ _ Hinv Hmax E Hinv Hmax) as [I _ _ (es & T & P)].
  split_and!; [done|exists es; split; [done|]|].
  - intros tag r err resp st Hin. rewrite Forall_forall in P. destruct (P _ Hin) as [[_ Ht] [Hr Hk]]. by split_and!.
  - intros -> Et. unfold process_any_pdu in E. rewrite Et in E. by apply (deliver_pdu_spec _ _ _ _ _ _ Hinv Hmax E).
Qed.

Lemma any_pdu_evolves pdu index (sv sv' : service) e :
  inv sv -> next sv + 2 <= UINT32_MAX -> process_any_pdu env pdu index sv = (sv', e) -> evolves quiet 2 sv sv'.
Proof.
  intros Hinv Hmax E. eapply evolves_weaken; [reflexivity| |by eapply any_pdu_spec]. by intros ef [Hq _].
Qed.

Lemma deliver_pdu_evolves pdu index (sv sv' : service) e :
  inv sv -> next sv + 2 <= UINT32_MAX -> process_deliver_pdu env pdu index sv = (sv', e) -> evolves quiet 2 sv sv'.
Proof.
  intros Hinv Hmax E. eapply evolves_weaken; [reflexivity| |by eapply deliver_pdu_spec]. by intros ef [Hq _].
Qed.

(** A simple command in front. *)
Lemma simple_quiet command0 prefixes timeout response (sv sv' : service) ok response' :
  response_ok response -> execute_simple env command0 prefixes timeout response sv = (sv', ok, response') ->
  sv_store sv' = sv_store sv /\ evolves quiet 0 sv sv' /\ response_ok response'.
Proof.
  intros Hr E. destruct (simple_evolves _ _ _ _ _ _ _ _ _ Hr E) as (Es & E1 & Hr'). split_and!; [done| |done].
  eapply evolves_weaken; [reflexivity| |exact E1]. by intros ef [Hq _].
Qed.

Lemma silent_evolves n (sv sv' : service) : evolves silent n sv sv' -> evolves quiet n sv sv'.
Proof. by apply evolves_weaken; [|apply silent_quiet]. Qed.

Lemma read_index_evolves index (sv sv' : service) e :
  inv sv -> next sv + 2 <= UINT32_MAX -> read_modem_index env index sv = (sv', e) -> evolves quiet 2 sv sv'.
Proof.
  intros Hinv Hmax E. unfold read_modem_index in E.
  destruct (execute_simple _ _ _ _ _ _) as [[sv1 ok] resp] eqn:Ex.
  destruct (simple_quiet _ _ _ _ _ _ _ _ response_zero_ok Ex) as (Es & E1 & _).
  assert (evolves quiet 2 sv sv1) as E1' by (eapply evolves_weaken; [|done|exact E1]; lia).
  destruct ok; cbn [negb] in E; [|by injection E as <- <-].
  destruct (first_pdu_line _ _ _); [|by injection E as <- <-].
  eapply (evolves_after _ 2); [lia|exact E1|].
  eapply any_pdu_evolves; [| |exact E]; unfold inv, next; by rewrite Es.
Qed.

Lemma scan_lines_evolves response i n pending processed (sv sv' : service) k :
  inv sv -> next sv + 2 * Z.of_nat n <= UINT32_MAX ->
  scan_lines env response i n pending processed sv = (sv', k) -> evolves quiet (2 * Z.of_nat n) sv sv'.
Proof.
  revert i pending processed sv. induction n as [|n IH]; intros i pending processed sv Hinv Hmax E; cbn [scan_lines] in E.
  { injection E as <- <-. apply evolves_refl. }
  assert (forall i p q s, scan_lines env response i n p q s = (sv', k) -> inv s -> next s + 2 * Z.of_nat n <= UINT32_MAX ->
    evolves quiet (2 * Z.of_nat n) s sv') as IH' by (intros; by eapply IH).
  assert (forall i p q, scan_lines env response i n p q sv = (sv', k) -> evolves quiet (2 * Z.of_nat (S n)) sv sv') as Hskip.
  { intros i' p q E'. apply (evolves_weaken quiet _ (2 * Z.of_nat n)); [lia|done|].
    eapply IH'; [exact E'|done|lia]. }
  destruct (match at_response_line _ _ with Some l => _ | None => None end); [by eapply Hskip|].
  destruct (at_response_line _ _) as [l|]; [|by eapply Hskip].
  destruct (_ && _); [|by eapply Hskip].
  destruct (process_any_pdu env l pending sv) as [sv1 err] eqn:Ep.
  pose proof (any_pdu_evolves _ _ _ _ _ Hinv ltac:(lia) Ep) as E1.
  assert (inv sv1) as Hinv1 by (eapply evolves_inv; [exact E1|done|lia]).
  pose proof (ev_next _ _ _ _ (E1 Hinv ltac:(lia))).
  replace (2 * Z.of_nat (S n)) with (2 + 2 * Z.of_nat n) by lia.
  eapply evolves_trans; [lia|lia|exact E1|]. eapply IH'; [exact E|done|lia].
Qed.

(** The identifiers one listing may use: two for each line of a response. *)
Definition BATCH_IDS : Z := 2 * Z.of_nat AT_ENGINE_MAX_RESPONSE_LINES.

Lemma scan_batches_evolves batches (sv : service) :
  inv sv -> next sv + BATCH_IDS * Z.of_nat batches <= UINT32_MAX ->
  evolves quiet (BATCH_IDS * Z.of_nat batches) sv (scan_batches env batches sv).
Proof.
  assert (0 <= BATCH_IDS) as Hids by (unfold BATCH_IDS; lia).
  revert sv. induction batches as [|batches IH]; intros sv Hinv Hmax; cbn [scan_batches].
  { rewrite Z.mul_0_r. apply evolves_refl. }
  replace (BATCH_IDS * Z.of_nat (S batches)) with (BATCH_IDS + BATCH_IDS * Z.of_nat batches) in * by lia.
  assert (0 <= BATCH_IDS * Z.of_nat batches) as Hrest by (apply Z.mul_nonneg_nonneg; lia).
  destruct (execute_simple _ _ _ _ _ _) as [[sv1 ok] resp] eqn:Ex.
  destruct (simple_quiet _ _ _ _ _ _ _ _ response_zero_ok Ex) as (Es & E1 & Hr & _).
  assert (inv sv1 /\ next sv1 = next sv) as [Hinv1 N1] by (unfold inv, next; by rewrite Es).
  destruct ok; cbn [negb].
  2: { eapply (evolves_weaken quiet _ 0); [lia|done|]. eapply evolves_then; [lia|exact E1|].
       apply silent_evolves, count_evolves. }
  destruct (scan_lines env resp 0 (length (resp_line_offsets resp)) (-1) 0 sv1) as [sv2 k] eqn:El.
  assert (2 * Z.of_nat (length (resp_line_offsets resp)) <= BATCH_IDS) as Hlines by (unfold BATCH_IDS; lia).
  pose proof (scan_lines_evolves resp 0 (length (resp_line_offsets resp)) (-1) 0 sv1 sv2 k Hinv1 ltac:(lia) El) as E2.
  assert (evolves quiet BATCH_IDS sv sv2) as E2'.
  { eapply (evolves_weaken quiet _ (2 * Z.of_nat (length (resp_line_offsets resp)))); [lia|done|].
    eapply evolves_after; [lia|exact E1|exact E2]. }
  destruct (_ =? _)%nat; [eapply evolves_weaken; [|done|exact E2']; lia|].
  pose proof (ev_next _ _ _ _ (E2' Hinv ltac:(lia))).
  eapply evolves_trans; [lia|lia|exact E2'|]. apply IH; [|lia]. eapply evolves_inv; [exact E2'|done|lia].
Qed.

Definition SCAN_IDS : Z := BATCH_IDS * Z.of_nat SMS_STORE_MAX_RECORDS.

Lemma scan_evolves (sv : service) :
  inv sv -> next sv + SCAN_IDS <= UINT32_MAX -> evolves quiet SCAN_IDS sv (scan_stored_messages env sv).
Proof.
  intros Hinv Hmax. unfold scan_stored_messages.
  eapply evolves_after; [vm_compute; discriminate|apply silent_evolves, count_evolves|].
  by apply scan_batches_evolves.
Qed.

(** ** Set-up and polling *)

Lemma setup_command_evolves command0 (sv sv' : service) ok :
  setup_command env command0 sv = (sv', ok) -> sv_store sv' = sv_store sv /\ evolves quiet 0 sv sv'.
Proof.
  unfold setup_command. intros E. destruct (execute_simple _ _ _ _ _ _) as [[sv1 ok1] resp] eqn:Ex.
  destruct (simple_quiet _ _ _ _ _ _ _ _ response_zero_ok Ex) as (Es & E1 & _).
  destruct ok1; injection E as <- <-; [done|]. split; [done|].
  eapply evolves_then; [lia|exact E1|apply silent_evolves, diagnostics_evolves].
Qed.

Lemma setup_first_evolves commands (sv sv' : service) ok :
  setup_first env commands sv = (sv', ok) -> sv_store sv' = sv_store sv /\ evolves quiet 0 sv sv'.
Proof.
  revert sv. induction commands as [|c commands IH]; intros sv E; cbn [setup_first] in E.
  { injection E as <- <-. split; [done|apply evolves_refl]. }
  destruct (setup_command env c sv) as [sv1 ok1] eqn:Ec. destruct (setup_command_evolves _ _ _ _ Ec) as [Es E1].
  destruct ok1; [by injection E as <- <-|]. destruct (IH _ E) as [Es2 E2].
  split; [by rewrite Es2|]. by eapply evolves_then; [lia|exact E1|exact E2].
Qed.

Lemma SCAN_IDS_nonneg : 0 <= SCAN_IDS.
Proof. by vm_compute. Qed.

Lemma configure_evolves (sv : service) :
  inv sv -> next sv + SCAN_IDS <= UINT32_MAX -> evolves quiet SCAN_IDS sv (configure_pdu_mode env sv).1.
Proof.
  intros Hinv Hmax. pose proof SCAN_IDS_nonneg. unfold configure_pdu_mode.
  destruct (setup_command env (str "AT+CMGF=0") (count C_setup_attempts sv)) as [sv1 ok1] eqn:E1.
  apply setup_command_evolves in E1 as [Es1 E1].
  assert (evolves quiet 0 sv sv1) as E1'.
  { eapply evolves_then; [lia|apply silent_evolves, count_evolves|exact E1]. }
  destruct ok1; cbn [negb fst]; [|eapply evolves_weaken; [|done|exact E1']; lia].
  destruct (setup_first env cnmi sv1) as [sv2 ok2] eqn:E2. apply setup_first_evolves in E2 as [Es2 E2].
  assert (evolves quiet 0 sv sv2) as E2' by (by eapply evolves_then; [lia|exact E1'|exact E2]).
  destruct ok2; cbn [negb fst]; [|eapply evolves_weaken; [|done|exact E2']; lia].
  eapply evolves_after; [lia|exact E2'|]. eapply evolves_after; [lia|apply silent_evolves, diagnostics_evolves|].
  apply scan_evolves; unfold inv, next in *; cbn [set_diagnostics sv_store]; rewrite Es2, Es1; done.
Qed.

Lemma poll_evolves last (sv sv' : service) last' :
  inv sv -> next sv + SCAN_IDS <= UINT32_MAX -> poll_inbox_if_due env last sv = (sv', last') ->
  evolves quiet SCAN_IDS sv sv'.
Proof.
  intros Hinv Hmax E. pose proof SCAN_IDS_nonneg. unfold poll_inbox_if_due in E.
  destruct (xTaskGetTickCount env sv) as [sv1 now] eqn:Et. pose proof (ticks_evolves _ _ _ _ Et) as E1.
  assert (sv_store sv1 = sv_store sv) as Es1 by (by injection Et as <- _).
  destruct (negb _); [injection E as <- <-; eapply evolves_weaken; [|apply silent_quiet|exact E1]; lia|].
  destruct (modem_ready env sv1) as [sv2 ready] eqn:Er. destruct (ready_evolves _ _ _ _ Er) as [Es2 E2].
  assert (evolves quiet 0 sv sv2) as E2' by (eapply silent_evolves, evolves_then; [lia|exact E1|exact E2]).
  destruct (_ || _)%bool; injection E as <- <-; [eapply evolves_weaken; [|done|exact E2']; lia|].
  eapply evolves_after; [lia|exact E2'|]. apply scan_evolves; unfold inv, next; by rewrite Es2, Es1.
Qed.

Lemma retry_setup_evolves last (sv sv' : service) last' :
  inv sv -> next sv + SCAN_IDS <= UINT32_MAX -> retry_pdu_mode_if_needed env last sv = (sv', last') ->
  evolves quiet SCAN_IDS sv sv'.
Proof.
  intros Hinv Hmax E. pose proof SCAN_IDS_nonneg. unfold retry_pdu_mode_if_needed in E.
  destruct (sd_pdu_mode_configured _); [injection E as <- <-; eapply evolves_weaken; [|done|apply evolves_refl]; lia|].
  destruct (modem_ready env sv) as [sv1 ready] eqn:Er. destruct (ready_evolves _ _ _ _ Er) as [Es1 E1].
  destruct (negb ready); [injection E as <- <-; eapply evolves_weaken; [|apply silent_quiet|exact E1]; lia|].
  destruct (xTaskGetTickCount env sv1) as [sv2 now] eqn:Et. pose proof (ticks_evolves _ _ _ _ Et) as E2.
  assert (sv_store sv2 = sv_store sv1) as Es2 by (by injection Et as <- _).
  assert (evolves quiet 0 sv sv2) as E2' by (eapply silent_evolves, evolves_then; [lia|exact E1|exact E2]).
  destruct (_ && _); injection E as <- <-; [eapply evolves_weaken; [|done|exact E2']; lia|].
  eapply evolves_after; [lia|exact E2'|]. eapply evolves_after; [lia|apply silent_evolves, diagnostics_evolves|].
  apply configure_evolves; unfold inv, next in *; cbn [set_modem_ready set_diagnostics sv_store]; by rewrite Es2, Es1.
Qed.

Lemma handle_urc_evolves line (sv : service) :
  inv sv -> next sv + 2 <= UINT32_MAX -> evolves quiet 2 sv (handle_urc_line env line sv).
Proof.
  intros Hinv Hmax. unfold handle_urc_line.
  assert (forall p, evolves quiet 0 sv (set_direct_pending sv p)) as Hp by (intros; by apply (evolves_same _ _ _ [])).
  assert (forall s, evolves quiet 0 sv s -> evolves quiet 2 sv s) as H2.
  { intros s E. eapply evolves_weaken; [|done|exact E]. lia. }
  assert (forall pending, evolves quiet 2 sv
    (if is_hex_pdu_line (Some line) then
       match pending with
       | DIRECT_URC_DELIVER => (process_deliver_pdu env line (-1) (set_direct_pending sv DIRECT_URC_NONE)).1
       | _ => (process_status_report_pdu env line (set_direct_pending sv DIRECT_URC_NONE)).1
       end
     else count C_decode_failures (set_direct_pending sv DIRECT_URC_NONE))) as Hdirect.
  { intros pending. eapply (evolves_after _ 2); [lia|apply (Hp DIRECT_URC_NONE)|].
    set (s := set_direct_pending sv DIRECT_URC_NONE).
    assert (evolves quiet 2 s (process_status_report_pdu env line s).1) as Hr.
    { destruct (process_status_report_pdu env line s) as [s1 e] eqn:E. cbn [fst].
      eapply evolves_weaken; [|apply silent_quiet|eapply status_report_evolves; [|exact E]; done]. lia. }
    destruct (is_hex_pdu_line _); [|eapply evolves_weaken; [|apply silent_quiet|apply count_evolves]; lia].
    destruct pending; try exact Hr.
    destruct (process_deliver_pdu env line (-1) s) as [s1 e] eqn:E. by eapply deliver_pdu_evolves; [| |exact E]. }
  destruct (sv_direct_pending sv); [|apply (Hdirect DIRECT_URC_DELIVER)|apply (Hdirect DIRECT_URC_STATUS_REPORT)].
  case_bool_decide; [by apply H2|]. case_bool_decide; [by apply H2|].
  destruct (match parse_index_urc line (str "+CMTI:") with Some i => Some i | None => _ end) as [index|];
    [|apply H2, evolves_refl].
  destruct (read_modem_index env index sv) as [s1 e] eqn:E. by eapply read_index_evolves.
Qed.

End Turn.

(** ** Example: a message of one part arrives from slot 3 *)

Lemma modem_copy_deleted_last_witness :
  pdu_kept (sv_store (process_any_pdu sample_env sample_deliver_pdu 3 (sample_service empty_store)).1)
    sample_deliver_pdu.
Proof.
  set (sv := sample_service empty_store).
  destruct (modem_copy_deleted_last sample_env sample_deliver_pdu 3 sv
    (process_any_pdu sample_env sample_deliver_pdu 3 sv).1 ESP_OK) as (_ & _ & Hkept).
  - exact empty_store_inv.
  - vm_compute. discriminate.
  - assert ((process_any_pdu sample_env sample_deliver_pdu 3 sv).2 = ESP_OK) as E by (vm_compute; reflexivity).
    rewrite (surjective_pairing (process_any_pdu _ _ _ _)) at 1. by rewrite E.
  - apply Hkept; [reflexivity|]. vm_compute. reflexivity.
Defined.

(** Blanks after the comma are read as index 0: the check that digits were
    read compares with [end] after the blanks were skipped. *)
Lemma blank_index_accepted : parse_index_urc (str "+CMTI: SM, ") (str "+CMTI:") = Some 0.
Proof. vm_compute. reflexivity. Qed.
