(* ===== verification/SmsServiceSend.v ===== *)
(** * Sending one message

    [process_one_outbound]: what it asks the modem, in which state of the
    store, and what the store holds afterwards.  A segment is requested at most
    once; afterwards its message is marked as having it sent, or is no longer
    queued. *)

From Stdlib Require Import ZifyBool ZifyNat.
From stdpp Require Import base numbers list strings gmap.
From S2P Require Import Prelude.
From S2P Require Import PduEncode.
From S2P Require Import AtEngine.
From S2P Require Import SmsMessage.
From S2P Require Import Nvs.
From S2P Require Import SmsStore.
From S2P Require Import SmsStoreFacts.
From S2P Require Import SmsStoreSpec.
From S2P Require Import SmsService.
From S2P Require Import SmsServiceFacts.

Open Scope Z_scope.

(** ** The sent marks *)

Lemma sent_bit i j r m :
  0 <= j -> (i < 16)%nat ->
  Z.testbit (segment_sent_mask (set_sent i r m)) j = Z.testbit (segment_sent_mask m) j || (j =? Z.of_nat i).
Proof.
  intros Hj Hi. cbn [segment_sent_mask set_sent]. rewrite Z.lor_spec. f_equal.
  assert (u16 (Z.shiftl 1 (Z.of_nat i)) = Z.shiftl 1 (Z.of_nat i)) as ->.
  { unfold u16. apply Z.mod_small. rewrite Z.shiftl_1_l. split; [lia|].
    apply (Z.pow_lt_mono_r 2 (Z.of_nat i) 16); lia. }
  rewrite Z.shiftl_1_l, Z.pow2_bits_eqb by lia. by rewrite Z.eqb_sym.
Qed.

(** ** Records of one message *)

(** The message with the same payload, and at least the same marks. *)
Record payload_step (m m' : sms_message_t) : Prop := {
  ps_id : id m' = id m;
  ps_direction : direction m' = direction m;
  ps_sent j : Z.testbit (segment_sent_mask m) j = true -> Z.testbit (segment_sent_mask m') j = true;
  ps_payload : same_payload m m';
  ps_received : status m' = SMS_MESSAGE_RECEIVED -> status m = SMS_MESSAGE_RECEIVED /\ same_content m m';
}.

#[export] Instance payload_step_preorder : PreOrder payload_step.
Proof.
  split.
  - intros m. by split.
  - intros m1 m2 m3 [? ? ? (? & ? & ? & ? & ?) R1] [? ? ? (? & ? & ? & ? & ?) R2].
    split; try congruence; auto; [split_and!; congruence|].
    intros E. destruct (R2 E) as [E' (? & ? & ?)]. destruct (R1 E') as [? (? & ? & ?)]. unfold same_content.
    split_and!; congruence.
Qed.

Lemma payload_status s m : s <> SMS_MESSAGE_RECEIVED -> payload_step m (set_status s m).
Proof. by split. Qed.
Lemma payload_inflight i m : payload_step m (set_inflight i m).
Proof. by split. Qed.
Lemma payload_attempts a m : payload_step m (set_send_attempts a m).
Proof. by split. Qed.
Lemma payload_error e m : payload_step m (set_last_modem_error e m).
Proof. by split. Qed.
Lemma payload_sent i r m : payload_step m (set_sent i r m).
Proof. split; try done. intros j Hj. cbn [segment_sent_mask set_sent]. by rewrite Z.lor_spec, Hj. Qed.

#[local] Hint Resolve payload_status payload_inflight payload_attempts payload_error payload_sent : gw.

(** A queued message may become anything but lose its payload and marks. *)
Lemma payload_record m m' : status m = SMS_MESSAGE_QUEUED -> payload_step m m' -> record_step m m'.
Proof. intros Hq []. by split. Qed.

Lemma stored_encode_payload m m' : same_payload m m' -> stored_encode m' = stored_encode m.
Proof. intros (Hr & Ht & Hd & Hc & Hs). unfold stored_encode. by rewrite Hr, Ht, Hd, Hc, Hs. Qed.

Lemma stored_encode_length m segments :
  stored_encode m = Some segments -> Z.of_nat (length segments) = segment_count m.
Proof.
  unfold stored_encode. destruct (sms_submit_encode _ _ _ _ _) as [segs|]; [|done].
  destruct (_ || _) eqn:E; [done|]. intros [= <-]. boolify. lia.
Qed.

Section Send.

Context {N : Type} `{NvsLaws N}.

Abbreviation service := (@service N).
Abbreviation effect := (@effect N).

Variable env : @environment N.

(** Only the record [k] changes, and only by such steps. *)
Record resend (k : Z) (sv sv' : service) : Prop := {
  re_inv : inv sv';
  re_next : next sv' = next sv;
  re_other k' : k' <> k -> recs sv' !! k' = recs sv !! k';
  re_record m : recs sv !! k = Some m -> exists w, recs sv' !! k = Some w /\ payload_step m w;
}.

Lemma resend_refl k (sv : service) : inv sv -> resend k sv sv.
Proof. intros Hinv. split; try done. intros m Hm. by exists m. Qed.

Lemma resend_same k (sv sv' : service) : inv sv -> sv_store sv' = sv_store sv -> resend k sv sv'.
Proof.
  intros Hinv Es. split; unfold inv, next, recs in *; rewrite ?Es; try done. intros m Hm. by exists m.
Qed.

Lemma resend_trans k (sv1 sv2 sv3 : service) : resend k sv1 sv2 -> resend k sv2 sv3 -> resend k sv1 sv3.
Proof.
  intros [I1 N1 O1 R1] [I2 N2 O2 R2]. split; [done|congruence| |].
  - intros k' Hk. by rewrite O2, O1.
  - intros m Hm. destruct (R1 m Hm) as (w1 & Hw1 & S1). destruct (R2 w1 Hw1) as (w2 & Hw2 & S2).
    exists w2. split; [done|by trans w1].
Qed.

Lemma resend_save k m0 m (sv sv' : service) m' err :
  inv sv -> recs sv !! k = Some m0 -> id m = k -> payload_step m0 m -> writable m ->
  svc_save m sv = (sv', m', err) ->
  resend k sv sv' /\ m' = m /\ sv_trace sv' = sv_trace sv /\
  (err = ESP_OK -> recs sv' !! k = Some m) /\ (recs sv' !! k = recs sv !! k \/ recs sv' !! k = Some m).
Proof.
  intros Hinv Hm0 <- Hstep (Hok & Hid & Hs) E. unfold svc_save in E.
  destruct (sms_store_save (sv_store sv) m) as [[st m1] e] eqn:Es. injection E as <- <- <-.
  destruct (records_writable sv _ _ Hinv Hm0) as (_ & _ & Hlt).
  destruct (save_existing_spec _ _ _ _ _ Hinv Hok Hs Hid Hlt Es) as (Hinv' & Hnext & -> & _ & Hrec).
  assert (recs (set_store sv st) = recs sv \/ recs (set_store sv st) = <[id m := m]> (recs sv)) as Hrec2.
  { unfold recs in *. cbn [set_store sv_store]. case_bool_decide; [by right|done]. }
  split_and!; try done.
  - split; [done|exact Hnext| |].
    + intros k' Hk. destruct Hrec2 as [-> | ->]; [done|by rewrite lookup_insert_ne].
    + intros w Hw. rewrite Hm0 in Hw. injection Hw as <-.
      destruct Hrec2 as [-> | ->]; [by exists m0|]. exists m. by rewrite lookup_insert_eq.
  - intros ->. rewrite bool_decide_eq_true_2 in Hrec by done. unfold recs. cbn [set_store sv_store].
    rewrite Hrec. apply lookup_insert_eq.
  - destruct Hrec2 as [-> | ->]; [by left|right; apply lookup_insert_eq].
Qed.

(** ** The requests with a segment, newest first *)

Definition attempts (es : list effect) : list (Z * nat) := omap tag_of es.

Lemma attempts_app es es' : attempts (es ++ es') = attempts es ++ attempts es'.
Proof. apply omap_app. Qed.

(** The new effects. *)
Definition adds (sv sv' : service) (es : list effect) : Prop :=
  sv_trace sv' = es ++ sv_trace sv /\ Forall sound es.

Lemma adds_trans (sv1 sv2 sv3 : service) es1 es2 : adds sv1 sv2 es1 -> adds sv2 sv3 es2 -> adds sv1 sv3 (es2 ++ es1).
Proof.
  intros [T1 S1] [T2 S2]. split; [by rewrite T2, T1, app_assoc|by apply Forall_app].
Qed.

Lemma adds_nil (sv sv' : service) : sv_trace sv' = sv_trace sv -> adds sv sv' [].
Proof. by split. Qed.

(** The message is on its way or decided, or the segment is marked. *)
Definition spent (m : sms_message_t) (j : nat) : Prop :=
  Z.testbit (segment_sent_mask m) (Z.of_nat j) = true \/ status m <> SMS_MESSAGE_QUEUED.

Lemma emit_adds event m (sv : service) :
  durable event = false \/ recs sv !! id m = Some m ->
  exists es, adds sv (emit_event event m sv) es /\ attempts es = [].
Proof.
  intros Hm. unfold emit_event. destruct (sv_event_cb sv); [|by exists []; split; [apply adds_nil|]].
  exists [E_event event m (sv_store sv)]. split; [|done]. split; [done|]. constructor; [|constructor].
  intros Hd. destruct Hm as [Hm|Hm]; [congruence|exact Hm].
Qed.

(** What sending one segment, or several, does to the message [k]. *)
Record sent_from (k : Z) (m : sms_message_t) (lo : nat) (sv sv' : service) (es : list effect) : Prop := {
  sf_resend : resend k sv sv';
  sf_adds : adds sv sv' es;
  sf_nodup : NoDup (attempts es);
  sf_attempt k' j : (k', j) ∈ attempts es ->
    k' = k /\ (lo <= j)%nat /\ Z.testbit (segment_sent_mask m) (Z.of_nat j) = false /\
    exists w, recs sv' !! k = Some w /\ spent w j;
}.

Lemma sent_from_none k m lo (sv sv' : service) es :
  resend k sv sv' -> adds sv sv' es -> attempts es = [] -> sent_from k m lo sv sv' es.
Proof.
  intros Hr Ha He. split; [done|done|rewrite He; constructor|].
  intros k' j Hj. rewrite He in Hj. by apply elem_of_nil in Hj.
Qed.

(** The reference the modem gives is a byte. *)
Lemma confirmed_byte err resp r : confirmed err resp = Some r -> is_byte r.
Proof.
  unfold confirmed, parse_cmgs_reference. destruct (_ || _)%bool; [done|].
  generalize (length (resp_line_offsets resp)) as n, 0%nat as i.
  induction n as [|n IH]; intros i E; cbn [cmgs_reference_loop] in E; [done|].
  destruct (cmgs_reference _) as [r'|] eqn:Ec; [|by eapply IH]. injection E as ->.
  unfold cmgs_reference in Ec. destruct (at_response_line _ _); [|done]. destruct (negb _); [done|].
  destruct (strtol _) as [[v rest]|]; [|done]. destruct (_ && _) eqn:Ev; [|done]. injection Ec as ->.
  boolify. unfold is_byte. lia.
Qed.

(** The message has been requested, and the record is what was saved last. *)
Lemma send_segment_spec k m segments segment i (sv sv' : service) m' err :
  inv sv -> recs sv !! k = Some m ->
  stored_encode m = Some segments -> segments !! i = Some segment -> (i < 16)%nat ->
  Z.testbit (segment_sent_mask m) (Z.of_nat i) = false ->
  send_segment env m segment i sv = (sv', m', err) ->
  exists es, sent_from k m i sv sv' es /\ (forall j, (k, j) ∈ attempts es -> j = i) /\
    (err = ESP_OK -> recs sv' !! k = Some m' /\ payload_step m m' /\
       forall j, 0 <= j -> Z.testbit (segment_sent_mask m') j = Z.testbit (segment_sent_mask m) j || (j =? Z.of_nat i)).
Proof.
  intros Hinv Hm Henc Hseg Hi16 Hbit E. destruct (records_writable sv _ _ Hinv Hm) as (Hw & Hid & _).
  unfold send_segment in E.
  assert ((segment_count m <=? Z.of_nat i) = false) as Hcnt.
  { apply lookup_lt_Some in Hseg. pose proof (stored_encode_length _ _ Henc). lia. }
  rewrite Hcnt in E. clear Hcnt.
  set (m1 := set_send_attempts _ _) in E.
  assert (payload_step m m1) as S1.
  { etrans; [|apply payload_attempts]. etrans; [|apply payload_inflight]. by apply payload_status. }
  assert (writable m1) as W1 by (unfold m1; auto 6 with gw).
  destruct (svc_save m1 sv) as [[sv1 m1'] e1] eqn:Es1.
  destruct (resend_save k m m1 sv sv1 m1' e1 Hinv Hm Hid S1 W1 Es1) as (R1 & -> & T1 & Hok1 & _).
  case_bool_decide as He1.
  { injection E as <- <- <-. exists []. split_and!; [|by intros j Hj%elem_of_nil|done].
    by apply sent_from_none; [|apply adds_nil|]. }
  assert (e1 = ESP_OK) as -> by (by destruct (decide (e1 = ESP_OK))). clear He1.
  specialize (Hok1 eq_refl). assert (Hinv1 := re_inv _ _ _ R1).
  destruct (allocate env sv1) as [sv2 ok] eqn:Ea. destruct (allocate_evolves _ _ _ _ Ea) as [Es2 _].
  assert (adds sv sv2 [E_alloc ok]) as A2.
  { injection Ea as <- <-. split; [cbn [log sv_trace]; by rewrite T1|]. by repeat constructor. }
  assert (recs sv2 = recs sv1) as R2 by (unfold recs; by rewrite Es2).
  assert (inv sv2) as Hinv2 by (unfold inv; by rewrite Es2).
  assert (resend k sv sv2) as R2' by (eapply resend_trans; [exact R1|by apply resend_same]).
  destruct ok; cbn [negb] in E.
  2: { set (m2 := set_inflight 0 (set_status SMS_MESSAGE_QUEUED m1)) in E.
       assert (payload_step m1 m2) as S2 by (etrans; [|apply payload_inflight]; by apply payload_status).
       assert (writable m2) as W2 by (unfold m2; auto using u8_uint8 with gw; apply writable_inflight; [auto with gw|unfold uint8; lia]).
       destruct (svc_save m2 sv2) as [[sv3 m2'] e2] eqn:Es3.
       destruct (resend_save k m1 m2 sv2 sv3 m2' e2 Hinv2 ltac:(by rewrite R2) Hid S2 W2 Es3) as (R3 & -> & T3 & _).
       injection E as <- <- <-. exists [E_alloc false]. split_and!; [|by intros j Hj%elem_of_nil|done].
       apply sent_from_none; [by eapply resend_trans| |done]. eapply (adds_trans _ _ _ _ []); [exact A2|by apply adds_nil]. }
  destruct (execute _ _ _ _ _) as [[sv3 e3] resp] eqn:Ex.
  pose proof (execute_response _ _ _ _ _ _ _ _ response_zero_ok Ex) as Hresp.
  destruct (execute_cases _ _ _ _ _ _ _ _ Ex) as (Es3 & es3 & T3 & Hes).
  assert (in_flight (sv_store sv2) k i (cmgs_request segment)) as Hfl.
  { exists m1, segments, segment. change (records (s_handle (sv_store sv2))) with (recs sv2). rewrite R2.
    split_and!; [exact Hok1|done| |exact Hbit| |exact Hseg|done].
    - cbn [m1 inflight_segment set_send_attempts set_inflight]. unfold u8. apply Z.mod_small. lia.
    - by rewrite (stored_encode_payload m). }
  change (id m1) with (id m) in Hes. rewrite Hid in Hes.
  assert (adds sv2 sv3 es3) as A3.
  { split; [done|]. destruct Hes as [[-> _]|[(b & -> & _)|(b & ->)]]; by repeat constructor. }
  assert (recs sv3 = recs sv1) as R3 by (unfold recs; by rewrite Es3, Es2).
  assert (inv sv3) as Hinv3 by (unfold inv; by rewrite Es3).
  assert (resend k sv sv3) as R3' by (eapply resend_trans; [exact R2'|by apply resend_same]).
  pose proof (adds_trans _ _ _ _ _ A2 A3) as A3'.
  assert (attempts es3 = [] \/ attempts es3 = [(k, i)]) as Hatt.
  { destruct Hes as [[-> _]|[(b & -> & _)|(b & ->)]]; [by left|by left|by right]. }
  (** Whatever is saved next and emitted decides the message. *)
  assert (forall m2 sv4 sv5 m2' e2 es5,
    payload_step m1 m2 -> writable m2 -> spent m2 i -> svc_save m2 sv3 = (sv4, m2', e2) ->
    sv_store sv5 = sv_store sv4 -> adds sv4 sv5 es5 -> attempts es5 = [] ->
    sent_from k m i sv sv5 (es5 ++ es3 ++ [E_alloc true]) /\
    (forall j, (k, j) ∈ attempts (es5 ++ es3 ++ [E_alloc true]) -> j = i) /\
    m2' = m2 /\ (e2 = ESP_OK -> recs sv5 !! k = Some m2)) as Hfin.
  { intros m2 sv4 sv5 m2' e2 es5 S2 W2 Hsp Es4 Es5 A5 Hn5.
    destruct (resend_save k m1 m2 sv3 sv4 m2' e2 Hinv3 ltac:(by rewrite R3) ltac:(by rewrite (ps_id _ _ S2)) S2 W2 Es4)
      as (R4 & -> & T4 & Hok4 & Hrec4).
    assert (recs sv5 = recs sv4) as R5 by (unfold recs; by rewrite Es5).
    assert (attempts (es5 ++ es3 ++ [E_alloc true]) = attempts es3) as Hall.
    { rewrite !attempts_app, Hn5. cbn. by rewrite app_nil_r. }
    assert (exists w, recs sv5 !! k = Some w /\ spent w i) as Hspent.
    { rewrite R5. destruct Hrec4 as [-> | ->]; [|by exists m2]. rewrite R3. exists m1. split; [done|by right]. }
    split_and!; [split| |done|by rewrite R5]; rewrite ?Hall.
    - eapply resend_trans; [exact R3'|]. eapply resend_trans; [exact R4|]. apply resend_same; [apply R4|done].
    - eapply adds_trans; [exact A3'|]. rewrite <- (app_nil_r es5). eapply adds_trans; [by apply adds_nil|exact A5].
    - destruct Hatt as [-> | ->]; [constructor|apply NoDup_singleton].
    - intros k' j Hj. destruct Hatt as [Ha|Ha]; rewrite Ha in Hj; [by apply elem_of_nil in Hj|].
      apply list_elem_of_singleton in Hj as [= -> ->]. by split_and!.
    - intros j Hj. destruct Hatt as [Ha|Ha]; rewrite Ha in Hj; [by apply elem_of_nil in Hj|].
      by apply list_elem_of_singleton in Hj as [= ->]. }
  destruct (confirmed e3 resp) as [r|] eqn:Ec.
  - set (m2 := set_last_modem_error 0 (set_inflight 0 (set_sent i r m1))) in E.
    assert (payload_step m1 m2) as S2.
    { etrans; [apply payload_sent|]. etrans; [apply payload_inflight|apply payload_error]. }
    assert (writable m2) as W2.
    { apply writable_error; [apply writable_inflight; [apply writable_sent; [done|]|]|];
        [by eapply confirmed_byte|unfold uint8; lia|unfold int32; lia]. }
    assert (forall j, 0 <= j -> Z.testbit (segment_sent_mask m2) j =
      Z.testbit (segment_sent_mask m) j || (j =? Z.of_nat i)) as Hbits by (intros j Hj; by apply (sent_bit i j r m1)).
    destruct (svc_save m2 sv3) as [[sv4 m2'] e4] eqn:Es4.
    destruct (Hfin m2 sv4 (if bool_decide (e4 = ESP_OK) then count C_outbound_segments_sent sv4 else sv4) m2' e4 []
      S2 W2) as (F1 & F2 & -> & F3); try done.
    { left. rewrite Hbits by lia. by rewrite Z.eqb_refl, orb_true_r. }
    { by case_bool_decide. }
    { apply adds_nil. by case_bool_decide. }
    injection E as <- <- <-. eexists. split; [exact F1|]. split; [exact F2|]. intros He.
    split_and!; [by apply F3|by trans m1|done].
  - set (m2 := set_last_modem_error _ _) in E.
    assert (payload_step m1 m2) as S2
      by (etrans; [|apply payload_error]; by apply payload_status).
    assert (writable m2) as W2.
    { apply writable_error; [by apply writable_status|]. case_bool_decide; [apply Hresp|unfold int32; lia]. }
    destruct (svc_save m2 sv3) as [[sv4 m2'] e4] eqn:Es4.
    set (sv5 := diag_set_error _ _ (count C_outbound_uncertain sv4)) in E.
    destruct (emit_adds SMS_SERVICE_EVENT_UNCERTAIN m2' sv5 ltac:(by left)) as (es5 & A5 & N5).
    destruct (Hfin m2 sv4 (emit_event SMS_SERVICE_EVENT_UNCERTAIN m2' sv5) m2' e4 es5 S2 W2)
      as (F1 & F2 & _ & _); try done.
    { by right. }
    { by rewrite emit_store. }
    injection E as <- <- <-. eexists. split; [exact F1|]. split; [exact F2|]. intros He.
    case_bool_decide; [done|congruence].
Qed.

(** The rest of the segments after one that was sent. *)
Lemma sent_from_trans k m m1 lo (sv sv1 sv2 : service) es1 es2 :
  recs sv1 !! k = Some m1 -> Z.testbit (segment_sent_mask m1) (Z.of_nat lo) = true ->
  (forall j, Z.testbit (segment_sent_mask m) (Z.of_nat j) = true -> Z.testbit (segment_sent_mask m1) (Z.of_nat j) = true) ->
  sent_from k m lo sv sv1 es1 -> (forall j, (k, j) ∈ attempts es1 -> j = lo) ->
  sent_from k m1 (S lo) sv1 sv2 es2 -> sent_from k m lo sv sv2 (es2 ++ es1).
Proof.
  intros Hm1 Hbit Hmono [R1 A1 N1 T1] Hlo [R2 A2 N2 T2]. split.
  - by eapply resend_trans.
  - by eapply adds_trans.
  - rewrite attempts_app. apply NoDup_app. split_and!; [done| |done].
    intros [k' j] Hj2 Hj1. destruct (T2 k' j Hj2) as (-> & Hle & _). specialize (Hlo j Hj1). lia.
  - intros k' j Hj. rewrite attempts_app in Hj. apply elem_of_app in Hj as [Hj|Hj].
    + destruct (T2 k' j Hj) as (-> & Hle & Hclear & Hw). split_and!; [done|lia| |done].
      destruct (Z.testbit (segment_sent_mask m) (Z.of_nat j)) eqn:Eb; [|done]. by rewrite (Hmono j Eb) in Hclear.
    + destruct (T1 k' j Hj) as (-> & _ & Hclear & _). pose proof (Hlo j Hj) as ->. split_and!; [done|lia|done|].
      destruct (re_record _ _ _ R2 m1 Hm1) as (w & Hw & S2). exists w. split; [done|]. left. by apply S2.
Qed.

Lemma sent_from_skip k m lo (sv sv' : service) es : sent_from k m (S lo) sv sv' es -> sent_from k m lo sv sv' es.
Proof.
  intros [R A Nd T]. split; try done. intros k' j Hj. destruct (T k' j Hj) as (? & ? & ? & ?). split_and!; [done|lia|done|done].
Qed.

Lemma send_segments_spec k segments rest i m (sv sv' : service) m' ok :
  inv sv -> recs sv !! k = Some m ->
  stored_encode m = Some segments -> drop i segments = rest -> (length segments <= 16)%nat ->
  send_segments env m rest i sv = (sv', m', ok) ->
  exists es, sent_from k m i sv sv' es /\
    (ok = true -> recs sv' !! k = Some m' /\ payload_step m m' /\
       forall j, (i <= j < length segments)%nat -> Z.testbit (segment_sent_mask m') (Z.of_nat j) = true).
Proof.
  revert i m sv. induction rest as [|segment rest IH]; intros i m sv Hinv Hm Henc Hd Hlen E;
    cbn [send_segments] in E.
  { injection E as <- <- <-. exists []. split; [by apply sent_from_none; [apply resend_refl|apply adds_nil|]|].
    intros _. split_and!; [done|done|]. intros j Hj. apply (f_equal length) in Hd. rewrite length_drop in Hd.
    cbn in Hd. lia. }
  assert (segments !! i = Some segment) as Hseg.
  { rewrite <- (Nat.add_0_r i), <- lookup_drop, Hd. done. }
  assert (drop (S i) segments = rest) as Hd' by (rewrite <- Nat.add_1_r, <- drop_drop, Hd; done).
  assert (i < 16)%nat as Hi by (apply lookup_lt_Some in Hseg; lia).
  assert (forall m2, (forall j, (S i <= j < length segments)%nat -> Z.testbit (segment_sent_mask m2) (Z.of_nat j) = true) ->
    Z.testbit (segment_sent_mask m2) (Z.of_nat i) = true ->
    forall j, (i <= j < length segments)%nat -> Z.testbit (segment_sent_mask m2) (Z.of_nat j) = true) as Hcons.
  { intros m2 H1 H2 j Hj. destruct (decide (j = i)) as [->|]; [done|]. apply H1. lia. }
  destruct (Z.testbit (segment_sent_mask m) (Z.of_nat i)) eqn:Eb.
  - destruct (IH (S i) m sv Hinv Hm Henc Hd' Hlen E) as (es & Hs & Hok). exists es.
    split; [by apply sent_from_skip|]. intros Ht. destruct (Hok Ht) as (Hm' & S' & Hbits). split_and!; [done|done|].
    apply Hcons; [done|by apply S'].
  - destruct (send_segment env m segment i sv) as [[sv1 m1] err] eqn:Es.
    destruct (send_segment_spec k m segments segment i sv sv1 m1 err Hinv Hm Henc Hseg Hi Eb Es)
      as (es1 & Hs1 & Honly & Hok1).
    case_bool_decide as He; [|by injection E as <- <- <-; exists es1].
    destruct (Hok1 He) as (Hm1 & S1 & Hbits1).
    assert (Z.testbit (segment_sent_mask m1) (Z.of_nat i) = true) as Hb1 by (rewrite Hbits1, Z.eqb_refl by lia; apply orb_true_r).
    destruct (IH (S i) m1 sv1 (re_inv _ _ _ (sf_resend _ _ _ _ _ _ Hs1)) Hm1  ltac:(by rewrite (stored_encode_payload m m1) by apply S1) Hd' Hlen E) as (es2 & Hs2 & Hok2).
    exists (es2 ++ es1). split.
    + eapply sent_from_trans; [exact Hm1|exact Hb1| |exact Hs1|exact Honly|exact Hs2]. intros j. apply S1.
    + intros Ht. destruct (Hok2 Ht) as (Hm' & S2 & Hbits). split_and!; [done|by trans m1|].
      apply Hcons; [done|by apply S2].
Qed.

(** ** A turn of the sender *)

Lemma stored_segments_bound m segments :
  writable m -> stored_encode m = Some segments -> (length segments <= 16)%nat.
Proof.
  intros (_ & _ & Hs) E. apply stored_encode_length in E. unfold storable in Hs. boolify.
  unfold SMS_MAX_SEGMENTS in *. lia.
Qed.

(** What a turn adds: at most one message is touched, each of its segments is
    requested at most once, none that was marked as sent before, and afterwards
    it is marked or the message is no longer queued. *)
Record sender_turn (sv sv' : service) : Prop := {
  st_evolution : evolution sound 0 sv sv';
  st_attempts : exists es, sv_trace sv' = es ++ sv_trace sv /\ NoDup (attempts es) /\
    forall k j, (k, j) ∈ attempts es ->
      exists m w, recs sv !! k = Some m /\ status m = SMS_MESSAGE_QUEUED /\
        Z.testbit (segment_sent_mask m) (Z.of_nat j) = false /\
        recs sv' !! k = Some w /\ spent w j;
}.

Lemma sender_turn_quiet (sv sv' : service) : evolves quiet 0 sv sv' -> inv sv -> sender_turn sv sv'.
Proof.
  intros E Hinv. pose proof (fo_next _ (proj2 Hinv)) as Hn. specialize (E Hinv ltac:(unfold next; lia)).
  destruct E as [I Nx R (es & T & HP)]. split.
  - split; [done|done|done|]. exists es. split; [done|]. eapply Forall_impl; [exact HP|]. by intros e [? _].
  - exists es. split; [done|]. assert (attempts es = []) as ->.
    { clear T. induction HP as [|e es [_ He] _ IH]; [done|]. cbn. by rewrite He. }
    split; [constructor|]. by intros k j Hj%elem_of_nil.
Qed.

Lemma outbound_queued_spec (sv : service) m :
  inv sv -> sms_store_find_status (sv_store sv) SMS_MESSAGE_QUEUED = inr m ->
  recs sv !! id m = Some m /\ status m = SMS_MESSAGE_QUEUED.
Proof.
  intros Hinv E. pose proof (find_status_spec (sv_store sv) SMS_MESSAGE_QUEUED Hinv) as F. rewrite E in F.
  by destruct F as (? & ? & _).
Qed.

(** A decision about the message is saved; its event follows. *)
Lemma save_decided k m m1 m2 lo (sv sv1 sv2 : service) m2' err es :
  sent_from k m lo sv sv1 es -> recs sv1 !! k = Some m1 -> id m1 = k -> payload_step m1 m2 -> writable m2 ->
  status m2 <> SMS_MESSAGE_QUEUED -> svc_save m2 sv1 = (sv2, m2', err) ->
  sent_from k m lo sv sv2 es /\ m2' = m2 /\ (err = ESP_OK -> recs sv2 !! k = Some m2).
Proof.
  intros [R A Nd T] Hm1 Hid S2 W2 Hst E.
  destruct (resend_save k m1 m2 sv1 sv2 m2' err (re_inv _ _ _ R) Hm1 ltac:(by rewrite (ps_id _ _ S2)) S2 W2 E)
    as (R2 & -> & T2 & Hok & Hrec).
  split_and!; [split| |]; try done.
  - by eapply resend_trans.
  - eapply (adds_trans _ _ _ _ []); [exact A|by apply adds_nil].
  - intros k' j Hj. destruct (T k' j Hj) as (-> & Hle & Hb & w & Hw & Hsp). split_and!; try done.
    destruct Hrec as [-> | ->]; [by exists w|exists m2; split; [done|by right]].
Qed.

Lemma sent_from_emit k m lo (sv sv1 : service) es event m2 es2 :
  sent_from k m lo sv sv1 es -> adds sv1 (emit_event event m2 sv1) es2 -> attempts es2 = [] ->
  sent_from k m lo sv (emit_event event m2 sv1) (es2 ++ es).
Proof.
  intros [R A Nd T] A2 N2. assert (attempts (es2 ++ es) = attempts es) as E by (by rewrite attempts_app, N2).
  split; rewrite ?E; try done.
  - eapply resend_trans; [exact R|]. apply resend_same; [apply R|apply emit_store].
  - by eapply adds_trans.
  - unfold recs. by rewrite emit_store.
Qed.

(** The queued message [k] went through such steps. *)
Lemma sender_turn_sent k m (sv sv1 sv2 : service) es :
  evolves silent 0 sv sv1 -> sv_store sv1 = sv_store sv -> inv sv ->
  recs sv !! k = Some m -> status m = SMS_MESSAGE_QUEUED -> sent_from k m 0 sv1 sv2 es -> sender_turn sv sv2.
Proof.
  intros E1 Es1 Hinv Hm Hq [[I2 N2 O2 R2] [T2 S2] Nd Hatt].
  destruct (sender_turn_quiet sv sv1 ltac:(by eapply evolves_weaken; [|apply silent_quiet|exact E1]) Hinv)
    as [[_ _ _ (es1 & T1 & S1)] (es1' & T1' & _ & Hatt1)].
  assert (es1' = es1) as -> by (rewrite T1 in T1'; by apply app_inv_tail in T1').
  assert (attempts es1 = []) as Hn1.
  { pose proof (fo_next _ (proj2 Hinv)). destruct (E1 Hinv ltac:(unfold next; lia)) as [_ _ _ (es' & T' & P')].
    rewrite T1 in T'. apply app_inv_tail in T' as <-. clear -P'.
    induction P' as [|e es [_ He] _ IH]; [done|]. cbn. by destruct e. }
  assert (recs sv1 = recs sv /\ next sv1 = next sv) as [R1 N1] by (unfold recs, next; by rewrite Es1).
  split.
  - split; [done|lia| |].
    + intros k' w Hlt Hw. destruct (decide (k' = k)) as [->|Hne].
      * exists m. split; [done|]. destruct (R2 m ltac:(by rewrite R1)) as (w' & Hw' & S). rewrite Hw in Hw'.
        injection Hw' as <-. by apply payload_record.
      * exists w. split; [|done]. by rewrite <- R1, <- O2.
    + exists (es ++ es1). split; [by rewrite T2, T1, app_assoc|]. apply Forall_app. split; [done|].
      exact S1.
  - exists (es ++ es1). split; [by rewrite T2, T1, app_assoc|]. rewrite attempts_app, Hn1, app_nil_r.
    split; [done|]. intros k' j Hj. destruct (Hatt k' j Hj) as (-> & _ & Hbit & w & Hw & Hsp).
    by exists m, w.
Qed.

Lemma process_one_outbound_spec (sv : service) : inv sv -> sender_turn sv (process_one_outbound env sv).
Proof.
  intros Hinv. unfold process_one_outbound.
  assert (forall s, evolves silent 0 sv s -> sender_turn sv s) as Hquiet.
  { intros s E. apply sender_turn_quiet; [|done]. by eapply evolves_weaken; [|apply silent_quiet|exact E]. }
  destruct (modem_ready env sv) as [sv1 ready] eqn:Er. destruct (ready_evolves _ _ _ _ Er) as [Es1 E1].
  destruct (_ || _)%bool; [by apply Hquiet|].
  destruct (allocate env sv1) as [sv2 ok] eqn:Ea. destruct (allocate_evolves _ _ _ _ Ea) as [Es2 E2].
  assert (evolves silent 0 sv sv2) as E2' by (by eapply evolves_then; [|exact E1|exact E2]).
  destruct ok; cbn [negb]; [|apply Hquiet; by eapply evolves_then; [|exact E2'|apply diag_evolves]].
  assert (inv sv2) as Hinv2 by (unfold inv; by rewrite Es2, Es1).
  destruct (sms_store_find_status _ _) as [e|m] eqn:Ef; [by apply Hquiet|].
  destruct (outbound_queued_spec sv2 m Hinv2 Ef) as [Hm Hq].
  destruct (allocate env sv2) as [sv3 ok3] eqn:Ea3. destruct (allocate_evolves _ _ _ _ Ea3) as [Es3 E3].
  assert (evolves silent 0 sv sv3) as E3' by (by eapply evolves_then; [|exact E2'|exact E3]).
  destruct ok3; cbn [negb]; [|apply Hquiet; by eapply evolves_then; [|exact E3'|apply diag_evolves]].
  assert (sv_store sv3 = sv_store sv) as Es by (by rewrite Es3, Es2, Es1).
  assert (inv sv3) as Hinv3 by (unfold inv; by rewrite Es).
  assert (recs sv3 !! id m = Some m) as Hm3 by (unfold recs; rewrite Es3; exact Hm).
  assert (recs sv !! id m = Some m) as Hm0 by (unfold recs; rewrite <- Es; exact Hm3).
  destruct (records_writable sv3 _ _ Hinv3 Hm3) as (Hw & _).
  assert (exists k, id m = k) as [k Hk] by eauto. rewrite Hk in Hm, Hm3, Hm0.
  destruct (stored_encode m) as [segments|] eqn:Henc.
  - destruct (send_segments env m segments 0 sv3) as [[sv4 m'] ok] eqn:Esend.
    destruct (send_segments_spec k segments segments 0 m sv3 sv4 m' ok Hinv3 Hm3 Henc eq_refl
      (stored_segments_bound _ _ Hw Henc) Esend) as (es & Hs & Hok).
    destruct ok; cbn [negb]; [|by eapply sender_turn_sent]. destruct (Hok eq_refl) as (Hm' & S' & _).
    destruct (_ =? _); [|by eapply sender_turn_sent].
    set (m2 := set_inflight 0 (set_status SMS_MESSAGE_SENT m')).
    destruct (svc_save m2 sv4) as [[sv5 m2'] err] eqn:Es5.
    destruct (records_writable sv4 _ _ (re_inv _ _ _ (sf_resend _ _ _ _ _ _ Hs)) Hm') as (Hw' & Hid' & _).
    destruct (save_decided k m m' m2 0 sv3 sv4 sv5 m2' err es Hs Hm' Hid') as (Hs5 & -> & Hok5); try done.
    { apply writable_inflight; [by apply writable_status|unfold uint8; lia]. }
    case_bool_decide as He; [|by eapply sender_turn_sent].
    destruct (emit_adds SMS_SERVICE_EVENT_SENT m2 sv5) as (es6 & A6 & N6).
    { right. change (id m2) with (id m'). rewrite Hid'. by apply Hok5. }
    eapply sender_turn_sent; try done. by eapply sent_from_emit.
  - set (m2 := set_last_modem_error (-1) (set_status SMS_MESSAGE_FAILED m)).
    destruct (svc_save m2 sv3) as [[sv4 m2'] err] eqn:Es4.
    destruct (save_decided k m m m2 0 sv3 sv3 sv4 m2' err [] (sent_from_none k m 0 sv3 sv3 []
      (resend_refl k sv3 Hinv3) (adds_nil _ _ eq_refl) eq_refl) Hm3 Hk) as (Hs4 & -> & _); try done.
    { apply writable_error; [by apply writable_status|unfold int32; lia]. }
    destruct (emit_adds SMS_SERVICE_EVENT_FAILED m2 sv4 ltac:(by left)) as (es6 & A6 & N6).
    eapply sender_turn_sent; try done. by eapply sent_from_emit.
Qed.

End Send.
