(* ===== verification/SmsServiceRestart.v ===== *)
(** * Messages caught by a restart

    [mark_interrupted_sends_uncertain]: the loop ends within one round more
    than there are slots, and leaves no outgoing message marked as being sent
    when the flash takes the writes. *)

From Stdlib Require Import ZifyBool ZifyNat.
From stdpp Require Import base numbers list strings gmap sorting.
From S2P Require Import Prelude.
From S2P Require Import PduEncode.
From S2P Require Import AtEngine.
From S2P Require Import SmsMessage.
From S2P Require Import Nvs.
From S2P Require Import SmsStore.
From S2P Require Import SmsStoreFacts.
From S2P Require Import SmsStoreSpec.
From S2P Require Import SmsService.
From S2P Require Import SmsServiceFacts.
From S2P Require Import SmsServiceSample.

Open Scope Z_scope.

Definition interrupted (m : sms_message_t) : bool :=
  bool_decide (direction m = SMS_DIRECTION_OUTBOUND) && bool_decide (status m = SMS_MESSAGE_SENDING).

(** The keys above a given one. *)
Definition above (after : Z) (D : gset Z) : gset Z := filter (fun k => after < k) D.

Lemma above_size after k D : k ∈ D -> after < k -> (size (above k D) < size (above after D))%nat.
Proof.
  intros Hk Hlt. apply subset_size. split.
  - intros x. unfold above. rewrite !elem_of_filter. intros [? ?]. split; [lia|done].
  - intros Hsub. specialize (Hsub k). unfold above in Hsub. rewrite !elem_of_filter in Hsub.
    destruct Hsub as [? _]; [done|lia].
Qed.

Section Restart.

Context {N : Type} `{NvsLaws N}.

Abbreviation service := (@service N).

Variable env : @environment N.

(** A flash whose writes succeed. *)
Record reliable (G : N -> Prop) : Prop := {
  rel_set n k b : G n -> (nvs_set_blob n k b).2 = ESP_OK /\ G (nvs_set_blob n k b).1;
  rel_commit n : G n -> (nvs_commit n).2 = ESP_OK /\ G (nvs_commit n).1;
}.

Definition on (G : N -> Prop) (sv : service) : Prop := G (s_handle (sv_store sv)).

Lemma reliable_save G m0 m (sv sv' : service) m' err :
  reliable G -> on G sv -> inv sv -> recs sv !! id m = Some m0 -> writable m -> svc_save m sv = (sv', m', err) ->
  err = ESP_OK /\ on G sv'.
Proof.
  intros HG Hon Hinv Hm (Hok & Hid & Hs) E. unfold svc_save, sms_store_save in E.
  rewrite (proj1 Hinv), Hs in E. cbn [negb] in E. destruct (Z.eqb_spec (id m) 0) as [|_]; [done|].
  pose proof (find_id_slot_spec _ (id m) (proj2 Hinv)) as F. unfold recs in Hm. rewrite Hm in F.
  destruct (find_id_slot _ _) as [e|slot]; [by destruct F|].
  unfold write_slot in E.
  destruct (nvs_set_blob (s_handle (sv_store sv)) (slot_key slot) (record_bytes (record_encode m))) as [n1 e1] eqn:E1.
  destruct (rel_set G HG _ (slot_key slot) (record_bytes (record_encode m)) Hon) as [He1 G1]. rewrite E1 in He1, G1.
  cbn in He1, G1. subst e1. rewrite bool_decide_eq_false_2 in E by (intros Hx; exact (Hx eq_refl)).
  destruct (nvs_commit n1) as [n2 e2] eqn:E2. destruct (rel_commit G HG _ G1) as [He2 G2]. rewrite E2 in He2, G2.
  cbn in He2, G2. subst e2. by injection E as <- _ <-.
Qed.

(** The record of an interrupted message afterwards. *)
Definition settled (m w : sms_message_t) : Prop :=
  w = m \/ (interrupted m = true /\ w = set_status SMS_MESSAGE_UNCERTAIN m).

(** One record of the loop. *)
Lemma mark_one (G : N -> Prop) m (sv sv' : service) :
  inv sv -> recs sv !! id m = Some m ->
  (if interrupted m then
     let '(sv, record, _) := svc_save (set_status SMS_MESSAGE_UNCERTAIN m) sv in
     emit_event SMS_SERVICE_EVENT_UNCERTAIN record sv
   else sv) = sv' ->
  evolves silent 0 sv sv' /\ dom (recs sv') = dom (recs sv) /\
  (forall k, k <> id m -> recs sv' !! k = recs sv !! k) /\
  (exists w, recs sv' !! id m = Some w /\ settled m w) /\
  (reliable G -> on G sv -> on G sv' /\ (interrupted m = true -> recs sv' !! id m = Some (set_status SMS_MESSAGE_UNCERTAIN m))).
Proof.
  intros Hinv Hm. destruct (interrupted m) eqn:Ei.
  2: { intros <-. split_and!; try done; [apply evolves_refl|exists m; split; [done|by left]]. }
  set (m1 := set_status SMS_MESSAGE_UNCERTAIN m).
  destruct (records_writable sv _ _ Hinv Hm) as (Hw & _).
  assert (record_step m m1) as Hstep by (by apply record_step_status).
  destruct (svc_save m1 sv) as [[sv1 m1'] err] eqn:Es. intros <-.
  destruct (save_existing_evolves m m1 sv sv1 m1' err Hinv Hm Hstep (writable_status _ _ Hw) Es) as (E1 & -> & T1 & _ & Hok & Hrec).
  assert (forall s, recs (emit_event SMS_SERVICE_EVENT_UNCERTAIN m1 s) = recs s) as Hre.
  { intros s. unfold recs. by rewrite emit_store. }
  change (id m1) with (id m) in *. rewrite !Hre. split_and!.
  - eapply evolves_then; [lia|exact E1|]. by apply emit_evolves.
  - destruct Hrec as [-> | ->]; [done|]. rewrite dom_insert_L. apply elem_of_dom_2 in Hm. set_solver.
  - intros k Hk. destruct Hrec as [-> | ->]; [done|by rewrite lookup_insert_ne].
  - destruct Hrec as [-> | ->]; [exists m; split; [done|by left]|].
    exists m1. rewrite lookup_insert_eq. split; [done|by right].
  - intros HG Hon. destruct (reliable_save G m m1 sv sv1 m1 err HG Hon Hinv Hm (writable_status _ _ Hw) Es) as [He Hon'].
    split; [unfold on; by rewrite emit_store|]. intros _. rewrite (Hok He). apply lookup_insert_eq.
Qed.

Lemma mark_loop_spec (G : N -> Prop) fuel after (sv : service) :
  inv sv -> (size (above after (dom (recs sv))) < fuel)%nat ->
  exists sv', mark_interrupted_loop fuel after sv = Some sv' /\ evolves silent 0 sv sv' /\
    dom (recs sv') = dom (recs sv) /\
    (forall k, k <= after -> recs sv' !! k = recs sv !! k) /\
    (forall k m, recs sv !! k = Some m -> exists w, recs sv' !! k = Some w /\ settled m w) /\
    (reliable G -> on G sv -> forall k m, recs sv !! k = Some m -> after < k -> interrupted m = true ->
       recs sv' !! k = Some (set_status SMS_MESSAGE_UNCERTAIN m)).
Proof.
  revert after sv. induction fuel as [|fuel IH]; intros after sv Hinv Hfuel; [lia|].
  cbn [mark_interrupted_loop].
  destruct (list_spec (sv_store sv) after 1 Hinv ltac:(lia)) as (ms & -> & _ & Hlen & Hin & Hall).
  destruct ms as [|m ms].
  { exists sv. split_and!; [done|apply evolves_refl|done|done| |].
    - intros k m Hm. exists m. split; [done|by left].
    - intros _ _ k m Hm Hlt. destruct (Hall k m Hm Hlt) as [?%elem_of_nil|[? _]]; [done|by cbn in *]. }
  destruct (Hin m ltac:(by left)) as [Hm Hlt]. change (recs sv !! id m = Some m) in Hm. fold (interrupted m).
  destruct (mark_one G m sv _ Hinv Hm eq_refl) as (E1 & D1 & O1 & (w1 & Hw1 & S1) & G1).
  set (sv1 := if interrupted m then _ else sv) in *.
  assert (inv sv1) as Hinv1.
  { pose proof (fo_next _ (proj2 Hinv)). apply (ev_inv _ _ _ _ (E1 Hinv ltac:(unfold next; lia))). }
  destruct (IH (id m) sv1 Hinv1) as (sv' & Eq & E2 & D2 & O2 & S2 & G2).
  { rewrite D1. assert (id m ∈ dom (recs sv)) as Hd by (by apply elem_of_dom; exists m).
    pose proof (above_size after (id m) _ Hd Hlt). lia. }
  (** The smallest is done; the others are above it. *)
  assert (forall k w, recs sv !! k = Some w -> after < k -> k = id m \/ id m < k) as Hmin.
  { intros k w Hw Hk. destruct (records_writable sv k w Hinv Hw) as (_ & Ek & _).
    destruct (Hall k w Hw Hk) as [Hin'|[_ Hgt]]; [|right; apply Hgt; by left].
    cbn in Hlen. destruct ms; [|cbn in Hlen; lia]. apply list_elem_of_singleton in Hin' as ->. by left. }
  exists sv'. split_and!; [exact Eq|by eapply evolves_then; [lia|exact E1|exact E2]|by rewrite D2| | |].
  - intros k Hk. rewrite O2, O1 by lia. done.
  - intros k w Hw. destruct (Z.eq_dec k (id m)) as [->|Hne].
    + rewrite O2 by lia. rewrite Hm in Hw. injection Hw as <-. by exists w1.
    + apply S2. by rewrite O1.
  - intros HG Hon k w Hw Hk Hi. destruct (G1 HG Hon) as [Hon1 G1'].
    destruct (Hmin k w Hw Hk) as [->|Hgt].
    + rewrite Hm in Hw. injection Hw as <-. rewrite O2 by lia. by apply G1'.
    + apply (G2 HG Hon1); [rewrite O1 by lia; done|done|done].
Qed.

Lemma mark_loop_full (sv : service) :
  inv sv ->
  exists sv', mark_interrupted_loop (S SMS_STORE_MAX_RECORDS) 0 sv = Some sv' /\ evolves silent 0 sv sv' /\ dom (recs sv') = dom (recs sv) /\
    (forall k m, recs sv !! k = Some m -> exists w, recs sv' !! k = Some w /\ settled m w) /\
    (forall G, reliable G -> on G sv -> forall k m, recs sv !! k = Some m -> 0 < k -> interrupted m = true ->
       recs sv' !! k = Some (set_status SMS_MESSAGE_UNCERTAIN m)).
Proof.
  intros Hinv. assert (size (above 0 (dom (recs sv))) < S SMS_STORE_MAX_RECORDS)%nat as Hfuel.
  { pose proof (records_size (s_handle (sv_store sv))) as Hsize. rewrite <- size_dom in Hsize.
    assert (size (above 0 (dom (recs sv))) <= size (dom (recs sv)))%nat; [|unfold recs in *; lia].
    apply subseteq_size. intros k. unfold above. by rewrite elem_of_filter; intros [_ ?]. }
  destruct (mark_loop_spec (fun _ => False) (S SMS_STORE_MAX_RECORDS) 0 sv Hinv Hfuel) as (sv' & Eq & E & D & _ & S1 & _).
  exists sv'. split_and!; try done. intros G.
  destruct (mark_loop_spec G (S SMS_STORE_MAX_RECORDS) 0 sv Hinv Hfuel) as (sv2 & Eq2 & _ & _ & _ & _ & G2).
  rewrite Eq in Eq2. by injection Eq2 as <-.
Qed.

(** Whatever the memory allows. *)
Lemma start_evolves (sv sv' : service) :
  inv sv -> mark_interrupted_sends_uncertain env (S SMS_STORE_MAX_RECORDS) sv = Some sv' -> evolves silent 0 sv sv'.
Proof.
  intros Hinv E. unfold mark_interrupted_sends_uncertain in E.
  destruct (allocate env sv) as [sv1 ok] eqn:Ea. destruct (allocate_evolves _ _ _ _ Ea) as [Es E1].
  destruct (negb ok); [injection E as <-; eapply evolves_then; [lia|exact E1|apply diag_evolves]|].
  destruct (mark_loop_full sv1) as (sv2 & Eq & E2 & _); [by unfold inv; rewrite Es|].
  rewrite Eq in E. injection E as <-. by eapply evolves_then; [lia|exact E1|exact E2].
Qed.


End Restart.

(** The flash in memory, with no fault to come. *)
Lemma mem_reliable : reliable (fun n => mem_faults n = []).
Proof. by split; intros [b u faults]; cbn; intros; simplify_eq. Qed.

