(* ===== verification/SmsServiceApi.v ===== *)
(** * What the other tasks ask of the service

    [sms_service_send], [sms_service_delete] and [sms_service_retry_uncertain]
    on the map of the stored messages. *)

From Stdlib Require Import Ascii String.
From Stdlib Require Import ZifyBool ZifyNat.
From stdpp Require Import base numbers list strings gmap.
From S2P Require Import Prelude.
From S2P Require Import PduEncode.
From S2P Require Import PduFacts.
From S2P Require Import PduDelivery.
From S2P Require Import PduDecodeFacts.
From S2P Require Import AtEngine.
From S2P Require Import SmsMessage.
From S2P Require Import Nvs.
From S2P Require Import SmsStore.
From S2P Require Import SmsStoreFacts.
From S2P Require Import SmsStoreSpec.
From S2P Require Import SmsService.
From S2P Require Import SmsServiceFacts.
From S2P Require Import SmsServiceSample.
From S2P Require Import SmsServiceInbound.
From S2P Require Import SmsServiceSend.

Open Scope Z_scope.

Section Api.

Context {N : Type} `{NvsLaws N}.

Abbreviation service := (@service N).
Abbreviation effect := (@effect N).

Variable env : @environment N.

(** ** Posting to the task *)

Lemma queue_event_store event (sv : service) :
  sv_store (queue_event event sv) = sv_store sv /\ sv_trace (queue_event event sv) = sv_trace sv.
Proof.
  unfold queue_event. destruct (sv_queue sv); [|done]. destruct (negb _); [done|]. by destruct (_ <? _)%nat.
Qed.

Lemma queue_event_evolves event (sv : service) : evolves silent 0 sv (queue_event event sv).
Proof. destruct (queue_event_store event sv). by apply (evolves_same _ _ _ []). Qed.

Lemma handle_urc_store line (sv : service) :
  sv_store (sms_service_handle_urc line sv) = sv_store sv /\ sv_trace (sms_service_handle_urc line sv) = sv_trace sv.
Proof.
  unfold sms_service_handle_urc. destruct line; [|done]. destruct (_ || _)%bool; [done|].
  destruct (_ <=? _)%nat; [done|apply queue_event_store].
Qed.

Lemma queued_message_ok r t report reference segments :
  bytes r -> bytes t -> uint16 reference -> message_ok (queued_message r t report reference segments).
Proof.
  intros Hr Ht Href.
  assert (forall n s, (0 < n)%nat -> bytes s -> length (strncpy_into (zeros n) s) = n /\ bytes (strncpy_into (zeros n) s)) as Hcpy.
  { intros n s Hn Hs. split; [rewrite strncpy_length; unfold zeros; rewrite length_replicate; done|].
    apply strncpy_bytes; [apply bytes_zeros|done]. }
  assert (0 < SMS_MESSAGE_TEXT_MAX)%nat as Hmax by (unfold SMS_MESSAGE_TEXT_MAX; lia).
  constructor; cbn [queued_message id sender recipient service_center_timestamp text raw_pdu concat
    concat_reference segment_count segment_sent_mask segment_delivered_mask segment_failed_mask
    modem_reference delivery_status inflight_segment send_attempts last_modem_error message_zero];
    try (by apply Hcpy); try (split; [apply length_replicate|apply Forall_replicate; unfold is_byte; lia]);
    try apply concat_zero_ok; try done; unfold uint8, uint16, uint32, int32, u8 in *; try lia.
  apply Hcpy; [vm_compute; lia|done].
Qed.

Lemma queue_event_recs event (sv : service) :
  recs (queue_event event sv) = recs sv /\ next (queue_event event sv) = next sv /\
  (inv (queue_event event sv) <-> inv sv).
Proof. unfold recs, next, inv. by rewrite (proj1 (queue_event_store event sv)). Qed.

(** ** Sending *)

Lemma send_spec r t report (sv sv' : service) result :
  bytes r -> bytes t -> inv sv -> next sv + 1 <= UINT32_MAX ->
  sms_service_send env (Some r) (Some t) report sv = (sv', result) ->
  evolves silent 1 sv sv' /\
  (forall k w, recs sv !! k = Some w -> record_prunable (sv_store sv) w = false -> recs sv' !! k = Some w) /\
  (forall k, result = inr k -> k = next sv /\
     exists reference segments, 0 < reference < 65536 /\
       (bounded_strlen (Some t) SMS_MESSAGE_TEXT_MAX < SMS_MESSAGE_TEXT_MAX)%nat /\
       sms_submit_encode (Some r) (Some t) report reference SMS_MAX_SEGMENTS = Some segments /\
       recs sv' !! k = Some (set_id (queued_message r t report reference segments) k)).
Proof.
  intros Hr Ht Hinv Hmax E. cbn [sms_service_send] in E.
  assert (forall s, evolves silent 0 sv s -> recs s = recs sv -> result = inl ESP_ERR_INVALID_ARG \/
    result = inl ESP_ERR_INVALID_SIZE \/ result = inl ESP_ERR_NO_MEM ->
    evolves silent 1 sv s /\ (forall k w, recs sv !! k = Some w -> record_prunable (sv_store sv) w = false -> recs s !! k = Some w) /\
    (forall k, result = inr k -> k = next sv /\ exists reference segments, 0 < reference < 65536 /\
       (bounded_strlen (Some t) SMS_MESSAGE_TEXT_MAX < SMS_MESSAGE_TEXT_MAX)%nat /\
       sms_submit_encode (Some r) (Some t) report reference SMS_MAX_SEGMENTS = Some segments /\
       recs s !! k = Some (set_id (queued_message r t report reference segments) k))) as Herr.
  { intros s Es Rs Hres. split_and!; [eapply evolves_weaken; [|done|exact Es]; lia|by rewrite Rs|].
    intros k ->. destruct Hres as [?|[?|?]]; done. }
  destruct (negb _); [injection E as <- <-; apply Herr; auto; apply evolves_refl|].
  destruct (Nat.leb_spec SMS_MESSAGE_TEXT_MAX (bounded_strlen (Some t) SMS_MESSAGE_TEXT_MAX)) as [|Hlen];
    [injection E as <- <-; apply Herr; auto; apply evolves_refl|].
  destruct (allocate env sv) as [sv1 ok1] eqn:Ea. destruct (allocate_evolves _ _ _ _ Ea) as [Es1 E1].
  destruct (negb ok1); [injection E as <- <-; apply Herr; auto; unfold recs; by rewrite Es1|].
  destruct (esp_random env sv1) as [sv2 random] eqn:Er.
  assert (sv_store sv2 = sv_store sv1 /\ evolves silent 0 sv1 sv2 /\ 0 <= random) as (Es2 & E2 & Hrandom).
  { injection Er as <- <-. split_and!; [done|by apply log_evolves|]. apply Z.mod_pos_bound. lia. }
  assert (evolves silent 0 sv sv2) as E2' by (by eapply evolves_then; [lia|exact E1|exact E2]).
  set (reference := if u16 random =? 0 then 1 else u16 random) in *.
  assert (0 < reference < 65536) as Href.
  { unfold reference. destruct (Z.eqb_spec (u16 random) 0); [lia|]. unfold u16 in *. lia. }
  assert (recs sv2 = recs sv) as R2 by (unfold recs; by rewrite Es2, Es1).
  destruct (sms_submit_encode _ _ _ _ _) as [segments|] eqn:Eenc; [|injection E as <- <-; by apply Herr; auto].
  destruct (_ || _)%bool; [injection E as <- <-; by apply Herr; auto|].
  destruct (allocate env sv2) as [sv3 ok3] eqn:Ea3. destruct (allocate_evolves _ _ _ _ Ea3) as [Es3 E3].
  assert (evolves silent 0 sv sv3) as E3' by (by eapply evolves_then; [lia|exact E2'|exact E3]).
  assert (sv_store sv3 = sv_store sv) as Est by (by rewrite Es3, Es2, Es1).
  assert (recs sv3 = recs sv /\ next sv3 = next sv) as [R3 N3] by (unfold recs, next; by rewrite Est).
  destruct (negb ok3); [injection E as <- <-; by apply Herr; auto|].
  destruct (svc_save _ sv3) as [[sv4 m] err] eqn:Es.
  destruct (save_new_evolves _ sv3 sv4 m err ltac:(by unfold inv; rewrite Est) ltac:(by rewrite N3)
    (queued_message_ok r t report reference segments Hr Ht ltac:(unfold uint16; lia)) eq_refl Es)
    as (E4 & _ & Hok & _ & Hkeep).
  rewrite N3 in Hok. rewrite R3, Est in Hkeep.
  assert (evolves silent 1 sv sv4) as E4' by (by eapply (evolves_after _ 1); [lia|exact E3'|exact E4]).
  case_bool_decide as He; injection E as <- <-; [|by split_and!].
  destruct (Hok He) as [Em Hm]. assert (id m = next sv) as Hid by (by rewrite Em).
  destruct (queue_event_recs SERVICE_EVENT_WAKE (count C_outbound_queued sv4)) as (Rq & _ & _). rewrite Rq.
  change (recs (count C_outbound_queued sv4)) with (recs sv4). split_and!; [|done|].
  - eapply evolves_then; [lia|exact E4'|]. eapply evolves_then; [lia|apply count_evolves|apply queue_event_evolves].
  - intros k [= <-]. split; [done|]. exists reference, segments. split_and!; [lia|lia|done|done|].
    by rewrite Hid, Hm, Em.
Qed.

(** The record of an accepted message holds its strings and can be encoded. *)
Lemma queued_message_faithful r t report reference segments k :
  cstring r -> cstring t -> 0 < reference < 65536 ->
  (bounded_strlen (Some t) SMS_MESSAGE_TEXT_MAX < SMS_MESSAGE_TEXT_MAX)%nat ->
  sms_submit_encode (Some r) (Some t) report reference SMS_MAX_SEGMENTS = Some segments ->
  let m := set_id (queued_message r t report reference segments) k in
  c_str (recipient m) = r /\ c_str (text m) = t /\ stored_encode m = Some segments.
Proof.
  intros Hr Ht Href Hlen Henc m.
  pose proof (cstring_c_str r Hr) as Er. pose proof (cstring_c_str t Ht) as Et.
  assert (length t < SMS_MESSAGE_TEXT_MAX)%nat as Hlt by (unfold bounded_strlen, strlen in Hlen; rewrite Et in Hlen; lia).
  assert (2 * Z.of_nat (length t) < SIZE_MAX) as Hsize by (unfold SIZE_MAX, SMS_MESSAGE_TEXT_MAX in *; lia).
  destruct (submit_encode_Some r t reference report _ segments Hr Ht Hsize ltac:(lia) Henc) as (Hn & _ & _).
  assert (length r < SMS_MAX_ADDRESS_LENGTH)%nat as Hrl.
  { destruct (address_validate r) as [[digits intl]|] eqn:Hv.
    2: { by rewrite (proj2 (address_validate_None_outcome _ _ _ _ _ Hv)) in Henc. }
    destruct (address_validate_Some r digits intl Hr Hv) as (_ & Hd & ->). rewrite length_app.
    unfold SMS_MAX_ADDRESS_LENGTH. destruct intl; cbn [length]; lia. }
  assert (c_str (recipient m) = r) as Hrec.
  { etrans; [|exact Er]. by apply holds_c_str, strncpy_zeros_holds. }
  assert (c_str (text m) = t) as Htxt.
  { etrans; [|exact Et]. by apply holds_c_str, strncpy_zeros_holds. }
  split_and!; [done|done|].
  assert (segment_count m = Z.of_nat (length segments)) as Hcnt.
  { cbn [m segment_count set_id queued_message]. unfold u8. apply Z.mod_small. unfold SMS_MAX_SEGMENTS in *. lia. }
  unfold stored_encode. rewrite Hrec, Htxt, Hcnt.
  assert ((1 <=? Z.of_nat (length segments)) && (Z.of_nat (length segments) <=? Z.of_nat SMS_MAX_SEGMENTS) = true) as -> by lia.
  rewrite Nat2Z.id. change (delivery_report_requested m) with report.
  change (SmsMessage.concat_reference m) with reference.
  rewrite (submit_encode_capacity r t reference report SMS_MAX_SEGMENTS segments Hr Ht Hsize ltac:(lia) Henc).
  destruct (Nat.eqb_spec (length segments) 0); [lia|]. by rewrite Z.eqb_refl.
Qed.

(** An accepted message can be sent: when [sms_service_send] returns an
    identifier, it is a new one and the store has the message under it,
    queued, with the recipient and the text that were given and nothing marked
    as sent, and encoding the stored record gives the very segments that were
    checked, as many as the record says.  Accepted or not, no message that is
    still needed has changed. *)
Theorem accepted_message_queued r t report (sv sv' : service) result :
  cstring r -> cstring t -> inv sv -> next sv + 1 <= UINT32_MAX ->
  sms_service_send env (Some r) (Some t) report sv = (sv', result) ->
  inv sv' /\
  (forall k w, recs sv !! k = Some w -> still_needed (sv_store sv) w -> recs sv' !! k = Some w) /\
  forall k, result = inr k ->
    recs sv !! k = None /\
    exists m segments, recs sv' !! k = Some m /\ direction m = SMS_DIRECTION_OUTBOUND /\
      status m = SMS_MESSAGE_QUEUED /\ c_str (recipient m) = r /\ c_str (text m) = t /\
      delivery_report_requested m = report /\ segment_sent_mask m = 0 /\
      sms_submit_encode (Some r) (Some t) report (SmsMessage.concat_reference m) SMS_MAX_SEGMENTS = Some segments /\
      stored_encode m = Some segments.
Proof.
  intros Hr Ht Hinv Hmax E.
  destruct (send_spec r t report sv sv' result (cstring_bytes r Hr) (cstring_bytes t Ht) Hinv Hmax E)
    as (Ev & Hkeep & Hok).
  split_and!; [by eapply evolves_inv|intros k w Hw Hn; by apply Hkeep, still_needed_kept|]. intros k Hk. destruct (Hok k Hk) as (-> & reference & segments & Href & Hlen & Henc & Hm).
  split.
  - destruct (recs sv !! next sv) as [w|] eqn:Hw; [|done].
    destruct (records_writable sv _ _ Hinv Hw) as (_ & _ & Hlt). lia.
  - destruct (queued_message_faithful r t report reference segments (next sv) Hr Ht Href Hlen Henc) as (? & ? & ?).
    eexists _, segments. split_and!; done.
Qed.

(** ** Deleting *)

Lemma delete_op_spec k (sv sv' : service) err :
  inv sv -> sms_service_delete env k sv = (sv', err) ->
  evolves silent 0 sv sv' /\
  match recs sv !! k with
  | None => sv_store sv' = sv_store sv /\ err <> ESP_OK
  | Some m =>
      if bool_decide (direction m = SMS_DIRECTION_OUTBOUND)
         && (bool_decide (status m = SMS_MESSAGE_QUEUED) || bool_decide (status m = SMS_MESSAGE_SENDING))
      then sv_store sv' = sv_store sv /\ (err = ESP_ERR_INVALID_STATE \/ err = ESP_ERR_NO_MEM)
      else (err = ESP_OK -> recs sv' = delete k (recs sv)) /\
           (recs sv' = recs sv \/ recs sv' = delete k (recs sv))
  end.
Proof.
  intros Hinv E. unfold sms_service_delete in E.
  destruct (allocate env sv) as [sv1 ok] eqn:Ea. destruct (allocate_evolves _ _ _ _ Ea) as [Es1 E1].
  assert (inv sv1) as Hinv1 by (unfold inv; by rewrite Es1).
  assert (recs sv1 = recs sv) as R1 by (unfold recs; by rewrite Es1).
  destruct ok; cbn [negb] in E.
  2: { injection E as <- <-. split; [done|]. destruct (recs sv !! k); [|done]. rewrite R1.
       destruct (_ && _); [split; [done|by right]|split; [done|by left]]. }
  destruct (Z.eq_dec k 0) as [->|Hk].
  { unfold sms_store_get in E. rewrite (proj1 Hinv1) in E. cbn in E. injection E as <- <-. split; [done|].
    destruct (recs sv !! 0) as [m|] eqn:Hm; [|done].
    destruct (records_writable sv 0 m Hinv Hm) as ((_ & Hne & _) & Hid & _). by rewrite Hid in Hne. }
  rewrite get_spec in E by done. change (records (s_handle (sv_store sv1))) with (recs sv1) in E. rewrite R1 in E.
  destruct (recs sv !! k) as [m|]; [|by injection E as <- <-].
  destruct (_ && _); [injection E as <- <-; split; [done|split; [done|by left]]|].
  destruct (delete_evolves k sv1 sv' err Hinv1 Hk E) as (E2 & _ & _ & Hok).
  split; [by eapply evolves_then; [lia|exact E1|exact E2]|]. rewrite R1 in Hok. split; [done|].
  unfold svc_delete in E. destruct (sms_store_delete (sv_store sv1) k) as [st e] eqn:Ed. injection E as <- <-.
  destruct (delete_spec _ _ _ _ Hinv1 Hk Ed) as (_ & _ & _ & Hrec). by rewrite <- R1.
Qed.

(** Deleting refuses what is under way: an outgoing message that is queued
    or being sent is not deleted and nothing changes, an unknown identifier is
    an error; any other message is deleted when the call returns [ESP_OK], and
    no other message is touched in any case. *)
Theorem delete_refused_in_flight k (sv sv' : service) err :
  inv sv -> sms_service_delete env k sv = (sv', err) ->
  inv sv' /\ (forall k', k' <> k -> recs sv' !! k' = recs sv !! k') /\
  match recs sv !! k with
  | None => err <> ESP_OK
  | Some m =>
      if bool_decide (direction m = SMS_DIRECTION_OUTBOUND)
         && (bool_decide (status m = SMS_MESSAGE_QUEUED) || bool_decide (status m = SMS_MESSAGE_SENDING))
      then recs sv' !! k = Some m /\ (err = ESP_ERR_INVALID_STATE \/ err = ESP_ERR_NO_MEM)
      else err = ESP_OK -> recs sv' !! k = None
  end.
Proof.
  intros Hinv E. destruct (delete_op_spec k sv sv' err Hinv E) as [Ev Hcase].
  pose proof (fo_next _ (proj2 Hinv)) as Hn.
  split; [by eapply evolves_inv; [exact Ev|done|unfold next; lia]|].
  assert (forall k', sv_store sv' = sv_store sv -> recs sv' !! k' = recs sv !! k') as Hsame by (intros k' Es; unfold recs; by rewrite Es).
  destruct (recs sv !! k) as [m|] eqn:Hm; [|split; [intros k' _; apply Hsame, Hcase|apply Hcase]].
  destruct (_ && _); [split; [intros k' _; apply Hsame, Hcase|]; destruct Hcase as [Es Hc]; split; [by rewrite Hsame|done]|].
  destruct Hcase as [Hok Hrec]. split.
  - intros k' Hne. destruct Hrec as [-> | ->]; [done|by rewrite lookup_delete_ne].
  - intros He. rewrite (Hok He). apply lookup_delete_eq.
Qed.

(** ** Retrying *)

(** The message put back into the queue: its marks stay. *)
Definition requeued (m : sms_message_t) : sms_message_t := set_inflight 0 (set_status SMS_MESSAGE_QUEUED m).

(** A retry, whatever it returns, only gives the message [k] another chance. *)
Lemma retry_spec k (sv sv' : service) err :
  inv sv -> sms_service_retry_uncertain env k sv = (sv', err) ->
  inv sv' /\ next sv' = next sv /\ (forall k', k' <> k -> recs sv' !! k' = recs sv !! k') /\
  (exists es, sv_trace sv' = es ++ sv_trace sv /\ Forall silent es) /\
  match recs sv !! k with
  | None => recs sv' !! k = None /\ err <> ESP_OK
  | Some m =>
      if bool_decide (direction m = SMS_DIRECTION_OUTBOUND) && bool_decide (status m = SMS_MESSAGE_UNCERTAIN)
      then (err = ESP_OK -> recs sv' !! k = Some (requeued m)) /\
           (recs sv' !! k = Some m \/ recs sv' !! k = Some (requeued m))
      else recs sv' !! k = Some m /\ (err = ESP_ERR_INVALID_STATE \/ err = ESP_ERR_NO_MEM)
  end.
Proof.
  intros Hinv E. unfold sms_service_retry_uncertain in E.
  destruct (allocate env sv) as [sv1 ok] eqn:Ea.
  assert (sv_store sv1 = sv_store sv /\ sv_trace sv1 = [E_alloc ok] ++ sv_trace sv) as [Es1 T1] by (by injection Ea as <- <-).
  assert (inv sv1 /\ next sv1 = next sv /\ recs sv1 = recs sv) as (Hinv1 & N1 & R1) by (unfold inv, next, recs; by rewrite Es1).
  assert (exists es, sv_trace sv1 = es ++ sv_trace sv /\ Forall silent es) as Ht1.
  { exists [E_alloc ok]. split; [done|by repeat constructor]. }
  rewrite <- R1, <- N1. clear Ea. destruct ok; cbn [negb] in E.
  2: { injection E as <- <-. split_and!; try done. destruct (recs sv1 !! k); [|done].
       destruct (_ && _); (split; [done|]); [by left|by right]. }
  destruct (Z.eq_dec k 0) as [->|Hk0].
  { unfold sms_store_get in E. rewrite (proj1 Hinv1) in E. cbn in E. injection E as <- <-. split_and!; try done.
    destruct (recs sv1 !! 0) as [m|] eqn:Hm; [|done].
    destruct (records_writable sv1 0 m Hinv1 Hm) as ((_ & Hne & _) & Hid & _). by rewrite Hid in Hne. }
  rewrite get_spec in E by done. change (records (s_handle (sv_store sv1))) with (recs sv1) in E.
  destruct (recs sv1 !! k) as [m|] eqn:Hm; [|by injection E as <- <-].
  rewrite <- negb_andb in E. destruct (bool_decide (direction m = _) && _); cbn [negb] in E.
  2: { injection E as <- <-. split_and!; try done. by left. }
  destruct (records_writable sv1 k m Hinv1 Hm) as (Hw & Hid & _). fold (requeued m) in E.
  assert (writable (requeued m)) as Hw1 by (apply writable_inflight; [by apply writable_status|unfold uint8; lia]).
  assert (payload_step m (requeued m)) as Hp by (etrans; [|apply payload_inflight]; by apply payload_status).
  destruct (svc_save (requeued m) sv1) as [[sv2 m2] e] eqn:Es.
  destruct (resend_save k m (requeued m) sv1 sv2 m2 e Hinv1 Hm Hid Hp Hw1 Es) as ([I2 N2 O2 _] & _ & T2 & Hok & Hrec).
  rewrite Hm in Hrec. rewrite <- T2 in Ht1.
  injection E as <- <-. destruct (bool_decide (e = ESP_OK)); [|by split_and!].
  destruct (queue_event_recs SERVICE_EVENT_WAKE sv2) as (R' & N' & I').
  rewrite R', N', (proj2 (queue_event_store SERVICE_EVENT_WAKE sv2)). split_and!; try done. by apply I'.
Qed.

(** A retry is the user's: only an outgoing message whose fate is uncertain
    goes back to the queue, with the segments that were confirmed still marked
    as sent, so that they are not sent again; anything else is refused and
    nothing changes, and no other message is touched. *)
Theorem retry_requeues k (sv sv' : service) err :
  inv sv -> sms_service_retry_uncertain env k sv = (sv', err) ->
  inv sv' /\ (forall k', k' <> k -> recs sv' !! k' = recs sv !! k') /\
  match recs sv !! k with
  | None => err <> ESP_OK
  | Some m =>
      if bool_decide (direction m = SMS_DIRECTION_OUTBOUND) && bool_decide (status m = SMS_MESSAGE_UNCERTAIN)
      then err = ESP_OK ->
           exists w, recs sv' !! k = Some w /\ status w = SMS_MESSAGE_QUEUED /\ same_payload m w /\
             segment_sent_mask w = segment_sent_mask m
      else recs sv' !! k = Some m /\ (err = ESP_ERR_INVALID_STATE \/ err = ESP_ERR_NO_MEM)
  end.
Proof.
  intros Hinv E. destruct (retry_spec k sv sv' err Hinv E) as (I & _ & O & _ & Hcase). split_and!; [done|done|].
  destruct (recs sv !! k) as [m|]; [|apply Hcase]. destruct (_ && _); [|done].
  intros He. exists (requeued m). split; [by apply Hcase|done].
Qed.

End Api.

(** ** Examples *)

Lemma accepted_message_queued_witness :
  exists k m, (sms_service_send sample_env (Some (str "+491701234")) (Some (str "Hello")) true
      (sample_service empty_store)).2 = inr k /\
    recs (sms_service_send sample_env (Some (str "+491701234")) (Some (str "Hello")) true
      (sample_service empty_store)).1 !! k = Some m /\
    status m = SMS_MESSAGE_QUEUED /\ c_str (text m) = str "Hello".
Proof.
  destruct (accepted_message_queued sample_env (str "+491701234") (str "Hello") true (sample_service empty_store)
    _ _ ltac:(evaluate) ltac:(evaluate) empty_store_inv ltac:(vm_compute; discriminate) (surjective_pairing _))
    as (_ & _ & Hok).
  assert (match (sms_service_send sample_env (Some (str "+491701234")) (Some (str "Hello")) true
    (sample_service empty_store)).2 with inr _ => true | inl _ => false end = true) as Hsome by (vm_compute; reflexivity).
  destruct (sms_service_send _ _ _ _ _).2 as [e|k]; [discriminate|].
  destruct (Hok k eq_refl) as (_ & m & segments & Hm & _ & Hst & _ & Htext & _).
  exists k, m. split; [reflexivity|]. split; [exact Hm|]. split; [exact Hst|exact Htext].
Defined.

Lemma delete_refused_in_flight_witness :
  recs (sms_service_delete sample_env 1 (sample_sender SMS_MESSAGE_QUEUED)).1 !! 1 =
    Some (set_id (sample_outbound SMS_MESSAGE_QUEUED) 1).
Proof.
  destruct (sample_sender_facts SMS_MESSAGE_QUEUED) as (Hinv & _ & Hm).
  destruct (delete_refused_in_flight sample_env 1 (sample_sender SMS_MESSAGE_QUEUED) _ _ Hinv (surjective_pairing _))
    as (_ & _ & H). rewrite Hm in H. apply H.
Defined.

Lemma retry_requeues_witness :
  exists w, recs (sms_service_retry_uncertain sample_env 1 (sample_sender SMS_MESSAGE_UNCERTAIN)).1 !! 1 = Some w /\
    status w = SMS_MESSAGE_QUEUED.
Proof.
  destruct (sample_sender_facts SMS_MESSAGE_UNCERTAIN) as (Hinv & _ & Hm).
  destruct (retry_requeues sample_env 1 (sample_sender SMS_MESSAGE_UNCERTAIN) _ _ Hinv (surjective_pairing _))
    as (_ & _ & H). rewrite Hm in H.
  assert ((sms_service_retry_uncertain sample_env 1 (sample_sender SMS_MESSAGE_UNCERTAIN)).2 = ESP_OK) as E
    by (vm_compute; reflexivity).
  destruct (H E) as (w & Hw & Hst & _). exists w. split; [exact Hw|exact Hst].
Defined.
