(* ===== verification/SmsServiceSystem.v ===== *)
(** * The service over its life

    The message service with the tasks that call it, restarts and power
    failures included, as a step relation.  A power failure in the middle of an
    operation is that operation with a flash that refuses every further write
    and a modem that is not ready, followed by [step_boot]: the flash [N] and
    the [environment] of each step are arbitrary. *)

From Stdlib Require Import ZifyBool ZifyNat.
From stdpp Require Import base numbers list strings gmap.
From S2P Require Import Prelude.
From S2P Require Import PduEncode.
From S2P Require Import AtEngine.
From S2P Require Import SmsMessage.
From S2P Require Import Nvs.
From S2P Require Import SmsStore.
From S2P Require Import SmsStoreFacts.
From S2P Require Import SmsStoreSpec.
From S2P Require Import SmsService.
From S2P Require Import SmsServiceFacts.
From S2P Require Import SmsServiceSample.
From S2P Require Import SmsServiceInbound.
From S2P Require Import SmsServiceTurn.
From S2P Require Import SmsServiceSend.
From S2P Require Import SmsServiceRestart.
From S2P Require Import SmsServiceApi.

Open Scope Z_scope.

Section System.

Context {N : Type} `{NvsLaws N}.

Abbreviation service := (@service N).
Abbreviation effect := (@effect N).
Abbreviation environment := (@environment N).

(** ** What an operation does to a segment's chances *)

(** The segment [j] of the message [k] is not requested without a retry. *)
Definition blocked (sv : service) (k : Z) (j : nat) : Prop :=
  k < next sv /\ forall w, recs sv !! k = Some w -> spent w j.

(** New effects are sound, request a segment only if it is not blocked, at most
    once, and leave it blocked. *)
Record once (sv sv' : service) : Prop := {
  on_inv : inv sv';
  on_next : next sv <= next sv';
  on_blocked k j : blocked sv k j -> blocked sv' k j;
  on_trace : exists es, sv_trace sv' = es ++ sv_trace sv /\ Forall sound es /\ NoDup (attempts es) /\
    forall k j, (k, j) ∈ attempts es -> ~ blocked sv k j /\ blocked sv' k j;
}.

Lemma once_trans (sv1 sv2 sv3 : service) : once sv1 sv2 -> once sv2 sv3 -> once sv1 sv3.
Proof.
  intros [I1 N1 B1 (es1 & T1 & S1 & D1 & A1)] [I2 N2 B2 (es2 & T2 & S2 & D2 & A2)].
  split; [done|lia|by auto|]. exists (es2 ++ es1).
  rewrite attempts_app. split_and!.
  - by rewrite T2, T1, app_assoc.
  - by apply Forall_app.
  - apply NoDup_app. split_and!; [done| |done]. intros [k j] H2 H1.
    destruct (A2 k j H2) as [Hn _]. destruct (A1 k j H1) as [_ Hb]. by apply Hn.
  - intros k j [Hj|Hj]%elem_of_app.
    + destruct (A2 k j Hj) as [Hn Hb]. split; [|done]. intros Hb1. by apply Hn, B1.
    + destruct (A1 k j Hj) as [Hn Hb]. split; [done|by apply B2].
Qed.

Lemma spent_step m m' j : record_step m m' -> spent m j -> spent m' j.
Proof. intros Hr [Hj|Hst]; [left; by apply (rs_sent _ _ Hr)|right; intros ?%(rs_queued _ _ Hr); by apply Hst]. Qed.

Lemma evolution_blocked (P : effect -> Prop) n (sv sv' : service) k j :
  evolution P n sv sv' -> blocked sv k j -> blocked sv' k j.
Proof.
  intros [_ Hn R _] [Hk Hb]. split; [lia|]. intros w Hw. destruct (R k w Hk Hw) as (m & Hm & S).
  eapply spent_step; [exact S|by apply Hb].
Qed.

Lemma quiet_attempts (es : list effect) : Forall quiet es -> attempts es = [].
Proof. induction 1 as [|e es [_ He] _ IH]; [done|]. cbn. by rewrite He. Qed.

Lemma evolves_once n (sv sv' : service) :
  evolves quiet n sv sv' -> inv sv -> next sv + n <= UINT32_MAX -> once sv sv'.
Proof.
  intros E Hinv Hmax. pose proof (E Hinv Hmax) as Ev. destruct Ev as [I Nx R (es & T & Q)].
  split; [done|lia|intros k j; by eapply evolution_blocked, E|].
  exists es. rewrite (quiet_attempts es Q). split_and!; [done| |constructor|by intros k j ?%elem_of_nil].
  eapply Forall_impl; [exact Q|]. by intros e [? _].
Qed.

Lemma sender_once (sv sv' : service) : sender_turn sv sv' -> inv sv -> once sv sv'.
Proof.
  intros [Ev (es & T & D & A)] Hinv. pose proof Ev as [I Nx R (es' & T' & S)].
  assert (es' = es) as -> by (rewrite T in T'; by apply app_inv_tail in T').
  split; [done|lia|intros k j; by eapply evolution_blocked|].
  exists es. split_and!; try done. intros k j Hj. destruct (A k j Hj) as (m & w & Hm & Hq & Hb & Hw & Hs). split.
  - intros [_ Hb']. destruct (Hb' m Hm) as [Hb2|?]; [congruence|done].
  - destruct (records_writable sv k m Hinv Hm) as (_ & _ & Hlt). split; [lia|].
    intros w' Hw'. rewrite Hw in Hw'. by injection Hw' as <-.
Qed.

(** ** One turn of the task *)

Variable env : environment.

Lemma handle_event_evolves event last_setup last_poll (sv sv' : service) ls lp :
  inv sv -> next sv + SCAN_IDS <= UINT32_MAX ->
  handle_event env event sv last_setup last_poll = (sv', ls, lp) -> evolves quiet SCAN_IDS sv sv'.
Proof.
  intros Hinv Hmax E. pose proof SCAN_IDS_nonneg. destruct event; cbn [handle_event] in E.
  - destruct (xTaskGetTickCount env (set_modem_ready true false sv)) as [sv1 now] eqn:Et.
    pose proof (ticks_evolves _ _ _ _ Et) as E1. injection E as <- <- <-.
    assert (sv_store sv1 = sv_store sv) as Es1 by (by injection Et as <- _).
    eapply evolves_after; [lia| |apply configure_evolves; unfold inv, next in *; by rewrite Es1].
    eapply evolves_then; [lia|apply silent_evolves, diagnostics_evolves|by apply silent_evolves].
  - injection E as <- <- <-. eapply evolves_weaken; [|done|by apply (evolves_same _ _ _ [])]. lia.
  - injection E as <- <- <-. eapply evolves_weaken; [|done|apply handle_urc_evolves; [done|]];
      assert (2 <= SCAN_IDS) by (by vm_compute); lia.
  - injection E as <- <- <-. eapply evolves_weaken; [|done|apply evolves_refl]. lia.
Qed.

Definition TURN_IDS : Z := 3 * SCAN_IDS.

Lemma turn_once last_setup last_poll (sv : service) :
  inv sv -> next sv + TURN_IDS <= UINT32_MAX -> once sv (service_turn env sv last_setup last_poll).1.1.
Proof.
  intros Hinv Hmax. unfold TURN_IDS in Hmax. pose proof SCAN_IDS_nonneg as Hids. unfold service_turn.
  destruct (match sv_queue sv with Some (_ :: _) => _ | _ => _ end) as [[sv1 ls1] lp1] eqn:E1.
  assert (evolves quiet SCAN_IDS sv sv1) as Ev1.
  { destruct (sv_queue sv) as [[|event queue]|];
      [injection E1 as <- _ _; eapply evolves_weaken; [|done|apply evolves_refl]; lia| |
       injection E1 as <- _ _; eapply evolves_weaken; [|done|apply evolves_refl]; lia].
    eapply (evolves_after _ SCAN_IDS); [done|by apply (evolves_same _ _ (set_queue sv (Some queue)) [])|].
    eapply handle_event_evolves; [..|exact E1]; [done|]. change (next sv + SCAN_IDS <= UINT32_MAX). lia. }
  assert (once sv sv1) as O1 by (eapply evolves_once; [exact Ev1|done|lia]).
  pose proof (ev_next _ _ _ _ (Ev1 Hinv ltac:(lia))) as N1.
  destruct (retry_pdu_mode_if_needed env ls1 sv1) as [sv2 ls2] eqn:E2.
  pose proof (retry_setup_evolves _ _ _ _ _ (on_inv _ _ O1) ltac:(lia) E2) as Ev2.
  assert (once sv1 sv2) as O2 by (eapply evolves_once; [exact Ev2|apply O1|lia]).
  pose proof (ev_next _ _ _ _ (Ev2 (on_inv _ _ O1) ltac:(lia))) as N2.
  pose proof (process_one_outbound_spec env sv2 (on_inv _ _ O2)) as St.
  pose proof (sender_once _ _ St (on_inv _ _ O2)) as O3.
  pose proof (ev_next _ _ _ _ (st_evolution _ _ St)) as N3.
  set (sv3 := process_one_outbound env sv2) in *.
  destruct (poll_inbox_if_due env lp1 sv3) as [sv4 lp2] eqn:E4. cbn [fst].
  pose proof (poll_evolves _ _ _ _ _ (on_inv _ _ O3) ltac:(lia) E4) as Ev4.
  eapply once_trans; [exact O1|]. eapply once_trans; [exact O2|]. eapply once_trans; [exact O3|].
  eapply evolves_once; [exact Ev4|apply O3|lia].
Qed.

(** ** Operations of the other tasks *)

(** The store's flash and the trace stay. *)
Lemma same_flash_once (sv sv' : service) :
  inv sv -> s_handle (sv_store sv') = s_handle (sv_store sv) -> s_initialized (sv_store sv') = true ->
  sv_trace sv' = sv_trace sv -> once sv sv'.
Proof.
  intros [_ Hf] Eh Ei Et. split.
  - split; [done|by rewrite Eh].
  - unfold next. by rewrite Eh.
  - intros k j. unfold blocked, next, recs. by rewrite Eh.
  - exists []. split_and!; [done|constructor..|]. by intros k j ?%elem_of_nil.
Qed.

End System.

(** ** Runs *)

Section Runs.

Context {N : Type} `{NvsLaws N}.

Abbreviation service := (@service N).
Abbreviation effect := (@effect N).
Abbreviation environment := (@environment N).

Inductive label := L_boot | L_start | L_turn | L_send | L_delete (k : Z) | L_retry (k : Z) | L_post.

(** The flash with the same content. *)
Definition same_flash (n n' : N) : Prop :=
  (forall k, blob_at n' k = blob_at n k) /\ (forall k, u32_at n' k = u32_at n k).

(** The static variables before the start, with the flash as it was left. *)
Definition powered_off (sv : service) : service :=
  mk_service (mk_store (s_handle (sv_store sv)) false 0 0 0 false) false false false None DIRECT_URC_NONE
    service_diag_zero (sv_trace sv).

Inductive step : label -> service -> service -> Prop :=
  | step_boot sv n mutex transport event_cb queue task sv' :
      same_flash (s_handle (sv_store sv)) n ->
      sms_service_init ESP_OK ESP_OK n mutex transport event_cb queue task (powered_off sv) = (sv', ESP_OK) ->
      step L_boot sv sv'
  | step_start env sv sv' :
      mark_interrupted_sends_uncertain env (S SMS_STORE_MAX_RECORDS) sv = Some sv' -> step L_start sv sv'
  | step_turn env last_setup last_poll sv :
      step L_turn sv (service_turn env sv last_setup last_poll).1.1
  | step_send env recipient0 text0 report sv sv' result :
      (forall s, recipient0 = Some s \/ text0 = Some s -> bytes s) ->
      sms_service_send env recipient0 text0 report sv = (sv', result) -> step L_send sv sv'
  | step_delete env k sv sv' err : sms_service_delete env k sv = (sv', err) -> step (L_delete k) sv sv'
  | step_retry env k sv sv' err : sms_service_retry_uncertain env k sv = (sv', err) -> step (L_retry k) sv sv'
  | step_ready sv : step L_post sv (sms_service_notify_modem_ready sv)
  | step_lost sv : step L_post sv (sms_service_notify_modem_lost sv)
  | step_urc line sv : step L_post sv (sms_service_handle_urc line sv)
  | step_watermark protection watermark sv :
      step L_post sv (sms_service_set_event_replay_watermark protection watermark sv).

(** Newest first, as long as there are identifiers left. *)
Inductive run : list label -> service -> service -> Prop :=
  | run_nil sv : run [] sv sv
  | run_step l ls sv0 sv sv' :
      run ls sv0 sv -> next sv + TURN_IDS <= UINT32_MAX -> step l sv sv' -> run (l :: ls) sv0 sv'.

Fixpoint retries (k : Z) (ls : list label) : nat :=
  match ls with
  | [] => O
  | L_retry k' :: ls' => if k' =? k then S (retries k ls') else retries k ls'
  | _ :: ls' => retries k ls'
  end.

(** How often the segment [j] of the message [k] was requested. *)
Definition requests (k : Z) (j : nat) (sv : service) : nat :=
  length (filter (fun a => a = (k, j)) (attempts (sv_trace sv))).

Lemma boot_once (sv sv' : service) n mutex transport event_cb queue task :
  inv sv -> same_flash (s_handle (sv_store sv)) n ->
  sms_service_init ESP_OK ESP_OK n mutex transport event_cb queue task (powered_off sv) = (sv', ESP_OK) ->
  once sv sv'.
Proof.
  intros [_ Hf] [Hblob Hu32] E. unfold sms_service_init in E. cbn [powered_off sv_initialized] in E.
  destruct (negb transport); [done|]. unfold sms_store_init in E. cbn in E.
  destruct (negb mutex); [done|]. cbn in E. destruct (negb queue); [done|]. destruct (negb task); [done|].
  injection E as <-.
  assert (slots_kept (s_handle (sv_store sv)) n) as Hk.
  { apply slots_kept_intro; [apply Hf| |done]. intros i _. by apply load_same. }
  destruct (flash_ok_kept _ _ Hf Hk) as [Hf' Hrec]. pose proof (next_of_same _ _ (Hu32 next_id_key)) as Hnext.
  split; [done|unfold next; cbn [sv_store s_handle]; lia| |].
  - intros k j. unfold blocked, next, recs. cbn [sv_store s_handle]. by rewrite Hnext, Hrec.
  - exists []. split_and!; [done|constructor..|]. by intros k j ?%elem_of_nil.
Qed.

Lemma start_once (env : environment) (sv sv' : service) :
  inv sv -> mark_interrupted_sends_uncertain env (S SMS_STORE_MAX_RECORDS) sv = Some sv' -> once sv sv'.
Proof.
  intros Hinv E. pose proof (fo_next _ (proj2 Hinv)) as Hn.
  apply (evolves_once 0); [apply silent_evolves|done|unfold next; lia].
  by apply (start_evolves env).
Qed.

Lemma step_spec l (sv sv' : service) :
  inv sv -> next sv + TURN_IDS <= UINT32_MAX -> step l sv sv' ->
  once sv sv' \/
  exists k, l = L_retry k /\ inv sv' /\ next sv' = next sv /\ (forall k', k' <> k -> recs sv' !! k' = recs sv !! k') /\
    exists es, sv_trace sv' = es ++ sv_trace sv /\ Forall silent es.
Proof.
  intros Hinv Hmax Hstep. pose proof SCAN_IDS_nonneg as Hids.
  assert (1 <= TURN_IDS) as Hturn by (by vm_compute).
  assert (forall n (s : service), evolves silent n sv s -> 0 <= n <= 1 -> once sv s) as Hsilent.
  { intros n s Es Hn'. apply (evolves_once n); [by apply silent_evolves|done|lia]. }
  destruct Hstep as [? ? ? ? ? ? ? ? Hsame E|? ? ? E|?|? ? ? ? ? ? ? Hbytes E|? ? ? ? ? E|? ? ? ? ? E|?|?|?|?].
  - left. by eapply boot_once.
  - left. by eapply start_once.
  - left. by apply turn_once.
  - left. destruct recipient0 as [r|]; [|injection E as <- _; eapply Hsilent; [apply evolves_refl|lia]].
    destruct text0 as [t|]; [|injection E as <- _; eapply Hsilent; [apply evolves_refl|lia]].
    eapply Hsilent; [eapply send_spec; [..|exact E]; [by apply Hbytes; left|by apply Hbytes; right|done|lia]|lia].
  - left. eapply Hsilent; [by eapply delete_op_spec|lia].
  - right. exists k. split; [done|]. destruct (retry_spec _ _ _ _ _ Hinv E) as (? & ? & ? & ? & _). by split_and!.
  - left. eapply Hsilent; [apply queue_event_evolves|lia].
  - left. eapply Hsilent; [apply queue_event_evolves|lia].
  - left. destruct (handle_urc_store line sv). eapply Hsilent; [by apply (evolves_same _ _ _ [])|lia].
  - left. destruct Hinv. by apply same_flash_once.
Qed.

(** The number of requests so far, against the retries. *)
Definition counted (sv : service) (ls : list label) : Prop :=
  forall k j, (requests k j sv <= retries k ls \/ requests k j sv <= S (retries k ls) /\ blocked sv k j)%nat.

Lemma filter_nodup_length (a : Z * nat) l : NoDup l -> (length (filter (fun b => b = a) l) <= 1)%nat.
Proof.
  induction 1 as [|b l Hb _ IH]; [cbn; lia|]. rewrite filter_cons. destruct (decide (b = a)) as [->|]; [|done].
  assert (filter (fun b => b = a) l = []) as ->; [|done].
  destruct (filter _ l) as [|c l'] eqn:E; [done|]. exfalso. apply Hb.
  assert (c ∈ filter (fun b => b = a) l) as Hc by (rewrite E; by left).
  apply list_elem_of_filter in Hc as [-> ?]. done.
Qed.

Lemma counted_once ls l (sv sv' : service) :
  (forall k, (retries k ls <= retries k (l :: ls))%nat) -> counted sv ls -> once sv sv' -> counted sv' (l :: ls).
Proof.
  intros Hr Hc [I Nx B (es & T & _ & D & A)] k j. unfold requests. rewrite T, attempts_app, filter_app, length_app.
  specialize (Hc k j). specialize (Hr k). unfold requests in Hc. set (old := length (filter _ (attempts (sv_trace sv)))) in *.
  pose proof (filter_nodup_length (k, j) (attempts es) D) as H1.
  destruct (filter (fun a => a = (k, j)) (attempts es)) as [|a l'] eqn:Ef.
  - cbn [length]. destruct Hc as [Hc|[Hc Hb]]; [left; lia|right]. split; [lia|by apply B].
  - assert ((k, j) ∈ attempts es) as Hin.
    { assert (a ∈ filter (fun a => a = (k, j)) (attempts es)) as Ha by (rewrite Ef; by left).
      by apply list_elem_of_filter in Ha as [-> ?]. }
    destruct (A k j Hin) as [Hn Hb]. destruct Hc as [Hc|[_ Hb']]; [|done]. right. split; [lia|done].
Qed.

Lemma counted_retry ls k (sv sv' : service) :
  next sv' = next sv -> (forall k', k' <> k -> recs sv' !! k' = recs sv !! k') -> (forall k j, requests k j sv' = requests k j sv) ->
  counted sv ls -> counted sv' (L_retry k :: ls).
Proof.
  intros Nx R Hreq Hc k' j. rewrite Hreq. specialize (Hc k' j). cbn [retries].
  destruct (Z.eqb_spec k k') as [->|Hne]; [left; lia|].
  destruct Hc as [Hc|[Hc [Hlt Hb]]]; [by left|right]. split; [done|]. split; [lia|].
  intros w Hw. apply Hb. by rewrite <- R.
Qed.

Lemma run_invariant ls (sv0 sv : service) :
  run ls sv0 sv -> inv sv0 -> sv_trace sv0 = [] -> inv sv /\ Forall sound (sv_trace sv) /\ counted sv ls.
Proof.
  induction 1 as [sv|l ls sv0 sv sv' _ IH Hmax Hstep]; intros Hinv Ht.
  { rewrite Ht. split_and!; [done|constructor|]. intros k j. left. unfold requests. rewrite Ht. cbn. lia. }
  destruct (IH Hinv Ht) as (Hi & Hs & Hc).
  destruct (step_spec l sv sv' Hi Hmax Hstep) as [O|(k & -> & Hi' & Nx & R & es & T & Q)].
  - pose proof O as [I _ _ (es & T & S & _)]. split_and!; [done|rewrite T; by apply Forall_app|].
    eapply counted_once; [|done|done]. intros k. destruct l; cbn [retries]; try lia. destruct (_ =? _); lia.
  - split_and!; [done| |].
    + rewrite T. apply Forall_app. split; [|done]. eapply Forall_impl; [exact Q|]. by intros e [? _].
    + eapply counted_retry; [done|done| |done]. intros k' j. unfold requests. rewrite T, attempts_app.
      rewrite quiet_attempts; [done|]. eapply Forall_impl; [exact Q|apply silent_quiet].
Qed.

(** C2. Whatever happens, in any order, with any answers of the modem, any
    failures of the flash and any number of restarts: the store stays well
    formed, every PDU that was handed to the modem belonged, at that moment, to
    a stored message marked as SENDING with that segment in flight and not
    sent before, and every event that reports a message as received or sent
    finds it in the store. *)
Theorem run_sound ls (sv0 sv : service) :
  inv sv0 -> sv_trace sv0 = [] -> run ls sv0 sv -> inv sv /\ Forall sound (sv_trace sv).
Proof. intros Hinv Ht Hr. by destruct (run_invariant ls sv0 sv Hr Hinv Ht) as (? & ? & _). Qed.

(** C1. No segment is sent twice by itself: in any run, restarts and failures
    of modem and flash included, the modem is asked to send a given segment of
    a given message at most once more than the user asked for a retry of that
    message. *)
Theorem sent_at_most_once ls (sv0 sv : service) k j :
  inv sv0 -> sv_trace sv0 = [] -> run ls sv0 sv -> (requests k j sv <= S (retries k ls))%nat.
Proof.
  intros Hinv Ht Hr. destruct (run_invariant ls sv0 sv Hr Hinv Ht) as (_ & _ & Hc).
  destruct (Hc k j) as [?|[? _]]; lia.
Qed.

End Runs.

(** ** Examples: a queued message, and one turn of the task *)

Definition sample_turn : @service mem_nvs := (service_turn sample_env (sample_sender SMS_MESSAGE_QUEUED) 0 0).1.1.

Lemma sample_turn_run : run [L_turn] (sample_sender SMS_MESSAGE_QUEUED) sample_turn.
Proof.
  eapply run_step; [apply run_nil| |apply step_turn].
  destruct (sample_sender_facts SMS_MESSAGE_QUEUED) as (_ & Hn & _).
  assert (TURN_IDS + 2 <= UINT32_MAX) by (by vm_compute). lia.
Qed.

Lemma run_sound_witness : inv sample_turn /\ (0 < length (sv_trace sample_turn))%nat.
Proof.
  split; [|vm_compute; lia].
  apply (run_sound [L_turn] (sample_sender SMS_MESSAGE_QUEUED) sample_turn
    (proj1 (sample_sender_facts _)) eq_refl sample_turn_run).
Defined.

Lemma sent_at_most_once_witness : requests 1 0 sample_turn = 1%nat /\ (requests 1 0 sample_turn <= 1)%nat.
Proof.
  split; [vm_compute; reflexivity|].
  apply (sent_at_most_once [L_turn] (sample_sender SMS_MESSAGE_QUEUED) sample_turn 1 0
    (proj1 (sample_sender_facts _)) eq_refl sample_turn_run).
Defined.
