(* ===== verification/OtaVersionPolicy.v ===== *)
(** * The version policy of updates (components/ota_service/ota_version_policy.c)

    Semantic versions, their order, and which candidate may replace the running
    firmware.  A cursor into a string is the rest of the string; the character
    at its end is 0. *)

From Stdlib Require Import Ascii String.
From Stdlib Require Import ZifyBool ZifyNat.
From stdpp Require Import base numbers list strings.
From S2P Require Import Prelude.

Open Scope Z_scope.

(** [unsigned long] is 32 bits wide. *)
Definition ULONG_MAX : Z := UINT32_MAX.

(** [pre] with [pre_len]: empty for a release. *)
Record semver_t := mk_semver {
  major : Z;
  minor : Z;
  patch : Z;
  pre : list Z;
}.

Fixpoint number_loop (p : list Z) (out : Z) : option (Z * list Z) :=
  match p with
  | c :: p' =>
      if isdigit c then
        let digit := c - chr "0" in
        if (ULONG_MAX - digit) / 10 <? out then None else number_loop p' (u32 (u32 (out * 10) + digit))
      else Some (out, p)
  | [] => Some (out, p)
  end.

Definition parse_number (p : list Z) : option (Z * list Z) :=
  if negb (isdigit p.[0]) then None
  else if (p.[0] =? chr "0") && isdigit p.[1] then None
  else number_loop p 0.

Definition isalnum (c : Z) : bool :=
  isdigit c || ((65 <=? c) && (c <=? 90)) || ((97 <=? c) && (c <=? 122)).

Definition valid_identifier_char (c : Z) : bool := isalnum c || (c =? chr "-").

(** The identifiers that the loops over a pre-release visit: the text between
    the dots, [ident] read so far; nothing follows a dot at the end. *)
Fixpoint identifiers_from (ident s : list Z) : list (list Z) :=
  match s with
  | [] => match ident with [] => [] | _ => [ident] end
  | c :: s' => if c =? chr "." then ident :: identifiers_from [] s' else identifiers_from (ident ++ [c]) s'
  end.

Definition identifiers (s : list Z) : list (list Z) := identifiers_from [] s.

Definition valid_prerelease_sequence (s : list Z) : bool :=
  forallb (fun ident =>
    negb ((length ident =? 0)%nat || (forallb isdigit ident && (1 <? length ident)%nat && (ident.[0] =? chr "0"))))
    (identifiers s).

(** The loop over pre-release or build identifiers: what is read, the rest and
    [previous_dot]; a ['+'] ends a pre-release. *)
Fixpoint scan_identifiers (stop_plus : bool) (p : list Z) (previous_dot : bool)
  : option (list Z * list Z * bool) :=
  match p with
  | [] => Some ([], [], previous_dot)
  | c :: p' =>
      if stop_plus && (c =? chr "+") then Some ([], p, previous_dot)
      else if c =? chr "." then
        if previous_dot then None
        else match scan_identifiers stop_plus p' true with
             | Some (s, rest, dot) => Some (c :: s, rest, dot)
             | None => None
             end
      else if negb (valid_identifier_char c) then None
      else match scan_identifiers stop_plus p' false with
           | Some (s, rest, dot) => Some (c :: s, rest, dot)
           | None => None
           end
  end.

(** [*p++ != '.'] *)
Definition skip_dot (p : list Z) : option (list Z) :=
  match p with c :: p' => if c =? chr "." then Some p' else None | [] => None end.

Definition parse_semver (text : option (list Z)) : option semver_t :=
  match text with
  | None => None
  | Some text =>
      if (length (c_str text) =? 0)%nat then None
      else
        '(major, p) ← parse_number (c_str text);
        p ← skip_dot p;
        '(minor, p) ← parse_number p;
        p ← skip_dot p;
        '(patch, p) ← parse_number p;
        '(pre, p) ←
          (if p.[0] =? chr "-" then
             '(s, rest, previous_dot) ← scan_identifiers true (drop 1 p) true;
             if (length s =? 0)%nat || previous_dot then None
             else if negb (valid_prerelease_sequence s) then None
             else Some (s, rest)
           else Some ([], p));
        p ←
          (if p.[0] =? chr "+" then
             '(s, rest, previous_dot) ← scan_identifiers false (drop 1 p) true;
             if (length s =? 0)%nat || previous_dot then None else Some rest
           else Some p);
        if (length p =? 0)%nat then Some (mk_semver major minor patch pre) else None
  end.

Definition identifier_numeric (s : list Z) : bool :=
  if (length s =? 0)%nat then false
  else if (1 <? length s)%nat && (s.[0] =? chr "0") then false
  else forallb isdigit s.

(** The sign of [memcmp]. *)
Fixpoint memcmp (a b : list Z) (n : nat) : Z :=
  match n, a, b with
  | S n', x :: a', y :: b' => if x <? y then -1 else if y <? x then 1 else memcmp a' b' n'
  | _, _, _ => 0
  end.

Definition compare_identifiers (a b : list Z) : Z :=
  let an := identifier_numeric a in
  let bn := identifier_numeric b in
  if an && bn then
    if negb (length a =? length b)%nat then if (length a <? length b)%nat then -1 else 1
    else memcmp a b (length a)
  else if negb (Bool.eqb an bn) then if an then -1 else 1
  else
    let cmp := memcmp a b (if (length a <? length b)%nat then length a else length b) in
    if negb (cmp =? 0) then cmp
    else if (length a <? length b)%nat then -1 else if (length b <? length a)%nat then 1 else 0.

Fixpoint compare_loop (a b : list (list Z)) : Z :=
  match a, b with
  | x :: a', y :: b' => let cmp := compare_identifiers x y in if negb (cmp =? 0) then cmp else compare_loop a' b'
  | _ :: _, [] => 1
  | [], _ :: _ => -1
  | [], [] => 0
  end.

Definition compare_prerelease (a b : semver_t) : Z :=
  if (length (pre a) =? 0)%nat && (length (pre b) =? 0)%nat then 0
  else if (length (pre a) =? 0)%nat then 1
  else if (length (pre b) =? 0)%nat then -1
  else compare_loop (identifiers (pre a)) (identifiers (pre b)).

Definition compare_versions (av bv : semver_t) : Z :=
  if negb (major av =? major bv) then if major av <? major bv then -1 else 1
  else if negb (minor av =? minor bv) then if minor av <? minor bv then -1 else 1
  else if negb (patch av =? patch bv) then if patch av <? patch bv then -1 else 1
  else compare_prerelease av bv.

(** [*comparison], if both can be read. *)
Definition ota_semver_compare (a b : option (list Z)) : option Z :=
  match parse_semver a, parse_semver b with
  | Some av, Some bv => Some (compare_versions av bv)
  | _, _ => None
  end.

Inductive ota_version_decision_t :=
  | OTA_VERSION_ACCEPT
  | OTA_VERSION_REJECT_PROJECT
  | OTA_VERSION_REJECT_FORMAT
  | OTA_VERSION_REJECT_REINSTALL
  | OTA_VERSION_REJECT_DOWNGRADE
  | OTA_VERSION_REJECT_SECURE_VERSION.

Definition ota_version_policy_decide (expected_project running_version : option (list Z))
    (running_secure_version : Z) (candidate_project candidate_version : option (list Z))
    (candidate_secure_version : Z) (allow_reinstall allow_downgrade : bool) : ota_version_decision_t :=
  if negb match expected_project, candidate_project with
          | Some e, Some c => streq e c
          | _, _ => false
          end
  then OTA_VERSION_REJECT_PROJECT
  else if candidate_secure_version <? running_secure_version then OTA_VERSION_REJECT_SECURE_VERSION
  else match ota_semver_compare candidate_version running_version with
       | None => OTA_VERSION_REJECT_FORMAT
       | Some cmp =>
           if (cmp =? 0) && negb allow_reinstall then OTA_VERSION_REJECT_REINSTALL
           else if (cmp <? 0) && negb allow_downgrade then OTA_VERSION_REJECT_DOWNGRADE
           else OTA_VERSION_ACCEPT
       end.

(** ** The examples of test_ota_version_policy.c *)

Definition ver (s : string) : option (list Z) := Some (str s).

Example compare_patch : ota_semver_compare (ver "1.2.3") (ver "1.2.2") = Some 1.
Proof. vm_compute. reflexivity. Qed.
Example compare_candidates : ota_semver_compare (ver "1.2.3-rc.2") (ver "1.2.3-rc.1") = Some 1.
Proof. vm_compute. reflexivity. Qed.
Example compare_release : ota_semver_compare (ver "1.2.3") (ver "1.2.3-rc.9") = Some 1.
Proof. vm_compute. reflexivity. Qed.
Example compare_development : ota_semver_compare (ver "0.7.0-dev") (ver "0.6.1") = Some 1.
Proof. vm_compute. reflexivity. Qed.
Example compare_short : ota_semver_compare (ver "1.2") (ver "1.2.0") = None.
Proof. vm_compute. reflexivity. Qed.
Example compare_zero_major : ota_semver_compare (ver "01.2.3") (ver "1.2.3") = None.
Proof. vm_compute. reflexivity. Qed.
Example compare_zero_candidate : ota_semver_compare (ver "1.2.3-01") (ver "1.2.3-1") = None.
Proof. vm_compute. reflexivity. Qed.

(** ** Versions are ordered

    [compare_versions] is a three-way comparison by a total preorder, put
    together from comparisons of numbers, characters and lists; hence a chain
    of accepted updates never leads below its start. *)

(** ** Three-way comparisons *)

Record lawful {A} (f : A -> A -> Z) : Prop := {
  lw_range x y : f x y = -1 \/ f x y = 0 \/ f x y = 1;
  lw_anti x y : f y x = - f x y;
  lw_trans x y z : f x y <= 0 -> f y z <= 0 -> f x z <= 0;
}.

(** A strict step stays one behind a weak step. *)
Lemma lawful_strict {A} (f : A -> A -> Z) x y z : lawful f -> f x y <= 0 -> f y z <= 0 -> f x z = 0 -> f x y = 0 /\ f y z = 0.
Proof.
  intros [R S T] H1 H2 H3. pose proof (S x y). pose proof (S y z). pose proof (S x z).
  pose proof (T y z x). pose proof (T z x y). lia.
Qed.

Definition cmpZ (x y : Z) : Z := if x <? y then -1 else if y <? x then 1 else 0.

Lemma lawful_Z : lawful cmpZ.
Proof.
  split; unfold cmpZ.
  - intros x y. destruct (Z.ltb_spec x y), (Z.ltb_spec y x); lia.
  - intros x y. destruct (Z.ltb_spec x y), (Z.ltb_spec y x); lia.
  - intros x y z. destruct (Z.ltb_spec x y), (Z.ltb_spec y x), (Z.ltb_spec y z), (Z.ltb_spec z y),
      (Z.ltb_spec x z), (Z.ltb_spec z x); lia.
Qed.

Lemma lawful_map {A B} (g : A -> B) (f : B -> B -> Z) : lawful f -> lawful (fun x y => f (g x) (g y)).
Proof. intros [R S T]. split; eauto. Qed.

Definition next_cmp {A} (f g : A -> A -> Z) (x y : A) : Z := if f x y =? 0 then g x y else f x y.

Lemma lawful_next {A} (f g : A -> A -> Z) : lawful f -> lawful g -> lawful (next_cmp f g).
Proof.
  intros F G. split; unfold next_cmp.
  - intros x y. destruct (f x y =? 0); [apply G|apply F].
  - intros x y. rewrite (lw_anti _ F x y). destruct (Z.eqb_spec (f x y) 0) as [->|]; [apply G|].
    by destruct (Z.eqb_spec (- f x y) 0); [lia|].
  - intros x y z H1 H2. pose proof (lw_trans _ F x y z) as T.
    assert (f x y <= 0) by (destruct (Z.eqb_spec (f x y) 0); lia).
    assert (f y z <= 0) by (destruct (Z.eqb_spec (f y z) 0); lia).
    destruct (Z.eqb_spec (f x z) 0) as [E|]; [|by apply T].
    destruct (lawful_strict f x y z F) as [E1 E2]; [done..|]. rewrite E1 in H1. rewrite E2 in H2.
    cbn in *. by apply (lw_trans _ G x y z).
Qed.

Fixpoint lex {A} (f : A -> A -> Z) (a b : list A) : Z :=
  match a, b with
  | x :: a', y :: b' => if negb (f x y =? 0) then f x y else lex f a' b'
  | _ :: _, [] => 1
  | [], _ :: _ => -1
  | [], [] => 0
  end.

Lemma lawful_lex {A} (f : A -> A -> Z) : lawful f -> lawful (lex f).
Proof.
  intros F. split.
  - induction x as [|x a IH]; intros [|y b]; cbn [lex]; try lia. destruct (negb _); [apply F|apply IH].
  - induction x as [|x a IH]; intros [|y b]; cbn [lex]; try lia. rewrite (lw_anti _ F x y).
    destruct (Z.eqb_spec (f x y) 0) as [->|]; cbn [negb]; [apply IH|].
    by destruct (Z.eqb_spec (- f x y) 0); [lia|].
  - induction x as [|x a IH]; intros [|y b] [|z c] H1 H2; cbn [lex] in *; try lia.
    pose proof (lw_trans _ F x y z) as T.
    assert (f x y <= 0) by (destruct (Z.eqb_spec (f x y) 0); cbn [negb] in *; lia).
    assert (f y z <= 0) by (destruct (Z.eqb_spec (f y z) 0); cbn [negb] in *; lia).
    destruct (Z.eqb_spec (f x z) 0) as [E|]; cbn [negb]; [|by apply T].
    destruct (lawful_strict f x y z F) as [E1 E2]; [done..|]. rewrite E1 in H1. rewrite E2 in H2.
    cbn in *. by eapply IH.
Qed.

(** A comparison that is given by another one. *)
Lemma lawful_eq {A} (f g : A -> A -> Z) : (forall x y, f x y = g x y) -> lawful f -> lawful g.
Proof.
  intros E [R S T]. split.
  - intros x y. rewrite <- E. apply R.
  - intros x y. rewrite <- !E. apply S.
  - intros x y z. rewrite <- !E. apply T.
Qed.

(** ** Versions *)

Lemma memcmp_lex a b :
  lex cmpZ a b =
    let cmp := memcmp a b (if (length a <? length b)%nat then length a else length b) in
    if negb (cmp =? 0) then cmp
    else if (length a <? length b)%nat then -1 else if (length b <? length a)%nat then 1 else 0.
Proof.
  revert b. induction a as [|x a IH]; intros [|y b]; cbn [lex length]; [done..|].
  rewrite (IH b). cbv zeta.
  change (S (length a) <? S (length b))%nat with (length a <? length b)%nat.
  change (S (length b) <? S (length a))%nat with (length b <? length a)%nat.
  assert ((if (length a <? length b)%nat then S (length a) else S (length b)) =
    S (if (length a <? length b)%nat then length a else length b)) as -> by (by destruct (_ <? _)%nat).
  cbn [memcmp]. unfold cmpZ.
  destruct (Z.ltb_spec x y), (Z.ltb_spec y x); try lia; done.
Qed.

Lemma memcmp_same_length a b : length a = length b -> memcmp a b (length a) = lex cmpZ a b.
Proof.
  revert b. induction a as [|x a IH]; intros [|y b] E; try done. injection E as E. cbn [memcmp lex length].
  rewrite IH by done. unfold cmpZ. destruct (Z.ltb_spec x y), (Z.ltb_spec y x); try lia; done.
Qed.

(** Numbers come first, shorter ones before longer ones; the rest goes by the
    characters. *)
Definition numeric_class (s : list Z) : Z := if identifier_numeric s then 0 else 1.
Definition numeric_length (s : list Z) : Z := if identifier_numeric s then Z.of_nat (length s) else 0.

Lemma compare_identifiers_eq a b :
  next_cmp (fun a b => cmpZ (numeric_class a) (numeric_class b))
    (next_cmp (fun a b => cmpZ (numeric_length a) (numeric_length b)) (lex cmpZ)) a b = compare_identifiers a b.
Proof.
  unfold next_cmp, compare_identifiers, numeric_class, numeric_length.
  destruct (identifier_numeric a), (identifier_numeric b); cbn -[memcmp Nat.ltb Nat.eqb]; [|done|done|].
  - unfold cmpZ at 1 3. destruct (Nat.eqb_spec (length a) (length b)) as [E|E]; cbn [negb].
    + rewrite E, Z.ltb_irrefl. cbn [Z.eqb]. by rewrite <- memcmp_same_length, E.
    + destruct (Z.ltb_spec (Z.of_nat (length a)) (Z.of_nat (length b))), (Nat.ltb_spec (length a) (length b)); try lia; [done|].
      destruct (Z.ltb_spec (Z.of_nat (length b)) (Z.of_nat (length a))); [done|lia].
  - by rewrite memcmp_lex.
Qed.

Lemma lawful_identifiers : lawful compare_identifiers.
Proof.
  eapply lawful_eq; [apply compare_identifiers_eq|].
  apply lawful_next; [apply (lawful_map numeric_class), lawful_Z|].
  apply lawful_next; [apply (lawful_map numeric_length), lawful_Z|apply lawful_lex, lawful_Z].
Qed.

Lemma compare_loop_eq a b : lex compare_identifiers a b = compare_loop a b.
Proof. revert b. induction a as [|x a IH]; intros [|y b]; cbn [lex compare_loop]; [done..|]. by rewrite IH. Qed.

Definition is_release (v : semver_t) : Z := if (length (pre v) =? 0)%nat then 1 else 0.

Lemma compare_prerelease_eq a b :
  next_cmp (fun a b => cmpZ (is_release a) (is_release b))
    (fun a b => lex compare_identifiers (identifiers (pre a)) (identifiers (pre b))) a b = compare_prerelease a b.
Proof.
  unfold next_cmp, compare_prerelease, is_release.
  destruct (Nat.eqb_spec (length (pre a)) 0) as [Ea|], (Nat.eqb_spec (length (pre b)) 0) as [Eb|]; cbn [andb]; try done.
  - apply nil_length_inv in Ea as ->. by apply nil_length_inv in Eb as ->.
  - apply compare_loop_eq.
Qed.

Lemma compare_versions_eq a b :
  next_cmp (fun a b => cmpZ (major a) (major b))
    (next_cmp (fun a b => cmpZ (minor a) (minor b))
      (next_cmp (fun a b => cmpZ (patch a) (patch b)) compare_prerelease)) a b = compare_versions a b.
Proof.
  unfold next_cmp, compare_versions, cmpZ.
  destruct (Z.eqb_spec (major a) (major b)) as [E|E]; cbn [negb].
  2: { destruct (Z.ltb_spec (major a) (major b)); [done|]. destruct (Z.ltb_spec (major b) (major a)); [done|lia]. }
  rewrite E, Z.ltb_irrefl. cbn [Z.eqb]. clear E.
  destruct (Z.eqb_spec (minor a) (minor b)) as [E|E]; cbn [negb].
  2: { destruct (Z.ltb_spec (minor a) (minor b)); [done|]. destruct (Z.ltb_spec (minor b) (minor a)); [done|lia]. }
  rewrite E, Z.ltb_irrefl. cbn [Z.eqb]. clear E.
  destruct (Z.eqb_spec (patch a) (patch b)) as [E|E]; cbn [negb].
  2: { destruct (Z.ltb_spec (patch a) (patch b)); [done|]. destruct (Z.ltb_spec (patch b) (patch a)); [done|lia]. }
  rewrite E, Z.ltb_irrefl. done.
Qed.

Lemma lawful_versions : lawful compare_versions.
Proof.
  eapply lawful_eq; [apply compare_versions_eq|].
  apply lawful_next; [apply (lawful_map major), lawful_Z|].
  apply lawful_next; [apply (lawful_map minor), lawful_Z|].
  apply lawful_next; [apply (lawful_map patch), lawful_Z|].
  eapply lawful_eq; [apply compare_prerelease_eq|].
  apply lawful_next; [apply (lawful_map is_release), lawful_Z|].
  apply (lawful_map (fun v => identifiers (pre v))), lawful_lex, lawful_identifiers.
Qed.

(** ** Updates *)

(** The firmware that runs. *)
Record firmware := mk_firmware { fw_version : list Z; fw_secure_version : Z }.

(** Candidates accepted one after the other without permission to downgrade. *)
Inductive updates (project : list Z) : firmware -> firmware -> Prop :=
  | up_none fw : updates project fw fw
  | up_accept fw1 fw2 fw3 candidate_project allow_reinstall :
      updates project fw1 fw2 ->
      ota_version_policy_decide (Some project) (Some (fw_version fw2)) (fw_secure_version fw2)
        (Some candidate_project) (Some (fw_version fw3)) (fw_secure_version fw3) allow_reinstall false
        = OTA_VERSION_ACCEPT ->
      updates project fw1 fw3.

Lemma decide_accept project fw candidate_project fw' allow_reinstall :
  ota_version_policy_decide (Some project) (Some (fw_version fw)) (fw_secure_version fw)
    (Some candidate_project) (Some (fw_version fw')) (fw_secure_version fw') allow_reinstall false
    = OTA_VERSION_ACCEPT ->
  c_str candidate_project = c_str project /\ fw_secure_version fw <= fw_secure_version fw' /\
  exists v v', parse_semver (Some (fw_version fw)) = Some v /\ parse_semver (Some (fw_version fw')) = Some v' /\
    0 <= compare_versions v' v.
Proof.
  unfold ota_version_policy_decide, ota_semver_compare, streq. case_bool_decide as Hp; cbn [negb]; [|done].
  destruct (Z.ltb_spec (fw_secure_version fw') (fw_secure_version fw)); [done|].
  destruct (parse_semver (Some (fw_version fw'))) as [v'|]; [|done].
  destruct (parse_semver (Some (fw_version fw))) as [v|]; [|done].
  destruct (_ && negb allow_reinstall); [done|]. destruct (Z.ltb_spec (compare_versions v' v) 0); [done|].
  intros _. split_and!; [done|done|]. exists v, v'. by split_and!.
Qed.

(** No update downgrades by itself: after any number of accepted updates
    without permission to downgrade, the version that runs compares as the one
    at the start or higher, and so does its secure version. *)
Theorem updates_never_downgrade project fw fw' v :
  updates project fw fw' -> parse_semver (Some (fw_version fw)) = Some v ->
  fw_secure_version fw <= fw_secure_version fw' /\
  exists cmp, ota_semver_compare (Some (fw_version fw')) (Some (fw_version fw)) = Some cmp /\ 0 <= cmp.
Proof.
  intros Hup Hv. unfold ota_semver_compare. rewrite Hv.
  assert (fw_secure_version fw <= fw_secure_version fw' /\
    exists v', parse_semver (Some (fw_version fw')) = Some v' /\ compare_versions v v' <= 0) as (Hs & v' & -> & Hle).
  { induction Hup as [fw|fw1 fw2 fw3 candidate_project allow_reinstall _ IH Hacc].
    - split; [lia|]. exists v. split; [done|]. pose proof (lw_anti _ lawful_versions v v). lia.
    - destruct (IH Hv) as (Hs & v2 & Hv2 & Hle). apply decide_accept in Hacc as (_ & Hs' & v2' & v3 & Hv2' & Hv3 & Hc).
      rewrite Hv2 in Hv2'. injection Hv2' as <-. split; [lia|]. exists v3. split; [done|].
      apply (lw_trans _ lawful_versions v v2 v3); [done|]. pose proof (lw_anti _ lawful_versions v3 v2). lia. }
  split; [done|]. eexists. split; [done|]. rewrite (lw_anti _ lawful_versions v v'). lia.
Qed.

Lemma updates_never_downgrade_witness :
  exists cmp, ota_semver_compare (ver "0.8.0-rc.2") (ver "0.7.0-dev") = Some cmp /\ 0 <= cmp.
Proof.
  destruct (updates_never_downgrade (str "esp32_sms_gateway") (mk_firmware (str "0.7.0-dev") 3)
    (mk_firmware (str "0.8.0-rc.2") 4) (mk_semver 0 7 0 (str "dev"))) as [_ H].
  - eapply up_accept with (fw2 := mk_firmware (str "0.7.0") 3) (candidate_project := str "esp32_sms_gateway")
      (allow_reinstall := false); [|vm_compute; reflexivity].
    eapply up_accept with (fw2 := mk_firmware (str "0.7.0-dev") 3) (candidate_project := str "esp32_sms_gateway")
      (allow_reinstall := false); [apply up_none|vm_compute; reflexivity].
  - vm_compute. reflexivity.
  - exact H.
Defined.
