(* ===== verification/ModemStatus.v ===== *)
(** * The modem's status lines (components/modem_manager/modem_status.c)

    The answers and URCs that report the SIM, the signal, the registration and
    the operator.  A cursor into a line is the rest of the line; the character
    at its end is 0. *)

From Stdlib Require Import Ascii String.
From Stdlib Require Import ZifyBool ZifyNat.
From stdpp Require Import base numbers list strings.
From S2P Require Import Prelude.

Open Scope Z_scope.

Definition MODEM_OPERATOR_NAME_MAX : nat := 64.
Definition INT16_MIN : Z := -32768.
Definition INT_MIN : Z := -2147483648.
Definition INT_MAX : Z := 2147483647.

Inductive modem_sim_state_t :=
  | MODEM_SIM_UNKNOWN
  | MODEM_SIM_READY
  | MODEM_SIM_PIN_REQUIRED
  | MODEM_SIM_PUK_REQUIRED
  | MODEM_SIM_NOT_INSERTED
  | MODEM_SIM_BLOCKED
  | MODEM_SIM_ERROR.

#[export] Instance sim_state_eq_dec : EqDecision modem_sim_state_t.
Proof. solve_decision. Defined.

Inductive modem_registration_status_t :=
  | MODEM_REG_UNKNOWN
  | MODEM_REG_NOT_REGISTERED
  | MODEM_REG_HOME
  | MODEM_REG_SEARCHING
  | MODEM_REG_DENIED
  | MODEM_REG_UNKNOWN_NETWORK
  | MODEM_REG_ROAMING.

#[export] Instance registration_status_eq_dec : EqDecision modem_registration_status_t.
Proof. solve_decision. Defined.

Record modem_registration_t := mk_registration {
  reg_status : modem_registration_status_t;
  reg_access_technology : Z;
}.

Record modem_signal_t := mk_signal {
  rssi : Z;
  rssi_dbm : Z;
  ber : Z;
}.

(** [op_name] is the whole array. *)
Record modem_operator_t := mk_operator {
  op_mode : Z;
  op_format : Z;
  op_name : list Z;
  op_access_technology : Z;
}.

Definition skip_space (p : list Z) : list Z := skip_while (fun c => (c =? 32) || (c =? 9)) p.

(** The value and the cursor behind it. *)
Definition parse_int (cursor : list Z) : option (Z * list Z) :=
  match strtol (skip_space cursor) with
  | None => None
  | Some (parsed, rest) => if (parsed <? INT_MIN) || (INT_MAX <? parsed) then None else Some (parsed, rest)
  end.

Definition consume_char (cursor : list Z) (expected : Z) : option (list Z) :=
  let p := skip_space cursor in
  if negb (p.[0] =? expected) then None else Some (drop 1 p).

(** [strncmp(line, prefix, strlen(prefix)) == 0] *)
Definition has_prefix (line prefix : option (list Z)) : bool :=
  match line, prefix with
  | Some line, Some prefix => bool_decide (take (strlen prefix) (c_str line) = c_str prefix)
  | _, _ => false
  end.

(** The text behind a prefix that the line has. *)
Definition behind (line prefix : list Z) : list Z := drop (strlen prefix) (c_str line).

Definition modem_status_parse_cpin (line : option (list Z)) : option modem_sim_state_t :=
  let prefix := str "+CPIN:" in
  match line with
  | None => None
  | Some l =>
      if negb (has_prefix line (Some prefix)) then None
      else
        let value := skip_space (behind l prefix) in
        Some
          (if streq value (str "READY") then MODEM_SIM_READY
           else if streq value (str "SIM PIN") then MODEM_SIM_PIN_REQUIRED
           else if streq value (str "SIM PUK") then MODEM_SIM_PUK_REQUIRED
           else if streq value (str "NOT INSERTED") || streq value (str "SIM NOT INSERTED") then MODEM_SIM_NOT_INSERTED
           else if streq value (str "SIM BLOCK") || streq value (str "SIM BLOCKED") then MODEM_SIM_BLOCKED
           else MODEM_SIM_ERROR)
  end.

Definition modem_status_parse_csq (line : option (list Z)) : option modem_signal_t :=
  let prefix := str "+CSQ:" in
  match line with
  | None => None
  | Some l =>
      if negb (has_prefix line (Some prefix)) then None
      else
        '(rssi, cursor) ← parse_int (behind l prefix);
        cursor ← consume_char cursor (chr ",");
        '(ber, cursor) ← parse_int cursor;
        if negb ((skip_space cursor).[0] =? 0)
           || negb (((0 <=? rssi) && (rssi <=? 31)) || (rssi =? 99))
           || negb (((0 <=? ber) && (ber <=? 7)) || (ber =? 99))
        then None
        else Some (mk_signal rssi (if rssi =? 99 then INT16_MIN else -113 + 2 * rssi) ber)
  end.

(** [strrchr(s, c) + 1] *)
Fixpoint behind_last (c : Z) (s : list Z) : option (list Z) :=
  match s with
  | [] => None
  | x :: s' =>
      match behind_last c s' with
      | Some r => Some r
      | None => if x =? c then Some s' else None
      end
  end.

(** [(modem_registration_status_t)status] for a status in 0..5 *)
Definition registration_status (status : Z) : modem_registration_status_t :=
  match status with
  | 0 => MODEM_REG_NOT_REGISTERED
  | 1 => MODEM_REG_HOME
  | 2 => MODEM_REG_SEARCHING
  | 3 => MODEM_REG_DENIED
  | 4 => MODEM_REG_UNKNOWN_NETWORK
  | 5 => MODEM_REG_ROAMING
  | _ => MODEM_REG_UNKNOWN
  end.

(** [status] and [cursor] behind the first number. *)
Definition registration_second (first : Z) (cursor : list Z) : Z * list Z :=
  let cursor := skip_space cursor in
  if cursor.[0] =? chr "," then
    let second_start := skip_space (drop 1 cursor) in
    if negb (second_start.[0] =? 34) then
      match parse_int second_start with
      | Some (second, after_second) =>
          if (0 <=? first) && (first <=? 2) && (0 <=? second) && (second <=? 5)
          then (second, after_second)
          else (first, second_start)
      | None => (first, second_start)
      end
    else (first, second_start)
  else (first, cursor).

(** [act] *)
Definition registration_act (cursor : list Z) : Z :=
  match behind_last (chr ",") cursor with
  | None => -1
  | Some act_cursor =>
      match parse_int act_cursor with
      | Some (parsed_act, rest) => if (skip_space rest).[0] =? 0 then parsed_act else -1
      | None => -1
      end
  end.

Definition modem_status_parse_registration (line prefix : option (list Z)) : option modem_registration_t :=
  match line, prefix with
  | Some l, Some p =>
      if negb (has_prefix line prefix) then None
      else
        '(first, cursor) ← parse_int (behind l p);
        let '(status, cursor) := registration_second first cursor in
        let act := registration_act cursor in
        if (status <? 0) || (5 <? status) then None
        else Some (mk_registration (registration_status status) act)
  | _, _ => None
  end.

(** The loop over the quoted name: the characters kept and the cursor. *)
Fixpoint operator_name_loop (cursor name : list Z) : list Z * list Z :=
  match cursor with
  | [] => (name, [])
  | c :: cursor' =>
      if c =? 34 then (name, cursor)
      else operator_name_loop cursor' (if (length name + 1 <? MODEM_OPERATOR_NAME_MAX)%nat then name ++ [c] else name)
  end.

(** Behind the name: [access_technology]. *)
Definition operator_act (cursor : list Z) : option Z :=
  let cursor := skip_space cursor in
  '(act, cursor) ← (if cursor.[0] =? chr "," then parse_int (drop 1 cursor) else Some (-1, cursor));
  if (skip_space cursor).[0] =? 0 then Some act else None.

Definition modem_status_parse_operator (line : option (list Z)) : option modem_operator_t :=
  let prefix := str "+COPS:" in
  match line with
  | None => None
  | Some l =>
      if negb (has_prefix line (Some prefix)) then None
      else
        '(mode, cursor) ← parse_int (behind l prefix);
        let cursor := skip_space cursor in
        if cursor.[0] =? 0 then Some (mk_operator mode (-1) (zeros MODEM_OPERATOR_NAME_MAX) (-1))
        else
          cursor ← consume_char cursor (chr ",");
          '(format, cursor) ← parse_int cursor;
          cursor ← consume_char cursor (chr ",");
          let cursor := skip_space cursor in
          if negb (cursor.[0] =? 34) then None
          else
            let '(name, cursor) := operator_name_loop (drop 1 cursor) [] in
            if negb (cursor.[0] =? 34) then None
            else
              act ← operator_act (drop 1 cursor);
              Some (mk_operator mode format (set_string (zeros MODEM_OPERATOR_NAME_MAX) name) act)
  end.

Definition modem_registration_is_registered (status : modem_registration_status_t) : bool :=
  bool_decide (status = MODEM_REG_HOME) || bool_decide (status = MODEM_REG_ROAMING).

Definition modem_registration_is_roaming (status : modem_registration_status_t) : bool :=
  bool_decide (status = MODEM_REG_ROAMING).

Definition modem_sim_state_name (state : modem_sim_state_t) : list Z :=
  match state with
  | MODEM_SIM_UNKNOWN => str "unknown"
  | MODEM_SIM_READY => str "ready"
  | MODEM_SIM_PIN_REQUIRED => str "pin_required"
  | MODEM_SIM_PUK_REQUIRED => str "puk_required"
  | MODEM_SIM_NOT_INSERTED => str "not_inserted"
  | MODEM_SIM_BLOCKED => str "blocked"
  | MODEM_SIM_ERROR => str "error"
  end.

Definition modem_registration_status_name (status : modem_registration_status_t) : list Z :=
  match status with
  | MODEM_REG_NOT_REGISTERED => str "not_registered"
  | MODEM_REG_HOME => str "home"
  | MODEM_REG_SEARCHING => str "searching"
  | MODEM_REG_DENIED => str "denied"
  | MODEM_REG_UNKNOWN_NETWORK => str "unknown_network"
  | MODEM_REG_ROAMING => str "roaming"
  | MODEM_REG_UNKNOWN => str "unknown"
  end.

(** ** The examples of test_modem_status.c *)

#[local] Abbreviation line s := (Some (str s)) (only parsing).

Example cpin_ready : modem_status_parse_cpin (line "+CPIN: READY") = Some MODEM_SIM_READY.
Proof. vm_compute. reflexivity. Qed.
Example cpin_pin : modem_status_parse_cpin (line "+CPIN: SIM PIN") = Some MODEM_SIM_PIN_REQUIRED.
Proof. vm_compute. reflexivity. Qed.
Example cpin_other : modem_status_parse_cpin (line "+CSQ: 20,99") = None.
Proof. vm_compute. reflexivity. Qed.
Example csq_known : modem_status_parse_csq (line "+CSQ: 19,99") = Some (mk_signal 19 (-75) 99).
Proof. vm_compute. reflexivity. Qed.
Example csq_range : modem_status_parse_csq (line "+CSQ: 32,0") = None.
Proof. vm_compute. reflexivity. Qed.
Example creg_alone :
  modem_status_parse_registration (line "+CGREG: 1") (line "+CGREG:") = Some (mk_registration MODEM_REG_HOME (-1)).
Proof. vm_compute. reflexivity. Qed.
Example creg_range : modem_status_parse_registration (line "+CREG: 9") (line "+CREG:") = None.
Proof. vm_compute. reflexivity. Qed.
Example cops_mode :
  modem_status_parse_operator (line "+COPS: 0") = Some (mk_operator 0 (-1) (zeros MODEM_OPERATOR_NAME_MAX) (-1)).
Proof. vm_compute. reflexivity. Qed.
Example cops_unquoted : modem_status_parse_operator (line "+COPS: 0,0,Telekom,2") = None.
Proof. vm_compute. reflexivity. Qed.

(** ** Reading what modems print *)

Lemma skip_space_other (c : Z) s : c <> 32 -> c <> 9 -> skip_space (c :: s) = c :: s.
Proof. intros. unfold skip_space. cbn [skip_while]. by replace ((c =? 32) || (c =? 9)) with false by lia. Qed.

Lemma skip_space_decimal n s : skip_space (decimal n ++ s) = decimal n ++ s.
Proof.
  destruct (decimal_nonempty n) as (c & l & -> & Hc). unfold isdigit in Hc. apply skip_space_other; lia.
Qed.

Lemma skip_space_blank s : skip_space (32 :: s) = skip_space s.
Proof. done. Qed.

Lemma parse_int_decimal n s : 0 <= n <= INT_MAX -> no_digit s -> parse_int (decimal n ++ s) = Some (n, s).
Proof.
  intros Hn Hs. unfold parse_int. rewrite skip_space_decimal, strtol_decimal by done.
  by replace ((n <? INT_MIN) || (INT_MAX <? n)) with false by (unfold INT_MIN, INT_MAX in *; lia).
Qed.

Lemma parse_int_blank s : parse_int (32 :: s) = parse_int s.
Proof. done. Qed.

Lemma parse_int_quote s : parse_int (34 :: s) = None.
Proof. done. Qed.

Lemma behind_last_none c s : c ∉ s -> behind_last c s = None.
Proof.
  induction s as [|x s IH]; cbn; [done|]. intros [Hx Hs]%not_elem_of_cons. rewrite IH by done.
  by replace (x =? c) with false by lia.
Qed.

Lemma behind_last_app c s t : c ∉ t -> behind_last c (s ++ c :: t) = Some t.
Proof.
  intros Ht. induction s as [|x s IH]; cbn [app behind_last]; [|by rewrite IH].
  rewrite behind_last_none by done. by rewrite Z.eqb_refl.
Qed.

(** A text that a modem quotes. *)
Definition quotable (s : list Z) : Prop := cstring s /\ (34 ∉ s) /\ (chr "," ∉ s).

#[export] Instance quotable_dec s : Decision (quotable s).
Proof. unfold quotable, cstring. apply _. Defined.

Lemma quotable_no c s : quotable s -> (c = 34 \/ c = chr ",") -> c ∉ s.
Proof. intros (_ & H1 & H2) [-> | ->]; done. Qed.

Definition quoted (s : list Z) : list Z := 34 :: s ++ [34].

(** Where the modem is: location area, cell and, optionally, the technology. *)
Definition location (lac ci : list Z) (act : option Z) : list Z :=
  chr "," :: quoted lac ++ chr "," :: quoted ci
  ++ match act with Some act => chr "," :: decimal act | None => [] end.

(** The answer to a query names the mode first, a URC does not. *)
Definition registration_line (prefix : list Z) (mode : option Z) (stat : Z)
    (place : option (list Z * list Z * option Z)) : list Z :=
  prefix ++ 32 :: match mode with Some n => decimal n ++ [chr ","] | None => [] end
  ++ decimal stat ++ match place with Some (lac, ci, act) => location lac ci act | None => [] end.

Definition place_ok (place : option (list Z * list Z * option Z)) : Prop :=
  match place with
  | Some (lac, ci, act) =>
      quotable lac /\ quotable ci /\ match act with Some a => 0 <= a <= INT_MAX | None => True end
  | None => True
  end.

Definition place_act (place : option (list Z * list Z * option Z)) : Z :=
  match place with Some (_, _, Some act) => act | _ => -1 end.

Lemma quoted_not_in c s : quotable s -> c = chr "," -> c ∉ quoted s.
Proof.
  intros Hs ->. unfold quoted. rewrite not_elem_of_cons, not_elem_of_app, list_elem_of_singleton.
  split_and!; [done|by apply quotable_no; [|right]|done].
Qed.

(** The technology is found whatever stands before the cell. *)
Lemma registration_act_tail s ci act :
  quotable ci -> match act with Some a => 0 <= a <= INT_MAX | None => True end ->
  registration_act
    (s ++ chr "," :: quoted ci ++ match act with Some act => chr "," :: decimal act | None => [] end)
  = match act with Some a => a | None => -1 end.
Proof.
  intros Hci Hact. unfold registration_act. destruct act as [a|].
  - rewrite (app_comm_cons (quoted ci)), app_assoc, behind_last_app by by apply decimal_not_in.
    rewrite <- (app_nil_r (decimal a)), parse_int_decimal by done. done.
  - rewrite app_nil_r, behind_last_app by by apply quoted_not_in. unfold quoted. by rewrite parse_int_quote.
Qed.

Lemma location_not_digit place :
  no_digit (match place with Some (lac, ci, act) => location lac ci act | None => [] end).
Proof. by destruct place as [[[lac ci] act]|]. Qed.

Lemma location_act place : place_ok place ->
  registration_act (match place with Some (lac, ci, act) => location lac ci act | None => [] end)
  = place_act place.
Proof.
  destruct place as [[[lac ci] act]|]; [|done]. intros (Hlac & Hci & Hact).
  transitivity (match act with Some a => a | None => -1 end); [|by destruct act].
  exact (registration_act_tail (chr "," :: quoted lac) ci act Hci Hact).
Qed.

Lemma registration_second_query mode stat s :
  0 <= mode <= 2 -> 0 <= stat <= 5 -> no_digit s ->
  registration_second mode (chr "," :: decimal stat ++ s) = (stat, s).
Proof.
  intros Hm Hst Hs. unfold registration_second. rewrite skip_space_other by done.
  change (drop 1 (chr "," :: ?x)) with x. rewrite skip_space_decimal.
  rewrite parse_int_decimal by first [done|unfold INT_MAX; lia].
  replace ((0 <=? mode) && (mode <=? 2) && (0 <=? stat) && (stat <=? 5)) with true by lia.
  destruct (decimal_nonempty stat) as (c & l & -> & Hc). unfold isdigit in Hc.
  change ((c :: l) ++ s) with (c :: l ++ s). change ((c :: ?x).[0]) with c.
  by replace (negb (c =? 34)) with true by lia.
Qed.

Lemma registration_second_urc stat place : place_ok place ->
  let s := match place with Some (lac, ci, act) => location lac ci act | None => [] end in
  let '(status, cursor) := registration_second stat s in
  status = stat /\ registration_act cursor = place_act place.
Proof.
  destruct place as [[[lac ci] act]|]; [|done]. intros (Hlac & Hci & Hact). cbn zeta.
  unfold registration_second, location. rewrite skip_space_other by done.
  change (drop 1 (chr "," :: ?x)) with x.
  change (skip_space (quoted lac ++ ?x)) with (quoted lac ++ x).
  split; [done|]. transitivity (match act with Some a => a | None => -1 end); [|by destruct act].
  exact (registration_act_tail (quoted lac) ci act Hci Hact).
Qed.

Lemma location_cstring place : place_ok place ->
  cstring (match place with Some (lac, ci, act) => location lac ci act | None => [] end).
Proof.
  destruct place as [[[lac ci] act]|]; [|intros; constructor]. intros ((Hl & _) & (Hc & _) & _).
  unfold location, quoted, cstring in *.
  repeat first [apply Forall_cons_2; [done|]|apply Forall_app_2|apply Forall_nil_2|done|apply decimal_cstring].
  destruct act; repeat first [apply Forall_cons_2; [done|]|apply Forall_nil_2|apply decimal_cstring].
Qed.

Lemma registration_line_cstring prefix mode stat place :
  cstring prefix -> place_ok place -> cstring (registration_line prefix mode stat place).
Proof.
  intros Hp Hpl%location_cstring. unfold registration_line, cstring in *.
  apply Forall_app_2; [done|]. apply Forall_cons_2; [done|]. apply Forall_app_2.
  - destruct mode; [|constructor]. apply Forall_app_2; [apply decimal_cstring|by apply Forall_cons_2].
  - apply Forall_app_2; [apply decimal_cstring|done].
Qed.

Lemma has_prefix_app prefix s : cstring (prefix ++ s) -> has_prefix (Some (prefix ++ s)) (Some prefix) = true.
Proof.
  intros H. apply cstring_app in H as H'. destruct H' as [Hp _]. unfold has_prefix.
  rewrite (cstring_c_str (prefix ++ s)), (cstring_c_str prefix), cstring_strlen, take_app_length by done.
  by apply bool_decide_eq_true_2.
Qed.

Lemma behind_app prefix s : cstring (prefix ++ s) -> behind (prefix ++ s) prefix = s.
Proof.
  intros H. apply cstring_app in H as H'. destruct H' as [Hp _]. unfold behind.
  by rewrite cstring_c_str, cstring_strlen, drop_app_length.
Qed.

(** What a modem prints about its registration is read as printed, in the
    form of a query's answer, with the mode first, and in the form of a URC,
    with or without the place and the access technology. *)
Theorem registration_read prefix mode stat place :
  cstring prefix -> match mode with Some n => 0 <= n <= 2 | None => True end -> 0 <= stat <= 5 ->
  place_ok place ->
  modem_status_parse_registration (Some (registration_line prefix mode stat place)) (Some prefix)
  = Some (mk_registration (registration_status stat) (place_act place)).
Proof.
  intros Hp Hm Hst Hpl. pose proof (registration_line_cstring prefix mode stat place Hp Hpl) as Hc.
  unfold modem_status_parse_registration, registration_line in *.
  rewrite has_prefix_app, behind_app by done. cbn [negb]. rewrite parse_int_blank.
  pose proof (location_not_digit place) as Hnd. destruct mode as [n|]; cbn [app].
  - rewrite <- (app_assoc (decimal n)), parse_int_decimal by first [done|unfold INT_MAX; lia].
    cbn [mbind option_bind app]. rewrite (registration_second_query n stat _ Hm Hst Hnd). rewrite location_act by done.
    by replace ((stat <? 0) || (5 <? stat)) with false by lia.
  - rewrite parse_int_decimal by first [done|unfold INT_MAX; lia].
    cbn [mbind option_bind].
    pose proof (registration_second_urc stat place Hpl) as Hu. cbn zeta in Hu.
    destruct (registration_second _ _) as [status cursor]. destruct Hu as [-> ->].
    by replace ((stat <? 0) || (5 <? stat)) with false by lia.
Qed.

Lemma registration_read_witness :
  let place := Some (str "01AF", str "1234ABCD", Some 2) in
  place_ok place /\
  modem_status_parse_registration (Some (registration_line (str "+CREG:") (Some 2) 1 place)) (line "+CREG:")
  = Some (mk_registration MODEM_REG_HOME 2) /\
  modem_status_parse_registration (Some (registration_line (str "+CREG:") None 5 place)) (line "+CREG:")
  = Some (mk_registration MODEM_REG_ROAMING 2).
Proof.
  assert (place_ok (Some (str "01AF", str "1234ABCD", Some 2))) as Hp.
  { split; [|split]; [by apply (bool_decide_unpack (quotable _))..|done]. }
  assert (cstring (str "+CREG:")) as Hc by (repeat (apply Forall_cons_2; [done|]); apply Forall_nil_2).
  split_and!; [done| |].
  - apply (registration_read (str "+CREG:") (Some 2) 1 (Some (str "01AF", str "1234ABCD", Some 2)) Hc);
      [lia|lia|exact Hp].
  - apply (registration_read (str "+CREG:") None 5 (Some (str "01AF", str "1234ABCD", Some 2)) Hc);
      [done|lia|exact Hp].
Defined.

(** ** Operators *)

Lemma operator_name_keeps cursor name :
  (length name < MODEM_OPERATOR_NAME_MAX)%nat ->
  (length (operator_name_loop cursor name).1 < MODEM_OPERATOR_NAME_MAX)%nat.
Proof.
  revert name. induction cursor as [|c cursor IH]; intros name H; cbn [operator_name_loop]; [done|].
  destruct (c =? 34); [done|]. apply IH. case_match; [|done]. rewrite length_app; cbn. lia.
Qed.

Lemma operator_name_read name acc s :
  34 ∉ name -> (length acc < MODEM_OPERATOR_NAME_MAX)%nat ->
  operator_name_loop (name ++ 34 :: s) acc
  = (acc ++ take (MODEM_OPERATOR_NAME_MAX - 1 - length acc) name, 34 :: s).
Proof.
  revert acc. induction name as [|c name IH]; intros acc Hn Hacc; cbn [app operator_name_loop].
  { by rewrite take_nil, app_nil_r. }
  apply not_elem_of_cons in Hn as [Hc Hn]. replace (c =? 34) with false by lia.
  destruct (Nat.ltb_spec (length acc + 1) MODEM_OPERATOR_NAME_MAX) as [Hl|Hl].
  - rewrite IH by (rewrite ?length_app; cbn; done || lia).
    replace (MODEM_OPERATOR_NAME_MAX - 1 - length acc)%nat
      with (S (MODEM_OPERATOR_NAME_MAX - 1 - length (acc ++ [c]))) by (rewrite length_app; cbn [length]; lia).
    by rewrite <- app_assoc.
  - rewrite IH by done. replace (MODEM_OPERATOR_NAME_MAX - 1 - length acc)%nat with 0%nat by lia. done.
Qed.

Lemma set_string_zeros n s :
  (length s < n)%nat -> set_string (zeros n) s = s ++ zeros (n - length s).
Proof.
  intros H. unfold set_string, zeros. rewrite drop_replicate.
  replace (n - length s)%nat with (S (n - (length s + 1))) by lia. done.
Qed.

(** The answer to [AT+COPS?]. *)
Definition operator_line (mode format : Z) (name : list Z) (act : option Z) : list Z :=
  str "+COPS:" ++ 32 :: decimal mode ++ chr "," :: decimal format ++ chr "," :: quoted name
  ++ match act with Some act => chr "," :: decimal act | None => [] end.

Lemma operator_act_read act :
  match act with Some a => 0 <= a <= INT_MAX | None => True end ->
  operator_act (match act with Some act => chr "," :: decimal act | None => [] end)
  = Some (match act with Some a => a | None => -1 end).
Proof.
  destruct act as [a|]; [|done]. intros Ha. unfold operator_act. rewrite skip_space_other by done.
  change ((chr "," :: ?x).[0] =? chr ",") with true. change (drop 1 (chr "," :: ?x)) with x.
  rewrite <- (app_nil_r (decimal a)), parse_int_decimal by done. done.
Qed.

Lemma consume_comma s : consume_char (chr "," :: s) (chr ",") = Some s.
Proof. done. Qed.

(** The operator is read as the modem prints it: mode, format, access
    technology, and the name cut off at the 63 bytes that its array holds in
    front of the terminator. *)
Theorem operator_read mode format name act :
  0 <= mode <= INT_MAX -> 0 <= format <= INT_MAX -> cstring name -> 34 ∉ name ->
  match act with Some a => 0 <= a <= INT_MAX | None => True end ->
  modem_status_parse_operator (Some (operator_line mode format name act))
  = Some (mk_operator mode format
            (take (MODEM_OPERATOR_NAME_MAX - 1) name
             ++ zeros (MODEM_OPERATOR_NAME_MAX - Nat.min (MODEM_OPERATOR_NAME_MAX - 1) (length name)))
            (match act with Some a => a | None => -1 end)).
Proof.
  intros Hm Hf Hname Hq Hact. unfold modem_status_parse_operator, operator_line.
  assert (cstring (str "+COPS:" ++ 32 :: decimal mode ++ chr "," :: decimal format ++ chr "," :: quoted name
                   ++ match act with Some act => chr "," :: decimal act | None => [] end)) as Hc.
  { unfold quoted, cstring in *.
    destruct act; repeat first [apply Forall_cons_2; [done|]|apply Forall_app_2|apply Forall_nil_2|done
                               |apply decimal_cstring]. }
  rewrite has_prefix_app, behind_app by done. cbn [negb]. rewrite parse_int_blank, parse_int_decimal by done.
  cbn [mbind option_bind]. rewrite skip_space_other by done. change ((chr "," :: ?x).[0] =? 0) with false. cbv iota.
  rewrite consume_comma. cbn [mbind option_bind]. rewrite parse_int_decimal by done. cbn [mbind option_bind].
  rewrite consume_comma. cbn [mbind option_bind]. unfold quoted. cbn [app]. rewrite skip_space_other by done.
  change ((34 :: ?x).[0] =? 34) with true. cbn [negb]. change (drop 1 (34 :: ?x)) with x. rewrite <- app_assoc. cbn [app].
  rewrite operator_name_read by first [done|unfold MODEM_OPERATOR_NAME_MAX; cbn; lia]. cbn [app length]. rewrite Nat.sub_0_r.
  change ((34 :: ?x).[0] =? 34) with true. cbn [negb]. change (drop 1 (34 :: ?x)) with x.
  rewrite operator_act_read by done. cbn [mbind option_bind].
  rewrite set_string_zeros by (rewrite length_take; unfold MODEM_OPERATOR_NAME_MAX; lia). by rewrite length_take.
Qed.

Lemma operator_read_witness :
  let o := operator_line 0 0 (str "Telekom.de") (Some 2) in
  modem_status_parse_operator (Some o) = Some (mk_operator 0 0 (str "Telekom.de" ++ zeros 54) 2).
Proof.
  cbn zeta.
  rewrite (operator_read 0 0 (str "Telekom.de") (Some 2));
    [done|unfold INT_MAX; lia|unfold INT_MAX; lia
    |repeat (apply Forall_cons_2; [done|]); apply Forall_nil_2
    |apply (bool_decide_unpack (34 ∉ str "Telekom.de")); done|unfold INT_MAX; lia].
Defined.

(** ** What the parsers give has the type of its structure *)

Definition signal_ok (s : modem_signal_t) : Prop :=
  (0 <= rssi s <= 31 \/ rssi s = 99) /\ (0 <= ber s <= 7 \/ ber s = 99) /\
  rssi_dbm s = (if rssi s =? 99 then INT16_MIN else -113 + 2 * rssi s).

Lemma parse_csq_ok l s : modem_status_parse_csq l = Some s -> signal_ok s.
Proof.
  unfold modem_status_parse_csq. destruct l as [l|]; [|done]. case_match; [done|]. intros Hs.
  repeat (apply bind_Some in Hs as ([? ?] & _ & Hs) || apply bind_Some in Hs as (? & _ & Hs)).
  case_match; [done|]. simplify_eq. unfold signal_ok. cbn [rssi ber rssi_dbm]. split; [|split]; [lia|lia|done].
Qed.

Definition operator_ok (o : modem_operator_t) : Prop :=
  length (op_name o) = MODEM_OPERATOR_NAME_MAX /\ terminated (op_name o) = true.

Lemma terminated_zeros s n : (0 < n)%nat -> terminated (s ++ zeros n) = true.
Proof.
  intros H. unfold terminated. rewrite existsb_app. destruct n; [lia|]. apply orb_true_intro. by right.
Qed.

Lemma parse_operator_ok l o : modem_status_parse_operator l = Some o -> operator_ok o.
Proof.
  unfold modem_status_parse_operator. destruct l as [l|]; [|done]. case_match; [done|]. intros Hs.
  apply bind_Some in Hs as ([mode cursor] & _ & Hs). case_match; [by simplify_eq|].
  apply bind_Some in Hs as (? & _ & Hs). apply bind_Some in Hs as ([? ?] & _ & Hs). apply bind_Some in Hs as (? & _ & Hs).
  case_match; [done|].
  match type of Hs with context [operator_name_loop ?c []] =>
    pose proof (operator_name_keeps c [] ltac:(unfold MODEM_OPERATOR_NAME_MAX; cbn; lia)) as Hl;
    destruct (operator_name_loop c []) as [name ?] end.
  cbn [fst] in Hl. case_match; [done|]. apply bind_Some in Hs as (act & _ & Hs). simplify_eq.
  unfold operator_ok. cbn [op_name]. rewrite set_string_zeros by done. split; [|apply terminated_zeros; lia].
  rewrite length_app. unfold zeros. rewrite length_replicate. lia.
Qed.
