(* ===== verification/ModemManager.v ===== *)
(** * The modem manager (components/modem_manager/modem_manager.c,
      components/modem_manager/modem_recovery_policy.c)

    One task owns the state of the modem: it brings the AT profile up, polls
    the SIM, the registration and the signal, takes URCs, and recovers a modem
    that no longer answers.

    The code is a state monad over [manager].  The platform is a
    [manager_environment]: the AT engine, the power switch and the clock, whose
    answers may depend on everything that happened before; [m_trace] records
    it, the newest effect first.  The constants of Kconfig are a
    [manager_config]. *)

From Stdlib Require Import Ascii String.
From Stdlib Require Import ZifyBool ZifyNat.
From stdpp Require Import base numbers list strings.
From S2P Require Import Prelude.
From S2P Require Import StateMonad.
From S2P Require Import AtEngine.
From S2P Require Import ModemStatus.

Open Scope Z_scope.

Definition MODEM_IDENTITY_MAX : nat := 64.
Definition MODEM_IMEI_MAX : nat := 24.
Definition MODEM_MANAGER_QUEUE_DEPTH : nat := 16.
Definition MODEM_MANAGER_URC_MAX : nat := AT_ENGINE_MAX_URC_LENGTH.
Definition MODEM_MANAGER_PIN_MAX : nat := 8.
Definition MODEM_MANAGER_DEFAULT_TIMEOUT_MS : Z := 3000.
Definition MODEM_MANAGER_OPERATOR_TIMEOUT_MS : Z := 10000.

(** ** The recovery policy *)

Inductive modem_recovery_action_t :=
  | MODEM_RECOVERY_NONE
  | MODEM_RECOVERY_REINITIALIZE
  | MODEM_RECOVERY_FUNCTIONAL_RESET
  | MODEM_RECOVERY_HARD_RESET.

#[export] Instance recovery_action_eq_dec : EqDecision modem_recovery_action_t.
Proof. solve_decision. Defined.

(** The action, and [*rounds_since_hard_reset]. *)
Definition modem_recovery_policy_next (consecutive_failures failure_threshold hard_reset_after_rounds : Z)
    (rounds_since_hard_reset : option Z) : modem_recovery_action_t * option Z :=
  match rounds_since_hard_reset with
  | None => (MODEM_RECOVERY_NONE, None)
  | Some rounds =>
      if (failure_threshold =? 0) || (hard_reset_after_rounds =? 0) || (consecutive_failures <? failure_threshold)
      then (MODEM_RECOVERY_NONE, Some rounds)
      else
        let rounds := u32 (rounds + 1) in
        if rounds =? 1 then (MODEM_RECOVERY_REINITIALIZE, Some rounds)
        else if rounds <=? hard_reset_after_rounds then (MODEM_RECOVERY_FUNCTIONAL_RESET, Some rounds)
        else (MODEM_RECOVERY_HARD_RESET, Some 0)
  end.

(** ** The state *)

Inductive modem_manager_state_t :=
  | MODEM_MANAGER_STOPPED
  | MODEM_MANAGER_WAIT_TRANSPORT
  | MODEM_MANAGER_INITIALIZING
  | MODEM_MANAGER_SIM_WAIT
  | MODEM_MANAGER_NETWORK_WAIT
  | MODEM_MANAGER_READY
  | MODEM_MANAGER_DEGRADED
  | MODEM_MANAGER_RECOVERY.

#[export] Instance manager_state_eq_dec : EqDecision modem_manager_state_t.
Proof. solve_decision. Defined.

Record modem_manager_snapshot_t := mk_snapshot {
  sn_state : modem_manager_state_t;
  sn_transport_ready : bool;
  sn_initialized : bool;
  sn_sim : modem_sim_state_t;
  sn_circuit_registration : modem_registration_t;
  sn_packet_registration : modem_registration_t;
  sn_eps_registration : modem_registration_t;
  sn_registered : bool;
  sn_roaming : bool;
  sn_signal : modem_signal_t;
  sn_operator_info : modem_operator_t;
  sn_manufacturer : list Z;
  sn_model : list Z;
  sn_revision : list Z;
  sn_imei : list Z;
  sn_initialization_attempts : Z;
  sn_status_polls : Z;
  sn_consecutive_failures : Z;
  sn_recovery_attempts : Z;
  sn_hard_resets : Z;
  sn_urcs_processed : Z;
  sn_urcs_dropped : Z;
  sn_last_recovery_action : modem_recovery_action_t;
  sn_last_at_result : at_result_t;
  sn_last_modem_error_code : Z;
  sn_last_at_success_ms : Z;
  sn_last_status_update_ms : Z;
  sn_last_error : esp_err_t;
}.

#[export] Instance eta_snapshot : Eta modem_manager_snapshot_t := fun s =>
  mk_snapshot (sn_state s) (sn_transport_ready s) (sn_initialized s) (sn_sim s) (sn_circuit_registration s)
    (sn_packet_registration s) (sn_eps_registration s) (sn_registered s) (sn_roaming s) (sn_signal s)
    (sn_operator_info s) (sn_manufacturer s) (sn_model s) (sn_revision s) (sn_imei s)
    (sn_initialization_attempts s) (sn_status_polls s) (sn_consecutive_failures s) (sn_recovery_attempts s)
    (sn_hard_resets s) (sn_urcs_processed s) (sn_urcs_dropped s) (sn_last_recovery_action s)
    (sn_last_at_result s) (sn_last_modem_error_code s) (sn_last_at_success_ms s) (sn_last_status_update_ms s)
    (sn_last_error s).

(** [manager_event_t]: only a URC and a PIN carry data. *)
Inductive manager_event_t :=
  | MANAGER_EVENT_TRANSPORT_READY
  | MANAGER_EVENT_TRANSPORT_LOST
  | MANAGER_EVENT_URC (urc : list Z)
  | MANAGER_EVENT_SIM_PIN (pin : list Z)
  | MANAGER_EVENT_MANUAL_RESTART.

#[export] Instance manager_event_eq_dec : EqDecision manager_event_t.
Proof. solve_decision. Defined.

Inductive manager_effect :=
  | ME_now (now : Z)
  | ME_request (request : at_request_t) (err : esp_err_t) (response : at_response_t)
  | ME_hard_reset (err : esp_err_t)
  | ME_snapshot (snapshot : modem_manager_snapshot_t).

(** [m_hard_reset], [m_event_cb]: the callbacks are not NULL. *)
Record manager := mk_manager {
  m_initialized : bool;
  m_hard_reset : bool;
  m_event_cb : bool;
  m_queue : option (list manager_event_t);
  m_snapshot : modem_manager_snapshot_t;
  m_recoveries_since_hard_reset : Z;
  m_successful_poll_cycles : Z;
  m_reinitialize_pending : bool;
  m_next_poll_ms : Z;
  m_next_operator_poll_ms : Z;
  m_trace : list manager_effect;
}.

#[export] Instance eta_manager : Eta manager := fun m =>
  mk_manager (m_initialized m) (m_hard_reset m) (m_event_cb m) (m_queue m) (m_snapshot m)
    (m_recoveries_since_hard_reset m) (m_successful_poll_cycles m) (m_reinitialize_pending m) (m_next_poll_ms m)
    (m_next_operator_poll_ms m) (m_trace m).

Record manager_environment := mk_manager_environment {
  menv_execute : list manager_effect -> at_request_t -> esp_err_t * at_response_t;
  menv_hard_reset : list manager_effect -> esp_err_t;
  menv_time : list manager_effect -> Z;
  menv_ms_to_ticks : Z -> Z;
}.

(** The CONFIG_GATEWAY_MODEM values of Kconfig. *)
Record manager_config := mk_manager_config {
  POLL_READY_MS : Z;
  POLL_WAIT_MS : Z;
  FAILURES_BEFORE_RECOVERY : Z;
  HARD_RESET_AFTER_RECOVERIES : Z;
  RECOVERY_BACKOFF_MS : Z;
}.

(** The ranges that Kconfig allows, and its defaults. *)
Definition config_ok (c : manager_config) : Prop :=
  5000 <= POLL_READY_MS c <= 300000 /\ 1000 <= POLL_WAIT_MS c <= 60000 /\
  2 <= FAILURES_BEFORE_RECOVERY c <= 10 /\ 1 <= HARD_RESET_AFTER_RECOVERIES c <= 10 /\
  1000 <= RECOVERY_BACKOFF_MS c <= 60000.

Definition default_config : manager_config := mk_manager_config 30000 5000 3 2 5000.

(** ** The monad *)

Abbreviation M := (State manager).

Definition on_snapshot (f : modem_manager_snapshot_t -> modem_manager_snapshot_t) : M unit :=
  modify (fun m => m <| m_snapshot := f (m_snapshot m) |>).
Definition effect_log (e : manager_effect) : M unit := modify (fun m => m <| m_trace := e :: m_trace m |>).

Section Manager.

Variable env : manager_environment.
Variable cfg : manager_config.

(** ** The snapshot *)

Definition now_ms : M Z := fun m =>
  let now := menv_time env (m_trace m) in (m <| m_trace := ME_now now :: m_trace m |>, now).

Definition snapshot_copy : M modem_manager_snapshot_t := gets m_snapshot.

Definition emit_snapshot : M unit :=
  cb ← gets m_event_cb;
  when cb (s ← snapshot_copy; effect_log (ME_snapshot s)).

Definition snapshot_set_state (state : modem_manager_state_t) : M unit :=
  s ← snapshot_copy;
  when (bool_decide (sn_state s <> state))
    (on_snapshot (fun s => s <| sn_state := state |>);; emit_snapshot).

Definition snapshot_record_success (response : at_response_t) : M unit :=
  timestamp ← now_ms;
  on_snapshot (fun s => s <| sn_consecutive_failures := 0 |> <| sn_last_at_success_ms := timestamp |>
                          <| sn_last_error := ESP_OK |> <| sn_last_at_result := AT_RESULT_OK |>
                          <| sn_last_modem_error_code := resp_error_code response |>).

Definition snapshot_record_failure (error : esp_err_t) (result : at_result_t) (modem_error_code : Z) : M unit :=
  on_snapshot (fun s => s <| sn_consecutive_failures := u32 (sn_consecutive_failures s + 1) |>
                          <| sn_last_error := error |> <| sn_last_at_result := result |>
                          <| sn_last_modem_error_code := modem_error_code |>).

(** What the loop writes in front of the terminator. *)
Fixpoint copy_identity_loop (target_size : nat) (value out : list Z) : list Z :=
  match value with
  | [] => out
  | c :: value' =>
      if negb (length out + 1 <? target_size)%nat then out
      else copy_identity_loop target_size value' (if (0x20 <=? c) && (c <=? 0x7e) then out ++ [c] else out)
  end.

Definition copy_identity (target : list Z) (value : option (list Z)) : list Z :=
  match value with
  | None => target
  | Some value =>
      if (length target =? 0)%nat then target
      else set_string target (copy_identity_loop (length target) (c_str value) [])
  end.

(** ** Commands *)

Definition manager_request (command0 : list Z) (prefixes : list (list Z)) (timeout : Z) : at_request_t :=
  mk_request (Some command0) (match prefixes with [] => None | _ => Some (List.map Some prefixes) end)
    (length prefixes) (if timeout =? 0 then MODEM_MANAGER_DEFAULT_TIMEOUT_MS else timeout) 2 150
    (Z.lor AT_RETRY_ON_TIMEOUT AT_RETRY_ON_TRANSPORT_ERROR) false None 0.

(** [s_manager.transport.execute] *)
Definition transport_execute (request : at_request_t) : M (esp_err_t * at_response_t) := fun m =>
  let '(err, response) := menv_execute env (m_trace m) request in
  (m <| m_trace := ME_request request err response :: m_trace m |>, (err, response)).

(** The response, or [None] for [false]: no caller reads it then. *)
Definition execute_command (command0 : list Z) (prefixes : list (list Z)) (timeout : Z)
  : M (option at_response_t) :=
  '(err, response) ← transport_execute (manager_request command0 prefixes timeout);
  if bool_decide (err <> ESP_OK) then
    snapshot_record_failure err AT_RESULT_TRANSPORT_ERROR (-1);; mret None
  else if bool_decide (resp_result response <> AT_RESULT_OK) then
    let mapped := if bool_decide (resp_result response = AT_RESULT_TRANSPORT_UNAVAILABLE)
                     || bool_decide (resp_result response = AT_RESULT_TRANSPORT_ERROR)
                  then ESP_ERR_INVALID_STATE else ESP_FAIL in
    snapshot_record_failure mapped (resp_result response) (resp_error_code response);; mret None
  else snapshot_record_success response;; mret (Some response).

Definition execute_optional (command0 : list Z) (prefixes : list (list Z)) (timeout : Z)
  : M (option at_response_t) :=
  before ← snapshot_copy;
  r ← execute_command command0 prefixes timeout;
  when (bool_decide (r = None))
    (on_snapshot (fun s => s <| sn_consecutive_failures := sn_consecutive_failures before |>
                             <| sn_last_error := sn_last_error before |>
                             <| sn_last_at_result := sn_last_at_result before |>
                             <| sn_last_modem_error_code := sn_last_modem_error_code before |>));;
  mret r.

(** The loops over the lines of a response: the first line that parses. *)
Definition first_line {A} (parse : option (list Z) -> option A) (response : at_response_t) : option A :=
  head (omap (fun i => parse (at_response_line (Some response) i)) (seq 0 (length (resp_line_offsets response)))).

Definition status_updated (f : modem_manager_snapshot_t -> modem_manager_snapshot_t) : M unit :=
  on_snapshot f;;
  now ← now_ms;
  on_snapshot (fun s => s <| sn_last_status_update_ms := now |>).

Definition response_parse {A} (parse : option (list Z) -> option A)
    (store : A -> modem_manager_snapshot_t -> modem_manager_snapshot_t) (response : at_response_t) : M bool :=
  match first_line parse response with
  | Some x => status_updated (store x);; mret true
  | None => mret false
  end.

Definition set_sim (sim : modem_sim_state_t) (s : modem_manager_snapshot_t) : modem_manager_snapshot_t :=
  s <| sn_sim := sim |>.
Definition set_signal (signal : modem_signal_t) (s : modem_manager_snapshot_t) : modem_manager_snapshot_t :=
  s <| sn_signal := signal |>.
Definition set_operator (op : modem_operator_t) (s : modem_manager_snapshot_t) : modem_manager_snapshot_t :=
  s <| sn_operator_info := op |>.

(** The fields that a [modem_registration_t] pointer is taken of. *)
Inductive registration_field := CIRCUIT | PACKET | EPS.

Definition set_registration (field : registration_field) (r : modem_registration_t) (s : modem_manager_snapshot_t)
  : modem_manager_snapshot_t :=
  match field with
  | CIRCUIT => s <| sn_circuit_registration := r |>
  | PACKET => s <| sn_packet_registration := r |>
  | EPS => s <| sn_eps_registration := r |>
  end.

Definition response_parse_sim : at_response_t -> M bool := response_parse modem_status_parse_cpin set_sim.
Definition response_parse_signal : at_response_t -> M bool := response_parse modem_status_parse_csq set_signal.
Definition response_parse_registration (response : at_response_t) (prefix : list Z) (target : registration_field)
  : M bool :=
  response_parse (fun line => modem_status_parse_registration line (Some prefix)) (set_registration target) response.
Definition response_parse_operator : at_response_t -> M bool :=
  response_parse modem_status_parse_operator set_operator.

(** [registered] and [roaming] after the loop over the three statuses. *)
Definition registration_of (statuses : list modem_registration_status_t) : bool * bool :=
  match List.find modem_registration_is_registered statuses with
  | Some status => (true, modem_registration_is_roaming status)
  | None => (false, false)
  end.

Definition statuses (s : modem_manager_snapshot_t) : list modem_registration_status_t :=
  [reg_status (sn_eps_registration s); reg_status (sn_packet_registration s);
   reg_status (sn_circuit_registration s)].

Definition recompute_registration : M unit :=
  s ← snapshot_copy;
  let '(registered, roaming) := registration_of (statuses s) in
  on_snapshot (fun s => s <| sn_registered := registered |> <| sn_roaming := roaming |>).

(** [execute(...) && parse(&response)] *)
Definition and_parse (r : option at_response_t) (parse : at_response_t -> M bool) : M bool :=
  match r with Some response => parse response | None => mret false end.

Definition query_sim : M bool :=
  r ← execute_command (str "AT+CPIN?") [str "+CPIN:"] 3000; and_parse r response_parse_sim.

Definition query_signal : M bool :=
  r ← execute_command (str "AT+CSQ") [str "+CSQ:"] 3000; and_parse r response_parse_signal.

Definition query_registration_one (command0 prefix : list Z) (target : registration_field) (optional : bool)
  : M bool :=
  r ← (if optional then execute_optional command0 [prefix] 3000 else execute_command command0 [prefix] 3000);
  and_parse r (fun response => response_parse_registration response prefix target).

Definition query_registration : M bool :=
  circuit ← query_registration_one (str "AT+CREG?") (str "+CREG:") CIRCUIT false;
  packet ← query_registration_one (str "AT+CGREG?") (str "+CGREG:") PACKET true;
  eps ← query_registration_one (str "AT+CEREG?") (str "+CEREG:") EPS true;
  recompute_registration;;
  mret (circuit || packet || eps).

Definition query_operator : M bool :=
  r ← execute_optional (str "AT+COPS?") [str "+COPS:"] MODEM_MANAGER_OPERATOR_TIMEOUT_MS;
  and_parse r response_parse_operator.

Definition configure_registration_urc (extended basic : list Z) : M unit :=
  r ← execute_optional extended [] 3000;
  when (bool_decide (r = None)) (execute_optional basic [] 3000;; mret tt).

(** The identity arrays that a pointer is taken of. *)
Inductive identity_field := MANUFACTURER | MODEL | REVISION | IMEI.

Definition copy_identity_to (field : identity_field) (value : list Z) (s : modem_manager_snapshot_t)
  : modem_manager_snapshot_t :=
  match field with
  | MANUFACTURER => s <| sn_manufacturer := copy_identity (sn_manufacturer s) (Some value) |>
  | MODEL => s <| sn_model := copy_identity (sn_model s) (Some value) |>
  | REVISION => s <| sn_revision := copy_identity (sn_revision s) (Some value) |>
  | IMEI => s <| sn_imei := copy_identity (sn_imei s) (Some value) |>
  end.

Definition nonempty_line (line : option (list Z)) : option (list Z) :=
  match line with Some l => if l.[0] =? 0 then None else Some l | None => None end.

Definition query_identity (command0 : list Z) (target : identity_field) : M unit :=
  r ← execute_optional command0 [] 3000;
  match r with
  | None => mret tt
  | Some response =>
      match first_line nonempty_line response with
      | Some line => on_snapshot (copy_identity_to target line)
      | None => mret tt
      end
  end.

(** ** The session *)

(** [next_poll_ms = now_ms() + delay] *)
Definition poll_in (delay : Z) : M unit :=
  now ← now_ms; modify (fun m => m <| m_next_poll_ms := now + delay |>).

Definition operator_poll_in (delay : Z) : M unit :=
  now ← now_ms; modify (fun m => m <| m_next_operator_poll_ms := now + delay |>).

Definition set_pending (pending : bool) : M unit := modify (fun m => m <| m_reinitialize_pending := pending |>).

Definition poll_delay (registered : bool) : Z := if registered then POLL_READY_MS cfg else POLL_WAIT_MS cfg.

(** The queries in front of the SIM's. *)
Definition session_profile : M unit :=
  execute_optional (str "AT^CURC=0") [] 3000;;
  execute_optional (str "AT^PORTSEL=1") [] 3000;;
  query_identity (str "AT+CGMI") MANUFACTURER;;
  query_identity (str "AT+CGMM") MODEL;;
  query_identity (str "AT+CGMR") REVISION;;
  query_identity (str "AT+CGSN") IMEI.

(** What follows when the SIM has answered. *)
Definition session_finish : M unit :=
  configure_registration_urc (str "AT+CREG=2") (str "AT+CREG=1");;
  configure_registration_urc (str "AT+CGREG=2") (str "AT+CGREG=1");;
  configure_registration_urc (str "AT+CEREG=2") (str "AT+CEREG=1");;
  s ← snapshot_copy;
  let sim := sn_sim s in
  on_snapshot (fun s => s <| sn_initialized := true |>);;
  if bool_decide (sim <> MODEM_SIM_READY) then
    snapshot_set_state MODEM_MANAGER_SIM_WAIT;;
    poll_in (POLL_WAIT_MS cfg);;
    emit_snapshot
  else
    query_registration;;
    query_signal;;
    query_operator;;
    operator_poll_in 300000;;
    recompute_registration;;
    snapshot ← snapshot_copy;
    snapshot_set_state (if sn_registered snapshot then MODEM_MANAGER_READY else MODEM_MANAGER_NETWORK_WAIT);;
    poll_in (poll_delay (sn_registered snapshot));;
    emit_snapshot.

Definition initialize_session : M bool :=
  snapshot_set_state MODEM_MANAGER_INITIALIZING;;
  on_snapshot (fun s => s <| sn_initialization_attempts := u32 (sn_initialization_attempts s + 1) |>
                          <| sn_initialized := false |>);;
  echo ← execute_command (str "ATE0") [] 3000;
  if bool_decide (echo = None) then mret false
  else
    errors ← execute_command (str "AT+CMEE=2") [] 3000;
    if bool_decide (errors = None) then mret false
    else
      session_profile;;
      sim_ok ← query_sim;
      if negb sim_ok then mret false
      else session_finish;; mret true.

Definition update_state_after_poll : M unit :=
  snapshot ← snapshot_copy;
  if bool_decide (sn_sim snapshot <> MODEM_SIM_READY) then snapshot_set_state MODEM_MANAGER_SIM_WAIT
  else if sn_registered snapshot then snapshot_set_state MODEM_MANAGER_READY
  else snapshot_set_state MODEM_MANAGER_NETWORK_WAIT.

Definition poll_status : M bool :=
  on_snapshot (fun s => s <| sn_status_polls := u32 (sn_status_polls s + 1) |>);;
  s ← snapshot_copy;
  if bool_decide (sn_sim s <> MODEM_SIM_READY) then
    ok ← query_sim;
    when ok
      (snapshot ← snapshot_copy; when (bool_decide (sn_sim snapshot = MODEM_SIM_READY)) (set_pending true));;
    update_state_after_poll;;
    emit_snapshot;;
    mret ok
  else
    reg_ok ← query_registration;
    signal_ok ← query_signal;
    now ← now_ms;
    next_operator ← gets m_next_operator_poll_ms;
    when (next_operator <=? now) (query_operator;; operator_poll_in 300000);;
    update_state_after_poll;;
    emit_snapshot;;
    mret (reg_ok && signal_ok).

(** ** Events *)

(** The critical section of a URC. *)
Definition urc_processed (f : modem_manager_snapshot_t -> modem_manager_snapshot_t) : M unit :=
  status_updated f;;
  on_snapshot (fun s => s <| sn_urcs_processed := u32 (sn_urcs_processed s + 1) |>).

Definition urc_registration (field : registration_field) (registration : modem_registration_t) : M bool :=
  urc_processed (set_registration field registration);;
  modify (fun m => m <| m_next_operator_poll_ms := 0 |>);;
  poll_in 0;;
  mret true.

(** The if-chain: [changed]. *)
Definition urc_apply (line : list Z) : M bool :=
  match modem_status_parse_cpin (Some line) with
  | Some sim =>
      urc_processed (set_sim sim);;
      when (bool_decide (sim = MODEM_SIM_READY)) (set_pending true;; poll_in 0);;
      mret true
  | None =>
      match modem_status_parse_csq (Some line) with
      | Some signal => urc_processed (set_signal signal);; mret true
      | None =>
          match modem_status_parse_registration (Some line) (Some (str "+CREG:")) with
          | Some registration => urc_registration CIRCUIT registration
          | None =>
              match modem_status_parse_registration (Some line) (Some (str "+CGREG:")) with
              | Some registration => urc_registration PACKET registration
              | None =>
                  match modem_status_parse_registration (Some line) (Some (str "+CEREG:")) with
                  | Some registration => urc_registration EPS registration
                  | None => mret false
                  end
              end
          end
      end
  end.

Definition handle_urc_line (line : list Z) : M unit :=
  changed ← urc_apply line;
  when changed (recompute_registration;; update_state_after_poll;; emit_snapshot).

(** [transport.hard_reset], when there is one. *)
Definition transport_hard_reset : M esp_err_t := fun m =>
  if m_hard_reset m then
    let err := menv_hard_reset env (m_trace m) in (m <| m_trace := ME_hard_reset err :: m_trace m |>, err)
  else (m, ESP_ERR_NOT_SUPPORTED).

Definition functional_reset_sent : M (option at_response_t) := execute_optional (str "AT+CFUN=1,1") [] 5000.

(** What an action does. *)
Definition recover (action : modem_recovery_action_t) : M unit :=
  snapshot_set_state MODEM_MANAGER_RECOVERY;;
  on_snapshot (fun s => s <| sn_recovery_attempts := u32 (sn_recovery_attempts s + 1) |>
                          <| sn_last_recovery_action := action |>);;
  if bool_decide (action = MODEM_RECOVERY_REINITIALIZE) then
    set_pending true;;
    on_snapshot (fun s => s <| sn_consecutive_failures := 0 |>)
  else if bool_decide (action = MODEM_RECOVERY_FUNCTIONAL_RESET) then
    functional_reset_sent;;
    on_snapshot (fun s => s <| sn_initialized := false |> <| sn_consecutive_failures := 0 |>);;
    set_pending true;;
    poll_in (RECOVERY_BACKOFF_MS cfg)
  else
    hard_reset_err ← transport_hard_reset;
    on_snapshot (fun s =>
      let s := s <| sn_last_error := hard_reset_err |> in
      if bool_decide (hard_reset_err = ESP_OK) then
        s <| sn_hard_resets := u32 (sn_hard_resets s + 1) |> <| sn_initialized := false |>
          <| sn_transport_ready := false |> <| sn_consecutive_failures := 0 |>
      else s);;
    modify (fun m => m <| m_successful_poll_cycles := 0 |>);;
    set_pending false;;
    snapshot_set_state
      (if bool_decide (hard_reset_err = ESP_OK) then MODEM_MANAGER_WAIT_TRANSPORT else MODEM_MANAGER_DEGRADED).

Definition schedule_recovery : M unit :=
  snapshot ← snapshot_copy;
  rounds ← gets m_recoveries_since_hard_reset;
  let '(action, rounds') :=
    modem_recovery_policy_next (sn_consecutive_failures snapshot) (FAILURES_BEFORE_RECOVERY cfg)
      (HARD_RESET_AFTER_RECOVERIES cfg) (Some rounds) in
  modify (fun m => m <| m_recoveries_since_hard_reset := default rounds rounds' |>);;
  if bool_decide (action = MODEM_RECOVERY_NONE) then mret tt else recover action.

Definition handle_manual_restart : M unit :=
  snapshot ← snapshot_copy;
  if negb (sn_transport_ready snapshot) then mret tt
  else
    snapshot_set_state MODEM_MANAGER_RECOVERY;;
    on_snapshot (fun s => s <| sn_recovery_attempts := u32 (sn_recovery_attempts s + 1) |>);;
    err ← transport_hard_reset;
    if bool_decide (err = ESP_OK) then
      on_snapshot (fun s => s <| sn_hard_resets := u32 (sn_hard_resets s + 1) |>
                              <| sn_last_recovery_action := MODEM_RECOVERY_HARD_RESET |>
                              <| sn_transport_ready := false |> <| sn_initialized := false |>);;
      snapshot_set_state MODEM_MANAGER_WAIT_TRANSPORT
    else
      reset_ok ← functional_reset_sent;
      on_snapshot (fun s => s <| sn_last_recovery_action := MODEM_RECOVERY_FUNCTIONAL_RESET |>
                              <| sn_initialized := false |> <| sn_consecutive_failures := 0 |>);;
      set_pending true;;
      poll_in (RECOVERY_BACKOFF_MS cfg);;
      when (bool_decide (reset_ok = None)) (snapshot_set_state MODEM_MANAGER_DEGRADED).

(** ["AT+CPIN=\"%s\""] *)
Definition pin_command (pin : list Z) : list Z := str "AT+CPIN=" ++ [34] ++ c_str pin ++ [34].

Definition handle_sim_pin (pin : list Z) : M unit :=
  snapshot ← snapshot_copy;
  if negb (sn_transport_ready snapshot) || bool_decide (sn_sim snapshot <> MODEM_SIM_PIN_REQUIRED) then mret tt
  else if (32 <=? length (pin_command pin))%nat then mret tt
  else
    ok ← execute_optional (pin_command pin) [] 10000;
    when (bool_decide (ok <> None)) (set_pending true;; poll_in 1000).

Definition handle_transport_ready : M unit :=
  on_snapshot (fun s => s <| sn_transport_ready := true |> <| sn_initialized := false |>
                          <| sn_last_error := ESP_OK |> <| sn_consecutive_failures := 0 |>);;
  set_pending true;;
  poll_in 0;;
  snapshot_set_state MODEM_MANAGER_INITIALIZING.

Definition set_reg_status (status : modem_registration_status_t) (r : modem_registration_t) : modem_registration_t :=
  mk_registration status (reg_access_technology r).

Definition handle_transport_lost : M unit :=
  on_snapshot (fun s =>
    s <| sn_transport_ready := false |> <| sn_initialized := false |> <| sn_registered := false |>
      <| sn_roaming := false |> <| sn_sim := MODEM_SIM_UNKNOWN |>
      <| sn_circuit_registration := set_reg_status MODEM_REG_UNKNOWN (sn_circuit_registration s) |>
      <| sn_packet_registration := set_reg_status MODEM_REG_UNKNOWN (sn_packet_registration s) |>
      <| sn_eps_registration := set_reg_status MODEM_REG_UNKNOWN (sn_eps_registration s) |>);;
  set_pending false;;
  snapshot_set_state MODEM_MANAGER_WAIT_TRANSPORT;;
  emit_snapshot.

(** ** The task *)

(** The ticks to wait for an event, [None] for [portMAX_DELAY]. *)
Definition next_wait_ticks : M (option Z) :=
  snapshot ← snapshot_copy;
  if negb (sn_transport_ready snapshot) then mret None
  else
    next ← gets m_next_poll_ms;
    now ← now_ms;
    let remaining := next - now in
    mret (Some (if remaining <=? 0 then 0 else menv_ms_to_ticks env (u32 remaining))).

(** [xQueueReceive]: the first event, or [None] after the wait. *)
Definition receive : M (option manager_event_t) := fun m =>
  match m_queue m with
  | Some (e :: q) => (m <| m_queue := Some q |>, Some e)
  | _ => (m, None)
  end.

Definition handle_event (event : manager_event_t) : M unit :=
  match event with
  | MANAGER_EVENT_TRANSPORT_READY => handle_transport_ready
  | MANAGER_EVENT_TRANSPORT_LOST => handle_transport_lost
  | MANAGER_EVENT_URC urc => handle_urc_line urc
  | MANAGER_EVENT_SIM_PIN pin => handle_sim_pin pin
  | MANAGER_EVENT_MANUAL_RESTART => handle_manual_restart
  end.

(** The last part of an iteration: a poll that is due. *)
Definition poll_due : M unit :=
  ok ← poll_status;
  snapshot ← snapshot_copy;
  (if negb ok then modify (fun m => m <| m_successful_poll_cycles := 0 |>);; schedule_recovery
   else
     cycles ← gets m_successful_poll_cycles;
     let cycles := u32 (cycles + 1) in
     if 3 <=? cycles
     then modify (fun m => m <| m_recoveries_since_hard_reset := 0 |> <| m_successful_poll_cycles := 3 |>)
     else modify (fun m => m <| m_successful_poll_cycles := cycles |>));;
  poll_in (poll_delay (sn_registered snapshot)).

(** [reinitialize_pending && now_ms() >= next_poll_ms] *)
Definition session_due : M bool :=
  pending ← gets m_reinitialize_pending;
  if negb pending then mret false
  else now ← now_ms; next ← gets m_next_poll_ms; mret (next <=? now).

(** The iteration behind the event. *)
Definition manager_work : M unit :=
  snapshot ← snapshot_copy;
  if negb (sn_transport_ready snapshot) then mret tt
  else
    session ← session_due;
    if session : bool then
      set_pending false;;
      ok ← initialize_session;
      when (negb ok) (schedule_recovery;; poll_in (RECOVERY_BACKOFF_MS cfg))
    else
      now ← now_ms;
      next ← gets m_next_poll_ms;
      when (next <=? now) poll_due.

(** One iteration of [manager_task]. *)
Definition manager_turn : M unit :=
  next_wait_ticks;;
  event ← receive;
  (match event with Some event => handle_event event | None => mret tt end);;
  manager_work.

(** ** The operations of other tasks *)

Definition snapshot_zero : modem_manager_snapshot_t :=
  mk_snapshot MODEM_MANAGER_WAIT_TRANSPORT false false MODEM_SIM_UNKNOWN
    (mk_registration MODEM_REG_UNKNOWN (-1)) (mk_registration MODEM_REG_UNKNOWN (-1))
    (mk_registration MODEM_REG_UNKNOWN (-1)) false false (mk_signal 99 INT16_MIN 99)
    (mk_operator (-1) (-1) (zeros MODEM_OPERATOR_NAME_MAX) (-1))
    (zeros MODEM_IDENTITY_MAX) (zeros MODEM_IDENTITY_MAX) (zeros MODEM_IDENTITY_MAX) (zeros MODEM_IMEI_MAX)
    0 0 0 0 0 0 0 MODEM_RECOVERY_NONE AT_RESULT_TRANSPORT_UNAVAILABLE (-1) 0 0 ESP_OK.

(** [transport]: whether its two callbacks are not NULL. *)
Definition modem_manager_init (transport : option (bool * bool)) (event_cb queue_created task_created : bool)
  : M esp_err_t := fun m =>
  match transport with
  | Some (true, hard_reset) =>
      if m_initialized m then (m, ESP_ERR_INVALID_STATE)
      else
        let m := mk_manager false hard_reset event_cb None snapshot_zero 0 0 false 0 0 (m_trace m) in
        if negb queue_created then (m, ESP_ERR_NO_MEM)
        else if negb task_created then (m, ESP_ERR_NO_MEM)
        else (m <| m_queue := Some [] |> <| m_initialized := true |>, ESP_OK)
  | _ => (m, ESP_ERR_INVALID_ARG)
  end.

(** [xQueueSend], [xQueueSendToFront]: whether there was room. *)
Definition queue_send (front : bool) (event : manager_event_t) : M bool := fun m =>
  match m_queue m with
  | Some q =>
      if (length q <? MODEM_MANAGER_QUEUE_DEPTH)%nat
      then (m <| m_queue := Some (if front then event :: q else q ++ [event]) |>, true)
      else (m, false)
  | None => (m, false)
  end.

Definition queue_reset : M unit := modify (fun m => m <| m_queue := match m_queue m with Some _ => Some [] | None => None end |>).

(** [!s_manager.initialized || s_manager.queue == NULL] *)
Definition not_running : M bool := gets (fun m => negb (m_initialized m) || bool_decide (m_queue m = None)).

Definition queue_simple_event (id : manager_event_t) : M unit :=
  off ← not_running;
  if off : bool then mret tt
  else
    let lost := bool_decide (id = MANAGER_EVENT_TRANSPORT_LOST) in
    queued ← queue_send lost id;
    when (negb queued && lost) (queue_reset;; queue_send true id;; mret tt).

Definition modem_manager_notify_transport_ready : M unit := queue_simple_event MANAGER_EVENT_TRANSPORT_READY.
Definition modem_manager_notify_transport_lost : M unit := queue_simple_event MANAGER_EVENT_TRANSPORT_LOST.

Definition urc_dropped : M unit := on_snapshot (fun s => s <| sn_urcs_dropped := u32 (sn_urcs_dropped s + 1) |>).

Definition modem_manager_handle_urc (line : option (list Z)) : M unit :=
  off ← not_running;
  match line with
  | None => mret tt
  | Some line =>
      if off : bool then mret tt
      else if (MODEM_MANAGER_URC_MAX <=? strlen line)%nat then urc_dropped
      else
        queued ← queue_send false (MANAGER_EVENT_URC (c_str line));
        when (negb queued) urc_dropped
  end.

Definition modem_manager_get_snapshot (out : bool) : M (esp_err_t + modem_manager_snapshot_t) :=
  if negb out then mret (inl ESP_ERR_INVALID_ARG)
  else
    initialized ← gets m_initialized;
    if negb initialized then mret (inl ESP_ERR_INVALID_STATE) else s ← snapshot_copy; mret (inr s).

Definition modem_manager_request_restart : M esp_err_t :=
  off ← not_running;
  if off : bool then mret ESP_ERR_INVALID_STATE
  else queued ← queue_send false MANAGER_EVENT_MANUAL_RESTART; mret (if queued : bool then ESP_OK else ESP_ERR_NO_MEM).

(** The loop over the PIN: its length, or [None] for a character that is not a
    digit. *)
Fixpoint pin_loop (pin : list Z) (length : nat) : option nat :=
  match pin with
  | [] => Some length
  | c :: pin' =>
      if (length <=? MODEM_MANAGER_PIN_MAX)%nat
      then if (c <? 48) || (57 <? c) then None else pin_loop pin' (S length)
      else Some length
  end.

Definition pin_length_ok (pin : list Z) (length : nat) : bool :=
  negb ((length <? 4)%nat || (MODEM_MANAGER_PIN_MAX <? length)%nat || negb (pin.[length] =? 0)).

Definition modem_manager_submit_sim_pin (pin : option (list Z)) : M esp_err_t :=
  off ← not_running;
  match pin with
  | None => mret ESP_ERR_INVALID_STATE
  | Some pin =>
      if off : bool then mret ESP_ERR_INVALID_STATE
      else
        match pin_loop (c_str pin) 0 with
        | None => mret ESP_ERR_INVALID_ARG
        | Some length =>
            if negb (pin_length_ok (c_str pin) length) then mret ESP_ERR_INVALID_ARG
            else
              queued ← queue_send false (MANAGER_EVENT_SIM_PIN (c_str pin));
              mret (if queued : bool then ESP_OK else ESP_ERR_NO_MEM)
        end
  end.

End Manager.

Definition modem_manager_state_name (state : modem_manager_state_t) : list Z :=
  match state with
  | MODEM_MANAGER_STOPPED => str "stopped"
  | MODEM_MANAGER_WAIT_TRANSPORT => str "wait_transport"
  | MODEM_MANAGER_INITIALIZING => str "initializing"
  | MODEM_MANAGER_SIM_WAIT => str "sim_wait"
  | MODEM_MANAGER_NETWORK_WAIT => str "network_wait"
  | MODEM_MANAGER_READY => str "ready"
  | MODEM_MANAGER_DEGRADED => str "degraded"
  | MODEM_MANAGER_RECOVERY => str "recovery"
  end.
