(* ===== verification/ModemManagerFacts.v ===== *)
(** * The modem manager: what its tasks keep

    A small program logic for the state monad ([triple], [keeps]), the
    invariant of the manager, and the properties of the session, of the PIN
    and of the events. *)

From Stdlib Require Import Ascii String.
From Stdlib Require Import ZifyBool ZifyNat.
From stdpp Require Import base numbers list strings.
From S2P Require Import Prelude.
From S2P Require Import StateMonad.
From S2P Require Import AtEngine.
From S2P Require Import ModemStatus.
From S2P Require Import ModemManager.

Open Scope Z_scope.

(** ** Triples *)

Lemma triple_on_snapshot (P : manager -> Prop) f (Q : unit -> manager -> Prop) :
  (forall m, P m -> Q tt (m <| m_snapshot := f (m_snapshot m) |>)) -> triple P (on_snapshot f) Q.
Proof. intros H m Hm. exact (H m Hm). Qed.

Lemma triple_snapshot (P : manager -> Prop) : triple P snapshot_copy (fun s m => s = m_snapshot m /\ P m).
Proof. intros m Hm. done. Qed.

Lemma keeps_snapshot P : keeps P snapshot_copy.
Proof. by intros m Hm. Qed.

#[export] Hint Resolve keeps_snapshot : state.

(** The whole code, operation by operation, down to the assignments. *)
Ltac keeps_assign :=
  match goal with
  | |- triple _ (on_snapshot _) _ => apply triple_on_snapshot; intros ? ?
  | |- triple _ (modify _) _ => apply triple_modify; intros ? ?
  | |- triple _ receive _ => intros ? ?; unfold receive; repeat case_match; cbn [fst]
  end; try solve
    [assumption|match goal with |- context [bool_decide ?X] => destruct (bool_decide X); assumption end].

Ltac keeps_code :=
  repeat first [ solve [eauto with state nocore] | keeps_step | keeps_assign
               | match goal with |- triple _ ?c _ => let h := head_of c in unfold h end ].

(** ** Commands change little

    What a command may change without asking: the trace and the figures about
    the last command. *)

Definition quiet (m m' : manager) : Prop :=
  exists trace failures error result code success,
    m' = m <| m_trace := trace |>
           <| m_snapshot := (m_snapshot m) <| sn_consecutive_failures := failures |> <| sn_last_error := error |>
                <| sn_last_at_result := result |> <| sn_last_modem_error_code := code |>
                <| sn_last_at_success_ms := success |> |>.

Class Stable (P : manager -> Prop) : Prop := stable : forall m m', quiet m m' -> P m -> P m'.

(** By computation, when [P] looks at none of that. *)
Ltac solve_stable := intros ? ? (? & ? & ? & ? & ? & ? & ->); exact id.

#[export] Hint Extern 5 (Stable _) => solve_stable : typeclass_instances.
#[export] Hint Extern 1 (Stable _) => apply _ : state.

#[export] Instance stable_and P Q : Stable P -> Stable Q -> Stable (fun m => P m /\ Q m).
Proof. intros HP HQ m m' H [? ?]. split; eauto. Qed.

(** Unifies the fields of a change with those of [quiet]. *)
Ltac solve_quiet :=
  match goal with |- quiet ?m _ => destruct m as [? ? ? ? [] ? ? ? ? ? ?] end;
  do 6 eexists; cbn; reflexivity.

Lemma quiet_trace m trace : quiet m (m <| m_trace := trace |>).
Proof. solve_quiet. Qed.

Section Keeps.

Context (env : manager_environment) (cfg : manager_config).
Context (P : manager -> Prop) {HP : Stable P}.

Lemma keeps_now : keeps P (now_ms env).
Proof. intros m Hm. exact (HP _ _ (quiet_trace m _) Hm). Qed.

Lemma keeps_log e : keeps P (effect_log e).
Proof. intros m Hm. exact (HP _ _ (quiet_trace m _) Hm). Qed.

Lemma keeps_transport_execute r : keeps P (transport_execute env r).
Proof.
  intros m Hm. unfold transport_execute. destruct (menv_execute env _ _).
  exact (HP _ _ (quiet_trace m _) Hm).
Qed.

Lemma keeps_hard_reset : keeps P (transport_hard_reset env).
Proof. intros m Hm. unfold transport_hard_reset. case_match; [|done]. exact (HP _ _ (quiet_trace m _) Hm). Qed.

Lemma keeps_record_failure e r c : keeps P (snapshot_record_failure e r c).
Proof. intros m Hm. eapply HP; [|exact Hm]. solve_quiet. Qed.

Lemma keeps_record_success r : keeps P (snapshot_record_success env r).
Proof.
  intros m Hm. eapply HP; [|exact Hm]. solve_quiet.
Qed.

Hint Resolve keeps_now keeps_log keeps_transport_execute keeps_record_failure keeps_record_success : state.

Lemma keeps_emit : keeps P emit_snapshot.
Proof. unfold emit_snapshot. keeps_tac. Qed.

Lemma keeps_execute_command c p t : keeps P (execute_command env c p t).
Proof. unfold execute_command. keeps_tac. Qed.

Hint Resolve keeps_execute_command keeps_emit : state.

Lemma keeps_restore before :
  keeps P (on_snapshot (fun s => s <| sn_consecutive_failures := sn_consecutive_failures before |>
                             <| sn_last_error := sn_last_error before |>
                             <| sn_last_at_result := sn_last_at_result before |>
                             <| sn_last_modem_error_code := sn_last_modem_error_code before |>)).
Proof. intros m Hm. eapply HP; [|exact Hm]. solve_quiet. Qed.

Hint Resolve keeps_restore : state.

Lemma keeps_execute_optional c p t : keeps P (execute_optional env c p t).
Proof. unfold execute_optional. keeps_tac. Qed.

Hint Resolve keeps_execute_optional : state.

Lemma keeps_configure a b : keeps P (configure_registration_urc env a b).
Proof. unfold configure_registration_urc. keeps_tac. Qed.

End Keeps.

#[export] Hint Resolve keeps_now keeps_log keeps_transport_execute keeps_hard_reset keeps_record_failure
  keeps_record_success keeps_emit keeps_execute_command keeps_execute_optional keeps_configure : state.

(** An assignment to a field that [P] does not look at. *)
#[export] Hint Extern 4 (triple _ (on_snapshot _) _) =>
  (apply triple_on_snapshot; let H := fresh in intros ? H; exact H) : state.
#[export] Hint Extern 4 (triple _ (modify _) _) => (apply triple_modify; let H := fresh in intros ? H; exact H) : state.

Lemma triple_set_state P Q st `{!Stable Q} :
  (forall m, P m -> Q (m <| m_snapshot := (m_snapshot m) <| sn_state := st |> |>)) ->
  triple P (snapshot_set_state st) (fun _ => Q).
Proof.
  intros H m Hm.
  assert (snapshot_set_state st m
          = when (bool_decide (sn_state (m_snapshot m) <> st))
              (on_snapshot (fun s => s <| sn_state := st |>);; emit_snapshot) m) as -> by done.
  case_bool_decide as Hs; cbn [when].
  - refine (triple_bind P _ (fun _ => Q) _ (fun _ => Q) _ _ m Hm); [|intros _; apply keeps_emit, _].
    apply triple_on_snapshot. exact H.
  - specialize (H m Hm). rewrite <- Hs in H.
    assert (m <| m_snapshot := (m_snapshot m) <| sn_state := sn_state (m_snapshot m) |> |> = m) as E
      by (by destruct m as [? ? ? ? [] ? ? ? ? ? ?]).
    by rewrite E in H.
Qed.

Lemma keeps_set_state P st `{!Stable P} :
  (forall m, P m -> P (m <| m_snapshot := (m_snapshot m) <| sn_state := st |> |>)) -> keeps P (snapshot_set_state st).
Proof. apply triple_set_state, _. Qed.

#[export] Hint Extern 4 (triple _ (snapshot_set_state _) _) =>
  (apply keeps_set_state; [apply _|let H := fresh in intros ? H; first [exact H|exact I]]) : state.

(** ** The types of the snapshot *)

Definition text_ok (size : nat) (field : list Z) : Prop := length field = size /\ terminated field = true.

Definition types_ok (s : modem_manager_snapshot_t) : Prop :=
  signal_ok (sn_signal s) /\ operator_ok (sn_operator_info s) /\
  text_ok MODEM_IDENTITY_MAX (sn_manufacturer s) /\ text_ok MODEM_IDENTITY_MAX (sn_model s) /\
  text_ok MODEM_IDENTITY_MAX (sn_revision s) /\ text_ok MODEM_IMEI_MAX (sn_imei s).

Lemma copy_identity_loop_length size value out :
  (length out < size)%nat -> (length (copy_identity_loop size value out) < size)%nat.
Proof.
  revert out. induction value as [|c value IH]; intros out H; cbn [copy_identity_loop]; [done|].
  destruct (Nat.ltb_spec (length out + 1) size); cbn [negb]; [|done].
  apply IH. case_match; [rewrite length_app; cbn; lia|done].
Qed.

Lemma set_string_ok size field s : text_ok size field -> (length s < size)%nat -> text_ok size (set_string field s).
Proof.
  intros [Hl _] Hs. split; unfold set_string.
  - rewrite !length_app, length_drop. cbn. lia.
  - unfold terminated. rewrite !existsb_app. cbn. by rewrite orb_true_r.
Qed.

Lemma copy_identity_ok size field value : text_ok size field -> text_ok size (copy_identity field (Some value)).
Proof.
  intros H. unfold copy_identity. case_match; [done|]. apply set_string_ok; [done|].
  destruct H as [<- _]. apply copy_identity_loop_length. cbn; lia.
Qed.

Lemma copy_identity_to_ok field value s : types_ok s -> types_ok (copy_identity_to field value s).
Proof.
  intros (Hs & Ho & H1 & H2 & H3 & H4). destruct field;
    refine (conj _ (conj _ (conj _ (conj _ (conj _ _)))));
    first [exact Hs|exact Ho|exact H1|exact H2|exact H3|exact H4|by apply copy_identity_ok].
Qed.

Definition types_kept (m : manager) : Prop := types_ok (m_snapshot m).

#[export] Instance types_stable : Stable types_kept.
Proof. solve_stable. Qed.

Lemma first_line_parsed {A} (parse : option (list Z) -> option A) r x :
  first_line parse r = Some x -> exists line, parse line = Some x.
Proof.
  unfold first_line. generalize (seq 0 (length (resp_line_offsets r))). intros l.
  induction l as [|i l IH]; cbn; [done|]. destruct (parse _) as [y|] eqn:E; cbn; [|done].
  intros [= ->]. by eexists.
Qed.

Section Types.

Context (env : manager_environment) (cfg : manager_config).

Lemma types_set_signal m l s :
  modem_status_parse_csq l = Some s -> types_kept m ->
  types_kept (m <| m_snapshot := set_signal s (m_snapshot m) |>).
Proof. intros Hs (_ & H). split; [exact (parse_csq_ok _ _ Hs)|exact H]. Qed.

Lemma types_set_operator m l o :
  modem_status_parse_operator l = Some o -> types_kept m ->
  types_kept (m <| m_snapshot := set_operator o (m_snapshot m) |>).
Proof. intros Ho (Hs & _ & H). split; [exact Hs|split; [exact (parse_operator_ok _ _ Ho)|exact H]]. Qed.

(** One iteration of the task. *)
Lemma types_turn : keeps types_kept (manager_turn env cfg).
Proof.
  keeps_code; try (by apply copy_identity_to_ok);
    repeat match goal with H : first_line _ _ = Some _ |- _ => apply first_line_parsed in H as [? H] end;
    eauto using types_set_signal, types_set_operator.
Qed.

(** ** The registration

    [registered] and [roaming] follow from the three domains. *)

Definition registration_consistent (m : manager) : Prop :=
  (sn_registered (m_snapshot m), sn_roaming (m_snapshot m)) = registration_of (statuses (m_snapshot m)).

Lemma recompute_spec P : triple P recompute_registration (fun _ => registration_consistent).
Proof.
  intros m _. unfold recompute_registration, registration_consistent.
  assert (recompute_registration m
    = (let '(registered, roaming) := registration_of (statuses (m_snapshot m)) in
       on_snapshot (fun s => s <| sn_registered := registered |> <| sn_roaming := roaming |>)) m) as E by done.
  unfold recompute_registration in E. rewrite E. by destruct (registration_of _) as [registered roaming] eqn:E'.
Qed.

Lemma consistent_query_registration P :
  triple P (query_registration env) (fun _ => registration_consistent).
Proof.
  unfold query_registration. do 3 (apply (triple_bind _ _ (fun _ _ => True)); [done|intros ?]).
  apply (triple_bind _ _ (fun _ => registration_consistent)); [apply recompute_spec|intros _; apply keeps_ret].
Qed.

Lemma consistent_weaken {A} (c : M A) P :
  triple (fun _ => True) c (fun _ => registration_consistent) -> triple P c (fun _ => registration_consistent).
Proof. intros H. by eapply triple_weaken. Qed.

Hint Resolve recompute_spec consistent_query_registration : state.

(** A URC that changes something is followed by [recompute_registration]. *)
Lemma urc_apply_unchanged P line :
  triple P (urc_apply env line) (fun changed m => changed = false -> P m).
Proof.
  unfold urc_apply, urc_registration.
  repeat case_match; try by apply triple_ret.
  all: repeat (apply (triple_bind _ _ (fun _ _ => True)); [done|intros ?]); by apply triple_ret.
Qed.

Lemma consistent_handle_urc line : keeps registration_consistent (handle_urc_line env line).
Proof.
  unfold handle_urc_line. eapply triple_bind; [apply urc_apply_unchanged|]. intros [|]; cbn [when].
  - apply (triple_bind _ _ (fun _ => registration_consistent)); [apply recompute_spec|intros _]. keeps_code.
  - intros m Hm. by apply Hm.
Qed.

Hint Resolve consistent_handle_urc : state.

Lemma consistent_turn : keeps registration_consistent (manager_turn env cfg).
Proof. keeps_code. done. Qed.

(** ** The state

    After a turn the state agrees with what is known of SIM and network. *)

Definition state_agrees (m : manager) : Prop :=
  match sn_state (m_snapshot m) with
  | MODEM_MANAGER_READY => sn_sim (m_snapshot m) = MODEM_SIM_READY /\ sn_registered (m_snapshot m) = true
  | MODEM_MANAGER_NETWORK_WAIT => sn_sim (m_snapshot m) = MODEM_SIM_READY /\ sn_registered (m_snapshot m) = false
  | MODEM_MANAGER_SIM_WAIT => sn_sim (m_snapshot m) <> MODEM_SIM_READY
  | _ => True
  end.

(** No claim is made. *)
Definition calm (m : manager) : Prop :=
  match sn_state (m_snapshot m) with
  | MODEM_MANAGER_READY | MODEM_MANAGER_NETWORK_WAIT | MODEM_MANAGER_SIM_WAIT => False
  | _ => True
  end.

Lemma calm_agrees m : calm m -> state_agrees m.
Proof. unfold calm, state_agrees. by destruct (sn_state _). Qed.

Lemma calm_set_state P st :
  match st with
  | MODEM_MANAGER_READY | MODEM_MANAGER_NETWORK_WAIT | MODEM_MANAGER_SIM_WAIT => False
  | _ => True
  end -> triple P (snapshot_set_state st) (fun _ => calm).
Proof. intros H. apply triple_set_state; [apply _|]. intros m _. by destruct st. Qed.

Lemma calm_weaken {A} (c : M A) P : triple P c (fun _ => calm) -> triple P c (fun _ => state_agrees).
Proof. intros H m Hm. by apply calm_agrees, H. Qed.

(** [triple_bind] with [calm] in the middle. *)
Lemma calm_bind {A B} P (c : M A) (f : A -> M B) :
  triple P c (fun _ => calm) -> (forall x, keeps calm (f x)) -> triple P (c ≫= f) (fun _ => calm).
Proof. apply triple_bind. Qed.

Lemma agrees_update P : triple P (update_state_after_poll) (fun _ => state_agrees).
Proof.
  unfold update_state_after_poll. eapply triple_bind; [apply triple_snapshot|]. intros s.
  case_bool_decide as Hs; [|destruct (sn_registered s) eqn:Hr]; apply triple_set_state; try apply _.
  all: intros m [-> _]; unfold state_agrees; cbn; first [exact Hs|by split].
Qed.

Lemma agrees_handle_urc line : keeps state_agrees (handle_urc_line env line).
Proof.
  unfold handle_urc_line. eapply triple_bind; [apply urc_apply_unchanged|]. intros [|]; cbn [when].
  - apply (triple_bind _ _ (fun _ _ => True)); [done|intros _].
    apply (triple_bind _ _ (fun _ => state_agrees)); [apply agrees_update|intros _; apply keeps_emit, _].
  - intros m Hm. by apply Hm.
Qed.

Lemma agrees_poll_status P : triple P (poll_status env) (fun _ => state_agrees).
Proof.
  unfold poll_status. apply (triple_bind _ _ (fun _ _ => True)); [done|intros _].
  apply (triple_bind _ _ (fun _ _ => True)); [done|intros s]. case_bool_decide.
  - do 2 (apply (triple_bind _ _ (fun _ _ => True)); [done|intros ?]).
    apply (triple_bind _ _ (fun _ => state_agrees)); [apply agrees_update|intros _]. keeps_code.
  - do 5 (apply (triple_bind _ _ (fun _ _ => True)); [done|intros ?]).
    apply (triple_bind _ _ (fun _ => state_agrees)); [apply agrees_update|intros _]. keeps_code.
Qed.

Lemma agrees_recovery : keeps state_agrees (schedule_recovery env cfg).
Proof.
  unfold schedule_recovery. do 2 (apply keeps_bind; [keeps_code|intros ?]). destruct (modem_recovery_policy_next _ _ _ _).
  apply keeps_bind; [keeps_code|intros _]. case_bool_decide; [apply keeps_ret|]. unfold recover.
  apply calm_weaken, calm_bind; [by apply calm_set_state|intros _]. keeps_code.
  unfold calm. cbn. by destruct (bool_decide (_ = ESP_OK)).
Qed.

Lemma agrees_manual_restart : keeps state_agrees (handle_manual_restart env cfg).
Proof.
  unfold handle_manual_restart. apply keeps_bind; [keeps_code|intros ?]. case_match; [apply keeps_ret|].
  apply calm_weaken, calm_bind; [by apply calm_set_state|intros _]. keeps_code.
Qed.

Lemma agrees_transport_ready P : triple P (handle_transport_ready env) (fun _ => state_agrees).
Proof.
  unfold handle_transport_ready. do 3 (apply (triple_bind _ _ (fun _ _ => True)); [done|intros ?]).
  by apply calm_weaken, calm_set_state.
Qed.

Lemma agrees_transport_lost P : triple P handle_transport_lost (fun _ => state_agrees).
Proof.
  unfold handle_transport_lost. do 2 (apply (triple_bind _ _ (fun _ _ => True)); [done|intros ?]).
  apply calm_weaken, calm_bind; [by apply calm_set_state|intros _]. keeps_code.
Qed.

Definition sim_is (sim : modem_sim_state_t) (m : manager) : Prop := sn_sim (m_snapshot m) = sim.

(** The queries behind the SIM's leave it alone. *)
Lemma sim_queries sim :
  keeps (sim_is sim) (query_registration env) /\ keeps (sim_is sim) (query_signal env) /\
  keeps (sim_is sim) (query_operator env).
Proof. split_and!; keeps_code. Qed.

Lemma agrees_session_finish P : triple P (session_finish env cfg) (fun _ => state_agrees).
Proof.
  unfold session_finish. do 3 (apply (triple_bind _ _ (fun _ _ => True)); [done|intros _]).
  eapply triple_bind; [apply triple_snapshot|]. intros s. cbv zeta.
  apply (triple_bind _ _ (fun _ => sim_is (sn_sim s))).
  { apply triple_on_snapshot. by intros m [-> _]. }
  intros _. destruct (sim_queries (sn_sim s)) as (Hr & Hs & Ho). case_bool_decide as Hsim.
  - apply (triple_bind _ _ (fun _ => state_agrees)); [|intros _; keeps_code].
    apply triple_set_state; [apply _|]. intros m Hm. unfold state_agrees. cbn. by rewrite Hm.
  - apply (triple_bind _ _ (fun _ => sim_is (sn_sim s))); [exact Hr|intros _].
    apply (triple_bind _ _ (fun _ => sim_is (sn_sim s))); [exact Hs|intros _].
    apply (triple_bind _ _ (fun _ => sim_is (sn_sim s))); [exact Ho|intros _].
    do 2 (apply (triple_bind _ _ (fun _ => sim_is (sn_sim s))); [keeps_code|intros _]).
    eapply triple_bind; [apply triple_snapshot|]. intros s'. cbv zeta.
    apply (triple_bind _ _ (fun _ => state_agrees)); [|intros _; keeps_code].
    apply triple_set_state; [apply _|]. intros m [-> Hm]. unfold state_agrees. cbn.
    destruct (sn_registered (m_snapshot m)) eqn:E; (split; [by rewrite Hm|done]).
Qed.

Lemma agrees_session P : triple P (initialize_session env cfg) (fun _ => state_agrees).
Proof.
  unfold initialize_session. apply (triple_bind _ _ (fun _ => calm)); [by apply calm_set_state|intros _].
  apply (triple_bind _ _ (fun _ => calm)); [keeps_code|intros _].
  apply (triple_bind _ _ (fun _ => calm)); [keeps_code|intros echo].
  case_match; [apply triple_ret, calm_agrees|].
  apply (triple_bind _ _ (fun _ => calm)); [keeps_code|intros errors].
  case_match; [apply triple_ret, calm_agrees|].
  apply (triple_bind _ _ (fun _ => calm)); [unfold session_profile; keeps_code|intros _].
  apply (triple_bind _ _ (fun _ => calm)); [keeps_code|intros sim_ok].
  case_match; [apply triple_ret, calm_agrees|].
  apply (triple_bind _ _ (fun _ => state_agrees)); [apply agrees_session_finish|intros _; apply keeps_ret].
Qed.

Hint Resolve agrees_session agrees_poll_status agrees_recovery agrees_manual_restart agrees_handle_urc
  agrees_transport_ready agrees_transport_lost : state.

Lemma agrees_turn : keeps state_agrees (manager_turn env cfg).
Proof. keeps_code. Qed.

End Types.
