(* ===== verification/ModemManagerRun.v ===== *)
(** * The modem manager: every sequence of operations

    [manager_run] is any sequence of turns of the task and calls of other
    tasks.  What holds after each of them, and what becomes of a PIN. *)

From Stdlib Require Import Ascii String.
From Stdlib Require Import ZifyBool ZifyNat.
From stdpp Require Import base numbers list strings.
From S2P Require Import Prelude.
From S2P Require Import StateMonad.
From S2P Require Import AtEngine.
From S2P Require Import ModemStatus.
From S2P Require Import ModemManager.
From S2P Require Import ModemManagerFacts.

Open Scope Z_scope.

Inductive manager_op :=
  | OP_TURN
  | OP_TRANSPORT_READY
  | OP_TRANSPORT_LOST
  | OP_URC (line : option (list Z))
  | OP_RESTART
  | OP_PIN (pin : option (list Z)).

Section Run.

Context (env : manager_environment) (cfg : manager_config).

Definition manager_step (op : manager_op) : M unit :=
  match op with
  | OP_TURN => manager_turn env cfg
  | OP_TRANSPORT_READY => modem_manager_notify_transport_ready
  | OP_TRANSPORT_LOST => modem_manager_notify_transport_lost
  | OP_URC line => modem_manager_handle_urc line
  | OP_RESTART => modem_manager_request_restart;; mret tt
  | OP_PIN pin => modem_manager_submit_sim_pin pin;; mret tt
  end.

Fixpoint manager_run (ops : list manager_op) : M unit :=
  match ops with
  | [] => mret tt
  | op :: ops => manager_step op;; manager_run ops
  end.

Lemma run_keeps P : (forall op, keeps P (manager_step op)) -> forall ops, keeps P (manager_run ops).
Proof.
  intros H ops. induction ops as [|op ops IH]; cbn [manager_run]; [apply keeps_ret|].
  by apply keeps_bind; [|intros _].
Qed.

(** The other tasks touch the queue and the count of dropped URCs only. *)
Lemma queue_send_cases front e m :
  queue_send front e m = (m, false) \/
  exists q, m_queue m = Some q /\ (length q < MODEM_MANAGER_QUEUE_DEPTH)%nat /\
    queue_send front e m = (m <| m_queue := Some (if front then e :: q else q ++ [e]) |>, true).
Proof.
  unfold queue_send. destruct (m_queue m) as [q|]; [|by left].
  destruct (Nat.ltb_spec (length q) MODEM_MANAGER_QUEUE_DEPTH); [right; eauto|by left].
Qed.

Lemma keeps_queue_send (P : manager -> Prop) (front : bool) e :
  (forall m q, m_queue m = Some q -> (length q < MODEM_MANAGER_QUEUE_DEPTH)%nat -> P m ->
    P (m <| m_queue := Some (if front then e :: q else q ++ [e]) |>)) ->
  keeps P (queue_send front e).
Proof.
  intros H m Hm. destruct (queue_send_cases front e m) as [-> | (q & Hq & Hl & ->)]; [done|]. cbn [fst]. eauto.
Qed.

(** A predicate that does not look at the queue. *)
Lemma keeps_queue_send_other (P : manager -> Prop) front e :
  (forall m (q : option (list manager_event_t)), P m -> P (m <| m_queue := q |>)) -> keeps P (queue_send front e).
Proof. intros H. apply keeps_queue_send. intros. by apply H. Qed.

Hint Extern 4 (triple _ (queue_send _ _) _) =>
  (apply keeps_queue_send_other; let H := fresh in intros ? ? H; exact H) : state.

(** ** The invariant *)

(** What the queue holds: a URC fits into its event, a PIN has 4 to 8 digits. *)
Definition pin_ok (pin : list Z) : Prop :=
  (4 <= length pin <= MODEM_MANAGER_PIN_MAX)%nat /\ Forall (fun c => isdigit c = true) pin.

#[export] Instance pin_ok_dec pin : Decision (pin_ok pin).
Proof. unfold pin_ok. apply _. Defined.

Definition event_ok (e : manager_event_t) : Prop :=
  match e with
  | MANAGER_EVENT_URC urc => (length urc < MODEM_MANAGER_URC_MAX)%nat
  | MANAGER_EVENT_SIM_PIN pin => pin_ok pin
  | _ => True
  end.

Definition queue_ok (m : manager) : Prop :=
  match m_queue m with
  | Some q => (length q <= MODEM_MANAGER_QUEUE_DEPTH)%nat /\ Forall event_ok q
  | None => True
  end.

Definition counters_ok (m : manager) : Prop :=
  0 <= m_recoveries_since_hard_reset m <= HARD_RESET_AFTER_RECOVERIES cfg /\ 0 <= m_successful_poll_cycles m <= 3.

Definition manager_ok (m : manager) : Prop :=
  types_kept m /\ registration_consistent m /\ state_agrees m /\ counters_ok m /\ queue_ok m.

Lemma keeps_types_step op : keeps types_kept (manager_step op).
Proof. destruct op; [apply types_turn|keeps_code..]. Qed.

Lemma keeps_consistent_step op : keeps registration_consistent (manager_step op).
Proof. destruct op; [apply consistent_turn|keeps_code..]. Qed.

Lemma keeps_agrees_step op : keeps state_agrees (manager_step op).
Proof. destruct op; [apply agrees_turn|keeps_code..]. Qed.

Lemma policy_range f t r rounds :
  0 <= rounds <= r -> r < UINT32_MAX ->
  0 <= default rounds (modem_recovery_policy_next f t r (Some rounds)).2 <= r.
Proof.
  intros H Hr. unfold modem_recovery_policy_next. case_match; [done|].
  unfold u32. rewrite Z.mod_small by (unfold UINT32_MAX in *; lia).
  case_match; [cbn; lia|]. case_match; cbn; lia.
Qed.

Lemma counters_recovery : config_ok cfg -> keeps counters_ok (schedule_recovery env cfg).
Proof.
  intros (_ & _ & _ & HR & _). unfold schedule_recovery. apply keeps_bind; [keeps_code|intros s].
  eapply triple_bind; [apply triple_gets|]. intros rounds.
  pose proof (policy_range (sn_consecutive_failures s) (FAILURES_BEFORE_RECOVERY cfg)
                (HARD_RESET_AFTER_RECOVERIES cfg) rounds) as Hp.
  destruct (modem_recovery_policy_next _ _ _ _) as [action rounds'].
  apply (triple_bind _ _ (fun _ => counters_ok)).
  { apply triple_modify. intros m (-> & Hr & Hc). unfold UINT32_MAX in Hp. split; [apply Hp; lia|exact Hc]. }
  intros _. keeps_code. all: match goal with H : counters_ok ?m |- _ => destruct H as [H _] end.
  all: split; [assumption|cbn; lia].
Qed.

Lemma counters_poll_due : config_ok cfg -> keeps counters_ok (poll_due env cfg).
Proof.
  intros Hc. pose proof Hc as (_ & _ & _ & HR & _). unfold poll_due.
  apply keeps_bind; [keeps_code|intros ok]. apply keeps_bind; [keeps_code|intros s].
  apply keeps_bind; [|intros _; keeps_code]. destruct ok; cbn [negb].
  - eapply triple_bind; [apply triple_gets|]. intros cycles. cbv zeta. case_match; apply triple_modify.
    + intros m (_ & Hm & _). split; cbn; lia.
    + intros m (-> & Hm & H3). split; [exact Hm|]. cbn. unfold u32 in *. rewrite Z.mod_small in * by lia. lia.
  - apply keeps_bind; [|intros _; by apply counters_recovery].
    apply triple_modify. intros m [Hm _]. split; [exact Hm|cbn; lia].
Qed.

Lemma counters_turn : config_ok cfg -> keeps counters_ok (manager_turn env cfg).
Proof.
  intros Hc. pose proof (counters_recovery Hc) as Hr. pose proof (counters_poll_due Hc) as Hp. keeps_code.
Qed.

Lemma counters_step : config_ok cfg -> forall op, keeps counters_ok (manager_step op).
Proof. intros Hc op. destruct op; [by apply counters_turn|keeps_code..]. Qed.

(** ** The queue *)

Lemma queue_receive : keeps queue_ok receive.
Proof.
  intros m H. unfold receive, queue_ok in *. destruct (m_queue m) as [[|e q]|] eqn:E; cbn [fst]; rewrite ?E; [done| |done].
  destruct H as [Hl Hq]. cbn in *. split; [lia|]. by apply Forall_cons in Hq as [_ ?].
Qed.

Hint Resolve queue_receive : state.

Lemma queue_turn : keeps queue_ok (manager_turn env cfg).
Proof. keeps_code. Qed.

Lemma queue_send_ok front e : event_ok e -> keeps queue_ok (queue_send front e).
Proof.
  intros He. apply keeps_queue_send. intros m q Hq Hl H. unfold queue_ok in *. rewrite Hq in H. cbn.
  destruct H as [_ H]. destruct front; rewrite ?length_app; cbn; (split; [lia|]).
  - by constructor.
  - apply Forall_app_2; [done|by constructor].
Qed.

Lemma pin_loop_spec pin n length : pin_loop pin n = Some length -> 
  (n <= MODEM_MANAGER_PIN_MAX + 1)%nat ->
  (length <= n + List.length pin)%nat /\ (n <= length)%nat /\
  Forall (fun c => isdigit c = true) (take (length - n) pin) /\
  ((length <= MODEM_MANAGER_PIN_MAX)%nat -> length = (n + List.length pin)%nat).
Proof.
  revert n. induction pin as [|c pin IH]; intros n; cbn [pin_loop List.length]; intros H Hn.
  { simplify_eq. rewrite Nat.sub_diag. split_and!; try done; lia. }
  destruct (Nat.leb_spec n MODEM_MANAGER_PIN_MAX) as [Hl|Hl].
  - destruct ((c <? 48) || (57 <? c)) eqn:E; [done|]. specialize (IH (S n) H ltac:(lia)).
    destruct IH as (H1 & H2 & H3 & H4). replace (length - n)%nat with (S (length - S n)) by lia. cbn [take].
    split_and!; [lia|lia| |lia]. constructor; [unfold isdigit; lia|done].
  - simplify_eq. rewrite Nat.sub_diag. split_and!; [lia|lia|by constructor|lia].
Qed.

(** What [modem_manager_submit_sim_pin] accepts. *)
Lemma pin_accepted pin length :
  pin_loop pin 0 = Some length -> pin_length_ok pin length = true -> pin_ok pin.
Proof.
  intros H Hl. unfold pin_length_ok in Hl. destruct (pin_loop_spec pin 0 length H) as (_ & _ & Hd & He); [lia|].
  rewrite Nat.sub_0_r in Hd. rewrite He in Hd by lia. rewrite He in Hl by lia. cbn [Nat.add] in *.
  rewrite firstn_all in Hd. split; [lia|done].
Qed.

Lemma pin_ok_loop pin n :
  Forall (fun c => isdigit c = true) pin -> (n + List.length pin <= MODEM_MANAGER_PIN_MAX)%nat ->
  pin_loop pin n = Some (n + List.length pin)%nat.
Proof.
  intros H. revert n. induction H as [|c pin Hc _ IH]; intros n; cbn [pin_loop List.length]; intros Hl.
  { by rewrite Nat.add_0_r. }
  replace (n <=? MODEM_MANAGER_PIN_MAX)%nat with true by lia. unfold isdigit in Hc.
  replace ((c <? 48) || (57 <? c)) with false by lia. rewrite IH by lia. f_equal. lia.
Qed.

Lemma pin_taken pin : pin_ok pin -> exists length, pin_loop pin 0 = Some length /\ pin_length_ok pin length = true.
Proof.
  intros [Hl Hd]. exists (List.length pin). split; [apply (pin_ok_loop pin 0 Hd); lia|].
  unfold pin_length_ok. unfold byte_at. rewrite nth_overflow by done. lia.
Qed.

Lemma urc_event_ok line : (MODEM_MANAGER_URC_MAX <=? strlen line)%nat = false -> event_ok (MANAGER_EVENT_URC (c_str line)).
Proof. unfold strlen, event_ok. lia. Qed.

Lemma pin_event_ok pin length :
  pin_loop pin 0 = Some length -> negb (pin_length_ok pin length) = false -> event_ok (MANAGER_EVENT_SIM_PIN pin).
Proof. intros H Hl%negb_false_iff. exact (pin_accepted pin length H Hl). Qed.

Hint Resolve queue_send_ok urc_event_ok pin_event_ok : state.
Hint Extern 1 (event_ok _) => exact I : state.

Lemma queue_reset_ok : keeps queue_ok queue_reset.
Proof.
  apply triple_modify. intros m H. unfold queue_ok in *. cbn. destruct (m_queue m); [|done].
  split; [apply Nat.le_0_l|constructor].
Qed.

Hint Resolve queue_reset_ok : state.

Lemma queue_step op : keeps queue_ok (manager_step op).
Proof. destruct op as [| | |line| |pin]; [apply queue_turn|keeps_code..]. Qed.

(** ** Every run is sound *)

Lemma manager_ok_step : config_ok cfg -> forall op, keeps manager_ok (manager_step op).
Proof.
  intros Hc op. apply keeps_and; [apply keeps_types_step|]. apply keeps_and; [apply keeps_consistent_step|].
  apply keeps_and; [apply keeps_agrees_step|]. apply keeps_and; [by apply counters_step|apply queue_step].
Qed.

End Run.

(** The manager before [modem_manager_init], and after it. *)
Definition manager_off : manager := mk_manager false false false None snapshot_zero 0 0 false 0 0 [].

Definition manager_start (hard_reset event_cb : bool) : manager :=
  (modem_manager_init (Some (true, hard_reset)) event_cb true true manager_off).1.

Lemma start_ok cfg hard_reset event_cb : config_ok cfg -> manager_ok cfg (manager_start hard_reset event_cb).
Proof.
  intros (_ & _ & _ & HR & _). split; [|split; [done|split; [done|split]]].
  - split; [split_and!; cbn; (lia || done)|]. by repeat split.
  - split; cbn; lia.
  - split; [apply Nat.le_0_l|constructor].
Qed.

(** ** What becomes of a PIN *)

Definition is_pin (r : at_request_t) : option (list Z) :=
  match command r with
  | Some c => if bool_decide (take 8 c = str "AT+CPIN=") then Some c else None
  | None => None
  end.

Definition pin_of (e : manager_effect) : option (list Z) :=
  match e with ME_request r _ _ => is_pin r | _ => None end.

(** The commands with a PIN that went to the modem, the oldest first. *)
Definition pins_sent (trace : list manager_effect) : list (list Z) := reverse (omap pin_of trace).

Definition event_pins (e : option manager_event_t) : list (list Z) :=
  match e with Some (MANAGER_EVENT_SIM_PIN pin) => [pin_command pin] | _ => [] end.

Definition queue_pins (q : list manager_event_t) : list (list Z) := q ≫= (fun e => event_pins (Some e)).

Definition pins_queued (m : manager) : list (list Z) := queue_pins (default [] (m_queue m)).

Lemma queue_pins_cons e q : queue_pins (e :: q) = event_pins (Some e) ++ queue_pins q.
Proof. done. Qed.

Lemma queue_pins_app q q' : queue_pins (q ++ q') = queue_pins q ++ queue_pins q'.
Proof. apply bind_app. Qed.

(** The commands of the PINs that were submitted. *)
Definition pins_submitted (ops : list manager_op) : list (list Z) :=
  ops ≫= (fun op => match op with OP_PIN (Some pin) => [pin_command pin] | _ => [] end).

(** Sent, received from the queue and still queued, in this order. *)
Definition pins_within (l : list (list Z)) (received : option manager_event_t) (m : manager) : Prop :=
  (pins_sent (m_trace m) ++ event_pins received ++ pins_queued m) `sublist_of` l.

Section Pins.

Context (env : manager_environment) (cfg : manager_config) (l : list (list Z)).

Abbreviation within := (pins_within l None).

Lemma within_grow m e : pin_of e = None -> within m -> within (m <| m_trace := e :: m_trace m |>).
Proof. intros He H. unfold pins_within, pins_sent in *. cbn [m_trace update omap list_omap]. by rewrite He. Qed.

Lemma within_now : keeps within (now_ms env).
Proof. intros m. by apply within_grow. Qed.

Lemma within_log s : keeps within (effect_log (ME_snapshot s)).
Proof. intros m. by apply within_grow. Qed.

Lemma within_execute r : is_pin r = None -> keeps within (transport_execute env r).
Proof. intros Hr m. unfold transport_execute. destruct (menv_execute _ _ _). by apply within_grow. Qed.

Lemma within_hard_reset : keeps within (transport_hard_reset env).
Proof. intros m. unfold transport_hard_reset. case_match; [by apply within_grow|done]. Qed.

Hint Resolve within_now within_log within_execute within_hard_reset : state.
Hint Extern 1 (is_pin _ = None) => reflexivity : state.

Lemma within_receive : triple within receive (fun e => pins_within l e).
Proof.
  intros m H. unfold receive, pins_within, pins_queued in *.
  destruct (m_queue m) as [[|e q]|] eqn:E; cbn [fst snd]; rewrite ?E; [done| |done]. exact H.
Qed.

Lemma within_drop e m : pins_within l e m -> within m.
Proof.
  unfold pins_within. cbn [event_pins]. intros H. etrans; [|exact H]. apply sublist_app; [done|].
  by apply sublist_inserts_l.
Qed.

Lemma within_sim_pin pin :
  triple (pins_within l (Some (MANAGER_EVENT_SIM_PIN pin))) (handle_sim_pin env pin) (fun _ => within).
Proof.
  unfold handle_sim_pin. apply (triple_bind _ _ (fun _ => pins_within l (Some (MANAGER_EVENT_SIM_PIN pin)))).
  { keeps_code. }
  intros s. case_match; [apply triple_ret; intros m; apply within_drop|].
  case_match; [apply triple_ret; intros m; apply within_drop|].
  apply (triple_bind _ _ (fun _ => within)); [|intros ok; keeps_code].
  unfold execute_optional. apply (triple_bind _ _ (fun _ => pins_within l (Some (MANAGER_EVENT_SIM_PIN pin)))).
  { keeps_code. }
  intros before. apply (triple_bind _ _ (fun _ => within)); [|intros r; keeps_code].
  unfold execute_command. apply (triple_bind _ _ (fun _ => within)); [|intros [err response]; keeps_code].
  intros m H'. unfold transport_execute. destruct (menv_execute _ _ _) as [err response]. cbn [fst].
  unfold pins_within, pins_sent in *. cbn [m_trace update omap list_omap].
  change (pin_of (ME_request (manager_request (pin_command pin) [] 10000) err response)) with (Some (pin_command pin)).
  cbv iota. rewrite reverse_cons, <- app_assoc. exact H'.
Qed.

Lemma within_turn : keeps within (manager_turn env cfg).
Proof.
  unfold manager_turn. apply keeps_bind; [keeps_code|intros _].
  eapply triple_bind; [apply within_receive|]. intros event.
  apply (triple_bind _ _ (fun _ => within)); [|intros _; unfold manager_work; keeps_code].
  destruct event as [[| |urc|pin|]|]; [..|apply triple_ret; auto]; unfold handle_event; try apply within_sim_pin.
  all: match goal with |- triple (pins_within l ?e) ?c _ => change (keeps within c) end; keeps_code.
Qed.

(** An event without a PIN joins the queue. *)
Lemma within_send front e : event_pins (Some e) = [] -> keeps within (queue_send front e).
Proof.
  intros He. apply keeps_queue_send. intros m q Hq _ H. unfold pins_within, pins_queued in *. rewrite Hq in H.
  cbn [m_queue update from_option id]. destruct front.
  - by rewrite queue_pins_cons, He.
  - by rewrite queue_pins_app, queue_pins_cons, He, !app_nil_r.
Qed.

Lemma within_reset : keeps within queue_reset.
Proof.
  apply triple_modify. intros m H. unfold pins_within, pins_queued in *. cbn [m_queue m_trace update].
  etrans; [|exact H]. apply sublist_app; [done|]. destruct (m_queue m); cbn; apply sublist_nil_l.
Qed.

Hint Resolve within_send within_reset within_turn : state.
Hint Extern 1 (event_pins _ = []) => reflexivity : state.

Lemma within_other op : (forall pin, op <> OP_PIN pin) -> keeps within (manager_step env cfg op).
Proof. intros H. destruct op; [keeps_code..|by destruct (H pin)]. Qed.

End Pins.

Lemma within_submit l pin :
  triple (pins_within l None) (modem_manager_submit_sim_pin (Some pin))
    (fun _ => pins_within (l ++ [pin_command pin]) None).
Proof.
  intros m H.
  assert (pins_within (l ++ [pin_command pin]) None m) as Hs.
  { unfold pins_within in *. etrans; [exact H|]. by apply sublist_inserts_r. }
  assert (modem_manager_submit_sim_pin (Some pin) m
          = (if negb (m_initialized m) || bool_decide (m_queue m = None) then mret ESP_ERR_INVALID_STATE
             else match pin_loop (c_str pin) 0 with
                  | None => mret ESP_ERR_INVALID_ARG
                  | Some length =>
                      if negb (pin_length_ok (c_str pin) length) then mret ESP_ERR_INVALID_ARG
                      else queued ← queue_send false (MANAGER_EVENT_SIM_PIN (c_str pin));
                           mret (if queued : bool then ESP_OK else ESP_ERR_NO_MEM)
                  end) m) as E by done.
  rewrite E. clear E. repeat case_match; try exact Hs.
  unfold mbind, state_bind.
  destruct (queue_send_cases false (MANAGER_EVENT_SIM_PIN (c_str pin)) m) as [-> | (q & Hq & _ & ->)]; [exact Hs|].
  cbn [fst mret state_ret]. unfold pins_within, pins_queued in *. cbn [m_queue m_trace update from_option id].
  rewrite Hq in H. rewrite queue_pins_app, queue_pins_cons, !app_assoc, app_nil_r. apply sublist_app; [|].
  { by rewrite app_nil_r in *. }
  cbn [event_pins]. unfold pin_command. by rewrite c_str_idem.
Qed.

Lemma within_run env cfg ops l :
  triple (pins_within l None) (manager_run env cfg ops) (fun _ => pins_within (l ++ pins_submitted ops) None).
Proof.
  revert l. induction ops as [|op ops IH]; intros l; cbn [manager_run].
  { apply triple_ret. intros m. unfold pins_submitted. cbn. by rewrite app_nil_r. }
  assert (triple (pins_within l None) (manager_step env cfg op)
            (fun _ => pins_within (l ++ pins_submitted [op]) None)) as Hop.
  { unfold pins_submitted. destruct op as [| | |line| |[pin|]]; cbn [mbind list_bind]; rewrite ?app_nil_r;
      try (apply within_other; intros ?; discriminate).
    - cbn [manager_step]. eapply triple_bind; [apply within_submit|intros ?; apply keeps_ret].
    - cbn [manager_step]. apply keeps_bind; [|intros ?; apply keeps_ret].
      intros m H. unfold modem_manager_submit_sim_pin, not_running, gets, mbind, state_bind. exact H. }
  eapply triple_bind; [exact Hop|intros ?]. eapply triple_weaken; [apply IH|done|].
  intros ? m. unfold pins_submitted. by rewrite <- app_assoc, <- bind_app.
Qed.

(** ** Theorems *)

(** A modem for the examples: its SIM's state and home registration; its clock
    advances by a minute with every effect. *)
Definition sample_lines (sim : list Z) (command : list Z) : list (list Z) :=
  if bool_decide (command = str "AT+CPIN?") then [sim]
  else if bool_decide (command = str "AT+CREG?") then [str "+CREG: 0,1"]
  else if bool_decide (command = str "AT+CSQ") then [str "+CSQ: 20,99"]
  else if bool_decide (command = str "AT+CGMI") then [str "huawei"]
  else [].

Definition sample_answer (sim : list Z) (r : at_request_t) : at_response_t :=
  set_response_result
    (foldl response_capture_line response_reset (sample_lines sim (default [] (command r)))) AT_RESULT_OK.

Definition sample_modem (sim : list Z) : manager_environment :=
  mk_manager_environment (fun _ r => (ESP_OK, sample_answer sim r)) (fun _ => ESP_OK)
    (fun trace => 60000 * Z.of_nat (length trace)) id.

Definition sample_ops : list manager_op :=
  [OP_TRANSPORT_READY; OP_TURN; OP_PIN (Some (str "1234")); OP_TURN; OP_PIN (Some (str "12")); OP_TURN].

Example sample_session :
  let s := m_snapshot (manager_run (sample_modem (str "+CPIN: READY")) default_config sample_ops
                         (manager_start true true)).1 in
  sn_state s = MODEM_MANAGER_READY /\ sn_initialized s = true /\ c_str (sn_manufacturer s) = str "huawei".
Proof. vm_compute. done. Qed.

Example sample_pin :
  pins_sent (m_trace (manager_run (sample_modem (str "+CPIN: SIM PIN")) default_config sample_ops
                        (manager_start true true)).1)
  = [pin_command (str "1234")].
Proof. vm_compute. done. Qed.

(** C34. Whatever happens to the gateway after its start, in any order: the
    fields of the snapshot keep their types (terminated strings, a signal in
    the range of the standard), [registered] and [roaming] are what the three
    registration domains say, the reported state agrees with the SIM and with
    the registration, the recovery counters stay in their ranges, and what the
    queue holds fits into its events. *)
Theorem manager_run_sound env cfg hard_reset event_cb ops :
  config_ok cfg -> manager_ok cfg (manager_run env cfg ops (manager_start hard_reset event_cb)).1.
Proof.
  intros Hc. apply (run_keeps env cfg (manager_ok cfg)); [by apply manager_ok_step|by apply start_ok].
Qed.

Lemma default_config_ok : config_ok default_config.
Proof. unfold config_ok. cbn. lia. Qed.

Lemma manager_run_sound_witness :
  let m := (manager_run (sample_modem (str "+CPIN: READY")) default_config sample_ops (manager_start true true)).1 in
  sn_state (m_snapshot m) = MODEM_MANAGER_READY /\ manager_ok default_config m.
Proof.
  split; [vm_compute; reflexivity|].
  apply (manager_run_sound (sample_modem (str "+CPIN: READY")) default_config true true sample_ops).
  exact default_config_ok.
Defined.

(** C35. A SIM PIN goes to the modem at most once per submission, in the order
    of the submissions, and no other PIN does: the commands with a PIN that
    the modem gets are a subsequence of those submitted, in every run. *)
Theorem pin_sent_at_most_once env cfg hard_reset event_cb ops :
  pins_sent (m_trace (manager_run env cfg ops (manager_start hard_reset event_cb)).1)
  `sublist_of` pins_submitted ops.
Proof.
  pose proof (within_run env cfg ops [] (manager_start hard_reset event_cb)) as H. cbn [app] in H.
  etrans; [|apply H; constructor]. unfold pins_within. by apply sublist_inserts_r.
Qed.

(** A PIN is taken exactly when it has four to eight decimal digits and
    the queue has room; it then waits at the end of the queue. *)
Theorem pin_submission pin m q :
  m_initialized m = true -> m_queue m = Some q ->
  modem_manager_submit_sim_pin (Some pin) m
  = if negb (bool_decide (pin_ok (c_str pin))) then (m, ESP_ERR_INVALID_ARG)
    else if (MODEM_MANAGER_QUEUE_DEPTH <=? length q)%nat then (m, ESP_ERR_NO_MEM)
    else (m <| m_queue := Some (q ++ [MANAGER_EVENT_SIM_PIN (c_str pin)]) |>, ESP_OK).
Proof.
  intros Hi Hq.
  assert (modem_manager_submit_sim_pin (Some pin) m
          = match pin_loop (c_str pin) 0 with
            | None => (m, ESP_ERR_INVALID_ARG)
            | Some length =>
                if negb (pin_length_ok (c_str pin) length) then (m, ESP_ERR_INVALID_ARG)
                else let '(m', queued) := queue_send false (MANAGER_EVENT_SIM_PIN (c_str pin)) m in
                     (m', if queued : bool then ESP_OK else ESP_ERR_NO_MEM)
            end) as ->.
  { unfold modem_manager_submit_sim_pin, not_running, gets, mbind, state_bind. rewrite Hi, Hq.
    rewrite bool_decide_eq_false_2 by done. cbn [negb orb]. destruct (pin_loop _ _); [|done].
    destruct (pin_length_ok _ _); cbn [negb]; [|done]. by destruct (queue_send _ _ _). }
  case_bool_decide as Hp; cbn [negb].
  - destruct (pin_taken _ Hp) as (length & -> & ->). cbn [negb]. unfold queue_send. rewrite Hq.
    destruct (Nat.leb_spec MODEM_MANAGER_QUEUE_DEPTH (List.length q)) as [Hl|Hl].
    + by replace (List.length q <? MODEM_MANAGER_QUEUE_DEPTH)%nat with false by lia.
    + by replace (List.length q <? MODEM_MANAGER_QUEUE_DEPTH)%nat with true by lia.
  - destruct (pin_loop _ _) as [length|] eqn:E; [|done]. destruct (pin_length_ok _ _) eqn:El; [|done].
    destruct Hp. exact (pin_accepted _ _ E El).
Qed.

Lemma pin_submission_witness :
  modem_manager_submit_sim_pin (Some (str "1234")) (manager_start true true)
  = ((manager_start true true) <| m_queue := Some [MANAGER_EVENT_SIM_PIN (str "1234")] |>, ESP_OK).
Proof.
  rewrite (pin_submission (str "1234") (manager_start true true) []) by reflexivity.
  reflexivity.
Defined.

(** ** Two runs that the comments and the documentation do not expect *)

(** The lost transport goes to the front of the queue, but what waited there
    stays: URCs of the lost modem are taken afterwards, and the manager reports
    READY without a transport. *)
Example stale_urcs_report_ready :
  let ops := [OP_TRANSPORT_READY; OP_TURN; OP_URC (Some (str "+CPIN: READY")); OP_URC (Some (str "+CREG: 1"));
              OP_TRANSPORT_LOST; OP_TURN; OP_TURN; OP_TURN] in
  let s := m_snapshot (manager_run (sample_modem (str "+CPIN: READY")) default_config ops (manager_start true true)).1 in
  sn_state s = MODEM_MANAGER_READY /\ sn_registered s = true /\ sn_transport_ready s = false.
Proof. vm_compute. done. Qed.

(** A session that fails below the threshold of failures is not tried again:
    here a modem that reports its SIM once more and then refuses a command of
    the profile.  The next poll succeeds, and the manager stays READY without
    being initialized. *)
Definition no_cmee_modem : manager_environment :=
  mk_manager_environment
    (fun trace r => if bool_decide (command r = Some (str "AT+CMEE=2")) && (50 <? length trace)%nat
                    then (ESP_OK, set_response_result response_reset AT_RESULT_ERROR)
                    else menv_execute (sample_modem (str "+CPIN: READY")) trace r)
    (fun _ => ESP_OK) (fun trace => 60000 * Z.of_nat (length trace)) id.

Example failed_session_not_retried :
  let ops := [OP_TRANSPORT_READY; OP_TURN; OP_URC (Some (str "+CPIN: READY"))] ++ repeat OP_TURN 10 in
  let s := m_snapshot (manager_run no_cmee_modem default_config ops (manager_start true true)).1 in
  sn_state s = MODEM_MANAGER_READY /\ sn_initialized s = false.
Proof. vm_compute. done. Qed.
