(* ===== verification/ModemManagerLive.v ===== *)
(** * The modem manager: progress

    A modem that answers is brought up, and one that does not answer is power
    cycled after a bounded number of polls. *)

From Stdlib Require Import Ascii String.
From Stdlib Require Import ZifyBool ZifyNat.
From stdpp Require Import base numbers list strings.
From S2P Require Import Prelude.
From S2P Require Import StateMonad.
From S2P Require Import AtEngine.
From S2P Require Import ModemStatus.
From S2P Require Import ModemManager.
From S2P Require Import ModemManagerFacts.
From S2P Require Import ModemManagerRun.

Open Scope Z_scope.

(** ** A modem that answers *)

Section Session.

Context (env : manager_environment) (cfg : manager_config).

(** The command succeeds whenever it is sent, and its answer has [Q]. *)
Definition answers (command0 : list Z) (prefixes : list (list Z)) (timeout : Z) (Q : at_response_t -> Prop) : Prop :=
  forall trace, let '(err, response) := menv_execute env trace (manager_request command0 prefixes timeout) in
  err = ESP_OK /\ resp_result response = AT_RESULT_OK /\ Q response.

Lemma execute_answered P c p t Q :
  answers c p t Q ->
  triple P (execute_command env c p t) (fun r _ => match r with Some response => Q response | None => False end).
Proof.
  intros Ha m _. unfold execute_command, mbind, state_bind, transport_execute. specialize (Ha (m_trace m)).
  destruct (menv_execute _ _ _) as [err response]. destruct Ha as (-> & Hr & HQ).
  rewrite (bool_decide_eq_false_2 (ESP_OK <> ESP_OK)) by (intros H; exact (H eq_refl)).
  rewrite bool_decide_eq_false_2 by (intros H; exact (H Hr)). exact HQ.
Qed.

(** What follows when a line of the answer parses. *)
Lemma parse_answered {A} P (parse : option (list Z) -> option A) store response x (Q : manager -> Prop) :
  first_line parse response = Some x ->
  (forall m m', m_snapshot m' = store x (m_snapshot m) ->
     forall now, Q (m' <| m_snapshot := (m_snapshot m') <| sn_last_status_update_ms := now |> |>)) ->
  triple P (response_parse env parse store response) (fun ok m => ok = true /\ Q m).
Proof.
  intros Hx HQ m _. unfold response_parse. rewrite Hx. split; [done|].
  exact (HQ m (m <| m_snapshot := store x (m_snapshot m) |> <| m_trace := ME_now _ :: m_trace m |>) eq_refl _).
Qed.

Definition reports_ready (response : at_response_t) : Prop :=
  first_line modem_status_parse_cpin response = Some MODEM_SIM_READY.

Definition reports_registered (response : at_response_t) : Prop :=
  exists r, first_line (fun line => modem_status_parse_registration line (Some (str "+CREG:"))) response = Some r /\
    modem_registration_is_registered (reg_status r) = true.

Lemma query_sim_answered P :
  answers (str "AT+CPIN?") [str "+CPIN:"] 3000 reports_ready ->
  triple P (query_sim env) (fun ok m => ok = true /\ sim_is MODEM_SIM_READY m).
Proof.
  intros Ha. unfold query_sim. eapply triple_bind; [exact (execute_answered _ _ _ _ _ Ha)|].
  intros [response|]; [|by intros m Hm]. cbn [and_parse]. intros m Hr.
  refine (parse_answered (fun _ => True) _ _ _ _ (sim_is MODEM_SIM_READY) Hr _ m I).
  intros m0 m' E now. unfold sim_is. cbn. by rewrite E.
Qed.

Definition circuit_registered (m : manager) : Prop :=
  modem_registration_is_registered (reg_status (sn_circuit_registration (m_snapshot m))) = true.

Lemma query_circuit_answered P :
  answers (str "AT+CREG?") [str "+CREG:"] 3000 reports_registered ->
  triple P (query_registration_one env (str "AT+CREG?") (str "+CREG:") CIRCUIT false)
    (fun ok m => circuit_registered m).
Proof.
  intros Ha. unfold query_registration_one. eapply triple_bind; [exact (execute_answered _ _ _ _ _ Ha)|].
  intros [response|]; [|by intros m Hm]. cbn [and_parse]. intros m (r & Hr & Hreg).
  refine (proj2 (parse_answered (fun _ => True) _ _ _ _ circuit_registered Hr _ m I)).
  intros m0 m' E now. unfold circuit_registered. cbn. by rewrite E.
Qed.

(** One registered domain is enough. *)
Lemma circuit_is_enough m : circuit_registered m -> registration_consistent m -> sn_registered (m_snapshot m) = true.
Proof.
  unfold circuit_registered, registration_consistent, registration_of, statuses. intros Hc H.
  cbn [List.find] in H. rewrite Hc in H. repeat case_match; congruence.
Qed.

Definition session_up (m : manager) : Prop :=
  sim_is MODEM_SIM_READY m /\ sn_initialized (m_snapshot m) = true.

(** The SIM is ready and so is the registration. *)
Definition session_registered (m : manager) : Prop := session_up m /\ circuit_registered m.

Lemma recompute_registered :
  triple session_registered recompute_registration
    (fun _ m => session_registered m /\ registration_consistent m).
Proof.
  intros m Hm. split; [revert m Hm; change (keeps session_registered recompute_registration); keeps_code|].
  exact (recompute_spec (fun _ => True) m I).
Qed.

Lemma query_registration_answered :
  answers (str "AT+CREG?") [str "+CREG:"] 3000 reports_registered ->
  triple session_up (query_registration env) (fun _ => session_registered).
Proof.
  intros Ha. unfold query_registration. apply (triple_bind _ _ (fun _ => session_registered)).
  { intros m Hm. split; [|exact (query_circuit_answered session_up Ha m Hm)].
    revert m Hm. change (keeps session_up (query_registration_one env (str "AT+CREG?") (str "+CREG:") CIRCUIT false)).
    keeps_code. }
  intros circuit. do 2 (apply (triple_bind _ _ (fun _ => session_registered)); [keeps_code|intros ?]).
  apply (triple_bind _ _ (fun _ => session_registered)); [keeps_code|intros ?]. apply keeps_ret.
Qed.

Lemma session_finish_answered :
  answers (str "AT+CREG?") [str "+CREG:"] 3000 reports_registered ->
  triple (sim_is MODEM_SIM_READY) (session_finish env cfg)
    (fun _ m => session_up m /\ sn_state (m_snapshot m) = MODEM_MANAGER_READY).
Proof.
  intros Ha. unfold session_finish.
  do 3 (apply (triple_bind _ _ (fun _ => sim_is MODEM_SIM_READY)); [keeps_code|intros _]).
  eapply triple_bind; [apply triple_snapshot|]. intros s. cbv zeta.
  apply (triple_bind _ _ (fun _ m => sn_sim s = MODEM_SIM_READY /\ session_up m)).
  { apply triple_on_snapshot. intros m [-> Hm]. by split. }
  intros _. apply triple_pure. intros Hs. rewrite bool_decide_eq_false_2 by (intros H; exact (H Hs)).
  apply (triple_bind _ _ (fun _ => session_registered)); [by apply query_registration_answered|intros _].
  do 3 (apply (triple_bind _ _ (fun _ => session_registered)); [keeps_code|intros _]).
  eapply triple_bind; [apply recompute_registered|]. intros ?.
  eapply triple_bind; [apply triple_snapshot|]. intros s'. cbv zeta.
  apply (triple_bind _ _ (fun _ m => session_up m /\ sn_state (m_snapshot m) = MODEM_MANAGER_READY)).
  { apply triple_set_state; [apply _|]. intros m (-> & [Hup Hc] & Hcons).
    rewrite (circuit_is_enough m Hc Hcons). by split. }
  intros _. keeps_code.
Qed.

(** A modem that takes the profile, whose SIM is ready and that reports
    home or roaming service on the circuit domain is brought up in one
    session, whatever else it answers and whatever state the manager is in:
    the session succeeds and the manager is initialized and READY. *)
Theorem session_reaches_ready m :
  answers (str "ATE0") [] 3000 (fun _ => True) -> answers (str "AT+CMEE=2") [] 3000 (fun _ => True) ->
  answers (str "AT+CPIN?") [str "+CPIN:"] 3000 reports_ready ->
  answers (str "AT+CREG?") [str "+CREG:"] 3000 reports_registered ->
  let '(m', ok) := initialize_session env cfg m in
  ok = true /\ sn_state (m_snapshot m') = MODEM_MANAGER_READY /\ sn_initialized (m_snapshot m') = true /\
  sn_sim (m_snapshot m') = MODEM_SIM_READY.
Proof.
  intros He Hc Hs Hr.
  assert (triple (fun _ => True) (initialize_session env cfg)
            (fun ok m => ok = true /\ session_up m /\ sn_state (m_snapshot m) = MODEM_MANAGER_READY)) as H.
  { unfold initialize_session. do 2 (apply (triple_bind _ _ (fun _ _ => True)); [done|intros _]).
    eapply triple_bind; [exact (execute_answered _ _ _ _ _ He)|]. intros [echo|]; [|by intros ? ?].
    eapply triple_bind; [exact (execute_answered _ _ _ _ _ Hc)|]. intros [errors|]; [|by intros ? ?].
    rewrite !bool_decide_eq_false_2 by done. apply (triple_bind _ _ (fun _ _ => True)); [done|intros _].
    eapply triple_bind; [exact (query_sim_answered _ Hs)|]. intros ok. apply triple_pure. intros ->. cbn [negb].
    eapply triple_bind; [by apply session_finish_answered|]. intros ?. apply triple_ret. by split. }
  specialize (H m I). destruct (initialize_session env cfg m) as [m' ok]. cbn [fst snd] in H.
  destruct H as (? & [? ?] & ?). by split_and!.
Qed.

End Session.

Lemma session_reaches_ready_witness :
  let m := manager_start true true in
  let '(m', ok) := initialize_session (sample_modem (str "+CPIN: READY")) default_config m in
  ok = true /\ sn_state (m_snapshot m') = MODEM_MANAGER_READY /\ sn_initialized (m_snapshot m') = true /\
  sn_sim (m_snapshot m') = MODEM_SIM_READY.
Proof.
  apply (session_reaches_ready (sample_modem (str "+CPIN: READY")) default_config (manager_start true true));
    intros trace; (split; [reflexivity|split; [vm_compute; reflexivity|]]).
  - exact I.
  - exact I.
  - vm_compute. reflexivity.
  - exists (mk_registration MODEM_REG_HOME (-1)). split; vm_compute; reflexivity.
Defined.

(** ** A modem that does not answer *)

Definition is_reset (e : manager_effect) : bool := match e with ME_hard_reset _ => true | _ => false end.

(** How often the power was cycled. *)
Definition resets (trace : list manager_effect) : nat := length (filter (fun e => is_reset e = true) trace).

Section Dead.

Context (env : manager_environment) (cfg : manager_config).

(** Every command fails. *)
Definition dead : Prop :=
  forall trace r, let '(err, response) := menv_execute env trace r in
  err <> ESP_OK \/ resp_result response <> AT_RESULT_OK.

Definition reset_since (base : nat) (m : manager) : Prop := (base < resets (m_trace m))%nat.

(** The task runs, with a transport that it can reset, and no event waits. *)
Definition running (m : manager) : Prop :=
  m_hard_reset m = true /\ m_queue m = Some [] /\ sn_transport_ready (m_snapshot m) = true.

(** ... with so many failures and rounds. *)
Definition level (failures rounds : Z) (base : nat) (m : manager) : Prop :=
  running m /\ sn_consecutive_failures (m_snapshot m) = failures /\ m_recoveries_since_hard_reset m = rounds /\
  (base <= resets (m_trace m))%nat.

Lemma resets_grow e trace : (resets trace <= resets (e :: trace))%nat.
Proof. unfold resets. rewrite filter_cons. case_decide; cbn; lia. Qed.

Lemma level_grow c r b m e : level c r b m -> level c r b (m <| m_trace := e :: m_trace m |>).
Proof.
  intros (Hr & Hc & Hro & Hb). split_and!; try done. cbn [m_trace update]. pose proof (resets_grow e (m_trace m)). lia.
Qed.

Lemma since_grow b m e : reset_since b m -> reset_since b (m <| m_trace := e :: m_trace m |>).
Proof. unfold reset_since. cbn [m_trace update]. pose proof (resets_grow e (m_trace m)). lia. Qed.

(** What only grows the trace keeps a predicate that allows it. *)
Lemma grow_now (P : manager -> Prop) :
  (forall m e, P m -> P (m <| m_trace := e :: m_trace m |>)) -> keeps P (now_ms env).
Proof. intros H m. apply H. Qed.

Lemma grow_log (P : manager -> Prop) e :
  (forall m e, P m -> P (m <| m_trace := e :: m_trace m |>)) -> keeps P (effect_log e).
Proof. intros H m. apply H. Qed.

Lemma grow_execute (P : manager -> Prop) r :
  (forall m e, P m -> P (m <| m_trace := e :: m_trace m |>)) -> keeps P (transport_execute env r).
Proof. intros H m. unfold transport_execute. destruct (menv_execute _ _ _). apply H. Qed.

Lemma grow_reset (P : manager -> Prop) :
  (forall m e, P m -> P (m <| m_trace := e :: m_trace m |>)) -> keeps P (transport_hard_reset env).
Proof. intros H m. unfold transport_hard_reset. case_match; [apply H|done]. Qed.

Hint Resolve grow_now grow_log grow_execute grow_reset level_grow since_grow : state.

Lemma since_turn b : keeps (reset_since b) (manager_turn env cfg).
Proof. keeps_code. Qed.

Context (Hdead : dead).

Lemma dead_execute_command c r b com p t :
  triple (level c r b) (execute_command env com p t) (fun x m => x = None /\ level (u32 (c + 1)) r b m).
Proof.
  intros m Hm. unfold execute_command, mbind, state_bind, transport_execute.
  pose proof (Hdead (m_trace m) (manager_request com p t)) as Hd.
  destruct (menv_execute _ _ _) as [err response]. apply (level_grow c r b m (ME_request (manager_request com p t) err response)) in Hm.
  destruct Hm as ((Hh & Hq & Ht) & Hc & Hro & Hb).
  case_bool_decide as He; [|case_bool_decide as Hres; [|tauto]].
  all: split; [done|split; [done|split; [|done]]]; cbn in *; by rewrite Hc.
Qed.

Lemma dead_execute_optional c r b com p t :
  triple (level c r b) (execute_optional env com p t) (fun x m => x = None /\ level c r b m).
Proof.
  unfold execute_optional. eapply triple_bind; [apply triple_snapshot|]. intros before.
  apply (triple_bind _ _ (fun x m => x = None /\ sn_consecutive_failures before = c /\ level (u32 (c + 1)) r b m)).
  { intros m [-> Hm]. destruct (dead_execute_command c r b com p t m Hm) as [Hx H]. by destruct Hm as (_ & Hc & _). }
  intros x. apply triple_pure. intros ->. apply triple_pure. intros Hc. rewrite bool_decide_eq_true_2 by done. cbn [when].
  apply (triple_bind _ _ (fun _ => level c r b)); [|intros _; by apply triple_ret].
  apply triple_on_snapshot. intros m (Hr & _ & Hro & Hb). by split_and!.
Qed.

Lemma none_parse P parse : triple P (and_parse None parse) (fun ok m => ok = false /\ P m).
Proof. by intros m Hm. Qed.

Lemma dead_query_sim c r b : triple (level c r b) (query_sim env) (fun ok m => ok = false /\ level (u32 (c + 1)) r b m).
Proof.
  unfold query_sim. eapply triple_bind; [apply dead_execute_command|]. intros x. apply triple_pure. intros ->. apply none_parse.
Qed.

Lemma dead_query_signal c r b :
  triple (level c r b) (query_signal env) (fun ok m => ok = false /\ level (u32 (c + 1)) r b m).
Proof.
  unfold query_signal. eapply triple_bind; [apply dead_execute_command|]. intros x. apply triple_pure. intros ->. apply none_parse.
Qed.

Lemma dead_query_operator c r b : triple (level c r b) (query_operator env) (fun ok m => ok = false /\ level c r b m).
Proof.
  unfold query_operator. eapply triple_bind; [apply dead_execute_optional|]. intros x. apply triple_pure. intros ->. apply none_parse.
Qed.

Lemma dead_query_registration c r b :
  triple (level c r b) (query_registration env) (fun ok m => ok = false /\ level (u32 (c + 1)) r b m).
Proof.
  unfold query_registration, query_registration_one.
  eapply triple_bind.
  { eapply triple_bind; [apply dead_execute_command|]. intros x. apply triple_pure. intros ->. apply none_parse. }
  intros ok1. apply triple_pure. intros ->. do 2 (eapply triple_bind;
    [eapply triple_bind; [apply dead_execute_optional|]; intros x; apply triple_pure; intros ->; apply none_parse|];
    intros ?; apply triple_pure; intros ->).
  apply (triple_bind _ _ (fun _ => level (u32 (c + 1)) r b)); [keeps_code|intros _]. by apply triple_ret.
Qed.

(** A poll fails and counts one or two failures. *)
Lemma dead_poll_status c r b :
  triple (level c r b) (poll_status env)
    (fun ok m => ok = false /\ (level (u32 (c + 1)) r b m \/ level (u32 (u32 (c + 1) + 1)) r b m)).
Proof.
  unfold poll_status. apply (triple_bind _ _ (fun _ => level c r b)); [keeps_code|intros _].
  apply (triple_bind _ _ (fun _ => level c r b)); [keeps_code|intros s]. case_bool_decide.
  - eapply triple_bind; [apply dead_query_sim|]. intros ok. apply triple_pure. intros ->. cbn [when].
    do 3 (apply (triple_bind _ _ (fun _ => level (u32 (c + 1)) r b)); [keeps_code|intros _]).
    apply triple_ret. auto.
  - eapply triple_bind; [apply dead_query_registration|]. intros ok. apply triple_pure. intros ->.
    eapply triple_bind; [apply dead_query_signal|]. intros ok. apply triple_pure. intros ->.
    do 2 (apply (triple_bind _ _ (fun _ => level (u32 (u32 (c + 1) + 1)) r b)); [keeps_code|intros ?]).
    apply (triple_bind _ _ (fun _ => level (u32 (u32 (c + 1) + 1)) r b)).
    { unfold when. case_match; [|apply keeps_ret]. eapply triple_bind; [apply dead_query_operator|]. intros ok.
      apply triple_pure. intros ->. keeps_code. }
    intros _. do 2 (apply (triple_bind _ _ (fun _ => level (u32 (u32 (c + 1) + 1)) r b)); [keeps_code|intros _]).
    apply triple_ret. auto.
Qed.

(** So does a session, which ends at its first command. *)
Lemma dead_session c r b :
  triple (level c r b) (initialize_session env cfg) (fun ok m => ok = false /\ level (u32 (c + 1)) r b m).
Proof.
  unfold initialize_session. do 2 (apply (triple_bind _ _ (fun _ => level c r b)); [keeps_code|intros _]).
  eapply triple_bind; [apply dead_execute_command|]. intros x. apply triple_pure. intros ->.
  rewrite bool_decide_eq_true_2 by done. by apply triple_ret.
Qed.

(** How many polls are left at most: [FAILURES_BEFORE_RECOVERY] failures make a
    round, and the round behind the last one resets the power. *)
Definition polls_left (c r : Z) : Z :=
  (HARD_RESET_AFTER_RECOVERIES cfg - r) * (FAILURES_BEFORE_RECOVERY cfg + 1)
  + (FAILURES_BEFORE_RECOVERY cfg - Z.min c (FAILURES_BEFORE_RECOVERY cfg)).

Definition level_range (c r : Z) : Prop := 0 <= c < 2147483648 /\ 0 <= r <= HARD_RESET_AFTER_RECOVERIES cfg.

Definition progress (n : Z) (b : nat) (m : manager) : Prop :=
  reset_since b m \/ exists c r, level c r b m /\ level_range c r /\
    c < FAILURES_BEFORE_RECOVERY cfg /\ polls_left c r < n.

Lemma progress_level c r b n :
  level_range c r -> c < FAILURES_BEFORE_RECOVERY cfg -> polls_left c r < n -> forall m, level c r b m -> progress n b m.
Proof. intros Hr Hc Hp m Hm. right. exists c, r. by split_and!. Qed.

Lemma progress_poll_in n b d : keeps (progress n b) (poll_in env d).
Proof.
  assert (forall m t, progress n b m -> progress n b (m <| m_next_poll_ms := t |>)) as Hn by (by intros m t Hm).
  unfold poll_in. apply keeps_bind; [|intros t; apply triple_modify; auto].
  apply grow_now. intros m e [H|(c & r & H & Hr & Hp)]; [left; by apply since_grow|].
  right. exists c, r. split; [by apply level_grow|done].
Qed.

(** The rounds before the last: no failures are left. *)
Lemma recover_round c r b action :
  action = MODEM_RECOVERY_REINITIALIZE \/ action = MODEM_RECOVERY_FUNCTIONAL_RESET ->
  triple (level c r b) (recover env cfg action) (fun _ => level 0 r b).
Proof.
  intros Ha. unfold recover. do 2 (apply (triple_bind _ _ (fun _ => level c r b)); [keeps_code|intros _]).
  assert (forall m, level c r b m ->
    level 0 r b (m <| m_snapshot := (m_snapshot m) <| sn_consecutive_failures := 0 |> |>)) as Hz
    by (intros m (Hr & _ & Hro & Hb); by split_and!).
  destruct Ha as [-> | ->].
  - rewrite bool_decide_eq_true_2 by done.
    apply (triple_bind _ _ (fun _ => level c r b)); [keeps_code|intros _]. apply triple_on_snapshot. exact Hz.
  - rewrite bool_decide_eq_false_2, bool_decide_eq_true_2 by done.
    eapply triple_bind; [apply dead_execute_optional|]. intros x. apply triple_pure. intros _.
    apply (triple_bind _ _ (fun _ => level 0 r b)); [apply triple_on_snapshot; exact Hz|intros _]. keeps_code.
Qed.

(** The last one resets the power. *)
Lemma recover_last c r b : triple (level c r b) (recover env cfg MODEM_RECOVERY_HARD_RESET) (fun _ => reset_since b).
Proof.
  unfold recover. do 2 (apply (triple_bind _ _ (fun _ => level c r b)); [keeps_code|intros _]).
  rewrite !bool_decide_eq_false_2 by done. apply (triple_bind _ _ (fun _ => reset_since b)).
  { intros m ((Hh & _) & _ & _ & Hb). unfold transport_hard_reset. rewrite Hh. unfold reset_since.
    cbn [fst m_trace update]. unfold resets in *. rewrite filter_cons, decide_True by done. cbn [length]. lia. }
  intros err. keeps_code.
Qed.

(** A recovery either is not due yet, or starts the next round, or resets. *)
Lemma dead_recovery c r b n :
  config_ok cfg -> level_range c r -> 0 < c -> polls_left (c - 1) r <= n ->
  triple (level c r b) (schedule_recovery env cfg) (fun _ => progress n b).
Proof.
  intros (_ & _ & HT & HR & _) [Hc Hr] H0 Hp. unfold schedule_recovery.
  eapply triple_bind; [apply triple_snapshot|]. intros s.
  apply (triple_bind _ _ (fun rounds m => (sn_consecutive_failures s = c /\ rounds = r) /\ level c r b m)).
  { intros m [-> Hm]. pose proof Hm as (_ & Hf & Hro & _). by split. }
  intros rounds. apply triple_pure. intros [-> ->].
  assert (forall r', triple (level c r b) (modify (fun m => m <| m_recoveries_since_hard_reset := r' |>))
                       (fun _ => level c r' b)) as Hround.
  { intros r'. apply triple_modify. intros m (Hr1 & Hf & Hro & Hb). by split_and!. }
  unfold modem_recovery_policy_next, polls_left, u32 in *. rewrite Z.mod_small by lia.
  replace ((FAILURES_BEFORE_RECOVERY cfg =? 0) || (HARD_RESET_AFTER_RECOVERIES cfg =? 0)) with false by lia.
  cbn [orb]. destruct (Z.ltb_spec c (FAILURES_BEFORE_RECOVERY cfg)) as [Hlt|Hge].
  { eapply triple_bind; [apply Hround|]. intros ?. rewrite bool_decide_eq_true_2 by done.
    apply triple_ret, (progress_level c r b n); [done|lia|]. unfold polls_left. lia. }
  assert (r + 1 <= HARD_RESET_AFTER_RECOVERIES cfg -> forall m, level 0 (r + 1) b m -> progress n b m) as Hnext.
  { intros Hle. apply progress_level; [split; lia|lia|]. unfold polls_left. lia. }
  destruct (Z.eqb_spec (r + 1) 1); [|destruct (Z.leb_spec (r + 1) (HARD_RESET_AFTER_RECOVERIES cfg))];
    (eapply triple_bind; [apply Hround|]); intros ?; rewrite bool_decide_eq_false_2 by done.
  - eapply triple_weaken; [apply recover_round; by left|done|]. intros ?. apply Hnext. lia.
  - eapply triple_weaken; [apply recover_round; by right|done|]. intros ?. apply Hnext. lia.
  - eapply triple_weaken; [apply recover_last|done|]. by left.
Qed.

(** The clock has reached the next poll. *)
Definition due (m : manager) : Prop := m_next_poll_ms m <= menv_time env (m_trace m).

Lemma dead_poll_due c r b n :
  config_ok cfg -> level_range c r -> c + 2 < 2147483648 -> polls_left c r <= n ->
  triple (level c r b) (poll_due env cfg) (fun _ => progress n b).
Proof.
  intros Hcfg [Hc Hr] Hc2 Hp. unfold poll_due. eapply triple_bind; [apply dead_poll_status|].
  intros ok. apply triple_pure. intros ->. unfold u32. rewrite !Z.mod_small by (rewrite ?Z.mod_small; lia).
  apply (triple_bind _ _ (fun _ m => level (c + 1) r b m \/ level (c + 1 + 1) r b m)); [keeps_code|intros s].
  apply (triple_bind _ _ (fun _ => progress n b)); [|intros _; apply progress_poll_in]. cbn [negb].
  apply (triple_bind _ _ (fun _ m => level (c + 1) r b m \/ level (c + 1 + 1) r b m)); [keeps_code|intros _].
  intros m [Hm|Hm].
  - apply (dead_recovery (c + 1) r b n Hcfg); [split; lia|lia|unfold polls_left in *; lia|exact Hm].
  - apply (dead_recovery (c + 1 + 1) r b n Hcfg); [split; lia|lia|unfold polls_left in *; lia|exact Hm].
Qed.

Lemma dead_work c r b n :
  config_ok cfg -> level_range c r -> c + 2 < 2147483648 -> polls_left c r <= n ->
  triple (fun m => level c r b m /\ due m) (manager_work env cfg) (fun _ => progress n b).
Proof.
  intros Hcfg Hrange Hc2 Hp m [Hm Hdue].
  assert (manager_work env cfg m
    = (if m_reinitialize_pending m then
         (set_pending false;; ok ← initialize_session env cfg;
          when (negb ok) (schedule_recovery env cfg;; poll_in env (RECOVERY_BACKOFF_MS cfg)))
           (m <| m_trace := ME_now (menv_time env (m_trace m)) :: m_trace m |>)
       else poll_due env cfg (m <| m_trace := ME_now (menv_time env (m_trace m)) :: m_trace m |>))) as ->.
  { unfold manager_work, session_due, when, snapshot_copy, gets, now_ms, mbind, state_bind.
    destruct Hm as ((_ & _ & Ht) & _). rewrite Ht. cbn [negb]. unfold due in Hdue.
    assert ((m_next_poll_ms m <=? menv_time env (m_trace m)) = true) as Hle by lia.
    destruct (m_reinitialize_pending m); cbn [negb mret state_ret];
      change (m_next_poll_ms (m <| m_trace := ?x |>)) with (m_next_poll_ms m); by rewrite Hle. }
  apply (level_grow c r b m (ME_now (menv_time env (m_trace m)))) in Hm.
  destruct (m_reinitialize_pending m); [|by apply (dead_poll_due c r b n)].
  revert Hm. generalize (m <| m_trace := ME_now (menv_time env (m_trace m)) :: m_trace m |>). clear m Hdue.
  change (triple (level c r b) (set_pending false;; ok ← initialize_session env cfg;
    when (negb ok) (schedule_recovery env cfg;; poll_in env (RECOVERY_BACKOFF_MS cfg))) (fun _ => progress n b)).
  apply (triple_bind _ _ (fun _ => level c r b)); [keeps_code|intros _].
  eapply triple_bind; [apply dead_session|]. intros ok. apply triple_pure. intros ->. cbn [negb when].
  destruct Hrange as [Hc Hr]. unfold u32. rewrite Z.mod_small by lia.
  apply (triple_bind _ _ (fun _ => progress n b)); [|intros _; apply progress_poll_in].
  apply (dead_recovery (c + 1) r b n Hcfg); [split; lia|lia|unfold polls_left in *; lia].
Qed.

(** When no event comes, the task wakes up for the next poll; without a
    transport it waits for an event. *)
Definition on_time (m : manager) : Prop :=
  sn_transport_ready (m_snapshot m) = true -> due (next_wait_ticks env m).1.

Lemma dead_turn c r b n :
  config_ok cfg -> level_range c r -> c + 2 < 2147483648 -> polls_left c r <= n ->
  triple (fun m => level c r b m /\ on_time m) (manager_turn env cfg) (fun _ => progress n b).
Proof.
  intros Hcfg Hrange Hc2 Hp. unfold manager_turn.
  apply (triple_bind _ _ (fun _ m => level c r b m /\ due m)).
  { intros m [Hm Hon]. pose proof Hm as ((_ & _ & Ht) & _). split; [|exact (Hon Ht)]. clear Ht. revert Hm. clear Hon. revert m.
    change (keeps (level c r b) (next_wait_ticks env)). keeps_code. }
  intros _. apply (triple_bind _ _ (fun e m => e = None /\ level c r b m /\ due m)).
  { intros m (Hm & Hd). pose proof Hm as ((_ & Hq & _) & _). unfold receive. rewrite Hq. by split_and!. }
  intros e. apply triple_pure. intros ->.
  apply (triple_bind _ _ (fun _ m => level c r b m /\ due m)); [by apply triple_ret|intros _].
  by apply dead_work.
Qed.

(** So many turns in a row, without an event. *)
Inductive idle_turns : nat -> manager -> manager -> Prop :=
  | idle_none m : idle_turns 0 m m
  | idle_turn n m m' : on_time m -> idle_turns n (manager_turn env cfg m).1 m' -> idle_turns (S n) m m'.

Lemma idle_reset n m m' b : idle_turns n m m' -> reset_since b m -> reset_since b m'.
Proof. induction 1 as [m|n m m' _ _ IH]; [done|]. intros H. by apply IH, (since_turn b). Qed.

Lemma idle_progress k m m' c r b :
  config_ok cfg -> idle_turns k m m' -> level_range c r -> c + 2 < 2147483648 -> level c r b m ->
  polls_left c r < Z.of_nat k -> reset_since b m'.
Proof.
  intros Hcfg H. revert c r. induction H as [m|k m m' Hon Hturns IH]; intros c r Hrange Hc2 Hm Hp.
  { destruct Hcfg as (_ & _ & HT & HR & _), Hrange. unfold polls_left in Hp. nia. }
  destruct (dead_turn c r b (Z.of_nat k) Hcfg Hrange Hc2 ltac:(lia) m (conj Hm Hon)) as [Hd|(c' & r' & Hl & Hr' & Hc' & Hp')].
  - exact (idle_reset _ _ _ _ Hturns Hd).
  - destruct Hcfg as (_ & _ & HT & _). apply (IH c' r'); [done|lia|done|lia].
Qed.

(** The turns, computed, and whether the clock is right at each of them. *)
Fixpoint idle_run (n : nat) (m : manager) : manager :=
  match n with O => m | S n' => idle_run n' (manager_turn env cfg m).1 end.

Fixpoint idle_on_time (n : nat) (m : manager) : bool :=
  match n with
  | O => true
  | S n' =>
      (negb (sn_transport_ready (m_snapshot m))
       || (m_next_poll_ms (next_wait_ticks env m).1 <=? menv_time env (m_trace (next_wait_ticks env m).1)))
      && idle_on_time n' (manager_turn env cfg m).1
  end.

Lemma idle_run_turns n m : idle_on_time n m = true -> idle_turns n m (idle_run n m).
Proof.
  revert m. induction n as [|n IH]; intros m; cbn [idle_on_time idle_run]; [constructor|].
  intros [Ht H]%andb_true_iff. constructor; [|by apply IH]. intros Hr. unfold due. rewrite Hr in Ht. cbn in Ht. lia.
Qed.

(** C30. A modem that stops answering is power cycled: when every command
    fails, no event arrives and the board can switch the power, at most
    (rounds + 1) * (failures + 1) polls of the task pass before the hard reset,
    with the numbers of Kconfig; it does not matter which state the manager is
    in, whether a session is pending, and what the clock says. *)
Theorem dead_modem_hard_reset m m' :
  config_ok cfg -> running m -> 0 <= sn_consecutive_failures (m_snapshot m) < 2147483646 ->
  0 <= m_recoveries_since_hard_reset m <= HARD_RESET_AFTER_RECOVERIES cfg ->
  idle_turns (Z.to_nat ((HARD_RESET_AFTER_RECOVERIES cfg + 1) * (FAILURES_BEFORE_RECOVERY cfg + 1))) m m' ->
  (resets (m_trace m) < resets (m_trace m'))%nat.
Proof.
  intros Hcfg Hrun Hf Hr Hturns.
  apply (idle_progress _ m m' (sn_consecutive_failures (m_snapshot m)) (m_recoveries_since_hard_reset m)
           (resets (m_trace m)) Hcfg Hturns); [split; lia|lia|by split_and!|].
  destruct Hcfg as (_ & _ & HT & HR & _). unfold polls_left. rewrite Z2Nat.id by nia. nia.
Qed.

End Dead.

(** A modem that only fails. *)
Definition dead_modem : manager_environment :=
  mk_manager_environment (fun _ _ => (ESP_ERR_TIMEOUT, response_reset)) (fun _ => ESP_OK)
    (fun trace => 60000 * Z.of_nat (length trace)) id.

Definition dead_start : manager :=
  (manager_run dead_modem default_config [OP_TRANSPORT_READY; OP_TURN] (manager_start true true)).1.

Lemma dead_modem_hard_reset_witness :
  (resets (m_trace dead_start) < resets (m_trace (idle_run dead_modem default_config 12 dead_start)))%nat.
Proof.
  apply (dead_modem_hard_reset dead_modem default_config).
  - intros trace r. left. discriminate.
  - exact default_config_ok.
  - repeat split; vm_compute; reflexivity.
  - split; vm_compute; [discriminate|reflexivity].
  - split; vm_compute; discriminate.
  - apply (idle_run_turns dead_modem default_config 12). vm_compute. reflexivity.
Defined.
