(* ===== verification/UsbDescriptor.v ===== *)
(** * Choosing the modem's USB interface (components/usb_modem_transport/
      usb_modem_descriptor.c, huawei_mode_switch.c)

    The serial interfaces of a configuration descriptor, ranked.  A cursor into
    the descriptor is the rest of it. *)

From Stdlib Require Import Sorting.Sorted Sorting.Permutation.
From Stdlib Require Import ZifyBool ZifyNat.
From stdpp Require Import base numbers list.
From S2P Require Import Prelude.

Open Scope Z_scope.

Definition USB_DESC_TYPE_INTERFACE : Z := 0x04.
Definition USB_DESC_TYPE_ENDPOINT : Z := 0x05.
Definition USB_EP_XFER_TYPE_MASK : Z := 0x03.
Definition USB_EP_XFER_BULK : Z := 0x02.
Definition USB_EP_XFER_INTERRUPT : Z := 0x03.
Definition USB_EP_DIR_IN : Z := 0x80.
Definition USB_VENDOR_SPECIFIC_CLASS : Z := 0xFF.

Record modem_usb_candidate_t := mk_candidate {
  interface_number : Z;
  interface_class : Z;
  interface_subclass : Z;
  interface_protocol : Z;
  bulk_in_ep : Z;
  bulk_out_ep : Z;
  interrupt_in_ep : Z;
  score : Z;
}.

#[export] Instance eta_candidate : Eta modem_usb_candidate_t := fun c =>
  mk_candidate (interface_number c) (interface_class c) (interface_subclass c) (interface_protocol c)
    (bulk_in_ep c) (bulk_out_ep c) (interrupt_in_ep c) (score c).

Definition candidate_score (candidate : modem_usb_candidate_t) : Z :=
  let score := 10 in
  let score :=
    if interface_protocol candidate =? 0x01 then u8 (score + 100)
    else if interface_protocol candidate =? 0x12 then u8 (score + 50)
    else score in
  if negb (interrupt_in_ep candidate =? 0) then u8 (score + 10) else score.

(** The inner loop of the sort: [sorted] is the part of the array in front of
    [current], the last element first. *)
Fixpoint insert_candidate (current : modem_usb_candidate_t) (sorted : list modem_usb_candidate_t)
  : list modem_usb_candidate_t :=
  match sorted with
  | x :: sorted' => if score x <? score current then x :: insert_candidate current sorted' else current :: sorted
  | [] => [current]
  end.

Definition sort_candidates (candidates : list modem_usb_candidate_t) : list modem_usb_candidate_t :=
  rev (fold_left (fun sorted current => insert_candidate current sorted) candidates []).

Definition add_candidate (max_candidates : nat) (candidates : list modem_usb_candidate_t)
    (candidate : modem_usb_candidate_t) : list modem_usb_candidate_t :=
  if negb (interface_class candidate =? USB_VENDOR_SPECIFIC_CLASS)
     || (bulk_in_ep candidate =? 0) || (bulk_out_ep candidate =? 0)
     || (max_candidates <=? length candidates)%nat
  then candidates
  else candidates ++ [candidate <| score := candidate_score candidate |>].

(** The local variables of the loop. *)
Record usb_scan := mk_usb_scan {
  current : modem_usb_candidate_t;
  collecting : bool;
  found : list modem_usb_candidate_t;
}.

Definition candidate_zero : modem_usb_candidate_t := mk_candidate 0 0 0 0 0 0 0 0.

(** A new interface descriptor. *)
Definition interface_candidate (cursor : list Z) : modem_usb_candidate_t :=
  mk_candidate cursor.[2] cursor.[5] cursor.[6] cursor.[7] 0 0 0 0.

Definition is_interface (cursor : list Z) : bool := (cursor.[1] =? USB_DESC_TYPE_INTERFACE) && (9 <=? cursor.[0]).
Definition is_endpoint (cursor : list Z) : bool := (cursor.[1] =? USB_DESC_TYPE_ENDPOINT) && (7 <=? cursor.[0]).

Definition endpoint_step (cursor : list Z) (current : modem_usb_candidate_t) : modem_usb_candidate_t :=
  let address := cursor.[2] in
  let transfer_type := Z.land cursor.[3] USB_EP_XFER_TYPE_MASK in
  if transfer_type =? USB_EP_XFER_BULK then
    if negb (Z.land address USB_EP_DIR_IN =? 0) then current <| bulk_in_ep := address |>
    else current <| bulk_out_ep := address |>
  else if (transfer_type =? USB_EP_XFER_INTERRUPT) && negb (Z.land address USB_EP_DIR_IN =? 0)
  then current <| interrupt_in_ep := address |>
  else current.

Definition collects (cursor : list Z) : bool :=
  (cursor.[3] =? 0) && (interface_class (interface_candidate cursor) =? USB_VENDOR_SPECIFIC_CLASS).

(** [if (collecting) add_candidate(...)] *)
Definition flush (max_candidates : nat) (s : usb_scan) : list modem_usb_candidate_t :=
  if collecting s then add_candidate max_candidates (found s) (current s) else found s.

Definition descriptor_step (max_candidates : nat) (s : usb_scan) (cursor : list Z) : usb_scan :=
  if is_interface cursor then
    mk_usb_scan (interface_candidate cursor) (collects cursor) (flush max_candidates s)
  else if is_endpoint cursor && collecting s then
    mk_usb_scan (endpoint_step cursor (current s)) (collecting s) (found s)
  else s.

(** The loop, [None] when the fuel runs out. *)
Fixpoint descriptor_loop (fuel max_candidates : nat) (cursor : list Z) (s : usb_scan) : option usb_scan :=
  match fuel with
  | O => None
  | S fuel' =>
      if negb (2 <=? length cursor)%nat then Some s
      else
        let len := Z.to_nat cursor.[0] in
        if (len <? 2)%nat || (length cursor <? len)%nat then Some s
        else descriptor_loop fuel' max_candidates (drop len cursor) (descriptor_step max_candidates s cursor)
  end.

(** The ranked candidates; their number is the result of the function.
    [descriptor] is NULL for [None], [candidates] is NULL for [false]. *)
Definition modem_usb_find_serial_candidates (descriptor : option (list Z)) (candidates : bool) (max_candidates : nat)
  : option (list modem_usb_candidate_t) :=
  match descriptor with
  | Some descriptor =>
      if negb candidates || (max_candidates =? 0)%nat then Some []
      else
        s ← descriptor_loop (S (length descriptor)) max_candidates descriptor (mk_usb_scan candidate_zero false []);
        Some (sort_candidates (flush max_candidates s))
  | None => Some []
  end.

(** ** The mode switch *)

Definition HUAWEI_MODE_SWITCH_MESSAGE_LEN : nat := 31.

Definition huawei_mode_switch_pid_supported (pid extra_pid : Z) : bool :=
  (pid =? 0x1446) || (pid =? 0x14FE) || (pid =? 0x1F01) || (negb (extra_pid =? 0) && (pid =? extra_pid)).

Definition huawei_modem_pid_supported (pid configured_pid : Z) : bool :=
  (pid =? configured_pid) || (pid =? 0x1506) || (pid =? 0x1442).

Definition mode_switch_bytes : list Z :=
  [0x55; 0x53; 0x42; 0x43; 0x12; 0x34; 0x56; 0x78;
   0x00; 0x00; 0x00; 0x00; 0x00; 0x00; 0x00; 0x11;
   0x06; 0x20; 0x00; 0x00; 0x01; 0x01; 0x00; 0x01;
   0x00; 0x00; 0x00; 0x00; 0x00; 0x00; 0x00].

(** [out] after the call, and the result. *)
Definition huawei_mode_switch_message (out : option (list Z)) : option (list Z) * bool :=
  match out with
  | Some buffer =>
      if (length buffer <? HUAWEI_MODE_SWITCH_MESSAGE_LEN)%nat then (out, false)
      else (Some (mode_switch_bytes ++ drop HUAWEI_MODE_SWITCH_MESSAGE_LEN buffer), true)
  | None => (None, false)
  end.

Example mode_switch_length : length mode_switch_bytes = HUAWEI_MODE_SWITCH_MESSAGE_LEN.
Proof. reflexivity. Qed.

(** ** Choosing the modem's USB interface: the candidates and their order

    [groups] reads a list of descriptors the way the USB specification defines
    it: an interface and the descriptors that belong to it.  The loop over the
    bytes finds the candidates of the groups, and the sort ranks them. *)

(** ** The descriptors of a configuration *)

Definition descriptor_ok (d : list Z) : Prop := (2 <= length d)%nat /\ d.[0] = Z.of_nat (length d).

(** Where the loop stops: nothing that could be a descriptor follows. *)
Definition ends (tail : list Z) : Prop :=
  (length tail < 2)%nat \/ (Z.to_nat tail.[0] < 2)%nat \/ (length tail < Z.to_nat tail.[0])%nat.

(** The descriptors in front of the first interface, and each interface with
    the descriptors up to the next one. *)
Fixpoint groups (ds : list (list Z)) : list (list Z) * list (list Z * list (list Z)) :=
  match ds with
  | [] => ([], [])
  | d :: ds =>
      let '(lead, gs) := groups ds in
      if is_interface d then ([], (d, lead) :: gs) else (d :: lead, gs)
  end.

Definition endpoints (lead : list (list Z)) (c : modem_usb_candidate_t) : modem_usb_candidate_t :=
  fold_left (fun c d => if is_endpoint d then endpoint_step d c else c) lead c.

(** A serial interface has a bulk endpoint in each direction. *)
Definition eligible (c : modem_usb_candidate_t) : list modem_usb_candidate_t :=
  if negb (interface_class c =? USB_VENDOR_SPECIFIC_CLASS) || (bulk_in_ep c =? 0) || (bulk_out_ep c =? 0)
  then [] else [c <| score := candidate_score c |>].

Definition group_candidates (g : list Z * list (list Z)) : list modem_usb_candidate_t :=
  if collects g.1 then eligible (endpoints g.2 (interface_candidate g.1)) else [].

Definition serial_candidates (ds : list (list Z)) : list modem_usb_candidate_t :=
  (groups ds).2 ≫= group_candidates.

(** ** The loop reads the descriptors *)

Lemma byte_at_app (d rest : list Z) i : (i < length d)%nat -> (d ++ rest).[i] = d.[i].
Proof. intros H. unfold byte_at. by apply app_nth1. Qed.

Lemma descriptor_step_app m s d rest :
  descriptor_ok d -> descriptor_step m s (d ++ rest) = descriptor_step m s d.
Proof.
  intros [Hl H0]. unfold descriptor_step, is_interface, is_endpoint, collects, interface_candidate, endpoint_step.
  rewrite (byte_at_app d rest 0), (byte_at_app d rest 1) by lia.
  destruct ((d.[1] =? USB_DESC_TYPE_INTERFACE) && (9 <=? d.[0])) eqn:Ei.
  { assert (9 <= length d)%nat by lia.
    by rewrite (byte_at_app d rest 2), (byte_at_app d rest 3), (byte_at_app d rest 5), (byte_at_app d rest 6),
      (byte_at_app d rest 7) by lia. }
  destruct ((d.[1] =? USB_DESC_TYPE_ENDPOINT) && (7 <=? d.[0])) eqn:Ee; [|done].
  assert (7 <= length d)%nat by lia.
  by rewrite (byte_at_app d rest 2), (byte_at_app d rest 3) by lia.
Qed.

Lemma descriptor_loop_read fuel m ds tail s :
  Forall descriptor_ok ds -> ends tail -> (length (concat ds ++ tail) < fuel)%nat ->
  descriptor_loop fuel m (concat ds ++ tail) s = Some (fold_left (descriptor_step m) ds s).
Proof.
  intros Hds Ht. revert fuel s. induction Hds as [|d ds Hd _ IH]; intros [|fuel] s Hf; try lia; cbn [descriptor_loop].
  - cbn [concat app]. destruct (Nat.leb_spec 2 (length tail)); cbn [negb]; [|done].
    by replace ((Z.to_nat tail.[0] <? 2)%nat || (length tail <? Z.to_nat tail.[0])%nat) with true
      by (destruct Ht as [?|[?|?]]; lia).
  - cbn [concat] in *. rewrite <- app_assoc in *. pose proof Hd as [Hl H0]. rewrite (length_app d) in *.
    rewrite byte_at_app by lia. rewrite H0, Nat2Z.id.
    replace (negb (2 <=? length d + length (concat ds ++ tail))%nat) with false by lia.
    replace ((length d <? 2)%nat || (length d + length (concat ds ++ tail) <? length d)%nat) with false by lia.
    rewrite drop_app_length, descriptor_step_app by done. cbn [fold_left]. apply IH. lia.
Qed.

(** Every text of bytes is such a list. *)
Lemma descriptors_exist l : exists ds tail, l = concat ds ++ tail /\ Forall descriptor_ok ds /\ ends tail.
Proof.
  remember (length l) as n eqn:E. revert l E. induction (Nat.lt_wf_0 n) as [n _ IH]. intros l ->.
  destruct (decide (ends l)) as [Hend|Hgo]; [by exists [], l|].
  assert (2 <= Z.to_nat l.[0] <= length l)%nat as Hlen by (unfold ends in Hgo; lia).
  destruct (IH (length (drop (Z.to_nat l.[0]) l)) ltac:(rewrite length_drop; lia) _ eq_refl)
    as (ds & tail & E & Hds & Ht).
  exists (take (Z.to_nat l.[0]) l :: ds), tail. split_and!; [|constructor; [|done]|done].
  - cbn [concat]. by rewrite <- app_assoc, <- E, take_drop.
  - split; [rewrite length_take; lia|]. rewrite length_take, Nat.min_l by lia.
    unfold byte_at in *. rewrite nth_firstn.
    replace (0 <? Z.to_nat (nth 0 l 0%Z))%nat with true by lia. lia.
Qed.

(** ** The candidates of the groups *)

Lemma add_candidate_take m l c :
  (length l <= m)%nat -> add_candidate m l c = take m (l ++ eligible c).
Proof.
  intros Hl. unfold add_candidate, eligible. destruct (negb _ || _ || _) eqn:E; cbn [orb].
  { by rewrite app_nil_r, take_ge. }
  destruct (Nat.leb_spec m (length l)).
  - rewrite take_app_le by lia. by rewrite take_ge by lia.
  - rewrite take_ge; [done|]. rewrite length_app. cbn. lia.
Qed.

Lemma take_app_take {A} n (l k : list A) : take n (take n l ++ k) = take n (l ++ k).
Proof.
  destruct (Nat.le_gt_cases n (length l)) as [H|H].
  - rewrite !take_app_le by (rewrite ?length_take; lia). by rewrite take_take, Nat.min_id.
  - by rewrite (take_ge l) by lia.
Qed.

(** What the open interface becomes when [lead] follows it. *)
Definition open_candidate (s : usb_scan) (lead : list (list Z)) : list modem_usb_candidate_t :=
  if collecting s then eligible (endpoints lead (current s)) else [].

Lemma flush_take m s : (length (found s) <= m)%nat -> flush m s = take m (found s ++ open_candidate s []).
Proof.
  intros H. unfold flush, open_candidate. destruct (collecting s); [by apply add_candidate_take|].
  by rewrite app_nil_r, take_ge.
Qed.

Lemma flush_fold m ds s :
  (length (found s) <= m)%nat ->
  flush m (fold_left (descriptor_step m) ds s)
  = take m (found s ++ open_candidate s (groups ds).1 ++ serial_candidates ds).
Proof.
  revert s. induction ds as [|d ds IH]; intros s Hl; cbn [fold_left].
  { rewrite flush_take by done. by rewrite app_nil_r. }
  rewrite IH.
  2: { unfold descriptor_step. repeat case_match; cbn [found]; try done. rewrite flush_take by done.
       rewrite length_take. lia. }
  unfold serial_candidates. cbn [groups]. destruct (groups ds) as [lead gs]. unfold descriptor_step.
  destruct (is_interface d) eqn:Ei; cbn [fst snd found].
  - rewrite flush_take by done. rewrite take_app_take, <- app_assoc. by cbn.
  - destruct (is_endpoint d) eqn:Ee; cbn [andb]; [destruct (collecting s) eqn:Ec|]; cbn [found].
    + unfold open_candidate. cbn [collecting current]. rewrite Ec. unfold endpoints. cbn [fold_left]. by rewrite Ee.
    + unfold open_candidate. by rewrite Ec.
    + unfold open_candidate, endpoints. cbn [fold_left]. by rewrite Ee.
Qed.

(** ** The order *)

Definition better (a b : modem_usb_candidate_t) : Prop := score b <= score a.

Lemma insert_candidate_perm c l : insert_candidate c l ≡ₚ c :: l.
Proof.
  induction l as [|x l IH]; cbn [insert_candidate]; [done|]. case_match; [|done]. rewrite IH. constructor.
Qed.

Lemma insert_candidate_sorted c l :
  StronglySorted (fun a b => better b a) l -> StronglySorted (fun a b => better b a) (insert_candidate c l).
Proof.
  induction 1 as [|x l Hl IH Hx]; cbn [insert_candidate]; [repeat constructor|].
  destruct (Z.ltb_spec (score x) (score c)) as [Hlt|Hge].
  - constructor; [exact IH|]. rewrite insert_candidate_perm. constructor; [unfold better; lia|done].
  - constructor; [by constructor|]. constructor; [unfold better; lia|].
    eapply Forall_impl; [exact Hx|]. unfold better. intros y. lia.
Qed.

Lemma insert_candidate_stable k c l :
  filter (fun x => score x = k) (insert_candidate c l) = filter (fun x => score x = k) (c :: l).
Proof.
  induction l as [|x l IH]; cbn [insert_candidate]; [done|].
  destruct (Z.ltb_spec (score x) (score c)); [|done]. rewrite filter_cons, IH, !filter_cons.
  repeat case_decide; done || lia.
Qed.

Lemma sort_fold_spec l acc :
  StronglySorted (fun a b => better b a) acc ->
  let r := fold_left (fun sorted current => insert_candidate current sorted) l acc in
  r ≡ₚ rev l ++ acc /\ StronglySorted (fun a b => better b a) r /\
  forall k, filter (fun x => score x = k) r = filter (fun x => score x = k) (rev l ++ acc).
Proof.
  revert acc. induction l as [|c l IH]; intros acc Hacc; cbn [fold_left rev]; [done|].
  destruct (IH (insert_candidate c acc)) as (Hp & Hs & Hf); [by apply insert_candidate_sorted|].
  split_and!; [|done|].
  - cbn zeta. rewrite Hp, insert_candidate_perm. by rewrite <- app_assoc.
  - intros k. rewrite Hf, filter_app, insert_candidate_stable, <- filter_app. by rewrite <- app_assoc.
Qed.

Lemma filter_rev {A} (P : A -> Prop) `{forall x, Decision (P x)} l : filter P (rev l) = rev (filter P l).
Proof.
  induction l as [|x l IH]; cbn [rev]; [done|]. rewrite filter_app, IH, !filter_cons, filter_nil.
  case_decide; cbn; [done|by rewrite app_nil_r].
Qed.

Lemma ranked_rev l : StronglySorted (fun a b => better b a) l -> StronglySorted better (rev l).
Proof.
  induction 1 as [|x l Hl IH Hx]; cbn [rev]; [constructor|]. clear Hl.
  assert (Forall (fun y => better y x) (rev l)) as Hx' by by apply Forall_rev.
  revert IH Hx'. generalize (rev l). clear. intros l Hl. induction Hl as [|y l Hl IH Hy]; intros Hx; cbn [app].
  - by repeat constructor.
  - apply Forall_cons in Hx as [Hyx Hx]. constructor; [by apply IH|]. apply Forall_app_2; [done|by constructor].
Qed.

Lemma sort_candidates_spec l :
  sort_candidates l ≡ₚ l /\ StronglySorted better (sort_candidates l) /\
  forall k, filter (fun x => score x = k) (sort_candidates l) = filter (fun x => score x = k) l.
Proof.
  destruct (sort_fold_spec l [] ltac:(constructor)) as (Hp & Hs & Hf). rewrite app_nil_r in Hp, Hf.
  unfold sort_candidates. split_and!.
  - rewrite <- (Permutation_rev (fold_left _ l [])), Hp. symmetry. apply Permutation_rev.
  - by apply ranked_rev.
  - intros k. by rewrite filter_rev, Hf, filter_rev, rev_involutive.
Qed.

(** For every text of bytes the search ends and stays inside the text: the
    text is a sequence of descriptors and a rest that is none, and the result
    depends on the descriptors alone.  It holds the serial interfaces among
    them, as many as fit, ranked by their score, and in the order of the
    descriptors where the scores are equal. *)
Theorem serial_candidates_ranked descriptor max_candidates :
  (0 < max_candidates)%nat ->
  exists ds tail out,
    descriptor = concat ds ++ tail /\ Forall descriptor_ok ds /\ ends tail /\
    modem_usb_find_serial_candidates (Some descriptor) true max_candidates = Some out /\
    out ≡ₚ take max_candidates (serial_candidates ds) /\ StronglySorted better out /\
    forall k, filter (fun x => score x = k) out
              = filter (fun x => score x = k) (take max_candidates (serial_candidates ds)).
Proof.
  intros Hm. destruct (descriptors_exist descriptor) as (ds & tail & -> & Hds & Ht).
  exists ds, tail, (sort_candidates (take max_candidates (serial_candidates ds))).
  destruct (sort_candidates_spec (take max_candidates (serial_candidates ds))) as (Hp & Hs & Hf).
  split_and!; try done. unfold modem_usb_find_serial_candidates.
  replace (negb true || (max_candidates =? 0)%nat) with false by (cbn; lia).
  rewrite descriptor_loop_read by (done || lia). cbn [mbind option_bind].
  by rewrite flush_fold by (cbn; lia).
Qed.

(** A configuration with a mass storage interface and two serial ones, of
    which the second is the AT port. *)
Definition sample_configuration : list Z :=
  [9; 2; 78; 0; 3; 1; 0; 128; 250]
  ++ [9; 4; 0; 0; 2; 8; 6; 80; 0] ++ [7; 5; 129; 2; 0; 2; 0] ++ [7; 5; 1; 2; 0; 2; 0]
  ++ [9; 4; 1; 0; 2; 255; 2; 18; 0] ++ [7; 5; 130; 2; 0; 2; 0] ++ [7; 5; 2; 2; 0; 2; 0]
  ++ [9; 4; 2; 0; 3; 255; 2; 1; 0] ++ [7; 5; 131; 3; 16; 0; 5] ++ [7; 5; 132; 2; 0; 2; 0] ++ [7; 5; 3; 2; 0; 2; 0].

Example sample_ranked :
  option_map (map interface_number) (modem_usb_find_serial_candidates (Some sample_configuration) true 4)
  = Some [2; 1].
Proof. vm_compute. reflexivity. Qed.

Lemma serial_candidates_ranked_witness :
  exists ds tail out,
    sample_configuration = concat ds ++ tail /\ Forall descriptor_ok ds /\ ends tail /\
    modem_usb_find_serial_candidates (Some sample_configuration) true 4 = Some out /\
    out ≡ₚ take 4 (serial_candidates ds) /\ StronglySorted better out /\
    forall k, filter (fun x => score x = k) out = filter (fun x => score x = k) (take 4 (serial_candidates ds)).
Proof. apply (serial_candidates_ranked sample_configuration 4). lia. Defined.
