(* ===== verification/UsbTransport.v ===== *)
(** * The USB transport (components/usb_modem_transport/usb_modem_transport.c)

    The worker that opens and probes the serial interfaces of a modem, the
    callbacks of the CDC driver, and the mode switch of cold modems.  The CDC
    driver calls back from a task of its own: where the worker waits for the
    driver, the callbacks that run meanwhile are an answer of the
    [usb_environment] ([interrupt]).  A handle is a number, NULL is [None]; the
    user argument of a callback is its generation. *)

From Stdlib Require Import Ascii String.
From Stdlib Require Import ZifyBool ZifyNat.
From stdpp Require Import base numbers list strings.
From S2P Require Import Prelude.
From S2P Require Import StateMonad.
From S2P Require Import UsbDescriptor.

Open Scope Z_scope.

Definition MODEM_USB_MAX_CANDIDATES : nat := 4.
Definition MODEM_USB_QUEUE_DEPTH : nat := 8.
Definition HUAWEI_USB_VID : Z := 0x12d1.

(** The settings of the build. *)
Record usb_config := mk_usb_config {
  CONFIG_GATEWAY_MODEM_USB_VID : Z;
  CONFIG_GATEWAY_MODEM_USB_PID : Z;
  CONFIG_GATEWAY_MODEM_USB_SWITCH_PID_EXTRA : Z;
  CONFIG_GATEWAY_MODEM_USB_PROBE_RETRIES : nat;
}.

Inductive modem_usb_event_t :=
  | MODEM_USB_EVENT_HOST_READY
  | MODEM_USB_EVENT_DEVICE_FOUND
  | MODEM_USB_EVENT_PROBING
  | MODEM_USB_EVENT_AT_READY
  | MODEM_USB_EVENT_DISCONNECTED
  | MODEM_USB_EVENT_ERROR.

Record modem_usb_diagnostics_t := mk_usb_diag {
  ud_host_ready : bool;
  ud_device_present : bool;
  ud_at_ready : bool;
  ud_vid : Z;
  ud_pid : Z;
  ud_interface_number : Z;
  ud_interface_class : Z;
  ud_interface_subclass : Z;
  ud_interface_protocol : Z;
  ud_bulk_in_ep : Z;
  ud_bulk_out_ep : Z;
  ud_interrupt_in_ep : Z;
  ud_connect_count : Z;
  ud_disconnect_count : Z;
  ud_probe_attempts : Z;
  ud_open_failures : Z;
  ud_mode_switch_attempts : Z;
  ud_mode_switch_successes : Z;
  ud_mode_switch_failures : Z;
  ud_last_error : esp_err_t;
}.

#[export] Instance eta_usb_diag : Eta modem_usb_diagnostics_t := fun d =>
  mk_usb_diag (ud_host_ready d) (ud_device_present d) (ud_at_ready d) (ud_vid d) (ud_pid d) (ud_interface_number d)
    (ud_interface_class d) (ud_interface_subclass d) (ud_interface_protocol d) (ud_bulk_in_ep d) (ud_bulk_out_ep d)
    (ud_interrupt_in_ep d) (ud_connect_count d) (ud_disconnect_count d) (ud_probe_attempts d) (ud_open_failures d)
    (ud_mode_switch_attempts d) (ud_mode_switch_successes d) (ud_mode_switch_failures d) (ud_last_error d).

(** [data.device] of a [work_event_t]; [count] is the number of candidates. *)
Record work_device := mk_work_device {
  wd_vid : Z;
  wd_pid : Z;
  wd_candidates : list modem_usb_candidate_t;
}.

Inductive work_event_t :=
  | WORK_EVENT_HOST_READY
  | WORK_EVENT_DEVICE_FOUND (device : work_device)
  | WORK_EVENT_DISCONNECTED (handle : Z)
  | WORK_EVENT_ERROR (error : esp_err_t) (generation : Z).

(** What the transport did to the rest of the world, the last one first. *)
Inductive usb_effect :=
  | UE_asked
  | UE_event (event : modem_usb_event_t) (diagnostics : modem_usb_diagnostics_t)
  | UE_open (vid pid interface generation : Z) (result : esp_err_t + Z)
  | UE_tx (handle : Z) (data : list Z) (err : esp_err_t)
  | UE_close (handle : Z)
  | UE_at_ok (generation : Z)
  | UE_rx (generation : Z) (data : list Z)
  | UE_delay (ms : Z).

Record usb := mk_usb {
  us_started : bool;
  us_probing : bool;
  us_cdc_handle : option Z;
  us_work_queue : option (list work_event_t);
  us_probe_events : bool;
  us_at_ok : bool;
  us_device_gone : bool;
  us_transport_error : bool;
  us_io_mutex : bool;
  us_worker_task : bool;
  us_host_task : bool;
  us_mode_switch_task : bool;
  us_event_cb : bool;
  us_rx_cb : bool;
  us_diagnostics : modem_usb_diagnostics_t;
  us_probe_line : list Z;
  us_probe_line_len : nat;
  us_next_generation : Z;
  us_active_generation : Z;
  us_last_device : work_device;
  us_last_device_valid : bool;
  us_trace : list usb_effect;
}.

#[export] Instance eta_usb : Eta usb := fun s =>
  mk_usb (us_started s) (us_probing s) (us_cdc_handle s) (us_work_queue s) (us_probe_events s) (us_at_ok s)
    (us_device_gone s) (us_transport_error s) (us_io_mutex s) (us_worker_task s) (us_host_task s)
    (us_mode_switch_task s) (us_event_cb s) (us_rx_cb s) (us_diagnostics s) (us_probe_line s) (us_probe_line_len s)
    (us_next_generation s) (us_active_generation s) (us_last_device s) (us_last_device_valid s) (us_trace s).

Definition usb_diag_zero : modem_usb_diagnostics_t :=
  mk_usb_diag false false false 0 0 0 0 0 0 0 0 0 0 0 0 0 0 0 0 ESP_OK.

Definition usb_zero : usb :=
  mk_usb false false None None false false false false false false false false false false usb_diag_zero (replicate 32 0) 0
    0 0 (mk_work_device 0 0 []) false [].

Abbreviation M := (State usb).

Definition usb_log (e : usb_effect) : M unit := modify (fun s => s <| us_trace := e :: us_trace s |>).

(** What the driver reports about an open device. *)
Inductive cdc_event :=
  | CDC_ACM_HOST_DEVICE_DISCONNECTED (handle : Z)
  | CDC_ACM_HOST_ERROR
  | CDC_ACM_HOST_SERIAL_STATE
  | CDC_ACM_HOST_NETWORK_CONNECTION
  | CDC_OTHER.

(** A device that was plugged in: vendor and product, and the bytes of its
    active configuration, where they can be read. *)
Record usb_device := mk_usb_device {
  dv_ids : option (Z * Z);
  dv_config : option (list Z);
}.

(** What other tasks run: the driver's callbacks, and writes of the AT
    engine. *)
Inductive usb_call :=
  | UC_rx (data : list Z) (generation : Z)
  | UC_event (event : option cdc_event) (generation : Z)
  | UC_new_device (device : usb_device)
  | UC_write (data : option (list Z)).

(** The answers of [cdc_acm_host_open], [cdc_acm_host_data_tx_blocking] and the
    mutex, and the calls of other tasks during a wait; they may depend on all
    that happened. *)
Record usb_environment := mk_usb_env {
  uenv_open : list usb_effect -> esp_err_t + Z;
  uenv_tx : list usb_effect -> esp_err_t;
  uenv_mutex : list usb_effect -> bool;
  uenv_calls : list usb_effect -> list usb_call;
}.

(** ** Diagnostics and events *)

Definition update_diagnostics (f : modem_usb_diagnostics_t -> modem_usb_diagnostics_t) : M unit :=
  modify (fun s => s <| us_diagnostics := f (us_diagnostics s) |>).

Definition diagnostics_set_error (error : esp_err_t) : M unit := update_diagnostics (fun d => d <| ud_last_error := error |>).

Definition emit_event (event : modem_usb_event_t) : M unit :=
  cb ← gets us_event_cb;
  when cb (d ← gets us_diagnostics; usb_log (UE_event event d)).

(** [xQueueSend] without waiting; a full queue drops the event. *)
Definition work_send (event : work_event_t) : M unit :=
  modify (fun s =>
    match us_work_queue s with
    | Some q => if (length q <? MODEM_USB_QUEUE_DEPTH)%nat then s <| us_work_queue := Some (q ++ [event]) |> else s
    | None => s
    end).

(** ** A new device *)

Definition new_usb_device_callback (cfg : usb_config) (dev : usb_device) : M unit :=
  match dv_ids dev with
  | None => mret tt
  | Some (vid, pid) =>
      if negb (vid =? CONFIG_GATEWAY_MODEM_USB_VID cfg)
         || negb (huawei_modem_pid_supported pid (CONFIG_GATEWAY_MODEM_USB_PID cfg))
      then mret tt
      else
        match dv_config dev with
        | None => mret tt
        | Some config =>
            let candidates :=
              default [] (modem_usb_find_serial_candidates (Some config) true MODEM_USB_MAX_CANDIDATES) in
            work_send (WORK_EVENT_DEVICE_FOUND (mk_work_device vid pid candidates))
        end
  end.

(** ** Received bytes *)

Definition reset_probe_parser : M unit :=
  modify (fun s => s <| us_probe_line_len := 0%nat |> <| us_probe_line := <[0%nat := 0]> (us_probe_line s) |>
                     <| us_probing := true |>);;
  modify (fun s => s <| us_at_ok := false |>).

Definition stop_probe_parser : M unit :=
  modify (fun s => s <| us_probing := false |> <| us_probe_line_len := 0%nat |>).

(** The line, its length, and whether it was OK. *)
Definition probe_byte (p : list Z * nat * bool) (ch : Z) : list Z * nat * bool :=
  let '(line, len, found_ok) := p in
  if ch =? 13 then p
  else if ch =? 10 then
    let line := <[len := 0]> line in
    (line, 0%nat, found_ok || streq line (str "OK"))
  else if (len + 1 <? length line)%nat then (<[len := ch]> line, S len, found_ok)
  else (line, 0%nat, found_ok).

Definition probe_bytes (data : list Z) (line : list Z) (len : nat) : list Z * nat * bool :=
  fold_left probe_byte data (line, len, false).

(** [generation != 0 && generation == s_usb.active_generation] *)
Definition current_generation (generation : Z) (s : usb) : bool :=
  negb (generation =? 0) && (generation =? us_active_generation s).

Definition cdc_rx_callback (data : list Z) (generation : Z) : M unit :=
  current ← gets (current_generation generation);
  if negb current then mret tt
  else
    found_ok ← (fun s =>
      if us_probing s then
        let '(line, len, found_ok) := probe_bytes data (us_probe_line s) (us_probe_line_len s) in
        (s <| us_probe_line := line |> <| us_probe_line_len := len |>, found_ok)
      else (s, false));
    when found_ok (usb_log (UE_at_ok generation);; modify (fun s => s <| us_at_ok := true |>));;
    forward_rx ← gets (fun s => negb (us_probing s) && ud_at_ready (us_diagnostics s) && us_rx_cb s);
    when forward_rx (usb_log (UE_rx generation data)).

Definition cdc_device_event_callback (event : option cdc_event) (generation : Z) : M unit :=
  match event with
  | None => mret tt
  | Some event =>
      current ← gets (current_generation generation);
      if negb current then mret tt
      else
        match event with
        | CDC_ACM_HOST_DEVICE_DISCONNECTED handle =>
            update_diagnostics (fun d => d <| ud_at_ready := false |> <| ud_device_present := false |>);;
            modify (fun s => if us_probe_events s then s <| us_device_gone := true |> else s);;
            work_send (WORK_EVENT_DISCONNECTED handle)
        | CDC_ACM_HOST_ERROR =>
            update_diagnostics (fun d => d <| ud_at_ready := false |> <| ud_last_error := ESP_FAIL |>);;
            modify (fun s => if us_probe_events s then s <| us_transport_error := true |> else s);;
            work_send (WORK_EVENT_ERROR ESP_FAIL generation)
        | _ => mret tt
        end
  end.

Section Transport.

Variable cfg : usb_config.
Variable env : usb_environment.

(** ** Writing and closing *)

(** [data] is NULL for [None]. *)
Definition write_open_handle (data : option (list Z)) : M esp_err_t :=
  match data with
  | Some ((_ :: _) as data) =>
      mutex ← gets us_io_mutex;
      if negb mutex then mret ESP_ERR_INVALID_STATE
      else
        usb_log UE_asked;;
        taken ← gets (fun s => uenv_mutex env (us_trace s));
        if negb taken then mret ESP_ERR_TIMEOUT
        else
          handle ← gets us_cdc_handle;
          match handle with
          | Some handle =>
              err ← gets (fun s => uenv_tx env (us_trace s));
              usb_log (UE_tx handle data err);;
              mret err
          | None => mret ESP_ERR_INVALID_STATE
          end
  | _ => mret ESP_ERR_INVALID_ARG
  end.

Definition close_current_handle (expected_handle : option Z) : M unit :=
  mutex ← gets us_io_mutex;
  if negb mutex then mret tt
  else
    handle ← gets us_cdc_handle;
    match handle with
    | Some handle =>
        if bool_decide (expected_handle = None) || bool_decide (expected_handle = Some handle) then
          modify (fun s => s <| us_cdc_handle := None |> <| us_active_generation := 0 |>);;
          usb_log (UE_close handle)
        else mret tt
    | None => mret tt
    end.

Definition modem_usb_transport_write (data : option (list Z)) : M esp_err_t :=
  ready ← gets (fun s => ud_at_ready (us_diagnostics s));
  if negb (ready : bool) then mret ESP_ERR_INVALID_STATE else write_open_handle data.

Definition modem_usb_transport_is_ready : M bool := gets (fun s => ud_at_ready (us_diagnostics s)).

(** [out] is not NULL for [true]. *)
Definition modem_usb_transport_get_diagnostics (out : bool) (s : usb) : esp_err_t + modem_usb_diagnostics_t :=
  if negb out then inl ESP_ERR_INVALID_ARG else inr (us_diagnostics s).

Definition modem_usb_transport_set_rx_callback (rx_cb : bool) : M esp_err_t :=
  modify (fun s => s <| us_rx_cb := rx_cb |>);; mret ESP_OK.

(** ** Other tasks *)

Definition usb_call_run (call : usb_call) : M unit :=
  match call with
  | UC_rx data generation => cdc_rx_callback data generation
  | UC_event event generation => cdc_device_event_callback event generation
  | UC_new_device device => new_usb_device_callback cfg device
  | UC_write data => modem_usb_transport_write data;; mret tt
  end.

Fixpoint usb_calls_run (calls : list usb_call) : M unit :=
  match calls with
  | [] => mret tt
  | call :: calls => usb_call_run call;; usb_calls_run calls
  end.

(** The worker waits. *)
Definition interrupt : M unit :=
  usb_log UE_asked;;
  calls ← gets (fun s => uenv_calls env (us_trace s));
  usb_calls_run calls.

(** ** Probing *)

Definition new_generation : M Z :=
  modify (fun s => s <| us_next_generation := u32 (us_next_generation s + 1) |>);;
  generation ← gets us_next_generation;
  when (generation =? 0) (modify (fun s => s <| us_next_generation := u32 (us_next_generation s + 1) |>));;
  generation ← gets us_next_generation;
  modify (fun s => s <| us_active_generation := generation |>);;
  mret generation.

(** The bits waited for, which are cleared. *)
Definition probe_bits (s : usb) : bool * bool * bool := (us_device_gone s, us_transport_error s, us_at_ok s).

Definition wait_bits : M (bool * bool * bool) :=
  pending ← gets (fun s => us_device_gone s || us_transport_error s || us_at_ok s);
  when (negb pending) interrupt;;
  bits ← gets probe_bits;
  modify (fun s => s <| us_device_gone := false |> <| us_transport_error := false |> <| us_at_ok := false |>);;
  mret bits.

Definition abandon_handle (handle : Z) : M bool :=
  stop_probe_parser;;
  close_current_handle (Some handle);;
  interrupt;;
  mret false.

Fixpoint probe_loop (attempts : nat) (handle : Z) : M bool :=
  match attempts with
  | O => abandon_handle handle
  | S attempts =>
      update_diagnostics (fun d => d <| ud_probe_attempts := u32 (ud_probe_attempts d + 1) |>);;
      reset_probe_parser;;
      err ← write_open_handle (Some (str "AT" ++ [13]));
      interrupt;;
      if bool_decide (err <> ESP_OK) then
        diagnostics_set_error err;;
        gone ← gets us_device_gone;
        if gone : bool then abandon_handle handle else probe_loop attempts handle
      else
        bits ← wait_bits;
        let '(gone, error, ok) := bits in
        if gone : bool then abandon_handle handle
        else if error : bool then abandon_handle handle
        else if ok : bool then stop_probe_parser;; interrupt;; mret true
        else diagnostics_set_error ESP_ERR_TIMEOUT;; probe_loop attempts handle
  end.

Definition probe_candidate (candidate : modem_usb_candidate_t) : M bool :=
  generation ← new_generation;
  interrupt;;
  result ← gets (fun s => uenv_open env (us_trace s));
  usb_log (UE_open (CONFIG_GATEWAY_MODEM_USB_VID cfg) (CONFIG_GATEWAY_MODEM_USB_PID cfg) (interface_number candidate)
             generation result);;
  match result with
  | inl err =>
      update_diagnostics (fun d => d <| ud_open_failures := u32 (ud_open_failures d + 1) |> <| ud_last_error := err |>);;
      modify (fun s => if us_active_generation s =? generation then s <| us_active_generation := 0 |> else s);;
      mret false
  | inr handle =>
      modify (fun s => s <| us_cdc_handle := Some handle |>);;
      probe_loop (CONFIG_GATEWAY_MODEM_USB_PROBE_RETRIES cfg) handle
  end.

(** The fields that both [update_selected_candidate] and
    [update_probe_candidate] set. *)
Definition candidate_diagnostics (device : work_device) (candidate : modem_usb_candidate_t) (d : modem_usb_diagnostics_t)
  : modem_usb_diagnostics_t :=
  d <| ud_vid := wd_vid device |> <| ud_pid := wd_pid device |>
    <| ud_interface_number := interface_number candidate |> <| ud_interface_class := interface_class candidate |>
    <| ud_interface_subclass := interface_subclass candidate |>
    <| ud_interface_protocol := interface_protocol candidate |> <| ud_bulk_in_ep := bulk_in_ep candidate |>
    <| ud_bulk_out_ep := bulk_out_ep candidate |> <| ud_interrupt_in_ep := interrupt_in_ep candidate |>.

Definition update_selected_candidate (device : work_device) (candidate : modem_usb_candidate_t) : M unit :=
  update_diagnostics (fun d =>
    (candidate_diagnostics device candidate (d <| ud_device_present := true |> <| ud_at_ready := true |>))
      <| ud_last_error := ESP_OK |>).

Definition update_probe_candidate (device : work_device) (candidate : modem_usb_candidate_t) : M unit :=
  update_diagnostics (candidate_diagnostics device candidate).

(** The loop over the candidates. *)
Fixpoint probe_candidates (device : work_device) (candidates : list modem_usb_candidate_t) : M unit :=
  match candidates with
  | [] => diagnostics_set_error ESP_ERR_NOT_FOUND;; emit_event MODEM_USB_EVENT_ERROR
  | candidate :: candidates =>
      update_probe_candidate device candidate;;
      emit_event MODEM_USB_EVENT_PROBING;;
      answered ← probe_candidate candidate;
      if answered : bool then
        update_selected_candidate device candidate;;
        emit_event MODEM_USB_EVENT_AT_READY
      else
        still_present ← gets (fun s => ud_device_present (us_diagnostics s));
        if negb still_present then mret tt else probe_candidates device candidates
  end.

Definition handle_device_found (device : work_device) (new_connection : bool) : M unit :=
  modify (fun s => s <| us_device_gone := false |>);;
  update_diagnostics (fun d =>
    (d <| ud_device_present := true |> <| ud_at_ready := false |> <| ud_vid := wd_vid device |> <| ud_pid := wd_pid device |>)
      <| ud_connect_count := if new_connection then u32 (ud_connect_count d + 1) else ud_connect_count d |>);;
  modify (fun s => s <| us_last_device := device |> <| us_last_device_valid := true |>);;
  when new_connection (emit_event MODEM_USB_EVENT_DEVICE_FOUND);;
  match wd_candidates device with
  | [] => diagnostics_set_error ESP_ERR_NOT_FOUND;; emit_event MODEM_USB_EVENT_ERROR
  | candidates => probe_candidates device candidates
  end.

Definition handle_disconnect (disconnected_handle : Z) : M unit :=
  stop_probe_parser;;
  close_current_handle (Some disconnected_handle);;
  interrupt;;
  update_diagnostics (fun d =>
    d <| ud_device_present := false |> <| ud_at_ready := false |>
      <| ud_disconnect_count := u32 (ud_disconnect_count d + 1) |> <| ud_interface_number := 0 |>
      <| ud_interface_class := 0 |> <| ud_interface_subclass := 0 |> <| ud_interface_protocol := 0 |>
      <| ud_bulk_in_ep := 0 |> <| ud_bulk_out_ep := 0 |> <| ud_interrupt_in_ep := 0 |>);;
  modify (fun s => s <| us_last_device_valid := false |> <| us_active_generation := 0 |>);;
  emit_event MODEM_USB_EVENT_DISCONNECTED.

(** ** The worker *)

Definition worker_event (event : work_event_t) : M unit :=
  match event with
  | WORK_EVENT_HOST_READY =>
      update_diagnostics (fun d => d <| ud_host_ready := true |> <| ud_last_error := ESP_OK |>);;
      emit_event MODEM_USB_EVENT_HOST_READY
  | WORK_EVENT_DEVICE_FOUND device => handle_device_found device true
  | WORK_EVENT_DISCONNECTED handle => handle_disconnect handle
  | WORK_EVENT_ERROR error generation =>
      diagnostics_set_error error;;
      retry ← gets (fun s => current_generation generation s && us_last_device_valid s);
      saved ← gets us_last_device;
      when (negb (generation =? 0)) (close_current_handle None;; interrupt);;
      emit_event MODEM_USB_EVENT_ERROR;;
      when retry (usb_log (UE_delay 250);; interrupt;; handle_device_found saved false)
  end.

(** One turn of the loop of [modem_usb_worker_task]. *)
Definition modem_usb_worker_turn : M unit :=
  event ← (fun s => match us_work_queue s with
                    | Some (event :: q) => (s <| us_work_queue := Some q |>, Some event)
                    | _ => (s, None)
                    end);
  match event with
  | Some event => worker_event event
  | None => mret tt
  end.

(** ** Starting *)

(** Up to the loop: the errors of [usb_host_install] and
    [cdc_acm_host_install], and whether the task was created. *)
Definition usb_host_library_start (install cdc_install : esp_err_t) (switch_created : bool) : M unit :=
  if bool_decide (install <> ESP_OK) then work_send (WORK_EVENT_ERROR install 0)
  else
    modify (fun s => s <| us_mode_switch_task := switch_created |>);;
    if bool_decide (cdc_install <> ESP_OK) then work_send (WORK_EVENT_ERROR cdc_install 0)
    else work_send WORK_EVENT_HOST_READY.

Definition reset_start_state : M unit :=
  modify (fun s => s <| us_host_task := false |> <| us_worker_task := false |> <| us_mode_switch_task := false |>
    <| us_io_mutex := false |> <| us_probe_events := false |> <| us_work_queue := None |> <| us_started := false |>
    <| us_event_cb := false |>).

(** What could be created: the queue, the event group, the mutex, the two
    tasks. *)
Definition modem_usb_transport_start (event_cb queue events mutex worker host : bool) : M esp_err_t :=
  started ← gets us_started;
  if started : bool then mret ESP_ERR_INVALID_STATE
  else
    modify (fun s => s <| us_started := true |> <| us_event_cb := event_cb |>);;
    diagnostics_set_error ESP_OK;;
    modify (fun s => s <| us_work_queue := if queue then Some [] else None |> <| us_probe_events := events |>
                       <| us_at_ok := false |> <| us_device_gone := false |> <| us_transport_error := false |>
                       <| us_io_mutex := mutex |>);;
    if negb queue || negb events || negb mutex then reset_start_state;; mret ESP_ERR_NO_MEM
    else
      modify (fun s => s <| us_worker_task := worker |>);;
      if negb worker then reset_start_state;; mret ESP_ERR_NO_MEM
      else
        modify (fun s => s <| us_host_task := host |>);;
        if negb host then reset_start_state;; mret ESP_ERR_NO_MEM
        else mret ESP_OK.

(** ** All of it *)

Inductive usb_step :=
  | U_call (call : usb_call)
  | U_turn
  | U_set_rx (rx_cb : bool).

Definition usb_step_run (step : usb_step) : M unit :=
  match step with
  | U_call call => usb_call_run call
  | U_turn => modem_usb_worker_turn
  | U_set_rx rx_cb => modem_usb_transport_set_rx_callback rx_cb;; mret tt
  end.

Fixpoint usb_run (steps : list usb_step) : M unit :=
  match steps with
  | [] => mret tt
  | step :: steps => usb_step_run step;; usb_run steps
  end.

End Transport.

(** Interface and generation of the last opening. *)
Fixpoint last_open (tr : list usb_effect) : option (Z * Z) :=
  match tr with
  | [] => None
  | UE_open _ _ interface generation _ :: _ => Some (interface, generation)
  | _ :: tr => last_open tr
  end.

(** ** The USB transport: the platform of the examples *)

Definition sample_usb_config : usb_config := mk_usb_config 0x12d1 0x1506 0 2.

(** The handle is the number of openings; the writes succeed; an interface
    answers where [answers] says so, for the last opening. *)
Fixpoint openings (tr : list usb_effect) : Z :=
  match tr with
  | [] => 0
  | UE_open _ _ _ _ _ :: tr => 1 + openings tr
  | _ :: tr => openings tr
  end.

Definition sample_usb_env (calls : list usb_effect -> list usb_call) : usb_environment :=
  mk_usb_env (fun tr => inr (1000 + openings tr)) (fun _ => ESP_OK) (fun _ => true) calls.

Definition ok_line : list Z := [13; 10] ++ str "OK" ++ [13; 10].

(** Answers every AT of the interface opened last. *)
Definition answering (tr : list usb_effect) : list usb_call :=
  match tr with
  | UE_asked :: UE_tx _ _ _ :: _ => [UC_rx ok_line (match last_open tr with Some (_, g) => g | None => 0 end)]
  | _ => []
  end.

Definition sample_candidate (interface : Z) : modem_usb_candidate_t := mk_candidate interface 255 0 1 0x81 1 0 110.

Definition one_interface : work_device := mk_work_device 0x12d1 0x1506 [sample_candidate 2].

Definition started (device : work_device) : usb :=
  ((modem_usb_transport_start true true true true true true usb_zero).1
     <| us_work_queue := Some [WORK_EVENT_DEVICE_FOUND device] |>).

(** A modem with one interface, ready. *)
Definition ready_usb : usb := (usb_run sample_usb_config (sample_usb_env answering) [U_turn] (started one_interface)).1.

(** A transport error while the first of two interfaces is probed; the second
    one answers. *)
Definition two_interfaces : work_device := mk_work_device 0x12d1 0x1506 [sample_candidate 2; sample_candidate 3].

Definition first_fails (tr : list usb_effect) : list usb_call :=
  if openings tr =? 1 then
    match tr with
    | UE_asked :: UE_asked :: UE_tx _ _ _ :: _ => [UC_event (Some CDC_ACM_HOST_ERROR) 1]
    | _ => []
    end
  else answering tr.

Definition after_first_fails (turns : nat) : usb :=
  (usb_run sample_usb_config (sample_usb_env first_fails) (replicate turns U_turn) (started two_interfaces)).1.
