(* ===== verification/UsbTransportFacts.v ===== *)
(** * The USB transport: handles, the probe, and transport errors *)

From Stdlib Require Import Ascii String.
From Stdlib Require Import ZifyBool ZifyNat.
From stdpp Require Import base numbers list strings.
From S2P Require Import Prelude.
From S2P Require Import StateMonad.
From S2P Require Import UsbDescriptor.
From S2P Require Import UsbTransport.

Open Scope Z_scope.

(** ** The probe parser *)

(** The lines that are complete, and the beginning of the next one. *)
Fixpoint split_lines (cur data : list Z) : list (list Z) * list Z :=
  match data with
  | [] => ([], cur)
  | c :: data =>
      if c =? 10 then let '(lines, rest) := split_lines [] data in (cur :: lines, rest)
      else split_lines (cur ++ [c]) data
  end.

(** What is compared of a line: it starts anew at every 32nd character. *)
Definition line_tail (l : list Z) : list Z := drop (32 * (length l / 32)) l.

Definition says_ok (l : list Z) : bool := streq (line_tail l) (str "OK").

(** The carriage returns are left out. *)
Definition without_cr (data : list Z) : list Z := filter (fun c => c <> 13) data.

(** Chunks one after the other: the parser, and whether one of them had an OK. *)
Definition probe_chunks (chunks : list (list Z)) (p : list Z * nat) : (list Z * nat) * bool :=
  fold_left (fun '(line, len, found) chunk =>
    let '(line, len, found_ok) := probe_bytes chunk line len in (line, len, found || found_ok)) chunks (p, false).

(** The buffer holds the tail of the line [cur]. *)
Definition holds (cur line : list Z) (len : nat) : Prop :=
  length line = 32%nat /\ len = (length cur mod 32)%nat /\ take len line = line_tail cur.

Lemma holds_nil line : length line = 32%nat -> holds [] line 0.
Proof. done. Qed.

Lemma c_str_cut (line : list Z) len : (len < length line)%nat -> c_str (<[len := 0]> line) = c_str (take len line).
Proof.
  revert len. induction line as [|c line IH]; intros [|len] Hl; cbn in *; [lia..|done|].
  destruct (c =? 0); [done|]. rewrite IH by lia. done.
Qed.

Lemma take_S_insert (line : list Z) len c : (len < length line)%nat -> take (S len) (<[len := c]> line) = take len line ++ [c].
Proof.
  intros Hl. rewrite insert_take_drop by done. rewrite cons_middle, app_assoc. apply take_app_length'.
  rewrite length_app, length_take. cbn. lia.
Qed.

Lemma line_tail_snoc cur c :
  line_tail (cur ++ [c]) = if (length cur mod 32 =? 31)%nat then [] else line_tail cur ++ [c].
Proof.
  unfold line_tail. rewrite length_app. cbn [length].
  pose proof (Nat.div_mod_eq (length cur) 32) as Hd. pose proof (Nat.mod_upper_bound (length cur) 32 ltac:(lia)) as Hm.
  destruct (Nat.eqb_spec (length cur mod 32) 31) as [E|E].
  - apply drop_ge. rewrite length_app. cbn [length].
    replace ((length cur + 1) / 32)%nat with (S (length cur / 32)); [lia|].
    apply Nat.div_unique with 0%nat; lia.
  - replace ((length cur + 1) / 32)%nat with (length cur / 32)%nat; [|apply Nat.div_unique with (S (length cur mod 32)); lia].
    apply drop_app_le. lia.
Qed.

Lemma probe_byte_lf cur line len found :
  holds cur line len ->
  exists line', probe_byte (line, len, found) 10 = (line', 0%nat, found || says_ok cur) /\ holds [] line' 0.
Proof.
  intros (Hl & Hn & Ht). cbn. eexists. split; [|apply holds_nil; by rewrite length_insert].
  f_equal. unfold says_ok, streq. rewrite c_str_cut, Ht; [done|].
  rewrite Hl, Hn. apply Nat.mod_upper_bound. lia.
Qed.

Lemma probe_byte_char cur line len found c :
  c <> 10 -> c <> 13 -> holds cur line len ->
  exists line' len', probe_byte (line, len, found) c = (line', len', found) /\ holds (cur ++ [c]) line' len'.
Proof.
  intros H10 H13 (Hl & Hn & Ht). cbv beta iota delta [probe_byte].
  rewrite (proj2 (Z.eqb_neq c 13)), (proj2 (Z.eqb_neq c 10)) by done. rewrite Hl.
  pose proof (Nat.mod_upper_bound (length cur) 32 ltac:(lia)) as Hm.
  unfold holds. rewrite line_tail_snoc, length_app. cbn [length]. 
  assert (((length cur + 1) mod 32 = (len + 1) mod 32)%nat) as -> by (rewrite Hn; symmetry; apply Nat.Div0.add_mod_idemp_l).
  rewrite <- Hn in *.
  destruct (Nat.ltb_spec (len + 1) 32); eexists _, _; (split; [reflexivity|]).
  - rewrite length_insert. split; [done|]. split; [rewrite Nat.mod_small; lia|].
    rewrite (proj2 (Nat.eqb_neq len 31)) by lia. by rewrite take_S_insert, Ht by lia.
  - split; [done|]. rewrite (proj2 (Nat.eqb_eq len 31)) by lia. replace (len + 1)%nat with 32%nat by lia. done.
Qed.

(** The rest of the stream, byte by byte. *)
Lemma probe_bytes_spec data cur line len found :
  holds cur line len ->
  let '(line', len', found') := fold_left probe_byte data (line, len, found) in
  let '(lines, rest) := split_lines cur (without_cr data) in
  holds rest line' len' /\ found' = found || existsb says_ok lines.
Proof.
  revert cur line len found. induction data as [|c data IH]; intros cur line len found Hh.
  { cbn. by rewrite orb_false_r. }
  cbn [fold_left without_cr filter list_filter]. destruct (decide (c <> 13)) as [Hc|Hc].
  2: { assert (c = 13) as -> by lia. exact (IH cur line len found Hh). }
  cbn [split_lines]. destruct (Z.eqb_spec c 10) as [->|H10].
  - destruct (probe_byte_lf cur line len found Hh) as (line' & -> & Hh').
    specialize (IH [] line' 0%nat (found || says_ok cur) Hh'). revert IH. change (filter (fun c : Z => c <> 13) data) with (without_cr data).
    destruct (fold_left probe_byte data _) as [[line'' len''] found'].
    destruct (split_lines [] (without_cr data)) as [lines rest].
    cbv beta iota; intros [Hr ->]. split; [done|]. cbn [existsb]. by rewrite orb_assoc.
  - destruct (probe_byte_char cur line len found c H10 Hc Hh) as (line' & len' & -> & Hh'). exact (IH _ _ _ _ Hh').
Qed.

Lemma split_lines_app cur d1 d2 :
  split_lines cur (d1 ++ d2) =
    let '(l1, r1) := split_lines cur d1 in let '(l2, r2) := split_lines r1 d2 in (l1 ++ l2, r2).
Proof.
  revert cur. induction d1 as [|c d1 IH]; intros cur; cbn; [by destruct (split_lines cur d2)|].
  destruct (c =? 10); [|apply IH]. rewrite IH. destruct (split_lines [] d1) as [l1 r1].
  by destruct (split_lines r1 d2).
Qed.

Lemma probe_chunks_spec chunks cur line len found :
  holds cur line len ->
  let '(line', len', found') := fold_left (fun '(line, len, found) chunk =>
    let '(line, len, found_ok) := probe_bytes chunk line len in (line, len, found || found_ok)) chunks (line, len, found) in
  let '(lines, rest) := split_lines cur (without_cr (concat chunks)) in
  holds rest line' len' /\ found' = found || existsb says_ok lines.
Proof.
  revert cur line len found. induction chunks as [|chunk chunks IH]; intros cur line len found Hh.
  { cbn. by rewrite orb_false_r. }
  cbn [fold_left concat]. unfold without_cr. rewrite filter_app. fold (without_cr chunk). fold (without_cr (concat chunks)).
  rewrite split_lines_app. pose proof (probe_bytes_spec chunk cur line len false Hh) as Hc. fold (probe_bytes chunk line len) in Hc.
  revert Hc.
  destruct (probe_bytes chunk line len) as [[line1 len1] found1]. destruct (split_lines cur (without_cr chunk)) as [l1 r1].
  cbv beta iota; intros [Hr ->]. specialize (IH r1 line1 len1 (found || existsb says_ok l1) Hr). cbn [orb] in *.
  revert IH.
  destruct (fold_left _ chunks _) as [[line2 len2] found2]. destruct (split_lines r1 _) as [l2 r2].
  cbv beta iota; intros [Hr2 ->]. split; [done|]. by rewrite existsb_app, orb_assoc.
Qed.

(** However the modem's answer to the probe is cut into transfers, the
    parser finds an OK exactly if one of the complete lines, without carriage
    returns, ends in OK behind a multiple of 32 characters (which for a line
    shorter than its buffer means that it is OK), and it never writes outside
    of its 32 bytes. *)
Theorem probe_finds_ok chunks line :
  length line = 32%nat ->
  let '(line', len', found) := probe_chunks chunks (line, 0%nat) in
  (found = true <-> exists l, l ∈ (split_lines [] (without_cr (concat chunks))).1 /\ c_str (line_tail l) = str "OK") /\
  length line' = 32%nat /\ (len' < 32)%nat.
Proof.
  intros Hl. unfold probe_chunks. pose proof (probe_chunks_spec chunks [] line 0 false (holds_nil _ Hl)) as Hc. revert Hc.
  destruct (fold_left _ chunks _) as [[line' len'] found]. destruct (split_lines [] _) as [lines rest].
  cbv beta iota; intros [(Hl' & Hn & _) ->]. cbn [orb fst]. split; [|split; [done|rewrite Hn; apply Nat.mod_upper_bound; lia]].
  rewrite existsb_exists. split; intros (l & Hin & Hok); exists l; rewrite ?list_elem_of_In in *; (split; [done|]);
    revert Hok; unfold says_ok, streq; rewrite bool_decide_eq_true; done.
Qed.

(** ** Handles *)

(** The handles that are open, and their proper use. *)
Fixpoint live_handles (tr : list usb_effect) : list Z :=
  match tr with
  | [] => []
  | UE_open _ _ _ _ (inr h) :: tr => h :: live_handles tr
  | UE_close h :: tr => filter (fun h' => h' <> h) (live_handles tr)
  | _ :: tr => live_handles tr
  end.

Definition handle_use_ok (e : usb_effect) (tr : list usb_effect) : Prop :=
  match e with
  | UE_tx h _ _ | UE_close h => h ∈ live_handles tr
  | _ => True
  end.

Fixpoint handles_ok (tr : list usb_effect) : Prop :=
  match tr with [] => True | e :: tr => handle_use_ok e tr /\ handles_ok tr end.

Definition owned (s : usb) : Prop :=
  handles_ok (us_trace s) /\ forall h, us_cdc_handle s = Some h -> h ∈ live_handles (us_trace s).

(** Effects without a handle. *)
Definition no_handle (e : usb_effect) : bool :=
  match e with UE_tx _ _ _ | UE_close _ | UE_open _ _ _ _ _ => false | _ => true end.

Lemma owned_log e : no_handle e = true -> keeps owned (usb_log e).
Proof. intros He s [Ho Hc]. destruct e; try done; (split; [by split|exact Hc]). Qed.

Lemma owned_modify f :
  (forall s, us_trace (f s) = us_trace s /\ us_cdc_handle (f s) = us_cdc_handle s) -> keeps owned (modify f).
Proof. intros Hf s [Ho Hc]. destruct (Hf s) as [Et Eh]. unfold owned. cbn. rewrite Et, Eh. done. Qed.

Lemma owned_update f : keeps owned (update_diagnostics f).
Proof. by apply owned_modify. Qed.

Lemma owned_set_error e : keeps owned (diagnostics_set_error e).
Proof. apply owned_update. Qed.

Lemma owned_emit e : keeps owned (emit_event e).
Proof.
  unfold emit_event. apply keeps_bind; [apply keeps_gets|]. intros cb. apply keeps_when. intros _.
  apply keeps_bind; [apply keeps_gets|]. intros d. by apply owned_log.
Qed.

Lemma owned_send w : keeps owned (work_send w).
Proof. apply owned_modify. intros s. destruct (us_work_queue s); [|done]. by destruct (_ <? _)%nat. Qed.

Lemma owned_stop : keeps owned stop_probe_parser.
Proof. by apply owned_modify. Qed.

Lemma owned_reset : keeps owned reset_probe_parser.
Proof. unfold reset_probe_parser. apply keeps_bind; [|intros _]; by apply owned_modify. Qed.

Lemma owned_new_device cfg dev : keeps owned (new_usb_device_callback cfg dev).
Proof. unfold new_usb_device_callback. keeps_tac. apply owned_send. Qed.

Lemma owned_rx data g : keeps owned (cdc_rx_callback data g).
Proof.
  unfold cdc_rx_callback. apply keeps_bind; [apply keeps_gets|]. intros []; cbn [negb]; [|apply keeps_ret].
  apply keeps_bind.
  { intros s Hs. destruct (us_probing s); [|done]. by destruct (probe_bytes _ _ _) as [[line len] found]. }
  intros found. apply keeps_bind.
  { apply keeps_when. intros _. apply keeps_bind; [by apply owned_log|]. intros _. by apply owned_modify. }
  intros _. apply keeps_bind; [apply keeps_gets|]. intros forward. apply keeps_when. intros _. by apply owned_log.
Qed.

Lemma owned_event event g : keeps owned (cdc_device_event_callback event g).
Proof.
  unfold cdc_device_event_callback. destruct event as [event|]; [|apply keeps_ret].
  apply keeps_bind; [apply keeps_gets|]. intros []; cbn [negb]; [|apply keeps_ret].
  destruct event; try apply keeps_ret;
    (apply keeps_bind; [apply owned_update|]; intros _; apply keeps_bind; [|intros _; apply owned_send];
     apply owned_modify; intros s; by destruct (us_probe_events s)).
Qed.

#[local] Hint Resolve owned_update owned_set_error owned_emit owned_send owned_stop owned_reset owned_new_device owned_rx
  owned_event : state.

Section Handles.

Variable cfg : usb_config.
Variable env : usb_environment.

Lemma owned_write data : keeps owned (write_open_handle env data).
Proof.
  unfold write_open_handle. destruct data as [[|c data]|]; try apply keeps_ret.
  apply keeps_bind; [apply keeps_gets|]. intros []; cbn [negb]; [|apply keeps_ret].
  apply keeps_bind; [by apply owned_log|]. intros _.
  apply keeps_bind; [apply keeps_gets|]. intros []; cbn [negb]; [|apply keeps_ret].
  intros s [Ho Hc]. unfold gets, mbind, state_bind. destruct (us_cdc_handle s) as [h|] eqn:Eh; [|split; [exact Ho|]; cbn; by rewrite Eh].
  cbn. split; [split; [by apply Hc|done]|]. intros h' Hh'. apply Hc. cbn in Hh'. congruence.
Qed.

Lemma owned_close expected : keeps owned (close_current_handle expected).
Proof.
  intros s [Ho Hc]. unfold close_current_handle, gets, mbind, state_bind. destruct (negb _); [done|].
  destruct (us_cdc_handle s) as [h|] eqn:Eh; [|split; [exact Ho|]; cbn; by rewrite Eh].
  destruct (_ || _); [|split; [exact Ho|]; cbn; by rewrite Eh]. split; [|done]. cbn. split; [by apply Hc|done].
Qed.

Lemma owned_call call : keeps owned (usb_call_run cfg env call).
Proof.
  destruct call; cbn [usb_call_run]; eauto with state nocore. apply keeps_bind; [|intros; apply keeps_ret].
  unfold modem_usb_transport_write. apply keeps_bind; [apply keeps_gets|]. intros []; [apply owned_write|apply keeps_ret].
Qed.

Lemma owned_calls calls : keeps owned (usb_calls_run cfg env calls).
Proof. induction calls; cbn; [apply keeps_ret|]. apply keeps_bind; [apply owned_call|done]. Qed.

Lemma owned_interrupt : keeps owned (interrupt cfg env).
Proof.
  unfold interrupt. apply keeps_bind; [by apply owned_log|]. intros _. apply keeps_bind; [apply keeps_gets|].
  intros. apply owned_calls.
Qed.

#[local] Hint Resolve owned_write owned_close owned_interrupt : state.

Lemma owned_give_up h : keeps owned (abandon_handle cfg env h).
Proof. unfold abandon_handle. keeps_tac. Qed.

Lemma owned_wait : keeps owned (wait_bits cfg env).
Proof. unfold wait_bits. keeps_tac. Qed.

#[local] Hint Resolve owned_give_up owned_wait : state.

Lemma owned_probe_loop attempts h : keeps owned (probe_loop cfg env attempts h).
Proof.
  induction attempts as [|attempts IH]; cbn [probe_loop]; [apply owned_give_up|].
  keeps_tac.
Qed.

Lemma owned_probe candidate : keeps owned (probe_candidate cfg env candidate).
Proof.
  unfold probe_candidate. apply keeps_bind.
  { unfold new_generation. keeps_tac; by apply owned_modify. }
  intros g. apply keeps_bind; [apply owned_interrupt|]. intros _.
  eapply (triple_bind _ _ (fun result s => owned s /\ result = uenv_open env (us_trace s))); [by intros s|]. intros [err|h].
  - apply triple_pre with owned; [|by intros s [? _]]. apply keeps_bind.
    { intros s [Ho Hc]. split; [by split|exact Hc]. }
    intros _. apply keeps_bind; [apply owned_update|]. intros _. apply keeps_bind; [|intros; apply keeps_ret].
    apply owned_modify. intros s. by destruct (_ =? _).
  - apply (triple_bind _ _ (fun _ s => handles_ok (us_trace s) /\ h ∈ live_handles (us_trace s))).
    { intros s [[Ho Hc] _]. split; [by split|]. by left. }
    intros _. apply (triple_bind _ _ (fun _ => owned)); [|intros _; apply owned_probe_loop].
    intros s [Ho Hin]. split; [done|]. cbn. by intros ? [= <-].
Qed.

Lemma owned_candidates device candidates : keeps owned (probe_candidates cfg env device candidates).
Proof.
  induction candidates as [|candidate candidates IH]; cbn [probe_candidates]; [keeps_tac|].
  unfold update_probe_candidate, update_selected_candidate. keeps_tac. apply owned_probe.
Qed.

Lemma owned_found device new : keeps owned (handle_device_found cfg env device new).
Proof.
  unfold handle_device_found. apply keeps_bind; [by apply owned_modify|]. intros _.
  apply keeps_bind; [apply owned_update|]. intros _. apply keeps_bind; [by apply owned_modify|]. intros _.
  apply keeps_bind; [keeps_tac|]. intros _. destruct (wd_candidates device); [keeps_tac|apply owned_candidates].
Qed.

Lemma owned_worker event : keeps owned (worker_event cfg env event).
Proof.
  destruct event as [|device|handle|error g]; cbn [worker_event].
  - keeps_tac.
  - apply owned_found.
  - unfold handle_disconnect. keeps_tac.
  - keeps_tac; first [by apply owned_log|apply owned_found].
Qed.

Lemma owned_step step : keeps owned (usb_step_run cfg env step).
Proof.
  destruct step as [call| |rx_cb]; cbn [usb_step_run]; [apply owned_call| |].
  - unfold modem_usb_worker_turn. apply keeps_bind.
    + intros s Hs. destruct (us_work_queue s) as [[|w q]|]; done.
    + intros [w|]; [apply owned_worker|apply keeps_ret].
  - apply keeps_bind; [|intros; apply keeps_ret]. apply keeps_bind; [by apply owned_modify|intros; apply keeps_ret].
Qed.

(** C16. A handle of the CDC driver is used only while it is open: in every
    sequence of turns of the worker, callbacks of the driver and writes of the
    AT engine, also during the worker's waits, data is sent to a handle and a
    handle is closed only after it was opened and before it is closed, so that
    it is closed at most once. *)
Theorem handles_used_while_open steps s : owned s -> owned (usb_run cfg env steps s).1.
Proof.
  enough (keeps owned (usb_run cfg env steps)) as Hk by apply Hk.
  induction steps as [|step steps IH]; cbn [usb_run]; [apply keeps_ret|]. apply keeps_bind; [apply owned_step|done].
Qed.

End Handles.

Definition sample_chunks : list (list Z) := [[13; 10; 79]; [75; 13]; [10]].

Lemma probe_finds_ok_witness :
  (probe_chunks sample_chunks (zeros 32, 0%nat)).2 = true /\
  exists l, l ∈ (split_lines [] (without_cr (concat sample_chunks))).1 /\ c_str (line_tail l) = str "OK".
Proof.
  split; [vm_compute; reflexivity|].
  pose proof (probe_finds_ok sample_chunks (zeros 32) eq_refl) as H. vm_compute in H. apply H. reflexivity.
Defined.

Lemma handles_used_while_open_witness :
  owned (usb_run sample_usb_config (sample_usb_env first_fails) (replicate 3 U_turn) (started two_interfaces)).1 /\
  live_handles (us_trace (after_first_fails 1)) = [1001].
Proof.
  split; [|vm_compute; reflexivity]. apply handles_used_while_open. by split.
Defined.
