(* ===== verification/UsbTransportProbe.v ===== *)
(** * The USB transport: which interface becomes ready *)

From Stdlib Require Import Ascii String.
From Stdlib Require Import ZifyBool ZifyNat.
From stdpp Require Import base numbers list strings.
From S2P Require Import Prelude.
From S2P Require Import StateMonad.
From S2P Require Import UsbDescriptor.
From S2P Require Import UsbTransport.
From S2P Require Import UsbTransportFacts.

Open Scope Z_scope.

(** Since then, an OK came with that generation. *)
Fixpoint answered (tr : list usb_effect) : bool :=
  match tr with
  | [] => false
  | UE_open _ _ _ _ _ :: _ => false
  | UE_at_ok generation :: tr => bool_decide (snd <$> last_open tr = Some generation) || answered tr
  | _ :: tr => answered tr
  end.

Definition ready_ok (e : usb_effect) (tr : list usb_effect) : Prop :=
  match e with
  | UE_event MODEM_USB_EVENT_AT_READY d =>
      answered tr = true /\ fst <$> last_open tr = Some (ud_interface_number d)
  | _ => True
  end.

Fixpoint ready_sound (tr : list usb_effect) : Prop :=
  match tr with [] => True | e :: tr => ready_ok e tr /\ ready_sound tr end.

(** Outside of a probe, with an interface opened, and while it is probed. *)
Inductive probe_phase := Idle | Opened | Probing.

Record probing_at (o : option (Z * Z)) (b : bool) (ph : probe_phase) (active : option Z) (s : usb) : Prop := {
  pa_sound : ready_sound (us_trace s);
  pa_open : last_open (us_trace s) = o;
  pa_answered : b = true -> answered (us_trace s) = true;
  pa_active : ph <> Idle -> us_active_generation s = 0 \/ snd <$> o = Some (us_active_generation s);
  pa_ok : ph = Probing -> us_at_ok s = true -> answered (us_trace s) = true;
  pa_probing : us_probing s = true -> ph = Probing;
  pa_generation : forall g, active = Some g -> us_active_generation s = g;
}.

(** Effects that are no opening and no ready interface. *)
Definition quiet (e : usb_effect) : bool :=
  match e with UE_open _ _ _ _ _ | UE_event MODEM_USB_EVENT_AT_READY _ => false | _ => true end.

Lemma quiet_open e tr : quiet e = true -> last_open (e :: tr) = last_open tr.
Proof. destruct e as [|[]| | | | | |]; done. Qed.

Lemma quiet_answered e tr : quiet e = true -> answered tr = true -> answered (e :: tr) = true.
Proof. destruct e as [|[]| | | | | |]; try done. intros _ Ha. cbn. by rewrite Ha, orb_true_r. Qed.

Lemma quiet_sound e tr : quiet e = true -> ready_sound tr -> ready_sound (e :: tr).
Proof. destruct e as [|[]| | | | | |]; done. Qed.

Section Keep.

Context (o : option (Z * Z)) (b : bool) (ph : probe_phase) (active : option Z).

Abbreviation K := (probing_at o b ph active).

Lemma K_log e : quiet e = true -> keeps K (usb_log e).
Proof.
  intros He s []. split; cbn -[last_open answered ready_sound]; try done; rewrite ?quiet_open by done; auto using quiet_sound, quiet_answered.
Qed.

Lemma K_modify f :
  (forall s, us_trace (f s) = us_trace s /\ us_active_generation (f s) = us_active_generation s /\
     us_probing (f s) = us_probing s /\ us_at_ok (f s) = us_at_ok s) -> keeps K (modify f).
Proof. intros Hf s []. destruct (Hf s) as (Et & Ea & Ep & Eo). split; cbn; rewrite ?Et, ?Ea, ?Ep, ?Eo; done. Qed.

Lemma K_update f : keeps K (update_diagnostics f).
Proof. by apply K_modify. Qed.

Lemma K_set_error e : keeps K (diagnostics_set_error e).
Proof. apply K_update. Qed.

Lemma K_emit e : e <> MODEM_USB_EVENT_AT_READY -> keeps K (emit_event e).
Proof.
  intros He. unfold emit_event. apply keeps_bind; [apply keeps_gets|]. intros cb. apply keeps_when. intros _.
  apply keeps_bind; [apply keeps_gets|]. intros d. apply K_log. by destruct e.
Qed.

Lemma K_send w : keeps K (work_send w).
Proof. apply K_modify. intros s. destruct (us_work_queue s); [|done]. by destruct (_ <? _)%nat. Qed.

Lemma K_new_device cfg dev : keeps K (new_usb_device_callback cfg dev).
Proof. unfold new_usb_device_callback. keeps_tac. apply K_send. Qed.

(** An OK counts for the interface that is being probed. *)
Lemma K_ok g s : K s -> us_probing s = true -> current_generation g s = true ->
  K ((s <| us_trace := UE_at_ok g :: us_trace s |>) <| us_at_ok := true |>).
Proof.
  intros [Hs Ho Ha Hac Hok Hp Hg] Hpr Hc. unfold current_generation in Hc. apply andb_true_iff in Hc as [H0 Hc].
  assert (answered (UE_at_ok g :: us_trace s) = true) as Han.
  { cbn. apply orb_true_iff. left. apply bool_decide_eq_true. rewrite Ho. specialize (Hp Hpr).
    destruct Hac as [?|?]; [by rewrite Hp|lia|]. by replace g with (us_active_generation s) by lia. }
  split; cbn -[answered]; auto.
Qed.

Lemma K_rx data g : keeps K (cdc_rx_callback data g).
Proof.
  unfold cdc_rx_callback. apply (triple_bind _ _ (fun c s => K s /\ c = current_generation g s)); [by intros s|].
  intros []; cbn [negb]; [|by intros s [? _]].
  apply (triple_bind _ _ (fun found s => K s /\ (found = true -> us_probing s = true /\ current_generation g s = true))).
  { intros s [Hs Hc]. destruct (us_probing s) eqn:Ep; [|by split].
    destruct (probe_bytes _ _ _) as [[line len] found]. split; [by destruct Hs; split|]. by intros _. }
  intros found. apply (triple_bind _ _ (fun _ => K)).
  { destruct found; [|by intros s [? _]]. intros s [Hs [Hp Hc]]; [done|]. by apply K_ok. }
  intros _. apply keeps_bind; [apply keeps_gets|]. intros forward. apply keeps_when. intros _. by apply K_log.
Qed.

Lemma K_event event g : keeps K (cdc_device_event_callback event g).
Proof.
  unfold cdc_device_event_callback. destruct event as [event|]; [|apply keeps_ret].
  apply keeps_bind; [apply keeps_gets|]. intros []; cbn [negb]; [|apply keeps_ret].
  destruct event; try apply keeps_ret;
    (apply keeps_bind; [apply K_update|]; intros _; apply keeps_bind; [|intros _; apply K_send];
     apply K_modify; intros s; by destruct (us_probe_events s)).
Qed.

Context (cfg : usb_config) (env : usb_environment).

Lemma K_write data : keeps K (write_open_handle env data).
Proof.
  unfold write_open_handle. destruct data as [[|c data]|]; try apply keeps_ret.
  apply keeps_bind; [apply keeps_gets|]. intros []; cbn [negb]; [|apply keeps_ret].
  apply keeps_bind; [by apply K_log|]. intros _.
  apply keeps_bind; [apply keeps_gets|]. intros []; cbn [negb]; [|apply keeps_ret].
  apply keeps_bind; [apply keeps_gets|]. intros [h|]; [|apply keeps_ret].
  apply keeps_bind; [apply keeps_gets|]. intros e. apply keeps_bind; [by apply K_log|]. intros _. apply keeps_ret.
Qed.

Lemma K_call call : keeps K (usb_call_run cfg env call).
Proof.
  destruct call; cbn [usb_call_run]; [apply K_rx|apply K_event|apply K_new_device|].
  apply keeps_bind; [|intros; apply keeps_ret].
  unfold modem_usb_transport_write. apply keeps_bind; [apply keeps_gets|]. intros []; [apply K_write|apply keeps_ret].
Qed.

Lemma K_interrupt : keeps K (interrupt cfg env).
Proof.
  unfold interrupt. apply keeps_bind; [by apply K_log|]. intros _. apply keeps_bind; [apply keeps_gets|].
  intros calls. induction calls; cbn; [apply keeps_ret|]. apply keeps_bind; [apply K_call|done].
Qed.

End Keep.

(** Closing ends the generation. *)
Lemma K_close o b ph expected : keeps (probing_at o b ph None) (close_current_handle expected).
Proof.
  unfold close_current_handle. apply keeps_bind; [apply keeps_gets|]. intros []; cbn [negb]; [|apply keeps_ret].
  apply keeps_bind; [apply keeps_gets|]. intros [h|]; [|apply keeps_ret]. destruct (_ || _); [|apply keeps_ret].
  apply keeps_bind; [|intros _; by apply K_log]. intros s []. split; cbn; auto. done.
Qed.

Lemma K_stop o b ph : triple (probing_at o b ph None) stop_probe_parser (fun _ => probing_at o b Idle None).
Proof. intros s []. by split. Qed.

#[local] Hint Resolve K_log K_update K_set_error K_emit K_send K_write K_interrupt K_close : state.

Section Probe.

Variable cfg : usb_config.
Variable env : usb_environment.

Lemma abandon_handle_idle o b ph h :
  triple (probing_at o b ph None) (abandon_handle cfg env h) (fun r s => r = false /\ probing_at o b Idle None s).
Proof.
  unfold abandon_handle. eapply triple_bind; [apply K_stop|]. intros []. eapply triple_bind; [apply K_close|]. intros [].
  eapply triple_bind; [apply K_interrupt|]. intros []. by apply triple_ret.
Qed.

Lemma wait_ok o b :
  triple (probing_at o b Probing None) (wait_bits cfg env) (fun bits s => probing_at o (bits.2 || b) Probing None s).
Proof.
  unfold wait_bits. eapply triple_bind; [apply keeps_gets|]. intros pending.
  eapply triple_bind; [apply keeps_when; intros _; apply K_interrupt|]. intros [] s [].
  unfold probe_bits, gets, mbind, state_bind. cbn. split; cbn; auto; try done.
  intros [?|?]%orb_true_iff; auto.
Qed.

Lemma reset_probing o b ph : ph <> Idle ->
  triple (probing_at o b ph None) reset_probe_parser (fun _ => probing_at o b Probing None).
Proof. intros Hph s []. split; cbn; auto; done. Qed.

Lemma probe_loop_spec attempts h o ph :
  ph <> Idle ->
  triple (probing_at o false ph None) (probe_loop cfg env attempts h) (fun r s => probing_at o r Idle None s).
Proof.
  assert (forall o b ph', triple (probing_at o b ph' None) (abandon_handle cfg env h) (fun r s => probing_at o r Idle None s)) as Hg.
  { intros o' b' ph'. eapply triple_weaken; [apply (abandon_handle_idle o' b')|done|]. intros r s [-> []]. by split. }
  revert ph. induction attempts as [|attempts IH]; intros ph Hph; cbn [probe_loop]; [apply Hg|].
  eapply triple_bind; [apply K_update|]. intros []. eapply triple_bind; [by apply reset_probing|]. intros [].
  eapply triple_bind; [apply K_write|]. intros err. eapply triple_bind; [apply K_interrupt|]. intros [].
  destruct (bool_decide _).
  { eapply triple_bind; [apply K_set_error|]. intros []. eapply triple_bind; [apply keeps_gets|].
    intros []; [apply Hg|by apply IH]. }
  eapply triple_bind; [apply wait_ok|]. intros [[gone error] ok]. cbn [snd]. rewrite orb_false_r.
  destruct gone; [apply Hg|]. destruct error; [apply Hg|]. destruct ok.
  - eapply triple_bind; [apply K_stop|]. intros []. eapply triple_bind; [apply K_interrupt|]. intros []. by apply triple_ret.
  - eapply triple_bind; [apply K_set_error|]. intros []. by apply IH.
Qed.

Lemma new_generation_spec o b :
  triple (probing_at o b Idle None) new_generation (fun g s => probing_at o b Idle (Some g) s).
Proof.
  unfold new_generation. eapply triple_bind; [by apply K_modify|]. intros [].
  eapply triple_bind; [apply keeps_gets|]. intros g0. eapply triple_bind; [apply keeps_when; intros _; by apply K_modify|].
  intros []. eapply triple_bind; [apply keeps_gets|]. intros g s []. split; cbn; auto; try done. by intros ? [= <-].
Qed.

Lemma probe_spec candidate o :
  triple (probing_at o false Idle None) (probe_candidate cfg env candidate)
    (fun r s => exists g, probing_at (Some (interface_number candidate, g)) r Idle None s).
Proof.
  unfold probe_candidate. eapply triple_bind; [apply new_generation_spec|]. intros g.
  eapply triple_bind; [apply K_interrupt|]. intros []. eapply triple_bind; [apply keeps_gets|]. intros result.
  set (o' := Some (interface_number candidate, g)).
  apply (triple_bind _ _ (fun _ s => probing_at o' false Opened (Some g) s)).
  { intros s []. split; cbn; auto; try done.
    - intros _. right. by rewrite (pa_generation0 g).
    - intros Hp. by specialize (pa_probing0 Hp). }
  intros _. destruct result as [err|h].
  - eapply triple_bind; [apply K_update|]. intros [].
    apply (triple_bind _ _ (fun _ s => probing_at o' false Idle None s)); [|intros _; apply triple_ret; eauto].
    intros s []. unfold modify. cbn [fst snd]. destruct (_ =? _); split; cbn; auto; try done; intros Hp; by specialize (pa_probing0 Hp).
  - apply (triple_bind _ _ (fun _ s => probing_at o' false Opened None s)).
    { intros s []. split; cbn; auto. done. }
    intros _. eapply triple_weaken; [apply (probe_loop_spec _ h o' Opened ltac:(done))|done|].
    intros r s Hs. by exists g.
Qed.

(** Between two probes. *)
Definition idle (s : usb) : Prop := exists o, probing_at o false Idle None s.

Lemma idle_any o b s : probing_at o b Idle None s -> idle s.
Proof. intros []. exists o. by split. Qed.

Lemma idle_keeps {A} (c : M A) : (forall o, keeps (probing_at o false Idle None) c) -> keeps idle c.
Proof. intros Hc s [o Hs]. exists o. by apply Hc. Qed.

Lemma idle_log e : quiet e = true -> keeps idle (usb_log e).
Proof. intros. apply idle_keeps. intros o. by apply K_log. Qed.

Lemma idle_update f : keeps idle (update_diagnostics f).
Proof. apply idle_keeps. intros o. by apply K_update. Qed.

Lemma idle_emit e : e <> MODEM_USB_EVENT_AT_READY -> keeps idle (emit_event e).
Proof. intros. apply idle_keeps. intros o. by apply K_emit. Qed.

Lemma idle_interrupt : keeps idle (interrupt cfg env).
Proof. apply idle_keeps. intros o. apply K_interrupt. Qed.

Lemma idle_modify f :
  (forall s, us_trace (f s) = us_trace s /\ us_probing (f s) = us_probing s) -> keeps idle (modify f).
Proof. intros Hf s [o []]. destruct (Hf s) as (Et & Ep). exists o. split; cbn; rewrite ?Et, ?Ep; try done. Qed.

Lemma idle_close expected : keeps idle (close_current_handle expected).
Proof. apply idle_keeps. intros o. apply K_close. Qed.

Lemma idle_stop : keeps idle stop_probe_parser.
Proof. apply idle_keeps. intros o. apply K_stop. Qed.

Lemma idle_selected device candidate g :
  triple (probing_at (Some (interface_number candidate, g)) true Idle None)
    (update_selected_candidate device candidate;; emit_event MODEM_USB_EVENT_AT_READY) (fun _ => idle).
Proof.
  intros s []. unfold emit_event, update_selected_candidate, update_diagnostics, gets, when, modify, mbind, state_bind.
  cbn [us_event_cb update]. destruct (us_event_cb _); eexists; split; cbn; auto; try done.
  split; [|done]. split; [by apply pa_answered0|]. by rewrite pa_open0.
Qed.

Lemma idle_candidates device candidates : keeps idle (probe_candidates cfg env device candidates).
Proof.
  induction candidates as [|candidate candidates IH]; cbn [probe_candidates].
  { apply keeps_bind; [apply idle_update|]. intros _. by apply idle_emit. }
  apply keeps_bind; [apply idle_update|]. intros _. apply keeps_bind; [by apply idle_emit|]. intros _.
  apply (triple_bind _ _ (fun r s => exists g, probing_at (Some (interface_number candidate, g)) r Idle None s)).
  { intros s [o Hs]. exact (probe_spec candidate o s Hs). }
  intros []; [intros s [g Hs]; by apply (idle_selected device candidate g)|].
  apply triple_pre with idle; [|intros s [g Hs]; by eapply idle_any].
  apply keeps_bind; [apply keeps_gets|]. intros []; cbn [negb]; [done|apply keeps_ret].
Qed.

Lemma idle_found device new : keeps idle (handle_device_found cfg env device new).
Proof.
  unfold handle_device_found. apply keeps_bind; [by apply idle_modify|]. intros _.
  apply keeps_bind; [apply idle_update|]. intros _. apply keeps_bind; [by apply idle_modify|]. intros _.
  apply keeps_bind; [apply keeps_when; intros _; by apply idle_emit|]. intros _.
  destruct (wd_candidates device); [|apply idle_candidates].
  apply keeps_bind; [apply idle_update|]. intros _. by apply idle_emit.
Qed.

Lemma idle_worker event : keeps idle (worker_event cfg env event).
Proof.
  destruct event as [|device|handle|error g]; cbn [worker_event].
  - apply keeps_bind; [apply idle_update|]. intros _. by apply idle_emit.
  - apply idle_found.
  - unfold handle_disconnect. apply keeps_bind; [apply idle_stop|]. intros _. apply keeps_bind; [apply idle_close|]. intros _.
    apply keeps_bind; [apply idle_interrupt|]. intros _. apply keeps_bind; [apply idle_update|]. intros _.
    apply keeps_bind; [by apply idle_modify|]. intros _. by apply idle_emit.
  - apply keeps_bind; [apply idle_update|]. intros _. apply keeps_bind; [apply keeps_gets|]. intros retry.
    apply keeps_bind; [apply keeps_gets|]. intros saved. apply keeps_bind.
    { apply keeps_when. intros _. apply keeps_bind; [apply idle_close|]. intros _. apply idle_interrupt. }
    intros _. apply keeps_bind; [by apply idle_emit|]. intros _. apply keeps_when. intros _.
    apply keeps_bind; [by apply idle_log|]. intros _. apply keeps_bind; [apply idle_interrupt|]. intros _. apply idle_found.
Qed.

Lemma idle_step step : keeps idle (usb_step_run cfg env step).
Proof.
  destruct step as [call| |rx_cb]; cbn [usb_step_run].
  - apply idle_keeps. intros o. apply K_call.
  - unfold modem_usb_worker_turn. apply keeps_bind.
    + intros s [o Hs]. exists o. destruct (us_work_queue s) as [[|w q]|]; [done| |done]. by destruct Hs; split.
    + intros [w|]; [apply idle_worker|apply keeps_ret].
  - apply keeps_bind; [|intros; apply keeps_ret]. apply keeps_bind; [by apply idle_modify|intros; apply keeps_ret].
Qed.


End Probe.


(** ** The USB transport: what a transport error does, and examples *)

(** The error bit is still set, for [e], and nothing is ready. *)
Definition unready (e : bool) (s : usb) : Prop :=
  (e = true -> us_transport_error s = true) /\ ud_at_ready (us_diagnostics s) = false.

Section Keep.

Context (e : bool).

Lemma unready_modify f :
  (forall s, (us_transport_error s = true -> us_transport_error (f s) = true) /\
     (ud_at_ready (us_diagnostics s) = false -> ud_at_ready (us_diagnostics (f s)) = false)) -> keeps (unready e) (modify f).
Proof. intros Hf s [He Hr]. destruct (Hf s) as [H1 H2]. split; [intros E; by apply H1, He|by apply H2]. Qed.

Lemma unready_log x : keeps (unready e) (usb_log x).
Proof. by apply unready_modify. Qed.

Lemma unready_update f : (forall d, ud_at_ready d = false -> ud_at_ready (f d) = false) -> keeps (unready e) (update_diagnostics f).
Proof. intros Hf. apply unready_modify. split; [done|]. apply Hf. Qed.

Lemma unready_emit x : keeps (unready e) (emit_event x).
Proof.
  unfold emit_event. apply keeps_bind; [apply keeps_gets|]. intros cb. apply keeps_when. intros _.
  apply keeps_bind; [apply keeps_gets|]. intros d. apply unready_log.
Qed.

Lemma unready_send w : keeps (unready e) (work_send w).
Proof. apply unready_modify. intros s. destruct (us_work_queue s); [|done]. by destruct (_ <? _)%nat. Qed.

Lemma unready_stop : keeps (unready e) stop_probe_parser.
Proof. by apply unready_modify. Qed.

Lemma unready_reset : keeps (unready e) reset_probe_parser.
Proof. unfold reset_probe_parser. apply keeps_bind; [|intros _]; by apply unready_modify. Qed.

Lemma unready_rx data g : keeps (unready e) (cdc_rx_callback data g).
Proof.
  unfold cdc_rx_callback. apply keeps_bind; [apply keeps_gets|]. intros []; cbn [negb]; [|apply keeps_ret].
  apply keeps_bind.
  { intros s Hs. destruct (us_probing s); [|done]. by destruct (probe_bytes _ _ _) as [[line len] found]. }
  intros found. apply keeps_bind.
  { apply keeps_when. intros _. apply keeps_bind; [apply unready_log|]. intros _. by apply unready_modify. }
  intros _. apply keeps_bind; [apply keeps_gets|]. intros forward. apply keeps_when. intros _. apply unready_log.
Qed.

Lemma unready_event event g : keeps (unready e) (cdc_device_event_callback event g).
Proof.
  unfold cdc_device_event_callback. destruct event as [event|]; [|apply keeps_ret].
  apply keeps_bind; [apply keeps_gets|]. intros []; cbn [negb]; [|apply keeps_ret].
  destruct event; try apply keeps_ret;
    (apply keeps_bind; [by apply unready_update|]; intros _; apply keeps_bind; [|intros _; apply unready_send];
     apply unready_modify; intros s; by destruct (us_probe_events s)).
Qed.

Context (cfg : usb_config) (env : usb_environment).

Lemma unready_write data : keeps (unready e) (write_open_handle env data).
Proof.
  unfold write_open_handle. destruct data as [[|c data]|]; try apply keeps_ret.
  apply keeps_bind; [apply keeps_gets|]. intros []; cbn [negb]; [|apply keeps_ret].
  apply keeps_bind; [apply unready_log|]. intros _.
  apply keeps_bind; [apply keeps_gets|]. intros []; cbn [negb]; [|apply keeps_ret].
  apply keeps_bind; [apply keeps_gets|]. intros [h|]; [|apply keeps_ret].
  apply keeps_bind; [apply keeps_gets|]. intros err. apply keeps_bind; [apply unready_log|]. intros _. apply keeps_ret.
Qed.

Lemma unready_close expected : keeps (unready e) (close_current_handle expected).
Proof.
  unfold close_current_handle. apply keeps_bind; [apply keeps_gets|]. intros []; cbn [negb]; [|apply keeps_ret].
  apply keeps_bind; [apply keeps_gets|]. intros [h|]; [|apply keeps_ret]. destruct (_ || _); [|apply keeps_ret].
  apply keeps_bind; [by apply unready_modify|]. intros _. apply unready_log.
Qed.

Lemma unready_call call : keeps (unready e) (usb_call_run cfg env call).
Proof.
  destruct call; cbn [usb_call_run]; [apply unready_rx|apply unready_event| |].
  - unfold new_usb_device_callback. keeps_tac. apply unready_send.
  - apply keeps_bind; [|intros; apply keeps_ret].
    unfold modem_usb_transport_write. apply keeps_bind; [apply keeps_gets|]. intros []; [apply unready_write|apply keeps_ret].
Qed.

Lemma unready_interrupt : keeps (unready e) (interrupt cfg env).
Proof.
  unfold interrupt. apply keeps_bind; [apply unready_log|]. intros _. apply keeps_bind; [apply keeps_gets|].
  intros calls. induction calls; cbn; [apply keeps_ret|]. apply keeps_bind; [apply unready_call|done].
Qed.

End Keep.

Section Errors.

Variable cfg : usb_config.
Variable env : usb_environment.

(** The outcome of a probe: no. *)
Definition refused (r : bool) (s : usb) : Prop := r = false /\ ud_at_ready (us_diagnostics s) = false.

Lemma unready_give_up e h : triple (unready e) (abandon_handle cfg env h) refused.
Proof.
  unfold abandon_handle. apply (triple_bind _ _ (fun _ => unready e)); [apply unready_stop|]. intros _.
  apply (triple_bind _ _ (fun _ => unready e)); [apply unready_close|]. intros _.
  apply (triple_bind _ _ (fun _ => unready e)); [apply unready_interrupt|]. intros _. apply triple_ret. by intros s [].
Qed.

(** A pending error ends the wait, and the wait reports it. *)
Lemma unready_wait : triple (unready true) (wait_bits cfg env) (fun bits s => bits.1.2 = true /\ unready false s).
Proof.
  unfold wait_bits. apply (triple_bind _ _ (fun _ => unready true)); [apply keeps_gets|]. intros pending.
  apply (triple_bind _ _ (fun _ => unready true)); [apply keeps_when; intros _; apply unready_interrupt|]. intros _.
  intros s [He Hr]. unfold probe_bits, gets, mbind, state_bind. cbn. split; [by apply He|]. by split.
Qed.

Lemma unready_loop attempts h : triple (unready true) (probe_loop cfg env attempts h) refused.
Proof.
  induction attempts as [|attempts IH]; cbn [probe_loop]; [apply unready_give_up|].
  apply (triple_bind _ _ (fun _ => unready true)); [by apply unready_update|]. intros _.
  apply (triple_bind _ _ (fun _ => unready true)); [apply unready_reset|]. intros _.
  apply (triple_bind _ _ (fun _ => unready true)); [apply unready_write|]. intros err.
  apply (triple_bind _ _ (fun _ => unready true)); [apply unready_interrupt|]. intros _.
  destruct (bool_decide _).
  - apply (triple_bind _ _ (fun _ => unready true)); [by apply unready_update|]. intros _.
    apply (triple_bind _ _ (fun _ => unready true)); [apply keeps_gets|]. intros []; [apply unready_give_up|done].
  - eapply triple_bind; [apply unready_wait|]. intros [[gone error] ok]. apply triple_pure. cbn. intros ->.
    destruct gone; apply unready_give_up.
Qed.

Lemma unready_probe candidate : triple (unready true) (probe_candidate cfg env candidate) refused.
Proof.
  unfold probe_candidate. apply (triple_bind _ _ (fun _ => unready true)).
  { unfold new_generation. apply keeps_bind; [by apply unready_modify|]. intros _.
    apply keeps_bind; [apply keeps_gets|]. intros g0. apply keeps_bind; [apply keeps_when; intros _; by apply unready_modify|].
    intros _. apply keeps_bind; [apply keeps_gets|]. intros g. apply keeps_bind; [by apply unready_modify|].
    intros _. apply keeps_ret. }
  intros g. apply (triple_bind _ _ (fun _ => unready true)); [apply unready_interrupt|]. intros _.
  apply (triple_bind _ _ (fun _ => unready true)); [apply keeps_gets|]. intros result.
  apply (triple_bind _ _ (fun _ => unready true)); [apply unready_log|]. intros _. destruct result as [err|h].
  - apply (triple_bind _ _ (fun _ => unready true)); [by apply unready_update|]. intros _.
    apply (triple_bind _ _ (fun _ => unready true)); [|intros _; apply triple_ret; by intros s []].
    apply unready_modify. intros s. by destruct (_ =? _).
  - apply (triple_bind _ _ (fun _ => unready true)); [by apply unready_modify|]. intros _. apply unready_loop.
Qed.

Lemma unready_found device candidate new :
  wd_candidates device = [candidate] ->
  triple (fun s => us_transport_error s = true) (handle_device_found cfg env device new)
    (fun _ s => ud_at_ready (us_diagnostics s) = false).
Proof.
  intros Ec. unfold handle_device_found. rewrite Ec.
  apply (triple_bind _ _ (fun _ s => us_transport_error s = true)); [by intros s|]. intros _.
  apply (triple_bind _ _ (fun _ => unready true)); [by intros s Hs|]. intros _.
  apply (triple_bind _ _ (fun _ => unready true)); [by apply unready_modify|]. intros _.
  apply (triple_bind _ _ (fun _ => unready true)); [apply keeps_when; intros _; apply unready_emit|]. intros _.
  cbn [probe_candidates]. apply (triple_bind _ _ (fun _ => unready true)); [by apply unready_update|]. intros _.
  apply (triple_bind _ _ (fun _ => unready true)); [apply unready_emit|]. intros _.
  eapply triple_bind; [apply unready_probe|]. intros answered. apply triple_pure. intros ->.
  apply triple_pre with (unready false); [|intros s Hr; by split].
  apply (triple_bind _ _ (fun _ => unready false)); [apply keeps_gets|]. intros []; cbn [negb].
  - apply (triple_bind _ _ (fun _ => unready false)); [by apply unready_update|]. intros _.
    intros s Hs. by apply (unready_emit false MODEM_USB_EVENT_ERROR s Hs).
  - apply triple_ret. by intros s [].
Qed.

Lemma usb_run_cons step steps s : (usb_run cfg env (step :: steps) s).1 = (usb_run cfg env steps (usb_step_run cfg env step s).1).1.
Proof. cbn [usb_run]. unfold mbind, state_bind. by destruct (usb_step_run cfg env step s). Qed.

(** The reprobing after an error that set the bit. *)
Lemma error_turn device candidate g q s :
  us_transport_error s = true -> us_work_queue s = Some (WORK_EVENT_ERROR ESP_FAIL g :: q) ->
  current_generation g s = true -> us_last_device s = device -> us_last_device_valid s = true ->
  ud_at_ready (us_diagnostics s) = false -> wd_candidates device = [candidate] ->
  ud_at_ready (us_diagnostics (modem_usb_worker_turn cfg env s).1) = false.
Proof.
  intros He Hq Hg Hd Hv Hr Hc. unfold modem_usb_worker_turn, mbind at 1, state_bind at 1. rewrite Hq.
  set (s1 := s <| us_work_queue := Some q |>).
  assert (unready true s1 /\ current_generation g s1 && us_last_device_valid s1 = true /\ us_last_device s1 = device) as Hs1.
  { split; [by split|]. split; [|done]. change (current_generation g s && us_last_device_valid s = true). by rewrite Hg, Hv. }
  clearbody s1. clear s He Hq Hg Hd Hv Hr. revert s1 Hs1.
  enough (triple (fun s => unready true s /\ current_generation g s && us_last_device_valid s = true /\ us_last_device s = device)
    (worker_event cfg env (WORK_EVENT_ERROR ESP_FAIL g)) (fun _ s => ud_at_ready (us_diagnostics s) = false)) as H by apply H.
  cbn [worker_event].
  apply (triple_bind _ _ (fun _ s => unready true s /\ current_generation g s && us_last_device_valid s = true /\ us_last_device s = device));
    [by intros s|]. intros _.
  apply (triple_bind _ _ (fun retry s => retry = true /\ unready true s /\ us_last_device s = device)); [by intros s (? & ? & ?)|].
  intros retry. apply triple_pure. intros ->.
  apply (triple_bind _ _ (fun saved s => saved = device /\ unready true s)); [by intros s (? & ?)|].
  intros saved. apply triple_pure. intros ->.
  apply (triple_bind _ _ (fun _ => unready true)).
  { apply keeps_when. intros _. apply keeps_bind; [apply unready_close|]. intros _. apply unready_interrupt. }
  intros _. apply (triple_bind _ _ (fun _ => unready true)); [apply unready_emit|]. intros _. cbn [when].
  apply (triple_bind _ _ (fun _ => unready true)); [apply unready_log|]. intros _.
  apply (triple_bind _ _ (fun _ => unready true)); [apply unready_interrupt|]. intros _.
  eapply triple_pre; [by apply (unready_found device candidate)|]. intros s [He _]. by apply He.
Qed.

(** C32. After an error of the transport the modem does not become ready again
    by the reprobing that follows, if its device has one serial interface:
    whatever the interface answers, even if it opens and answers OK at once.
    The bit that the error set is still set when the probe waits for the
    answer, and ends it. *)
Theorem error_reprobe_refused device candidate g s :
  us_work_queue s = Some [] -> us_probe_events s = true -> current_generation g s = true ->
  us_last_device s = device -> us_last_device_valid s = true -> wd_candidates device = [candidate] ->
  ud_at_ready (us_diagnostics
    (usb_run cfg env [U_call (UC_event (Some CDC_ACM_HOST_ERROR) g); U_turn] s).1) = false.
Proof.
  intros Hq Hev Hg Hd Hv Hc. rewrite !usb_run_cons. cbn [usb_step_run usb_call_run usb_run mret state_ret fst].
  assert (cdc_device_event_callback (Some CDC_ACM_HOST_ERROR) g s =
    (((s <| us_diagnostics := (us_diagnostics s) <| ud_at_ready := false |> <| ud_last_error := ESP_FAIL |> |>)
       <| us_transport_error := true |>) <| us_work_queue := Some [WORK_EVENT_ERROR ESP_FAIL g] |>, tt)) as ->.
  { unfold cdc_device_event_callback, gets, mbind, state_bind. rewrite Hg. cbn [negb].
    unfold update_diagnostics, work_send, modify. cbn. rewrite Hev. cbn. by rewrite Hq. }
  by eapply (error_turn device candidate g []).
Qed.

End Errors.

Lemma error_reprobe_refused_witness :
  ud_at_ready (us_diagnostics ready_usb) = true /\
  ud_at_ready (us_diagnostics (usb_run sample_usb_config (sample_usb_env answering)
    [U_call (UC_event (Some CDC_ACM_HOST_ERROR) 1); U_turn] ready_usb).1) = false.
Proof.
  split; [vm_compute; reflexivity|].
  refine (error_reprobe_refused sample_usb_config (sample_usb_env answering) one_interface (sample_candidate 2) 1 ready_usb
    _ _ _ _ _ _); vm_compute; reflexivity.
Defined.

(** The error of the first interface is handled when the second one is ready:
    that one is closed, and still reported as ready. *)
Example late_error_closes_ready :
  map (fun turns => let s := after_first_fails turns in
    (ud_at_ready (us_diagnostics s), ud_interface_number (us_diagnostics s), us_cdc_handle s)) [1%nat; 2%nat] =
  [(true, 3, Some 1001); (true, 3, None)].
Proof. vm_compute. reflexivity. Qed.
