(* ===== verification/UsbModeSwitch.v ===== *)
(** * The mode switch of cold modems (components/usb_modem_transport/
      usb_modem_transport.c)

    A Huawei modem that starts as a mass storage device is sent a message on
    the bulk OUT endpoint of that interface.  The answers of the USB host
    library for one device are a [switch_environment]; the two waits for the
    transfer are modelled by the status with which it completes in them, if it
    does. *)

From Stdlib Require Import Ascii String.
From Stdlib Require Import ZifyBool ZifyNat.
From stdpp Require Import base numbers list strings.
From S2P Require Import Prelude.
From S2P Require Import StateMonad.
From S2P Require Import UsbDescriptor.
From S2P Require Import UsbTransport.

Open Scope Z_scope.

Definition USB_CLASS_MASS_STORAGE : Z := 0x08.

(** The variables of the loop; a cursor is the rest of the descriptor. *)
Record storage_scan := mk_storage_scan { mass_storage : bool; current_interface : Z }.

(** What one descriptor does: the result, or the variables after it. *)
Definition storage_step (cursor : list Z) (v : storage_scan) : (Z * Z) + storage_scan :=
  if is_interface cursor then
    inr (mk_storage_scan ((cursor.[3] =? 0) && (cursor.[5] =? USB_CLASS_MASS_STORAGE)) cursor.[2])
  else if is_endpoint cursor && mass_storage v
          && (Z.land cursor.[3] USB_EP_XFER_TYPE_MASK =? USB_EP_XFER_BULK) && (Z.land cursor.[2] USB_EP_DIR_IN =? 0)
  then inl (current_interface v, cursor.[2])
  else inr v.

(** [None] when the fuel runs out; then the interface and the endpoint. *)
Fixpoint storage_loop (fuel : nat) (cursor : list Z) (v : storage_scan) : option (option (Z * Z)) :=
  match fuel with
  | O => None
  | S fuel =>
      if negb (2 <=? length cursor)%nat then Some None
      else
        let len := Z.to_nat cursor.[0] in
        if (len <? 2)%nat || (length cursor <? len)%nat then Some None
        else match storage_step cursor v with
             | inl r => Some (Some r)
             | inr v => storage_loop fuel (drop len cursor) v
             end
  end.

Definition find_mass_storage_bulk_out (config : option (list Z)) : option (option (Z * Z)) :=
  match config with
  | None => Some None
  | Some config => storage_loop (S (length config)) config (mk_storage_scan false 0)
  end.

Inductive usb_transfer_status_t :=
  | USB_TRANSFER_STATUS_COMPLETED | USB_TRANSFER_STATUS_ERROR | USB_TRANSFER_STATUS_TIMED_OUT
  | USB_TRANSFER_STATUS_CANCELED | USB_TRANSFER_STATUS_STALL | USB_TRANSFER_STATUS_OVERFLOW
  | USB_TRANSFER_STATUS_SKIPPED | USB_TRANSFER_STATUS_NO_DEVICE.

#[global] Instance usb_transfer_status_eq_dec : EqDecision usb_transfer_status_t.
Proof. solve_decision. Defined.

(** What was asked of the USB host library, the last one first. *)
Inductive switch_effect :=
  | SE_open (address : Z)
  | SE_close
  | SE_claim (interface : Z)
  | SE_release (interface : Z)
  | SE_alloc
  | SE_free
  | SE_submit (endpoint : Z) (message : list Z) (err : esp_err_t)
  | SE_halt (endpoint : Z)
  | SE_flush (endpoint : Z)
  | SE_restart.

(** [sw_done] and [sw_flushed]: the status with which the transfer completes
    before the first and before the second deadline. *)
Record switch_environment := mk_switch_env {
  sw_open : bool;
  sw_ids : option (Z * Z);
  sw_config : option (list Z);
  sw_claim : esp_err_t;
  sw_alloc : esp_err_t;
  sw_submit : esp_err_t;
  sw_done : option usb_transfer_status_t;
  sw_flushed : option usb_transfer_status_t;
}.

Record switching := mk_switching { sg_diagnostics : modem_usb_diagnostics_t; sg_trace : list switch_effect }.

#[export] Instance eta_switching : Eta switching := fun s => mk_switching (sg_diagnostics s) (sg_trace s).

Abbreviation M := (State switching).

Definition switch_log (e : switch_effect) : M unit := modify (fun s => s <| sg_trace := e :: sg_trace s |>).

Definition mode_switch_count (success : bool) : M unit :=
  modify (fun s =>
    let d := (sg_diagnostics s) in
    let d := d <| ud_mode_switch_attempts := u32 (ud_mode_switch_attempts d + 1) |> in
    let d := if success then d <| ud_mode_switch_successes := u32 (ud_mode_switch_successes d + 1) |>
             else d <| ud_mode_switch_failures := u32 (ud_mode_switch_failures d + 1) |> in
    s <| sg_diagnostics := d |>).

(** [mode_switch_transfer_cb] has set [done] with this status. *)
Definition transfer_done (env : switch_environment) : option usb_transfer_status_t :=
  if bool_decide (sw_submit env = ESP_OK) then
    match sw_done env with Some status => Some status | None => sw_flushed env end
  else None.

Definition switch_success (status : usb_transfer_status_t) : bool :=
  bool_decide (status ∈ [USB_TRANSFER_STATUS_COMPLETED; USB_TRANSFER_STATUS_NO_DEVICE; USB_TRANSFER_STATUS_CANCELED]).

(** From the allocation of the transfer on. *)
Definition send_switch_message (env : switch_environment) (interface_number bulk_out : Z) : M unit :=
  if bool_decide (sw_alloc env <> ESP_OK) then
    mode_switch_count false;; switch_log (SE_release interface_number);; switch_log SE_close
  else
    switch_log SE_alloc;;
    let message := (huawei_mode_switch_message (Some (replicate HUAWEI_MODE_SWITCH_MESSAGE_LEN 0))).1 in
    switch_log (SE_submit bulk_out (default [] message) (sw_submit env));;
    when (bool_decide (sw_submit env = ESP_OK) && bool_decide (sw_done env = None))
      (switch_log (SE_halt bulk_out);; switch_log (SE_flush bulk_out));;
    match transfer_done env with
    | None => mode_switch_count false;; switch_log SE_restart
    | Some status =>
        mode_switch_count (bool_decide (sw_submit env = ESP_OK) && switch_success status);;
        switch_log SE_free;; switch_log (SE_release interface_number);; switch_log SE_close
    end.

Definition process_mode_switch_device (cfg : usb_config) (env : switch_environment) (address : Z) : M unit :=
  if negb (sw_open env) then mret tt
  else
    switch_log (SE_open address);;
    match sw_ids env with
    | None => switch_log SE_close
    | Some (vid, pid) =>
        if negb (vid =? HUAWEI_USB_VID)
           || negb (huawei_mode_switch_pid_supported pid (CONFIG_GATEWAY_MODEM_USB_SWITCH_PID_EXTRA cfg))
        then switch_log SE_close
        else
          match sw_config env with
          | None => mode_switch_count false;; switch_log SE_close
          | Some config =>
              match find_mass_storage_bulk_out (Some config) with
              | Some (Some (interface_number, bulk_out)) =>
                  if bool_decide (sw_claim env <> ESP_OK) then mode_switch_count false;; switch_log SE_close
                  else
                    switch_log (SE_claim interface_number);;
                    send_switch_message env interface_number bulk_out
              | _ => mode_switch_count false;; switch_log SE_close
              end
          end
    end.

(** ** The search *)

(** An interface of mass storage with its number, and behind it, before the
    next interface, a bulk OUT endpoint. *)
Inductive storage_endpoint : list Z -> storage_scan -> Z -> Z -> Prop :=
  | storage_here cursor v interface endpoint :
      (2 <= length cursor)%nat -> (2 <= Z.to_nat cursor.[0] <= length cursor)%nat ->
      storage_step cursor v = inl (interface, endpoint) -> storage_endpoint cursor v interface endpoint
  | storage_later cursor v v' interface endpoint :
      (2 <= length cursor)%nat -> (2 <= Z.to_nat cursor.[0] <= length cursor)%nat ->
      storage_step cursor v = inr v' -> storage_endpoint (drop (Z.to_nat cursor.[0]) cursor) v' interface endpoint ->
      storage_endpoint cursor v interface endpoint.

(** The search ends, and finds the first endpoint of that kind if there is one. *)
Lemma storage_loop_spec fuel cursor v :
  (length cursor < fuel)%nat ->
  exists r, storage_loop fuel cursor v = Some r /\
    forall interface endpoint, r = Some (interface, endpoint) <-> storage_endpoint cursor v interface endpoint.
Proof.
  revert cursor v. induction fuel as [|fuel IH]; intros cursor v Hf; [lia|]. cbn [storage_loop].
  destruct (Nat.leb_spec 2 (length cursor)); cbn [negb].
  2: { exists None. split; [done|]. intros. split; [done|]. intros Hs. inversion Hs; lia. }
  destruct (_ || _) eqn:El.
  { exists None. split; [done|]. intros. split; [done|]. intros Hs. inversion Hs; lia. }
  destruct (storage_step cursor v) as [[i e]|v'] eqn:Es.
  - exists (Some (i, e)). split; [done|]. intros interface endpoint. split.
    + intros [= <- <-]. apply storage_here; [lia|lia|done].
    + intros Hs. inversion Hs; congruence.
  - destruct (IH (drop (Z.to_nat cursor.[0]) cursor) v') as (r & Hr & Hi); [rewrite length_drop; lia|].
    exists r. split; [done|]. intros interface endpoint. rewrite Hi. split.
    + apply storage_later; [lia|lia|done].
    + intros Hs. inversion Hs; congruence.
Qed.

Lemma storage_endpoint_out cursor v interface endpoint :
  storage_endpoint cursor v interface endpoint -> Z.land endpoint USB_EP_DIR_IN = 0.
Proof.
  induction 1 as [cursor v i e _ _ Hs|]; [|done]. unfold storage_step in Hs.
  destruct (is_interface cursor); [done|]. destruct (_ && _) eqn:E; [|done]. injection Hs as _ <-. lia.
Qed.

(** ** Resources *)

Definition count_effect (p : switch_effect -> bool) (tr : list switch_effect) : nat :=
  length (List.filter p tr).

Definition is_open (e : switch_effect) : bool := if e is SE_open _ then true else false.
Definition is_close (e : switch_effect) : bool := if e is SE_close then true else false.
Definition is_claim (e : switch_effect) : bool := if e is SE_claim _ then true else false.
Definition is_release (e : switch_effect) : bool := if e is SE_release _ then true else false.
Definition is_alloc (e : switch_effect) : bool := if e is SE_alloc then true else false.
Definition is_free (e : switch_effect) : bool := if e is SE_free then true else false.
Definition is_restart (e : switch_effect) : bool := if e is SE_restart then true else false.

(** Everything that was taken was given back. *)
Definition balanced (tr : list switch_effect) : Prop :=
  count_effect is_open tr = count_effect is_close tr /\ count_effect is_claim tr = count_effect is_release tr /\
  count_effect is_alloc tr = count_effect is_free tr.

(** What the sending adds to the trace. *)
Definition sent (env : switch_environment) (i e : Z) : list switch_effect :=
  if bool_decide (sw_alloc env <> ESP_OK) then [SE_close; SE_release i]
  else
    match transfer_done env with Some _ => [SE_close; SE_release i; SE_free] | None => [SE_restart] end ++
    (if bool_decide (sw_submit env = ESP_OK) && bool_decide (sw_done env = None) then [SE_flush e; SE_halt e] else []) ++
    [SE_submit e mode_switch_bytes (sw_submit env); SE_alloc].

Lemma send_trace env i e d tr :
  sg_trace (send_switch_message env i e (mk_switching d tr)).1 = sent env i e ++ tr.
Proof.
  unfold send_switch_message, sent. destruct (bool_decide (sw_alloc env <> ESP_OK)); [done|].
  change (default [] _) with mode_switch_bytes.
  destruct (bool_decide (sw_submit env = ESP_OK) && bool_decide (sw_done env = None)), (transfer_done env); reflexivity.
Qed.

Definition switch_proper (cfg : usb_config) (env : switch_environment) (tr : list switch_effect) : Prop :=
  (existsb is_restart tr = false -> balanced tr) /\
  (existsb is_restart tr = true -> transfer_done env = None /\ existsb is_free tr = false) /\
  (existsb is_free tr = true -> transfer_done env <> None) /\
  (forall endpoint message err, SE_submit endpoint message err ∈ tr ->
     message = mode_switch_bytes /\ Z.land endpoint USB_EP_DIR_IN = 0 /\
     exists config interface pid, sw_config env = Some config /\ sw_ids env = Some (HUAWEI_USB_VID, pid) /\
       huawei_mode_switch_pid_supported pid (CONFIG_GATEWAY_MODEM_USB_SWITCH_PID_EXTRA cfg) = true /\
       storage_endpoint config (mk_storage_scan false 0) interface endpoint).

Lemma refused_proper cfg env address : switch_proper cfg env [SE_close; SE_open address].
Proof.
  split_and!; try done. intros endpoint message err Hin. rewrite !elem_of_cons, elem_of_nil in Hin.
  by destruct Hin as [?|[?|?]].
Qed.

Lemma sent_balanced env i e address :
  let tr := sent env i e ++ [SE_claim i; SE_open address] in
  (existsb is_restart tr = false -> balanced tr) /\
  (existsb is_restart tr = true -> transfer_done env = None /\ existsb is_free tr = false) /\
  (existsb is_free tr = true -> transfer_done env <> None).
Proof.
  unfold sent. destruct (bool_decide (sw_alloc env <> ESP_OK)); [done|].
  by destruct (transfer_done env), (bool_decide (sw_submit env = ESP_OK) && _).
Qed.

Lemma sent_submit env i e address endpoint message err :
  SE_submit endpoint message err ∈ sent env i e ++ [SE_claim i; SE_open address] ->
  endpoint = e /\ message = mode_switch_bytes.
Proof.
  unfold sent. generalize mode_switch_bytes. intros bytes.
  destruct (bool_decide (sw_alloc env <> ESP_OK)), (transfer_done env),
    (bool_decide (sw_submit env = ESP_OK) && bool_decide (sw_done env = None));
    cbn; rewrite !elem_of_cons, ?elem_of_nil; intros Hin; repeat destruct Hin as [Hin|Hin]; try done; by injection Hin as -> -> ->.
Qed.

(** Whatever the USB host library answers, the mode switch of a device
    gives back the device, the interface and the transfer, except that it
    restarts the gateway when the transfer did not complete; it never frees a
    transfer that did not complete; what it sends is the switch message, to an
    OUT endpoint of a mass storage interface of the device, and only to the
    devices to be switched. *)
Theorem mode_switch_gives_back cfg env address d :
  switch_proper cfg env (sg_trace (process_mode_switch_device cfg env address (mk_switching d [])).1).
Proof.
  unfold process_mode_switch_device. destruct (sw_open env); cbn [negb].
  2: { split_and!; try done. by intros ? ? ? ?%elem_of_nil. }
  destruct (sw_ids env) as [[vid pid]|] eqn:Eids; [|exact (refused_proper cfg env address)].
  destruct (Z.eqb_spec vid HUAWEI_USB_VID) as [->|]; cbn [negb orb]; [|exact (refused_proper cfg env address)].
  destruct (huawei_mode_switch_pid_supported pid _) eqn:Epid; cbn [negb]; [|exact (refused_proper cfg env address)].
  destruct (sw_config env) as [config|] eqn:Econ; [|exact (refused_proper cfg env address)].
  destruct (storage_loop_spec (S (length config)) config (mk_storage_scan false 0) ltac:(lia)) as (r & Hr & Hi).
  change (find_mass_storage_bulk_out (Some config)) with (storage_loop (S (length config)) config (mk_storage_scan false 0)).
  rewrite Hr. destruct r as [[i e]|]; [|exact (refused_proper cfg env address)].
  specialize (Hi i e). destruct Hi as [Hi _]. specialize (Hi eq_refl).
  destruct (bool_decide (sw_claim env <> ESP_OK)); [exact (refused_proper cfg env address)|].
  change (switch_proper cfg env (sg_trace (send_switch_message env i e (mk_switching d [SE_claim i; SE_open address])).1)).
  rewrite send_trace. destruct (sent_balanced env i e address) as (H1 & H2 & H3). split_and!; [done..|].
  intros endpoint message err Hin. destruct (sent_submit env i e address endpoint message err Hin) as [-> ->].
  split; [done|]. split; [by eapply storage_endpoint_out|]. by exists config, i, pid.
Qed.

(** A device of the kind, in storage mode, with the answers of a good day. *)
Definition storage_config : list Z :=
  [9; 2; 32; 0; 1; 1; 0; 0x80; 250] ++ [9; 4; 0; 0; 2; 8; 6; 0x50; 0] ++ [7; 5; 0x81; 2; 0; 2; 0] ++ [7; 5; 0x02; 2; 0; 2; 0].

Definition sample_switch (submit : esp_err_t) (done : option usb_transfer_status_t) : switch_environment :=
  mk_switch_env true (Some (HUAWEI_USB_VID, 0x14FE)) (Some storage_config) ESP_OK ESP_OK submit done None.

Example switch_good_day :
  rev (sg_trace (process_mode_switch_device (mk_usb_config 0x12d1 0x1506 0 2)
    (sample_switch ESP_OK (Some USB_TRANSFER_STATUS_COMPLETED)) 3 (mk_switching usb_diag_zero [])).1) =
  [SE_open 3; SE_claim 0; SE_alloc; SE_submit 2 mode_switch_bytes ESP_OK; SE_free; SE_release 0; SE_close].
Proof. vm_compute. reflexivity. Qed.

(** A transfer that was not accepted counts as one that is stuck. *)
Example switch_submit_fails :
  existsb is_restart (sg_trace (process_mode_switch_device (mk_usb_config 0x12d1 0x1506 0 2)
    (sample_switch ESP_FAIL None) 3 (mk_switching usb_diag_zero [])).1) = true.
Proof. vm_compute. reflexivity. Qed.
