(* ===== verification/ModemCore.v ===== *)
(** * The modem core (components/modem_core/modem_core.c)

    The glue between USB transport, AT engine, modem manager, message service
    and board: what one of them reports is passed on to the others, and the
    state shown to the user follows.  The events of the USB transport
    (UsbTransport) are arguments, and so are the errors of the functions that
    only create tasks and queues.  A callback with its context is an element of
    [O]. *)

From Stdlib Require Import Ascii String.
From Stdlib Require Import ZifyBool ZifyNat.
From stdpp Require Import base numbers list strings gmap.
From S2P Require Import Prelude.
From S2P Require Import StateMonad.
From S2P Require Import GatewayBoard.
From S2P Require Import AtEngine.
From S2P Require Import SmsMessage.
From S2P Require Import Nvs.
From S2P Require Import SmsStore.
From S2P Require Import SmsStoreSpec.
From S2P Require Import SmsService.
From S2P Require Import SmsServiceSample.
From S2P Require Import ModemManager.
From S2P Require Import UsbTransport.

Open Scope Z_scope.

Inductive modem_state_t :=
  | MODEM_STATE_BOOT
  | MODEM_STATE_WAIT_USB
  | MODEM_STATE_ENUMERATE
  | MODEM_STATE_FIND_AT_INTERFACE
  | MODEM_STATE_AT_PROBE
  | MODEM_STATE_AT_READY
  | MODEM_STATE_SIM_CHECK
  | MODEM_STATE_NETWORK_REGISTER
  | MODEM_STATE_READY
  | MODEM_STATE_DEGRADED
  | MODEM_STATE_RECOVERY.

#[export] Instance modem_state_eq_dec : EqDecision modem_state_t.
Proof. solve_decision. Defined.

Definition modem_core_state_name (state : modem_state_t) : list Z :=
  match state with
  | MODEM_STATE_BOOT => str "boot"
  | MODEM_STATE_WAIT_USB => str "wait_usb"
  | MODEM_STATE_ENUMERATE => str "enumerate"
  | MODEM_STATE_FIND_AT_INTERFACE => str "find_at_interface"
  | MODEM_STATE_AT_PROBE => str "at_probe"
  | MODEM_STATE_AT_READY => str "at_ready"
  | MODEM_STATE_SIM_CHECK => str "sim_check"
  | MODEM_STATE_NETWORK_REGISTER => str "network_register"
  | MODEM_STATE_READY => str "ready"
  | MODEM_STATE_DEGRADED => str "degraded"
  | MODEM_STATE_RECOVERY => str "recovery"
  end.

Definition MODEM_CORE_SMS_OBSERVERS : nat := 3.

(** What is told to the message service, the board while the power is off, and
    the calls of the observers. *)
Inductive core_effect (O : Type) :=
  | CE_sms_ready
  | CE_sms_lost
  | CE_delay (b : board)
  | CE_observer (cb : O) (event : sms_service_event_t) (message : sms_message_t).

Arguments CE_sms_ready {O}.
Arguments CE_sms_lost {O}.
Arguments CE_delay {O}.
Arguments CE_observer {O}.

(** The static variables, and the components that are called. *)
Record core (N O : Type) := mk_core {
  co_state : modem_state_t;
  co_last_manager_state : modem_manager_state_t;
  co_observers : list (option O);
  co_engine : at_engine_state_t;
  co_manager : manager;
  co_sms : @service N;
  co_board : board;
  co_trace : list (core_effect O);
}.

Arguments mk_core {N O}.
Arguments co_state {N O}.
Arguments co_last_manager_state {N O}.
Arguments co_observers {N O}.
Arguments co_engine {N O}.
Arguments co_manager {N O}.
Arguments co_sms {N O}.
Arguments co_board {N O}.
Arguments co_trace {N O}.

#[export] Instance eta_core {N O} : Eta (core N O) := fun c =>
  mk_core (co_state c) (co_last_manager_state c) (co_observers c) (co_engine c) (co_manager c) (co_sms c) (co_board c)
    (co_trace c).

Section Core.

Context {N O : Type} `{Nvs N}.

Variable source : power_source.
Variable gpio : nat -> esp_err_t.

Abbreviation M := (State (core N O)).

Definition core_log (e : core_effect O) : M unit := modify (fun c => c <| co_trace := e :: co_trace c |>).

Definition core_manager {A} : State manager A -> M A := zoom co_manager (fun t c => c <| co_manager := t |>).
Definition core_board {A} : State board A -> M A := zoom co_board (fun t c => c <| co_board := t |>).
Definition core_engine (f : at_engine_state_t -> at_engine_state_t) : M unit :=
  modify (fun c => c <| co_engine := f (co_engine c) |>).

(** [sms_service_notify_modem_ready] and [_lost]. *)
Definition notify_sms_ready : M unit :=
  modify (fun c => c <| co_sms := sms_service_notify_modem_ready (co_sms c) |>);; core_log CE_sms_ready.
Definition notify_sms_lost : M unit :=
  modify (fun c => c <| co_sms := sms_service_notify_modem_lost (co_sms c) |>);; core_log CE_sms_lost.

(** [ready]: [modem_usb_transport_is_ready]. *)
Definition sms_modem_ready (ready : bool) : M bool :=
  if negb ready then mret false
  else
    snapshot ← core_manager (modem_manager_get_snapshot true);
    mret (match snapshot with inr s => bool_decide (sn_state s = MODEM_MANAGER_READY) | inl _ => false end).

Definition core_urc_dispatch (line : option (list Z)) : M unit :=
  core_manager (modem_manager_handle_urc line);;
  modify (fun c => c <| co_sms := sms_service_handle_urc line (co_sms c) |>).

(** The loop over the observers. *)
Fixpoint call_observers (observers : list (option O)) (event : sms_service_event_t) (message : sms_message_t) : M unit :=
  match observers with
  | [] => mret tt
  | None :: observers => call_observers observers event message
  | Some cb :: observers => core_log (CE_observer cb event message);; call_observers observers event message
  end.

Definition sms_event (event : sms_service_event_t) (message : option sms_message_t) : M unit :=
  match message with
  | None => mret tt
  | Some message => observers ← gets co_observers; call_observers observers event message
  end.

(** [taken1], [taken2]: the mutex of the board was taken in time. *)
Definition manager_hard_reset (taken1 taken2 : bool) : M esp_err_t :=
  if negb (gateway_board_usb_host_power_control_available source) then mret ESP_ERR_NOT_SUPPORTED
  else
    core_engine at_engine_notify_transport_lost;;
    err ← core_board (gateway_board_usb_host_power_set source gpio false taken1);
    if bool_decide (err <> ESP_OK) then mret err
    else
      b ← gets co_board;
      core_log (CE_delay b);;
      core_board (gateway_board_usb_host_power_set source gpio true taken2).

Definition set_state (state : modem_state_t) : M unit := modify (fun c => c <| co_state := state |>).

Definition manager_event (snapshot : option modem_manager_snapshot_t) : M unit :=
  match snapshot with
  | None => mret tt
  | Some snapshot =>
      previous_manager_state ← gets co_last_manager_state;
      modify (fun c => c <| co_last_manager_state := sn_state snapshot |>);;
      (if bool_decide (sn_state snapshot = MODEM_MANAGER_READY) && negb (bool_decide (previous_manager_state = MODEM_MANAGER_READY))
       then notify_sms_ready
       else if bool_decide (previous_manager_state = MODEM_MANAGER_READY) && negb (bool_decide (sn_state snapshot = MODEM_MANAGER_READY))
       then notify_sms_lost
       else mret tt);;
      match sn_state snapshot with
      | MODEM_MANAGER_WAIT_TRANSPORT => set_state MODEM_STATE_WAIT_USB
      | MODEM_MANAGER_INITIALIZING => set_state MODEM_STATE_SIM_CHECK
      | MODEM_MANAGER_SIM_WAIT => set_state MODEM_STATE_SIM_CHECK
      | MODEM_MANAGER_NETWORK_WAIT => set_state MODEM_STATE_NETWORK_REGISTER
      | MODEM_MANAGER_READY => set_state MODEM_STATE_READY
      | MODEM_MANAGER_RECOVERY => set_state MODEM_STATE_RECOVERY
      | MODEM_MANAGER_DEGRADED => set_state MODEM_STATE_DEGRADED
      | MODEM_MANAGER_STOPPED => mret tt
      end
  end.

Definition usb_transport_event (event : modem_usb_event_t) : M unit :=
  match event with
  | MODEM_USB_EVENT_HOST_READY => set_state MODEM_STATE_WAIT_USB
  | MODEM_USB_EVENT_DEVICE_FOUND => set_state MODEM_STATE_ENUMERATE;; set_state MODEM_STATE_FIND_AT_INTERFACE
  | MODEM_USB_EVENT_PROBING => set_state MODEM_STATE_AT_PROBE
  | MODEM_USB_EVENT_AT_READY => set_state MODEM_STATE_AT_READY;; core_manager modem_manager_notify_transport_ready
  | MODEM_USB_EVENT_DISCONNECTED =>
      core_engine at_engine_notify_transport_lost;;
      notify_sms_lost;;
      core_manager modem_manager_notify_transport_lost;;
      set_state MODEM_STATE_WAIT_USB
  | MODEM_USB_EVENT_ERROR =>
      core_engine at_engine_notify_transport_lost;;
      notify_sms_lost;;
      core_manager modem_manager_notify_transport_lost;;
      set_state MODEM_STATE_DEGRADED
  end.

(** [if (err != ESP_OK) { set_state(MODEM_STATE_DEGRADED, NULL); return err; }] *)
Definition or_degraded (step rest : M esp_err_t) : M esp_err_t :=
  err ← step; if bool_decide (err <> ESP_OK) then set_state MODEM_STATE_DEGRADED;; mret err else rest.

(** [engine_init], [transport_start]: the errors of [at_engine_init] and
    [modem_usb_transport_start]; the other arguments are what the platform
    answers to the two services. *)
Definition modem_core_init (start_usb_host : bool) (engine_init transport_start : esp_err_t)
    (queue_created task_created : bool) (sms_init : service -> service * esp_err_t) : M esp_err_t :=
  set_state MODEM_STATE_WAIT_USB;;
  or_degraded (mret engine_init)
    (or_degraded (core_manager (modem_manager_init (Some (true, true)) true queue_created task_created))
      (or_degraded (zoom co_sms (fun t c => c <| co_sms := t |>) sms_init)
        (if negb start_usb_host then set_state MODEM_STATE_DEGRADED;; mret ESP_OK
         else or_degraded (mret transport_start) (mret ESP_OK)))).

Definition modem_core_state : M modem_state_t := gets co_state.

(** The loop: the first free place. *)
Fixpoint add_observer (observers : list (option O)) (cb : O) : option (list (option O)) :=
  match observers with
  | [] => None
  | None :: observers => Some (Some cb :: observers)
  | Some other :: observers => (cons (Some other)) <$> add_observer observers cb
  end.

Definition modem_core_add_sms_event_callback (cb : option O) : M esp_err_t :=
  match cb with
  | None => mret ESP_ERR_INVALID_ARG
  | Some cb => fun c =>
      match add_observer (co_observers c) cb with
      | Some observers => (c <| co_observers := observers |>, ESP_OK)
      | None => (c, ESP_ERR_NO_MEM)
      end
  end.

(** ** What the message service is told *)

(** The last thing it was told: [true] for ready. *)
Fixpoint told (tr : list (core_effect O)) : option bool :=
  match tr with
  | [] => None
  | CE_sms_ready :: _ => Some true
  | CE_sms_lost :: _ => Some false
  | _ :: tr => told tr
  end.

(** What the other tasks do with the core. *)
Inductive core_step :=
  | C_manager (snapshot : option modem_manager_snapshot_t)
  | C_usb (event : modem_usb_event_t)
  | C_urc (line : option (list Z))
  | C_sms (event : sms_service_event_t) (message : option sms_message_t)
  | C_hard_reset (taken1 taken2 : bool)
  | C_add (cb : option O).

Definition core_run (step : core_step) (c : core N O) : core N O :=
  match step with
  | C_manager snapshot => (manager_event snapshot c).1
  | C_usb event => (usb_transport_event event c).1
  | C_urc line => (core_urc_dispatch line c).1
  | C_sms event message => (sms_event event message c).1
  | C_hard_reset taken1 taken2 => (manager_hard_reset taken1 taken2 c).1
  | C_add cb => (modem_core_add_sms_event_callback cb c).1
  end.

(** The step loses the transport. *)
Definition loss (step : core_step) : bool :=
  match step with
  | C_usb MODEM_USB_EVENT_DISCONNECTED | C_usb MODEM_USB_EVENT_ERROR => true
  | _ => false
  end.

Definition core_runs (steps : list core_step) (c : core N O) : core N O := fold_left (fun c s => core_run s c) steps c.

(** The service is told that the modem is ready only while the manager says so;
    and it is, unless the transport was lost. *)
Definition honest (c : core N O) : Prop :=
  told (co_trace c) = Some true -> co_last_manager_state c = MODEM_MANAGER_READY.
Definition linked (c : core N O) : Prop :=
  told (co_trace c) = Some true <-> co_last_manager_state c = MODEM_MANAGER_READY.

(** Properties of the trace and the manager's state alone. *)
Definition core_view (c : core N O) : option bool * modem_manager_state_t :=
  (told (co_trace c), co_last_manager_state c).

Lemma view_zoom {T A} part store (t : State T A) (c : core N O) :
  (forall t c, core_view (store t c) = core_view c) -> core_view (zoom part store t c).1 = core_view c.
Proof. intros Hs. unfold zoom. destruct (t (part c)). apply Hs. Qed.

Lemma view_bind {A B} (m : M A) (f : A -> M B) v :
  (forall c, core_view c = v -> core_view (m c).1 = v) -> (forall x c, core_view c = v -> core_view (f x c).1 = v) ->
  forall c, core_view c = v -> core_view ((m ≫= f) c).1 = v.
Proof. intros Hm Hf c Hc. unfold mbind, state_bind. specialize (Hm c Hc). destruct (m c). by apply Hf. Qed.

Lemma view_observers observers event message (c : core N O) :
  core_view (call_observers observers event message c).1 = core_view c.
Proof. revert c. induction observers as [|[cb|] observers IH]; intros c; [done| |exact (IH c)].
  cbn [call_observers]. unfold mbind, state_bind, core_log, modify. by rewrite IH.
Qed.

Lemma view_hard_reset taken1 taken2 (c : core N O) : core_view (manager_hard_reset taken1 taken2 c).1 = core_view c.
Proof.
  unfold manager_hard_reset. destruct (negb _); [done|].
  apply view_bind; [by intros c' <-| |done]. intros [] c1 H1. revert c1 H1. apply view_bind.
  - intros c1 <-. by apply view_zoom.
  - intros err c1 <-. destruct (bool_decide _); [done|]. unfold mbind, state_bind, gets, core_log, modify.
    unfold core_board. by rewrite view_zoom.
Qed.

Lemma view_usb event (c : core N O) :
  core_view (usb_transport_event event c).1 =
    (if loss (C_usb event) then Some false else told (co_trace c), co_last_manager_state c).
Proof.
  destruct event; try done; cbn [usb_transport_event loss].
  all: unfold mbind, state_bind, core_engine, notify_sms_lost, mbind, state_bind, core_log, set_state, core_manager, modify, zoom.
  all: match goal with |- context [modem_manager_notify_transport_ready ?m] => destruct (modem_manager_notify_transport_ready m)
       | |- context [modem_manager_notify_transport_lost ?m] => destruct (modem_manager_notify_transport_lost m) end; done.
Qed.

Lemma view_manager snapshot (c : core N O) :
  core_view (manager_event (Some snapshot) c).1 =
    (if decide (sn_state snapshot = MODEM_MANAGER_READY)
     then if decide (co_last_manager_state c = MODEM_MANAGER_READY) then told (co_trace c) else Some true
     else if decide (co_last_manager_state c = MODEM_MANAGER_READY) then Some false else told (co_trace c),
     sn_state snapshot).
Proof.
  unfold manager_event, mbind, state_bind, gets, modify.
  destruct (sn_state snapshot) eqn:Es, (decide (co_last_manager_state c = MODEM_MANAGER_READY)) as [El|El].
  all: rewrite ?Es, ?El, ?(bool_decide_eq_false_2 _ El) by done; cbn; by rewrite ?Es.
Qed.

(** What a step does to the view. *)
Lemma view_run step (c : core N O) :
  core_view (core_run step c) =
    match step with
    | C_manager (Some snapshot) => core_view (manager_event (Some snapshot) c).1
    | C_usb event => core_view (usb_transport_event event c).1
    | _ => core_view c
    end.
Proof.
  destruct step as [[snapshot|]|event|line|event [message|]|taken1 taken2|[cb|]]; try done; cbn [core_run].
  - unfold core_urc_dispatch, mbind, state_bind, core_manager, zoom. by destruct (modem_manager_handle_urc line _).
  - unfold sms_event, mbind, state_bind, gets. apply view_observers.
  - apply view_hard_reset.
  - unfold modem_core_add_sms_event_callback. by destruct (add_observer _ _).
Qed.

Lemma run_honest step c : honest c -> honest (core_run step c).
Proof.
  intros Hc. assert (forall v, core_view (core_run step c) = v -> (v.1 = Some true -> v.2 = MODEM_MANAGER_READY) ->
    honest (core_run step c)) as Hv by (intros v <-; done).
  eapply Hv; [apply view_run|]. destruct step as [[snapshot|]|event| | | |]; try exact Hc.
  - rewrite view_manager. cbn. by destruct (decide (sn_state _ = _)), (decide (co_last_manager_state c = _)); try done; intros ?%Hc.
  - rewrite view_usb. cbn [fst snd]. destruct (loss _); [done|exact Hc].
Qed.

Lemma run_linked step c : loss step = false -> linked c -> linked (core_run step c).
Proof.
  intros Hl Hc. assert (forall v, core_view (core_run step c) = v -> (v.1 = Some true <-> v.2 = MODEM_MANAGER_READY) ->
    linked (core_run step c)) as Hv by (intros v <-; done).
  eapply Hv; [apply view_run|]. unfold linked in Hc.
  destruct step as [[snapshot|]|event| | | |]; try exact Hc.
  - rewrite view_manager. cbn.
    destruct (decide (sn_state _ = _)), (decide (co_last_manager_state c = _)); [tauto|tauto| |tauto].
    split; [done|]. by intros.
  - rewrite view_usb, Hl. exact Hc.
Qed.

(** C15. The message service works only with a modem that is ready: in every
    sequence of events it was last told that the modem is ready only if the
    manager's last report says READY; and since a moment at which that report
    said anything else, it was told so whenever the report says READY, as long as
    the transport is not lost in between (which it is told as well). *)
Theorem service_follows_manager steps c :
  honest c ->
  honest (core_runs steps c) /\
  (co_last_manager_state c <> MODEM_MANAGER_READY -> forallb (fun s => negb (loss s)) steps = true ->
   linked (core_runs steps c)).
Proof.
  intros Hc. split.
  - revert c Hc. induction steps as [|step steps IH]; intros c Hc; [done|]. by apply IH, run_honest.
  - intros Hr. assert (linked c) as Hl by (split; [exact Hc|done]). clear Hc Hr. revert c Hl.
    induction steps as [|step steps IH]; intros c Hl; cbn [forallb]; [done|].
    intros [Hs%negb_true_iff Hss]%andb_true_iff. apply IH; [by apply run_linked|done].
Qed.

(** ** Power cycling *)

Hypothesis gpio_works : forall n, gpio n = ESP_OK.

(** A hard reset of the modem cuts its power: when the board can switch it,
    the AT engine is told that the transport is gone, then the socket is without
    power for the time of the delay, and is supplied again afterwards unless an
    over-current is latched, in which case it stays off and the error says so. *)
Theorem hard_reset_cycles_power (c : core N O) :
  gateway_board_usb_host_power_control_available source = true ->
  exists b c' err, manager_hard_reset true true c = (c', err) /\ co_trace c' = CE_delay b :: co_trace c /\
    powered source false b /\ co_engine c' = at_engine_notify_transport_lost (co_engine c) /\
    (overcurrent_latched (co_board c) = false -> err = ESP_OK /\ powered source true (co_board c')) /\
    (overcurrent_latched (co_board c) = true -> err = ESP_ERR_INVALID_STATE /\ powered source false (co_board c')).
Proof.
  intros Ha. unfold manager_hard_reset. rewrite Ha. cbn [negb].
  unfold mbind, state_bind, core_engine, modify, core_board, zoom, gets, core_log.
  change (co_board (c <| co_engine := at_engine_notify_transport_lost (co_engine c) |>)) with (co_board c).
  destruct (power_set_off source gpio gpio_works (co_board c)) as (b1 & -> & Hp1 & Hl1).
  rewrite bool_decide_eq_false_2 by tauto. cbn.
  destruct (power_set_on source gpio gpio_works b1) as (b2 & err & E & Hoff & Hon). rewrite E. cbn.
  exists b1. eexists _, err. split; [reflexivity|]. cbn. rewrite Hl1 in *. split_and!; try done.
  - intros Hl. destruct (Hoff Hl) as [-> [Hb2 _]]. done.
  - intros Hl. destruct (Hon Hl) as [-> Hb]. split; [done|]. unfold powered in *. by rewrite Hb.
Qed.

End Core.

(** ** Examples *)

Definition sample_core : core mem_nvs nat :=
  mk_core MODEM_STATE_BOOT MODEM_MANAGER_STOPPED (replicate MODEM_CORE_SMS_OBSERVERS None)
    (mk_engine [] [] [] [] (mk_diag 0 0 0 0 0 0 0 0 0 0) 0 0 0)
    (mk_manager true true true (Some []) snapshot_zero 0 0 false 0 0 []) (sample_service empty_store) sample_board [].

Definition reports (state : modem_manager_state_t) : core_step (O:=nat) :=
  C_manager (Some (snapshot_zero <| sn_state := state |>)).

(** The modem becomes ready, its power fails, and it is ready again. *)
Lemma service_follows_manager_witness :
  let gpio := fun _ => ESP_OK in
  let up := [C_usb MODEM_USB_EVENT_AT_READY; reports MODEM_MANAGER_INITIALIZING; reports MODEM_MANAGER_READY] in
  map (fun steps => let c := core_runs POWER_BATTERY gpio steps sample_core in (told (co_trace c), co_state c))
    [up; up ++ [C_usb MODEM_USB_EVENT_DISCONNECTED];
     up ++ [C_usb MODEM_USB_EVENT_DISCONNECTED; reports MODEM_MANAGER_WAIT_TRANSPORT] ++ up] =
    [(Some true, MODEM_STATE_READY); (Some false, MODEM_STATE_WAIT_USB); (Some true, MODEM_STATE_READY)] /\
  linked (core_runs POWER_BATTERY gpio up sample_core).
Proof.
  split; [vm_compute; reflexivity|].
  apply (service_follows_manager POWER_BATTERY (fun _ => ESP_OK)
    [C_usb MODEM_USB_EVENT_AT_READY; reports MODEM_MANAGER_INITIALIZING; reports MODEM_MANAGER_READY] sample_core); done.
Defined.

(** Three observers at most. *)
Example observers_full :
  map (fun n => (fold_left (fun s cb => modem_core_add_sms_event_callback (Some cb) s.1) (seq 0 n)
    (sample_core, ESP_OK)).2) [3; 4]%nat = [ESP_OK; ESP_ERR_NO_MEM].
Proof. vm_compute. reflexivity. Qed.

Lemma hard_reset_cycles_power_witness :
  let '(c, err) := manager_hard_reset POWER_BATTERY (fun _ => ESP_OK) true true sample_core in
  err = ESP_OK /\ powered POWER_BATTERY true (co_board c).
Proof.
  destruct (hard_reset_cycles_power POWER_BATTERY (fun _ => ESP_OK) (fun _ => eq_refl) sample_core eq_refl)
    as (b & c & err & -> & _ & _ & _ & Hoff & _). apply Hoff. vm_compute. reflexivity.
Defined.
