(* ===== verification/DisplayDraw.v ===== *)
(** * Drawing on the display (components/display_service/display_service.c)

    The pages, and how they get to the panel in strips.  Drawing has no other
    effect than calls of [fill], so that a drawing function is the list of its
    calls, in their order; a colour is its 16-bit number.  A character array is
    the string in it.  CONFIG_GATEWAY_DISPLAY_SMS_PREVIEW is an argument. *)

From Stdlib Require Import Ascii String.
From Stdlib Require Import ZifyBool ZifyNat.
From stdpp Require Import base numbers list strings.
From S2P Require Import Prelude.
From S2P Require Import Gsm7.
From S2P Require Import GatewayDiag.
From S2P Require Import NetworkService.
From S2P Require Import ModemStatus.
From S2P Require Import ModemCore.

Open Scope Z_scope.

Definition LCD_W : Z := 240.
Definition LCD_H : Z := 240.
Definition DISPLAY_SHIFT_MAX : Z := 4.
Definition BAND_H : Z := 24.

Definition RGB (r g b : Z) : Z :=
  let c := Z.lor (Z.lor (Z.shiftl (Z.land r 0xf8) 8) (Z.shiftl (Z.land g 0xfc) 3)) (Z.shiftr b 3) in
  u16 (Z.lor (Z.shiftr c 8) (Z.shiftl c 8)).

Definition C_WHITE : Z := RGB 255 255 255.
Definition C_GREY : Z := RGB 140 140 140.
Definition C_GREEN : Z := RGB 40 220 90.
Definition C_YELLOW : Z := RGB 255 210 0.
Definition C_RED : Z := RGB 255 70 60.
Definition C_BLUE : Z := RGB 80 160 255.

Inductive display_page_t :=
  | PAGE_STATUS
  | PAGE_SETUP
  | PAGE_CRASH.

#[export] Instance display_page_eq_dec : EqDecision display_page_t.
Proof. solve_decision. Defined.

Record view_significant_t := mk_view {
  vw_page : display_page_t;
  vw_wifi_connected : bool;
  vw_provisioned : bool;
  vw_ipv4 : list Z;
  vw_sta_ssid : list Z;
  vw_portal_reason : network_portal_reason_t;
  vw_setup_state : network_setup_state_t;
  vw_portal_ssid : list Z;
  vw_portal_passphrase : list Z;
  vw_mqtt : Z;
  vw_modem_state : modem_state_t;
  vw_sim : modem_sim_state_t;
  vw_sms_id : Z;
  vw_sms_sender : list Z;
  vw_sms_time : list Z;
  vw_sms_preview : list Z;
  vw_safe_mode : gateway_safe_mode_t;
}.

#[export] Instance view_eq_dec : EqDecision view_significant_t.
Proof. solve_decision. Defined.

Record view_minor_t := mk_minor {
  mn_signal_bars : Z;
  mn_rssi_dbm : Z;
  mn_operator_name : list Z;
}.

#[export] Instance minor_eq_dec : EqDecision view_minor_t.
Proof. solve_decision. Defined.

Definition font : list (list Z) :=
  [[0x00; 0x00; 0x00; 0x00; 0x00]; [0x00; 0x00; 0x5f; 0x00; 0x00]; [0x00; 0x07; 0x00; 0x07; 0x00];
   [0x14; 0x7f; 0x14; 0x7f; 0x14]; [0x24; 0x2a; 0x7f; 0x2a; 0x12]; [0x23; 0x13; 0x08; 0x64; 0x62];
   [0x36; 0x49; 0x55; 0x22; 0x50]; [0x00; 0x05; 0x03; 0x00; 0x00]; [0x00; 0x1c; 0x22; 0x41; 0x00];
   [0x00; 0x41; 0x22; 0x1c; 0x00]; [0x14; 0x08; 0x3e; 0x08; 0x14]; [0x08; 0x08; 0x3e; 0x08; 0x08];
   [0x00; 0x50; 0x30; 0x00; 0x00]; [0x08; 0x08; 0x08; 0x08; 0x08]; [0x00; 0x60; 0x60; 0x00; 0x00];
   [0x20; 0x10; 0x08; 0x04; 0x02]; [0x3e; 0x51; 0x49; 0x45; 0x3e]; [0x00; 0x42; 0x7f; 0x40; 0x00];
   [0x42; 0x61; 0x51; 0x49; 0x46]; [0x21; 0x41; 0x45; 0x4b; 0x31]; [0x18; 0x14; 0x12; 0x7f; 0x10];
   [0x27; 0x45; 0x45; 0x45; 0x39]; [0x3c; 0x4a; 0x49; 0x49; 0x30]; [0x01; 0x71; 0x09; 0x05; 0x03];
   [0x36; 0x49; 0x49; 0x49; 0x36]; [0x06; 0x49; 0x49; 0x29; 0x1e]; [0x00; 0x36; 0x36; 0x00; 0x00];
   [0x00; 0x56; 0x36; 0x00; 0x00]; [0x08; 0x14; 0x22; 0x41; 0x00]; [0x14; 0x14; 0x14; 0x14; 0x14];
   [0x00; 0x41; 0x22; 0x14; 0x08]; [0x02; 0x01; 0x51; 0x09; 0x06]; [0x32; 0x49; 0x79; 0x41; 0x3e];
   [0x7e; 0x11; 0x11; 0x11; 0x7e]; [0x7f; 0x49; 0x49; 0x49; 0x36]; [0x3e; 0x41; 0x41; 0x41; 0x22];
   [0x7f; 0x41; 0x41; 0x22; 0x1c]; [0x7f; 0x49; 0x49; 0x49; 0x41]; [0x7f; 0x09; 0x09; 0x09; 0x01];
   [0x3e; 0x41; 0x49; 0x49; 0x7a]; [0x7f; 0x08; 0x08; 0x08; 0x7f]; [0x00; 0x41; 0x7f; 0x41; 0x00];
   [0x20; 0x40; 0x41; 0x3f; 0x01]; [0x7f; 0x08; 0x14; 0x22; 0x41]; [0x7f; 0x40; 0x40; 0x40; 0x40];
   [0x7f; 0x02; 0x0c; 0x02; 0x7f]; [0x7f; 0x04; 0x08; 0x10; 0x7f]; [0x3e; 0x41; 0x41; 0x41; 0x3e];
   [0x7f; 0x09; 0x09; 0x09; 0x06]; [0x3e; 0x41; 0x51; 0x21; 0x5e]; [0x7f; 0x09; 0x19; 0x29; 0x46];
   [0x46; 0x49; 0x49; 0x49; 0x31]; [0x01; 0x01; 0x7f; 0x01; 0x01]; [0x3f; 0x40; 0x40; 0x40; 0x3f];
   [0x1f; 0x20; 0x40; 0x20; 0x1f]; [0x3f; 0x40; 0x38; 0x40; 0x3f]; [0x63; 0x14; 0x08; 0x14; 0x63];
   [0x07; 0x08; 0x70; 0x08; 0x07]; [0x61; 0x51; 0x49; 0x45; 0x43]; [0x00; 0x7f; 0x41; 0x41; 0x00];
   [0x02; 0x04; 0x08; 0x10; 0x20]; [0x00; 0x41; 0x41; 0x7f; 0x00]; [0x04; 0x02; 0x01; 0x02; 0x04];
   [0x40; 0x40; 0x40; 0x40; 0x40]; [0x00; 0x01; 0x02; 0x04; 0x00]; [0x20; 0x54; 0x54; 0x54; 0x78];
   [0x7f; 0x48; 0x44; 0x44; 0x38]; [0x38; 0x44; 0x44; 0x44; 0x20]; [0x38; 0x44; 0x44; 0x48; 0x7f];
   [0x38; 0x54; 0x54; 0x54; 0x18]; [0x08; 0x7e; 0x09; 0x01; 0x02]; [0x0c; 0x52; 0x52; 0x52; 0x3e];
   [0x7f; 0x08; 0x04; 0x04; 0x78]; [0x00; 0x44; 0x7d; 0x40; 0x00]; [0x20; 0x40; 0x44; 0x3d; 0x00];
   [0x7f; 0x10; 0x28; 0x44; 0x00]; [0x00; 0x41; 0x7f; 0x40; 0x00]; [0x7c; 0x04; 0x18; 0x04; 0x78];
   [0x7c; 0x08; 0x04; 0x04; 0x78]; [0x38; 0x44; 0x44; 0x44; 0x38]; [0x7c; 0x14; 0x14; 0x14; 0x08];
   [0x08; 0x14; 0x14; 0x18; 0x7c]; [0x7c; 0x08; 0x04; 0x04; 0x08]; [0x48; 0x54; 0x54; 0x54; 0x20];
   [0x04; 0x3f; 0x44; 0x40; 0x20]; [0x3c; 0x40; 0x40; 0x20; 0x7c]; [0x1c; 0x20; 0x40; 0x20; 0x1c];
   [0x3c; 0x40; 0x30; 0x40; 0x3c]; [0x44; 0x28; 0x10; 0x28; 0x44]; [0x0c; 0x50; 0x50; 0x50; 0x3c];
   [0x44; 0x64; 0x54; 0x4c; 0x44]; [0x00; 0x08; 0x36; 0x41; 0x00]; [0x00; 0x00; 0x7f; 0x00; 0x00];
   [0x00; 0x41; 0x36; 0x08; 0x00]; [0x10; 0x08; 0x08; 0x10; 0x08]].

(** ** Fill *)

(** The arguments of a call of [fill]. *)
Record rect := mk_rect { rc_x : Z; rc_y : Z; rc_w : Z; rc_h : Z; rc_color : Z }.

(** The strip that is drawn: [s_band] and [s_band_y]; and [s_shift_x] and
    [s_shift_y]. *)
Record strip := mk_strip { s_band_y : Z; s_shift_x : Z; s_shift_y : Z }.

(** [band[index] = color]; [None] outside of the array. *)
Definition put (band : list Z) (index color : Z) : option (list Z) :=
  if (0 <=? index) && (index <? Z.of_nat (length band)) then Some (<[Z.to_nat index := color]> band) else None.

Definition fill_row (st : strip) (x w row color : Z) (band : list Z) : option (list Z) :=
  foldM (fun band col =>
    if (0 <=? col) && (col <? LCD_W) then put band ((row - s_band_y st) * LCD_W + col) color else Some band)
    (seqZ x w) band.

Definition fill (st : strip) (band : list Z) (r : rect) : option (list Z) :=
  let x := rc_x r + s_shift_x st in
  let y := rc_y r + s_shift_y st in
  foldM (fun band row =>
    if (row <? s_band_y st) || (s_band_y st + BAND_H <=? row) then Some band else fill_row st x (rc_w r) row (rc_color r) band)
    (seqZ y (rc_h r)) band.

(** ** Text *)

Definition glyph_rects (x y scale : Z) (glyph : list Z) (color : Z) : list rect :=
  flat_map (fun col =>
    flat_map (fun row =>
      if Z.testbit glyph.[Z.to_nat col] row then [mk_rect (x + col * scale) (y + row * scale) scale scale color] else [])
      (seqZ 0 7))
    (seqZ 0 5).

Definition glyph_of (ch : Z) : list Z :=
  let ch := if (ch <? 0x20) || (0x7e <? ch) then chr "?" else ch in
  nth (Z.to_nat (ch - 0x20)) font [].

Fixpoint text (x y scale : Z) (value : list Z) (color : Z) : list rect :=
  match value with
  | [] => []
  | ch :: value => glyph_rects x y scale (glyph_of ch) color ++ text (x + 6 * scale) y scale value color
  end.

Definition signal_bars (x y bars : Z) : list rect :=
  map (fun i =>
    let h := 4 + i * 4 in
    mk_rect (x + i * 6) (y + 16 - h) 4 h (if bars <? 0 then C_GREY else if i <? bars then C_WHITE else RGB 60 60 60))
    (seqZ 0 4).

(** ** UTF-8 to ASCII *)

Definition umlaut (second : Z) : list Z :=
  if second =? 0xa4 then str "ae"
  else if second =? 0xb6 then str "oe"
  else if second =? 0xbc then str "ue"
  else if second =? 0x84 then str "Ae"
  else if second =? 0x96 then str "Oe"
  else if second =? 0x9c then str "Ue"
  else if second =? 0x9f then str "ss"
  else str "?".

(** The loop; [skipping] is set while the inner loop passes continuation
    bytes, [out] is what is written. *)
Fixpoint ascii_loop (skipping : bool) (p : list Z) (out_size : nat) (out : list Z) : list Z :=
  match p with
  | [] => out
  | c :: p =>
      if skipping && (Z.land c 0xc0 =? 0x80) then ascii_loop true p out_size out
      else if (out_size <=? length out + 2)%nat then out
      else if c <? 0x80 then
        ascii_loop false p out_size (out ++ [if (c =? 10) || (c =? 13) || (c =? 9) then 32 else c])
      else
        let repl := if c =? 0xc3 then umlaut p.[0] else str "?" in
        ascii_loop true p out_size (out ++ take (out_size - 1 - length out) repl)
  end.

Definition utf8_to_ascii (s : list Z) (out_size : nat) : list Z := ascii_loop false (c_str s) out_size [].

(** ** The pages *)

Definition modem_label (state : modem_state_t) (sim : modem_sim_state_t) : list Z * Z :=
  match sim with
  | MODEM_SIM_PIN_REQUIRED => (str "SIM PIN needed", C_RED)
  | MODEM_SIM_PUK_REQUIRED | MODEM_SIM_BLOCKED => (str "SIM locked", C_RED)
  | MODEM_SIM_NOT_INSERTED => (str "No SIM", C_RED)
  | _ =>
      match state with
      | MODEM_STATE_READY => (str "ready", C_GREEN)
      | MODEM_STATE_BOOT | MODEM_STATE_WAIT_USB => (str "waiting for USB", C_GREY)
      | MODEM_STATE_ENUMERATE | MODEM_STATE_FIND_AT_INTERFACE | MODEM_STATE_AT_PROBE => (str "connecting", C_YELLOW)
      | MODEM_STATE_AT_READY | MODEM_STATE_SIM_CHECK => (str "checking SIM", C_YELLOW)
      | MODEM_STATE_NETWORK_REGISTER => (str "registering", C_YELLOW)
      | MODEM_STATE_RECOVERY => (str "recovering", C_YELLOW)
      | MODEM_STATE_DEGRADED => (str "error", C_RED)
      end
  end.

Definition draw_setup (v : view_significant_t) : list rect :=
  text 8 6 2 (str "Gateway setup") C_GREEN ++
  text 8 34 2 (str "1. Join Wi-Fi:") C_GREY ++
  text 8 54 2 (vw_portal_ssid v) C_WHITE ++
  text 8 80 2 (str "Password:") C_GREY ++
  text 8 100 3 (vw_portal_passphrase v) C_WHITE ++
  text 8 132 2 (str "2. Open in browser:") C_GREY ++
  text 8 152 2 (str "192.168.4.1") C_BLUE ++
  match vw_setup_state v with
  | NETWORK_SETUP_CONNECTING =>
      text 8 184 2 (str "Connecting to") C_YELLOW ++ text 8 204 2 (vw_sta_ssid v) C_YELLOW
  | NETWORK_SETUP_CONNECTED =>
      text 8 184 2 (str "Connected!") C_GREEN ++ text 8 204 2 (snprintf 48 (str "IP " ++ vw_ipv4 v)) C_GREEN
  | NETWORK_SETUP_FAILED => text 8 184 2 (str "Wi-Fi failed:") C_RED ++ text 8 204 2 (str "check password") C_RED
  | NETWORK_SETUP_IDLE =>
      if bool_decide (vw_portal_reason v = NETWORK_PORTAL_FALLBACK) then
        text 8 184 2 (str "Still retrying") C_GREY ++ text 8 204 2 (vw_sta_ssid v) C_GREY
      else if vw_wifi_connected v then text 8 194 2 (snprintf 48 (str "LAN " ++ vw_ipv4 v)) C_GREY
      else []
  end.

(** [crash] is the text of the last crash. *)
Definition draw_crash (crash : list Z) : list rect :=
  text 8 6 2 (str "Last boot crashed") C_RED ++
  flat_map (fun row =>
    if row * 19 <? Z.of_nat (length crash)
    then text 8 (28 + row * 21) 2 (take 19 (drop (Z.to_nat (row * 19)) crash)) C_WHITE else [])
    (seqZ 0 9) ++
  text 8 226 1 (str "Press any button to continue") C_GREY.

(** [%d] *)
Definition signed_decimal (n : Z) : list Z := if n <? 0 then chr "-" :: decimal (- n) else decimal n.

Definition signal_line (m : view_minor_t) : list Z :=
  let name := match mn_operator_name m with [] => str "-" | name => name end in
  if (-200 <? mn_rssi_dbm m) && (mn_rssi_dbm m <? 0)
  then snprintf 40 (take 10 name ++ str " " ++ signed_decimal (mn_rssi_dbm m) ++ str "dBm")
  else snprintf 40 (take 16 name).

Definition draw_sms (preview : bool) (v : view_significant_t) : list rect :=
  if vw_sms_id v =? 0 then text 8 140 2 (str "No SMS received") C_GREY
  else
    text 8 138 2 (snprintf 40 (str "Last SMS " ++ vw_sms_time v)) C_GREY ++
    text 8 160 2 (vw_sms_sender v) C_BLUE ++
    (if preview then
       flat_map (fun i =>
         if Z.of_nat (length (vw_sms_preview v)) <=? i * 19 then []
         else text 8 (184 + i * 22) 2 (take 19 (drop (Z.to_nat (i * 19)) (vw_sms_preview v))) C_WHITE)
         (seqZ 0 2)
     else []).

Definition draw_status (preview : bool) (v : view_significant_t) (m : view_minor_t) : list rect :=
  let safe := bool_decide (vw_safe_mode v <> GATEWAY_SAFE_MODE_OFF) in
  let '(label, color) := modem_label (vw_modem_state v) (vw_sim v) in
  text 8 6 2 (if safe then str "SAFE MODE" else str "SMS Gateway") (if safe then C_RED else C_GREEN) ++
  text 8 34 2 (str "WiFi") C_GREY ++
  (if vw_wifi_connected v then text 68 34 2 (vw_ipv4 v) C_WHITE
   else text 68 34 2 (if vw_provisioned v then str "connecting" else str "not set up") C_YELLOW) ++
  text 8 56 2 (str "MQTT") C_GREY ++
  text 68 56 2 (if vw_mqtt v =? 2 then str "connected" else if vw_mqtt v =? 1 then str "offline" else str "off")
    (if vw_mqtt v =? 2 then C_WHITE else if vw_mqtt v =? 1 then C_YELLOW else C_GREY) ++
  text 8 78 2 (str "LTE") C_GREY ++
  text 68 78 2 label color ++
  (if bool_decide (vw_modem_state v = MODEM_STATE_READY) || (0 <=? mn_signal_bars m)
   then signal_bars 8 100 (mn_signal_bars m) ++ text 40 102 2 (signal_line m) C_WHITE else []) ++
  [mk_rect 8 128 (LCD_W - 16 - DISPLAY_SHIFT_MAX) 1 (RGB 70 70 70)] ++
  draw_sms preview v.

(** Everything that a view shows; [None] is the cleared screen. *)
Definition draw (preview : bool) (crash : list Z) (view : option (view_significant_t * view_minor_t)) : list rect :=
  match view with
  | None => []
  | Some (v, m) =>
      match vw_page v with
      | PAGE_CRASH => draw_crash crash
      | PAGE_SETUP => draw_setup v
      | PAGE_STATUS => draw_status preview v m
      end
  end.

(** ** Strips *)

(** [esp_lcd_panel_draw_bitmap]: the panel with the strip, which is as wide as
    the panel; nothing if it fails. *)
Definition flush_band (err : esp_err_t) (band_y : Z) (band panel : list Z) : list Z :=
  if bool_decide (err <> ESP_OK) then panel
  else
    let start := Z.to_nat (band_y * LCD_W) in
    take start panel ++ band ++ drop (start + length band) panel.

(** [draws]: what [draw_bitmap] answers for the strips.  [None]: an access
    outside of the buffer of the strip. *)
Fixpoint render_loop (fuel : nat) (shift_x shift_y : Z) (draws : Z -> esp_err_t) (rects : list rect) (band_y : Z)
    (panel : list Z) : option (list Z) :=
  match fuel with
  | O => Some panel
  | S fuel =>
      if band_y <? LCD_H then
        band ← foldM (fill (mk_strip band_y shift_x shift_y)) rects (zeros (Z.to_nat (LCD_W * BAND_H)));
        render_loop fuel shift_x shift_y draws rects (band_y + BAND_H) (flush_band (draws band_y) band_y band panel)
      else Some panel
  end.

Definition render (shift_x shift_y : Z) (draws : Z -> esp_err_t) (rects : list rect) (panel : list Z) : option (list Z) :=
  render_loop (Z.to_nat (LCD_H / BAND_H)) shift_x shift_y draws rects 0 panel.

(** ** What filling paints *)

(** [f] changes the pixels that [hit] gives a colour, and no other ones. *)
Definition paints (n : nat) (f : list Z -> option (list Z)) (hit : nat -> option Z) : Prop :=
  forall band, length band = n ->
    exists band', f band = Some band' /\ length band' = n /\
      forall k, (k < n)%nat -> band' !! k = match hit k with Some c => Some c | None => band !! k end.

Lemma paints_ext n f hit hit' : paints n f hit -> (forall k, (k < n)%nat -> hit k = hit' k) -> paints n f hit'.
Proof.
  intros Hf He band Hb. destruct (Hf band Hb) as (band' & -> & Hl & Hk). exists band'. split_and!; [done|done|].
  intros k Hlt. rewrite <- He by done. by apply Hk.
Qed.

Lemma paints_nothing n : paints n Some (fun _ => None).
Proof. intros band Hb. exists band. by split_and!. Qed.

(** One after the other: the last one that hits. *)
Definition last_hit {B} (hit : B -> nat -> option Z) (l : list B) (k : nat) : option Z :=
  fold_left (fun c b => match hit b k with Some c' => Some c' | None => c end) l None.

Lemma last_hit_snoc {B} (hit : B -> nat -> option Z) l b k :
  last_hit hit (l ++ [b]) k = match hit b k with Some c => Some c | None => last_hit hit l k end.
Proof. unfold last_hit. by rewrite fold_left_app. Qed.

Lemma paints_foldM {B} n (f : list Z -> B -> option (list Z)) (hit : B -> nat -> option Z) (l : list B) :
  (forall b, paints n (fun band => f band b) (hit b)) -> paints n (foldM f l) (last_hit hit l).
Proof.
  intros Hf. induction l as [|b l IH] using rev_ind; [apply paints_nothing|].
  intros band Hb. destruct (IH band Hb) as (band1 & E1 & L1 & K1). destruct (Hf b band1 L1) as (band2 & E2 & L2 & K2).
  exists band2. split_and!; [by rewrite foldM_app, E1; cbn [foldM]; rewrite E2|done|]. intros k Hk.
  rewrite K2, last_hit_snoc by done. destruct (hit b k); [done|]. by apply K1.
Qed.

(** Over a range of integers and with one colour: hit once is enough. *)
Lemma last_hit_range (hit : Z -> nat -> option Z) (P : Z -> bool) start len k color :
  (forall b, start <= b < start + len -> hit b k = if P b then Some color else None) ->
  (exists b, start <= b < start + len /\ P b = true) /\ last_hit hit (seqZ start len) k = Some color \/
  (forall b, start <= b < start + len -> P b = false) /\ last_hit hit (seqZ start len) k = None.
Proof.
  destruct (Z_le_gt_dec 0 len) as [Hl|Hl].
  2: { intros _. right. rewrite seqZ_nil by lia. split; [intros; lia|done]. }
  revert len Hl. refine (natlike_ind _ _ _).
  - intros _. right. split; [intros; lia|done].
  - intros len Hl IH Hhit. unfold Z.succ. rewrite seqZ_app by lia.
    change (seqZ (start + len) 1) with [start + len]. rewrite last_hit_snoc, (Hhit (start + len)) by lia.
    destruct (P (start + len)) eqn:E.
    + left. split; [|done]. exists (start + len). split; [lia|done].
    + destruct IH as [[(b & Hb & Hp) ->]|[Hnone ->]]; [intros; apply Hhit; lia| |].
      * left. split; [|done]. exists b. split; [lia|done].
      * right. split; [|done]. intros b Hb. destruct (decide (b = start + len)) as [->|]; [done|]. apply Hnone. lia.
Qed.

Definition BAND_SIZE : nat := Z.to_nat (LCD_W * BAND_H).

Lemma put_paints index color :
  0 <= index < LCD_W * BAND_H ->
  paints BAND_SIZE (fun band => put band index color) (fun k => if Z.of_nat k =? index then Some color else None).
Proof.
  intros Hi band Hb. unfold put. rewrite Hb. unfold BAND_SIZE, LCD_W, BAND_H in *.
  destruct ((0 <=? index) && _) eqn:E; [|lia]. eexists. split_and!; [done|by rewrite length_insert|].
  intros k Hk. destruct (Z.eqb_spec (Z.of_nat k) index) as [<-|Hne].
  - rewrite Nat2Z.id. by rewrite list_lookup_insert_eq by lia.
  - by rewrite list_lookup_insert_ne by lia.
Qed.

#[local] Ltac rhs_if E := match goal with |- _ = (if ?b then _ else _) => destruct b eqn:E end.

(** The column and the row of a pixel of the strip. *)
Definition col_of (k : nat) : Z := Z.of_nat k mod LCD_W.
Definition row_of (k : nat) : Z := Z.of_nat k / LCD_W.

Lemma fill_row_paints st x w row color :
  s_band_y st <= row < s_band_y st + BAND_H ->
  paints BAND_SIZE (fill_row st x w row color)
    (fun k => if (row_of k =? row - s_band_y st) && (x <=? col_of k) && (col_of k <? x + w) then Some color else None).
Proof.
  intros Hr. eapply paints_ext.
  - apply (paints_foldM _ _ (fun col k =>
      if (0 <=? col) && (col <? LCD_W) && (Z.of_nat k =? (row - s_band_y st) * LCD_W + col) then Some color else None)).
    intros col. destruct ((0 <=? col) && (col <? LCD_W)) eqn:E; cbn [andb]; [|apply paints_nothing].
    apply put_paints. unfold LCD_W, BAND_H in *. nia.
  - intros k Hk. cbv beta.
    destruct (last_hit_range (fun col k => if (0 <=? col) && (col <? LCD_W) && (Z.of_nat k =? (row - s_band_y st) * LCD_W + col)
      then Some color else None) (fun col => (0 <=? col) && (col <? LCD_W) && (Z.of_nat k =? (row - s_band_y st) * LCD_W + col))
      x w k color (fun _ _ => eq_refl)) as [[(col & Hc & Hp) ->]|[Hn ->]].
    + assert (col_of k = col /\ row_of k = row - s_band_y st) as [-> ->].
      { unfold col_of, row_of, LCD_W in *. split; [symmetry; apply (Z.mod_unique_pos _ _ (row - s_band_y st)); lia|].
        symmetry. apply (Z.div_unique_pos _ _ _ col); lia. }
      rhs_if E; [done|lia].
    + rhs_if E; [|done]. exfalso. specialize (Hn (col_of k) ltac:(lia)). unfold col_of, row_of, LCD_W in *. 
      pose proof (Z.div_mod (Z.of_nat k) 240 ltac:(lia)). pose proof (Z.mod_pos_bound (Z.of_nat k) 240 ltac:(lia)). lia.
Qed.

(** The call of [fill] covers the pixel. *)
Definition covers (shift_x shift_y : Z) (r : rect) (x y : Z) : bool :=
  (rc_x r + shift_x <=? x) && (x <? rc_x r + shift_x + rc_w r) && (rc_y r + shift_y <=? y) && (y <? rc_y r + shift_y + rc_h r).

Lemma fill_paints st r :
  paints BAND_SIZE (fun band => fill st band r)
    (fun k => if covers (s_shift_x st) (s_shift_y st) r (col_of k) (s_band_y st + row_of k) then Some (rc_color r) else None).
Proof.
  unfold fill. set (x := rc_x r + s_shift_x st). set (y := rc_y r + s_shift_y st). eapply paints_ext.
  - apply (paints_foldM _ _ (fun row k =>
      if (row <? s_band_y st) || (s_band_y st + BAND_H <=? row) then None
      else if (row_of k =? row - s_band_y st) && (x <=? col_of k) && (col_of k <? x + rc_w r) then Some (rc_color r) else None)).
    intros row. destruct (_ || _) eqn:E; [apply paints_nothing|]. apply fill_row_paints. lia.
  - intros k Hk. cbv beta.
    destruct (last_hit_range (fun row k =>
      if (row <? s_band_y st) || (s_band_y st + BAND_H <=? row) then None
      else if (row_of k =? row - s_band_y st) && (x <=? col_of k) && (col_of k <? x + rc_w r) then Some (rc_color r) else None)
      (fun row => negb ((row <? s_band_y st) || (s_band_y st + BAND_H <=? row)) &&
        ((row_of k =? row - s_band_y st) && (x <=? col_of k) && (col_of k <? x + rc_w r)))
      y (rc_h r) k (rc_color r)) as [[(row & Hrow & Hp) ->]|[Hn ->]].
    + intros row _. by destruct (_ || _).
    + unfold covers. rhs_if E; [done|lia].
    + unfold covers. rhs_if E; [|done]. exfalso. specialize (Hn (s_band_y st + row_of k) ltac:(lia)).
      unfold row_of, BAND_SIZE, LCD_W, BAND_H in *. assert (0 <= Z.of_nat k / 240 < 24); [|lia].
      split; [apply Z.div_pos; lia|apply Z.div_lt_upper_bound; lia].
Qed.

(** ** The frame *)

(** The reference: a pixel has the colour of the last call that covers it. *)
Definition pixel (shift_x shift_y : Z) (rects : list rect) (x y : Z) : Z :=
  fold_left (fun c r => if covers shift_x shift_y r x y then rc_color r else c) rects 0.

Lemma strip_pixels shift_x shift_y rects band_y :
  exists band, foldM (fill (mk_strip band_y shift_x shift_y)) rects (zeros BAND_SIZE) = Some band /\ length band = BAND_SIZE /\
    forall k, (k < BAND_SIZE)%nat -> band !! k = Some (pixel shift_x shift_y rects (col_of k) (band_y + row_of k)).
Proof.
  destruct (paints_foldM BAND_SIZE _ _ rects (fill_paints (mk_strip band_y shift_x shift_y)) (zeros BAND_SIZE))
    as (band & E & L & K); [by unfold zeros; rewrite length_replicate|].
  exists band. split; [exact E|]. split; [done|]. intros k Hk. rewrite K by done. cbn [s_band_y s_shift_x s_shift_y].
  assert (zeros BAND_SIZE !! k = Some 0) as -> by (by unfold zeros; rewrite lookup_replicate_2). unfold pixel. clear E K L.
  induction rects as [|r rects IH] using rev_ind; [done|]. rewrite last_hit_snoc, fold_left_app. cbn [fold_left].
  destruct (covers _ _ r _ _); [done|exact IH].
Qed.

(** The place of a pixel on the panel. *)
Definition place (x y : Z) : nat := Z.to_nat (y * LCD_W + x).
Definition PANEL_SIZE : nat := Z.to_nat (LCD_W * LCD_H).

Lemma flush_band_lookup err band_y band panel k :
  length panel = PANEL_SIZE -> length band = BAND_SIZE -> 0 <= band_y <= LCD_H - BAND_H ->
  length (flush_band err band_y band panel) = PANEL_SIZE /\
  flush_band err band_y band panel !! k =
    if bool_decide (err = ESP_OK) && (band_y * LCD_W <=? Z.of_nat k) && (Z.of_nat k <? (band_y + BAND_H) * LCD_W)
    then band !! (k - Z.to_nat (band_y * LCD_W))%nat else panel !! k.
Proof.
  unfold PANEL_SIZE, BAND_SIZE, LCD_W, LCD_H, BAND_H. intros Hp Hb Hy. unfold flush_band, LCD_W.
  case_bool_decide as He; [rewrite bool_decide_eq_false_2 by done; by split|].
  rewrite bool_decide_eq_true_2 by done. cbn [andb].
  set (start := Z.to_nat (band_y * 240)). split; [rewrite !length_app, length_take, length_drop; lia|].
  destruct ((band_y * 240 <=? Z.of_nat k) && _) eqn:E.
  - rewrite lookup_app_r by (rewrite length_take; lia). rewrite length_take, lookup_app_l by lia. f_equal. lia.
  - destruct (decide (k < start)%nat).
    + rewrite lookup_app_l by (rewrite length_take; lia). by rewrite lookup_take_lt by lia.
    + rewrite lookup_app_r by (rewrite length_take; lia). rewrite lookup_app_r by (rewrite length_take; lia).
      rewrite lookup_drop. f_equal. rewrite length_take. lia.
Qed.

(** A pixel of the panel in the strip that begins at [band_y]. *)
Lemma strip_range k band_y :
  0 <= band_y ->
  ((band_y * LCD_W <=? Z.of_nat k) && (Z.of_nat k <? (band_y + BAND_H) * LCD_W)) =
  ((band_y <=? row_of k) && (row_of k <? band_y + BAND_H)).
Proof.
  intros Hy. unfold row_of, LCD_W, BAND_H. pose proof (Z.div_mod (Z.of_nat k) 240 ltac:(lia)) as E.
  pose proof (Z.mod_pos_bound (Z.of_nat k) 240 ltac:(lia)) as B. revert E B.
  generalize (Z.of_nat k / 240), (Z.of_nat k mod 240). intros q r E B. rewrite E. clear E.
  apply eq_true_iff_eq. rewrite !andb_true_iff, !Z.leb_le, !Z.ltb_lt. lia.
Qed.

Lemma strip_place k k0 band_y :
  0 <= band_y -> band_y <= row_of k < band_y + BAND_H -> k0 = (k - Z.to_nat (band_y * LCD_W))%nat ->
  (k0 < BAND_SIZE)%nat /\ col_of k0 = col_of k /\ band_y + row_of k0 = row_of k.
Proof.
  unfold BAND_SIZE, row_of, col_of, LCD_W, BAND_H. intros Hy Hr Hk0.
  pose proof (Z.div_mod (Z.of_nat k) 240 ltac:(lia)) as E. pose proof (Z.mod_pos_bound (Z.of_nat k) 240 ltac:(lia)) as B.
  revert E B Hr. generalize (Z.of_nat k / 240), (Z.of_nat k mod 240). intros q r E B Hr.
  assert (Z.of_nat k0 = (q - band_y) * 240 + r) as E0 by lia. rewrite E0. split; [lia|].
  rewrite Z.div_add_l, (Z.div_small r), (Z.add_comm _ r), Z.mod_add, Z.mod_small by lia. lia.
Qed.

Lemma render_loop_spec fuel shift_x shift_y draws rects band_y panel :
  length panel = PANEL_SIZE -> 0 <= band_y -> band_y + Z.of_nat fuel * BAND_H = LCD_H ->
  (exists n, band_y = n * BAND_H) ->
  exists panel', render_loop fuel shift_x shift_y draws rects band_y panel = Some panel' /\ length panel' = PANEL_SIZE /\
    forall k, (k < PANEL_SIZE)%nat -> panel' !! k =
      if (band_y <=? row_of k) && bool_decide (draws (row_of k / BAND_H * BAND_H) = ESP_OK)
      then Some (pixel shift_x shift_y rects (col_of k) (row_of k)) else panel !! k.
Proof.
  revert band_y panel. induction fuel as [|fuel IH]; intros band_y panel Hp Hy Hf Hn.
  - exists panel. split; [done|]. split; [done|]. intros k Hk.
    assert (row_of k < LCD_H) by (unfold row_of, PANEL_SIZE, LCD_W, LCD_H in *; apply Z.div_lt_upper_bound; lia).
    by destruct (Z.leb_spec band_y (row_of k)); [lia|].
  - cbn [render_loop]. destruct (Z.ltb_spec band_y LCD_H); [|unfold BAND_H in *; lia].
    destruct (strip_pixels shift_x shift_y rects band_y) as (band & Es & Lb & Kb). fold BAND_SIZE. rewrite Es. cbn [mbind option_bind].
    assert (0 <= band_y <= LCD_H - BAND_H) as Hb by (unfold BAND_H, LCD_H in *; lia).
    destruct (IH (band_y + BAND_H) (flush_band (draws band_y) band_y band panel)) as (panel' & Er & Lr & Kr).
    + by apply (flush_band_lookup (draws band_y) band_y band panel 0).
    + unfold BAND_H. lia.
    + lia.
    + destruct Hn as [n ->]. exists (n + 1). lia.
    + exists panel'. split; [exact Er|]. split; [done|]. intros k Hk. rewrite Kr by done.
      destruct (flush_band_lookup (draws band_y) band_y band panel k Hp Lb Hb) as [_ ->].
      rewrite <- andb_assoc, strip_range by done.
      destruct (decide (band_y + BAND_H <= row_of k)) as [Hr|Hr].
      * rewrite !(proj2 (Z.leb_le _ _)), (proj2 (Z.ltb_ge _ _)), andb_false_r by (unfold BAND_H in *; lia). done.
      * rewrite (proj2 (Z.leb_gt (band_y + BAND_H) _)) by lia. cbn [andb].
        destruct (Z.leb_spec band_y (row_of k)); cbn [andb]; [|by rewrite andb_false_r].
        rewrite (proj2 (Z.ltb_lt _ _)), andb_true_r by lia.
        destruct (strip_place k _ band_y Hy ltac:(lia) eq_refl) as (Hk0 & Hc0 & Hr0).
        assert (row_of k / BAND_H * BAND_H = band_y) as ->.
        { destruct Hn as [n ->]. unfold BAND_H in *. f_equal. symmetry. apply (Z.div_unique _ _ _ (row_of k - n * 24)); lia. }
        case_bool_decide; [|done]. by rewrite Kb, Hc0, Hr0.
Qed.

Lemma place_at x y :
  0 <= x < LCD_W -> 0 <= y < LCD_H -> col_of (place x y) = x /\ row_of (place x y) = y /\ (place x y < PANEL_SIZE)%nat.
Proof.
  unfold col_of, row_of, place, PANEL_SIZE, LCD_W, LCD_H. intros Hx Hy. split_and!; [rewrite Z2Nat.id by lia..|lia].
  - symmetry. apply (Z.mod_unique_pos _ _ y); lia.
  - symmetry. apply (Z.div_unique_pos _ _ _ x); lia.
Qed.

(** C24. Drawing a page strip by strip gives the page: whatever the calls of
    [fill] are, also outside of the screen, every pixel of a strip that the
    panel accepts has the colour of the last call that covers it, after the
    shift, or is black; the strips that it does not accept stay; and the buffer
    of the strip is never written outside of its bounds. *)
Theorem strips_make_frame shift_x shift_y draws rects panel :
  length panel = PANEL_SIZE ->
  exists panel', render shift_x shift_y draws rects panel = Some panel' /\ length panel' = PANEL_SIZE /\
    forall x y, 0 <= x < LCD_W -> 0 <= y < LCD_H ->
      panel' !! place x y =
        if bool_decide (draws (y / BAND_H * BAND_H) = ESP_OK) then Some (pixel shift_x shift_y rects x y)
        else panel !! place x y.
Proof.
  intros Hp. destruct (render_loop_spec (Z.to_nat (LCD_H / BAND_H)) shift_x shift_y draws rects 0 panel) as (panel' & E & L & K);
    [done|lia|done|by exists 0|].
  exists panel'. split; [exact E|]. split; [done|]. intros x y Hx Hy.
  destruct (place_at x y Hx Hy) as (Hc & Hr & Hk). rewrite K, Hc, Hr by exact Hk.
  by rewrite (proj2 (Z.leb_le 0 y)) by apply Hy.
Qed.

(** ** Transliteration *)

(** What a character becomes. *)
Definition ascii_of (cp : Z) : list Z :=
  if cp <? 0x80 then [if (cp =? 10) || (cp =? 13) || (cp =? 9) then 32 else cp]
  else if cp =? 0xe4 then str "ae" else if cp =? 0xf6 then str "oe" else if cp =? 0xfc then str "ue"
  else if cp =? 0xc4 then str "Ae" else if cp =? 0xd6 then str "Oe" else if cp =? 0xdc then str "Ue"
  else if cp =? 0xdf then str "ss" else str "?".

Definition continuation (c : Z) : bool := Z.land c 0xc0 =? 0x80.

Lemma continuation_range c : is_byte c -> continuation c = ((0x80 <=? c) && (c <? 0xc0)).
Proof.
  intros Hc. by_bytes c Hc.
Qed.

Lemma umlaut_of x : 0 <= x < 64 -> umlaut (0x80 + x) = ascii_of (192 + x).
Proof.
  intros Hx. by_range x Hx.
Qed.

Lemma ascii_of_far cp : 256 <= cp -> ascii_of cp = str "?".
Proof. intros H. unfold ascii_of. repeat (case_match; [lia|]). done. Qed.

Lemma ascii_of_length cp : (1 <= length (ascii_of cp) <= 2)%nat.
Proof. unfold ascii_of. repeat case_match; cbn; lia. Qed.

(** The bytes of a character that is not ASCII. *)
Lemma enc_shape cp :
  scalar cp -> 128 <= cp ->
  exists lead second rest, utf8_enc cp = lead :: second :: rest /\ 0xc0 <= lead < 256 /\
    Forall (fun c => 0x80 <= c < 0xc0) (second :: rest) /\ (if lead =? 0xc3 then umlaut second else str "?") = ascii_of cp.
Proof.
  intros Hs Hcp. rewrite utf8_enc_arith by done. destruct Hs as [[_ Hmax] _].
  pose proof (Z.mod_pos_bound cp 64 ltac:(lia)). pose proof (Z.mod_pos_bound (cp / 64) 64 ltac:(lia)).
  pose proof (Z.mod_pos_bound (cp / 4096) 64 ltac:(lia)).
  destruct (Z.ltb_spec cp 0x80); [lia|]. destruct (Z.ltb_spec cp 0x800); [|destruct (Z.ltb_spec cp 0x10000)].
  - do 3 eexists. split; [done|]. split; [Z.div_mod_to_equations; lia|]. split; [repeat constructor; lia|].
    destruct (Z.eqb_spec (0xC0 + cp / 64) 0xc3).
    + rewrite umlaut_of by lia. f_equal. Z.div_mod_to_equations. lia.
    + destruct (Z_lt_ge_dec cp 256); [|by rewrite ascii_of_far by lia].
      assert (cp / 64 = 2) as E by (Z.div_mod_to_equations; lia). assert (128 <= cp < 192) as Hr by (Z.div_mod_to_equations; lia).
      unfold ascii_of. repeat (case_match; [lia|]). done.
  - do 3 eexists. split; [done|]. split; [Z.div_mod_to_equations; lia|]. split; [repeat constructor; lia|].
    destruct (Z.eqb_spec (0xE0 + cp / 4096) 0xc3); [Z.div_mod_to_equations; lia|]. by rewrite ascii_of_far by lia.
  - do 3 eexists. split; [done|]. split; [Z.div_mod_to_equations; lia|]. split; [repeat constructor; lia|].
    destruct (Z.eqb_spec (0xF0 + cp / 262144) 0xc3); [Z.div_mod_to_equations; lia|]. by rewrite ascii_of_far by lia.
Qed.

Lemma ascii_loop_skip l p out_size out :
  Forall (fun c => 0x80 <= c < 0xc0) l -> ascii_loop true (l ++ p) out_size out = ascii_loop true p out_size out.
Proof.
  induction 1 as [|c l Hc _ IH]; [done|]. cbn [app ascii_loop]. fold (continuation c).
  rewrite continuation_range by (unfold is_byte; lia). destruct ((_ <=? _) && _) eqn:E; [|lia]. exact IH.
Qed.

(** One character, also behind another one. *)
Lemma ascii_loop_char cp p skipping out_size out :
  scalar cp ->
  exists skipping', ascii_loop skipping (utf8_enc cp ++ p) out_size out =
    if (out_size <=? length out + 2)%nat then out else ascii_loop skipping' p out_size (out ++ ascii_of cp).
Proof.
  intros Hs. destruct (Z_lt_ge_dec cp 128).
  - exists false. rewrite utf8_enc_arith by done. destruct (Z.ltb_spec cp 0x80); [|lia]. cbn [app ascii_loop].
    fold (continuation cp). destruct Hs as [[Hp _] _]. rewrite continuation_range by (unfold is_byte; lia).
    rewrite (proj2 (Z.leb_gt 0x80 cp)), andb_false_r by lia. unfold ascii_of. by rewrite (proj2 (Z.ltb_lt cp 0x80)) by lia.
  - exists true. destruct (enc_shape cp Hs) as (lead & second & rest & -> & Hl & Hc & Ha); [lia|].
    change ((lead :: second :: rest) ++ p) with (lead :: ((second :: rest) ++ p)).
    assert (((second :: rest) ++ p).[0] = second) as E0 by done. rewrite <- (ascii_loop_skip (second :: rest) p) by exact Hc.
    revert E0. generalize ((second :: rest) ++ p). intros tl E0. cbn [ascii_loop]. fold (continuation lead).
    rewrite continuation_range by (unfold is_byte; lia).
    rewrite (proj2 (Z.ltb_ge lead 0xc0)), !andb_false_r by lia. rewrite (proj2 (Z.ltb_ge lead 0x80)) by lia.
    rewrite E0, Ha. destruct (Nat.leb_spec out_size (length out + 2)); [done|]. pose proof (ascii_of_length cp).
    by rewrite take_ge by lia.
Qed.

Lemma ascii_loop_spec cps skipping out_size out :
  Forall scalar cps ->
  exists n, ascii_loop skipping (utf8 cps) out_size out = out ++ concat (map ascii_of (take n cps)) /\
    let r := out ++ concat (map ascii_of (take n cps)) in
    ((length cps <= n)%nat \/ (out_size <= length r + 2)%nat) /\ ((length out < out_size)%nat -> (length r < out_size)%nat).
Proof.
  intros Hs. revert skipping out. induction Hs as [|cp cps Hcp _ IH]; intros skipping out.
  { exists 0%nat. cbn. rewrite app_nil_r. split_and!; [done|left; lia|done]. }
  change (utf8 (cp :: cps)) with (utf8_enc cp ++ utf8 cps).
  destruct (ascii_loop_char cp (utf8 cps) skipping out_size out Hcp) as (skipping' & ->).
  destruct (Nat.leb_spec out_size (length out + 2)).
  - exists 0%nat. cbn. rewrite app_nil_r. split_and!; [done|by right|done].
  - destruct (IH skipping' (out ++ ascii_of cp)) as (n & -> & Hall & Hfit). exists (S n). cbn [take map concat].
    rewrite !app_assoc. split; [done|]. split.
    + destruct Hall; [left; cbn; lia|by right].
    + intros _. apply Hfit. rewrite length_app. pose proof (ascii_of_length cp). lia.
Qed.

(** A text is shown with each of its characters replaced by ASCII - the
    German umlauts by two letters, a line break or tab by a space, any other
    character by a question mark - up to the size of the buffer, which is
    never exceeded and left unused by at most one byte besides the terminator;
    a character is never replaced in part. *)
Theorem text_transliterated cps out_size :
  Forall scalar cps -> (0 < out_size)%nat ->
  exists n, let shown := concat (map ascii_of (take n cps)) in
    utf8_to_ascii (utf8 cps) out_size = shown /\ (length shown < out_size)%nat /\
    ((length cps <= n)%nat \/ (out_size <= length shown + 2)%nat) /\ Forall (fun c => 1 <= c < 128) shown.
Proof.
  intros Hs Ho. unfold utf8_to_ascii. rewrite cstring_c_str by auto with gw.
  destruct (ascii_loop_spec cps false out_size [] Hs) as (n & -> & Hall & Hfit). exists n. split_and!; [done|by apply Hfit|done|].
  apply Forall_concat, Forall_map, Forall_take. eapply Forall_impl; [exact Hs|]. intros cp [[Hp _] _]. cbv beta.
  unfold compose, ascii_of. destruct (Z.ltb_spec cp 0x80).
  - constructor; [|done]. destruct (_ || _); lia.
  - repeat case_match; apply (bool_decide_unpack _); vm_compute; exact I.
Qed.

(** ** Witnesses *)

Definition sample_view : view_significant_t :=
  mk_view PAGE_STATUS true true (str "10.0.0.7") (str "home") NETWORK_PORTAL_CLOSED NETWORK_SETUP_IDLE [] [] 2
    MODEM_STATE_READY MODEM_SIM_READY 5 (str "+491701234567") (str "07.10. 14:32") (str "Gruesse") GATEWAY_SAFE_MODE_OFF.

Definition sample_minor : view_minor_t := mk_minor 3 (-71) (str "Telekom").

(** The line above the last message is where it belongs, shifted. *)
Lemma strips_make_frame_witness :
  exists panel', render 1 3 (fun _ => ESP_OK) (draw true [] (Some (sample_view, sample_minor))) (zeros PANEL_SIZE) = Some panel' /\
    panel' !! place 100 131 = Some (RGB 70 70 70) /\ panel' !! place 100 130 = Some 0.
Proof.
  destruct (strips_make_frame 1 3 (fun _ => ESP_OK) (draw true [] (Some (sample_view, sample_minor))) (zeros PANEL_SIZE))
    as (panel' & E & _ & K); [unfold zeros; by rewrite length_replicate|].
  exists panel'. split; [exact E|]. split.
  - rewrite (K 100 131); [vm_compute; reflexivity|split; by vm_compute|split; by vm_compute].
  - rewrite (K 100 130); [vm_compute; reflexivity|split; by vm_compute|split; by vm_compute].
Defined.

(** The letters of a greeting in German and the euro sign, in a buffer of
    eight bytes. *)
Lemma text_transliterated_witness :
  exists n, let shown := concat (map ascii_of (take n [71; 114; 0xfc; 0xdf; 101; 32; 0x20ac])) in
    utf8_to_ascii (utf8 [71; 114; 0xfc; 0xdf; 101; 32; 0x20ac]) 8 = shown /\ (length shown < 8)%nat /\
    ((7 <= n)%nat \/ (8 <= length shown + 2)%nat) /\ Forall (fun c => 1 <= c < 128) shown.
Proof.
  apply (text_transliterated [71; 114; 0xfc; 0xdf; 101; 32; 0x20ac] 8).
  - apply (bool_decide_unpack _); vm_compute; exact I.
  - apply (bool_decide_unpack _); vm_compute; exact I.
Defined.

Example greeting : utf8_to_ascii (utf8 [71; 114; 0xfc; 0xdf; 101; 32; 0x20ac]) 64 = str "Gruesse ?".
Proof. vm_compute. reflexivity. Qed.
