(* ===== verification/ApiCommon.v ===== *)
(** * Validation shared by the HTTP and MQTT interfaces
      (components/api_common/api_common.c)

    Recipients, idempotency keys and diagnostic AT commands.  The rate limiter
    computes with [double]s and is not modelled. *)

From Stdlib Require Import Ascii String.
From Stdlib Require Import ZifyBool ZifyNat.
From stdpp Require Import base numbers list strings.
From S2P Require Import Prelude.
From S2P Require Import PduEncode.

Open Scope Z_scope.

(** The loop behind the plus sign: the number of digits. *)
Fixpoint e164_loop (value : list Z) (i digits : nat) : option nat :=
  match value with
  | [] => Some digits
  | c :: value' =>
      if (c <? chr "0") || (chr "9" <? c) then None
      else if (i =? 1)%nat && (c =? chr "0") then None
      else
        let digits := S digits in
        if (15 <? digits)%nat then None else e164_loop value' (S i) digits
  end.

Definition gateway_e164_valid (value : option (list Z)) : bool :=
  match value with
  | None => false
  | Some value =>
      if negb ((c_str value).[0] =? chr "+") then false
      else match e164_loop (drop 1 (c_str value)) 1 0 with
           | None => false
           | Some digits => (2 <=? digits)%nat
           end
  end.

Definition key_char (c : Z) : bool :=
  ((chr "a" <=? c) && (c <=? chr "z")) || ((chr "A" <=? c) && (c <=? chr "Z"))
  || ((chr "0" <=? c) && (c <=? chr "9")) || (c =? chr "-") || (c =? chr "_") || (c =? chr ".") || (c =? chr ":").

Definition gateway_idempotency_key_valid (value : option (list Z)) : bool :=
  match value with
  | None => false
  | Some value =>
      let len := strlen value in
      if (len <? 8)%nat || (128 <? len)%nat then false else forallb key_char (c_str value)
  end.

Definition toupper (c : Z) : Z := if (chr "a" <=? c) && (c <=? chr "z") then c - 32 else c.

(** Both are the strings without their terminator, which reads as 0. *)
Fixpoint starts_with_ignore_case (value prefix : list Z) : bool :=
  match prefix with
  | [] => true
  | p :: prefix' =>
      if negb (toupper value.[0] =? toupper p) then false else starts_with_ignore_case (drop 1 value) prefix'
  end.

Definition gateway_at_command_allowed (command : option (list Z)) (max_length : nat) : bool :=
  match command with
  | None => false
  | Some command =>
      let command := c_str command in
      if negb (starts_with_ignore_case command (str "AT")) then false
      else if (max_length <=? length command)%nat
              || existsb (fun c => (c =? 13) || (c =? 10) || (c =? 26)) command then false
      else negb (starts_with_ignore_case command (str "AT+CMGS"))
           && negb (starts_with_ignore_case command (str "AT+CMGW"))
  end.

(** [strcspn(s, "=?")] *)
Fixpoint name_length (s : list Z) : nat :=
  match s with
  | [] => 0
  | c :: s' => if (c =? chr "=") || (c =? chr "?") then 0 else S (name_length s')
  end.

(** [out] with its contents after the call, and the result. *)
Definition gateway_at_response_prefix (command out : option (list Z)) : option (list Z) * bool :=
  match out with
  | None => (None, false)
  | Some buffer =>
      if (length buffer =? 0)%nat then (out, false)
      else
        let buffer := set_string buffer [] in
        match command with
        | None => (Some buffer, false)
        | Some command =>
            let command := c_str command in
            if negb (starts_with_ignore_case command (str "AT"))
               || (negb (command.[2] =? chr "+") && negb (command.[2] =? chr "^"))
            then (Some buffer, false)
            else
              let len := name_length (drop 2 command) in
              if (len <? 2)%nat || (length buffer <? len + 2)%nat then (Some buffer, false)
              else (Some (set_string buffer (map toupper (take len (drop 2 command)) ++ [chr ":"])), true)
        end
  end.

(** ** Recipients *)

(** The recipients of the E.164 plan: a plus sign and 2 to 15 digits, of which
    the first is not 0. *)
Definition e164 (s : list Z) : Prop :=
  exists d ds, s = chr "+" :: d :: ds /\ isdigit d = true /\ d <> chr "0" /\
    Forall (fun c => isdigit c = true) ds /\ (1 <= length ds <= 14)%nat.

Lemma e164_loop_spec value i digits n :
  (digits <= 15)%nat -> (1 <= i)%nat ->
  e164_loop value i digits = Some n <->
  n = (digits + length value)%nat /\ (n <= 15)%nat /\ Forall (fun c => isdigit c = true) value /\
  (i = 1%nat -> head value <> Some (chr "0")).
Proof.
  revert i digits. induction value as [|c value IH]; intros i digits Hd H1; cbn [e164_loop length head].
  { rewrite Nat.add_0_r. split; [intros [= ->]; by split_and!|intros (-> & _)]; done. }
  assert (isdigit c = negb ((c <? chr "0") || (chr "9" <? c))) as Hc
    by (unfold isdigit; change (chr "0") with 48; change (chr "9") with 57; lia).
  destruct ((c <? chr "0") || (chr "9" <? c)) eqn:E.
  { split; [done|]. intros (_ & _ & H & _). apply Forall_cons in H as [H _]. cbn in Hc. congruence. }
  destruct ((i =? 1)%nat && (c =? chr "0")) eqn:E0.
  { apply andb_true_iff in E0 as [Hi ->%Z.eqb_eq]. split; [done|]. intros (_ & _ & _ & H).
    destruct (H ltac:(lia)). done. }
  destruct (Nat.ltb_spec 15 (S digits)).
  { split; [done|]. intros (-> & Hn & _). lia. }
  rewrite IH by lia. split.
  - intros (-> & Hn & Hv & _). split_and!; [lia|lia|by constructor|]. intros -> [= ->]. done.
  - intros (-> & Hn & Hv & _). apply Forall_cons in Hv as [_ Hv]. split_and!; [lia|lia|done|]. intros. lia.
Qed.

Lemma e164_valid_spec value : gateway_e164_valid (Some value) = true <-> e164 (c_str value).
Proof.
  unfold gateway_e164_valid, e164. destruct (c_str value) as [|p s]; cbn [byte_at nth drop].
  { split; [done|]. by intros (? & ? & ? & _). }
  destruct (Z.eqb_spec p (chr "+")) as [->|Hp]; cbn [negb].
  2: { split; [done|]. intros (? & ? & [= -> _] & _). done. }
  rewrite drop_0.
  destruct (e164_loop s 1 0) as [n|] eqn:E.
  - apply e164_loop_spec in E; [|lia..]. destruct E as (-> & Hn & Hs & H0).
    destruct s as [|d ds]; cbn [length plus] in *.
    { split; [done|]. by intros (? & ? & ? & _). }
    apply Forall_cons in Hs as [Hd Hds]. split.
    + intros Hl%Nat.leb_le. exists d, ds. split; [done|split; [done|split; [|split; [done|lia]]]].
      intros ->. by apply H0.
    + intros (d' & ds' & E & _ & _ & _ & Hl). injection E as -> ->. apply Nat.leb_le. lia.
  - split; [done|]. intros (d & ds & [= ->] & Hd & H0 & Hds & Hl).
    assert (e164_loop (d :: ds) 1 0 = Some (S (length ds))) as E'; [|congruence].
    apply e164_loop_spec; [lia..|]. split; [done|]. split; [lia|]. split; [by constructor|]. by intros _ [= ?].
Qed.

(** The API takes exactly the recipients of the E.164 plan, and the encoder
    takes every recipient that the API takes: it splits it into its digits and
    the international type. *)
Theorem e164_recipient_encodable value :
  (gateway_e164_valid (Some value) = true <-> e164 (c_str value)) /\
  (gateway_e164_valid (Some value) = true ->
   exists digits, c_str value = chr "+" :: digits /\ address_validate (c_str value) = Some (digits, true)).
Proof.
  split; [apply e164_valid_spec|]. intros H%e164_valid_spec. destruct H as (d & ds & E & Hd & _ & Hds & Hl).
  exists (d :: ds). split; [done|]. rewrite E. unfold address_validate.
  change ((chr "+" :: d :: ds).[0] =? 43) with true. cbv iota. change (drop 1 (chr "+" :: d :: ds)) with (d :: ds).
  assert (forallb isdigit (d :: ds) = true) as Hf.
  { apply forallb_forall. intros x Hx. cbn in Hx. destruct Hx as [<-|Hx]; [done|].
    rewrite list.Forall_forall in Hds. by apply Hds, list_elem_of_In. }
  rewrite cstring_c_str.
  - replace ((length (d :: ds) =? 0)%nat || (20 <? length (d :: ds))%nat) with false by (cbn [length]; lia).
    by rewrite Hf.
  - apply Forall_cons_2; [unfold isdigit in Hd; lia|]. eapply Forall_impl; [exact Hds|].
    cbn. unfold isdigit. intros. lia.
Qed.

Lemma e164_recipient_encodable_witness :
  exists digits, c_str (str "+491701234567") = chr "+" :: digits /\
    address_validate (c_str (str "+491701234567")) = Some (digits, true).
Proof. apply (proj2 (e164_recipient_encodable (str "+491701234567"))). vm_compute. reflexivity. Defined.

(** ** The examples of test_api_common.c *)

Example key_ok : gateway_idempotency_key_valid (Some (str "request-1234")) = true.
Proof. reflexivity. Qed.
Example key_spaces : gateway_idempotency_key_valid (Some (str "request key with spaces")) = false.
Proof. reflexivity. Qed.
Example command_lower : gateway_at_command_allowed (Some (str "at^portsel?")) 192 = true.
Proof. reflexivity. Qed.
Example command_prompt : gateway_at_command_allowed (Some (str "at+cmgw")) 192 = false.
Proof. reflexivity. Qed.
Example command_two : gateway_at_command_allowed (Some (str "AT" ++ [13; 10] ++ str "AT+CFUN=0")) 192 = false.
Proof. reflexivity. Qed.
Example prefix_lower :
  option_map c_str (gateway_at_response_prefix (Some (str "at^portsel=1")) (Some (zeros 40))).1 = Some (str "^PORTSEL:").
Proof. vm_compute. reflexivity. Qed.
Example prefix_basic : (gateway_at_response_prefix (Some (str "ATI")) (Some (zeros 40))).2 = false.
Proof. reflexivity. Qed.
Example prefix_small : (gateway_at_response_prefix (Some (str "AT+CPMS?")) (Some (zeros 6))).2 = false.
Proof. reflexivity. Qed.

(** Only the start of the line is compared: a prompt command behind another
    command on the same line passes. *)
Example compound_command_allowed : gateway_at_command_allowed (Some (str "AT;+CMGS=20")) 192 = true.
Proof. reflexivity. Qed.
