(* ===== verification/RateLimiter.v ===== *)
(** * The rate limiter of the HTTP interface (components/api_common/api_common.c)

    A token bucket in [double]s.  A [double] is the [spec_float] of the
    Standard Library with the precision and the exponents of binary64, whose
    operations are those of IEEE 754, rounded to the nearest. *)

From Stdlib Require Import SpecFloat.
From Stdlib Require Import ZifyBool ZifyNat.
From stdpp Require Import base numbers list.
From S2P Require Import Prelude.

Open Scope Z_scope.

(** ** Doubles *)

Definition double : Type := spec_float.

(** The nearest [double] of an integer. *)
Definition double_of_Z (z : Z) : double := binary_normalize 53 1024 z 0 false.

Definition dadd : double -> double -> double := SFadd 53 1024.
Definition dsub : double -> double -> double := SFsub 53 1024.
Definition dmul : double -> double -> double := SFmul 53 1024.
Definition ddiv : double -> double -> double := SFdiv 53 1024.

(** [a < b] and [a <= b]; both are false when one is no number. *)
Definition dltb (a b : double) : bool := SFltb a b.
Definition dleb (a b : double) : bool := SFleb a b.

(** The integer part, which a conversion to an integer type keeps. *)
Definition double_trunc (x : double) : Z :=
  match x with
  | S754_finite sign m e =>
      let v := if 0 <=? e then Zpos m * 2 ^ e else Zpos m / 2 ^ (- e) in if sign then - v else v
  | _ => 0
  end.

(** ** The limiter *)

Record gateway_rate_limiter_t := mk_limiter {
  rl_capacity : double;
  rl_tokens : double;
  rl_refill_per_second : double;
  rl_last_ms : Z;
}.

(** [limiter] is not NULL; neither does any caller pass NULL. *)
Definition gateway_rate_limiter_init (capacity refill_per_second : double) (now_ms : Z) : gateway_rate_limiter_t :=
  let capacity := if dltb (double_of_Z 0) capacity then capacity else double_of_Z 1 in
  let refill_per_second := if dltb (double_of_Z 0) refill_per_second then refill_per_second else double_of_Z 0 in
  mk_limiter capacity capacity refill_per_second now_ms.

(** The part in front of the decision. *)
Definition refilled (limiter : gateway_rate_limiter_t) (now_ms : Z) : gateway_rate_limiter_t :=
  if (rl_last_ms limiter <? now_ms) && dltb (double_of_Z 0) (rl_refill_per_second limiter) then
    let elapsed := ddiv (double_of_Z (now_ms - rl_last_ms limiter)) (double_of_Z 1000) in
    let tokens := dadd (rl_tokens limiter) (dmul elapsed (rl_refill_per_second limiter)) in
    mk_limiter (rl_capacity limiter) (if dltb (rl_capacity limiter) tokens then rl_capacity limiter else tokens)
      (rl_refill_per_second limiter) now_ms
  else limiter.

(** The literal 1e-9. *)
Definition rate_epsilon : double := ddiv (double_of_Z 1) (double_of_Z 1000000000).

Definition gateway_rate_limiter_allow (limiter : gateway_rate_limiter_t) (cost : double) (now_ms : Z)
  : gateway_rate_limiter_t * bool :=
  if dleb cost (double_of_Z 0) then (limiter, false)
  else
    let limiter := refilled limiter now_ms in
    if dltb (dadd (rl_tokens limiter) rate_epsilon) cost then (limiter, false)
    else (mk_limiter (rl_capacity limiter) (dsub (rl_tokens limiter) cost) (rl_refill_per_second limiter)
            (rl_last_ms limiter), true).

(** The answers for a sequence of times. *)
Fixpoint allowed (limiter : gateway_rate_limiter_t) (times : list Z) : list bool :=
  match times with
  | [] => []
  | now :: times' =>
      let '(limiter, ok) := gateway_rate_limiter_allow limiter (double_of_Z 1) now in ok :: allowed limiter times'
  end.

(** The limiters that [api_server_init] makes. *)
Definition request_limiter : Z -> gateway_rate_limiter_t :=
  gateway_rate_limiter_init (double_of_Z 60) (double_of_Z 1).
Definition sms_limiter : Z -> gateway_rate_limiter_t :=
  gateway_rate_limiter_init (double_of_Z 5) (ddiv (double_of_Z 1) (double_of_Z 6)).
Definition ota_limiter : Z -> gateway_rate_limiter_t :=
  gateway_rate_limiter_init (double_of_Z 2) (ddiv (double_of_Z 1) (double_of_Z 300)).

(** Five messages at once, then one in six seconds: 1/6 is rounded down, which
    the epsilon makes up for. *)
Example sms_burst :
  allowed (sms_limiter 0) [0; 0; 0; 0; 0; 0; 5999; 6000; 11999; 12000; 12000] =
  [true; true; true; true; true; false; false; true; false; true; false].
Proof. vm_compute. reflexivity. Qed.

(** Sixty requests at once, then one a second, and no more than sixty after
    an hour. *)
Example request_burst :
  allowed (request_limiter 0) (replicate 61 0 ++ [1000; 1000] ++ replicate 61 3601000) =
  replicate 60 true ++ [false; true; false] ++ replicate 60 true ++ [false].
Proof. vm_compute. reflexivity. Qed.
