(* ===== verification/Http.v ===== *)
(** * Requests, JSON values and replies of the HTTP interface

    The web server (esp_http_server) and cJSON are libraries: a request is what
    the server's functions answer about it, a JSON value is cJSON's tree, which
    the code walks itself, and parsing is an argument of the code that uses it.
    Printing a tree is left out: a reply carries the tree. *)

From Stdlib Require Import Ascii String.
From Stdlib Require Import ZifyBool ZifyNat.
From stdpp Require Import base numbers list strings.
From S2P Require Import Prelude.
From S2P Require Import RateLimiter.

Open Scope Z_scope.

(** ** JSON *)

(** The members of an object in their order; a name may occur twice. *)
#[warnings="-automation"]
Inductive json :=
  | JNull
  | JBool (b : bool)
  | JNumber (v : double)
  | JString (s : list Z)
  | JArray (items : list json)
  | JObject (members : list (list Z * json)).

Definition JInt (z : Z) : json := JNumber (double_of_Z z).

Definition cJSON_IsTrue (item : option json) : bool := match item with Some (JBool b) => b | _ => false end.
Definition cJSON_IsBool (item : option json) : bool := match item with Some (JBool _) => true | _ => false end.
Definition cJSON_IsNull (item : option json) : bool := match item with Some JNull => true | _ => false end.

(** [valuestring] of a string. *)
Definition json_string (item : option json) : option (list Z) :=
  match item with Some (JString s) => Some s | _ => None end.

(** The first member with the name. *)
Definition cJSON_GetObjectItemCaseSensitive (j : json) (name : list Z) : option json :=
  match j with
  | JObject members => snd <$> List.find (fun m => streq m.1 name) members
  | _ => None
  end.

Definition json_has_only_fields (j : json) (allowed : list (list Z)) : bool :=
  match j with
  | JObject members => forallb (fun m => existsb (streq m.1) allowed) members
  | _ => false
  end.

(** The number of an error in ESP-IDF. *)
Definition esp_err_code (err : esp_err_t) : Z :=
  match err with
  | ESP_OK => 0
  | ESP_FAIL => -1
  | ESP_ERR_NO_MEM => 0x101
  | ESP_ERR_INVALID_ARG => 0x102
  | ESP_ERR_INVALID_STATE => 0x103
  | ESP_ERR_INVALID_SIZE => 0x104
  | ESP_ERR_NOT_FOUND => 0x105
  | ESP_ERR_NOT_SUPPORTED => 0x106
  | ESP_ERR_TIMEOUT => 0x107
  | ESP_ERR_INVALID_RESPONSE => 0x108
  | ESP_ERR_INVALID_CRC => 0x109
  | ESP_ERR_INVALID_VERSION => 0x10A
  | ESP_ERR_NVS_NOT_FOUND => 0x1102
  | ESP_ERR_NVS_NOT_ENOUGH_SPACE => 0x1105
  | ESP_ERR_OTHER code => code
  end.

(** ** Requests *)

Inductive http_method := HTTP_GET | HTTP_POST | HTTP_PATCH | HTTP_DELETE.

#[export] Instance http_method_eq_dec : EqDecision http_method.
Proof. solve_decision. Defined.

(** What [httpd_req_recv] answers: so many bytes, 0 when the client closed the
    connection, or an error. *)
Inductive http_recv :=
  | Received (data : list Z)
  | RecvTimeout
  | RecvError.

Record http_request := mk_http_request {
  hq_method : http_method;
  hq_uri : list Z;
  content_len : nat;
  (** [httpd_req_get_hdr_value_len], and what [httpd_req_get_hdr_value_str]
      puts into a buffer of the size when it answers ESP_OK. *)
  hdr_value_len : list Z -> nat;
  hdr_value_str : list Z -> nat -> option (list Z);
  (** The answer to the nth call for so many bytes. *)
  req_recv : nat -> nat -> http_recv;
  url_query_len : nat;
  (** [httpd_req_get_url_query_str], and [httpd_query_key_value] on it. *)
  url_query_str : nat -> option (list Z);
  query_key_value : list Z -> list Z -> nat -> option (list Z);
}.

(** No more is received than there is space for. *)
Definition recv_ok (req : http_request) : Prop :=
  forall k wanted data, req_recv req k wanted = Received data -> (length data <= wanted)%nat.

(** ** Replies *)

(** What is sent; of a problem its detail, a sentence for the reader, is left
    out. *)
Inductive http_reply :=
  | Problem (status : Z) (type title : list Z)
  | Json (status : Z) (value : json)
  | Empty (status : list Z).
