(* ===== verification/MqttConfig.v ===== *)
(** * The MQTT settings (components/gateway_settings/mqtt_config.c,
      gateway_settings.c, components/mqtt_service/mqtt_command_policy.c)

    Which settings are valid, how they are kept in NVS, and which commands the
    MQTT client executes.  A character array is its full contents.

    [mutex_created], [allocated], [taken]: what the platform answers.  Wiping
    the record from memory is left out. *)

From Stdlib Require Import Ascii String.
From Stdlib Require Import ZifyBool ZifyNat.
From stdpp Require Import base numbers list strings.
From S2P Require Import Prelude.
From S2P Require Import Nvs.

Open Scope Z_scope.

Definition MQTT_BROKER_URI_MAX : nat := 256.
Definition MQTT_USERNAME_MAX : nat := 96.
Definition MQTT_PASSWORD_MAX : nat := 160.
Definition MQTT_BASE_TOPIC_MAX : nat := 128.
Definition MQTT_DISCOVERY_PREFIX_MAX : nat := 64.
Definition MQTT_DEFAULT_RECIPIENT_MAX : nat := 24.
Definition MQTT_CA_PEM_MAX : nat := 3072.

Record gateway_mqtt_config_t := mk_mqtt_config {
  mc_enabled : bool;
  mc_broker_uri : list Z;
  mc_username : list Z;
  mc_password : list Z;
  mc_base_topic : list Z;
  mc_home_assistant_enabled : bool;
  mc_discovery_prefix : list Z;
  mc_default_recipient : list Z;
  mc_ca_pem : list Z;
}.

(** The loop behind the plus sign. *)
Fixpoint mqtt_e164_loop (value : list Z) (i digits : nat) : option nat :=
  match value with
  | [] => Some digits
  | c :: value' =>
      if (c <? chr "0") || (chr "9" <? c) || ((i =? 1)%nat && (c =? chr "0")) then None
      else let digits := S digits in if (15 <? digits)%nat then None else mqtt_e164_loop value' (S i) digits
  end.

Definition e164_valid (value : option (list Z)) : bool :=
  match value with
  | None => false
  | Some value =>
      if negb ((c_str value).[0] =? chr "+") then false
      else match mqtt_e164_loop (drop 1 (c_str value)) 1 0 with
           | None => false
           | Some digits => (2 <=? digits)%nat
           end
  end.

Definition topic_char (c : Z) : bool :=
  negb ((c <? 0x21) || (0x7e <? c) || (c =? chr "#") || (c =? chr "+")).

Definition topic_valid (value : option (list Z)) (max_len : nat) : bool :=
  match value with
  | None => false
  | Some value =>
      let s := c_str value in
      if (length s =? 0)%nat || (max_len <=? length s)%nat || (s.[0] =? chr "/")
         || (s.[(length s - 1)%nat] =? chr "/")
      then false
      else forallb topic_char s
  end.

(** [strncmp(uri, scheme, strlen(scheme)) == 0] *)
Definition has_scheme (uri scheme : list Z) : bool := bool_decide (take (length scheme) (c_str uri) = scheme).

Definition gateway_mqtt_uri_is_tls (uri : option (list Z)) : bool :=
  match uri with Some uri => has_scheme uri (str "mqtts://") | None => false end.

(** [strstr(haystack, needle) != NULL] *)
Fixpoint contains (needle haystack : list Z) : bool :=
  bool_decide (take (length needle) haystack = needle)
  || match haystack with [] => false | _ :: haystack' => contains needle haystack' end.

Definition mqtt_config_zero : gateway_mqtt_config_t :=
  mk_mqtt_config false (zeros MQTT_BROKER_URI_MAX) (zeros MQTT_USERNAME_MAX) (zeros MQTT_PASSWORD_MAX)
    (zeros MQTT_BASE_TOPIC_MAX) false (zeros MQTT_DISCOVERY_PREFIX_MAX) (zeros MQTT_DEFAULT_RECIPIENT_MAX)
    (zeros MQTT_CA_PEM_MAX).

(** [config] is not NULL. *)
Definition gateway_mqtt_config_defaults (device_id : option (list Z)) : gateway_mqtt_config_t :=
  let id := match device_id with
            | Some id => if (strlen id =? 0)%nat then str "gateway" else c_str id
            | None => str "gateway"
            end in
  mk_mqtt_config false (zeros MQTT_BROKER_URI_MAX) (zeros MQTT_USERNAME_MAX) (zeros MQTT_PASSWORD_MAX)
    (snprintf_s (zeros MQTT_BASE_TOPIC_MAX) (str "sms-gateway/" ++ id)) true
    (snprintf_s (zeros MQTT_DISCOVERY_PREFIX_MAX) (str "homeassistant")) (zeros MQTT_DEFAULT_RECIPIENT_MAX)
    (zeros MQTT_CA_PEM_MAX).

Definition gateway_mqtt_config_validate (config : option gateway_mqtt_config_t) : esp_err_t :=
  match config with
  | None => ESP_ERR_INVALID_ARG
  | Some c =>
      if negb (topic_valid (Some (mc_base_topic c)) MQTT_BASE_TOPIC_MAX)
         || negb (topic_valid (Some (mc_discovery_prefix c)) MQTT_DISCOVERY_PREFIX_MAX)
      then ESP_ERR_INVALID_ARG
      else if negb ((mc_default_recipient c).[0] =? 0) && negb (e164_valid (Some (mc_default_recipient c)))
      then ESP_ERR_INVALID_ARG
      else if negb (mc_enabled c) then ESP_OK
      else
        let mqtt := has_scheme (mc_broker_uri c) (str "mqtt://") in
        let mqtts := gateway_mqtt_uri_is_tls (Some (mc_broker_uri c)) in
        if (negb mqtt && negb mqtts)
           || existsb (Z.eqb (chr "@")) (c_str (mc_broker_uri c))
           || existsb (Z.eqb 32) (c_str (mc_broker_uri c))
        then ESP_ERR_INVALID_ARG
        else
          let host := drop (if mqtts then 8 else 7) (c_str (mc_broker_uri c)) in
          if (host.[0] =? 0) || (host.[0] =? chr "/") then ESP_ERR_INVALID_ARG
          else if negb mqtts && negb ((mc_ca_pem c).[0] =? 0) then ESP_ERR_INVALID_ARG
          else if negb ((mc_ca_pem c).[0] =? 0)
                  && negb (contains (str "-----BEGIN CERTIFICATE-----") (c_str (mc_ca_pem c)))
          then ESP_ERR_INVALID_ARG
          else ESP_OK
  end.

(** ** The record in NVS *)

Definition SETTINGS_MAGIC : Z := 0x4d515454.
Definition SETTINGS_VERSION : Z := 1.
Definition MQTT_KEY : list Z := str "mqtt_v1".

(** [mqtt_record_t], packed: its bytes. *)
Definition config_to_record (c : gateway_mqtt_config_t) : list Z :=
  le 4 SETTINGS_MAGIC ++ le 2 SETTINGS_VERSION
  ++ [if mc_enabled c then 1 else 0; if mc_home_assistant_enabled c then 1 else 0]
  ++ mc_broker_uri c ++ mc_username c ++ mc_password c ++ mc_base_topic c ++ mc_discovery_prefix c
  ++ mc_default_recipient c ++ mc_ca_pem c.

Definition MQTT_RECORD_SIZE : nat :=
  8 + (MQTT_BROKER_URI_MAX + (MQTT_USERNAME_MAX + (MQTT_PASSWORD_MAX + (MQTT_BASE_TOPIC_MAX
  + (MQTT_DISCOVERY_PREFIX_MAX + (MQTT_DEFAULT_RECIPIENT_MAX + MQTT_CA_PEM_MAX)))))).

Definition record_magic (r : list Z) : Z := le_value (take 4 r).
Definition record_version (r : list Z) : Z := le_value (take 2 (drop 4 r)).

(** [field[sizeof(field) - 1] = 0] *)
Definition terminate (field : list Z) : list Z := take (length field - 1) field ++ [0].

Definition record_to_config (r : list Z) : gateway_mqtt_config_t :=
  let '(flags, r) := read 2 (drop 6 r) in
  let '(broker_uri, r) := read MQTT_BROKER_URI_MAX r in
  let '(username, r) := read MQTT_USERNAME_MAX r in
  let '(password, r) := read MQTT_PASSWORD_MAX r in
  let '(base_topic, r) := read MQTT_BASE_TOPIC_MAX r in
  let '(discovery_prefix, r) := read MQTT_DISCOVERY_PREFIX_MAX r in
  let '(default_recipient, r) := read MQTT_DEFAULT_RECIPIENT_MAX r in
  let '(ca_pem, _) := read MQTT_CA_PEM_MAX r in
  mk_mqtt_config (negb (flags.[0] =? 0)) (terminate broker_uri) (terminate username) (terminate password)
    (terminate base_topic) (negb (flags.[1] =? 0)) (terminate discovery_prefix) (terminate default_recipient)
    (terminate ca_pem).

Section Settings.

Context {N : Type} `{Nvs N}.

(** The static variables. *)
Record settings := mk_settings {
  gs_nvs : N;
  gs_config : gateway_mqtt_config_t;
  gs_initialized : bool;
  gs_mutex : bool;
}.

(** [err] and [s_config] after the record is read. *)
Definition load_config (n : N) (config : gateway_mqtt_config_t) : esp_err_t * gateway_mqtt_config_t :=
  match nvs_get_blob n MQTT_KEY MQTT_RECORD_SIZE with
  | inr record =>
      if (length record =? MQTT_RECORD_SIZE)%nat && (record_magic record =? SETTINGS_MAGIC)
         && (record_version record =? SETTINGS_VERSION)
      then (gateway_mqtt_config_validate (Some (record_to_config record)), record_to_config record)
      else (ESP_ERR_INVALID_VERSION, config)
  | inl e => (if bool_decide (e = ESP_ERR_NVS_NOT_FOUND) then ESP_OK else e, config)
  end.

(** [open] and [handle]: what [nvs_open] returned. *)
Definition gateway_settings_init (device_id : option (list Z)) (mutex_created : bool) (open : esp_err_t) (handle : N)
    (allocated : bool) (st : settings) : settings * esp_err_t :=
  if gs_initialized st then (st, ESP_ERR_INVALID_STATE)
  else if negb mutex_created then (mk_settings (gs_nvs st) (gs_config st) false false, ESP_ERR_NO_MEM)
  else if bool_decide (open <> ESP_OK) then (mk_settings (gs_nvs st) (gs_config st) false true, open)
  else if negb allocated then (mk_settings handle (gs_config st) false true, ESP_ERR_NO_MEM)
  else
    let '(err, config) := load_config handle (gs_config st) in
    let n := if bool_decide (err <> ESP_OK) then (nvs_commit (nvs_erase_key handle MQTT_KEY).1).1 else handle in
    let config := if bool_decide (err <> ESP_OK) || ((mc_base_topic config).[0] =? 0)
                  then gateway_mqtt_config_defaults device_id else config in
    (mk_settings n config true true, ESP_OK).

Definition gateway_settings_get_mqtt (out taken : bool) (st : settings) : esp_err_t + gateway_mqtt_config_t :=
  if negb out then inl ESP_ERR_INVALID_ARG
  else if negb (gs_initialized st) || negb (gs_mutex st) then inl ESP_ERR_INVALID_STATE
  else if negb taken then inl ESP_ERR_TIMEOUT
  else inr (gs_config st).

Definition gateway_settings_set_mqtt (config : option gateway_mqtt_config_t) (allocated taken : bool) (st : settings)
  : settings * esp_err_t :=
  match config with
  | None => (st, ESP_ERR_INVALID_ARG)
  | Some c =>
      if negb (gs_initialized st) || negb (gs_mutex st) then (st, ESP_ERR_INVALID_STATE)
      else
        let err := gateway_mqtt_config_validate config in
        if bool_decide (err <> ESP_OK) then (st, err)
        else if negb allocated then (st, ESP_ERR_NO_MEM)
        else if negb taken then (st, ESP_ERR_TIMEOUT)
        else
          let '(n, err) := nvs_set_blob (gs_nvs st) MQTT_KEY (config_to_record c) in
          let '(n, err) := if bool_decide (err = ESP_OK) then nvs_commit n else (n, err) in
          (mk_settings n (if bool_decide (err = ESP_OK) then c else gs_config st) true true, err)
  end.

End Settings.

Arguments settings N : clear implicits.

(** ** Commands *)

Inductive mqtt_command_kind_t :=
  | MQTT_COMMAND_NONE
  | MQTT_COMMAND_SMS_SEND
  | MQTT_COMMAND_NATIVE_NOTIFY
  | MQTT_COMMAND_MODEM_RESTART
  | MQTT_COMMAND_SYSTEM_REBOOT
  | MQTT_COMMAND_HA_STATUS.

#[export] Instance command_kind_eq_dec : EqDecision mqtt_command_kind_t.
Proof. solve_decision. Defined.

Definition payload_is (payload : option (list Z)) (s : list Z) : bool :=
  match payload with Some payload => streq payload s | None => false end.

Definition mqtt_command_allowed (kind : mqtt_command_kind_t) (retained : bool) (payload : option (list Z)) : bool :=
  if bool_decide (kind = MQTT_COMMAND_NONE) then false
  else if bool_decide (kind = MQTT_COMMAND_HA_STATUS) then negb retained && payload_is payload (str "online")
  else if retained then false
  else if bool_decide (kind = MQTT_COMMAND_MODEM_RESTART) || bool_decide (kind = MQTT_COMMAND_SYSTEM_REBOOT)
  then payload_is payload (str "PRESS")
  else match payload with Some _ => true | None => false end.
