(* ===== verification/MqttConfigFacts.v ===== *)
(** * The MQTT settings: validity, persistence and commands *)

From Stdlib Require Import Ascii String.
From Stdlib Require Import ZifyBool ZifyNat.
From stdpp Require Import base numbers list strings.
From S2P Require Import Prelude.
From S2P Require Import PduEncode.
From S2P Require Import ApiCommon.
From S2P Require Import Nvs.
From S2P Require Import MqttConfig.

Open Scope Z_scope.

(** ** The two validators of recipients agree *)

Lemma mqtt_e164_loop_same value i digits : mqtt_e164_loop value i digits = e164_loop value i digits.
Proof.
  revert i digits. induction value as [|c value IH]; intros i digits; cbn [mqtt_e164_loop e164_loop]; [done|].
  destruct ((c <? chr "0") || (chr "9" <? c)); cbn [orb]; [done|]. destruct (_ && _); [done|]. by rewrite IH.
Qed.

Lemma e164_valid_same value : e164_valid value = gateway_e164_valid value.
Proof. destruct value as [value|]; [|done]. cbn. by rewrite mqtt_e164_loop_same. Qed.

(** ** Defaults *)

(** A device identifier that may be part of a topic. *)
Definition device_id_ok (id : list Z) : Prop :=
  Forall (fun c => topic_char c = true /\ c <> chr "/") id /\ (length id < 100)%nat.

Lemma c_str_snprintf field s :
  cstring s -> (length s < length field)%nat -> c_str (snprintf_s field s) = s.
Proof.
  intros Hs Hl. unfold snprintf_s, set_string. rewrite (cstring_c_str s Hs), take_ge by lia.
  by apply (c_str_terminates s _ Hs).
Qed.

Lemma has_char_chr (c : Z) (s : list Z) (i : nat) :
  Forall (fun x => x <> c) s -> (i < length s)%nat -> s.[i] <> c.
Proof.
  intros H Hi. destruct (lookup_lt_is_Some_2 s i Hi) as [x Hx]. unfold byte_at. rewrite (nth_lookup_Some _ _ _ _ Hx).
  by apply (Forall_lookup_1 _ _ _ _ H Hx).
Qed.

Lemma topic_char_range c : topic_char c = true -> 1 <= c < 256.
Proof. unfold topic_char. intros H. lia. Qed.

(** A topic made of a fixed prefix and an identifier. *)
Lemma topic_valid_prefixed (prefix id : list Z) (size : nat) :
  Forall (fun c => topic_char c = true) prefix -> prefix.[0] <> chr "/" -> prefix <> [] -> id <> [] ->
  Forall (fun c => topic_char c = true /\ c <> chr "/") id -> (length prefix + length id < size)%nat ->
  topic_valid (Some (snprintf_s (zeros size) (prefix ++ id))) size = true.
Proof.
  intros Hp H0 Hne Hni Hid Hl. apply Forall_and in Hid as [Hid Hs].
  assert (Forall (fun c => topic_char c = true) (prefix ++ id)) as Hall by by apply Forall_app.
  unfold topic_valid. rewrite c_str_snprintf.
  2: { eapply Forall_impl; [exact Hall|]. apply topic_char_range. }
  2: { unfold zeros. rewrite length_app, length_replicate. lia. }
  destruct prefix as [|p prefix]; [done|]. destruct id as [|d id]; [done|].
  assert (((p :: prefix) ++ d :: id).[(length ((p :: prefix) ++ d :: id) - 1)%nat] <> chr "/") as Hlast.
  { unfold byte_at. rewrite app_nth2 by (rewrite length_app; cbn [length]; lia).
    apply (has_char_chr _ _ _ Hs). rewrite length_app. cbn [length]. lia. }
  replace ((_ =? 0)%nat) with false by (cbn [app length]; lia).
  replace ((size <=? _)%nat) with false by (rewrite length_app in *; lia).
  change (((p :: prefix) ++ d :: id).[0]) with p. cbn [byte_at nth] in H0.
  replace (p =? chr "/") with false by lia. rewrite (proj2 (Z.eqb_neq _ _) Hlast). cbn [orb].
  apply forallb_forall. intros x Hx%list_elem_of_In. rewrite Forall_forall in Hall. by apply Hall.
Qed.

(** The identifiers with which the gateway starts: none, or one of these. *)
Definition device_ok (device_id : option (list Z)) : Prop :=
  match device_id with Some id => cstring id /\ device_id_ok id | None => True end.

Lemma defaults_valid device_id :
  device_ok device_id -> gateway_mqtt_config_validate (Some (gateway_mqtt_config_defaults device_id)) = ESP_OK.
Proof.
  intros H.
  assert (exists id, id <> [] /\ device_id_ok id /\
    mc_base_topic (gateway_mqtt_config_defaults device_id)
    = snprintf_s (zeros MQTT_BASE_TOPIC_MAX) (str "sms-gateway/" ++ id)) as (id & Hne & [Hid Hl] & E).
  { assert (device_id_ok (str "gateway")) as Hg.
    { split; [|cbn; lia]. by apply (bool_decide_unpack _); vm_compute. }
    destruct device_id as [id|]; cbn [gateway_mqtt_config_defaults mc_base_topic]; [|by exists (str "gateway")].
    destruct H as [Hc Hd]. rewrite (cstring_strlen id Hc), (cstring_c_str id Hc).
    destruct (Nat.eqb_spec (length id) 0); [by exists (str "gateway")|]. exists id. split; [|done]. by destruct id. }
  unfold gateway_mqtt_config_validate. rewrite E.
  rewrite topic_valid_prefixed; [reflexivity|..|done|done|].
  - by apply (bool_decide_unpack _); vm_compute.
  - done.
  - done.
  - unfold MQTT_BASE_TOPIC_MAX. change (length (str "sms-gateway/")) with 12%nat. lia.
Qed.

(** A configuration that is valid has a topic. *)
Lemma valid_has_topic c : gateway_mqtt_config_validate (Some c) = ESP_OK -> ((mc_base_topic c).[0] =? 0) = false.
Proof.
  unfold gateway_mqtt_config_validate, topic_valid. intros H. destruct (mc_base_topic c) as [|x l]; [done|].
  cbn [c_str byte_at nth] in *. by destruct (x =? 0).
Qed.

(** ** The record *)

(** A character array of [n] characters whose last is 0. *)
Definition field_ok (n : nat) (field : list Z) : Prop := length field = n /\ terminate field = field.

Record config_sized (c : gateway_mqtt_config_t) : Prop := {
  cs_uri : field_ok MQTT_BROKER_URI_MAX (mc_broker_uri c);
  cs_username : field_ok MQTT_USERNAME_MAX (mc_username c);
  cs_password : field_ok MQTT_PASSWORD_MAX (mc_password c);
  cs_topic : field_ok MQTT_BASE_TOPIC_MAX (mc_base_topic c);
  cs_prefix : field_ok MQTT_DISCOVERY_PREFIX_MAX (mc_discovery_prefix c);
  cs_recipient : field_ok MQTT_DEFAULT_RECIPIENT_MAX (mc_default_recipient c);
  cs_ca : field_ok MQTT_CA_PEM_MAX (mc_ca_pem c);
}.

Lemma config_record_roundtrip c : config_sized c -> record_to_config (config_to_record c) = c.
Proof.
  intros [[L1 T1] [L2 T2] [L3 T3] [L4 T4] [L5 T5] [L6 T6] [L7 T7]]. destruct c as [en uri us pw bt ha dp dr ca].
  cbn [mc_broker_uri mc_username mc_password mc_base_topic mc_discovery_prefix mc_default_recipient mc_ca_pem] in *.
  unfold record_to_config, config_to_record.
  cbn [mc_broker_uri mc_username mc_password mc_base_topic mc_discovery_prefix mc_default_recipient mc_ca_pem
       mc_enabled mc_home_assistant_enabled].
  rewrite (app_assoc (le 4 _) (le 2 _)). rewrite (drop_app_length' (le 4 _ ++ le 2 _)) by done.
  rewrite read_app by done.
  rewrite !read_app by assumption. rewrite read_all by assumption.
  rewrite T1, T2, T3, T4, T5, T6, T7. by destruct en, ha.
Qed.

Lemma config_record_header c :
  config_sized c ->
  length (config_to_record c) = MQTT_RECORD_SIZE /\ record_magic (config_to_record c) = SETTINGS_MAGIC /\
  record_version (config_to_record c) = SETTINGS_VERSION.
Proof.
  intros [[L1 _] [L2 _] [L3 _] [L4 _] [L5 _] [L6 _] [L7 _]]. split_and!.
  - unfold config_to_record. rewrite !length_app, !le_length, L1, L2, L3, L4, L5, L6, L7. reflexivity.
  - unfold record_magic, config_to_record. rewrite take_app_length' by by rewrite le_length.
    apply le_value_le. by compute.
  - unfold record_version, config_to_record. rewrite drop_app_length' by by rewrite le_length.
    rewrite take_app_length' by by rewrite le_length. apply le_value_le. by compute.
Qed.

Section Settings.

Context {N : Type} `{NvsLaws N}.

Implicit Types st : settings N.

(** What holds between the calls: the settings are still the static zeros, or
    the component has started and they are valid. *)
Definition settings_inv st : Prop :=
  if gs_initialized st then gateway_mqtt_config_validate (Some (gs_config st)) = ESP_OK
  else gs_config st = mqtt_config_zero.

Lemma load_config_ok (n : N) config c :
  load_config n config = (ESP_OK, c) -> gateway_mqtt_config_validate (Some c) = ESP_OK \/ c = config.
Proof.
  unfold load_config. destruct (nvs_get_blob n MQTT_KEY MQTT_RECORD_SIZE) as [e|r].
  { intros [= _ ->]. by right. }
  destruct (_ && _); [|done]. intros [E <-]%pair_eq. by left.
Qed.

Lemma init_inv device_id created open handle allocated st :
  device_ok device_id -> settings_inv st ->
  settings_inv (gateway_settings_init device_id created open handle allocated st).1.
Proof.
  intros Hd Hst. unfold gateway_settings_init, settings_inv in *.
  destruct (gs_initialized st) eqn:Ei; cbn [fst]; [by rewrite Ei|].
  destruct created; cbn [negb fst gs_initialized gs_config]; [|done].
  case_bool_decide; cbn [fst gs_initialized gs_config]; [done|].
  destruct allocated; cbn [negb fst gs_initialized gs_config]; [|done].
  destruct (load_config handle (gs_config st)) as [e c] eqn:El. cbn [fst gs_initialized gs_config].
  case_bool_decide as He; cbn [orb]; [by apply defaults_valid|].
  subst e. destruct (_ =? 0) eqn:Et; [by apply defaults_valid|].
  apply load_config_ok in El as [? | ->]; [done|]. rewrite Hst in Et. done.
Qed.

Lemma set_inv config allocated taken st :
  settings_inv st -> settings_inv (gateway_settings_set_mqtt config allocated taken st).1.
Proof.
  intros Hst. unfold gateway_settings_set_mqtt. destruct config as [c|]; [|done].
  destruct (gs_initialized st) eqn:Ei, (gs_mutex st); cbn [negb orb]; try done.
  case_bool_decide as Hv; [done|]. destruct allocated, taken; cbn [negb]; try done.
  destruct (nvs_set_blob _ _ _) as [n e]. destruct (if bool_decide (e = ESP_OK) then _ else _) as [n' e'].
  unfold settings_inv in *. rewrite Ei in Hst. cbn [fst gs_initialized gs_config].
  case_bool_decide; [|done]. done.
Qed.

(** The calls of a run, each with what the platform answers. *)
Inductive settings_call :=
  | CallInit (device_id : option (list Z)) (created : bool) (open : esp_err_t) (handle : N) (allocated : bool)
  | CallSet (config : option gateway_mqtt_config_t) (allocated taken : bool).

Definition settings_run_call (call : settings_call) st : settings N * esp_err_t :=
  match call with
  | CallInit device_id created open handle allocated => gateway_settings_init device_id created open handle allocated st
  | CallSet config allocated taken => gateway_settings_set_mqtt config allocated taken st
  end.

Definition call_device_ok (call : settings_call) : Prop :=
  match call with CallInit device_id _ _ _ _ => device_ok device_id | CallSet _ _ _ => True end.

Definition settings_run (calls : list settings_call) st : settings N :=
  fold_left (fun st call => (settings_run_call call st).1) calls st.

Lemma run_inv calls st : Forall call_device_ok calls -> settings_inv st -> settings_inv (settings_run calls st).
Proof.
  intros Hc. revert st. induction Hc as [|call calls Hcall _ IH]; intros st Hst; [done|].
  cbn [settings_run fold_left]. apply IH. destruct call; [by apply init_inv|by apply set_inv].
Qed.

(** The static variables at power-on. *)
Definition settings_boot (n : N) : settings N := mk_settings n mqtt_config_zero false false.

(** C39. Whatever the flash holds - a corrupt record, one of another version, one
    whose configuration is not valid, or a read error - and whatever was stored,
    refused or failed to be written since, the configuration that
    [gateway_settings_get_mqtt] hands out is a valid one. *)
Theorem settings_always_valid n calls taken c :
  Forall call_device_ok calls ->
  gateway_settings_get_mqtt true taken (settings_run calls (settings_boot n)) = inr c ->
  gateway_mqtt_config_validate (Some c) = ESP_OK.
Proof.
  intros Hc Hg. pose proof (run_inv calls (settings_boot n) Hc eq_refl) as Hi. revert Hi Hg.
  generalize (settings_run calls (settings_boot n)). intros st. unfold settings_inv, gateway_settings_get_mqtt.
  destruct (gs_initialized st), (gs_mutex st), taken; cbn [negb orb]; try done. by intros ? [= <-].
Qed.

(** The call that answers in [E] has changed nothing. *)
#[local] Ltac refused E := injection E as <- <-; split; [done|auto].

(** A configuration that [gateway_settings_set_mqtt] accepts is the one in use
    afterwards, and every later start of the gateway on that flash finds it
    again, field by field; one that it does not accept leaves the one in use,
    and on the flash the old record or the new one. *)
Theorem settings_survive_restart c allocated taken st st' e :
  config_sized c -> gateway_settings_set_mqtt (Some c) allocated taken st = (st', e) ->
  (e = ESP_OK -> gs_config st' = c /\
    forall device_id handle, blob_at handle MQTT_KEY = blob_at (gs_nvs st') MQTT_KEY ->
      exists started, gateway_settings_init device_id true ESP_OK handle true (settings_boot handle) = (started, ESP_OK) /\
        gateway_settings_get_mqtt true true started = inr c) /\
  (e <> ESP_OK -> gs_config st' = gs_config st /\
    (blob_at (gs_nvs st') MQTT_KEY = blob_at (gs_nvs st) MQTT_KEY \/
     blob_at (gs_nvs st') MQTT_KEY = Some (config_to_record c))).
Proof.
  intros Hc E. unfold gateway_settings_set_mqtt in E.
  destruct (gs_initialized st) eqn:Ei, (gs_mutex st) eqn:Em; cbn [negb orb] in E; try refused E.
  destruct (bool_decide (_ <> _)) eqn:Hv.
  { apply bool_decide_eq_true in Hv. refused E. }
  apply bool_decide_eq_false in Hv. apply dec_stable in Hv.
  destruct allocated, taken; cbn [negb] in E; try refused E.
  destruct (nvs_set_blob (gs_nvs st) MQTT_KEY (config_to_record c)) as [n e1] eqn:Es.
  destruct (if bool_decide (e1 = ESP_OK) then nvs_commit n else (n, e1)) as [n' e'] eqn:Ec.
  injection E as <- <-. cbn [gs_config gs_nvs].
  assert (blob_at n' MQTT_KEY = blob_at n MQTT_KEY) as Hn.
  { case_bool_decide; [|by injection Ec as <- <-]. by apply commit_any in Ec as [-> _]. }
  split.
  - intros ->. rewrite bool_decide_eq_true_2 by done. split; [done|]. intros device_id handle Hh.
    assert (blob_at handle MQTT_KEY = Some (config_to_record c)) as Hb.
    { rewrite Hh, Hn. case_bool_decide as He1; [|by injection Ec as _ ->].
      subst e1. by apply (set_blob_ok _ _ _ _ Es). }
    destruct (config_record_header c Hc) as (Hl & Hm & Hver).
    unfold gateway_settings_init, settings_boot, load_config.
    cbn [gs_initialized negb gs_config gs_nvs]. rewrite bool_decide_eq_false_2 by (intros ?; done).
    rewrite get_blob_spec, Hb, Hl, Nat.leb_refl, Hl, Hm, Hver, !Z.eqb_refl, Nat.eqb_refl. cbn [andb].
    rewrite config_record_roundtrip, Hv by done.
    rewrite bool_decide_eq_false_2 by (intros ?; done). rewrite (valid_has_topic c Hv). cbn [orb].
    eexists. by split.
  - intros He. rewrite bool_decide_eq_false_2 by done. split; [done|]. rewrite Hn.
    by apply set_blob_any in Es as ([-> | ->] & _); auto.
Qed.

End Settings.

(** ** Witnesses *)

Definition sample_fields (enabled : bool) : gateway_mqtt_config_t :=
  mk_mqtt_config enabled (snprintf_s (zeros MQTT_BROKER_URI_MAX) (str "mqtts://broker.example:8883"))
    (snprintf_s (zeros MQTT_USERNAME_MAX) (str "gateway")) (snprintf_s (zeros MQTT_PASSWORD_MAX) (str "secret"))
    (snprintf_s (zeros MQTT_BASE_TOPIC_MAX) (str "home/sms")) true
    (snprintf_s (zeros MQTT_DISCOVERY_PREFIX_MAX) (str "homeassistant"))
    (snprintf_s (zeros MQTT_DEFAULT_RECIPIENT_MAX) (str "+491701234567")) (zeros MQTT_CA_PEM_MAX).

(** A start on a flash with a record of half the length. *)
Definition corrupt_flash : mem_nvs := mk_mem {[MQTT_KEY := take 100 (config_to_record (sample_fields true))]} ∅ [].

Definition sample_calls : list settings_call :=
  [CallInit (Some (str "esp32-a1b2c3")) true ESP_OK corrupt_flash true].

Lemma settings_always_valid_witness :
  exists c, gateway_settings_get_mqtt true true (settings_run sample_calls (settings_boot corrupt_flash)) = inr c /\
    gateway_mqtt_config_validate (Some c) = ESP_OK /\ c_str (mc_base_topic c) = str "sms-gateway/esp32-a1b2c3".
Proof.
  exists (gateway_mqtt_config_defaults (Some (str "esp32-a1b2c3"))).
  split; [vm_compute; reflexivity|]. split; [|vm_compute; reflexivity].
  apply (settings_always_valid corrupt_flash sample_calls true).
  - constructor; [|constructor]. by split; [|split]; apply (bool_decide_unpack _); vm_compute.
  - vm_compute. reflexivity.
Defined.

Definition sample_started : settings mem_nvs := settings_run sample_calls (settings_boot corrupt_flash).

Lemma settings_survive_restart_witness :
  exists st', gateway_settings_set_mqtt (Some (sample_fields true)) true true sample_started = (st', ESP_OK) /\
    exists started,
      gateway_settings_init None true ESP_OK (gs_nvs st') true (settings_boot (gs_nvs st')) = (started, ESP_OK) /\
      gateway_settings_get_mqtt true true started = inr (sample_fields true).
Proof.
  destruct (gateway_settings_set_mqtt (Some (sample_fields true)) true true sample_started) as [st' e] eqn:E.
  assert (e = ESP_OK) as -> by (apply (f_equal snd) in E; vm_compute in E; by destruct E).
  exists st'. split; [done|].
  refine (proj2 (proj1 (settings_survive_restart (sample_fields true) true true sample_started st' ESP_OK _ E) eq_refl) None (gs_nvs st') eq_refl).
  constructor; split; vm_compute; reflexivity.
Defined.
