(* ===== verification/ProvisioningPortal.v ===== *)
(** * The setup portal (components/network_service/provisioning_portal.c)

    The form that is submitted on first setup, what the page is told, and the
    DNS responder that leads every name to the portal.  The state is the
    settings, the token and the Wi-Fi of the gateway.  Parsing JSON, receiving
    and the answers of mutexes and flash are arguments. *)

From Stdlib Require Import Ascii String.
From Stdlib Require Import ZifyBool ZifyNat.
From stdpp Require Import base numbers list strings.
From S2P Require Import Prelude.
From S2P Require Import StateMonad.
From S2P Require Import Nvs.
From S2P Require Import GatewaySecurity.
From S2P Require Import RateLimiter.
From S2P Require Import Http.
From S2P Require Import MqttConfig.
From S2P Require Import NetworkService.

Open Scope Z_scope.

Definition PORTAL_BODY_MAX : nat := 1536.
Definition PORTAL_SCAN_MAX : nat := 20.
Definition PORTAL_HOST_MAX : nat := 200.

(** ** The broker's address *)

(** [strstr(s, needle)]: the text from its first occurrence on. *)
Fixpoint strstr (needle s : list Z) : option (list Z) :=
  if bool_decide (take (length needle) s = needle) then Some s
  else match s with [] => None | _ :: s' => strstr needle s' end.

(** [strrchr(s, c)]: what is in front of the last occurrence, and behind it. *)
Fixpoint strrchr (c : Z) (s : list Z) : option (list Z * list Z) :=
  match s with
  | [] => None
  | x :: s' =>
      match strrchr c s' with
      | Some (before, behind) => Some (x :: before, behind)
      | None => if x =? c then Some ([], s') else None
      end
  end.

(** [strcspn] for one character, as the text in front of it. *)
Fixpoint before_char (c : Z) (s : list Z) : list Z :=
  match s with [] => [] | x :: s' => if x =? c then [] else x :: before_char c s' end.

Definition atoi (s : list Z) : Z := match strtol s with Some (v, _) => v | None => 0 end.

(** Host, port and whether it is TLS; the buffer of the host has [host_size]
    bytes. *)
Definition split_broker_uri (uri : list Z) (host_size : nat) : list Z * Z * bool :=
  let tls := gateway_mqtt_uri_is_tls (Some uri) in
  let port := if tls then 8883 else 1883 in
  match strstr (str "://") (c_str uri) with
  | None => ([], port, tls)
  | Some start =>
      let start := drop 3 start in
      match strrchr (chr ":") start with
      | Some (host, behind) => (take (host_size - 1) host, atoi behind, tls)
      | None => (take (host_size - 1) (before_char (chr "/") start), port, tls)
      end
  end.

(** ** The form *)

(** The string of a member and whether it is valid; NULL and a missing member
    are the empty string. *)
Definition json_string (j : json) (name : list Z) (max_len : nat) : list Z * bool :=
  match cJSON_GetObjectItemCaseSensitive j name with
  | None | Some JNull => ([], true)
  | Some (JString s) => if (max_len <? strlen s)%nat then ([], false) else (c_str s, true)
  | Some _ => ([], false)
  end.

(** [isalnum] in the C locale. *)
Definition isalnum (c : Z) : bool :=
  isdigit c || ((chr "a" <=? c) && (c <=? chr "z")) || ((chr "A" <=? c) && (c <=? chr "Z")).

Definition host_char (c : Z) : bool := isalnum c || (c =? chr ".") || (c =? chr "-") || (c =? chr "_").

Definition host_valid (host : list Z) : bool :=
  if (length host =? 0)%nat || (PORTAL_HOST_MAX <? length host)%nat then false else forallb host_char host.

(** [valueint] of cJSON: towards zero, and within the range of [int]. *)
Definition valueint (v : double) : Z :=
  if dleb (double_of_Z 2147483647) v then 2147483647
  else if dleb v (double_of_Z (-2147483648)) then -2147483648
  else double_trunc v.

#[export] Instance eta_mqtt_config : Eta gateway_mqtt_config_t := fun c =>
  mk_mqtt_config (mc_enabled c) (mc_broker_uri c) (mc_username c) (mc_password c) (mc_base_topic c)
    (mc_home_assistant_enabled c) (mc_discovery_prefix c) (mc_default_recipient c) (mc_ca_pem c).

(** [snprintf("%s://%s:%d")] *)
Definition broker_uri_text (tls : bool) (host : list Z) (port : Z) : list Z :=
  (if tls then str "mqtts" else str "mqtt") ++ str "://" ++ host ++ str ":" ++ decimal port.

(** The configuration with the broker of the form. *)
Definition set_broker (tls : bool) (host username password : list Z) (port : Z) (c : gateway_mqtt_config_t)
  : gateway_mqtt_config_t :=
  let '(previous_host, _, _) := split_broker_uri (mc_broker_uri c) (PORTAL_HOST_MAX + 1) in
  let same_broker := mc_enabled c && bool_decide (previous_host = host) in
  let c := c <| mc_broker_uri := snprintf_s (mc_broker_uri c) (broker_uri_text tls host port) |>
             <| mc_username := snprintf_s (mc_username c) username |> in
  let c := c <| mc_password := if bool_decide (password <> []) then snprintf_s (mc_password c) password
                               else if negb same_broker then set_string (mc_password c) [] else mc_password c |> in
  let c := if negb tls then c <| mc_ca_pem := set_string (mc_ca_pem c) [] |> else c in
  c <| mc_enabled := true |>.

(** The error message, and the configuration. *)
Definition apply_mqtt_form (j : json) (c : gateway_mqtt_config_t) : option (list Z) * gateway_mqtt_config_t :=
  let '(host, valid1) := json_string j (str "mqtt_host") PORTAL_HOST_MAX in
  let '(username, valid2) := json_string j (str "mqtt_username") (MQTT_USERNAME_MAX - 1) in
  let '(password, valid3) := json_string j (str "mqtt_password") (MQTT_PASSWORD_MAX - 1) in
  let '(recipient, valid4) := json_string j (str "default_recipient") (MQTT_DEFAULT_RECIPIENT_MAX - 1) in
  let port_item := cJSON_GetObjectItemCaseSensitive j (str "mqtt_port") in
  let tls_item := cJSON_GetObjectItemCaseSensitive j (str "mqtt_tls") in
  let ha_item := cJSON_GetObjectItemCaseSensitive j (str "home_assistant") in
  if negb (valid1 && valid2 && valid3 && valid4) then (Some (str "MQTT field too long"), c)
  else
    let c := c <| mc_default_recipient := snprintf_s (mc_default_recipient c) recipient |> in
    let c := if bool_decide (ha_item <> None) then c <| mc_home_assistant_enabled := cJSON_IsTrue ha_item |> else c in
    if bool_decide (host = []) then (None, c <| mc_enabled := false |>)
    else if negb (host_valid host) then
      (Some (str "MQTT broker host may only contain letters, digits, '.', '-' and '_'"), c)
    else
      let tls := cJSON_IsTrue tls_item in
      let port := match port_item with Some (JNumber v) => valueint v | _ => if tls then 8883 else 1883 end in
      if (port <? 1) || (65535 <? port) then (Some (str "MQTT port must be 1-65535"), c)
      else (None, set_broker tls host username password port c).

(** ** DNS *)

Definition DNS_PACKET_SIZE : nat := 512.
Definition dns_record : list Z := [0xc0; 0x0c; 0; 1; 0; 1; 0; 0; 0; 30; 0; 4; 192; 168; 4; 1].

(** Walks the labels of the question: [packet] is the whole array, of which
    [len] bytes were received.  Reading outside of the array is [None]. *)
Fixpoint question_walk (fuel : nat) (packet : list Z) (len question_end : nat) : option nat :=
  match fuel with
  | O => None
  | S fuel =>
      if (question_end <? len)%nat then
        label ← packet !! question_end;
        if label =? 0 then Some question_end
        else question_walk fuel packet len (question_end + Z.to_nat label + 1)
      else Some question_end
  end.

(** [memcpy] into the array at an index; [None] outside of it. *)
Definition write_at (packet : list Z) (at_ : nat) (data : list Z) : option (list Z) :=
  if (at_ + length data <=? length packet)%nat
  then Some (take at_ packet ++ data ++ drop (at_ + length data) packet) else None.

(** The reply to a packet; [Some None]: none is sent.  [None]: an access outside
    of the array. *)
Definition dns_reply (packet : list Z) (len : nat) : option (option (list Z)) :=
  if (len <? 13)%nat then Some None
  else
    question_end ← question_walk (S len) packet len 12;
    let question_end := (question_end + 5)%nat in
    if (len <? question_end)%nat || (length packet <? question_end + 16)%nat then Some None
    else
      packet ← write_at packet 2 [0x81; 0x80];
      packet ← write_at packet 6 [0; 1];
      packet ← write_at packet 8 [0; 0; 0; 0];
      packet ← write_at packet question_end dns_record;
      Some (Some (take (question_end + length dns_record) packet)).

(** ** The pages *)

(** What is sent: a page, a reply with its status, the server's own error, or
    nothing. *)
Inductive portal_reply :=
  | PReply (status : Z) (value : json)
  | PServerError
  | PFail.

Definition send_error (status : Z) (message : list Z) : portal_reply :=
  PReply status (JObject [(str "error", JString message)]).

Section Portal.

Context {N : Type} `{Nvs N} {W : Type} `{NvsStrings W}.

Record portal := mk_portal {
  po_settings : settings N;
  po_security : security N;
  po_network : network W;
}.

#[global] Instance eta_portal : Eta portal := fun p => mk_portal (po_settings p) (po_security p) (po_network p).

(** [se_received]: what the calls of [httpd_req_recv] put together, if none
    failed; [se_parse]: cJSON; the rest is what heap, mutexes, flash and random
    numbers answer. *)
Record setup_environment := mk_setup_env {
  se_parse : list Z -> option json;
  se_recv : nat -> nat -> http_recv;
  se_allocated : bool;
  se_taken : bool;
  se_set_allocated : bool;
  se_set_taken : bool;
  se_open : esp_err_t;
  se_random : list Z;
  se_hash : list Z -> option (list Z);
  se_get_config : esp_err_t;
  se_time : Z;
}.

Variable env : setup_environment.

(** The snapshot, or zeros. *)
Definition net_snapshot (p : portal) : network_service_snapshot_t :=
  match network_service_get_snapshot true (se_time env) (po_network p) with inr snap => snap | inl _ => snapshot_zero end.

Fixpoint receive_loop (fuel k remaining : nat) (body : list Z) : option (option (list Z)) :=
  if (remaining =? 0)%nat then Some (Some body)
  else match fuel with
  | O => None
  | S fuel =>
      match se_recv env k remaining with
      | Received (c :: data) => receive_loop fuel (S k) (remaining - length (c :: data)) (body ++ c :: data)
      | _ => Some None
      end
  end.

Definition info_json (reset_reason last_crash : list Z) (safe_mode : Z) (p : portal) : json :=
  let net := net_snapshot p in
  let text s := JString (c_str s) in
  JObject
    [(str "device_id", text (ns_device_id (nw_snapshot (po_network p)))); (str "ssid", text (ns_sta_ssid net));
     (str "has_token", JBool (gateway_security_has_token (po_security p)));
     (str "reset_reason", text reset_reason); (str "last_crash", text last_crash); (str "safe_mode", JInt safe_mode);
     (str "mqtt", JObject
        match gateway_settings_get_mqtt true (se_taken env) (po_settings p) with
        | inr mqtt =>
            let '(host, port, tls) := split_broker_uri (mc_broker_uri mqtt) (PORTAL_HOST_MAX + 1) in
            [(str "host", JString (if mc_enabled mqtt then host else [])); (str "port", JInt port); (str "tls", JBool tls);
             (str "username", text (mc_username mqtt));
             (str "has_password", JBool (negb ((mc_password mqtt).[0] =? 0)));
             (str "home_assistant", JBool (mc_home_assistant_enabled mqtt));
             (str "default_recipient", text (mc_default_recipient mqtt)); (str "base_topic", text (mc_base_topic mqtt))]
        | inl _ => []
        end)].

Definition info_handler (reset_reason last_crash : list Z) (safe_mode : Z) (p : portal) : portal_reply :=
  if negb (se_allocated env) then PServerError else PReply 200 (info_json reset_reason last_crash safe_mode p).

(** An access point that was found: SSID, signal, and whether it is open. *)
Definition wifi_ap := (list Z * Z * bool)%type.

(** The loop: [seen] are the records in front. *)
Fixpoint scan_list (seen : list (list Z)) (records : list wifi_ap) : list json :=
  match records with
  | [] => []
  | (ssid, rssi, is_open) :: records =>
      let rest := scan_list (seen ++ [ssid]) records in
      if bool_decide (c_str ssid = []) then rest
      else if existsb (streq ssid) seen then rest
      else JObject [(str "ssid", JString (c_str ssid)); (str "rssi", JInt rssi); (str "secure", JBool (negb is_open))] :: rest
  end.

(** The errors of [esp_wifi_scan_start] and [esp_wifi_scan_get_ap_records]. *)
Definition scan_handler (scan_start get_records : esp_err_t) (records : list wifi_ap) : portal_reply :=
  if bool_decide (scan_start <> ESP_OK) then send_error 503 (str "Wi-Fi scan failed")
  else if negb (se_allocated env) then PServerError
  else PReply 200 (JArray (if bool_decide (get_records = ESP_OK) then scan_list [] (take PORTAL_SCAN_MAX records) else [])).

Definition setup_state_name (state : network_setup_state_t) : list Z :=
  match state with
  | NETWORK_SETUP_IDLE => str "idle"
  | NETWORK_SETUP_CONNECTING => str "connecting"
  | NETWORK_SETUP_CONNECTED => str "connected"
  | NETWORK_SETUP_FAILED => str "failed"
  end.

Definition status_handler (p : portal) : portal_reply :=
  let net := net_snapshot p in
  PReply 200 (JObject [(str "state", JString (setup_state_name (ns_setup_state net))); (str "ssid", JString (ns_sta_ssid net));
    (str "ip", JString (ns_ipv4 net)); (str "reason", JInt (ns_last_disconnect_reason net))]).

(** ** The setup *)

Definition ssid_error : list Z := str "Enter the Wi-Fi network name (1-32 bytes).".
Definition password_error : list Z := str "Wi-Fi passwords have at least 8 characters.".
Definition token_error : list Z := str "The API token needs 32-128 characters (or leave it empty).".
Definition storage_error : list Z := str "Settings storage is not ready; try again in a few seconds.".
Definition mqtt_error : list Z := str "Invalid MQTT settings (the default recipient must look like +491701234567).".

(** The strings of the form, and whether they are valid. *)
Definition form_fields (j : option json) : list Z * list Z * list Z * bool :=
  match j with
  | None => ([], [], [], false)
  | Some j =>
      let '(ssid, valid1) := json_string j (str "ssid") 32 in
      let '(password, valid2) := if valid1 then json_string j (str "password") 64 else ([], false) in
      let '(token, valid3) := if valid1 && valid2 then json_string j (str "token") 128 else ([], false) in
      (ssid, password, token, valid1 && valid2 && valid3)
  end.

(** The checks, in their order: the error, or the new settings. *)
Definition check_form (j : option json) (p : portal) : list Z + gateway_mqtt_config_t :=
  let '(ssid, password, token, valid) := form_fields j in
  if negb valid || bool_decide (ssid = []) then inl ssid_error
  else if bool_decide (password <> []) && (length password <? 8)%nat then inl password_error
  else if bool_decide (token <> []) && (length token <? 32)%nat then inl token_error
  else
    match gateway_settings_get_mqtt true (se_taken env) (po_settings p) with
    | inl _ => inl storage_error
    | inr mqtt =>
        let '(error, mqtt) := apply_mqtt_form (default JNull j) mqtt in
        match error with
        | Some error => inl error
        | None => if bool_decide (gateway_mqtt_config_validate (Some mqtt) <> ESP_OK) then inl mqtt_error else inr mqtt
        end
    end.

(** The password to use: the saved one for the same network, if none is given. *)
Definition password_to_use (ssid password : list Z) (p : portal) : list Z :=
  if bool_decide (password = []) && bool_decide (ssid = c_str (ns_sta_ssid (net_snapshot p))) then
    if bool_decide (se_get_config env = ESP_OK) then c_str (take 64 (nw_saved (po_network p)).2) else []
  else password.

(** A new token: the error, and what is generated. *)
Definition save_token (token : list Z) (p : portal) : portal * option (list Z) * list Z :=
  if bool_decide (token <> []) then
    let '(sec, err) := gateway_security_set_token (se_hash env) (Some token) (se_open env) (po_security p) in
    (p <| po_security := sec |>, if bool_decide (err <> ESP_OK) then Some (str "Could not save the API token.") else None, [])
  else if negb (gateway_security_has_token (po_security p)) then
    let '(sec, err, out) :=
      gateway_security_generate_token (se_hash env) (Some (zeros (GATEWAY_API_TOKEN_HEX_LEN + 1))) (se_open env) (se_random env)
        (po_security p) in
    (p <| po_security := sec |>, if bool_decide (err <> ESP_OK) then Some (str "Could not generate an API token.") else None,
     c_str (default [] out))
  else (p, None, []).

(** Everything is saved, in this order, up to the first failure. *)
Definition save_form (ssid password token : list Z) (mqtt : gateway_mqtt_config_t) (p : portal)
  : portal * option (list Z) * list Z :=
  let '(settings, err) := gateway_settings_set_mqtt (Some mqtt) (se_set_allocated env) (se_set_taken env) (po_settings p) in
  let p := p <| po_settings := settings |> in
  if bool_decide (err <> ESP_OK) then (p, Some (str "Could not save MQTT settings."), [])
  else
    let '(p, error, generated) := save_token token p in
    match error with
    | Some error => (p, Some error, [])
    | None =>
        let '(net, err) := network_service_submit_credentials (Some ssid) (Some password) (po_network p) in
        (p <| po_network := net |>,
         if bool_decide (err <> ESP_OK) then Some (str "Could not apply the Wi-Fi settings.") else None, generated)
    end.

Definition setup_handler (content_len : nat) (p : portal) : portal * portal_reply :=
  if (content_len =? 0)%nat || (PORTAL_BODY_MAX <=? content_len)%nat then (p, send_error 400 (str "Invalid setup request"))
  else if negb (se_allocated env) then (p, PServerError)
  else
    match receive_loop content_len 0 content_len [] with
    | Some (Some body) =>
        let j := se_parse env body in
        let '(ssid, password, token, _) := form_fields j in
        match check_form j p with
        | inl error => (p, send_error 400 error)
        | inr mqtt =>
            let '(p, error, generated) := save_form ssid (password_to_use ssid password p) token mqtt p in
            match error with
            | Some error => (p, send_error 400 error)
            | None =>
                (p, PReply 200 (JObject ((str "saved", JBool true) ::
                  (if bool_decide (generated <> []) then [(str "token", JString generated)] else []))))
            end
        end
    | _ => (p, PFail)
    end.

End Portal.

#[global] Arguments portal N W : clear implicits.
