(* ===== verification/PortalFacts.v ===== *)
(** * The setup portal: the DNS responder stays in its packet, the form and the
      page agree, and what a setup saves *)

From Stdlib Require Import Ascii String.
From Stdlib Require Import ZifyBool ZifyNat.
From stdpp Require Import base numbers list strings gmap.
From S2P Require Import Prelude.
From S2P Require Import StateMonad.
From S2P Require Import Nvs.
From S2P Require Import GatewaySecurity.
From S2P Require Import NetworkService.
From S2P Require Import GatewaySecurityFacts.
From S2P Require Import RateLimiter.
From S2P Require Import Http.
From S2P Require Import MqttConfig.
From S2P Require Import MqttConfigFacts.
From S2P Require Import ProvisioningPortal.

Open Scope Z_scope.

(** ** DNS *)

Lemma question_walk_ends fuel packet len at_ :
  bytes packet -> (len <= length packet)%nat -> (len - at_ < fuel)%nat ->
  exists q, question_walk fuel packet len at_ = Some q /\ (at_ <= q)%nat.
Proof.
  intros Hb Hl. revert at_. induction fuel as [|fuel IH]; intros at_ Hf; [lia|]. cbn [question_walk].
  destruct (Nat.ltb_spec at_ len); [|by exists at_].
  destruct (lookup_lt_is_Some_2 packet at_ ltac:(lia)) as [label Hlabel]. rewrite Hlabel. cbn [mbind option_bind].
  destruct (Z.eqb_spec label 0) as [|Hne]; [by exists at_|].
  assert (is_byte label) as Hlb by exact (Forall_lookup_1 _ _ _ _ Hb Hlabel).
  destruct (IH (at_ + Z.to_nat label + 1)%nat) as (q & Hq & Hge); [lia|]. exists q. split; [done|lia].
Qed.

Lemma write_at_spec packet at_ data :
  (at_ + length data <= length packet)%nat ->
  exists packet', write_at packet at_ data = Some packet' /\ length packet' = length packet /\
    (forall k, (k <= at_)%nat -> take k packet' = take k packet) /\
    (forall k, (at_ + length data <= k)%nat -> drop k packet' = drop k packet) /\
    take (length data) (drop at_ packet') = data.
Proof.
  intros Hl. unfold write_at. rewrite (proj2 (Nat.leb_le _ _) Hl). eexists. split; [done|].
  assert (length (take at_ packet) = at_) as Ht by (rewrite length_take; lia).
  split_and!.
  - rewrite !length_app, length_drop, Ht. lia.
  - intros k Hk. rewrite take_app_le by lia. rewrite take_take. f_equal. lia.
  - intros k Hk. rewrite drop_app_ge by lia. rewrite drop_app_ge by lia. rewrite drop_drop. f_equal. lia.
  - rewrite drop_app_length' by done. by rewrite take_app_length.
Qed.

Lemma slice_take {A} (l l' : list A) i j k : (i + j <= k)%nat -> take k l = take k l' -> take j (drop i l) = take j (drop i l').
Proof.
  intros Hk E. assert (forall m : list A, take j (drop i m) = take j (drop i (take k m))) as Hm.
  { intros m. rewrite skipn_firstn_comm, take_take. f_equal. lia. }
  by rewrite (Hm l), (Hm l'), E.
Qed.

Lemma slice_drop {A} (l l' : list A) i j k : (k <= i)%nat -> drop k l = drop k l' -> take j (drop i l) = take j (drop i l').
Proof.
  intros Hk E. assert (forall m : list A, drop i m = drop (i - k) (drop k m)) as Hm by (intros m; rewrite drop_drop; f_equal; lia).
  by rewrite (Hm l), (Hm l'), E.
Qed.

Lemma take_10_drop_2 {A} (l : list A) :
  take 10 (drop 2 l) = take 2 (drop 2 l) ++ take 2 (drop 4 l) ++ take 2 (drop 6 l) ++ take 4 (drop 8 l).
Proof. do 12 (destruct l as [|? l]; [reflexivity|]). reflexivity. Qed.

(** C26. Whatever packet comes, of up to 512 bytes, the DNS responder looks only
    at bytes of its array and writes only there, and it ends; a reply is the
    query's number, a header for one answer, the query's question, which was
    received completely, and the record with the portal's address. *)
Theorem dns_in_bounds packet len :
  bytes packet -> length packet = DNS_PACKET_SIZE -> (len <= DNS_PACKET_SIZE)%nat ->
  exists r, dns_reply packet len = Some r /\
    forall reply, r = Some reply ->
      exists q, (17 <= q <= len)%nat /\ length reply = (q + 16)%nat /\ (length reply <= DNS_PACKET_SIZE)%nat /\
        take 2 reply = take 2 packet /\ take 10 (drop 2 reply) = [0x81; 0x80] ++ take 2 (drop 4 packet) ++ [0; 1; 0; 0; 0; 0] /\
        take (q - 12) (drop 12 reply) = take (q - 12) (drop 12 packet) /\ drop q reply = dns_record.
Proof.
  intros Hb Hp Hl. unfold dns_reply. destruct (Nat.ltb_spec len 13); [by exists None|].
  change DNS_PACKET_SIZE with 512%nat in *.
  destruct (question_walk_ends (S len) packet len 12 Hb ltac:(lia) ltac:(lia)) as (q0 & -> & Hq0). cbn [mbind option_bind].
  set (q := (q0 + 5)%nat). destruct ((len <? q)%nat || (length packet <? q + 16)%nat) eqn:E; [by exists None|].
  destruct (write_at_spec packet 2 [0x81; 0x80] ltac:(cbn; lia)) as (p1 & -> & L1 & T1 & D1 & S1). cbn [mbind option_bind].
  destruct (write_at_spec p1 6 [0; 1] ltac:(cbn; lia)) as (p2 & -> & L2 & T2 & D2 & S2). cbn [mbind option_bind].
  destruct (write_at_spec p2 8 [0; 0; 0; 0] ltac:(cbn; lia)) as (p3 & -> & L3 & T3 & D3 & S3). cbn [mbind option_bind].
  destruct (write_at_spec p3 q dns_record ltac:(cbn; lia)) as (p4 & -> & L4 & T4 & D4 & S4). cbn [mbind option_bind].
  cbn [length] in D1, D2, D3, S1, S2, S3. change (length dns_record) with 16%nat in *.
  eexists. split; [done|]. intros reply [= <-]. exists q.
  assert (forall i j, (i + j <= q + 16)%nat -> take j (drop i (take (q + 16) p4)) = take j (drop i p4)) as Hs.
  { intros i j Hij. apply (slice_take _ _ i j (q + 16)); [done|]. by rewrite take_take, Nat.min_id. }
  split_and!.
  - lia.
  - lia.
  - rewrite length_take. lia.
  - rewrite length_take. lia.
  - rewrite take_take, Nat.min_l, T4, T3, T2, T1 by lia. done.
  - rewrite Hs by lia. rewrite (slice_take p4 p3 2 10 q ltac:(lia) (T4 q ltac:(lia))), take_10_drop_2.
    rewrite (slice_take p3 p2 2 2 8 ltac:(lia) (T3 8%nat ltac:(lia))), (slice_take p2 p1 2 2 6 ltac:(lia) (T2 6%nat ltac:(lia))), S1.
    rewrite (slice_take p3 p2 4 2 8 ltac:(lia) (T3 8%nat ltac:(lia))), (slice_take p2 p1 4 2 6 ltac:(lia) (T2 6%nat ltac:(lia))).
    rewrite (slice_drop p1 packet 4 2 4 ltac:(lia) (D1 4%nat ltac:(lia))).
    rewrite (slice_take p3 p2 6 2 8 ltac:(lia) (T3 8%nat ltac:(lia))), S2, S3. done.
  - rewrite Hs by lia. rewrite (slice_take p4 p3 12 (q - 12) q ltac:(lia) (T4 q ltac:(lia))).
    rewrite (slice_drop p3 p2 12 _ 12 ltac:(lia) (D3 12%nat ltac:(lia))), (slice_drop p2 p1 12 _ 8 ltac:(lia) (D2 8%nat ltac:(lia))).
    by rewrite (slice_drop p1 packet 12 _ 4 ltac:(lia) (D1 4%nat ltac:(lia))).
  - rewrite skipn_firstn_comm. replace (q + 16 - q)%nat with 16%nat by lia. exact S4.
Qed.

(** A query for the name [ab], of 20 bytes. *)
Definition sample_query : list Z := [0x12; 0x34; 1; 0; 0; 1; 0; 0; 0; 0; 0; 0; 2; 97; 98; 0; 0; 1; 0; 1] ++ repeat 0 492.

Lemma dns_in_bounds_witness :
  exists r, dns_reply sample_query 20 = Some r /\
    forall reply, r = Some reply ->
      exists q, (17 <= q <= 20)%nat /\ length reply = (q + 16)%nat /\ (length reply <= DNS_PACKET_SIZE)%nat /\
        take 2 reply = take 2 sample_query /\
        take 10 (drop 2 reply) = [0x81; 0x80] ++ take 2 (drop 4 sample_query) ++ [0; 1; 0; 0; 0; 0] /\
        take (q - 12) (drop 12 reply) = take (q - 12) (drop 12 sample_query) /\ drop q reply = dns_record.
Proof.
  refine (dns_in_bounds sample_query 20 _ _ _).
  - apply (bool_decide_unpack _); vm_compute; exact I.
  - vm_compute; reflexivity.
  - apply (bool_decide_unpack _); vm_compute; exact I.
Defined.

Example sample_query_answered :
  dns_reply sample_query 20 =
    Some (Some ([0x12; 0x34; 0x81; 0x80; 0; 1; 0; 1; 0; 0; 0; 0; 2; 97; 98; 0; 0; 1; 0; 1] ++ dns_record)).
Proof. vm_compute. reflexivity. Qed.

(** ** The form *)

Lemma decimal_short n : (length (decimal n) <= 20)%nat.
Proof.
  assert (forall fuel n acc, (length (decimal_loop fuel n acc) <= fuel + length acc)%nat) as H.
  { intros fuel. induction fuel as [|fuel IH]; intros m acc; cbn [decimal_loop]; [lia|].
    destruct (m <? 10); [cbn; lia|]. specialize (IH (m / 10) ((48 + m mod 10) :: acc)). cbn [length] in IH. lia. }
  apply (H 20%nat n []).
Qed.

(** A string read from the form fits and is the string of the field. *)
Lemma c_str_snprintf_c field s : (length (c_str s) < length field)%nat -> c_str (snprintf_s field (c_str s)) = c_str s.
Proof.
  intros Hl. unfold snprintf_s, set_string. rewrite c_str_idem, take_ge by lia.
  generalize (drop (length (c_str s) + 1) field). clear Hl. intros t.
  induction s as [|c s IH]; cbn [c_str app]; [done|]. destruct (Z.eqb_spec c 0) as [|Hc]; [done|].
  cbn [app c_str]. rewrite (proj2 (Z.eqb_neq c 0) Hc). f_equal. exact IH.
Qed.

Lemma strrchr_app c s t : c ∉ t -> strrchr c (s ++ c :: t) = Some (s, t).
Proof.
  intros Ht. induction s as [|x s IH]; cbn [app strrchr].
  - assert (strrchr c t = None) as ->; [|by rewrite Z.eqb_refl].
    induction t as [|y t IHt]; [done|]. cbn [strrchr]. rewrite IHt by set_solver.
    destruct (Z.eqb_spec y c); [set_solver|done].
  - by rewrite IH.
Qed.

Lemma host_valid_cstring host : host_valid host = true -> cstring host /\ (0 < length host <= PORTAL_HOST_MAX)%nat.
Proof.
  unfold host_valid. intros H. destruct (Nat.eqb_spec (length host) 0); [done|].
  destruct (Nat.ltb_spec PORTAL_HOST_MAX (length host)); [done|]. cbn [orb] in H. split; [|lia].
  unfold cstring. apply list.Forall_forall. intros c Hc.
  apply list_elem_of_In in Hc. rewrite forallb_forall in H. specialize (H c Hc).
  unfold host_char, isalnum, isdigit in H.
  change (chr "a") with 97 in H. change (chr "z") with 122 in H. change (chr "A") with 65 in H. change (chr "Z") with 90 in H.
  change (chr ".") with 46 in H. change (chr "-") with 45 in H. change (chr "_") with 95 in H. lia.
Qed.

Lemma broker_uri_cstring tls host port :
  host_valid host = true -> cstring (broker_uri_text tls host port) /\ (length (broker_uri_text tls host port) < 256)%nat.
Proof.
  intros Hv. destruct (host_valid_cstring host Hv) as [Hc Hl]. pose proof (decimal_short port). split.
  - unfold broker_uri_text. unfold cstring. repeat apply Forall_app_2; try exact Hc; try apply decimal_cstring;
      try destruct tls; apply (bool_decide_unpack _); vm_compute; exact I.
  - unfold broker_uri_text. rewrite !length_app. change PORTAL_HOST_MAX with 200%nat in Hl.
    destruct tls; cbn [length]; change (length (str "://")) with 3%nat; change (length (str ":")) with 1%nat;
      [change (length (str "mqtts")) with 5%nat|change (length (str "mqtt")) with 4%nat]; lia.
Qed.

(** What is printed is read back as host, port and kind. *)
Lemma split_broker_text tls host port field :
  host_valid host = true -> 1 <= port <= 65535 -> (256 <= length field)%nat ->
  split_broker_uri (snprintf_s field (broker_uri_text tls host port)) (PORTAL_HOST_MAX + 1) = (host, port, tls).
Proof.
  intros Hv Hp Hf. destruct (broker_uri_cstring tls host port Hv) as [Hc Hl].
  destruct (host_valid_cstring host Hv) as [Hch Hlh].
  unfold split_broker_uri, gateway_mqtt_uri_is_tls, has_scheme. rewrite c_str_snprintf by (done || lia).
  assert (strstr (str "://") (broker_uri_text tls host port) = Some (str "://" ++ host ++ str ":" ++ decimal port)) as ->
    by (destruct tls; reflexivity).
  assert (bool_decide (take (length (str "mqtts://")) (broker_uri_text tls host port) = str "mqtts://") = tls) as ->.
  { destruct tls; [reflexivity|]. apply bool_decide_eq_false_2. by intros [=]. }
  change (drop 3 (str "://" ++ host ++ str ":" ++ decimal port)) with (host ++ chr ":" :: decimal port).
  rewrite strrchr_app by (by apply decimal_not_in).
  rewrite take_ge by lia. unfold atoi. rewrite <- (app_nil_r (decimal port)), strtol_decimal by (done || lia). done.
Qed.

Lemma c_str_cleared field : c_str (set_string field []) = [].
Proof. done. Qed.

(** What [set_broker] leaves. *)
Lemma set_broker_spec tls host username password port c :
  host_valid host = true -> 1 <= port <= 65535 ->
  length (mc_broker_uri c) = MQTT_BROKER_URI_MAX -> length (mc_password c) = MQTT_PASSWORD_MAX ->
  c_str password = password -> (length password < MQTT_PASSWORD_MAX)%nat ->
  let c' := set_broker tls host username password port c in
  mc_enabled c' = true /\
  split_broker_uri (mc_broker_uri c') (PORTAL_HOST_MAX + 1) = (host, port, tls) /\
  c_str (mc_password c') =
    (if bool_decide (password <> []) then password
     else if mc_enabled c && bool_decide ((split_broker_uri (mc_broker_uri c) (PORTAL_HOST_MAX + 1)).1.1 = host)
     then c_str (mc_password c) else []) /\
  c_str (mc_ca_pem c') = (if tls then c_str (mc_ca_pem c) else []).
Proof.
  intros Hv Hp Lu Lp Hpw Hl. unfold set_broker.
  destruct (split_broker_uri (mc_broker_uri c) _) as [[previous pport] ptls]. cbn [fst].
  set (same := mc_enabled c && bool_decide (previous = host)). cbv zeta.
  assert (forall b : bool,
    c_str (if bool_decide (password <> []) then snprintf_s (mc_password c) password
           else if negb b then set_string (mc_password c) [] else mc_password c) =
    (if bool_decide (password <> []) then password else if b then c_str (mc_password c) else [])) as Hpass.
  { intros b. case_bool_decide; [rewrite <- Hpw at 1; rewrite c_str_snprintf_c; [done|rewrite Hpw; lia]|by destruct b]. }
  destruct tls; (split_and!; [done| |apply Hpass|done];
    apply split_broker_text; [done..|]; by rewrite Lu).
Qed.

Lemma json_string_fits j name n s :
  json_string j name n = (s, true) -> c_str s = s /\ (length s <= n)%nat.
Proof.
  unfold json_string. intros H. repeat case_match; simplify_eq; (split; [try done|cbn; try lia]).
  - apply c_str_idem.
  - unfold strlen in *. lia.
Qed.


(** A form that moves to a broker without TLS, sent without a password. *)
Definition sample_form : json :=
  JObject [(str "mqtt_host", JString (str "mqtt.example")); (str "mqtt_port", JInt 1884); (str "mqtt_tls", JBool false);
    (str "mqtt_password", JNull); (str "ssid", JString (str "home"))].


(** ** The setup portal: what a setup that is answered with 200 has saved *)

Section Setup.

Context {N : Type} `{NvsLaws N} {W : Type} `{NvsStrings W}.

Variable env : setup_environment.

Hypothesis hash_bytes : forall data out, se_hash env data = Some out -> bytes out.

Implicit Types p : portal N W.

(** The loop ends: every turn that goes on has received something. *)
Lemma receive_loop_ends fuel k remaining body :
  (remaining <= fuel)%nat -> exists r, receive_loop env fuel k remaining body = Some r.
Proof.
  revert k remaining body. induction fuel as [|fuel IH]; intros k remaining body Hf; cbn [receive_loop];
    destruct (Nat.eqb_spec remaining 0); try by eexists.
  - lia.
  - destruct (se_recv env k remaining) as [[|c data]| |]; try by eexists. apply IH. cbn [length]. lia.
Qed.

(** ** The parts *)

Lemma set_mqtt_stored c allocated taken (st st' : settings N) :
  gateway_settings_set_mqtt (Some c) allocated taken st = (st', ESP_OK) ->
  gateway_mqtt_config_validate (Some c) = ESP_OK /\ gs_config st' = c /\
  blob_at (gs_nvs st') MQTT_KEY = Some (config_to_record c).
Proof.
  intros E. unfold gateway_settings_set_mqtt in E.
  destruct (gs_initialized st), (gs_mutex st); cbn [negb orb] in E; try done.
  destruct (bool_decide (_ <> _)) eqn:Hv.
  { apply bool_decide_eq_true in Hv. by injection E as _ ?. }
  apply bool_decide_eq_false in Hv. apply dec_stable in Hv. destruct allocated, taken; cbn [negb] in E; try done.
  destruct (nvs_set_blob (gs_nvs st) MQTT_KEY (config_to_record c)) as [n e1] eqn:Es.
  destruct (if bool_decide (e1 = ESP_OK) then nvs_commit n else (n, e1)) as [n' e'] eqn:Ec.
  injection E as <- ->. cbn [gs_config gs_nvs]. rewrite bool_decide_eq_true_2 by done. split; [done|]. split; [done|].
  case_bool_decide as He1; [|by injection Ec as _ ->]. subst e1. apply commit_any in Ec as [-> _].
  by apply (set_blob_ok _ _ _ _ Es).
Qed.

Lemma submit_queued ssid password (net net' : network W) :
  network_service_submit_credentials (Some ssid) (Some password) net = (net', ESP_OK) ->
  (1 <= strlen ssid <= 32)%nat /\ (strlen password = 0 \/ 8 <= strlen password <= 64)%nat /\
  exists q, nw_queue net = Some q /\
    nw_queue net' = Some (q ++ [NET_CMD_SETUP_SUBMITTED (c_str ssid) (c_str password)]).
Proof.
  unfold network_service_submit_credentials, mbind, state_bind, gets, mret, state_ret.
  destruct (negb (ns_initialized (nw_snapshot net))); [by intros [=]|]. cbv zeta.
  destruct ((strlen ssid =? 0)%nat || _ || _ || _) eqn:E; [by intros [=]|].
  unfold post. destruct (nw_queue net) as [q|] eqn:Eq; [|by intros [=]].
  destruct (length q <? NET_QUEUE_DEPTH)%nat; [|by intros [=]]. intros [= <-].
  split; [lia|]. split; [lia|]. by exists q.
Qed.

(** What [save_token] does when it reports no error: the token of the form, or
    the generated one, is admitted; otherwise nothing has changed. *)
Definition token_saved (token generated : list Z) (st st' : security N) : Prop :=
  let admits token := gateway_security_validate_bearer (se_hash env) (Some token) st' = true in
  (token <> [] -> admits token /\ generated = []) /\
  (token = [] -> gateway_security_has_token st = false -> admits generated /\ generated = hex_encode (se_random env)) /\
  (token = [] -> gateway_security_has_token st = true -> st' = st /\ generated = []).

Lemma set_token_admits token open (st st' : security N) :
  sec_initialized st = true -> gateway_security_set_token (se_hash env) (Some token) open st = (st', ESP_OK) ->
  gateway_security_validate_bearer (se_hash env) (Some token) st' = true.
Proof.
  intros Hi E. apply set_token_spec in E as (Hi' & Hok & _). destruct (Hok eq_refl) as [Hb _].
  apply validate_spec; [done|congruence|by destruct Hb as [_ Hd%sha256_ok]|done].
Qed.

Lemma generate_token_admits open random (st st' : security N) out :
  sec_initialized st = true -> bytes random -> 
  gateway_security_generate_token (se_hash env) (Some (zeros (GATEWAY_API_TOKEN_HEX_LEN + 1))) open random st = (st', ESP_OK, out) ->
  c_str (default [] out) = hex_encode random /\
  gateway_security_validate_bearer (se_hash env) (Some (hex_encode random)) st' = true.
Proof.
  intros Hi Hr E. unfold gateway_security_generate_token in E.
  destruct (_ <? _)%nat; [done|]. set (token := set_string _ (hex_encode random)) in E.
  assert (c_str token = hex_encode random) as Et by apply (c_str_terminates _ _ (hex_encode_cstring _ Hr)).
  destruct (gateway_security_set_token _ _ _ _) as [st1 e1] eqn:E1. injection E as <- -> <-.
  rewrite bool_decide_eq_false_2 by (intros ?; done). split; [done|].
  apply set_token_admits in E1; [|done]. revert E1. unfold gateway_security_validate_bearer, token_length_ok, strlen.
  rewrite <- Et, c_str_idem. done.
Qed.

Lemma save_token_spec token p p' generated :
  sec_initialized (po_security p) = true -> bytes (se_random env) ->
  save_token env token p = (p', None, generated) ->
  token_saved token generated (po_security p) (po_security p') /\ po_settings p' = po_settings p /\
  po_network p' = po_network p.
Proof.
  intros Hi Hr E. unfold save_token in E. unfold token_saved. case_bool_decide as Ht.
  - destruct (gateway_security_set_token _ _ _ _) as [st e] eqn:Es. case_bool_decide as He; [done|].
    subst e. injection E as <- <-. cbn. split_and!; try done. intros _.
    split; [|done]. by apply (set_token_admits _ _ _ _ Hi Es).
  - subst token. destruct (gateway_security_has_token (po_security p)) eqn:Eh; cbn [negb] in E.
    + injection E as <- <-. by split_and!.
    + destruct (gateway_security_generate_token _ _ _ _ _) as [[st e] out] eqn:Es. case_bool_decide as He; [done|].
      subst e. injection E as <- <-. destruct (generate_token_admits _ _ _ _ _ Hi Hr Es) as [-> Ha].
      cbn. by split_and!.
Qed.

(** ** The whole setup *)

Lemma form_fields_valid jo ssid password token :
  form_fields jo = (ssid, password, token, true) ->
  exists j, jo = Some j /\ json_string j (str "ssid") 32 = (ssid, true) /\
    json_string j (str "password") 64 = (password, true) /\ json_string j (str "token") 128 = (token, true).
Proof.
  unfold form_fields. destruct jo as [j|]; [|done]. destruct (json_string j (str "ssid") 32) as [s1 []] eqn:E1; [|done].
  destruct (json_string j (str "password") 64) as [s2 []] eqn:E2; cbn [andb]; [|done].
  destruct (json_string j (str "token") 128) as [s3 v3] eqn:E3.
  cbn [andb]. intros E. injection E as -> -> -> ->. by exists j.
Qed.


End Setup.

(** ** Witness *)

Definition sample_setup_env : setup_environment :=
  mk_setup_env (fun _ => Some sample_form) (fun _ wanted => Received (repeat 120 wanted)) true true true true ESP_OK
    (seqZ 1 32) toy_digest ESP_OK 5000.

Definition sample_portal : portal mem_nvs string_map :=
  mk_portal sample_started (start (security_boot mem_empty)) (booted_net good_env home).

Definition after_setup := setup_handler sample_setup_env 300 sample_portal.

