(* ===== verification/MqttRx.v ===== *)
(** * Reassembly of MQTT payloads (components/mqtt_service/mqtt_service.c)

    esp-mqtt delivers a long message in fragments, and [mqtt_event_handler]
    puts them together in [s_rx].  The topic is the string in its array, and
    [rx_data] the first [rx_received] bytes of its array; the theorems say that
    neither array is overrun, and that a message comes out as it was sent. *)

From Stdlib Require Import Ascii String.
From Stdlib Require Import ZifyBool ZifyNat.
From stdpp Require Import base numbers list strings.
From S2P Require Import Prelude.

Open Scope Z_scope.

Definition MQTT_TOPIC_MAX : nat := 192.
Definition MQTT_PAYLOAD_MAX : nat := Z.to_nat 4608.

Record mqtt_rx_accumulator_t := mk_rx {
  rx_topic : list Z;
  rx_total : nat;
  rx_retained : bool;
  rx_duplicate : bool;
  rx_qos : Z;
  rx_data : list Z;
}.

Definition rx_received (rx : mqtt_rx_accumulator_t) : nat := length (rx_data rx).

Definition rx_zero : mqtt_rx_accumulator_t := mk_rx [] 0 false false 0 [].

(** A DATA event; the lengths are [int]s, and [event->topic] and [event->data]
    hold at least so many bytes. *)
Record mqtt_data_event := mk_data_event {
  ev_topic : list Z;
  ev_topic_len : Z;
  ev_total_data_len : Z;
  ev_current_data_offset : Z;
  ev_data : list Z;
  ev_data_len : Z;
  ev_retain : bool;
  ev_dup : bool;
  ev_qos : Z;
}.

(** A complete message. *)
Record mqtt_message := mk_mqtt_message {
  mm_topic : list Z;
  mm_payload : list Z;
  mm_retained : bool;
  mm_duplicate : bool;
  mm_qos : Z;
}.

(** [current_data_offset] is 0: the accumulator, and whether to go on. *)
Definition rx_start (ev : mqtt_data_event) : mqtt_rx_accumulator_t * bool :=
  if (ev_topic_len ev <=? 0) || (Z.of_nat MQTT_TOPIC_MAX <=? ev_topic_len ev) then (rx_zero, false)
  else (mk_rx (take (Z.to_nat (ev_topic_len ev)) (ev_topic ev)) (Z.to_nat (ev_total_data_len ev)) (ev_retain ev)
          (ev_dup ev) (ev_qos ev) [], true).

(** The fragment behind what is there, and the message when it is complete. *)
Definition rx_append (ev : mqtt_data_event) (rx : mqtt_rx_accumulator_t) : mqtt_rx_accumulator_t * option mqtt_message :=
  let len := Z.to_nat (ev_data_len ev) in
  if negb (Z.to_nat (ev_current_data_offset ev) =? rx_received rx)%nat
     || negb (rx_total rx =? Z.to_nat (ev_total_data_len ev))%nat
     || (rx_total rx <? rx_received rx + len)%nat
  then (rx_zero, None)
  else
    let rx := mk_rx (rx_topic rx) (rx_total rx) (rx_retained rx) (rx_duplicate rx) (rx_qos rx)
                (rx_data rx ++ take len (ev_data ev)) in
    if (rx_received rx =? rx_total rx)%nat
    then (rx_zero, Some (mk_mqtt_message (rx_topic rx) (rx_data rx) (rx_retained rx) (rx_duplicate rx) (rx_qos rx)))
    else (rx, None).

Definition rx_event (ev : mqtt_data_event) (rx : mqtt_rx_accumulator_t) : mqtt_rx_accumulator_t * option mqtt_message :=
  if (ev_total_data_len ev <=? 0) || (Z.of_nat MQTT_PAYLOAD_MAX <? ev_total_data_len ev)
     || (ev_current_data_offset ev <? 0) || (ev_data_len ev <? 0)
  then (rx, None)
  else
    let '(rx, go_on) := if ev_current_data_offset ev =? 0 then rx_start ev else (rx, true) in
    if negb go_on then (rx, None) else rx_append ev rx.

(** The messages of a sequence of events. *)
Fixpoint rx_events (evs : list mqtt_data_event) (rx : mqtt_rx_accumulator_t)
  : mqtt_rx_accumulator_t * list mqtt_message :=
  match evs with
  | [] => (rx, [])
  | ev :: evs =>
      let '(rx, m) := rx_event ev rx in
      let '(rx, ms) := rx_events evs rx in (rx, option_list m ++ ms)
  end.

(** ** Bounds *)

(** What the library promises of the pointers. *)
Definition event_ok (ev : mqtt_data_event) : Prop :=
  ev_topic_len ev <= Z.of_nat (length (ev_topic ev)) /\ ev_data_len ev <= Z.of_nat (length (ev_data ev)).

(** Topic and data fit their arrays with a terminator behind them. *)
Definition rx_ok (rx : mqtt_rx_accumulator_t) : Prop :=
  (length (rx_topic rx) < MQTT_TOPIC_MAX)%nat /\ (rx_received rx <= rx_total rx)%nat /\ (rx_total rx <= MQTT_PAYLOAD_MAX)%nat /\
  (rx_total rx <> 0%nat -> rx_topic rx <> []).

Definition message_ok (m : mqtt_message) : Prop :=
  (0 < length (mm_topic m) < MQTT_TOPIC_MAX)%nat /\ (0 < length (mm_payload m) <= MQTT_PAYLOAD_MAX)%nat.

Lemma rx_zero_ok : rx_ok rx_zero.
Proof. unfold rx_ok, rx_received, rx_zero, MQTT_TOPIC_MAX, MQTT_PAYLOAD_MAX. cbn. split_and!; lia || done. Qed.

Lemma rx_start_ok ev :
  event_ok ev -> 0 < ev_total_data_len ev <= Z.of_nat MQTT_PAYLOAD_MAX -> rx_ok (rx_start ev).1.
Proof.
  intros [Ht _] Htot. unfold rx_start. destruct (_ || _) eqn:E; [exact rx_zero_ok|].
  apply orb_false_iff in E as [E1%Z.leb_gt E2%Z.leb_gt]. unfold rx_ok, rx_received. cbn [fst rx_topic rx_data rx_total length].
  rewrite length_take. split_and!; try lia. intros _ Hn.
  apply (f_equal length) in Hn. rewrite length_take in Hn. cbn in Hn. lia.
Qed.

Lemma rx_append_ok ev rx :
  event_ok ev -> 0 < ev_total_data_len ev -> 0 <= ev_data_len ev -> rx_ok rx ->
  rx_ok (rx_append ev rx).1 /\ forall m, (rx_append ev rx).2 = Some m -> message_ok m.
Proof.
  intros [_ Hd] Htot Hlen (Ht & Hr & Hmax & Hn). unfold rx_append.
  destruct (_ || _) eqn:E; [by split; [exact rx_zero_ok|]|].
  apply orb_false_iff in E as [[E1 E2%negb_false_iff%Nat.eqb_eq]%orb_false_iff E3%Nat.ltb_ge].
  unfold rx_received in *. cbn [rx_data rx_total rx_topic].
  assert (length (take (Z.to_nat (ev_data_len ev)) (ev_data ev)) = Z.to_nat (ev_data_len ev)) as Hl by (rewrite length_take; lia).
  match goal with |- context [(?a =? rx_total rx)%nat] => destruct (Nat.eqb_spec a (rx_total rx)) as [E4|_] end.
  - split; [exact rx_zero_ok|]. intros m [= <-]. unfold message_ok. cbn [mm_topic mm_payload].
    rewrite E4. split; [|lia]. split; [|done]. destruct (rx_topic rx); [|cbn; lia].
    exfalso. apply Hn; [lia|done].
  - split; [|done]. unfold rx_ok, rx_received. cbn [fst rx_data rx_total rx_topic]. rewrite length_app, Hl. done.
Qed.

Lemma rx_event_ok ev rx :
  event_ok ev -> rx_ok rx -> rx_ok (rx_event ev rx).1 /\ forall m, (rx_event ev rx).2 = Some m -> message_ok m.
Proof.
  intros He Hrx. unfold rx_event. destruct (_ || _) eqn:E; [done|].
  apply orb_false_iff in E as [[[E1%Z.leb_gt E2%Z.ltb_ge]%orb_false_iff E3%Z.ltb_ge]%orb_false_iff E4%Z.ltb_ge].
  destruct (ev_current_data_offset ev =? 0); [|by apply rx_append_ok].
  pose proof (rx_start_ok ev He ltac:(lia)) as Hs. destruct (rx_start ev) as [rx' []]; cbn [negb]; [by apply rx_append_ok|done].
Qed.

(** Whatever lengths and offsets the events have, in whatever order they
    come, what [s_rx] holds fits its arrays - the topic 192 bytes with its
    terminator, the data never more than the announced length, which is at most
    4608 - and so does every message that comes out of it. *)
Theorem rx_in_bounds evs rx :
  Forall event_ok evs -> rx_ok rx -> rx_ok (rx_events evs rx).1 /\ Forall message_ok (rx_events evs rx).2.
Proof.
  revert rx. induction evs as [|ev evs IH]; intros rx; cbn [rx_events]; [done|].
  intros [He Hes]%Forall_cons Hrx. destruct (rx_event_ok ev rx He Hrx) as [Hrx' Hm].
  destruct (rx_event ev rx) as [rx' m]. destruct (IH rx' Hes Hrx') as [H1 H2]. destruct (rx_events evs rx') as [rx'' ms].
  split; [done|]. destruct m as [m|]; cbn; [|done]. constructor; [by apply Hm|done].
Qed.

Lemma rx_in_bounds_witness :
  rx_ok (rx_events [mk_data_event (str "gw/sms/send") 11 3 0 [1; 2] 2 false false 1;
                    mk_data_event [] 0 3 2 [7; 8] 2 false false 1] rx_zero).1.
Proof.
  apply rx_in_bounds; [|exact rx_zero_ok]. repeat constructor; cbn; lia.
Defined.

(** ** Messages come out as they were sent *)

(** The fragments of a payload from an offset on; only the first one has the
    topic. *)
Fixpoint fragments (m : mqtt_message) (offset : nat) (pieces : list (list Z)) : list mqtt_data_event :=
  match pieces with
  | [] => []
  | piece :: pieces =>
      let topic := if (offset =? 0)%nat then mm_topic m else [] in
      mk_data_event topic (Z.of_nat (length topic)) (Z.of_nat (length (mm_payload m))) (Z.of_nat offset) piece
        (Z.of_nat (length piece)) (mm_retained m) (mm_duplicate m) (mm_qos m)
      :: fragments m (offset + length piece) pieces
  end.

(** [s_rx] with the first bytes of a message. *)
Definition rx_partial (m : mqtt_message) (data : list Z) : mqtt_rx_accumulator_t :=
  mk_rx (mm_topic m) (length (mm_payload m)) (mm_retained m) (mm_duplicate m) (mm_qos m) data.

Lemma rx_append_piece m data piece rest topic tlen :
  mm_payload m = data ++ piece ++ rest ->
  rx_append (mk_data_event topic tlen (Z.of_nat (length (mm_payload m))) (Z.of_nat (length data)) piece
               (Z.of_nat (length piece)) (mm_retained m) (mm_duplicate m) (mm_qos m)) (rx_partial m data) =
    if (length rest =? 0)%nat then (rx_zero, Some m) else (rx_partial m (data ++ piece), None).
Proof.
  intros Hp. unfold rx_append, rx_received, rx_partial.
  cbn [ev_data_len ev_current_data_offset ev_total_data_len rx_data rx_total ev_data rx_topic rx_retained rx_duplicate rx_qos].
  rewrite !Nat2Z.id, take_ge by lia. rewrite !Nat.eqb_refl. rewrite Hp. rewrite !length_app. cbn [negb orb].
  destruct (Nat.ltb_spec (length data + (length piece + length rest)) (length data + length piece)); [lia|].
  destruct (Nat.eqb_spec (length rest) 0) as [Hr|Hr].
  - rewrite Hr, Nat.add_0_r, Nat.eqb_refl. f_equal. f_equal. apply nil_length_inv in Hr. subst rest.
    destruct m. cbn in *. by rewrite Hp, app_nil_r.
  - destruct (Nat.eqb_spec (length data + length piece) (length data + (length piece + length rest))); [lia|done].
Qed.

Lemma rx_event_fragment m data piece rest rx :
  message_ok m -> mm_payload m = data ++ piece ++ rest -> piece <> [] -> (data = [] \/ rx = rx_partial m data) ->
  rx_event (mk_data_event (if (length data =? 0)%nat then mm_topic m else [])
              (Z.of_nat (length (if (length data =? 0)%nat then mm_topic m else [])))
              (Z.of_nat (length (mm_payload m))) (Z.of_nat (length data)) piece
              (Z.of_nat (length piece)) (mm_retained m) (mm_duplicate m) (mm_qos m)) rx =
    if (length rest =? 0)%nat then (rx_zero, Some m) else (rx_partial m (data ++ piece), None).
Proof.
  intros [Ht Hp] Hpay Hpiece Hrx. unfold rx_event. cbn [ev_total_data_len ev_current_data_offset ev_data_len].
  destruct (Z.leb_spec (Z.of_nat (length (mm_payload m))) 0); [lia|].
  destruct (Z.ltb_spec (Z.of_nat MQTT_PAYLOAD_MAX) (Z.of_nat (length (mm_payload m)))); [lia|].
  destruct (Z.ltb_spec (Z.of_nat (length data)) 0); [lia|]. destruct (Z.ltb_spec (Z.of_nat (length piece)) 0); [lia|].
  cbn [orb]. destruct data as [|c data].
  - cbn [length Z.of_nat Z.eqb Nat.eqb]. unfold rx_start. cbn [ev_topic_len ev_topic ev_total_data_len ev_retain ev_dup ev_qos].
    destruct (Z.leb_spec (Z.of_nat (length (mm_topic m))) 0); [lia|].
    destruct (Z.leb_spec (Z.of_nat MQTT_TOPIC_MAX) (Z.of_nat (length (mm_topic m)))); [lia|]. cbn [orb negb].
    rewrite !Nat2Z.id, take_ge by lia. exact (rx_append_piece m [] piece rest _ _ Hpay).
  - destruct Hrx as [?| ->]; [done|].
    destruct (Z.eqb_spec (Z.of_nat (length (c :: data))) 0) as [E|_]; [cbn in E; lia|]. cbn [negb].
    by apply rx_append_piece.
Qed.

(** C25. A message comes out of the accumulator exactly once, with its topic,
    payload and flags, however it was cut into fragments and whatever was left in
    the accumulator before (a message that was broken off, for instance). *)
Theorem fragments_reassembled m pieces rx :
  message_ok m -> concat pieces = mm_payload m -> Forall (fun piece => piece <> []) pieces ->
  rx_events (fragments m 0 pieces) rx = (rx_zero, [m]).
Proof.
  intros Hm Hc Hp.
  enough (forall data, mm_payload m = data ++ concat pieces -> pieces <> [] -> (data = [] \/ rx = rx_partial m data) ->
    rx_events (fragments m (length data) pieces) rx = (rx_zero, [m])) as Hgen.
  { apply (Hgen []); [by rewrite Hc| |by left]. intros ->. destruct Hm as [_ Hl]. rewrite <- Hc in Hl. cbn in Hl. lia. }
  clear Hc. revert rx. induction pieces as [|piece pieces IH]; intros rx data Hpay Hne Hrx; [done|].
  apply Forall_cons in Hp as [Hp1 Hp]. cbn [fragments rx_events concat] in *.
  rewrite (rx_event_fragment m data piece (concat pieces) rx Hm Hpay Hp1 Hrx).
  destruct (Nat.eqb_spec (length (concat pieces)) 0) as [Hz|Hz].
  - destruct pieces as [|piece' pieces]; [done|]. apply Forall_cons in Hp as [Hp' _]. cbn in Hz.
    rewrite length_app in Hz. destruct piece'; [done|]. cbn in Hz. lia.
  - rewrite <- length_app. rewrite (IH Hp); [done|by rewrite <- app_assoc| |by right].
    intros ->. cbn in Hz. lia.
Qed.

(** Cut into three, behind a message that was broken off. *)
Lemma fragments_reassembled_witness :
  let m := mk_mqtt_message (str "gw/system/reboot") (str "PRESS") false false 1 in
  rx_events (fragments m 0 [str "P"; str "RE"; str "SS"]) (rx_partial m (str "PRE")) = (rx_zero, [m]).
Proof.
  apply fragments_reassembled; [|vm_compute; reflexivity|repeat constructor; done].
  split; cbn -[MQTT_PAYLOAD_MAX]; unfold MQTT_TOPIC_MAX, MQTT_PAYLOAD_MAX; cbn; lia.
Defined.
