(* ===== verification/MqttDiscovery.v ===== *)
(** * What the gateway tells about itself over MQTT (components/mqtt_service/mqtt_service.c)

    The objects that [publish_status], [publish_discovery],
    [publish_inbound_replay], [publish_sms_event] and [publish_command_result]
    print.  Members that a failed allocation drops are left out. *)

From Stdlib Require Import Ascii String.
From Stdlib Require Import ZifyBool ZifyNat.
From stdpp Require Import base numbers list strings.
From S2P Require Import Prelude.
From S2P Require Import SmsMessage.
From S2P Require Import Nvs.
From S2P Require Import SmsStore.
From S2P Require Import SmsService.
From S2P Require Import ModemStatus.
From S2P Require Import ModemManager.
From S2P Require Import ModemCore.
From S2P Require Import Http.
From S2P Require Import MqttConfig.
From S2P Require Import MqttRx.

Open Scope Z_scope.

Definition JText (s : string) : json := JString (str s).

(** [snprintf(out, MQTT_TOPIC_MAX, "%s/%s", prefix, suffix)], the string. *)
Definition joined (prefix suffix : list Z) : list Z :=
  take (MQTT_TOPIC_MAX - 1) (c_str prefix ++ str "/" ++ c_str suffix).

(** ** Status *)

(** What ESP-IDF and gateway_diag answer. *)
Record system := mk_system {
  sys_uptime_seconds : Z;
  sys_heap_free : Z;
  sys_heap_minimum_free : Z;
  sys_heap_largest_block : Z;
  sys_reset_reason : list Z;
  sys_restart_cause : option (list Z);
}.

(** [last_start] *)
Definition last_start (s : system) : list Z :=
  c_str (snprintf_s (zeros 128) (c_str (sys_reset_reason s) ++
    match sys_restart_cause s with Some cause => str ": " ++ c_str cause | None => [] end)).

Definition status_json (state : modem_state_t) (modem : modem_manager_snapshot_t) (sms_queue : Z) (s : system) : json :=
  JObject [
    (str "modem_state", JString (modem_core_state_name state));
    (str "sim", JString (modem_sim_state_name (sn_sim modem)));
    (str "registered", JBool (sn_registered modem));
    (str "roaming", JBool (sn_roaming modem));
    (str "operator", match c_str (op_name (sn_operator_info modem)) with [] => JNull | name => JString name end);
    (str "rssi_dbm", if rssi (sn_signal modem) =? 99 then JNull else JInt (rssi_dbm (sn_signal modem)));
    (str "sms_queue", JInt sms_queue);
    (str "uptime_seconds", JInt (sys_uptime_seconds s));
    (str "heap_free", JInt (sys_heap_free s));
    (str "heap_minimum_free", JInt (sys_heap_minimum_free s));
    (str "heap_largest_block", JInt (sys_heap_largest_block s));
    (str "last_start", JString (last_start s))].

(** ** Discovery by Home Assistant *)

(** [snprintf(unique, sizeof(unique), "%s_%s", device_id, KEY)] *)
Definition unique_id (device_id : list Z) (key : string) : json :=
  JString (take 95 (c_str device_id ++ str "_" ++ str key)).

(** [add_component_common] *)
Definition component_common (device_id : list Z) (key platform name : string) : list (list Z * json) :=
  [(str "p", JText platform); (str "name", JText name); (str "unique_id", unique_id device_id key)].

Definition component (key : string) (members : list (list Z * json)) : list Z * json := (str key, JObject members).

(** [SENSOR] *)
Definition sensor_members (device_id state_topic : list Z) (key name template : string) : list (list Z * json) :=
  component_common device_id key "sensor" name
  ++ [(str "state_topic", JString state_topic); (str "value_template", JText template);
      (str "entity_category", JText "diagnostic")].

Definition sensor (device_id state_topic : list Z) (key name template : string) : list Z * json :=
  component key (sensor_members device_id state_topic key name template).

(** [MEASUREMENT] *)
Definition measurement (device_id state_topic : list Z) (key name template unit device_class : string) : list Z * json :=
  component key (sensor_members device_id state_topic key name template
    ++ [(str "unit_of_measurement", JText unit); (str "device_class", JText device_class);
        (str "state_class", JText "measurement")]).

(** The buttons. *)
Definition button (device_id command_topic : list Z) (key name : string) : list Z * json :=
  component key (component_common device_id key "button" name
    ++ [(str "command_topic", JString command_topic); (str "payload_press", JText "PRESS");
        (str "device_class", JText "restart"); (str "entity_category", JText "config")]).

(** [mqtt_config_view_t]: the strings of the settings in use. *)
Record mqtt_config_view_t := mk_view {
  vw_home_assistant_enabled : bool;
  vw_base_topic : list Z;
  vw_discovery_prefix : list Z;
  vw_default_recipient : list Z;
}.

(** The topics, as [topic] made them. *)
Record discovery_topics := mk_topics {
  tp_availability : list Z;
  tp_status : list Z;
  tp_received : list Z;
  tp_modem_restart : list Z;
  tp_system_reboot : list Z;
  tp_notify : list Z;
}.

Definition discovery_topic (prefix device_id : list Z) : list Z :=
  take (MQTT_TOPIC_MAX - 1) (c_str prefix ++ str "/device/" ++ c_str device_id ++ str "/config").

Definition discovery_components (device_id : list Z) (t : discovery_topics) (notify : bool) : list (list Z * json) :=
  let state_topic := tp_status t in
  [sensor device_id state_topic "modem_state" "Modem state" "{{ value_json.modem_state }}";
   sensor device_id state_topic "sim_state" "SIM state" "{{ value_json.sim }}";
   sensor device_id state_topic "operator" "Operator" "{{ value_json.operator | default('unknown', true) }}";
   sensor device_id state_topic "sms_queue" "SMS queue" "{{ value_json.sms_queue }}";
   sensor device_id state_topic "last_start" "Last start" "{{ value_json.last_start }}";
   measurement device_id state_topic "uptime" "Uptime" "{{ value_json.uptime_seconds }}" "s" "duration";
   measurement device_id state_topic "heap_free" "Free memory" "{{ value_json.heap_free }}" "B" "data_size";
   measurement device_id state_topic "heap_minimum_free" "Free memory low point"
     "{{ value_json.heap_minimum_free }}" "B" "data_size";
   measurement device_id state_topic "heap_largest_block" "Largest free memory block"
     "{{ value_json.heap_largest_block }}" "B" "data_size";
   component "signal" (component_common device_id "signal" "sensor" "Signal strength"
     ++ [(str "state_topic", JString state_topic); (str "value_template", JText "{{ value_json.rssi_dbm }}");
         (str "unit_of_measurement", JText "dBm"); (str "device_class", JText "signal_strength");
         (str "entity_category", JText "diagnostic")]);
   component "registered" (component_common device_id "registered" "binary_sensor" "Registered"
     ++ [(str "state_topic", JString state_topic);
         (str "value_template", JText "{{ 'ON' if value_json.registered else 'OFF' }}");
         (str "payload_on", JText "ON"); (str "payload_off", JText "OFF"); (str "entity_category", JText "diagnostic")]);
   component "incoming_sms" (component_common device_id "incoming_sms" "event" "Incoming SMS"
     ++ [(str "state_topic", JString (tp_received t)); (str "event_types", JArray [JText "received"])]);
   button device_id (tp_modem_restart t) "restart_modem" "Restart modem";
   button device_id (tp_system_reboot t) "restart_gateway" "Restart gateway"]
  ++ (if notify then
        [component "sms_notify" (component_common device_id "sms_notify" "notify" "SMS"
          ++ [(str "command_topic", JString (tp_notify t)); (str "qos", JInt 0); (str "retain", JBool false)])]
      else []).

Definition discovery_json (device_id version : list Z) (t : discovery_topics) (notify : bool) : json := JObject [
  (str "dev", JObject [
    (str "ids", JString device_id); (str "name", JText "SMS Gateway"); (str "mf", JText "ESP32 SMS Gateway");
    (str "mdl", JText "ESP32-S3-USB-OTG SMS Gateway"); (str "sw", JString version)]);
  (str "o", JObject [(str "name", JText "esp32-sms-gateway"); (str "sw", JString version)]);
  (str "availability_topic", JString (tp_availability t));
  (str "payload_available", JText "online");
  (str "payload_not_available", JText "offline");
  (str "cmps", JObject (discovery_components device_id t notify))].

(** ** Results and messages *)

(** [publish_command_result] *)
Definition result_members (request_id : option (list Z)) (ok : bool) (code : string) (message_id : Z) (replayed : bool)
  : json := JObject (
  match request_id with Some request_id => [(str "request_id", JString request_id)] | None => [] end
  ++ [(str "ok", JBool ok); (str "code", JText code)]
  ++ (if message_id =? 0 then [] else [(str "message_id", JInt message_id)])
  ++ (if replayed then [(str "replayed", JBool true)] else [])).

(** The members of an event about a received message. *)
Definition received_members (message_id : Z) (status : sms_message_status_t) (sender text timestamp : list Z) : json :=
  JObject ([
    (str "id", JInt message_id);
    (str "status", JString (sms_message_status_name status));
    (str "event_type", JText "received");
    (str "from", JString (c_str sender));
    (str "text", JString (c_str text))]
  ++ match c_str timestamp with [] => [] | s => [(str "received_at", JString s)] end).

Definition inbound_json (m : sms_message_t) : json :=
  received_members (id m) (status m) (sender m) (text m) (service_center_timestamp m).

(** [mqtt_sms_event_snapshot_t], its strings. *)
Record mqtt_sms_event_snapshot_t := mk_event_snapshot {
  es_id : Z;
  es_direction : sms_direction_t;
  es_status : sms_message_status_t;
  es_sender : list Z;
  es_recipient : list Z;
  es_service_center_timestamp : list Z;
  es_text : list Z;
}.

Definition is_received (event : sms_service_event_t) (direction : sms_direction_t) : bool :=
  bool_decide (event = SMS_SERVICE_EVENT_RECEIVED) && bool_decide (direction = SMS_DIRECTION_INBOUND).

Definition event_json (event : sms_service_event_t) (m : mqtt_sms_event_snapshot_t) : json :=
  if is_received event (es_direction m)
  then received_members (es_id m) (es_status m) (es_sender m) (es_text m) (es_service_center_timestamp m)
  else JObject [
    (str "id", JInt (es_id m));
    (str "status", JString (sms_message_status_name (es_status m)));
    (str "direction",
     JText (if bool_decide (es_direction m = SMS_DIRECTION_INBOUND) then "inbound" else "outbound"))].
