(* ===== verification/OtaService.v ===== *)
(** * Firmware updates (components/ota_service/ota_service.c)

    The session of an upload: the image is hashed and written while it arrives,
    its description is checked against the version policy before the first
    byte is written, and its partition is booted only after the hash matches.

    The code is a state monad over [ota], the static variables with the trace
    of what was done to the platform, newest first.  The platform (partitions,
    the hash, the heap) is an [ota_environment], whose answers may depend on
    the trace; every question to it is in the trace.  A mutex taken with
    [portMAX_DELAY] is always obtained. *)

From Stdlib Require Import Ascii String.
From Stdlib Require Import ZifyBool ZifyNat.
From stdpp Require Import base numbers list strings.
From S2P Require Import Prelude.
From S2P Require Import StateMonad.
From S2P Require Import Nvs.
From S2P Require Import GatewaySecurity.
From S2P Require Import OtaVersionPolicy.

Open Scope Z_scope.

Definition GATEWAY_OTA_SHA256_HEX_LEN : nat := 64.
Definition GATEWAY_OTA_ERR_BASE : Z := 0x7A00.
Definition GATEWAY_OTA_ERR_HASH_MISMATCH : esp_err_t := ESP_ERR_OTHER (GATEWAY_OTA_ERR_BASE + 1).
Definition GATEWAY_OTA_ERR_PROJECT_MISMATCH : esp_err_t := ESP_ERR_OTHER (GATEWAY_OTA_ERR_BASE + 2).
Definition GATEWAY_OTA_ERR_VERSION_FORMAT : esp_err_t := ESP_ERR_OTHER (GATEWAY_OTA_ERR_BASE + 3).
Definition GATEWAY_OTA_ERR_REINSTALL_REJECTED : esp_err_t := ESP_ERR_OTHER (GATEWAY_OTA_ERR_BASE + 4).
Definition GATEWAY_OTA_ERR_DOWNGRADE_REJECTED : esp_err_t := ESP_ERR_OTHER (GATEWAY_OTA_ERR_BASE + 5).
Definition GATEWAY_OTA_ERR_SECURE_VERSION : esp_err_t := ESP_ERR_OTHER (GATEWAY_OTA_ERR_BASE + 6).
Definition GATEWAY_OTA_ERR_PENDING_VERIFY : esp_err_t := ESP_ERR_OTHER (GATEWAY_OTA_ERR_BASE + 7).
Definition GATEWAY_OTA_ERR_IMAGE_SIZE : esp_err_t := ESP_ERR_OTHER (GATEWAY_OTA_ERR_BASE + 8).

(** Of ESP-IDF. *)
Definition ESP_ERR_OTA_VALIDATE_FAILED : esp_err_t := ESP_ERR_OTHER 0x1503.
Definition ESP_APP_DESC_MAGIC_WORD : Z := 0xABCD5432.

Definition OTA_EXPECTED_PROJECT : list Z := str "esp32_sms_gateway".

(** [err >= GATEWAY_OTA_ERR_BASE && err <= GATEWAY_OTA_ERR_IMAGE_SIZE]: no
    other error code lies in between. *)
Definition is_rejection (err : esp_err_t) : bool :=
  match err with
  | ESP_ERR_OTHER code => (GATEWAY_OTA_ERR_BASE <=? code) && (code <=? GATEWAY_OTA_ERR_BASE + 8)
  | _ => false
  end.

(** ** The platform *)

(** What the code reads of a partition, and of an application description. *)
Record esp_partition_t := mk_partition {
  part_label : list Z;
  part_size : nat;
}.

Record esp_app_desc_t := mk_app_desc {
  magic_word : Z;
  secure_version : Z;
  ad_version : list Z;
  ad_project_name : list Z;
}.

#[export] Instance eta_app_desc : Eta esp_app_desc_t := fun d =>
  mk_app_desc (magic_word d) (secure_version d) (ad_version d) (ad_project_name d).

Inductive ota_effect :=
  | OE_asked
  | OE_begin (partition : esp_partition_t) (size : nat) (handle : Z) (err : esp_err_t)
  | OE_write (handle : Z) (data : list Z) (err : esp_err_t)
  | OE_end (handle : Z) (err : esp_err_t)
  | OE_abort (handle : Z)
  | OE_set_boot (partition : esp_partition_t) (err : esp_err_t)
  | OE_mark_valid (err : esp_err_t).

Record ota_environment := mk_ota_environment {
  (** The sizes of the two image headers and of [esp_app_desc_t], and the
      latter in its bytes. *)
  oenv_headers : nat;
  oenv_desc_size : nat;
  oenv_desc : list Z -> esp_app_desc_t;
  oenv_app_description : option esp_app_desc_t;
  oenv_running : list ota_effect -> option esp_partition_t;
  oenv_boot : list ota_effect -> option esp_partition_t;
  oenv_next_update : list ota_effect -> option esp_partition_t;
  (** [esp_ota_get_state_partition]: is it ESP_OTA_IMG_PENDING_VERIFY? *)
  oenv_pending : list ota_effect -> esp_partition_t -> esp_err_t * bool;
  oenv_description : list ota_effect -> esp_partition_t -> esp_err_t * esp_app_desc_t;
  (** The handle of [esp_ota_begin], and the error of the next write. *)
  oenv_handle : list ota_effect -> Z;
  oenv_err : list ota_effect -> esp_err_t;
  oenv_allocated : list ota_effect -> bool;
  oenv_crypto : list ota_effect -> bool;
  oenv_sha256 : list Z -> list Z;
  oenv_task_created : list ota_effect -> bool;
}.

(** ** The state *)

Record gateway_ota_diagnostics_t := mk_ota_diag {
  pending_verify : bool;
  confirmation_scheduled : bool;
  update_in_progress : bool;
  upload_attempts : Z;
  upload_successes : Z;
  upload_rejections : Z;
  upload_failures : Z;
  ota_last_error : esp_err_t;
  running_version : list Z;
  running_partition : list Z;
  boot_version : list Z;
  boot_partition : list Z;
  last_candidate_version : list Z;
}.

#[export] Instance eta_ota_diag : Eta gateway_ota_diagnostics_t := fun d =>
  mk_ota_diag (pending_verify d) (confirmation_scheduled d) (update_in_progress d) (upload_attempts d)
    (upload_successes d) (upload_rejections d) (upload_failures d) (ota_last_error d) (running_version d)
    (running_partition d) (boot_version d) (boot_partition d) (last_candidate_version d).

Definition ota_diag_zero : gateway_ota_diagnostics_t :=
  mk_ota_diag false false false 0 0 0 0 ESP_OK (zeros 32) (zeros 17) (zeros 32) (zeros 17) (zeros 32).

(** [prefix] is its first [prefix_len] bytes, [hash_op] what was hashed. *)
Record gateway_ota_session := mk_session {
  os_partition : esp_partition_t;
  ota_handle : Z;
  ota_started : bool;
  hash_active : bool;
  hash_op : list Z;
  expected_size : nat;
  received : nat;
  expected_hash : list Z;
  prefix : list Z;
  allow_reinstall : bool;
  allow_downgrade : bool;
  os_last_error : esp_err_t;
  os_candidate : esp_app_desc_t;
}.

#[export] Instance eta_session : Eta gateway_ota_session := fun s =>
  mk_session (os_partition s) (ota_handle s) (ota_started s) (hash_active s) (hash_op s) (expected_size s)
    (received s) (expected_hash s) (prefix s) (allow_reinstall s) (allow_downgrade s) (os_last_error s)
    (os_candidate s).

Record ota := mk_ota {
  ota_lock : bool;
  ota_diag : gateway_ota_diagnostics_t;
  ota_initialized : bool;
  ota_trace : list ota_effect;
}.

#[export] Instance eta_ota : Eta ota := fun o =>
  mk_ota (ota_lock o) (ota_diag o) (ota_initialized o) (ota_trace o).

Record gateway_ota_request_t := mk_ota_request {
  image_size : nat;
  sha256_hex : option (list Z);
  rq_allow_reinstall : bool;
  rq_allow_downgrade : bool;
}.

Record gateway_ota_result_t := mk_ota_result {
  or_version : list Z;
  or_project_name : list Z;
  or_partition : list Z;
  or_sha256 : list Z;
  or_image_size : nat;
}.

(** ** Bytes and hexadecimal digits *)

Definition copy_text (dst src : list Z) : list Z :=
  if (length dst =? 0)%nat then dst else snprintf_s dst src.

Definition hex_value (c : Z) : Z :=
  if (chr "0" <=? c) && (c <=? chr "9") then c - chr "0"
  else if (chr "a" <=? c) && (c <=? chr "f") then c - chr "a" + 10
  else if (chr "A" <=? c) && (c <=? chr "F") then c - chr "A" + 10
  else -1.

(** The loop, two digits at a time. *)
Fixpoint hex_decode_loop (text : list Z) : option (list Z) :=
  match text with
  | h :: l :: text' =>
      let hi := hex_value h in
      let lo := hex_value l in
      if (hi <? 0) || (lo <? 0) then None
      else out ← hex_decode_loop text'; Some (u8 (Z.lor (Z.shiftl hi 4) lo) :: out)
  | _ => Some []
  end.

Definition hex_decode_32 (text : option (list Z)) : option (list Z) :=
  match text with
  | None => None
  | Some text =>
      if negb (strlen text =? GATEWAY_OTA_SHA256_HEX_LEN)%nat then None else hex_decode_loop (c_str text)
  end.

Definition decision_error (decision : ota_version_decision_t) : esp_err_t :=
  match decision with
  | OTA_VERSION_REJECT_PROJECT => GATEWAY_OTA_ERR_PROJECT_MISMATCH
  | OTA_VERSION_REJECT_FORMAT => GATEWAY_OTA_ERR_VERSION_FORMAT
  | OTA_VERSION_REJECT_REINSTALL => GATEWAY_OTA_ERR_REINSTALL_REJECTED
  | OTA_VERSION_REJECT_DOWNGRADE => GATEWAY_OTA_ERR_DOWNGRADE_REJECTED
  | OTA_VERSION_REJECT_SECURE_VERSION => GATEWAY_OTA_ERR_SECURE_VERSION
  | OTA_VERSION_ACCEPT => ESP_OK
  end.

(** ** The operations *)

Section Ota.

Variable env : ota_environment.

Abbreviation M := (State ota).

Definition OTA_PREFIX_REQUIRED : nat := oenv_headers env + oenv_desc_size env.

Definition on_diag (f : gateway_ota_diagnostics_t -> gateway_ota_diagnostics_t) : M unit :=
  modify (fun o => o <| ota_diag := f (ota_diag o) |>).

Definition ota_log (e : ota_effect) : M unit := modify (fun o => o <| ota_trace := e :: ota_trace o |>).

(** A question to the platform. *)
Definition ask {A} (answer : list ota_effect -> A) : M A := fun o =>
  (o <| ota_trace := OE_asked :: ota_trace o |>, answer (ota_trace o)).

Definition esp_ota_begin (partition : esp_partition_t) (size : nat) : M (esp_err_t * Z) := fun o =>
  let err := oenv_err env (ota_trace o) in
  let handle := oenv_handle env (ota_trace o) in
  (o <| ota_trace := OE_begin partition size handle err :: ota_trace o |>, (err, handle)).

Definition esp_ota_write (handle : Z) (data : list Z) : M esp_err_t := fun o =>
  let err := oenv_err env (ota_trace o) in
  (o <| ota_trace := OE_write handle data err :: ota_trace o |>, err).

Definition esp_ota_end (handle : Z) : M esp_err_t := fun o =>
  let err := oenv_err env (ota_trace o) in (o <| ota_trace := OE_end handle err :: ota_trace o |>, err).

Definition esp_ota_set_boot_partition (partition : esp_partition_t) : M esp_err_t := fun o =>
  let err := oenv_err env (ota_trace o) in (o <| ota_trace := OE_set_boot partition err :: ota_trace o |>, err).

Definition esp_ota_mark_app_valid_cancel_rollback : M esp_err_t := fun o =>
  let err := oenv_err env (ota_trace o) in (o <| ota_trace := OE_mark_valid err :: ota_trace o |>, err).

Definition text_of (desc : option esp_app_desc_t) : list Z :=
  match desc with Some d => ad_version d | None => [] end.

Definition label_of (partition : option esp_partition_t) : list Z :=
  match partition with Some p => part_label p | None => [] end.

(** [running != NULL && esp_ota_get_state_partition(running, &state) == ESP_OK
    && state == ESP_OTA_IMG_PENDING_VERIFY] *)
Definition running_pending : M bool :=
  running ← ask (oenv_running env);
  match running with
  | None => mret false
  | Some p => '(err, pending) ← ask (fun t => oenv_pending env t p); mret (bool_decide (err = ESP_OK) && pending)
  end.

Definition refresh_partition_diagnostics_locked : M unit :=
  running ← ask (oenv_running env);
  boot ← ask (oenv_boot env);
  on_diag (fun d => d
    <| running_version := copy_text (running_version d) (text_of (oenv_app_description env)) |>
    <| running_partition := copy_text (running_partition d) (label_of running) |>
    <| boot_partition := copy_text (boot_partition d) (label_of boot) |>);;
  desc ← match boot with
         | None => mret None
         | Some p => '(err, desc) ← ask (fun t => oenv_description env t p);
                     mret (if bool_decide (err = ESP_OK) then Some desc else None)
         end;
  on_diag (fun d => d <| boot_version :=
    match desc with Some desc => copy_text (boot_version d) (ad_version desc) | None => set_string (boot_version d) [] end |>);;
  pending ← match running with
            | None => mret false
            | Some p => '(err, pending) ← ask (fun t => oenv_pending env t p);
                        mret (bool_decide (err = ESP_OK) && pending)
            end;
  on_diag (fun d => d <| pending_verify := pending |>).

(** [if (s_lock != NULL && xSemaphoreTake(s_lock, portMAX_DELAY) == pdTRUE)] *)
Definition locked (c : M unit) : M unit := lock ← gets ota_lock; when lock c.

Definition session_release (session : option gateway_ota_session) (abort_ota : bool) : M unit :=
  match session with
  | None => mret tt
  | Some s =>
      when (abort_ota && ota_started s) (ota_log (OE_abort (ota_handle s)));;
      locked (on_diag (fun d => d <| update_in_progress := false |>))
  end.

(** The candidate in the prefix, its strings terminated. *)
Definition terminate_text (field : list Z) : list Z := take (length field - 1) field ++ [0].

Definition prefix_candidate (prefix : list Z) : esp_app_desc_t :=
  oenv_desc env (take (oenv_desc_size env) (drop (oenv_headers env) prefix)).

Definition terminated_candidate (candidate : esp_app_desc_t) : esp_app_desc_t := candidate
  <| ad_version := terminate_text (ad_version candidate) |>
  <| ad_project_name := terminate_text (ad_project_name candidate) |>.

Definition candidate_decision (running candidate : esp_app_desc_t) (s : gateway_ota_session) : ota_version_decision_t :=
  ota_version_policy_decide (Some OTA_EXPECTED_PROJECT) (Some (ad_version running)) (secure_version running)
    (Some (ad_project_name candidate)) (Some (ad_version candidate)) (secure_version candidate)
    (allow_reinstall s) (allow_downgrade s).

(** The session, and the error. *)
Definition validate_prefix_and_start (s : gateway_ota_session) : M (gateway_ota_session * esp_err_t) :=
  let candidate := prefix_candidate (prefix s) in
  if negb (magic_word candidate =? ESP_APP_DESC_MAGIC_WORD) then mret (s, ESP_ERR_OTA_VALIDATE_FAILED)
  else
    let candidate := terminated_candidate candidate in
    match oenv_app_description env with
    | None => mret (s, ESP_FAIL)
    | Some running =>
        let policy_err := decision_error (candidate_decision running candidate s) in
        if bool_decide (policy_err <> ESP_OK) then mret (s, policy_err)
        else
          '(err, handle) ← esp_ota_begin (os_partition s) (expected_size s);
          let s := s <| ota_handle := handle |> in
          if bool_decide (err <> ESP_OK) then mret (s, err)
          else
            let s := s <| ota_started := true |> in
            err ← esp_ota_write (ota_handle s) (prefix s);
            if bool_decide (err <> ESP_OK) then mret (s, err)
            else
              locked (on_diag (fun d => d <| last_candidate_version :=
                copy_text (last_candidate_version d) (ad_version candidate) |>));;
              mret (s <| os_candidate := candidate |>, ESP_OK)
    end.

(** Behind the delay. *)
Definition ota_confirm_task : M unit :=
  running ← ask (oenv_running env);
  '(err, pending) ← match running with
                    | None => mret (ESP_FAIL, false)
                    | Some p => ask (fun t => oenv_pending env t p)
                    end;
  err ← (if bool_decide (err = ESP_OK) && pending then esp_ota_mark_app_valid_cancel_rollback else mret err);
  on_diag (fun d => d <| confirmation_scheduled := false |> <| ota_last_error := err |>);;
  refresh_partition_diagnostics_locked.

(** [mutex_created]: [xSemaphoreCreateMutex] did not return NULL. *)
Definition gateway_ota_service_init (mutex_created : bool) : M esp_err_t :=
  initialized ← gets ota_initialized;
  if (initialized : bool) then mret ESP_ERR_INVALID_STATE
  else if negb mutex_created then modify (fun o => o <| ota_lock := false |>);; mret ESP_ERR_NO_MEM
  else
    crypto ← ask (oenv_crypto env);
    if negb crypto then modify (fun o => o <| ota_lock := false |>);; mret ESP_FAIL
    else
      modify (fun o => o <| ota_lock := true |> <| ota_diag := ota_diag_zero |>);;
      refresh_partition_diagnostics_locked;;
      modify (fun o => o <| ota_initialized := true |>);;
      mret ESP_OK.

(** The error, and whether [ota_confirm_task] was created. *)
Definition gateway_ota_mark_services_ready : M (esp_err_t * bool) :=
  initialized ← gets ota_initialized;
  if negb initialized then mret (ESP_ERR_INVALID_STATE, false)
  else
    refresh_partition_diagnostics_locked;;
    diag ← gets ota_diag;
    let schedule := pending_verify diag && negb (confirmation_scheduled diag) in
    when schedule (on_diag (fun d => d <| confirmation_scheduled := true |>));;
    if negb schedule then mret (ESP_OK, false)
    else
      created ← ask (oenv_task_created env);
      if negb created then
        on_diag (fun d => d <| confirmation_scheduled := false |> <| ota_last_error := ESP_ERR_NO_MEM |>);;
        mret (ESP_ERR_NO_MEM, false)
      else mret (ESP_OK, true).

(** [out] is not NULL for [true]. *)
Definition gateway_ota_get_diagnostics (out : bool) : M (esp_err_t + gateway_ota_diagnostics_t) :=
  initialized ← gets ota_initialized;
  if negb initialized || negb out then mret (inl ESP_ERR_INVALID_ARG)
  else refresh_partition_diagnostics_locked;; diag ← gets ota_diag; mret (inr diag).

Definition failure_counted (err : esp_err_t) : M unit :=
  on_diag (fun d => d <| upload_failures := u32 (upload_failures d + 1) |> <| ota_last_error := err |>).

(** [out_session] is not NULL for [true]. *)
Definition gateway_ota_begin (request : option gateway_ota_request_t) (out_session : bool)
  : M (esp_err_t + gateway_ota_session) :=
  initialized ← gets ota_initialized;
  match request with
  | None => mret (inl ESP_ERR_INVALID_ARG)
  | Some rq =>
      if negb initialized || negb out_session || bool_decide (sha256_hex rq = None)
      then mret (inl ESP_ERR_INVALID_ARG)
      else match hex_decode_32 (sha256_hex rq) with
      | None => mret (inl ESP_ERR_INVALID_ARG)
      | Some parsed_hash =>
          pending ← running_pending;
          if (pending : bool) then mret (inl GATEWAY_OTA_ERR_PENDING_VERIFY)
          else
            partition ← ask (oenv_next_update env);
            match partition with
            | None => mret (inl GATEWAY_OTA_ERR_IMAGE_SIZE)
            | Some partition =>
                if (image_size rq <? OTA_PREFIX_REQUIRED)%nat || (part_size partition <? image_size rq)%nat
                then mret (inl GATEWAY_OTA_ERR_IMAGE_SIZE)
                else
                  diag ← gets ota_diag;
                  if update_in_progress diag then mret (inl ESP_ERR_INVALID_STATE)
                  else
                    on_diag (fun d => d <| update_in_progress := true |>
                                        <| upload_attempts := u32 (upload_attempts d + 1) |>);;
                    allocated ← ask (oenv_allocated env);
                    if negb allocated then
                      on_diag (fun d => d <| update_in_progress := false |>);;
                      failure_counted ESP_ERR_NO_MEM;;
                      mret (inl ESP_ERR_NO_MEM)
                    else
                      let session := mk_session partition 0 false false [] (image_size rq) 0 parsed_hash []
                        (rq_allow_reinstall rq) (rq_allow_downgrade rq) ESP_OK (mk_app_desc 0 0 [] []) in
                      setup ← ask (oenv_crypto env);
                      if negb setup then
                        failure_counted ESP_FAIL;;
                        session_release (Some session) false;;
                        mret (inl ESP_FAIL)
                      else mret (inr (session <| hash_active := true |>))
            end
      end
  end.

(** The session is left with its [last_error]. *)
Definition write_failed (s : gateway_ota_session) (err : esp_err_t) : option gateway_ota_session * esp_err_t :=
  (Some (s <| os_last_error := err |>), err).

(** The bytes that complete the prefix: the session, their number and the
    error. *)
Definition consume_prefix (s : gateway_ota_session) (bytes : list Z) : M (gateway_ota_session * nat * esp_err_t) :=
  if ota_started s then mret (s, 0%nat, ESP_OK)
  else
    let need := (OTA_PREFIX_REQUIRED - length (prefix s))%nat in
    let copy := if (length bytes <? need)%nat then length bytes else need in
    let s := s <| prefix := prefix s ++ take copy bytes |> in
    if (length (prefix s) =? OTA_PREFIX_REQUIRED)%nat then
      '(s, err) ← validate_prefix_and_start s; mret (s, copy, err)
    else mret (s, copy, ESP_OK).

(** [data] is NULL for [None]. *)
Definition gateway_ota_write (session : option gateway_ota_session) (data : option (list Z))
  : M (option gateway_ota_session * esp_err_t) :=
  match session, data with
  | Some s, Some bytes =>
      let len := length bytes in
      if (len =? 0)%nat then mret (session, ESP_ERR_INVALID_ARG)
      else if (expected_size s <? received s)%nat || (expected_size s - received s <? len)%nat
      then mret (write_failed s GATEWAY_OTA_ERR_IMAGE_SIZE)
      else
        updated ← ask (oenv_crypto env);
        if negb updated then mret (write_failed s ESP_FAIL)
        else
          let s := s <| hash_op := hash_op s ++ bytes |> in
          '(s, consumed, err) ← consume_prefix s bytes;
          if bool_decide (err <> ESP_OK) then mret (write_failed s err)
          else
            err ← (if ota_started s && (consumed <? len)%nat
                   then esp_ota_write (ota_handle s) (drop consumed bytes) else mret ESP_OK);
            if bool_decide (err <> ESP_OK) then mret (write_failed s err)
            else mret (Some (s <| received := (received s + len)%nat |>), ESP_OK)
  | _, _ => mret (session, ESP_ERR_INVALID_ARG)
  end.

(** [strncmp(a, b, n) != 0] *)
Definition strncmp_differs (a b : list Z) (n : nat) : bool := negb (bool_decide (take n (c_str a) = take n (c_str b))).

(** Down to the label: the session, the error, and the description and the
    digest that the result is made of. *)
Definition finish_checks (s : gateway_ota_session)
  : M (gateway_ota_session * esp_err_t * option (esp_app_desc_t * list Z)) :=
  if negb (received s =? expected_size s)%nat || negb (ota_started s)
  then mret (s, GATEWAY_OTA_ERR_IMAGE_SIZE, None)
  else
    finished ← ask (oenv_crypto env);
    let digest := oenv_sha256 env (hash_op s) in
    if negb finished || negb (length digest =? 32)%nat then mret (s, ESP_FAIL, None)
    else
      let s := s <| hash_active := false |> in
      if negb (constant_equal digest (expected_hash s) 32) then mret (s, GATEWAY_OTA_ERR_HASH_MISMATCH, None)
      else
        err ← esp_ota_end (ota_handle s);
        let s := s <| ota_started := false |> in
        if bool_decide (err <> ESP_OK) then mret (s, err, None)
        else
          '(err, written) ← ask (fun t => oenv_description env t (os_partition s));
          if bool_decide (err <> ESP_OK) then mret (s, err, None)
          else
            if negb (magic_word written =? ESP_APP_DESC_MAGIC_WORD)
               || strncmp_differs (ad_project_name written) (ad_project_name (os_candidate s))
                    (length (ad_project_name written))
               || strncmp_differs (ad_version written) (ad_version (os_candidate s)) (length (ad_version written))
            then mret (s, ESP_ERR_OTA_VALIDATE_FAILED, None)
            else
              err ← esp_ota_set_boot_partition (os_partition s);
              mret (s, err, Some (written, digest)).

Definition finish_result (s : gateway_ota_session) (written : esp_app_desc_t) (digest : list Z) : gateway_ota_result_t :=
  mk_ota_result (copy_text (zeros 32) (ad_version written)) (copy_text (zeros 32) (ad_project_name written))
    (copy_text (zeros 17) (part_label (os_partition s))) (set_string (zeros 65) (hex_encode digest)) (expected_size s).

Definition rejection_or_failure (err : esp_err_t) : M unit :=
  on_diag (fun d => if is_rejection err then d <| upload_rejections := u32 (upload_rejections d + 1) |>
                    else d <| upload_failures := u32 (upload_failures d + 1) |>).

(** [result] is not NULL for [true]. *)
Definition gateway_ota_finish (session : option gateway_ota_session) (result : bool)
  : M (esp_err_t + gateway_ota_result_t) :=
  match session with
  | None => mret (inl ESP_ERR_INVALID_ARG)
  | Some s =>
      if negb result then mret (inl ESP_ERR_INVALID_ARG)
      else
        '(s, err, checked) ← finish_checks s;
        on_diag (fun d => d <| ota_last_error := err |>);;
        (if bool_decide (err = ESP_OK) then
           on_diag (fun d => d <| upload_successes := u32 (upload_successes d + 1) |>
             <| last_candidate_version := copy_text (last_candidate_version d) (ad_version (os_candidate s)) |>)
         else rejection_or_failure err);;
        session_release (Some s) (bool_decide (err <> ESP_OK));;
        mret (match checked with
              | Some (written, digest) => if bool_decide (err = ESP_OK) then inr (finish_result s written digest) else inl err
              | None => inl err
              end)
  end.

Definition gateway_ota_abort (session : option gateway_ota_session) : M unit :=
  match session with
  | None => mret tt
  | Some s =>
      let err := if bool_decide (os_last_error s <> ESP_OK) then os_last_error s else ESP_FAIL in
      on_diag (fun d => d <| ota_last_error := err |>);;
      rejection_or_failure err;;
      session_release session true
  end.

End Ota.
