(* ===== verification/OtaServiceFacts.v ===== *)
(** * Firmware updates: what a session has done

    The invariant of a session whose writes have succeeded ([upload]), and that
    nothing but a successful [gateway_ota_finish] changes the boot partition. *)

From Stdlib Require Import Ascii String.
From Stdlib Require Import ZifyBool ZifyNat.
From stdpp Require Import base numbers list strings.
From S2P Require Import Prelude.
From S2P Require Import StateMonad.
From S2P Require Import Nvs.
From S2P Require Import GatewaySecurity.
From S2P Require Import OtaVersionPolicy.
From S2P Require Import OtaService.

Open Scope Z_scope.

(** ** Reading the trace *)

(** What was written behind the handle [h] since it was opened; [None] when a
    write failed. *)
Fixpoint written (h : Z) (tr : list ota_effect) : option (list Z) :=
  match tr with
  | [] => Some []
  | OE_begin _ _ h' _ :: tr' => if h' =? h then Some [] else written h tr'
  | OE_write h' data err :: tr' =>
      if h' =? h then if bool_decide (err = ESP_OK) then image ← written h tr'; Some (image ++ data) else None
      else written h tr'
  | _ :: tr' => written h tr'
  end.

(** The partition and the size that [h] was opened for. *)
Fixpoint opened (h : Z) (tr : list ota_effect) : option (esp_partition_t * nat) :=
  match tr with
  | [] => None
  | OE_begin p size h' _ :: tr' => if h' =? h then Some (p, size) else opened h tr'
  | _ :: tr' => opened h tr'
  end.

(** The partitions that were chosen for the next boot. *)
Fixpoint boots (tr : list ota_effect) : list esp_partition_t :=
  match tr with
  | [] => []
  | OE_set_boot p err :: tr' => if bool_decide (err = ESP_OK) then p :: boots tr' else boots tr'
  | _ :: tr' => boots tr'
  end.

(** An effect that says nothing about images. *)
Definition silent (e : ota_effect) : Prop := e = OE_asked \/ (exists h, e = OE_abort h) \/ (exists h err, e = OE_end h err)
  \/ (exists err, e = OE_mark_valid err).

(** From [o] to [o'] nothing was said about images. *)
Definition quiet_since (tr : list ota_effect) (o : ota) : Prop :=
  exists effects, ota_trace o = effects ++ tr /\ Forall silent effects.

Lemma silent_reads e h tr :
  silent e -> written h (e :: tr) = written h tr /\ opened h (e :: tr) = opened h tr /\ boots (e :: tr) = boots tr.
Proof. by intros [->|[[? ->]|[(? & ? & ->)|[? ->]]]]. Qed.

Lemma quiet_reads tr o h :
  quiet_since tr o ->
  written h (ota_trace o) = written h tr /\ opened h (ota_trace o) = opened h tr /\ boots (ota_trace o) = boots tr.
Proof.
  intros (effects & -> & H). induction H as [|e effects He _ IH]; [done|]. cbn [app].
  destruct (silent_reads e h (effects ++ tr) He) as (-> & -> & ->). exact IH.
Qed.

Lemma quiet_refl o : quiet_since (ota_trace o) o.
Proof. by exists []. Qed.

Lemma quiet_add tr o e : quiet_since tr o -> silent e -> quiet_since tr (o <| ota_trace := e :: ota_trace o |>).
Proof. intros (effects & E & H) He. exists (e :: effects). cbn. rewrite E. split; [done|by constructor]. Qed.

Section Quiet.

Variable env : ota_environment.
Variable tr : list ota_effect.

Lemma quiet_ask {A} (answer : list ota_effect -> A) : keeps (quiet_since tr) (ask answer).
Proof. intros o Ho. apply quiet_add; [done|by left]. Qed.

Lemma quiet_diag f : keeps (quiet_since tr) (on_diag f).
Proof. intros o Ho. exact Ho. Qed.

Hint Resolve quiet_ask quiet_diag : state.

Lemma quiet_refresh : keeps (quiet_since tr) (refresh_partition_diagnostics_locked env).
Proof. unfold refresh_partition_diagnostics_locked. keeps_tac. Qed.

Lemma quiet_locked c : keeps (quiet_since tr) c -> keeps (quiet_since tr) (locked c).
Proof. intros H. unfold locked. keeps_tac. Qed.

Hint Resolve quiet_refresh quiet_locked : state.

Lemma quiet_release session abort : keeps (quiet_since tr) (session_release session abort).
Proof.
  unfold session_release. destruct session as [s|]; [|apply keeps_ret]. apply keeps_bind; [|intros _; auto with state].
  apply keeps_when. intros _. intros o Ho. apply quiet_add; [done|right; left; by eexists].
Qed.

Lemma quiet_running_pending : keeps (quiet_since tr) (running_pending env).
Proof. unfold running_pending. keeps_tac. Qed.

Lemma quiet_failure err : keeps (quiet_since tr) (failure_counted err).
Proof. apply quiet_diag. Qed.

Lemma quiet_rejection err : keeps (quiet_since tr) (rejection_or_failure err).
Proof. apply quiet_diag. Qed.

Hint Resolve quiet_release quiet_running_pending quiet_failure quiet_rejection : state.

Lemma quiet_begin rq out : keeps (quiet_since tr) (gateway_ota_begin env rq out).
Proof. unfold gateway_ota_begin. keeps_tac. Qed.

Lemma quiet_abort session : keeps (quiet_since tr) (gateway_ota_abort session).
Proof. unfold gateway_ota_abort. keeps_tac. Qed.

End Quiet.

#[export] Hint Resolve quiet_ask quiet_diag quiet_refresh quiet_locked quiet_release quiet_running_pending quiet_failure
  quiet_rejection quiet_begin quiet_abort : state.

(** ** The session *)

Section Session.

Variable env : ota_environment.

Abbreviation REQUIRED := (OTA_PREFIX_REQUIRED env).

(** The description in front of the image, and that the policy lets it follow
    the running firmware. *)
Definition image_candidate (image : list Z) : esp_app_desc_t :=
  terminated_candidate (prefix_candidate env (take REQUIRED image)).

Definition image_accepted (image : list Z) (reinstall downgrade : bool) : Prop :=
  exists running, oenv_app_description env = Some running /\
    magic_word (image_candidate image) = ESP_APP_DESC_MAGIC_WORD /\
    ota_version_policy_decide (Some OTA_EXPECTED_PROJECT) (Some (ad_version running)) (secure_version running)
      (Some (ad_project_name (image_candidate image))) (Some (ad_version (image_candidate image)))
      (secure_version (image_candidate image)) reinstall downgrade = OTA_VERSION_ACCEPT.

(** An open update of the session: the image so far is written. *)
Definition started_with (image : list Z) (s : gateway_ota_session) (tr : list ota_effect) : Prop :=
  written (ota_handle s) tr = Some image /\ opened (ota_handle s) tr = Some (os_partition s, expected_size s) /\
  (REQUIRED <= length image)%nat /\ image_accepted image (allow_reinstall s) (allow_downgrade s) /\
  os_candidate s = image_candidate image.

(** A session of which every write has succeeded. *)
Record upload (s : gateway_ota_session) (tr : list ota_effect) : Prop := {
  up_received : length (hash_op s) = received s;
  up_bound : (received s <= expected_size s)%nat;
  up_waiting : ota_started s = false -> prefix s = hash_op s /\ (length (prefix s) < REQUIRED)%nat;
  up_started : ota_started s = true -> started_with (hash_op s) s tr;
}.

(** The part of a session that the request determines. *)
Definition request_of (s : gateway_ota_session) : esp_partition_t * nat * list Z * bool * bool :=
  (os_partition s, expected_size s, expected_hash s, allow_reinstall s, allow_downgrade s).

Lemma decision_ok d : decision_error d = ESP_OK -> d = OTA_VERSION_ACCEPT.
Proof. by destruct d. Qed.

Lemma candidate_take image : prefix_candidate env (take REQUIRED image) = prefix_candidate env image.
Proof.
  unfold prefix_candidate, OTA_PREFIX_REQUIRED. rewrite skipn_firstn_comm, firstn_firstn. f_equal. f_equal. lia.
Qed.

Definition validated (s : gateway_ota_session) (r : gateway_ota_session * esp_err_t) (tr : list ota_effect) : Prop :=
  r.2 = ESP_OK -> ota_started r.1 = true /\ request_of r.1 = request_of s /\ hash_op r.1 = hash_op s /\
    received r.1 = received s /\ os_last_error r.1 = os_last_error s /\ prefix r.1 = prefix s /\
    started_with (prefix s) r.1 tr.

Lemma validate_start_spec s B :
  length (prefix s) = REQUIRED ->
  triple (fun o => boots (ota_trace o) = B) (validate_prefix_and_start env s)
    (fun r o => boots (ota_trace o) = B /\ validated s r (ota_trace o)).
Proof.
  intros Hp o Ho. unfold validate_prefix_and_start.
  destruct (Z.eqb_spec (magic_word (prefix_candidate env (prefix s))) ESP_APP_DESC_MAGIC_WORD) as [Hm|]; cbn [negb];
    [|by split].
  destruct (oenv_app_description env) as [running|] eqn:Hr; [|by split].
  case_bool_decide as Hd; [by split|]. apply decision_ok in Hd.
  unfold mbind, state_bind, esp_ota_begin. set (h := oenv_handle env (ota_trace o)).
  case_bool_decide as Hb; [by split|]. unfold esp_ota_write.
  case_bool_decide as Hw; [by split|].
  unfold locked, when, on_diag, modify, gets, mbind, state_bind, mret, state_ret.
  destruct (ota_lock _); cbn [fst snd]; (split; [exact Ho|]); intros _; cbn [fst snd];
    (split_and!; [reflexivity..|]); unfold started_with; cbn -[written opened] in Hw, Hb |- *; rewrite Hw, Hb;
    cbn [written opened]; rewrite Z.eqb_refl, bool_decide_eq_true_2 by done; cbn;
    (split_and!; [done|done|lia| |]); unfold image_accepted, image_candidate; rewrite candidate_take; try done;
    by exists running.
Qed.

(** After the bytes that go to the prefix. *)
Definition consumed (s : gateway_ota_session) (data : list Z) (r : gateway_ota_session * nat * esp_err_t)
    (tr : list ota_effect) : Prop :=
  let '(s', n, err) := r in
  err = ESP_OK -> request_of s' = request_of s /\ hash_op s' = hash_op s ++ data /\ received s' = received s /\
    (ota_started s' = false -> prefix s' = hash_op s ++ data /\ (length (prefix s') < REQUIRED)%nat /\ n = length data) /\
    (ota_started s' = true -> (n <= length data)%nat /\ started_with (hash_op s ++ take n data) s' tr).

Lemma consume_spec s data B :
  triple (fun o => boots (ota_trace o) = B /\ upload s (ota_trace o))
    (consume_prefix env (s <| hash_op := hash_op s ++ data |>) data)
    (fun r o => boots (ota_trace o) = B /\ consumed s data r (ota_trace o)).
Proof.
  unfold consume_prefix. intros o [HB Hu]. set (s0 := s <| hash_op := _ |>).
  change (ota_started s0) with (ota_started s). change (prefix s0) with (prefix s).
  destruct (ota_started s) eqn:Hs.
  { split; [done|]. intros _. cbn. split_and!; [done|done|done|by rewrite Hs|]. intros _.
    split; [lia|]. rewrite app_nil_r. by apply (up_started _ _ Hu). }
  destruct (up_waiting _ _ Hu Hs) as [Hp Hl]. set (need := (REQUIRED - length (prefix s))%nat).
  set (copy := if (length data <? need)%nat then length data else need).
  assert (copy = Nat.min (length data) need) as Hcopy by (unfold copy; destruct (Nat.ltb_spec (length data) need); lia).
  set (s1 := _ <| prefix := _ |>).
  assert (length (prefix s1) = (length (prefix s) + copy)%nat) as Hlen.
  { unfold s1. cbn. rewrite length_app, length_take. lia. }
  destruct (Nat.eqb_spec (length (prefix s1)) REQUIRED) as [He|He].
  - pose proof (validate_start_spec s1 B He o HB) as [HB' Hv]. unfold mbind, state_bind.
    destruct (validate_prefix_and_start env s1 o) as [o' [s' err]]. cbn [fst snd mret state_ret] in *.
    split; [exact HB'|]. intros Herr. destruct (Hv Herr) as (Hst & Hrq & Hh & Hr & _ & _ & Hsw).
    cbn [fst] in *.
    split_and!; [exact Hrq|exact Hh|exact Hr|by rewrite Hst|]. intros _. split; [lia|]. by rewrite <- Hp.
  - split; [exact HB|]. intros _. assert (ota_started s1 = false) as Hs1 by exact Hs.
    split_and!; [done|done|done| |by rewrite Hs1]. intros _.
    assert (copy = length data) as Hc by lia. unfold s1. cbn. rewrite Hc, firstn_all, Hp. split; [done|]. split; [|done].
    rewrite length_app in *. rewrite <- Hp. lia.
Qed.

Lemma candidate_more image more :
  (REQUIRED <= length image)%nat -> image_candidate (image ++ more) = image_candidate image.
Proof. intros H. unfold image_candidate. by rewrite take_app_le. Qed.

Lemma started_more image more s tr :
  started_with image s tr -> started_with (image ++ more) s (OE_write (ota_handle s) more ESP_OK :: tr).
Proof.
  intros (S1 & S2 & S3 & (running & S4 & S5 & S6) & S7). unfold started_with, image_accepted.
  cbn [written opened]. rewrite Z.eqb_refl, bool_decide_eq_true_2, S1 by done. rewrite candidate_more by done.
  split_and!; [done|done|rewrite length_app; lia|by exists running|done].
Qed.

Definition written_to (s : gateway_ota_session) (data : list Z) (r : option gateway_ota_session * esp_err_t)
    (tr : list ota_effect) : Prop :=
  r.2 = ESP_OK -> exists s', r.1 = Some s' /\ upload s' tr /\ hash_op s' = hash_op s ++ data /\
    request_of s' = request_of s.

Lemma write_spec s data B :
  triple (fun o => boots (ota_trace o) = B /\ upload s (ota_trace o)) (gateway_ota_write env (Some s) (Some data))
    (fun r o => boots (ota_trace o) = B /\ written_to s data r (ota_trace o)).
Proof.
  intros o [HB Hu]. unfold gateway_ota_write.
  destruct (length data =? 0)%nat; [by split|].
  destruct (Nat.ltb_spec (expected_size s) (received s)); [by split|].
  destruct (Nat.ltb_spec (expected_size s - received s) (length data)); cbn [orb]; [by split|].
  unfold ask, mbind, state_bind. destruct (oenv_crypto env (ota_trace o)); cbn [negb]; [|by split].
  set (o1 := o <| ota_trace := _ |>).
  assert (upload s (ota_trace o1)) as Hu1 by (destruct Hu as [? ? ? ?]; by split).
  pose proof (consume_spec s data B o1 (conj HB Hu1)) as [HB2 Hc].
  destruct (consume_prefix _ _ _ o1) as [o2 [[s2 n] err]]. cbn [fst snd] in *.
  case_bool_decide as He; [split; [exact HB2|]; intros E; cbn in E; congruence|].
  subst err. destruct (Hc eq_refl) as (Hrq & Hh & Hr & Hw & Hs).
  assert (length (hash_op s2) = (received s2 + length data)%nat) as Hlen.
  { rewrite Hh, length_app, Hr, (up_received _ _ Hu). done. }
  assert (expected_size s2 = expected_size s) as Hexp by by injection Hrq.
  set (s3 := s2 <| received := (received s2 + length data)%nat |>).
  assert (forall tr, (ota_started s2 = true -> started_with (hash_op s2) s2 tr) -> written_to s data (Some s3, ESP_OK) tr)
    as Hdone.
  { intros tr Hst _. exists s3. split; [done|]. split; [|by split].
    split; [exact Hlen|unfold s3; cbn; lia| |exact Hst]. intros E. destruct (Hw E) as (Hp & Hl & _).
    split; [|exact Hl]. unfold s3. cbn. by rewrite Hh. }
  destruct (ota_started s2) eqn:Hst; cbn [andb].
  2: { split; [exact HB2|]. by apply Hdone. }
  destruct (Hs eq_refl) as [Hn Hsw]. destruct (Nat.ltb_spec n (length data)) as [Hlt|Hge].
  - unfold esp_ota_write. case_bool_decide as Hw2; [split; [exact HB2|]; intros E; cbn in E; congruence|].
    split; [exact HB2|]. apply Hdone. intros _. cbn -[started_with]. rewrite Hw2.
    apply (started_more _ (drop n data)) in Hsw. rewrite <- app_assoc, take_drop, <- Hh in Hsw. exact Hsw.
  - split; [exact HB2|]. apply Hdone. intros _. rewrite take_ge, <- Hh in Hsw by lia. exact Hsw.
Qed.

(** The crypto library writes bytes. *)
Hypothesis sha256_bytes : forall data, bytes (oenv_sha256 env data).

(** The image of the session is complete, written, and the one of the request. *)
Definition image_verified (s : gateway_ota_session) (tr : list ota_effect) : Prop :=
  length (hash_op s) = expected_size s /\ oenv_sha256 env (hash_op s) = expected_hash s /\
  started_with (hash_op s) s tr.

Lemma started_quiet image s tr o : started_with image s tr -> quiet_since tr o -> started_with image s (ota_trace o).
Proof. intros H Hq. unfold started_with. destruct (quiet_reads tr o (ota_handle s) Hq) as (-> & -> & _). exact H. Qed.

Lemma finish_checks_spec s B :
  hash_ok (expected_hash s) ->
  triple (fun o => boots (ota_trace o) = B /\ upload s (ota_trace o)) (finish_checks env s)
    (fun r o => let '(s', err, checked) := r in
       (err <> ESP_OK /\ boots (ota_trace o) = B) \/
       (err = ESP_OK /\ checked <> None /\ exists tr, ota_trace o = OE_set_boot (os_partition s) ESP_OK :: tr /\
          boots tr = B /\ image_verified s tr)).
Proof.
  intros [Hel Heb] o [HB Hu]. unfold finish_checks.
  destruct (Nat.eqb_spec (received s) (expected_size s)) as [Hr|]; cbn [negb orb]; [|by left].
  destruct (ota_started s) eqn:Hst; cbn [negb]; [|by left].
  unfold ask, mbind, state_bind. destruct (oenv_crypto env (ota_trace o)); cbn [negb orb]; [|by left].
  destruct (Nat.eqb_spec (length (oenv_sha256 env (hash_op s))) 32) as [Hl|]; cbn [negb]; [|by left].
  change (expected_hash (s <| hash_active := false |>)) with (expected_hash s).
  rewrite (constant_equal_spec 32) by (done || apply sha256_bytes). case_bool_decide as Hh; cbn [negb]; [|by left].
  unfold esp_ota_end. case_bool_decide as He; [by left|].
  set (o2 := _ <| ota_trace := OE_end _ _ :: _ |>).
  assert (quiet_since (ota_trace o) o2) as Hq.
  { apply quiet_add; [apply quiet_add; [apply quiet_refl|by left]|]. right; right; left. by eexists _, _. }
  destruct (oenv_description env (ota_trace o2) _) as [e w]. case_bool_decide as He2; [by left|].
  destruct (_ || _); [by left|]. unfold esp_ota_set_boot_partition. set (o3 := o2 <| ota_trace := _ |>).
  assert (quiet_since (ota_trace o) o3) as Hq3 by (apply quiet_add; [exact Hq|by left]).
  destruct (decide (oenv_err env (ota_trace o3) = ESP_OK)) as [Hb|Hb].
  2: { left. split; [exact Hb|]. cbn -[boots]. cbn [boots]. rewrite bool_decide_eq_false_2 by exact Hb. exact HB. }
  right. split; [exact Hb|]. split; [done|]. exists (ota_trace o3). split; [by rewrite <- Hb|]. split; [exact HB|].
  split; [by rewrite (up_received _ _ Hu)|]. split; [exact Hh|].
  exact (started_quiet _ _ _ _ (up_started _ _ Hu Hst) Hq3).
Qed.

(** The image is on its partition, which is the only one that was chosen. *)
Definition installed (s : gateway_ota_session) (B : list esp_partition_t) (o : ota) : Prop :=
  boots (ota_trace o) = os_partition s :: B /\ image_verified s (ota_trace o).

Lemma finish_spec s B :
  hash_ok (expected_hash s) ->
  triple (fun o => boots (ota_trace o) = B /\ upload s (ota_trace o)) (gateway_ota_finish env (Some s) true)
    (fun r o => match r with
                | inr _ => installed s B o
                | inl err => err <> ESP_OK /\ boots (ota_trace o) = B
                end).
Proof.
  intros Hh. unfold gateway_ota_finish. cbn [negb]. eapply triple_bind; [by apply finish_checks_spec|].
  intros [[s' err] checked] o1 Hc.
  set (outcome := match checked with
                  | Some (w, d) => if bool_decide (err = ESP_OK) then inr (finish_result s' w d) else inl err
                  | None => inl err
                  end).
  enough (triple (quiet_since (ota_trace o1))
    (on_diag (fun d => d <| ota_last_error := err |>);;
     (if bool_decide (err = ESP_OK)
      then on_diag (fun d => d <| upload_successes := u32 (upload_successes d + 1) |>
             <| last_candidate_version := copy_text (last_candidate_version d) (ad_version (os_candidate s')) |>)
      else rejection_or_failure err);;
     session_release (Some s') (bool_decide (err <> ESP_OK));; mret outcome)
    (fun r o => r = outcome /\ quiet_since (ota_trace o1) o)) as Hrest.
  { pose proof (Hrest o1 (quiet_refl o1)) as [Hr Hq]. fold outcome. clear Hrest.
    match goal with |- context [?run o1] => destruct (run o1) as [o' r] end. cbn [fst snd] in *. subst r outcome.
    destruct (quiet_reads _ _ 0 Hq) as (_ & _ & HB').
    destruct Hc as [[He HB]|(-> & Hck & tr & Htr & HB & Hv)].
    - rewrite HB in HB'. destruct checked as [[w d]|]; [rewrite bool_decide_eq_false_2 by done|]; by split.
    - destruct checked as [[w d]|]; [|done]. rewrite bool_decide_eq_true_2 by done. split.
      + rewrite HB', Htr. cbn [boots]. by rewrite bool_decide_eq_true_2, HB.
      + destruct Hv as (H1 & H2 & H3). split; [done|]. split; [done|]. apply (started_quiet _ _ (ota_trace o1)); [|done].
        rewrite Htr. exact H3. }
  apply (triple_bind _ _ (fun _ => quiet_since (ota_trace o1))); [apply quiet_diag|intros _].
  apply (triple_bind _ _ (fun _ => quiet_since (ota_trace o1))); [case_bool_decide; auto with state|intros _].
  apply (triple_bind _ _ (fun _ => quiet_since (ota_trace o1))); [apply quiet_release|intros _].
  apply triple_ret. by intros.
Qed.

(** ** The start of a session *)

Lemma hex_decode_length n text out :
  (length text <= 2 * n)%nat -> hex_decode_loop text = Some out -> length out = (length text / 2)%nat /\ bytes out.
Proof.
  revert text out. induction n as [|n IH]; intros text out Hn.
  - destruct text; [|cbn in Hn; lia]. intros [= <-]. split; [done|constructor].
  - destruct text as [|h [|l text]]; [intros [= <-]; split; [done|constructor]..|]. cbn [hex_decode_loop length] in *.
    destruct (_ || _); [done|]. destruct (hex_decode_loop text) as [o|] eqn:E; [|done]. intros [= <-].
    destruct (IH text o ltac:(lia) E) as [Hl Hb]. split.
    + cbn [length]. rewrite Hl. change (S (S (length text))) with (1 * 2 + length text)%nat.
      by rewrite Nat.div_add_l.
    + constructor; [|done]. unfold is_byte, u8. apply Z.mod_pos_bound. lia.
Qed.

Lemma hex_decode_ok text out : hex_decode_32 (Some text) = Some out -> hash_ok out.
Proof.
  unfold hex_decode_32. destruct (Nat.eqb_spec (strlen text) GATEWAY_OTA_SHA256_HEX_LEN) as [Hl|]; [|done]. intros E.
  unfold strlen in Hl. destruct (hex_decode_length (length (c_str text)) (c_str text) out ltac:(lia) E) as [Hn Hb]. split; [|done].
  rewrite Hn, Hl. done.
Qed.

(** The sizes of the headers are not all 0. *)
Hypothesis prefix_required : (0 < REQUIRED)%nat.

(** The session of a request. *)
Definition begun (rq : gateway_ota_request_t) (s : gateway_ota_session) (tr : list ota_effect) : Prop :=
  upload s tr /\ hash_op s = [] /\ expected_size s = image_size rq /\ hex_decode_32 (sha256_hex rq) = Some (expected_hash s) /\
  allow_reinstall s = rq_allow_reinstall rq /\ allow_downgrade s = rq_allow_downgrade rq.

Lemma begin_spec rq out B :
  triple (fun o => boots (ota_trace o) = B) (gateway_ota_begin env (Some rq) out)
    (fun r o => boots (ota_trace o) = B /\ match r with inr s => begun rq s (ota_trace o) | inl err => err <> ESP_OK end).
Proof.
  intros o HB. split.
  { pose proof (quiet_begin env (ota_trace o) (Some rq) out o (quiet_refl o)) as Hq.
    destruct (quiet_reads _ _ 0 Hq) as (_ & _ & ->). exact HB. }
  enough (match (gateway_ota_begin env (Some rq) out o).2 with inr s => forall tr, begun rq s tr | inl err => err <> ESP_OK end)
    as Hr by (destruct (gateway_ota_begin env (Some rq) out o) as [o' [err|s]]; [exact Hr|apply Hr]).
    unfold gateway_ota_begin, failure_counted, gets, ask, on_diag, modify, mbind, state_bind.
    destruct (_ || _); [done|]. destruct (hex_decode_32 (sha256_hex rq)) as [hash|] eqn:Eh; [|done].
    destruct (running_pending env o) as [o1 pending]. destruct pending; [done|].
    destruct (oenv_next_update env (ota_trace o1)) as [partition|]; [|done].
    destruct (_ || _)%bool eqn:Es; [done|]. destruct (update_in_progress _); [done|].
    destruct (negb _); [done|].
    destruct (negb _); [match goal with |- context [session_release ?s ?b ?x] => by destruct (session_release s b x) end|].
    cbn [snd mret state_ret]. intros tr. unfold begun. cbn. split; [|by rewrite Eh].
    split; cbn; [done|lia|by intros|done].
Qed.

End Session.

(** ** The one update that may run *)

Section Slot.

Variable env : ota_environment.

(** The service has its lock, and an update is [b]. *)
Definition slot (b : bool) (o : ota) : Prop := ota_lock o = true /\ update_in_progress (ota_diag o) = b.

Lemma slot_diag b f :
  (forall d, update_in_progress (f d) = update_in_progress d) -> keeps (slot b) (on_diag f).
Proof. intros Hf o [Hl Hb]. split; [done|]. cbn. by rewrite Hf. Qed.

Lemma slot_ask b {A} (answer : list ota_effect -> A) : keeps (slot b) (ask answer).
Proof. intros o Ho. exact Ho. Qed.

Lemma slot_log b e : keeps (slot b) (ota_log e).
Proof. intros o Ho. exact Ho. Qed.

Lemma slot_begin_call b partition size : keeps (slot b) (esp_ota_begin env partition size).
Proof. intros o Ho. exact Ho. Qed.
Lemma slot_write_call b handle data : keeps (slot b) (esp_ota_write env handle data).
Proof. intros o Ho. exact Ho. Qed.
Lemma slot_end_call b handle : keeps (slot b) (esp_ota_end env handle).
Proof. intros o Ho. exact Ho. Qed.
Lemma slot_boot_call b partition : keeps (slot b) (esp_ota_set_boot_partition env partition).
Proof. intros o Ho. exact Ho. Qed.

Hint Resolve slot_ask slot_log slot_begin_call slot_write_call slot_end_call slot_boot_call : state.
Hint Extern 1 (triple _ (on_diag _) _) => apply slot_diag; intros ?; repeat case_match; reflexivity : state.

Lemma slot_locked b c : keeps (slot b) c -> keeps (slot b) (locked c).
Proof. intros Hc. unfold locked. keeps_tac. Qed.

Hint Resolve slot_locked : state.

Lemma slot_write b session data : keeps (slot b) (gateway_ota_write env session data).
Proof.
  assert (forall s, keeps (slot b) (validate_prefix_and_start env s)) as Hv.
  { intros s. unfold validate_prefix_and_start. cbv zeta. keeps_tac. }
  unfold gateway_ota_write, consume_prefix. cbv zeta. keeps_tac.
Qed.

Lemma slot_release b s abort : triple (slot b) (session_release (Some s) abort) (fun _ => slot false).
Proof.
  unfold session_release. eapply triple_bind; [apply keeps_when; intros _; apply slot_log|]. intros _ o [Hl _].
  unfold locked, when, gets, on_diag, modify, mbind, state_bind. rewrite Hl. by split.
Qed.

Lemma slot_pending b : keeps (slot b) (running_pending env).
Proof. unfold running_pending. keeps_tac. Qed.

Lemma slot_rejection b err : keeps (slot b) (rejection_or_failure err).
Proof. apply slot_diag. intros d. by destruct (is_rejection err). Qed.

Hint Resolve slot_pending slot_rejection slot_write : state.

Lemma slot_begin rq out :
  triple (slot false) (gateway_ota_begin env rq out) (fun r => slot (match r with inl _ => false | inr _ => true end)).
Proof.
  unfold gateway_ota_begin. eapply triple_bind; [apply keeps_gets|]. intros initialized.
  assert (forall err : esp_err_t, triple (slot false) (mret (inl err) : State ota (esp_err_t + gateway_ota_session))
    (fun r => slot (match r with inl _ => false | inr _ => true end))) as Hret by (intros err; by apply triple_ret).
  destruct rq as [rq|]; [|apply Hret]. destruct (_ || _); [apply Hret|].
  destruct (hex_decode_32 _) as [hash|]; [|apply Hret]. eapply triple_bind; [apply slot_pending|]. intros [|]; [apply Hret|].
  eapply triple_bind; [apply slot_ask|]. intros [partition|]; [|apply Hret]. destruct (_ || _); [apply Hret|].
  eapply triple_bind; [apply keeps_gets|]. intros diag. destruct (update_in_progress diag); [apply Hret|].
  apply (triple_bind _ _ (fun _ => slot true)); [intros o [Hl _]; by split|]. intros [].
  eapply triple_bind; [apply slot_ask|]. intros allocated. destruct (negb allocated).
  - apply (triple_bind _ _ (fun _ => slot false)); [intros o [Hl _]; by split|]. intros [].
    eapply triple_bind; [apply slot_diag; done|]. intros []. apply Hret.
  - cbv zeta. eapply triple_bind; [apply slot_ask|]. intros setup. destruct (negb setup); [|by apply triple_ret].
    eapply triple_bind; [apply slot_diag; done|]. intros [].
    eapply triple_bind; [apply slot_release|]. intros []. apply Hret.
Qed.

Lemma slot_abort b s : triple (slot b) (gateway_ota_abort (Some s)) (fun _ => slot false).
Proof.
  unfold gateway_ota_abort. cbv zeta. eapply triple_bind; [apply slot_diag; done|]. intros [].
  eapply triple_bind; [apply slot_rejection|]. intros []. apply slot_release.
Qed.

Lemma slot_finish b s : triple (slot b) (gateway_ota_finish env (Some s) true) (fun _ => slot false).
Proof.
  assert (keeps (slot b) (finish_checks env s)) as Hc by (unfold finish_checks; cbv zeta; keeps_tac).
  unfold gateway_ota_finish. cbn [negb]. eapply triple_bind; [exact Hc|]. intros [[s' err] checked].
  eapply triple_bind; [apply slot_diag; done|]. intros [].
  apply (triple_bind _ _ (fun _ => slot b)); [case_bool_decide; [apply slot_diag; done|apply slot_rejection]|]. intros [].
  eapply triple_bind; [apply slot_release|]. intros []. by apply triple_ret.
Qed.

End Slot.

