(* ===== verification/ApiServer.v ===== *)
(** * The HTTP interface: requests and messages (components/api_server/api_server.c)

    The handlers are a state monad over [gateway], the components they work on
    with the trace of what was sent, newest first.  What the web server, the
    heap and the other tasks answer is an [api_environment]; every question to
    it is in the trace.  Fields that a failed allocation drops from a reply, and
    wiping and freeing memory, are left out. *)

From Stdlib Require Import Ascii String.
From Stdlib Require Import ZifyBool ZifyNat.
From stdpp Require Import base numbers list strings.
From S2P Require Import Prelude.
From S2P Require Import StateMonad.
From S2P Require Import PduEncode.
From S2P Require Import AtEngine.
From S2P Require Import SmsMessage.
From S2P Require Import Nvs.
From S2P Require Import SmsStore.
From S2P Require Import GatewaySecurity.
From S2P Require Import ApiIdempotency.
From S2P Require Import SmsService.
From S2P Require Import ModemManager.
From S2P Require Import ApiCommon.
From S2P Require Import RateLimiter.
From S2P Require Import Http.
From S2P Require Import MqttConfig.
From S2P Require Import OtaService.

Open Scope Z_scope.

Definition API_BODY_MAX : nat := Z.to_nat 4608.
Definition API_AUTH_MAX : nat := 160.
Definition API_QUERY_MAX : nat := 256.
Definition API_LIST_MAX : Z := 25.

(** ** State and environment *)

(** The pieces of the list of messages. *)
Inductive list_chunk :=
  | ChunkOpen
  | ChunkComma
  | ChunkMessage (value : json)
  | ChunkTail (cursor : Z)
  | ChunkEnd.

Inductive api_effect :=
  | AE_asked
  | AE_header (name value : list Z)
  | AE_reply (reply : http_reply) (err : esp_err_t)
  | AE_chunk (chunk : list_chunk) (err : esp_err_t)
  | AE_send (recipient text : list Z) (result : esp_err_t + Z)
  | AE_at (request : at_request_t) (err : esp_err_t) (response : at_response_t)
  | AE_reconfigure (err : esp_err_t)
  | AE_reboot (reason : list Z).

Record gateway (N : Type) := mk_gateway {
  gw_request_limiter : gateway_rate_limiter_t;
  gw_sms_limiter : gateway_rate_limiter_t;
  gw_ota_limiter : gateway_rate_limiter_t;
  gw_security : security N;
  gw_idempotency : @idem_state N;
  gw_settings : settings N;
  gw_sms : @service N;
  gw_manager : manager;
  gw_ota : ota;
  gw_trace : list api_effect;
}.

Arguments mk_gateway {N}.
Arguments gw_request_limiter {N}.
Arguments gw_sms_limiter {N}.
Arguments gw_ota_limiter {N}.
Arguments gw_security {N}.
Arguments gw_idempotency {N}.
Arguments gw_settings {N}.
Arguments gw_sms {N}.
Arguments gw_manager {N}.
Arguments gw_ota {N}.
Arguments gw_trace {N}.

#[export] Instance eta_gateway {N} : Eta (gateway N) := fun g =>
  mk_gateway (gw_request_limiter g) (gw_sms_limiter g) (gw_ota_limiter g) (gw_security g) (gw_idempotency g)
    (gw_settings g) (gw_sms g) (gw_manager g) (gw_ota g) (gw_trace g).

(** [aenv_mqtt]: [connected] and [last_mqtt_error] of
    [mqtt_service_get_diagnostics]. *)
Record api_environment (N : Type) := mk_api_environment {
  aenv_now : list api_effect -> Z;
  aenv_alloc : list api_effect -> bool;
  aenv_taken : list api_effect -> bool;
  aenv_send : list api_effect -> esp_err_t;
  aenv_parse : list Z -> option json;
  aenv_psa : list Z -> option (list Z);
  aenv_sms : @environment N;
  aenv_ota : ota_environment;
  aenv_at : list api_effect -> at_request_t -> esp_err_t * at_response_t;
  aenv_reconfigure : list api_effect -> esp_err_t;
  aenv_mqtt : list api_effect -> option (bool * Z);
  aenv_task : list api_effect -> bool;
}.

Arguments mk_api_environment {N}.
Arguments aenv_now {N}.
Arguments aenv_alloc {N}.
Arguments aenv_taken {N}.
Arguments aenv_send {N}.
Arguments aenv_parse {N}.
Arguments aenv_psa {N}.
Arguments aenv_sms {N}.
Arguments aenv_ota {N}.
Arguments aenv_at {N}.
Arguments aenv_reconfigure {N}.
Arguments aenv_mqtt {N}.
Arguments aenv_task {N}.

Definition strtoul_value (s : list Z) : Z := match strtoul (c_str s) with Some (v, _) => v | None => 0 end.

(** ** JSON of a message *)

Definition json_text (value : list Z) : json := JString (c_str value).

(** [add_json_string] *)
Definition json_or_null (value : list Z) : json := match c_str value with [] => JNull | s => JString s end.

Definition message_json (m : sms_message_t) : json := JObject (
  [(str "id", JInt (id m));
   (str "direction", JString (str (if bool_decide (direction m = SMS_DIRECTION_INBOUND) then "inbound" else "outbound")));
   (str "status", JString (sms_message_status_name (status m)))]
  ++ (if bool_decide (direction m = SMS_DIRECTION_INBOUND)
      then [(str "from", json_or_null (sender m)); (str "to", JNull)]
      else [(str "from", JNull); (str "to", json_or_null (recipient m))])
  ++ [(str "text", if bool_decide (status m = SMS_MESSAGE_UNSUPPORTED) then JString [] else json_text (text m));
      (str "service_center_timestamp", json_or_null (service_center_timestamp m));
      (str "delivery_report_requested", JBool (delivery_report_requested m));
      (str "segment_count", JInt (segment_count m));
      (str "send_attempts", JInt (send_attempts m));
      (str "last_modem_error", if 0 <=? last_modem_error m then JInt (last_modem_error m) else JNull)]).

(** The identifier, and whether a retry is asked for. *)
Definition parse_message_id (uri : list Z) : option (Z * bool) :=
  let prefix := str "/api/v1/messages/" in
  let uri := c_str uri in
  if negb (bool_decide (take (length prefix) uri = prefix)) then None
  else match strtoul (drop (length prefix) uri) with
       | None => None
       | Some (value, end_) =>
           if (value =? 0) || (UINT32_MAX <? value) then None
           else
             let retry := bool_decide (end_ = str "/retry") in
             if negb (bool_decide (end_ = [])) && negb retry then None else Some (value, retry)
       end.

Section Server.

Context {N : Type} `{Nvs N}.

Abbreviation gateway := (gateway N).
Abbreviation M := (State gateway).

Variable env : api_environment N.

Definition api_log (e : api_effect) : M unit := modify (fun g => g <| gw_trace := e :: gw_trace g |>).

Definition api_ask {A} (answer : list api_effect -> A) : M A := fun g =>
  (g <| gw_trace := AE_asked :: gw_trace g |>, answer (gw_trace g)).

Definition allocated : M bool := api_ask (aenv_alloc env).

Definition on_idempotency {A} : State (@idem_state N) A -> M A :=
  zoom gw_idempotency (fun t g => g <| gw_idempotency := t |>).
Definition on_settings {A} : State (settings N) A -> M A := zoom gw_settings (fun t g => g <| gw_settings := t |>).
Definition on_sms {A} : State (@service N) A -> M A := zoom gw_sms (fun t g => g <| gw_sms := t |>).
Definition on_manager {A} : State manager A -> M A := zoom gw_manager (fun t g => g <| gw_manager := t |>).
Definition on_ota {A} : State ota A -> M A := zoom gw_ota (fun t g => g <| gw_ota := t |>).

(** ** Replies *)

Definition httpd_resp_send (reply : http_reply) : M esp_err_t := fun g =>
  let err := aenv_send env (gw_trace g) in
  (g <| gw_trace := AE_reply reply err :: gw_trace g |>, if bool_decide (err = ESP_OK) then ESP_OK else ESP_FAIL).

Definition send_json (status : Z) (value : json) : M esp_err_t :=
  encoded ← allocated;
  if encoded : bool then httpd_resp_send (Json status value) else mret ESP_ERR_NO_MEM.

Definition problem (status : Z) (type title : list Z) : M esp_err_t :=
  created ← allocated;
  if negb created then mret ESP_ERR_NO_MEM
  else
    encoded ← allocated;
    if encoded : bool then httpd_resp_send (Problem status type title) else mret ESP_ERR_NO_MEM.

Definition refuse (status : Z) (type title : string) : M esp_err_t := problem status (str type) (str title).

Definition set_header (name value : list Z) : M unit := api_log (AE_header name value).

(** ** What every handler checks *)

Definition limited (limiter : gateway -> gateway_rate_limiter_t)
    (store : gateway_rate_limiter_t -> gateway -> gateway) : M bool :=
  now ← api_ask (aenv_now env);
  zoom limiter store (fun l => gateway_rate_limiter_allow l (double_of_Z 1) now).

Definition request_allowed (sms : bool) : M bool :=
  ok ← limited gw_request_limiter (fun l g => g <| gw_request_limiter := l |>);
  if negb ok then refuse 429 "urn:sms-gateway:rate-limit" "Too Many Requests";; mret false
  else if negb sms then mret true
  else
    ok ← limited gw_sms_limiter (fun l g => g <| gw_sms_limiter := l |>);
    if negb ok then refuse 429 "urn:sms-gateway:sms-rate-limit" "Too Many Requests";; mret false
    else mret true.

Definition bearer_prefix : list Z := str "Bearer ".

Definition bearer_valid (header : list Z) (sec : security N) : bool :=
  bool_decide (take (length bearer_prefix) (c_str header) = bearer_prefix)
  && gateway_security_validate_bearer (aenv_psa env) (Some (drop (length bearer_prefix) (c_str header))) sec.

(** The header when it is there and fits. *)
Definition header_of (req : http_request) (name : list Z) (min max : nat) : option (list Z) :=
  let length := hdr_value_len req name in
  if (length <? min)%nat || (max <=? length)%nat then None else hdr_value_str req name max.

Definition authorized (req : http_request) : M bool :=
  sec ← gets gw_security;
  if match header_of req (str "Authorization") 8 API_AUTH_MAX with
     | Some header => bearer_valid header sec
     | None => false
     end
  then mret true
  else
    set_header (str "WWW-Authenticate") (str "Bearer");;
    refuse 401 "urn:sms-gateway:unauthorized" "Unauthorized";;
    mret false.

(** [if ( !authorized(req) || !request_allowed(req, sms)) return ESP_OK;] *)
Definition admitted (req : http_request) (sms : bool) (handler : M esp_err_t) : M esp_err_t :=
  ok ← authorized req;
  if negb ok then mret ESP_OK
  else ok ← request_allowed sms; if negb ok then mret ESP_OK else handler.

(** The loop: [k] calls were made, [remaining] bytes are missing. *)
Fixpoint read_body_loop (req : http_request) (fuel k remaining : nat) (body : list Z) : option (esp_err_t + list Z) :=
  if (remaining =? 0)%nat then Some (inr body)
  else match fuel with
  | O => None
  | S fuel' =>
      match req_recv req k remaining with
      | Received (c :: data) =>
          read_body_loop req fuel' (S k) (remaining - length (c :: data)) (body ++ c :: data)
      | _ => Some (inl ESP_FAIL)
      end
  end.

Definition read_body (req : http_request) : M (esp_err_t + list Z) :=
  if (content_len req =? 0)%nat || (API_BODY_MAX <? content_len req)%nat then mret (inl ESP_ERR_INVALID_SIZE)
  else
    ok ← allocated;
    if negb ok then mret (inl ESP_ERR_NO_MEM)
    else mret (default (inl ESP_FAIL) (read_body_loop req (content_len req) 0 (content_len req) [])).

(** A body that is an object with these fields and no other, or [None] for the
    other cases in which [cJSON_GetObjectItemCaseSensitive] is not called. *)
Definition object_with (allowed : list (list Z)) (body : list Z) : option json :=
  match aenv_parse env (c_str body) with
  | Some j => if json_has_only_fields j allowed then Some j else None
  | None => None
  end.

Definition field_of (j : option json) (name : list Z) : option json :=
  match j with Some j => cJSON_GetObjectItemCaseSensitive j name | None => None end.

(** ** Messages *)

Definition modem_core_sms_get (id : Z) : M (esp_err_t + sms_message_t) := gets (fun g => sms_service_get id (gw_sms g)).

Definition modem_core_sms_list (after_id : Z) (max_records : nat) : M (esp_err_t + list sms_message_t) :=
  gets (fun g => sms_service_list after_id max_records (gw_sms g)).

Definition modem_core_sms_send (recipient text : list Z) (report : bool) : M (esp_err_t + Z) :=
  result ← on_sms (sms_service_send (aenv_sms env) (Some recipient) (Some text) report);
  api_log (AE_send recipient text result);;
  mret result.

Definition send_message_record (status : Z) (m : sms_message_t) : M esp_err_t :=
  created ← allocated;
  if negb created then mret ESP_ERR_NO_MEM else send_json status (message_json m).

(** [after_id], [limit] and [direction], or the problem. *)
Definition list_query (req : http_request) : string * string + Z * Z * option sms_direction_t :=
  match (if (url_query_len req =? 0)%nat then None else url_query_str req API_QUERY_MAX) with
  | None => inr (0, 10, None)
  | Some query =>
      let value name := query_key_value req query (str name) 32 in
      let after_id := match value "after_id" with Some v => strtoul_value v | None => 0 end in
      let limit := match value "limit" with Some v => strtoul_value v | None => 10 end in
      if (limit <? 1) || (API_LIST_MAX <? limit) then inl ("urn:sms-gateway:invalid-limit", "Bad Request")%string
      else match value "direction" with
           | None => inr (after_id, limit, None)
           | Some v =>
               if streq v (str "inbound") then inr (after_id, limit, Some SMS_DIRECTION_INBOUND)
               else if streq v (str "outbound") then inr (after_id, limit, Some SMS_DIRECTION_OUTBOUND)
               else inl ("urn:sms-gateway:invalid-direction", "Bad Request")%string
           end
  end.

Definition send_chunk (chunk : list_chunk) : M esp_err_t := fun g =>
  let err := aenv_send env (gw_trace g) in (g <| gw_trace := AE_chunk chunk err :: gw_trace g |>, err).

(** The loop: the cursor when it ended, or [None] when memory ran out in it;
    the outer [option] is for the fuel. *)
Fixpoint list_loop (fuel : nat) (direction_filter : option sms_direction_t) (limit cursor : Z) (emitted : Z)
    (first : bool) : M (option (option Z)) :=
  if limit <=? emitted then mret (Some (Some cursor))
  else match fuel with
  | O => mret None
  | S fuel' =>
      ok ← allocated;
      if negb ok then mret (Some None)
      else
        listed ← modem_core_sms_list cursor 1;
        match listed with
        | inr (message :: _) =>
            if bool_decide (direction_filter = None) || bool_decide (direction_filter = Some (direction message)) then
              encoded ← allocated;
              if negb encoded then mret (Some None)
              else
                when (negb first) (send_chunk ChunkComma;; mret tt);;
                send_chunk (ChunkMessage (message_json message));;
                list_loop fuel' direction_filter limit (id message) (emitted + 1) false
            else list_loop fuel' direction_filter limit (id message) emitted first
        | _ => mret (Some (Some cursor))
        end
  end.

(** Every turn passes a record, and the store has so many at most. *)
Definition LIST_FUEL : nat := S SMS_STORE_MAX_RECORDS.

Definition messages_get_handler (req : http_request) : M esp_err_t :=
  admitted req false (
    match list_query req with
    | inl (type, title) => refuse 400 type title
    | inr (after_id, limit, direction_filter) =>
        err ← send_chunk ChunkOpen;
        if bool_decide (err <> ESP_OK) then mret ESP_FAIL
        else
          cursor ← list_loop LIST_FUEL direction_filter limit after_id 0 true;
          match cursor with
          | Some (Some cursor) =>
              send_chunk (ChunkTail cursor);;
              err ← send_chunk ChunkEnd;
              mret (if bool_decide (err = ESP_OK) then ESP_OK else ESP_FAIL)
          | _ => mret ESP_ERR_NO_MEM
          end
    end).

Definition message_fields : list (list Z) :=
  [str "to"; str "text"; str "delivery_report"; str "request_delivery_report"].

(** Recipient, text and whether a delivery report is asked for. *)
Definition message_of (j : json) : option (list Z * list Z * bool) :=
  let to := cJSON_GetObjectItemCaseSensitive j (str "to") in
  let text := cJSON_GetObjectItemCaseSensitive j (str "text") in
  let dr := match cJSON_GetObjectItemCaseSensitive j (str "delivery_report") with
            | Some dr => Some dr
            | None => cJSON_GetObjectItemCaseSensitive j (str "request_delivery_report")
            end in
  let delivery := match dr with None => true | Some _ => cJSON_IsTrue dr end in
  match json_string to, json_string text with
  | Some to, Some text =>
      if negb (gateway_e164_valid (Some to)) || (text.[0] =? 0) || (SMS_MESSAGE_TEXT_MAX <=? strlen text)%nat
         || (negb (bool_decide (dr = None)) && negb (cJSON_IsBool dr))
      then None else Some (to, text, delivery)
  | _, _ => None
  end.

Definition IDEM_KEY_BUFFER : nat := 129.

(** The request is over, or goes on with its reservation: the key and the
    fingerprint, for a request that has a key. *)
Definition reserve (req : http_request) (to text : list Z) (delivery : bool)
  : M (esp_err_t + option (list Z * list Z)) :=
  let invalid := err ← refuse 400 "urn:sms-gateway:invalid-idempotency-key" "Bad Request"; mret (inl err) in
  if (hdr_value_len req (str "Idempotency-Key") =? 0)%nat then mret (inr None)
  else match header_of req (str "Idempotency-Key") 1 IDEM_KEY_BUFFER with
  | None => invalid
  | Some key =>
      if negb (gateway_idempotency_key_valid (Some key)) then invalid
      else
        ok ← allocated;
        match gateway_idempotency_sms_fingerprint (aenv_psa env) (Some to) (Some text) delivery ok with
        | inl _ => invalid
        | inr fingerprint =>
            taken ← api_ask (aenv_taken env);
            claimed ← on_idempotency (gateway_idempotency_claim (aenv_psa env) (Some key) (Some fingerprint) taken);
            match claimed with
            | inl _ =>
                err ← refuse 503 "urn:sms-gateway:idempotency-unavailable" "Service Unavailable"; mret (inl err)
            | inr (GATEWAY_IDEMPOTENCY_CONFLICT, _) =>
                err ← refuse 409 "urn:sms-gateway:idempotency-conflict" "Conflict"; mret (inl err)
            | inr (GATEWAY_IDEMPOTENCY_REPLAY, existing_id) =>
                if existing_id =? 0 then
                  err ← refuse 409 "urn:sms-gateway:idempotency-pending" "Conflict"; mret (inl err)
                else
                  ok ← allocated;
                  if negb ok then mret (inl ESP_ERR_NO_MEM)
                  else
                    existing ← modem_core_sms_get existing_id;
                    err ← match existing with
                          | inl _ => refuse 409 "urn:sms-gateway:idempotency-expired" "Conflict"
                          | inr message => send_message_record 202 message
                          end;
                    mret (inl err)
            | inr (GATEWAY_IDEMPOTENCY_MISS, _) => mret (inr (Some (key, fingerprint)))
            end
        end
  end.

(** [idem_finalized] after so many attempts. *)
Fixpoint finalize_attempts (attempts : nat) (key fingerprint : list Z) (message_id : Z) : M bool :=
  match attempts with
  | O => mret false
  | S attempts' =>
      taken ← api_ask (aenv_taken env);
      err ← on_idempotency
              (gateway_idempotency_finalize (aenv_psa env) (Some key) (Some fingerprint) message_id taken);
      if bool_decide (err = ESP_OK) then mret true else finalize_attempts attempts' key fingerprint message_id
  end.

(** What becomes of the reservation. *)
Definition settle (reservation : option (list Z * list Z)) (result : esp_err_t + Z) : M unit :=
  match reservation with
  | None => mret tt
  | Some (key, fingerprint) =>
      match result with
      | inl _ =>
          taken ← api_ask (aenv_taken env);
          on_idempotency (gateway_idempotency_release_pending (aenv_psa env) (Some key) (Some fingerprint) taken);;
          mret tt
      | inr message_id =>
          finalized ← finalize_attempts 3 key fingerprint message_id;
          when (negb finalized) (set_header (str "X-Idempotency-State") (str "pending"))
      end
  end.

Definition message_queued (message_id : Z) : M esp_err_t :=
  ok ← allocated;
  if negb ok then mret ESP_ERR_NO_MEM
  else
    message ← modem_core_sms_get message_id;
    match message with
    | inl _ => refuse 500 "urn:sms-gateway:store-read" "Internal Server Error"
    | inr message =>
        set_header (str "Location") (str "/api/v1/messages/" ++ decimal message_id);;
        send_message_record 202 message
    end.

Definition messages_post_handler (req : http_request) : M esp_err_t :=
  admitted req true (
    body ← read_body req;
    match body with
    | inl _ => refuse 400 "urn:sms-gateway:invalid-body" "Bad Request"
    | inr body =>
        match object_with message_fields body with
        | None => refuse 400 "urn:sms-gateway:invalid-json" "Bad Request"
        | Some j =>
            match message_of j with
            | None => refuse 400 "urn:sms-gateway:invalid-message" "Bad Request"
            | Some (to, text, delivery) =>
                match sms_submit_preflight (Some to) (Some text) 0x0100 with
                | None => refuse 422 "urn:sms-gateway:message-too-long" "Unprocessable Content"
                | Some _ =>
                    reserved ← reserve req to text delivery;
                    match reserved with
                    | inl err => mret err
                    | inr reservation =>
                        result ← modem_core_sms_send to text delivery;
                        settle reservation result;;
                        match result with
                        | inl err =>
                            refuse (if bool_decide (err = ESP_ERR_NO_MEM) then 507 else 503)
                              "urn:sms-gateway:queue-failed" "Service Unavailable"
                        | inr message_id => message_queued message_id
                        end
                    end
                end
            end
        end
    end).

(** The 202 and 204 replies without a body. *)
Definition send_empty (status : string) : M esp_err_t := httpd_resp_send (Empty (str status)).

Definition retry_accepted (body : list Z) : bool :=
  cJSON_IsTrue (field_of (object_with [str "acknowledge_duplicate_risk"] body) (str "acknowledge_duplicate_risk")).

Definition not_found : M esp_err_t := refuse 404 "urn:sms-gateway:not-found" "Not Found".
Definition bad_method : M esp_err_t := refuse 405 "urn:sms-gateway:method" "Method Not Allowed".

Definition retry_message (req : http_request) (id : Z) : M esp_err_t :=
  body ← read_body req;
  match body with
  | inl _ => refuse 400 "urn:sms-gateway:invalid-body" "Bad Request"
  | inr body =>
      if negb (retry_accepted body) then refuse 400 "urn:sms-gateway:duplicate-risk" "Bad Request"
      else
        err ← on_sms (sms_service_retry_uncertain (aenv_sms env) id);
        if bool_decide (err = ESP_ERR_NOT_FOUND) then not_found
        else if bool_decide (err <> ESP_OK) then refuse 409 "urn:sms-gateway:not-uncertain" "Conflict"
        else send_empty "202 Accepted"
  end.

Definition delete_message (id : Z) : M esp_err_t :=
  err ← on_sms (sms_service_delete (aenv_sms env) id);
  if bool_decide (err = ESP_ERR_NOT_FOUND) then not_found
  else if bool_decide (err <> ESP_OK) then refuse 409 "urn:sms-gateway:not-deletable" "Conflict"
  else send_empty "204 No Content".

Definition message_item_handler (req : http_request) : M esp_err_t :=
  admitted req (bool_decide (hq_method req = HTTP_POST)) (
    match parse_message_id (hq_uri req) with
    | None => not_found
    | Some (id, true) => if bool_decide (hq_method req <> HTTP_POST) then bad_method else retry_message req id
    | Some (id, false) =>
        if bool_decide (hq_method req = HTTP_DELETE) then delete_message id
        else if bool_decide (hq_method req <> HTTP_GET) then bad_method
        else
          ok ← allocated;
          if negb ok then mret ESP_ERR_NO_MEM
          else
            message ← modem_core_sms_get id;
            match message with
            | inl _ => not_found
            | inr message => send_message_record 200 message
            end
    end).

End Server.
