(* ===== verification/MqttService.v ===== *)
(** * The MQTT service (components/mqtt_service/mqtt_service.c)

    The worker task, the events of the client, the commands, the replay of
    received messages and the exchange of the client when the settings change.
    The state is a record over the [gateway] of the other components; what
    esp-mqtt, the heap, the clock and the mutexes answer is an
    [mqtt_environment], whose answers may depend on the trace.  The functions
    run one after the other: those of the worker and [mqtt_service_reconfigure]
    hold [s_runtime_mutex]. *)

From Stdlib Require Import Ascii String.
From Stdlib Require Import ZifyBool ZifyNat.
From stdpp Require Import base numbers list strings.
From S2P Require Import Prelude.
From S2P Require Import StateMonad.
From S2P Require Import PduEncode.
From S2P Require Import SmsMessage.
From S2P Require Import Nvs.
From S2P Require Import SmsStore.
From S2P Require Import ApiIdempotency.
From S2P Require Import SmsService.
From S2P Require Import ModemManager.
From S2P Require Import ModemCore.
From S2P Require Import ApiCommon.
From S2P Require Import RateLimiter.
From S2P Require Import Http.
From S2P Require Import MqttConfig.
From S2P Require Import MqttRx.
From S2P Require Import MqttDiscovery.
From S2P Require Import ApiServer.

Open Scope Z_scope.

Definition MQTT_WORK_QUEUE_DEPTH : nat := 8.
Definition MQTT_REPLAY_CURSOR_KEY : list Z := str "rx_cursor".
Definition MQTT_REPLAY_ACK_TIMEOUT_MS : Z := 60000.

(** ** State and environment *)

(** [mqtt_work_t], with the fields that its type uses. *)
Inductive mqtt_work_t :=
  | MQTT_WORK_CONNECTED
  | MQTT_WORK_DATA (message : mqtt_message)
  | MQTT_WORK_SMS_EVENT (event : sms_service_event_t) (snapshot : mqtt_sms_event_snapshot_t)
  | MQTT_WORK_REPLAY
  | MQTT_WORK_REPLAY_ACK (message_id : Z).

Inductive mqtt_payload := PText (s : list Z) | PJson (j : json).

Inductive mqtt_effect :=
  | QE_asked
  | QE_publish (client : Z) (topic : list Z) (payload : mqtt_payload) (qos : Z) (retain : bool) (packet_id : Z)
  | QE_subscribe (client : Z) (topic : list Z) (qos : Z)
  | QE_ca_alloc (p : Z)
  | QE_ca_free (p : Z)
  | QE_init (client : Z) (config : gateway_mqtt_config_t) (will : list Z) (certificate : option Z)
  | QE_start (client : Z) (err : esp_err_t)
  | QE_stop (client : Z)
  | QE_destroy (client : Z)
  | QE_reboot.

Record mqtt_service_diagnostics_t := mk_mqtt_diag {
  md_initialized : bool;
  md_enabled : bool;
  md_connected : bool;
  md_connects : Z;
  md_disconnects : Z;
  md_commands_received : Z;
  md_commands_rejected : Z;
  md_events_dropped : Z;
  md_replay_cursor : Z;
  md_replay_inflight_message_id : Z;
  md_last_mqtt_error : Z;
}.

#[export] Instance eta_mqtt_diag : Eta mqtt_service_diagnostics_t := fun d =>
  mk_mqtt_diag (md_initialized d) (md_enabled d) (md_connected d) (md_connects d) (md_disconnects d)
    (md_commands_received d) (md_commands_rejected d) (md_events_dropped d) (md_replay_cursor d)
    (md_replay_inflight_message_id d) (md_last_mqtt_error d).

(** The static variables; a client and an allocated certificate are their
    addresses. *)
Record mqtt (N : Type) := mk_mqtt {
  mq_gateway : gateway N;
  mq_client : option Z;
  mq_active_ca_pem : option Z;
  mq_config : gateway_mqtt_config_t;
  mq_diag : mqtt_service_diagnostics_t;
  mq_queue : option (list mqtt_work_t);
  mq_client_mutex : bool;
  mq_config_mutex : bool;
  mq_runtime_mutex : bool;
  mq_rx : mqtt_rx_accumulator_t;
  mq_sms_limiter : gateway_rate_limiter_t;
  mq_runtime_nvs : N;
  mq_replay_cursor : Z;
  mq_replay_message_id : Z;
  mq_replay_packet_id : Z;
  mq_replay_started_ms : Z;
  mq_trace : list mqtt_effect;
}.

Arguments mk_mqtt {N}.
Arguments mq_gateway {N}.
Arguments mq_client {N}.
Arguments mq_active_ca_pem {N}.
Arguments mq_config {N}.
Arguments mq_diag {N}.
Arguments mq_queue {N}.
Arguments mq_client_mutex {N}.
Arguments mq_config_mutex {N}.
Arguments mq_runtime_mutex {N}.
Arguments mq_rx {N}.
Arguments mq_sms_limiter {N}.
Arguments mq_runtime_nvs {N}.
Arguments mq_replay_cursor {N}.
Arguments mq_replay_message_id {N}.
Arguments mq_replay_packet_id {N}.
Arguments mq_replay_started_ms {N}.
Arguments mq_trace {N}.

#[export] Instance eta_mqtt {N} : Eta (mqtt N) := fun m =>
  mk_mqtt (mq_gateway m) (mq_client m) (mq_active_ca_pem m) (mq_config m) (mq_diag m) (mq_queue m) (mq_client_mutex m)
    (mq_config_mutex m) (mq_runtime_mutex m) (mq_rx m) (mq_sms_limiter m) (mq_runtime_nvs m) (mq_replay_cursor m)
    (mq_replay_message_id m) (mq_replay_packet_id m) (mq_replay_started_ms m) (mq_trace m).

(** [qenv_taken]: a mutex was taken in time; [qenv_publish] and [qenv_init]:
    the packet identifier, or a negative one, and the client. *)
Record mqtt_environment := mk_mqtt_environment {
  qenv_taken : list mqtt_effect -> bool;
  qenv_alloc : list mqtt_effect -> bool;
  qenv_malloc : list mqtt_effect -> option Z;
  qenv_now : list mqtt_effect -> Z;
  qenv_publish : list mqtt_effect -> Z;
  qenv_init : list mqtt_effect -> option Z;
  qenv_start : list mqtt_effect -> esp_err_t;
  qenv_task : list mqtt_effect -> bool;
  qenv_state : list mqtt_effect -> modem_state_t;
  qenv_system : list mqtt_effect -> system;
  qenv_device_id : list Z;
  qenv_version : list Z;
}.

(** The events of the client that the handler looks at. *)
Inductive mqtt_event :=
  | MQTT_EVENT_CONNECTED
  | MQTT_EVENT_DISCONNECTED
  | MQTT_EVENT_ERROR (esp_tls_last_esp_err : option Z)
  | MQTT_EVENT_PUBLISHED (msg_id : Z)
  | MQTT_EVENT_DATA (ev : mqtt_data_event)
  | MQTT_EVENT_OTHER.

Section Mqtt.

Context {N : Type} `{Nvs N}.

Abbreviation mqtt := (mqtt N).
Abbreviation M := (State mqtt).

Variable aenv : api_environment N.
Variable env : mqtt_environment.

Definition mqtt_log (e : mqtt_effect) : M unit := modify (fun m => m <| mq_trace := e :: mq_trace m |>).

Definition mqtt_ask {A} (answer : list mqtt_effect -> A) : M A := fun m =>
  (m <| mq_trace := QE_asked :: mq_trace m |>, answer (mq_trace m)).

Definition mqtt_allocated : M bool := mqtt_ask (qenv_alloc env).

Definition on_gateway {A} : State (gateway N) A -> M A := zoom mq_gateway (fun g m => m <| mq_gateway := g |>).

Definition on_mqtt_diag (f : mqtt_service_diagnostics_t -> mqtt_service_diagnostics_t) : M unit :=
  modify (fun m => m <| mq_diag := f (mq_diag m) |>).

Definition event_dropped : M unit :=
  on_mqtt_diag (fun d => d <| md_events_dropped := u32 (md_events_dropped d + 1) |>).
Definition command_received : M unit :=
  on_mqtt_diag (fun d => d <| md_commands_received := u32 (md_commands_received d + 1) |>).
Definition command_rejected : M unit :=
  on_mqtt_diag (fun d => d <| md_commands_rejected := u32 (md_commands_rejected d + 1) |>).

Definition active_client_get : M (option Z) := gets mq_client.
Definition active_client_set (client : option Z) : M unit := modify (fun m => m <| mq_client := client |>).

(** [pem] is not NULL. *)
Definition owned_ca_duplicate (pem : list Z) : M (option Z) :=
  if pem.[0] =? 0 then mret None
  else
    copy ← mqtt_ask (qenv_malloc env);
    match copy with
    | None => mret None
    | Some p => mqtt_log (QE_ca_alloc p);; mret (Some p)
    end.

Definition owned_ca_free (pem : option Z) : M unit :=
  match pem with None => mret tt | Some p => mqtt_log (QE_ca_free p) end.

Definition diag_connected (connected : bool) : M unit :=
  on_mqtt_diag (fun d => d
    <| md_connects := if connected && negb (md_connected d) then u32 (md_connects d + 1) else md_connects d |>
    <| md_disconnects := if negb connected && md_connected d then u32 (md_disconnects d + 1) else md_disconnects d |>
    <| md_connected := connected |>).

Definition connected : M bool := gets (fun m => md_connected (mq_diag m)).

(** [mutex == NULL || xSemaphoreTake(...) != pdTRUE] fails. *)
Definition takes (mutex : mqtt -> bool) : M bool :=
  created ← gets mutex;
  if negb created then mret false else mqtt_ask (qenv_taken env).

Definition view_of (c : gateway_mqtt_config_t) : mqtt_config_view_t :=
  mk_view (mc_home_assistant_enabled c) (mc_base_topic c) (mc_discovery_prefix c) (mc_default_recipient c).

Definition config_view : M (option mqtt_config_view_t) :=
  ok ← takes mq_config_mutex;
  if negb ok then mret None else c ← gets mq_config; mret (Some (view_of c)).

(** The string in [out]. *)
Definition topic (suffix : string) : M (list Z) :=
  ok ← takes mq_config_mutex;
  if negb ok then mret [] else c ← gets mq_config; mret (joined (mc_base_topic c) (str suffix)).

Definition esp_mqtt_client_publish (client : Z) (topic_name : list Z) (payload : mqtt_payload) (qos : Z) (retain : bool)
  : M Z := fun m =>
  let packet_id := qenv_publish env (mq_trace m) in
  (m <| mq_trace := QE_publish client topic_name payload qos retain packet_id :: mq_trace m |>, packet_id).

(** The arguments are not NULL. *)
Definition publish_raw (topic_name : list Z) (payload : mqtt_payload) (qos : Z) (retain : bool) : M Z :=
  ok ← takes mq_client_mutex;
  if negb ok then mret (-1)
  else
    client ← active_client_get;
    online ← connected;
    match client with
    | Some client => if online : bool then esp_mqtt_client_publish client topic_name payload qos retain else mret (-1)
    | None => mret (-1)
    end.

Definition publish_json_object (topic_name : list Z) (value : json) (qos : Z) (retain : bool) : M unit :=
  encoded ← mqtt_allocated;
  when encoded (publish_raw topic_name (PJson value) qos retain;; mret tt).

(** ** Status and discovery *)

Definition sms_list (after_id : Z) : M (esp_err_t + list sms_message_t) := on_gateway (modem_core_sms_list after_id 1).

(** The loop: so many records are still scanned. *)
Fixpoint queue_depth_loop (scans : nat) (cursor count : Z) : M Z :=
  match scans with
  | O => mret count
  | S scans =>
      ok ← mqtt_allocated;
      if negb ok then mret count
      else
        listed ← sms_list cursor;
        match listed with
        | inr (message :: _) =>
            let waiting := bool_decide (direction message = SMS_DIRECTION_OUTBOUND)
              && (bool_decide (status message = SMS_MESSAGE_QUEUED) || bool_decide (status message = SMS_MESSAGE_SENDING)) in
            queue_depth_loop scans (id message) (if waiting then count + 1 else count)
        | _ => mret count
        end
  end.

Definition current_sms_queue_depth : M Z := queue_depth_loop SMS_STORE_MAX_RECORDS 0 0.

Definition publish_status : M unit :=
  modem ← on_gateway (on_manager (modem_manager_get_snapshot true));
  match modem with
  | inl _ => mret tt
  | inr modem =>
      status_topic ← topic "status";
      created ← mqtt_allocated;
      if negb created then mret tt
      else
        state ← mqtt_ask (qenv_state env);
        depth ← current_sms_queue_depth;
        system ← mqtt_ask (qenv_system env);
        publish_json_object status_topic (status_json state modem depth system) 1 true
  end.

(** With the topics in the order in which they are made. *)
Definition publish_discovery : M unit :=
  config ← config_view;
  match config with
  | None => mret tt
  | Some config =>
      if negb (vw_home_assistant_enabled config) then mret tt
      else
        availability ← topic "availability";
        state_topic ← topic "status";
        received_topic ← topic "sms/received";
        modem_restart ← topic "modem/restart";
        gateway_restart ← topic "system/reboot";
        let notify := negb ((vw_default_recipient config).[0] =? 0) in
        notify_topic ← (if notify then topic "ha/notify" else mret []);
        publish_json_object (discovery_topic (vw_discovery_prefix config) (qenv_device_id env))
          (discovery_json (qenv_device_id env) (qenv_version env)
             (mk_topics availability state_topic received_topic modem_restart gateway_restart notify_topic) notify) 1 true
  end.

Definition publish_command_result (request_id : option (list Z)) (ok : bool) (code : string) (message_id : Z)
    (replayed : bool) : M unit :=
  result_topic ← topic "command/result";
  publish_json_object result_topic (result_members request_id ok code message_id replayed) 1 false.

(** ** Commands *)

(** Request identifier, recipient, text and whether a delivery report is asked
    for, when they are valid; and the request identifier if it is a string. *)
Definition structured_message (j : option json) : option (list Z * list Z * list Z * bool) :=
  let request_id := field_of j (str "request_id") in
  let to := field_of j (str "to") in
  let text := field_of j (str "text") in
  let dr := field_of j (str "delivery_report") in
  let delivery := match dr with None => true | Some _ => cJSON_IsTrue dr end in
  match json_string request_id, json_string to, json_string text with
  | Some request_id, Some to, Some text =>
      if negb (gateway_idempotency_key_valid (Some request_id)) || negb (gateway_e164_valid (Some to))
         || (text.[0] =? 0) || (SMS_MESSAGE_TEXT_MAX <=? strlen text)%nat
         || (negb (bool_decide (dr = None)) && negb (cJSON_IsBool dr))
      then None else Some (request_id, to, text, delivery)
  | _, _, _ => None
  end.

Definition sms_limited : M bool :=
  now ← mqtt_ask (qenv_now env);
  zoom mq_sms_limiter (fun l m => m <| mq_sms_limiter := l |>)
    (fun l => gateway_rate_limiter_allow l (double_of_Z 1) now).

(** A claimed request is sent; its identifier is the one of the message. *)
Definition send_claimed (request_id to text fingerprint : list Z) (delivery : bool) : M unit :=
  result ← on_gateway (modem_core_sms_send aenv to text delivery);
  match result with
  | inl _ =>
      taken ← on_gateway (api_ask (aenv_taken aenv));
      on_gateway (on_idempotency
        (gateway_idempotency_release_pending (aenv_psa aenv) (Some request_id) (Some fingerprint) taken));;
      publish_command_result (Some request_id) false "queue_failed" 0 false
  | inr message_id =>
      finalized ← on_gateway (finalize_attempts aenv 3 request_id fingerprint message_id);
      publish_command_result (Some request_id) true
        (if finalized : bool then "accepted" else "accepted_idempotency_pending") message_id false
  end.

Definition structured_claim (request_id to text fingerprint : list Z) (delivery : bool) : M unit :=
  let result := publish_command_result (Some request_id) in
  taken ← on_gateway (api_ask (aenv_taken aenv));
  claimed ← on_gateway (on_idempotency
    (gateway_idempotency_claim (aenv_psa aenv) (Some request_id) (Some fingerprint) taken));
  match claimed with
  | inl _ => result false "idempotency_unavailable"%string 0 false
  | inr (GATEWAY_IDEMPOTENCY_CONFLICT, existing) => result false "idempotency_conflict"%string existing false
  | inr (GATEWAY_IDEMPOTENCY_REPLAY, existing) =>
      if existing =? 0 then result false "idempotency_pending"%string 0 true
      else
        ok ← mqtt_allocated;
        record ← (if ok : bool then on_gateway (modem_core_sms_get existing) else mret (inl ESP_ERR_NO_MEM));
        match record with
        | inr _ => result true "accepted"%string existing true
        | inl _ => result false "idempotency_expired"%string existing false
        end
  | inr (GATEWAY_IDEMPOTENCY_MISS, _) => send_claimed request_id to text fingerprint delivery
  end.

Definition handle_structured_send (payload : list Z) : M unit :=
  command_received;;
  let j := aenv_parse aenv (c_str payload) in
  match structured_message j with
  | None =>
      command_rejected;;
      publish_command_result (json_string (field_of j (str "request_id"))) false "invalid_request" 0 false
  | Some (request_id, to, text, delivery) =>
      match sms_submit_preflight (Some to) (Some text) 0x0100 with
      | None => command_rejected;; publish_command_result (Some request_id) false "message_too_long" 0 false
      | Some _ =>
          ok ← sms_limited;
          if negb ok then publish_command_result (Some request_id) false "rate_limited" 0 false
          else
            allocated ← mqtt_allocated;
            match gateway_idempotency_sms_fingerprint (aenv_psa aenv) (Some to) (Some text) delivery allocated with
            | inl _ => publish_command_result (Some request_id) false "internal_error" 0 false
            | inr fingerprint => structured_claim request_id to text fingerprint delivery
            end
      end
  end.

Definition handle_native_notify (payload : list Z) : M unit :=
  config ← config_view;
  match config with
  | None => mret tt
  | Some config =>
      if ((vw_default_recipient config).[0] =? 0) || (length payload =? 0)%nat || (SMS_MESSAGE_TEXT_MAX <=? length payload)%nat
      then mret tt
      else match sms_submit_preflight (Some (vw_default_recipient config)) (Some payload) 0x0100 with
      | None => mret tt
      | Some _ =>
          ok ← sms_limited;
          if negb ok then mret tt
          else on_gateway (modem_core_sms_send aenv (vw_default_recipient config) payload true);; mret tt
      end
  end.

Definition subscribe (client : Z) (topic_name : list Z) (qos : Z) : M unit := mqtt_log (QE_subscribe client topic_name qos).

Definition subscribe_all (client : Z) (config : mqtt_config_view_t) : M unit :=
  t ← topic "sms/send"; subscribe client t 1;;
  t ← topic "modem/restart"; subscribe client t 1;;
  t ← topic "system/reboot"; subscribe client t 1;;
  when (negb ((vw_default_recipient config).[0] =? 0)) (t ← topic "ha/notify"; subscribe client t 0);;
  when (vw_home_assistant_enabled config)
    (subscribe client (joined (vw_discovery_prefix config) (str "status")) 0).

Definition subscribe_and_announce : M unit :=
  config ← config_view;
  match config with
  | None => mret tt
  | Some config =>
      ok ← takes mq_client_mutex;
      if negb ok then mret tt
      else
        client ← gets mq_client;
        match client with Some client => subscribe_all client config | None => mret tt end;;
        availability ← topic "availability";
        publish_raw availability (PText (str "online")) 1 true;;
        publish_discovery;;
        publish_status
  end.

(** The topics are compared in this order. *)
Fixpoint command_kind (name : list Z) (commands : list (string * mqtt_command_kind_t)) : M mqtt_command_kind_t :=
  match commands with
  | [] =>
      config ← config_view;
      mret (match config with
            | Some config =>
                if streq name (joined (vw_discovery_prefix config) (str "status")) then MQTT_COMMAND_HA_STATUS
                else MQTT_COMMAND_NONE
            | None => MQTT_COMMAND_NONE
            end)
  | (suffix, kind) :: commands =>
      expected ← topic suffix;
      if streq name expected then mret kind else command_kind name commands
  end.

Definition mqtt_commands : list (string * mqtt_command_kind_t) :=
  [("sms/send"%string, MQTT_COMMAND_SMS_SEND); ("ha/notify"%string, MQTT_COMMAND_NATIVE_NOTIFY);
   ("modem/restart"%string, MQTT_COMMAND_MODEM_RESTART); ("system/reboot"%string, MQTT_COMMAND_SYSTEM_REBOOT)].

(** The task of [reboot_task], when it could be created. *)
Definition create_mqtt_reboot : M unit :=
  created ← mqtt_ask (qenv_task env); when created (mqtt_log QE_reboot).

Definition execute_command (kind : mqtt_command_kind_t) (payload : list Z) : M unit :=
  match kind with
  | MQTT_COMMAND_SMS_SEND => handle_structured_send payload
  | MQTT_COMMAND_NATIVE_NOTIFY => handle_native_notify payload
  | MQTT_COMMAND_MODEM_RESTART => on_gateway (on_manager modem_manager_request_restart);; mret tt
  | MQTT_COMMAND_SYSTEM_REBOOT => create_mqtt_reboot
  | MQTT_COMMAND_HA_STATUS =>
      config ← config_view;
      when match config with Some config => vw_home_assistant_enabled config | None => false end
        (publish_discovery;; publish_status)
  | MQTT_COMMAND_NONE => mret tt
  end.

Definition handle_data_work (work : mqtt_message) : M unit :=
  kind ← command_kind (mm_topic work) mqtt_commands;
  if bool_decide (kind = MQTT_COMMAND_NONE) then mret tt
  else if negb (mqtt_command_allowed kind (mm_retained work) (Some (mm_payload work))) then
    when (bool_decide (kind <> MQTT_COMMAND_HA_STATUS)) command_rejected
  else execute_command kind (mm_payload work).

(** ** Replay of received messages *)

Definition set_watermark (protection_enabled : bool) (watermark : Z) : M unit :=
  on_gateway (modify (fun g => g <| gw_sms := sms_service_set_event_replay_watermark protection_enabled watermark (gw_sms g) |>)).

Definition replay_cursor_store (message_id : Z) : M esp_err_t := fun m =>
  let '(n, err) := nvs_set_u32 (mq_runtime_nvs m) MQTT_REPLAY_CURSOR_KEY message_id in
  let '(n, err) := if bool_decide (err = ESP_OK) then nvs_commit n else (n, err) in
  let m := m <| mq_runtime_nvs := n |> in
  if bool_decide (err = ESP_OK) then
    let d := mq_diag m in
    let m := m <| mq_replay_cursor := message_id |> <| mq_diag := (d <| md_replay_cursor := message_id |>) |> in
    ((set_watermark true message_id m).1, err)
  else (m, err).

(** A message is in flight, or none. *)
Definition replay_inflight (message_id packet_id started_ms : Z) : M unit :=
  modify (fun m => m <| mq_replay_message_id := message_id |> <| mq_replay_packet_id := packet_id |>
                     <| mq_replay_started_ms := started_ms |>);;
  on_mqtt_diag (fun d => d <| md_replay_inflight_message_id := message_id |>).

Definition replay_inflight_clear : M unit := replay_inflight 0 0 0.

Definition publish_inbound_replay (record : sms_message_t) : M bool :=
  out_topic ← topic "sms/received";
  created ← mqtt_allocated;
  if negb created then mret false
  else
    encoded ← mqtt_allocated;
    if negb encoded then mret false
    else
      packet_id ← publish_raw out_topic (PJson (inbound_json record)) 1 false;
      if packet_id <? 0 then mret false
      else now ← mqtt_ask (qenv_now env); replay_inflight (id record) packet_id now;; mret true.

Definition to_replay (record : sms_message_t) : bool :=
  bool_decide (direction record = SMS_DIRECTION_INBOUND) && bool_decide (status record = SMS_MESSAGE_RECEIVED).

Fixpoint replay_loop (scans : nat) (scan : Z) : M unit :=
  match scans with
  | O => mret tt
  | S scans =>
      ok ← mqtt_allocated;
      if negb ok then mret tt
      else
        listed ← sms_list scan;
        match listed with
        | inr (record :: _) =>
            if to_replay record then sent ← publish_inbound_replay record; when (negb sent) event_dropped
            else replay_loop scans (id record)
        | _ => mret tt
        end
  end.

Definition replay_next_inbound : M unit :=
  online ← connected;
  if negb online then mret tt
  else
    message_id ← gets mq_replay_message_id;
    cursor ← gets mq_replay_cursor;
    if negb (message_id =? 0) then mret tt else replay_loop SMS_STORE_MAX_RECORDS cursor.

Definition handle_replay_ack (message_id : Z) : M unit :=
  inflight ← gets mq_replay_message_id;
  if negb ((inflight =? message_id) && negb (message_id =? 0)) then mret tt
  else
    replay_inflight_clear;;
    err ← replay_cursor_store message_id;
    if bool_decide (err <> ESP_OK) then mret tt else replay_next_inbound.

Definition replay_watchdog : M unit :=
  message_id ← gets mq_replay_message_id;
  started_ms ← gets mq_replay_started_ms;
  if (message_id =? 0) || (started_ms =? 0) then mret tt
  else
    now ← mqtt_ask (qenv_now env);
    if MQTT_REPLAY_ACK_TIMEOUT_MS <=? now - started_ms then replay_inflight_clear;; replay_next_inbound else mret tt.

Definition publish_sms_event (event : sms_service_event_t) (snapshot : mqtt_sms_event_snapshot_t) : M unit :=
  created ← mqtt_allocated;
  if negb created then mret tt
  else
    out_topic ← topic (if is_received event (es_direction snapshot) then "sms/received" else "sms/status");
    publish_json_object out_topic (event_json event snapshot) 1 false;;
    publish_status.

(** ** The worker *)

Definition handle_work (work : mqtt_work_t) : M unit :=
  match work with
  | MQTT_WORK_CONNECTED => subscribe_and_announce;; replay_next_inbound
  | MQTT_WORK_DATA message => handle_data_work message
  | MQTT_WORK_SMS_EVENT event snapshot => publish_sms_event event snapshot
  | MQTT_WORK_REPLAY => replay_next_inbound
  | MQTT_WORK_REPLAY_ACK message_id => handle_replay_ack message_id
  end.

(** One turn of [worker_task]: a work item, or none for thirty seconds. *)
Definition worker_turn : M unit :=
  queue ← gets mq_queue;
  match queue with
  | Some (work :: queue) =>
      modify (fun m => m <| mq_queue := Some queue |>);;
      ok ← mqtt_ask (qenv_taken env);
      if ok : bool then handle_work work else event_dropped
  | _ =>
      online ← connected;
      if negb online then mret tt
      else
        ok ← mqtt_ask (qenv_taken env);
        if negb ok then mret tt else replay_watchdog;; replay_next_inbound;; publish_status
  end.

(** [work_new] and [xQueueSend]: whether the item is in the queue, and whether
    there was memory for it. *)
Definition queue_work (work : mqtt_work_t) : M (bool * bool) :=
  ok ← mqtt_allocated;
  if negb ok then mret (false, false)
  else fun m =>
    match mq_queue m with
    | Some queue =>
        if (length queue <? MQTT_WORK_QUEUE_DEPTH)%nat
        then (m <| mq_queue := Some (queue ++ [work]) |>, (true, true)) else (m, (false, true))
    | None => (m, (false, true))
    end.

Definition queue_simple_work (work : mqtt_work_t) : M unit :=
  '(queued, allocated) ← queue_work work; when (negb queued && allocated) event_dropped.

(** ** The events of the client *)

Definition mqtt_event_handler (client : Z) (event : mqtt_event) : M unit :=
  active ← active_client_get;
  if negb (bool_decide (active = Some client)) then mret tt
  else match event with
  | MQTT_EVENT_CONNECTED => diag_connected true;; queue_simple_work MQTT_WORK_CONNECTED
  | MQTT_EVENT_DISCONNECTED => diag_connected false;; replay_inflight_clear
  | MQTT_EVENT_ERROR last_error =>
      on_mqtt_diag (fun d => d <| md_last_mqtt_error := default (esp_err_code ESP_FAIL) last_error |>)
  | MQTT_EVENT_PUBLISHED msg_id =>
      packet_id ← gets mq_replay_packet_id;
      message_id ← gets mq_replay_message_id;
      queue ← gets mq_queue;
      if (msg_id =? packet_id) && negb (message_id =? 0) && negb (bool_decide (queue = None))
      then queue_work (MQTT_WORK_REPLAY_ACK message_id);; mret tt
      else mret tt
  | MQTT_EVENT_DATA ev =>
      rx ← gets mq_rx;
      let '(rx, message) := rx_event ev rx in
      modify (fun m => m <| mq_rx := rx |>);;
      match message with
      | Some message => queue_work (MQTT_WORK_DATA message);; mret tt
      | None => mret tt
      end
  | MQTT_EVENT_OTHER => mret tt
  end.

(** [strnlen(message->text, sizeof(message->text) - 1)] bytes of the text. *)
Definition event_snapshot (message : sms_message_t) : mqtt_sms_event_snapshot_t :=
  mk_event_snapshot (id message) (direction message) (status message) (c_str (sender message)) (c_str (recipient message))
    (c_str (service_center_timestamp message)) (take (SMS_MESSAGE_TEXT_MAX - 1) (c_str (text message))).

Definition sms_event_callback (event : sms_service_event_t) (message : option sms_message_t) : M unit :=
  queue ← gets mq_queue;
  match message with
  | None => mret tt
  | Some message =>
      if bool_decide (queue = None) then mret tt
      else if is_received event (direction message) then queue_simple_work MQTT_WORK_REPLAY
      else
        '(queued, _) ← queue_work (MQTT_WORK_SMS_EVENT event (event_snapshot message));
        when (negb queued) event_dropped
  end.

(** ** The exchange of the client *)

(** The client that is replaced says good-bye. *)
Definition retire_messages (old : Z) (previous : gateway_mqtt_config_t) : M unit :=
  esp_mqtt_client_publish old (joined (mc_base_topic previous) (str "availability")) (PText (str "offline")) 1 true;;
  esp_mqtt_client_publish old (joined (mc_base_topic previous) (str "status")) (PText []) 1 true;;
  when (mc_home_assistant_enabled previous)
    (esp_mqtt_client_publish old (discovery_topic (mc_discovery_prefix previous) (qenv_device_id env)) (PText []) 1 true;;
     mret tt).

(** It is stopped and destroyed, and then its certificate is freed. *)
Definition retire_client : M unit :=
  previous ← gets mq_config;
  old ← active_client_get;
  online ← connected;
  match old with Some old => when online (retire_messages old previous) | None => mret tt end;;
  active_client_set None;;
  diag_connected false;;
  match old with Some old => mqtt_log (QE_stop old);; mqtt_log (QE_destroy old) | None => mret tt end;;
  ca ← gets mq_active_ca_pem;
  owned_ca_free ca;;
  modify (fun m => m <| mq_active_ca_pem := None |>).

(** The client for the settings in use. *)
Definition start_client (next_ca_pem : option Z) : M esp_err_t :=
  availability ← topic "availability";
  config ← gets mq_config;
  new_client ← mqtt_ask (qenv_init env);
  match new_client with
  | None => owned_ca_free next_ca_pem;; mret ESP_FAIL
  | Some new_client =>
      mqtt_log (QE_init new_client config availability
                  (if gateway_mqtt_uri_is_tls (Some (mc_broker_uri config)) then next_ca_pem else None));;
      modify (fun m => m <| mq_active_ca_pem := next_ca_pem |>);;
      active_client_set (Some new_client);;
      err ← mqtt_ask (qenv_start env);
      mqtt_log (QE_start new_client err);;
      when (bool_decide (err <> ESP_OK))
        (active_client_set None;;
         mqtt_log (QE_destroy new_client);;
         ca ← gets mq_active_ca_pem;
         owned_ca_free ca;;
         modify (fun m => m <| mq_active_ca_pem := None |>));;
      mret err
  end.

(** With the certificate of the next settings, if they have one. *)
Definition exchange_client (next : gateway_mqtt_config_t) (next_ca_pem : option Z) : M esp_err_t :=
  let timeout := owned_ca_free next_ca_pem;; mret ESP_ERR_TIMEOUT in
  ok ← takes mq_runtime_mutex;
  if negb ok then timeout
  else
    ok ← takes mq_client_mutex;
    if negb ok then timeout
    else
      ok ← takes mq_config_mutex;
      if negb ok then timeout
      else
        retire_client;;
        ok ← mqtt_ask (qenv_taken env);
        if negb ok then timeout
        else
          modify (fun m => m <| mq_config := next |>);;
          cursor ← gets mq_replay_cursor;
          set_watermark (mc_enabled next) (if mc_enabled next then cursor else UINT32_MAX);;
          on_mqtt_diag (fun d => d <| md_enabled := mc_enabled next |>);;
          if negb (mc_enabled next) then owned_ca_free next_ca_pem;; mret ESP_OK
          else start_client next_ca_pem.

(** The certificate that the next client needs: the error, or its copy. *)
Definition next_certificate (next : gateway_mqtt_config_t) : M (esp_err_t + option Z) :=
  if mc_enabled next && gateway_mqtt_uri_is_tls (Some (mc_broker_uri next)) && negb ((mc_ca_pem next).[0] =? 0) then
    copy ← owned_ca_duplicate (mc_ca_pem next);
    mret (match copy with Some p => inr (Some p) | None => inl ESP_ERR_NO_MEM end)
  else mret (inr None).

Definition mqtt_service_reconfigure : M esp_err_t :=
  ok ← mqtt_allocated;
  if negb ok then mret ESP_ERR_NO_MEM
  else
    taken ← mqtt_ask (qenv_taken env);
    next ← on_gateway (gets (fun g => gateway_settings_get_mqtt true taken (gw_settings g)));
    match next with
    | inl err => mret err
    | inr next =>
        if bool_decide (gateway_mqtt_config_validate (Some next) <> ESP_OK) then mret ESP_ERR_INVALID_ARG
        else
          certificate ← next_certificate next;
          match certificate with
          | inl err => mret err
          | inr next_ca_pem => exchange_client next next_ca_pem
          end
    end.

(** [queue], [client], [config], [runtime]: what could be created; [open] and
    [handle]: what [nvs_open] answered.  The callback is an observer of the
    modem core. *)
Definition mqtt_service_init (queue client config runtime : bool) (open : esp_err_t) (handle : N) : M esp_err_t :=
  initialized ← gets (fun m => md_initialized (mq_diag m));
  if (initialized : bool) then mret ESP_ERR_INVALID_STATE
  else
    modify (fun m => m <| mq_queue := if queue then Some [] else None |> <| mq_client_mutex := client |>
                       <| mq_config_mutex := config |> <| mq_runtime_mutex := runtime |>);;
    if negb (queue && client && config && runtime) then mret ESP_ERR_NO_MEM
    else
      now ← mqtt_ask (qenv_now env);
      modify (fun m => m <| mq_sms_limiter := sms_limiter now |>);;
      if bool_decide (open <> ESP_OK) then mret open
      else
        modify (fun m => m <| mq_runtime_nvs := handle |>);;
        let read := nvs_get_u32 handle MQTT_REPLAY_CURSOR_KEY in
        let failed := match read with inl err => bool_decide (err <> ESP_ERR_NVS_NOT_FOUND) | inr _ => false end in
        let cursor := match read with inr cursor => cursor | inl _ => 0 end in
        if failed then mret match read with inl err => err | inr _ => ESP_OK end
        else
          modify (fun m => m <| mq_replay_cursor := cursor |>);;
          on_mqtt_diag (fun d => d <| md_replay_cursor := cursor |>);;
          set_watermark true cursor;;
          created ← mqtt_ask (qenv_task env);
          if negb created then mret ESP_ERR_NO_MEM
          else
            on_mqtt_diag (fun d => d <| md_initialized := true |>);;
            mqtt_service_reconfigure.

(** [out] is not NULL for [true]. *)
Definition mqtt_service_get_diagnostics (out : bool) (m : mqtt) : esp_err_t * option mqtt_service_diagnostics_t :=
  if negb out then (ESP_ERR_INVALID_ARG, None)
  else (if md_initialized (mq_diag m) then ESP_OK else ESP_ERR_INVALID_STATE, Some (mq_diag m)).

End Mqtt.
