(* ===== verification/DisplayService.v ===== *)
(** * The display's task (components/display_service/display_service.c)

    What is shown and when the screen is lit, over the drawing of DisplayDraw.
    One turn of the task finds a [display_environment]: the clock, the buttons
    and what the other components report.  A frame is the calls of [fill] and
    the shift, from which [render] makes the picture. *)

From Stdlib Require Import Ascii String.
From Stdlib Require Import ZifyBool ZifyNat.
From stdpp Require Import base numbers list strings.
From S2P Require Import Prelude.
From S2P Require Import PduEncode.
From S2P Require Import SmsMessage.
From S2P Require Import GatewayDiag.
From S2P Require Import NetworkService.
From S2P Require Import SmsService.
From S2P Require Import ModemStatus.
From S2P Require Import ModemManager.
From S2P Require Import ModemCore.
From S2P Require Import DisplayDraw.
From S2P Require Import MqttService.

Open Scope Z_scope.

Definition DISPLAY_REFRESH_MS : Z := 1000.
Definition GATEWAY_BUTTON_MENU : nat := 3.
Definition GATEWAY_BUTTON_COUNT : nat := 4.

(** The settings of the build. *)
Record display_config := mk_display_config {
  CONFIG_GATEWAY_DISPLAY_TIMEOUT_SECONDS : Z;
  CONFIG_GATEWAY_DISPLAY_SETUP_TIMEOUT_SECONDS : Z;
  CONFIG_GATEWAY_DISPLAY_PORTAL_HOLD_SECONDS : Z;
  CONFIG_GATEWAY_DISPLAY_SMS_PREVIEW : bool;
}.

(** What was asked of the rest of the world, the last one first. *)
Inductive display_effect :=
  | DE_open_portal
  | DE_frame (shift_x shift_y : Z) (rects : list rect)
  | DE_power (on : bool).

(** The static variables, and the local ones of [display_task]. *)
Record display := mk_display {
  dp_net : option network_service_snapshot_t;
  dp_sms_id : Z;
  dp_sms_sender : list Z;
  dp_sms_time : list Z;
  dp_sms_preview : list Z;
  dp_crash_dismissed : bool;
  dp_shift_x : Z;
  dp_shift_y : Z;
  dp_shown : view_significant_t;
  dp_shown_minor : view_minor_t;
  dp_on : bool;
  dp_first : bool;
  dp_last_activity_ms : Z;
  dp_last_refresh_ms : Z;
  dp_press_started_ms : list Z;
  dp_long_press_fired : bool;
  dp_trace : list display_effect;
}.

#[export] Instance eta_display : Eta display := fun s =>
  mk_display (dp_net s) (dp_sms_id s) (dp_sms_sender s) (dp_sms_time s) (dp_sms_preview s) (dp_crash_dismissed s)
    (dp_shift_x s) (dp_shift_y s) (dp_shown s) (dp_shown_minor s) (dp_on s) (dp_first s) (dp_last_activity_ms s)
    (dp_last_refresh_ms s) (dp_press_started_ms s) (dp_long_press_fired s) (dp_trace s).

Record display_environment := mk_display_env {
  de_now : Z;
  de_pressed : nat -> bool;
  de_safe_mode : gateway_safe_mode_t;
  de_last_crash : list Z * bool;
  de_mqtt : option mqtt_service_diagnostics_t;
  de_modem_state : modem_state_t;
  de_modem : option modem_manager_snapshot_t;
}.

Definition display_log (e : display_effect) (s : display) : display := s <| dp_trace := e :: dp_trace s |>.

Definition panel_power (on : bool) (s : display) : display := display_log (DE_power on) s.

Definition signal_to_bars (rssi : Z) : Z :=
  if (rssi <? 0) || (rssi =? 99) then -1
  else if 20 <=? rssi then 4 else if 15 <=? rssi then 3 else if 10 <=? rssi then 2 else if 5 <=? rssi then 1 else 0.

Definition view_zero : view_significant_t :=
  mk_view PAGE_STATUS false false [] [] NETWORK_PORTAL_CLOSED NETWORK_SETUP_IDLE [] [] 0 MODEM_STATE_BOOT MODEM_SIM_UNKNOWN
    0 [] [] [] GATEWAY_SAFE_MODE_OFF.

Definition minor_zero : view_minor_t := mk_minor 0 0 [].

(** ** What is shown *)

Definition collect_page (env : display_environment) (s : display) : display_page_t :=
  let page := match dp_net s with Some net => if ns_provisioning net then PAGE_SETUP else PAGE_STATUS | None => PAGE_STATUS end in
  let setup_state := match dp_net s with Some net => ns_setup_state net | None => NETWORK_SETUP_IDLE end in
  let page := if bool_decide (setup_state = NETWORK_SETUP_CONNECTING) || bool_decide (setup_state = NETWORK_SETUP_CONNECTED)
              then PAGE_SETUP else page in
  if negb (dp_crash_dismissed s) && bool_decide ((de_last_crash env).1 <> []) && (de_last_crash env).2 then PAGE_CRASH else page.

Definition collect (env : display_environment) (s : display) : view_significant_t * view_minor_t :=
  let net := default NetworkService.snapshot_zero (dp_net s) in
  (mk_view (collect_page env s) (ns_connected net) (ns_provisioned net) (ns_ipv4 net) (ns_sta_ssid net) (ns_portal_reason net)
     (ns_setup_state net) (ns_portal_ssid net) (ns_portal_passphrase net)
     (match de_mqtt env with
      | Some mqtt => if md_enabled mqtt then if md_connected mqtt then 2 else 1 else 0
      | None => 0
      end)
     (de_modem_state env) (match de_modem env with Some modem => sn_sim modem | None => MODEM_SIM_UNKNOWN end)
     (dp_sms_id s) (dp_sms_sender s) (dp_sms_time s) (dp_sms_preview s) (de_safe_mode env),
   match de_modem env with
   | Some modem =>
       mk_minor (signal_to_bars (rssi (sn_signal modem))) (if rssi (sn_signal modem) =? 99 then 0 else rssi_dbm (sn_signal modem))
         (utf8_to_ascii (op_name (sn_operator_info modem)) 24)
   | None => mk_minor (-1) 0 []
   end).

(** ** The task *)

Section Task.

Variable cfg : display_config.

Definition render_view (env : display_environment) (view : view_significant_t * view_minor_t) (s : display) : display :=
  display_log (DE_frame (dp_shift_x s) (dp_shift_y s)
    (draw (CONFIG_GATEWAY_DISPLAY_SMS_PREVIEW cfg) (de_last_crash env).1 (Some view))) s.

(** One button; the boolean is [wake]. *)
Definition button_step (env : display_environment) (acc : display * bool) (b : nat) : display * bool :=
  let '(s, wake) := acc in
  if de_pressed env b then
    let '(s, wake) :=
      if (dp_press_started_ms s).[b] =? 0 then
        (s <| dp_press_started_ms := <[b := de_now env]> (dp_press_started_ms s) |>
           <| dp_crash_dismissed := dp_on s || dp_crash_dismissed s |>, true)
      else (s, wake) in
    if (b =? GATEWAY_BUTTON_MENU)%nat && negb (dp_long_press_fired s)
       && (CONFIG_GATEWAY_DISPLAY_PORTAL_HOLD_SECONDS cfg * 1000 <=? de_now env - (dp_press_started_ms s).[b])
    then (display_log DE_open_portal (s <| dp_long_press_fired := true |>), wake)
    else (s, wake)
  else
    let s := if (b =? GATEWAY_BUTTON_MENU)%nat then s <| dp_long_press_fired := false |> else s in
    (s <| dp_press_started_ms := <[b := 0]> (dp_press_started_ms s) |>, wake).

Definition buttons (env : display_environment) (s : display) : display * bool :=
  fold_left (button_step env) (seq 0 GATEWAY_BUTTON_COUNT) (s, false).

Definition timeout_of (page : display_page_t) : Z :=
  match page with
  | PAGE_SETUP => CONFIG_GATEWAY_DISPLAY_SETUP_TIMEOUT_SECONDS cfg
  | _ => CONFIG_GATEWAY_DISPLAY_TIMEOUT_SECONDS cfg
  end.

(** Drawing the new content, with a dark screen lit. *)
Definition wake_up (env : display_environment) (view : view_significant_t * view_minor_t) (s : display) : display :=
  let s := s <| dp_last_activity_ms := de_now env |> in
  if negb (dp_on s) then
    let s := s <| dp_shift_x := (dp_shift_x s + 1) mod DISPLAY_SHIFT_MAX |>
               <| dp_shift_y := (dp_shift_y s + 3) mod DISPLAY_SHIFT_MAX |> in
    (panel_power true (render_view env view s)) <| dp_on := true |>
  else render_view env view s.

Definition refresh (env : display_environment) (wake : bool) (s : display) : display :=
  let s := s <| dp_last_refresh_ms := de_now env |> in
  let '(current, current_minor) := collect env s in
  let changed := dp_first s || bool_decide (current <> dp_shown s) in
  let minor_changed := bool_decide (current_minor <> dp_shown_minor s) in
  let wake := wake || changed in
  let s := if wake then wake_up env (current, current_minor) s
           else if dp_on s && minor_changed then render_view env (current, current_minor) s else s in
  let s := if wake || (dp_on s && minor_changed)
           then s <| dp_shown := current |> <| dp_shown_minor := current_minor |> else s in
  let s := s <| dp_first := false |> in
  let timeout := timeout_of (vw_page current) in
  if dp_on s && (0 <? timeout) && (timeout * 1000 <=? de_now env - dp_last_activity_ms s)
  then (panel_power false s) <| dp_on := false |> else s.

(** One turn of the loop of [display_task]. *)
Definition display_turn (env : display_environment) (s : display) : display :=
  let '(s, wake) := buttons env s in
  if wake || (DISPLAY_REFRESH_MS <=? de_now env - dp_last_refresh_ms s) then refresh env wake s else s.

(** ** Other tasks *)

(** [snapshot] is NULL for [None]. *)
Definition display_service_network_event (snapshot : option network_service_snapshot_t) (s : display) : display :=
  match snapshot with Some net => s <| dp_net := Some net |> | None => s end.

(** [2026-10-07T14:32:11+02:00] becomes [07.10. 14:32]. *)
Definition short_time (ts : list Z) : list Z :=
  let ts := c_str ts in
  if (16 <=? length ts)%nat
  then snprintf 16 (take 2 (drop 8 ts) ++ str "." ++ take 2 (drop 5 ts) ++ str ". " ++ take 5 (drop 11 ts)) else [].

Definition display_sms_event (event : sms_service_event_t) (message : option sms_message_t) (s : display) : display :=
  match event, message with
  | SMS_SERVICE_EVENT_RECEIVED, Some m =>
      if negb (bool_decide (direction m = SMS_DIRECTION_INBOUND)) then s
      else
        s <| dp_sms_id := id m |>
          <| dp_sms_sender := utf8_to_ascii (sender m) SMS_MAX_ADDRESS_LENGTH |>
          <| dp_sms_time := short_time (service_center_timestamp m) |>
          <| dp_sms_preview := if CONFIG_GATEWAY_DISPLAY_SMS_PREVIEW cfg then utf8_to_ascii (SmsMessage.text m) 64 else [] |>
  | _, _ => s
  end.

(** The static variables and those of the task when it starts. *)
Definition display_start (now : Z) : display :=
  mk_display None 0 [] [] [] false 0 0 view_zero minor_zero true true now 0 (replicate GATEWAY_BUTTON_COUNT 0) false [].

(** The errors of the calls up to the cleared screen, of the two calls that
    switch the panel on, and of [modem_core_add_sms_event_callback]. *)
Definition display_service_init (allocated : bool) (setup switch_on : list esp_err_t) (observer : esp_err_t) (task : bool) (s : display)
  : display * esp_err_t :=
  if negb allocated then (s, ESP_ERR_NO_MEM)
  else
    match filter (.≠ ESP_OK) setup with
    | err :: _ => (s, err)
    | [] =>
        let s := display_log (DE_frame (dp_shift_x s) (dp_shift_y s) (draw (CONFIG_GATEWAY_DISPLAY_SMS_PREVIEW cfg) [] None)) s in
        match filter (.≠ ESP_OK) (switch_on ++ [observer]) with
        | err :: _ => (s, err)
        | [] => (s, if task then ESP_OK else ESP_ERR_NO_MEM)
        end
    end.

(** ** All of it *)

Inductive display_step :=
  | DS_turn (env : display_environment)
  | DS_network (snapshot : option network_service_snapshot_t)
  | DS_sms (event : sms_service_event_t) (message : option sms_message_t).

Definition display_step_run (s : display) (step : display_step) : display :=
  match step with
  | DS_turn env => display_turn env s
  | DS_network snapshot => display_service_network_event snapshot s
  | DS_sms event message => display_sms_event event message s
  end.

Definition display_run (s : display) (steps : list display_step) : display := fold_left display_step_run steps s.

End Task.

(** ** The buttons *)

Section Facts.

Variable cfg : display_config.

#[local] Arguments byte_at : simpl never.
#[local] Arguments GATEWAY_BUTTON_MENU : simpl never.
#[local] Arguments GATEWAY_BUTTON_COUNT : simpl never.

Definition requests (tr : list display_effect) : nat :=
  length (List.filter (fun e => if e is DE_open_portal then true else false) tr).

(** What the MENU button is about. *)
Definition hold_state (s : display) : nat * Z * bool * nat :=
  (length (dp_press_started_ms s), (dp_press_started_ms s).[GATEWAY_BUTTON_MENU], dp_long_press_fired s, requests (dp_trace s)).

Lemma nth_insert_ne (l : list Z) (i j : nat) v : i <> j -> (<[i := v]> l).[j] = l.[j].
Proof. intros H. unfold byte_at. rewrite !nth_lookup. by rewrite list_lookup_insert_ne. Qed.

Lemma nth_insert_eq (l : list Z) (i : nat) v : (i < length l)%nat -> (<[i := v]> l).[i] = v.
Proof. intros H. unfold byte_at. rewrite !nth_lookup. by rewrite list_lookup_insert_eq. Qed.

Lemma button_step_other env s wake b :
  b <> GATEWAY_BUTTON_MENU -> hold_state (button_step cfg env (s, wake) b).1 = hold_state s.
Proof.
  intros Hb. unfold button_step, hold_state. rewrite (proj2 (Nat.eqb_neq b _) Hb). cbn [andb].
  destruct (de_pressed env b); [destruct (_ =? 0)|]; cbn; by rewrite ?length_insert, ?nth_insert_ne.
Qed.

Lemma button_step_menu env s wake :
  de_pressed env GATEWAY_BUTTON_MENU = true -> length (dp_press_started_ms s) = GATEWAY_BUTTON_COUNT -> de_now env <> 0 ->
  let start := if (dp_press_started_ms s).[GATEWAY_BUTTON_MENU] =? 0 then de_now env else (dp_press_started_ms s).[GATEWAY_BUTTON_MENU] in
  let fires := negb (dp_long_press_fired s) && (CONFIG_GATEWAY_DISPLAY_PORTAL_HOLD_SECONDS cfg * 1000 <=? de_now env - start) in
  hold_state (button_step cfg env (s, wake) GATEWAY_BUTTON_MENU).1 =
    (GATEWAY_BUTTON_COUNT, start, dp_long_press_fired s || fires, requests (dp_trace s) + (if fires then 1 else 0))%nat.
Proof.
  intros Hp Hl Hn. unfold button_step, hold_state. rewrite Hp, Nat.eqb_refl. cbn [andb].
  destruct (_ =? 0) eqn:E; cbv zeta.
  - cbn [dp_long_press_fired dp_press_started_ms update]. rewrite nth_insert_eq by (rewrite Hl; unfold GATEWAY_BUTTON_MENU, GATEWAY_BUTTON_COUNT; lia).
    destruct (dp_long_press_fired s) eqn:Ef; cbn [negb andb orb]; [|destruct (_ <=? _)];
      cbn; rewrite ?length_insert, ?Hl, ?nth_insert_eq by (rewrite Hl; unfold GATEWAY_BUTTON_MENU, GATEWAY_BUTTON_COUNT; lia);
      by rewrite ?Ef, ?Nat.add_0_r, ?Nat.add_1_r.
  - destruct (dp_long_press_fired s) eqn:Ef; cbn [negb andb orb]; [|destruct (_ <=? _)]; 
      cbn; by rewrite ?Hl, ?Ef, ?Nat.add_0_r, ?Nat.add_1_r.
Qed.

Lemma refresh_hold env wake s : hold_state (refresh cfg env wake s) = hold_state s.
Proof.
  unfold refresh. destruct (collect env _) as [current current_minor]. cbv zeta.
  set (s1 := s <| dp_last_refresh_ms := de_now env |>). assert (hold_state s1 = hold_state s) as E1 by done.
  set (s2 := if wake || _ then _ else _). assert (hold_state s2 = hold_state s) as E2.
  { rewrite <- E1. unfold s2, wake_up. destruct (wake || _); [destruct (negb _)|destruct (_ && _)]; done. }
  set (s3 := if wake || _ || _ then _ else s2). assert (hold_state s3 = hold_state s) as E3.
  { rewrite <- E2. unfold s3. by destruct (wake || _ || _). }
  clearbody s3. rewrite <- E3. by destruct (_ && _ && _).
Qed.

Lemma turn_hold env s : hold_state (display_turn cfg env s) = hold_state (buttons cfg env s).1.
Proof.
  unfold display_turn. destruct (buttons cfg env s) as [s' wake]. cbn [fst]. destruct (_ || _); [apply refresh_hold|done].
Qed.

(** The buttons in front of MENU. *)
Lemma first_buttons env s :
  exists s2 w2, buttons cfg env s = button_step cfg env (s2, w2) GATEWAY_BUTTON_MENU /\ hold_state s2 = hold_state s.
Proof.
  unfold buttons. change (seq 0 GATEWAY_BUTTON_COUNT) with [0%nat; 1%nat; 2%nat; GATEWAY_BUTTON_MENU]. cbn [fold_left].
  destruct (button_step cfg env (s, false) 0) as [s0 w0] eqn:E0. destruct (button_step cfg env (s0, w0) 1) as [s1 w1] eqn:E1.
  destruct (button_step cfg env (s1, w1) 2) as [s2 w2] eqn:E2. exists s2, w2. split; [done|].
  pose proof (button_step_other env s false 0 ltac:(done)) as H0. pose proof (button_step_other env s0 w0 1 ltac:(done)) as H1.
  pose proof (button_step_other env s1 w1 2 ltac:(done)) as H2. rewrite E0 in H0. rewrite E1 in H1. rewrite E2 in H2.
  cbn [fst] in *. congruence.
Qed.

Lemma buttons_menu env s :
  de_pressed env GATEWAY_BUTTON_MENU = true -> length (dp_press_started_ms s) = GATEWAY_BUTTON_COUNT -> de_now env <> 0 ->
  let start := if (dp_press_started_ms s).[GATEWAY_BUTTON_MENU] =? 0 then de_now env else (dp_press_started_ms s).[GATEWAY_BUTTON_MENU] in
  let fires := negb (dp_long_press_fired s) && (CONFIG_GATEWAY_DISPLAY_PORTAL_HOLD_SECONDS cfg * 1000 <=? de_now env - start) in
  hold_state (display_turn cfg env s) =
    (GATEWAY_BUTTON_COUNT, start, dp_long_press_fired s || fires, requests (dp_trace s) + (if fires then 1 else 0))%nat.
Proof.
  intros Hp Hl Hn. rewrite turn_hold. destruct (first_buttons env s) as (s2 & w2 & -> & E).
  injection E as E3 E4 E5 E6. rewrite <- E4, <- E5, <- E6. apply button_step_menu; congruence.
Qed.

Definition step_time (step : display_step) : option Z := match step with DS_turn env => Some (de_now env) | _ => None end.

(** The times of the turns. *)
Definition times (steps : list display_step) : list Z := omap step_time steps.

Definition holds_menu (step : display_step) : Prop :=
  match step with DS_turn env => de_pressed env GATEWAY_BUTTON_MENU = true /\ 0 < de_now env | _ => True end.

(** The turns behind the first one. *)
Lemma hold_run steps s start :
  Forall holds_menu steps -> length (dp_press_started_ms s) = GATEWAY_BUTTON_COUNT ->
  (dp_press_started_ms s).[GATEWAY_BUTTON_MENU] = start -> start <> 0 ->
  requests (dp_trace (display_run cfg s steps)) =
    (requests (dp_trace s) +
     if negb (dp_long_press_fired s) && existsb (fun t => Z.leb (CONFIG_GATEWAY_DISPLAY_PORTAL_HOLD_SECONDS cfg * 1000) (t - start)) (times steps)
     then 1 else 0)%nat.
Proof.
  intros Hs. revert s. induction Hs as [|step steps Hstep _ IH]; intros s Hl Hst Hne.
  { cbn. rewrite andb_false_r. lia. }
  cbn [display_run fold_left]. fold (display_run cfg (display_step_run cfg s step) steps).
  destruct step as [env|snapshot|event message].
  - destruct Hstep as [Hp Hn]. cbn [display_step_run]. pose proof (buttons_menu env s Hp Hl ltac:(lia)) as E. cbv zeta in E.
    rewrite Hst, (proj2 (Z.eqb_neq start 0) Hne) in E. injection E as E1 E2 E3 E4. rewrite IH, E3, E4 by congruence.
    change (times (DS_turn env :: steps)) with (de_now env :: times steps). cbn [existsb].
    destruct (dp_long_press_fired s); cbn [negb andb orb]; [lia|]. destruct (_ <=? _); cbn [negb andb orb]; lia.
  - change (times (DS_network snapshot :: steps)) with (times steps). cbn [display_step_run].
    assert (hold_state (display_service_network_event snapshot s) = hold_state s) as E by (by destruct snapshot).
    injection E as E1 E2 E3 E4. rewrite <- E3, <- E4. apply IH; congruence.
  - change (times (DS_sms event message :: steps)) with (times steps). cbn [display_step_run].
    assert (hold_state (display_sms_event cfg event message s) = hold_state s) as E
      by (unfold display_sms_event; by repeat case_match).
    injection E as E1 E2 E3 E4. rewrite <- E3, <- E4. apply IH; congruence.
Qed.

Lemma release_arms env s :
  de_pressed env GATEWAY_BUTTON_MENU = false -> length (dp_press_started_ms s) = GATEWAY_BUTTON_COUNT ->
  hold_state (display_turn cfg env s) = (GATEWAY_BUTTON_COUNT, 0, false, requests (dp_trace s)).
Proof.
  intros Hp Hl. rewrite turn_hold. destruct (first_buttons env s) as (s2 & w2 & -> & E).
  injection E as E3 E4 E5 E6. unfold requests in *. unfold button_step, hold_state. rewrite Hp, Nat.eqb_refl. unfold requests. cbn.
  by rewrite length_insert, nth_insert_eq, E3, Hl, E6 by (rewrite E3, Hl; unfold GATEWAY_BUTTON_MENU, GATEWAY_BUTTON_COUNT; lia).
Qed.

Lemma turn_length env s :
  length (dp_press_started_ms s) = GATEWAY_BUTTON_COUNT -> length (dp_press_started_ms (display_turn cfg env s)) = GATEWAY_BUTTON_COUNT.
Proof.
  intros Hl. destruct (de_pressed env GATEWAY_BUTTON_MENU) eqn:Hp; [|by pose proof (release_arms env s Hp Hl) as E; injection E].
  pose proof (turn_hold env s) as E. destruct (first_buttons env s) as (s2 & w2 & Eb & E2). rewrite Eb in E.
  injection E2 as E3 _ _ _. injection E as E _ _ _. rewrite E. unfold button_step. rewrite Hp.
  repeat case_match; simplify_eq; cbn; rewrite ?length_insert; congruence.
Qed.

Lemma run_length steps s :
  length (dp_press_started_ms s) = GATEWAY_BUTTON_COUNT -> length (dp_press_started_ms (display_run cfg s steps)) = GATEWAY_BUTTON_COUNT.
Proof.
  revert s. induction steps as [|step steps IH]; intros s Hl; [done|]. cbn [display_run fold_left]. apply IH.
  destruct step as [env|snapshot|event message]; cbn [display_step_run]; [by apply turn_length|by destruct snapshot|].
  unfold display_sms_event. by repeat case_match.
Qed.

(** Holding MENU asks for the setup portal once: not before the button was
    held for the configured time, at the first turn that finds it held so
    long, and not again however long it is held, whatever the other buttons,
    the screen and the other tasks do meanwhile.  Releasing it arms it again. *)
Theorem menu_hold_asks_once env steps s :
  length (dp_press_started_ms s) = GATEWAY_BUTTON_COUNT -> (dp_press_started_ms s).[GATEWAY_BUTTON_MENU] = 0 ->
  dp_long_press_fired s = false -> Forall holds_menu (DS_turn env :: steps) ->
  let held t := CONFIG_GATEWAY_DISPLAY_PORTAL_HOLD_SECONDS cfg * 1000 <=? t - de_now env in
  let s' := display_run cfg s (DS_turn env :: steps) in
  requests (dp_trace s') = (requests (dp_trace s) + if existsb held (de_now env :: times steps) then 1 else 0)%nat /\
  forall env', de_pressed env' GATEWAY_BUTTON_MENU = false ->
    let s'' := display_turn cfg env' s' in
    (dp_press_started_ms s'').[GATEWAY_BUTTON_MENU] = 0 /\ dp_long_press_fired s'' = false /\
    requests (dp_trace s'') = requests (dp_trace s').
Proof.
  intros Hl H0 Hf Hs. apply Forall_cons in Hs as [[Hp Hn] Hs]. cbv zeta.
  change (display_run cfg s (DS_turn env :: steps)) with (display_run cfg (display_turn cfg env s) steps).
  pose proof (buttons_menu env s Hp Hl ltac:(lia)) as E. cbv zeta in E. rewrite H0, Hf in E. cbn [negb andb orb] in E.
  change (0 =? 0) with true in E. injection E as E1 E2 E3 E4. split.
  - rewrite (hold_run steps _ (de_now env)), E3, E4 by (done || lia). cbn [existsb].
    destruct (_ <=? de_now env - de_now env); cbn [negb andb orb]; lia.
  - intros env' Hp'.
    pose proof (release_arms env' (display_run cfg (display_turn cfg env s) steps) Hp' (run_length steps _ E1)) as Er.
    by injection Er as E5 E6 E7 E8.
Qed.

(** ** The screen *)

Definition last_frame (tr : list display_effect) : option (list rect) :=
  head (omap (fun e => match e with DE_frame _ _ rects => Some rects | _ => None end) tr).

(** What the screen depends on besides the buttons. *)
Definition screen_state (s : display) : view_significant_t * view_minor_t * bool * bool * Z * Z * option (list rect) :=
  (dp_shown s, dp_shown_minor s, dp_on s, dp_first s, dp_last_activity_ms s, dp_last_refresh_ms s, last_frame (dp_trace s)).

Lemma button_step_screen env s wake b : screen_state (button_step cfg env (s, wake) b).1 = screen_state s.
Proof. unfold button_step. by repeat case_match; simplify_eq. Qed.

Lemma buttons_screen env s : screen_state (buttons cfg env s).1 = screen_state s.
Proof.
  unfold buttons. generalize false as wake, (seq 0 GATEWAY_BUTTON_COUNT) as l. intros wake l. revert s wake.
  induction l as [|b l IH]; intros s wake; [done|]. cbn [fold_left].
  destruct (button_step cfg env (s, wake) b) as [s' wake'] eqn:E. rewrite IH.
  pose proof (button_step_screen env s wake b) as H. by rewrite E in H.
Qed.

(** The boots of a run find the text [crash] of the last crash, or it was
    cleared. *)
Definition finds_crash (crash : list Z) (step : display_step) : Prop :=
  match step with DS_turn env => (de_last_crash env).1 = crash \/ (de_last_crash env).1 = [] | _ => True end.

Definition frame_of (crash : list Z) (view : view_significant_t * view_minor_t) : list rect :=
  draw (CONFIG_GATEWAY_DISPLAY_SMS_PREVIEW cfg) crash (Some view).

Lemma frame_of_crash crash env s :
  finds_crash crash (DS_turn env) -> frame_of (de_last_crash env).1 (collect env s) = frame_of crash (collect env s).
Proof.
  intros [-> | E]; [done|]. unfold frame_of, draw, collect. cbn [vw_page]. unfold collect_page. rewrite E.
  rewrite bool_decide_eq_false_2 by (intros ?; done). rewrite andb_false_r. cbn [andb].
  repeat (case_match; try done).
Qed.

(** A lit screen shows the last frame. *)
Definition screen_inv (crash : list Z) (s : display) : Prop :=
  dp_first s = false -> dp_on s = true -> last_frame (dp_trace s) = Some (frame_of crash (dp_shown s, dp_shown_minor s)).

(** The end of [refresh]: dark after the timeout. *)
Definition darken (env : display_environment) (timeout : Z) (s : display) : display :=
  if dp_on s && (0 <? timeout) && (timeout * 1000 <=? de_now env - dp_last_activity_ms s)
  then (panel_power false s) <| dp_on := false |> else s.

Lemma darken_spec env timeout s :
  let s' := darken env timeout s in
  collect env s' = collect env s /\ dp_first s' = dp_first s /\ last_frame (dp_trace s') = last_frame (dp_trace s) /\
  dp_shown s' = dp_shown s /\ dp_shown_minor s' = dp_shown_minor s /\ dp_last_activity_ms s' = dp_last_activity_ms s /\
  (dp_last_activity_ms s = de_now env -> dp_on s' = dp_on s) /\ (dp_on s' = true -> dp_on s = true) /\
  (dp_on s' = true -> 0 < timeout -> de_now env - dp_last_activity_ms s' < timeout * 1000).
Proof.
  unfold darken. destruct (dp_on s && _ && _) eqn:E; cbv zeta; split_and!; try done.
  - cbn. intros. lia.
  - intros Hon. rewrite Hon in E. intros. destruct (Z.ltb_spec 0 timeout); [|lia]. cbn [andb] in E. lia.
Qed.

(** What [refresh] does in front of it. *)
Definition redraw (env : display_environment) (wake : bool) (s : display) : display :=
  let view := collect env s in
  let s1 := s <| dp_last_refresh_ms := de_now env |> in
  if wake then (wake_up cfg env view s1) <| dp_shown := view.1 |> <| dp_shown_minor := view.2 |> <| dp_first := false |>
  else if dp_on s && bool_decide (view.2 <> dp_shown_minor s)
  then (render_view cfg env view s1) <| dp_shown := view.1 |> <| dp_shown_minor := view.2 |> <| dp_first := false |>
  else s1 <| dp_first := false |>.

Lemma refresh_redraw env wake s :
  refresh cfg env wake s =
    darken env (timeout_of cfg (vw_page (collect env s).1))
      (redraw env (wake || (dp_first s || bool_decide ((collect env s).1 <> dp_shown s))) s).
Proof.
  unfold refresh, redraw. change (collect env (s <| dp_last_refresh_ms := de_now env |>)) with (collect env s).
  destruct (collect env s) as [current minor]. cbn [fst snd]. cbv zeta.
  change (dp_first (s <| dp_last_refresh_ms := de_now env |>)) with (dp_first s).
  change (dp_shown (s <| dp_last_refresh_ms := de_now env |>)) with (dp_shown s).
  set (s1 := s <| dp_last_refresh_ms := de_now env |>).
  destruct (wake || _); [done|]. cbn [orb].
  change (dp_on s1) with (dp_on s). change (dp_shown_minor s1) with (dp_shown_minor s).
  destruct (dp_on s) eqn:Eo; cbn [andb]; [|by change (dp_on s1) with (dp_on s); rewrite Eo].
  destruct (bool_decide (minor <> dp_shown_minor s)) eqn:Em; [|by change (dp_on s1) with (dp_on s); rewrite Eo].
  change (dp_on (render_view cfg env (current, minor) s1)) with (dp_on s). by rewrite Eo.
Qed.

(** What [refresh] does to the screen. *)
Lemma refresh_spec crash env wake s :
  finds_crash crash (DS_turn env) -> screen_inv crash s ->
  let s' := refresh cfg env wake s in
  let wakes := wake || (dp_first s || bool_decide ((collect env s).1 <> dp_shown s)) in
  collect env s' = collect env s /\ dp_first s' = false /\
  (dp_on s' = true -> last_frame (dp_trace s') = Some (frame_of crash (collect env s)) /\
     (dp_shown s', dp_shown_minor s') = collect env s) /\
  dp_last_activity_ms s' = (if wakes then de_now env else dp_last_activity_ms s) /\
  (wakes = true -> dp_on s' = true) /\
  (dp_on s' = true -> 0 < timeout_of cfg (vw_page (collect env s).1) ->
     de_now env - dp_last_activity_ms s' < timeout_of cfg (vw_page (collect env s).1) * 1000).
Proof.
  intros Hc Hinv. cbv zeta. rewrite refresh_redraw. set (wakes := wake || _).
  set (s1 := redraw env wakes s). set (timeout := timeout_of _ _).
  assert (collect env s1 = collect env s /\ dp_first s1 = false /\
    dp_last_activity_ms s1 = (if wakes then de_now env else dp_last_activity_ms s) /\
    (dp_on s1 = true -> last_frame (dp_trace s1) = Some (frame_of crash (collect env s)) /\
       (dp_shown s1, dp_shown_minor s1) = collect env s) /\ (wakes = true -> dp_on s1 = true)) as (H1 & H2 & H3 & H4 & H5).
  { rewrite <- (frame_of_crash crash env s Hc). unfold s1, redraw, wake_up.
    destruct wakes eqn:Ew; [|destruct (dp_on _ && _) eqn:Eo].
    - match goal with |- context [negb (dp_on ?x)] => change (dp_on x) with (dp_on s) end. destruct (dp_on s) eqn:Eon; cbn [negb];
        (split; [done|]; split; [done|]; split; [done|]; split; [|done]; intros _; split; [done|]; symmetry; apply surjective_pairing).
    - split; [done|]; split; [done|]; split; [done|]; split; [|done]; intros _; split; [done|]; symmetry; apply surjective_pairing.
    - split_and!; try done. intros Hon. unfold wakes in Ew. apply orb_false_iff in Ew as [_ Ew].
      apply orb_false_iff in Ew as [Ef Ed]. apply bool_decide_eq_false in Ed. apply dec_stable in Ed.
      change (dp_on s = true) in Hon. rewrite Hon in Eo. cbn [andb] in Eo.
      apply bool_decide_eq_false in Eo. apply dec_stable in Eo. 
      change (last_frame (dp_trace s) = Some (frame_of (de_last_crash env).1 (collect env s)) /\ (dp_shown s, dp_shown_minor s) = collect env s).
      assert ((dp_shown s, dp_shown_minor s) = collect env s) as E by (rewrite <- Ed, <- Eo; by destruct (collect env s)).
      rewrite (Hinv Ef Hon), E. by rewrite (frame_of_crash crash env s Hc). }
  destruct (darken_spec env timeout s1) as (D1 & D2 & D3 & D4 & D5 & D6 & D7 & D8 & D9).
  rewrite D1, D2, D3, D4, D5, D6. split_and!; try done.
  - intros Hon. by apply H4, D8.
  - intros Hw. rewrite D7; [by apply H5|]. by rewrite H3, Hw.
  - rewrite <- D6. exact D9.
Qed.

Lemma turn_screen_inv crash env s :
  finds_crash crash (DS_turn env) -> screen_inv crash s -> screen_inv crash (display_turn cfg env s).
Proof.
  intros Hc Hinv. unfold display_turn. pose proof (buttons_screen env s) as E.
  destruct (buttons cfg env s) as [s1 wake]. cbn [fst] in E. injection E as E1 E2 E3 E4 E5 E6 E7.
  assert (screen_inv crash s1) as Hinv1 by (unfold screen_inv; by rewrite E1, E2, E3, E4, E7).
  destruct (_ || _); [|done]. destruct (refresh_spec crash env wake s1 Hc Hinv1) as (_ & _ & Hf & _).
  intros _ Hon. destruct (Hf Hon) as [-> ->]. done.
Qed.

Lemma run_screen_inv crash steps s :
  Forall (finds_crash crash) steps -> screen_inv crash s -> screen_inv crash (display_run cfg s steps).
Proof.
  intros Hs. revert s. induction Hs as [|step steps Hc _ IH]; intros s Hinv; [done|]. cbn [display_run fold_left]. apply IH.
  destruct step as [env|snapshot|event message]; cbn [display_step_run]; [by apply turn_screen_inv|by destruct snapshot|].
  unfold display_sms_event. by repeat case_match.
Qed.

(** A button is pressed that was not pressed before. *)
Definition new_press (env : display_environment) (s : display) : bool := (buttons cfg env s).2.


End Facts.

(** ** Witnesses *)

Definition sample_display_config : display_config := mk_display_config 60 300 5 true.

(** Nothing else is up yet; the buttons that are pressed are in [pressed]. *)
Definition sample_display_env (now : Z) (pressed : list nat) : display_environment :=
  mk_display_env now (fun b => bool_decide (b ∈ pressed)) GATEWAY_SAFE_MODE_OFF ([], false) None MODEM_STATE_WAIT_USB None.

(** MENU is held for six seconds, while UP is pressed and released, and then
    released. *)
Lemma menu_hold_asks_once_witness :
  let turn now pressed := DS_turn (sample_display_env now pressed) in
  let s := display_run sample_display_config (display_start 100)
    [turn 200 [3%nat]; turn 1200 [1%nat; 3%nat]; DS_network None; turn 5199 [3%nat]; turn 5200 [3%nat]; turn 6200 [3%nat]] in
  requests (dp_trace s) = 1%nat /\
  requests (dp_trace (display_turn sample_display_config (sample_display_env 6300 []) s)) = 1%nat.
Proof.
  cbv zeta.
  destruct (menu_hold_asks_once sample_display_config (sample_display_env 200 [3%nat])
    [DS_turn (sample_display_env 1200 [1%nat; 3%nat]); DS_network None; DS_turn (sample_display_env 5199 [3%nat]);
     DS_turn (sample_display_env 5200 [3%nat]); DS_turn (sample_display_env 6200 [3%nat])] (display_start 100)) as [E R].
  - reflexivity.
  - reflexivity.
  - reflexivity.
  - repeat constructor.
  - split; [exact E|]. etransitivity; [apply R; reflexivity|exact E].
Defined.

