(* ===== verification/AppMain.v ===== *)
(** * Starting, and the port that two servers share (main/app_main.c)

    The start of the components over the diagnostics of GatewayDiag, and the
    supervisor of the management API with the network task, step by step: the
    API and the setup portal both need port 80.  What the components answer is
    a parameter; their own files model them. *)

From Stdlib Require Import Ascii String.
From Stdlib Require Import ZifyBool ZifyNat.
From stdpp Require Import base numbers list strings relations.
From S2P Require Import Prelude.
From S2P Require Import Nvs.
From S2P Require Import GatewayBoard.
From S2P Require Import GatewayDiag.
From S2P Require Import StateMonad.
From S2P Require Import GatewayDiagFacts.
From S2P Require Import NetworkService.
From S2P Require Import Http.
From S2P Require Import DisplayService.

Open Scope Z_scope.

(** ** Starting *)

Definition ESP_ERR_NVS_NO_FREE_PAGES : esp_err_t := ESP_ERR_OTHER 0x110d.
Definition ESP_ERR_NVS_NEW_VERSION_FOUND : esp_err_t := ESP_ERR_OTHER 0x1110.

(** What [app_main] calls; the supervisor's mutex and task are one call, whose
    error is ESP_ERR_NO_MEM. *)
Inductive boot_call :=
  | BC_nvs_flash_init
  | BC_nvs_flash_erase
  | BC_board
  | BC_ota
  | BC_security
  | BC_idempotency
  | BC_settings
  | BC_display
  | BC_modem (start_usb_host : bool)
  | BC_supervisor
  | BC_network
  | BC_mqtt
  | BC_services_ready.

#[export] Instance boot_call_eq_dec : EqDecision boot_call.
Proof. solve_decision. Defined.

(** How [app_main] ends: it returns, a step failed for good, or a component
    crashed. *)
Inductive boot_end :=
  | BE_started
  | BE_failed
  | BE_crashed.

#[export] Instance boot_end_eq_dec : EqDecision boot_end.
Proof. solve_decision. Defined.

(** The text of a step: the argument of the macro. *)
Definition boot_expr (c : boot_call) : list Z :=
  match c with
  | BC_board => str "gateway_board_init()"
  | BC_ota => str "gateway_ota_service_init()"
  | BC_security => str "gateway_security_init(NULL, 0, &token_generated)"
  | BC_idempotency => str "gateway_idempotency_init()"
  | BC_settings => str "gateway_settings_init(network_service_device_id())"
  | BC_supervisor => str "supervisor task"
  | BC_network => str "network_service_init(&net_cfg)"
  | BC_mqtt => str "mqtt_service_init()"
  | BC_services_ready => str "gateway_ota_mark_services_ready()"
  | _ => []
  end.

Section Boot.

Context {N : Type} `{NvsStrings N}.

(** [ae_answer]: what a call, the first of the list, answers behind the
    others; [None] if it crashes.  [ae_err_name]: [esp_err_to_name];
    [ae_erase]: [nvs_flash_erase]; [ae_heap]: the free heap and its largest
    block. *)
Record app_environment := mk_app_env {
  ae_boot : boot_environment;
  ae_answer : list boot_call -> option esp_err_t;
  ae_err_name : esp_err_t -> list Z;
  ae_erase : N -> N;
  ae_heap : Z * Z;
}.

Record app := mk_app { ap_diag : diag N; ap_calls : list boot_call }.

#[global] Instance eta_app : Eta app := fun a => mk_app (ap_diag a) (ap_calls a).

Abbreviation M := (State app).

Variable env : app_environment.

Definition boot_ask (c : boot_call) : M (option esp_err_t) := fun a =>
  (a <| ap_calls := c :: ap_calls a |>, ae_answer env (c :: ap_calls a)).

(** [gateway_diag_boot_step_failed]; it does not return. *)
Definition boot_failed (expr : list Z) (err : esp_err_t) : M boot_end := fun a =>
  (a <| ap_diag := gateway_diag_boot_step_failed expr (ae_err_name env err) (esp_err_code err)
                     (ae_heap env).1 (ae_heap env).2 (ap_diag a) |>, BE_failed).

Definition BOOT_STEP (c : boot_call) (rest : M boot_end) : M boot_end :=
  answer ← boot_ask c;
  match answer with
  | None => mret BE_crashed
  | Some err => if bool_decide (err <> ESP_OK) then boot_failed (boot_expr c) err else rest
  end.

(** A component whose error is only logged. *)
Definition boot_optional (c : boot_call) (rest : M boot_end) : M boot_end :=
  answer ← boot_ask c;
  match answer with None => mret BE_crashed | Some _ => rest end.

Definition init_nvs : M (option esp_err_t) :=
  err ← boot_ask BC_nvs_flash_init;
  if bool_decide (err = Some ESP_ERR_NVS_NO_FREE_PAGES) || bool_decide (err = Some ESP_ERR_NVS_NEW_VERSION_FOUND) then
    erased ← boot_ask BC_nvs_flash_erase;
    if bool_decide (erased <> Some ESP_OK) then mret erased
    else
      modify (fun a => a <| ap_diag := (ap_diag a) <| dg_nvs := ae_erase env (dg_nvs (ap_diag a)) |> |>);;
      boot_ask BC_nvs_flash_init
  else mret err.

(** Behind the diagnostics. *)
Definition start_services : M boot_end :=
  safe_mode ← gets (fun a => gateway_diag_safe_mode (ap_diag a));
  BOOT_STEP BC_board
  (BOOT_STEP BC_ota
  (BOOT_STEP BC_security
  (BOOT_STEP BC_idempotency
  (BOOT_STEP BC_settings
  ((if bool_decide (safe_mode = GATEWAY_SAFE_MODE_NO_MODEM_NO_DISPLAY) then fun rest => rest else boot_optional BC_display)
  (boot_optional (BC_modem (bool_decide (safe_mode = GATEWAY_SAFE_MODE_OFF)))
  (BOOT_STEP BC_supervisor
  (BOOT_STEP BC_network
  (BOOT_STEP BC_mqtt
  (BOOT_STEP BC_services_ready
  (mret BE_started))))))))))).

Definition app_main : M boot_end :=
  err ← init_nvs;
  if bool_decide (err <> Some ESP_OK) then mret BE_crashed
  else
    err ← zoom ap_diag (fun d a => a <| ap_diag := d |>) (gateway_diag_init (ae_boot env));
    if bool_decide (err <> ESP_OK) then mret BE_crashed else start_services.

(** A boot: the chip is reset in front of it. *)
Definition app_boot (d : diag N) : app * boot_end := app_main (mk_app (reset (ae_boot env) d) []).

End Boot.

#[global] Arguments app_environment N : clear implicits.
#[global] Arguments app N : clear implicits.

(** ** The port *)

Definition want_api (net : network_service_snapshot_t) : bool := ns_connected net && negb (ns_provisioning net).

(** Where the supervisor is: waiting, before reading the snapshot, before
    taking the mutex, holding it, and before giving it back. *)
Inductive supervisor_pc :=
  | SV_wait
  | SV_read
  | SV_decided (want : bool)
  | SV_locked (want : bool)
  | SV_give.

(** Where the network task is in [open_portal] and [before_portal_start]:
    elsewhere, before taking the mutex, holding it, before giving it back,
    before starting the servers of the portal, behind it, or between stopping
    them and saying so ([close_portal]). *)
Inductive network_pc :=
  | NP_idle
  | NP_before
  | NP_locked
  | NP_give
  | NP_opening
  | NP_started
  | NP_closing.

Inductive lock_owner := Supervisor | Network.

(** [pt_api]: [s_server] of api_server.c; [pt_portal]: [s_httpd] of
    provisioning_portal.c. *)
Record port80 := mk_port80 {
  pt_net : network_service_snapshot_t;
  pt_api : bool;
  pt_portal : bool;
  pt_lock : option lock_owner;
  pt_supervisor : supervisor_pc;
  pt_network : network_pc;
}.

#[export] Instance eta_port80 : Eta port80 := fun s =>
  mk_port80 (pt_net s) (pt_api s) (pt_portal s) (pt_lock s) (pt_supervisor s) (pt_network s).

(** Every step of the two tasks.  A server starts only if the other one does
    not have the port. *)
Inductive port_step : port80 -> port80 -> Prop :=
  (** supervisor_task *)
  | PS_wake s : pt_supervisor s = SV_wait -> port_step s (s <| pt_supervisor := SV_read |>)
  | PS_read s : pt_supervisor s = SV_read -> port_step s (s <| pt_supervisor := SV_decided (want_api (pt_net s)) |>)
  | PS_timeout s want : pt_supervisor s = SV_decided want -> port_step s (s <| pt_supervisor := SV_wait |>)
  | PS_lock s want :
      pt_supervisor s = SV_decided want -> pt_lock s = None ->
      port_step s (s <| pt_supervisor := SV_locked want |> <| pt_lock := Some Supervisor |>)
  | PS_init s want started :
      pt_supervisor s = SV_locked want -> (started = true -> pt_portal s = false) ->
      port_step s (s <| pt_supervisor := SV_give |> <| pt_api := pt_api s || want && started |>)
  | PS_give s : pt_supervisor s = SV_give -> port_step s (s <| pt_supervisor := SV_wait |> <| pt_lock := None |>)
  (** network_task outside of the portal *)
  | PS_network s net :
      pt_network s = NP_idle -> ns_provisioning net = ns_provisioning (pt_net s) -> port_step s (s <| pt_net := net |>)
  (** open_portal and before_portal_start *)
  | PS_open s : pt_network s = NP_idle -> ns_provisioning (pt_net s) = false -> port_step s (s <| pt_network := NP_before |>)
  | PS_take s :
      pt_network s = NP_before -> pt_lock s = None ->
      port_step s (s <| pt_network := NP_locked |> <| pt_lock := Some Network |>)
  | PS_stop s : pt_network s = NP_locked -> port_step s (s <| pt_network := NP_give |> <| pt_api := false |>)
  | PS_given s : pt_network s = NP_give -> port_step s (s <| pt_network := NP_opening |> <| pt_lock := None |>)
  | PS_start s :
      pt_network s = NP_opening -> pt_api s = false -> port_step s (s <| pt_network := NP_started |> <| pt_portal := true |>)
  | PS_not_started s : pt_network s = NP_opening -> port_step s (s <| pt_network := NP_idle |>)
  | PS_announce s net :
      pt_network s = NP_started -> ns_provisioning net = true ->
      port_step s (s <| pt_network := NP_idle |> <| pt_net := net |>)
  (** close_portal *)
  | PS_close s :
      pt_network s = NP_idle -> ns_provisioning (pt_net s) = true ->
      port_step s (s <| pt_network := NP_closing |> <| pt_portal := false |>)
  | PS_closed s net :
      pt_network s = NP_closing -> ns_provisioning net = false ->
      port_step s (s <| pt_network := NP_idle |> <| pt_net := net |>).

Definition port_start : port80 := mk_port80 NetworkService.snapshot_zero false false None SV_wait NP_idle.

(** ** The callbacks *)

(** The display, the board, and whether the supervisor was notified. *)
Definition network_changed (gpio : nat -> esp_err_t) (supervisor : bool) (snapshot : network_service_snapshot_t)
    (o : display * board * bool) : display * board * bool :=
  let '(screen, bd, notified) := o in
  (display_service_network_event (Some snapshot) screen, (gateway_board_status_led_set gpio (ns_connected snapshot) bd).1,
   supervisor || notified).


(** ** Crash loops *)

Section Loops.

Context {N : Type} `{NvsStrings N}.

#[local] Arguments gateway_diag_init : simpl never.
#[local] Arguments boot : simpl never.

(** Only the display and the modem's transport may fail or crash. *)
Definition only_optional (env : app_environment N) : Prop :=
  forall c calls,
    match c with
    | BC_display | BC_modem true => True
    | BC_modem false => ae_answer env (c :: calls) <> None
    | _ => ae_answer env (c :: calls) = Some ESP_OK
    end.

Definition display_runs (env : app_environment N) : Prop := forall calls, ae_answer env (BC_display :: calls) <> None.

(** The boot behind a crash: RTC memory survived. *)
Definition behind_crash (env : app_environment N) : Prop :=
  reason_is_abnormal (bt_reason (ae_boot env)) = true /\ bt_lost (ae_boot env) = None.

(** The boots until the gateway has started: how each ended. *)
Fixpoint app_boots (envs : list (app_environment N)) (d : diag N) : list boot_end :=
  match envs with
  | [] => []
  | env :: envs =>
      let '(a, e) := app_boot env d in
      e :: if bool_decide (e = BE_started) then [] else app_boots envs (ap_diag a)
  end.

Definition crashes_at (env : app_environment N) (d : diag N) : Z := s_crashes_before_boot (boot (ae_boot env) d).

Lemma boot_counters b (d : diag N) :
  let d' := boot b d in
  s_rtc_magic d' = DIAG_RTC_MAGIC /\ s_rtc_crashes d' = s_crashes_before_boot d' /\ 0 <= s_crashes_before_boot d' < 2 ^ 32 /\
  s_safe_mode d' = safe_mode_of (s_crashes_before_boot d') /\
  (reason_is_abnormal (bt_reason b) = true -> bt_lost b = None -> s_rtc_magic d = DIAG_RTC_MAGIC ->
    s_crashes_before_boot d' = u32 (s_rtc_crashes d + 1)).
Proof.
  unfold boot, gateway_diag_init. pose proof (collect_counts b (count_reset b (reset b d))) as (E1 & E2 & _ & E4 & _ & E6).
  set (d1 := collect_texts b (count_reset b (reset b d))) in *. clearbody d1. cbn -[count_reset DIAG_RTC_MAGIC].
  rewrite E1, E2, E4, E6. clear. unfold count_reset, safe_mode_of, DIAG_SAFE_MODE_DEEP_CRASHES, DIAG_SAFE_MODE_CRASHES.
  set (d2 := if negb _ || _ then _ else _).
  assert (s_rtc_magic d2 = DIAG_RTC_MAGIC /\ s_reason d2 = bt_reason b /\ s_safe_mode d2 = GATEWAY_SAFE_MODE_OFF) as (Em & Er & Es).
  { unfold d2, reset. destruct (default _ _) as [magic crashes]. cbn [s_rtc_magic s_reason update].
    destruct (Z.eqb_spec magic DIAG_RTC_MAGIC) as [->|]; cbn [negb orb]; [case_bool_decide|]; done. }
  cbn -[DIAG_RTC_MAGIC u32]. rewrite Er, Em, Es. split; [done|]. split; [done|]. split.
  { destruct (reason_is_abnormal _); [|lia]. unfold u32. apply Z.mod_pos_bound. lia. }
  split; [done|]. intros Ha Hl Hm. rewrite Ha. do 2 f_equal. unfold d2, reset. rewrite Hl. cbn. rewrite Hm, Z.eqb_refl. cbn.
  rewrite bool_decide_eq_false_2; [done|]. intros E. by rewrite E in Ha.
Qed.

Lemma nvs_ready env (a : app N) :
  only_optional env -> exists calls, init_nvs env a = (a <| ap_calls := calls |>, Some ESP_OK).
Proof.
  intros Ho. exists (BC_nvs_flash_init :: ap_calls a). pose proof (Ho BC_nvs_flash_init (ap_calls a)) as E. cbv beta iota in E.
  unfold init_nvs, boot_ask, mbind, state_bind. rewrite E. done.
Qed.

Definition has_diag (d : diag N) (a : app N) : Prop := ap_diag a = d.

Lemma step_triple env c rest d Q :
  (forall calls, ae_answer env (c :: calls) = Some ESP_OK) -> triple (has_diag d) rest Q -> triple (has_diag d) (BOOT_STEP env c rest) Q.
Proof. intros Ha Hr a Hd. unfold BOOT_STEP, boot_ask, mbind, state_bind. rewrite Ha. by apply Hr. Qed.

Lemma optional_triple env c rest d (Q : boot_end -> app N -> Prop) :
  ((exists calls, ae_answer env (c :: calls) = None) -> forall a, has_diag d a -> Q BE_crashed a) ->
  triple (has_diag d) rest Q -> triple (has_diag d) (boot_optional env c rest) Q.
Proof.
  intros Hc Hr a Hd. unfold boot_optional, boot_ask, mbind, state_bind. destruct (ae_answer env (c :: ap_calls a)) eqn:E; [by apply Hr|].
  apply Hc; [by eexists|done].
Qed.

Lemma services_triple env d :
  only_optional env -> s_safe_mode d = safe_mode_of (s_crashes_before_boot d) ->
  triple (has_diag d) (start_services env) (fun e a => has_diag d a /\
    (6 <= s_crashes_before_boot d \/ 3 <= s_crashes_before_boot d /\ display_runs env -> e = BE_started)).
Proof.
  intros Ho Hsafe. unfold start_services.
  apply (triple_bind _ _ (fun safe_mode a => safe_mode = safe_mode_of (s_crashes_before_boot d) /\ has_diag d a)).
  { intros a Ha. split; [|exact Ha]. rewrite <- Hsafe. cbn. unfold gateway_diag_safe_mode. by rewrite Ha. }
  intros safe_mode. apply triple_pure. intros ->.
  assert (forall c, match c with BC_display | BC_modem _ => false | _ => true end = true -> forall calls, ae_answer env (c :: calls) = Some ESP_OK) as He.
  { intros c Hc calls'. pose proof (Ho c calls') as E. destruct c; done. }
  do 5 (apply step_triple; [by apply He|]).
  set (Q := fun (e : boot_end) (a : app N) => _).
  assert (forall usb, (usb = true -> s_crashes_before_boot d < 3) -> triple (has_diag d)
    (boot_optional env (BC_modem usb) (BOOT_STEP env BC_supervisor (BOOT_STEP env BC_network (BOOT_STEP env BC_mqtt
      (BOOT_STEP env BC_services_ready (mret BE_started)))))) Q) as Hm.
  { intros usb Husb. apply optional_triple.
    - intros [calls' E] a' Ha. split; [exact Ha|]. destruct usb; [specialize (Husb eq_refl); lia|]. by destruct (Ho (BC_modem false) calls').
    - do 4 (apply step_triple; [by apply He|]). by apply triple_ret. }
  unfold safe_mode_of. destruct (Z.leb_spec 6 (s_crashes_before_boot d)); [by apply Hm|].
  destruct (Z.leb_spec 3 (s_crashes_before_boot d)); (apply optional_triple; [|by apply Hm]);
    intros [calls' E] a' Ha; (split; [exact Ha|]); intros [|[? Hd]]; [lia|by destruct (Hd calls')|lia|lia].
Qed.

(** A boot in which only the display and the transport may crash. *)
Lemma boot_spec env d :
  only_optional env ->
  let n := crashes_at env d in
  ap_diag (app_boot env d).1 = boot (ae_boot env) d /\
  (6 <= n \/ 3 <= n /\ display_runs env -> (app_boot env d).2 = BE_started).
Proof.
  intros Ho. cbv zeta. unfold crashes_at. pose proof (boot_counters (ae_boot env) d) as (_ & _ & _ & Hsafe & _).
  assert (exists calls, app_boot env d = start_services env (mk_app (boot (ae_boot env) d) calls)) as [calls ->].
  { destruct (nvs_ready env (mk_app (reset (ae_boot env) d) []) Ho) as [calls E]. exists calls.
    unfold app_boot, app_main. unfold mbind at 1, state_bind at 1. by rewrite E. }
  destruct (services_triple env _ Ho Hsafe (mk_app (boot (ae_boot env) d) calls)) as [E1 E2]; [done|]. by split.
Qed.

Lemma boots_start (t : Z) (Q : app_environment N -> Prop) envs (d : diag N) :
  (forall env d, Q env -> t <= crashes_at env d -> (app_boot env d).2 = BE_started) ->
  Forall (fun env => only_optional env /\ Q env /\ behind_crash env) envs ->
  s_rtc_magic d = DIAG_RTC_MAGIC -> 0 <= s_rtc_crashes d < t -> t < 2 ^ 32 -> t - s_rtc_crashes d <= Z.of_nat (length envs) ->
  last (app_boots envs d) = Some BE_started.
Proof.
  intros Ht Hall. revert d. induction Hall as [|env envs (Ho & Hq & Ha & Hl) _ IH]; intros d Hm Hc H32 Hlen; [cbn in Hlen; lia|].
  cbn [app_boots]. destruct (boot_spec env d Ho) as [Hd _]. specialize (Ht env d Hq). revert Ht. unfold crashes_at in *.
  destruct (boot_counters (ae_boot env) d) as (Hm' & Hc' & Hr & _ & Hn). specialize (Hn Ha Hl Hm). unfold u32 in Hn.
  rewrite Z.mod_small in Hn by lia. intros Ht.
  destruct (app_boot env d) as [a e]. cbn [fst snd] in *. rewrite Hd. case_bool_decide as Ee; [by subst|].
  cbn [length] in Hlen. destruct (Z.leb_spec t (s_crashes_before_boot (boot (ae_boot env) d))) as [Hge|Hlt]; [by rewrite Ht in Ee|].
  rewrite last_cons, IH; [done|done|lia|lia|lia].
Qed.

Lemma first_boot_starts (t : Z) (Q : app_environment N -> Prop) env envs (d : diag N) :
  (forall env d, Q env -> t <= crashes_at env d -> (app_boot env d).2 = BE_started) ->
  Forall (fun env => only_optional env /\ Q env) (env :: envs) -> Forall behind_crash envs -> 
  0 <= t < 2 ^ 32 -> t <= Z.of_nat (length envs) -> last (app_boots (env :: envs) d) = Some BE_started.
Proof.
  intros Ht Hall Hb H32 Hlen. apply Forall_cons in Hall as [[Ho Hq] Hall]. cbn [app_boots].
  destruct (boot_spec env d Ho) as [Hd _]. pose proof (Ht env d Hq) as Hs. unfold crashes_at in Hs.
  destruct (boot_counters (ae_boot env) d) as (Hm & Hc & Hr & _ & _).
  destruct (app_boot env d) as [a e]. cbn [fst snd] in *. rewrite Hd. case_bool_decide as Ee; [by subst|].
  destruct (Z.leb_spec t (s_crashes_before_boot (boot (ae_boot env) d))) as [Hge|Hlt]; [by rewrite Hs in Ee|].
  rewrite last_cons, (boots_start t Q); [done|done| |done|lia|lia|lia].
  apply Forall_forall. intros env' Hin. rewrite Forall_forall in Hall, Hb. destruct (Hall env' Hin). auto.
Qed.


End Loops.

(** ** A step that fails *)

Section Failures.

Context {N : Type} `{NvsStringsLaws N}.

(** The call behind which nothing is called, its error, and what is left to
    tell. *)
Definition failed_at (env : app_environment N) (a : app N) : Prop :=
  exists c calls err d,
    ap_calls a = c :: calls /\ ae_answer env (c :: calls) = Some err /\ err <> ESP_OK /\
    match c with BC_display | BC_modem _ | BC_nvs_flash_init | BC_nvs_flash_erase => False | _ => True end /\
    ap_diag a = gateway_diag_boot_step_failed (boot_expr c) (ae_err_name env err) (esp_err_code err)
                  (ae_heap env).1 (ae_heap env).2 d.

Definition fails_told (env : app_environment N) (e : boot_end) (a : app N) : Prop := e = BE_failed -> failed_at env a.

Lemma told_step env c rest :
  match c with BC_display | BC_modem _ | BC_nvs_flash_init | BC_nvs_flash_erase => False | _ => True end ->
  triple (fun _ => True) rest (fails_told env) -> triple (fun _ => True) (BOOT_STEP env c rest) (fails_told env).
Proof.
  intros Hc Hr a _. unfold BOOT_STEP, boot_ask, mbind, state_bind. destruct (ae_answer env (c :: ap_calls a)) as [err|] eqn:E; [|done].
  case_bool_decide; [|by apply Hr]. intros _. by exists c, (ap_calls a), err, (ap_diag a).
Qed.

Lemma told_optional env c rest :
  triple (fun _ => True) rest (fails_told env) -> triple (fun _ => True) (boot_optional env c rest) (fails_told env).
Proof.
  intros Hr a _. unfold boot_optional, boot_ask, mbind, state_bind. by destruct (ae_answer env _); [apply Hr|].
Qed.

Lemma boot_told env d : fails_told env (app_boot env d).2 (app_boot env d).1.
Proof.
  unfold app_boot. generalize (mk_app (reset (ae_boot env) d) []) as a. intros a.
  apply (fun Hm => Hm a I : fails_told env (app_main env a).2 (app_main env a).1).
  unfold app_main. apply (triple_bind _ _ (fun _ _ => True)); [by intros ?|]. intros err. case_bool_decide; [by intros ?|].
  apply (triple_bind _ _ (fun _ _ => True)); [by intros ?|]. intros err'. case_bool_decide; [by intros ?|].
  unfold start_services. apply (triple_bind _ _ (fun _ _ => True)); [by intros ?|]. intros safe_mode.
  do 5 (apply told_step; [done|]).
  assert (forall usb, triple (fun _ => True) (boot_optional env (BC_modem usb) (BOOT_STEP env BC_supervisor (BOOT_STEP env BC_network
    (BOOT_STEP env BC_mqtt (BOOT_STEP env BC_services_ready (mret BE_started)))))) (fails_told env)) as Hm.
  { intros usb. apply told_optional. do 4 (apply told_step; [done|]). by intros ?. }
  case_bool_decide; [apply Hm|apply told_optional, Hm].
Qed.

Lemma expr_bytes c : bytes (boot_expr c).
Proof. destruct c; apply (bool_decide_unpack _); vm_compute; exact I. Qed.


End Failures.

(** ** Who has the port *)

(** Who holds the mutex, by where the tasks are. *)
Definition lock_holder (sup : supervisor_pc) (np : network_pc) : option (option lock_owner) :=
  match sup, np with
  | (SV_locked _ | SV_give), (NP_locked | NP_give) => None
  | (SV_locked _ | SV_give), _ => Some (Some Supervisor)
  | _, (NP_locked | NP_give) => Some (Some Network)
  | _, _ => Some None
  end.

(** Whether the portal has the port, by where the network task is. *)
Definition portal_holds (announced : bool) (np : network_pc) : bool :=
  match np with NP_idle => announced | NP_started => true | _ => false end.

Definition may_announce (np : network_pc) : bool := match np with NP_idle | NP_closing => true | _ => false end.

Record port_inv (s : port80) : Prop := {
  pi_lock : lock_holder (pt_supervisor s) (pt_network s) = Some (pt_lock s);
  pi_portal : pt_portal s = portal_holds (ns_provisioning (pt_net s)) (pt_network s);
  pi_announced : ns_provisioning (pt_net s) = true -> may_announce (pt_network s) = true;
  pi_one : pt_api s = true -> pt_portal s = false;
  pi_stopped : pt_network s = NP_give -> pt_api s = false;
}.

Lemma port_inv_start : port_inv port_start.
Proof. by split. Qed.

Lemma port_inv_step s s' : port_step s s' -> port_inv s -> port_inv s'.
Proof.
  intros Hs [H1 H2 H3 H4 H5].
  destruct Hs; destruct s as [net0 api portal lock sup np]; cbn in *; subst; split; cbn in *; try done;
    try (intros ?; try done; by auto).
  all: try (by destruct np; simplify_eq; auto); try (by destruct sup; simplify_eq; auto).
  all: try (intros; congruence).
  { intros Ha. apply orb_true_iff in Ha as [Ha|Ha]; [by auto|]. apply andb_true_iff in Ha as [_ Ha]. by auto. }
  destruct (ns_provisioning net0); [by rewrite H3|done].
Qed.

Lemma port_inv_reachable s : rtc port_step port_start s -> port_inv s.
Proof.
  intros Hr. cut (forall s0, rtc port_step s0 s -> port_inv s0 -> port_inv s); [intros Hc; exact (Hc _ Hr port_inv_start)|].
  clear Hr. intros s0 Hr. induction Hr as [|s1 s2 s3 Hs _ IH]; [done|]. intros Hi. by apply IH, (port_inv_step s1).
Qed.

(** The network task between asking for the portal and starting it. *)
Definition opening (s : port80) : Prop :=
  match pt_network s with NP_before | NP_locked | NP_give | NP_opening => True | _ => False end.

(** The supervisor is not about to start the API. *)
Definition not_starting (s : port80) : Prop :=
  match pt_supervisor s with SV_decided true | SV_locked true => False | _ => True end.

Record offline_inv (s : port80) : Prop := {
  oi_offline : want_api (pt_net s) = false;
  oi_supervisor : not_starting s;
  oi_opening : opening s;
  oi_free : match pt_network s with NP_give | NP_opening => pt_api s = false | _ => True end;
}.

Lemma offline_step s s' : port_step s s' /\ opening s' -> offline_inv s -> offline_inv s'.
Proof.
  intros [Hs Ho] [H1 H2 H3 H4]. unfold opening, not_starting in *.
  destruct Hs; destruct s as [net0 api portal lock sup np]; cbn in *; subst; try done; split; unfold opening, not_starting; cbn in *; auto;
    try (by rewrite H1); try (by destruct want); destruct np; try done; subst; cbn; by destruct want.
Qed.


(** Online, the supervisor may start the API again behind the stop, and the
    portal does not get the port. *)
Definition online_net : network_service_snapshot_t := NetworkService.snapshot_zero <| ns_connected := true |>.

Definition port_lost : port80 := mk_port80 online_net true false None SV_wait NP_opening.

Lemma portal_may_lose_port : rtc port_step port_start port_lost.
Proof.
  eapply rtc_l; [apply (PS_network port_start online_net); done|].
  eapply rtc_l; [apply PS_open; done|]. eapply rtc_l; [apply PS_take; done|].
  eapply rtc_l; [apply PS_wake; done|]. eapply rtc_l; [apply PS_read; done|].
  eapply rtc_l; [apply PS_stop; done|]. eapply rtc_l; [apply PS_given; done|].
  eapply rtc_l; [eapply PS_lock; done|]. eapply rtc_l; [apply (PS_init _ true true); done|].
  eapply rtc_l; [apply PS_give; done|]. apply rtc_refl.
Qed.

(** ** Witnesses *)

Definition sample_app_env (reason : esp_reset_reason_t) (answer : boot_call -> option esp_err_t) : app_environment string_map :=
  mk_app_env (plain_boot reason) (fun calls => match calls with c :: _ => answer c | [] => None end)
    (fun err => if bool_decide (err = ESP_ERR_NO_MEM) then str "ESP_ERR_NO_MEM" else str "ERROR") (fun _ => ∅) (3000, 512).

(** The display crashes at every boot. *)
Definition display_crashes (c : boot_call) : option esp_err_t := if bool_decide (c = BC_display) then None else Some ESP_OK.



