(* ===== verification/ApiSample.v ===== *)
(** * A sample gateway, for the examples

    Everything in memory: a store without messages, an empty journal, a token,
    and a flash that takes every image. *)

From Stdlib Require Import Ascii String.
From Stdlib Require Import ZifyBool ZifyNat.
From stdpp Require Import base numbers list strings gmap.
From S2P Require Import Prelude.
From S2P Require Import AtEngine.
From S2P Require Import Nvs.
From S2P Require Import SmsStore.
From S2P Require Import SmsStoreFacts.
From S2P Require Import SmsStoreSpec.
From S2P Require Import GatewaySecurity.
From S2P Require Import ApiIdempotency.
From S2P Require Import ApiIdempotencyFacts.
From S2P Require Import SmsService.
From S2P Require Import SmsServiceFacts.
From S2P Require Import SmsServiceSample.
From S2P Require Import ModemManager.
From S2P Require Import RateLimiter.
From S2P Require Import Http.
From S2P Require Import MqttConfig.
From S2P Require Import OtaService.
From S2P Require Import ApiServer.

Open Scope Z_scope.

(** 32 bytes that start with those of the data. *)
Definition sample_digest (data : list Z) : list Z := take 32 (List.map u8 data ++ zeros 32).

Definition sample_description (version : string) : esp_app_desc_t :=
  mk_app_desc ESP_APP_DESC_MAGIC_WORD 0 (str version ++ [0]) (OTA_EXPECTED_PROJECT ++ [0]).

(** 1.0.0 runs, and every image is 1.1.0. *)
Definition sample_ota_env : ota_environment :=
  mk_ota_environment 4 4 (fun _ => sample_description "1.1.0") (Some (sample_description "1.0.0"))
    (fun _ => Some (mk_partition (str "ota_0") 4096)) (fun _ => Some (mk_partition (str "ota_0") 4096))
    (fun _ => Some (mk_partition (str "ota_1") 4096)) (fun _ _ => (ESP_OK, false))
    (fun _ _ => (ESP_OK, sample_description "1.1.0")) (fun _ => 7) (fun _ => ESP_OK) (fun _ => true) (fun _ => true)
    sample_digest (fun _ => true).

(** Every body is this message; over MQTT it has a request identifier. *)
Definition sample_parse (body : list Z) : option json :=
  Some (JObject ((if streq body (str "mqtt") then [(str "request_id", JString (str "request-0001"))] else []) ++
    [(str "to", JString (str "+491701234")); (str "text", JString (str "Hello"))])).

Definition sample_api : api_environment mem_nvs :=
  mk_api_environment (fun _ => 0) (fun _ => true) (fun _ => true) (fun _ => ESP_OK) sample_parse sample_hash
    sample_env sample_ota_env (fun _ _ => (ESP_OK, sample_response)) (fun _ => ESP_OK) (fun _ => None) (fun _ => true).

Definition sample_bearer : list Z := str "0123456789abcdef0123456789abcdef".

Definition sample_gateway : gateway mem_nvs :=
  mk_gateway (request_limiter 0) (sms_limiter 0) (ota_limiter 0)
    (mk_security mem_empty (sample_digest sample_bearer) true) sample_journal
    (mk_settings mem_empty mqtt_config_zero true true) (sample_service empty_store)
    (mk_manager false false false None snapshot_zero 0 0 false 0 0 [])
    (mk_ota true ota_diag_zero true []) [].

(** A request with these headers, whose body arrives in pieces of [piece]
    bytes. *)
Definition sample_http (method : http_method) (uri : string) (headers : list (list Z * list Z)) (body : list Z) (piece : nat)
  : http_request :=
  let value name := snd <$> List.find (fun h => bool_decide (h.1 = name)) headers in
  mk_http_request method (str uri) (length body) (fun name => length (default [] (value name)))
    (fun name size => match value name with
                      | Some v => if (length v <? size)%nat then Some v else None
                      | None => None
                      end)
    (fun k wanted => Received (take (Nat.min piece wanted) (drop (k * piece) body)))
    0 (fun _ => None) (fun _ _ _ => None).

Definition sample_authorization : list Z * list Z := (str "Authorization", str "Bearer " ++ sample_bearer).

Definition sample_post : http_request :=
  sample_http HTTP_POST "/api/v1/messages"
    [sample_authorization; (str "Idempotency-Key", str "request-0001")] (zeros 20) 7.

(** An image of 40 bytes, and its digest in digits. *)
Definition sample_image : list Z := List.map Z.of_nat (seq 1 40).

Definition sample_upload (digest : list Z) : http_request :=
  sample_http HTTP_POST "/api/v1/system/firmware"
    [sample_authorization; (str "Content-Type", str "application/octet-stream");
     (str "X-Firmware-SHA256", hex_encode digest)] sample_image 11.

Lemma sample_digest_bytes data : bytes (sample_digest data).
Proof. by apply (sample_hash_bytes data). Qed.
