(* ===== verification/ApiServerFacts.v ===== *)
(** * The HTTP interface: who may use it, and what a repeated request does *)

From Stdlib Require Import Ascii String.
From Stdlib Require Import ZifyBool ZifyNat.
From stdpp Require Import base numbers list strings gmap.
From S2P Require Import Prelude.
From S2P Require Import StateMonad.
From S2P Require Import PduEncode.
From S2P Require Import PduFacts.
From S2P Require Import AtEngine.
From S2P Require Import SmsMessage.
From S2P Require Import Nvs.
From S2P Require Import SmsStore.
From S2P Require Import SmsStoreFacts.
From S2P Require Import SmsStoreSpec.
From S2P Require Import GatewaySecurity.
From S2P Require Import ApiIdempotency.
From S2P Require Import ApiIdempotencyFacts.
From S2P Require Import SmsService.
From S2P Require Import SmsServiceFacts.
From S2P Require Import SmsServiceApi.
From S2P Require Import ModemManager.
From S2P Require Import ApiCommon.
From S2P Require Import RateLimiter.
From S2P Require Import Http.
From S2P Require Import MqttConfig.
From S2P Require Import OtaService.
From S2P Require Import ApiServer.
From S2P Require Import ApiSample.

Open Scope Z_scope.

(** An effect that queues no message. *)
Definition quiet (e : api_effect) : Prop := match e with AE_send _ _ _ => False | _ => True end.

(** The identifiers of the messages that were queued. *)
Fixpoint queued_in (tr : list api_effect) : list Z :=
  match tr with
  | [] => []
  | AE_send _ _ (inr message_id) :: tr' => message_id :: queued_in tr'
  | _ :: tr' => queued_in tr'
  end.

Lemma queued_quiet e tr : quiet e -> queued_in (e :: tr) = queued_in tr.
Proof. by destruct e. Qed.

Section Zoom.

Context {S T : Type} (part : S -> T) (store : T -> S -> S).

Lemma triple_zoom {A} (c : State T A) (P : T -> Prop) (Q : A -> T -> Prop) (P' : S -> Prop) (Q' : A -> S -> Prop) :
  triple P c Q -> (forall s, P' s -> P (part s)) ->
  (forall s x t, P' s -> Q x t -> Q' x (store t s)) -> triple P' (zoom part store c) Q'.
Proof.
  intros Hc HP HQ s Hs. unfold zoom. specialize (Hc (part s) (HP s Hs)). destruct (c (part s)) as [t x]. by eapply HQ.
Qed.

End Zoom.

Section Facts.

Context {N : Type} `{NvsLaws N}.

Abbreviation gateway := (gateway N).

Variable env : api_environment N.

(** ** Properties that the trace does not matter for *)

Section Blind.

Variable P : gateway -> Prop.
Hypothesis P_log : forall g e, quiet e -> P g -> P (g <| gw_trace := e :: gw_trace g |>).

Lemma blind_log e : quiet e -> keeps P (api_log e).
Proof. intros He g Hg. by apply P_log. Qed.

Lemma blind_ask {A} (answer : list api_effect -> A) : keeps P (api_ask answer).
Proof. intros g Hg. by apply P_log. Qed.

Lemma blind_allocated : keeps P (allocated env).
Proof. apply blind_ask. Qed.

Lemma blind_resp_send reply : keeps P (httpd_resp_send env reply).
Proof. intros g Hg. by apply P_log. Qed.

Hint Resolve blind_ask blind_allocated blind_resp_send : state.

Lemma blind_send_json status value : keeps P (send_json env status value).
Proof. unfold send_json. keeps_tac. Qed.

Lemma blind_refuse status type title : keeps P (refuse env status type title).
Proof. unfold refuse, problem. keeps_tac. Qed.

Lemma blind_header name value : keeps P (set_header name value).
Proof. by apply blind_log. Qed.

Lemma blind_chunk chunk : keeps P (send_chunk env chunk).
Proof. intros g Hg. by apply P_log. Qed.

Hint Resolve blind_send_json blind_refuse blind_header blind_chunk : state.

Lemma blind_authorized req : keeps P (authorized env req).
Proof. unfold authorized. keeps_tac. Qed.

Lemma blind_read_body req : keeps P (read_body env req).
Proof. unfold read_body. keeps_tac. Qed.

Lemma blind_sms_get id : keeps P (modem_core_sms_get id).
Proof. apply keeps_gets. Qed.

Lemma blind_record status m : keeps P (send_message_record env status m).
Proof. unfold send_message_record. keeps_tac. Qed.

Hint Resolve blind_authorized blind_read_body blind_sms_get blind_record : state.

Lemma blind_queued message_id : keeps P (message_queued env message_id).
Proof. unfold message_queued. keeps_tac. Qed.

(** And the limiters do not either. *)
Hypothesis P_limit : forall g l, P g ->
  P (g <| gw_request_limiter := l |>) /\ P (g <| gw_sms_limiter := l |>).

Lemma blind_request_allowed sms : keeps P (request_allowed env sms).
Proof.
  unfold request_allowed, limited.
  repeat first [solve [auto with state] | (apply (triple_zoom _ _ _ (fun _ => True) (fun _ _ => True)); [done..|];
    intros g ? l Hg _; by apply P_limit) | keeps_step].
Qed.

Hint Resolve blind_request_allowed : state.

Lemma blind_admitted req sms h : keeps P h -> keeps P (admitted env req sms h).
Proof. intros Hh. unfold admitted. keeps_tac. Qed.

(** What the handler does after the checks. *)
Lemma triple_admitted req sms h (Q : gateway -> Prop) :
  (forall g, P g -> Q g) -> triple P h (fun _ => Q) -> triple P (admitted env req sms h) (fun _ => Q).
Proof.
  intros HPQ Hh. unfold admitted. eapply triple_bind; [apply blind_authorized|]. intros ok.
  destruct (negb ok); [by apply triple_ret|]. eapply triple_bind; [apply blind_request_allowed|]. intros ok'.
  destruct (negb ok'); [by apply triple_ret|exact Hh].
Qed.

End Blind.

#[local] Hint Resolve blind_ask blind_allocated blind_resp_send blind_send_json blind_refuse blind_header blind_chunk
  blind_authorized blind_read_body blind_sms_get blind_record blind_queued blind_request_allowed : state.

(** ** A key queues one message *)

Hypothesis psa_bytes : forall data out, aenv_psa env data = Some out -> bytes out.

(** The [Idempotency-Key] of the request is [key], or cannot be read. *)
Definition has_key (key : list Z) (req : http_request) : Prop :=
  hdr_value_len req (str "Idempotency-Key") <> 0%nat /\
  forall buffer, header_of req (str "Idempotency-Key") 1 IDEM_KEY_BUFFER = Some buffer -> c_str buffer = c_str key.

Section Once.

Variable key kh : list Z.
Hypothesis key_hashed : hash_key (aenv_psa env) key = inr kh.

(** The service can take [n] more messages. *)
Definition serving (n : Z) (g : gateway) : Prop :=
  usable (gw_idempotency g) /\ inv (gw_sms g) /\ next (gw_sms g) + n <= UINT32_MAX.

(** So many messages were queued; one more only if the journal has the key. *)
Definition once (q : nat) (n : Z) (g : gateway) : Prop :=
  serving n g /\
  (length (queued_in (gw_trace g)) = q \/
   length (queued_in (gw_trace g)) = S q /\ key_known (i_nvs (gw_idempotency g)) kh).

Lemma once_log q n g e : quiet e -> once q n g -> once q n (g <| gw_trace := e :: gw_trace g |>).
Proof. intros He. unfold once. cbn -[queued_in]. by rewrite (queued_quiet e) by exact He. Qed.

Lemma once_limit q n g l :
  once q n g -> once q n (g <| gw_request_limiter := l |>) /\ once q n (g <| gw_sms_limiter := l |>).
Proof. by intros Hg. Qed.

Lemma once_less q n m g : m <= n -> once q n g -> once q m g.
Proof. intros Hm [(Hu & Hi & Hn) Hq]. split; [split_and!; [done|done|lia]|done]. Qed.

(** The request goes on with its reservation. *)
Definition reserved (q : nat) (n : Z) (reservation : option (list Z * list Z)) (g : gateway) : Prop :=
  match reservation with
  | Some (k, fingerprint) =>
      hash_key (aenv_psa env) k = inr kh /\ hash_ok fingerprint /\ serving n g /\
      length (queued_in (gw_trace g)) = q /\ key_known (i_nvs (gw_idempotency g)) kh
  | None => False
  end.

Lemma fingerprint_ok to text delivery ok fp :
  gateway_idempotency_sms_fingerprint (aenv_psa env) (Some to) (Some text) delivery ok = inr fp -> hash_ok fp.
Proof.
  intros Hfp. cbn [gateway_idempotency_sms_fingerprint] in Hfp. destruct (_ <? _); [done|]. destruct (negb ok); [done|].
  unfold gateway_security_sha256 in Hfp. destruct (aenv_psa env _) as [out|] eqn:E; [|done].
  destruct (Nat.eqb_spec (length out) GATEWAY_SHA256_LEN); [|done]. injection Hfp as <-. split; [done|by eapply psa_bytes].
Qed.

(** Only a reservation of the key's first claim goes on. *)
Lemma claim_spec q n k fp taken :
  hash_key (aenv_psa env) k = inr kh -> hash_ok fp ->
  triple (once q n) (on_idempotency (gateway_idempotency_claim (aenv_psa env) (Some k) (Some fp) taken))
    (fun r g => match r with
                | inr (GATEWAY_IDEMPOTENCY_MISS, _) => reserved q n (Some (k, fp)) g
                | _ => once q n g
                end).
Proof.
  intros Hk Hfpo g [(Hu & Hi & Hn) Hq]. unfold on_idempotency, zoom.
  destruct (gateway_idempotency_claim _ _ _ _ _) as [st' r] eqn:E. cbn [fst snd].
  destruct (claim_usable _ psa_bytes k fp taken _ st' kh r Hu Hfpo Hk E) as (Hu' & Hknown & Hmiss).
  assert ((forall m, r <> inr (GATEWAY_IDEMPOTENCY_MISS, m)) -> once q n (g <| gw_idempotency := st' |>)) as Hno.
  { intros Hr. split; [by split_and!|]. destruct Hq as [Hq|[Hq Hkn]]; [by left|right]. split; [done|].
    destruct (Hknown Hkn) as [-> _]. exact Hkn. }
  destruct r as [e|[[] m]]; try by apply Hno. cbn. split_and!; try done.
  - destruct Hq as [Hq|[_ Hkn]]; [done|]. destruct (Hknown Hkn) as [_ Hr]. by destruct (Hr m).
  - by eapply Hmiss.
Qed.

Lemma reserve_spec q n req to text delivery :
  has_key key req ->
  triple (once q n) (reserve env req to text delivery)
    (fun r g => match r with inl _ => once q n g | inr reservation => reserved q n reservation g end).
Proof.
  intros [Hlen Hkey]. unfold reserve. destruct (Nat.eqb_spec (hdr_value_len req (str "Idempotency-Key")) 0); [done|].
  assert (forall status type title, triple (once q n) (err ← refuse env status type title; mret (inl err))
    (fun (r : esp_err_t + option (list Z * list Z)) g => match r with inl _ => once q n g | inr reservation => reserved q n reservation g end))
    as Hrefuse.
  { intros. eapply triple_bind; [apply blind_refuse, once_log|]. intros err. by apply triple_ret. }
  destruct (header_of _ _ _ _) as [k|]; [|apply Hrefuse]. specialize (Hkey k eq_refl).
  destruct (negb _); [apply Hrefuse|]. eapply triple_bind; [apply blind_allocated, once_log|]. intros ok.
  destruct (gateway_idempotency_sms_fingerprint _ _ _ _ _) as [e|fp] eqn:Hfp; [apply Hrefuse|].
  apply fingerprint_ok in Hfp.
  assert (hash_key (aenv_psa env) k = inr kh) as Hk by (unfold hash_key; rewrite Hkey; exact key_hashed).
  eapply triple_bind; [apply blind_ask, once_log|]. intros taken.
  eapply triple_bind; [by apply claim_spec|].
  intros [e|[[] m]]; [apply Hrefuse| | |apply Hrefuse].
  - by apply triple_ret.
  - destruct (m =? 0); [apply Hrefuse|]. eapply triple_bind; [apply blind_allocated, once_log|]. intros ok'.
    destruct (negb ok'); [by apply triple_ret|]. eapply triple_bind; [apply blind_sms_get|].
    intros [e|message]; [apply Hrefuse|]. eapply triple_bind; [apply blind_record, once_log|]. intros err. by apply triple_ret.
Qed.

(** What the send leaves behind, by its result. *)
Definition sent (q : nat) (n : Z) (result : esp_err_t + Z) (g : gateway) : Prop :=
  serving n g /\ key_known (i_nvs (gw_idempotency g)) kh /\
  match result with
  | inl _ => length (queued_in (gw_trace g)) = q
  | inr message_id => length (queued_in (gw_trace g)) = S q /\ 0 < message_id <= UINT32_MAX
  end.

Lemma sms_send_spec q n to text delivery reservation :
  0 <= n -> bytes to -> bytes text ->
  triple (reserved q (n + 1) (Some reservation)) (modem_core_sms_send env to text delivery) (sent q n).
Proof.
  intros Hn Hto Htext g. destruct reservation as [k fp]. intros (_ & _ & (Hu & Hi & Hmax) & Hq & Hkn).
  unfold modem_core_sms_send, on_sms, zoom, mbind, state_bind.
  destruct (sms_service_send _ _ _ _ _) as [sv' result] eqn:E.
  destruct (send_spec _ to text delivery _ _ _ Hto Htext Hi ltac:(lia) E) as (Hev & _ & Hid).
  destruct (Hev Hi ltac:(lia)) as [Hi' Hn' _ _].
  pose proof (fo_next _ (proj2 Hi)) as Hpos. unfold next in *.
  split; [split; [exact Hu|]; split; [exact Hi'|unfold next; cbn; lia]|]. split; [exact Hkn|].
  destruct result as [e|m]; cbn; [done|]. split; [by rewrite Hq|]. destruct (Hid m eq_refl) as [-> _]. lia.
Qed.

Lemma finalize_attempts_spec q n attempts k fp m :
  hash_key (aenv_psa env) k = inr kh -> hash_ok fp ->
  keeps (sent q n (inr m)) (finalize_attempts env attempts k fp m).
Proof.
  intros Hk Hfp. induction attempts as [|attempts IH]; cbn [finalize_attempts]; [apply keeps_ret|].
  apply keeps_bind; [apply blind_ask; intros g e He Hg; unfold sent in *; cbn -[queued_in]; by rewrite (queued_quiet e)|].
  intros taken. eapply (triple_bind _ _ (fun _ => sent q n (inr m))); [|intros err; destruct (bool_decide _); [apply keeps_ret|exact IH]].
  intros g ((Hu & Hi & Hn) & Hkn & Hq & Hm). unfold on_idempotency, zoom.
  destruct (gateway_idempotency_finalize _ _ _ _ _ _) as [st' e] eqn:E. cbn [fst snd].
  destruct (finalize_usable _ psa_bytes k fp m taken _ st' kh e Hu Hfp Hk Hm Hkn E) as [Hu' Hkn'].
  split; [split; [exact Hu'|by split]|]. split; [exact Hkn'|by split].
Qed.

Lemma release_spec q n k fp taken e :
  hash_key (aenv_psa env) k = inr kh -> hash_ok fp ->
  triple (sent q n (inl e)) (on_idempotency (gateway_idempotency_release_pending (aenv_psa env) (Some k) (Some fp) taken))
    (fun _ => once q n).
Proof.
  intros Hk Hfp g ((Hu & Hi & Hn) & _ & Hq). unfold on_idempotency, zoom.
  destruct (gateway_idempotency_release_pending _ _ _ _ _) as [st' err] eqn:E. cbn [fst snd].
  pose proof (release_usable _ psa_bytes k fp taken _ st' kh err Hu Hfp Hk E) as Hu'. split; [by split_and!|by left].
Qed.

Lemma sent_log q n result g e : quiet e -> sent q n result g -> sent q n result (g <| gw_trace := e :: gw_trace g |>).
Proof. intros He. unfold sent. cbn -[queued_in]. by rewrite (queued_quiet e) by exact He. Qed.

(** A queued message is in the journal. *)
Lemma sent_once q n m g : sent q n (inr m) g -> once q n g.
Proof. intros (Hs & Hkn & Hq & _). split; [done|by right]. Qed.

Lemma settle_spec q n reservation result :
  (exists fp, hash_key (aenv_psa env) reservation.1 = inr kh /\ fp = reservation.2 /\ hash_ok fp) ->
  triple (sent q n result) (settle env (Some reservation) result) (fun _ => once q n).
Proof.
  destruct reservation as [k fp]. cbn [fst snd]. intros (fp' & Hk & -> & Hfp). unfold settle. destruct result as [e|m].
  - eapply triple_bind; [apply blind_ask, sent_log|]. intros taken.
    eapply (triple_bind _ _ (fun _ => once q n)); [by apply release_spec|]. intros e'. by apply triple_ret.
  - eapply triple_bind; [by apply finalize_attempts_spec|]. intros finalized.
    eapply (triple_weaken (once q n)); [apply keeps_when; intros _; by apply blind_log; [apply once_log|]|apply sent_once|by intros].
Qed.

Hypothesis parse_bytes : forall body j name s,
  aenv_parse env body = Some j -> cJSON_GetObjectItemCaseSensitive j name = Some (JString s) -> bytes s.

Lemma message_of_bytes body j to text delivery :
  aenv_parse env body = Some j -> message_of j = Some (to, text, delivery) -> bytes to /\ bytes text.
Proof.
  intros Hj. unfold message_of, json_string.
  destruct (cJSON_GetObjectItemCaseSensitive j (str "to")) as [[]|] eqn:Et; try done.
  destruct (cJSON_GetObjectItemCaseSensitive j (str "text")) as [[]|] eqn:Ex; try done.
  destruct (_ || _); [done|]. intros [= <- <- _]. split; eapply parse_bytes; done.
Qed.

Lemma post_once q n req :
  0 <= n -> has_key key req -> triple (once q (n + 1)) (messages_post_handler env req) (fun _ => once q n).
Proof.
  intros Hn Hkey. unfold messages_post_handler.
  assert (forall g, once q (n + 1) g -> once q n g) as Hless by (intros g; apply once_less; lia).
  assert (forall status type title, triple (once q (n + 1)) (refuse env status type title) (fun _ => once q n)) as Hrefuse.
  { intros. eapply triple_weaken; [apply blind_refuse, once_log|done|by intros]. }
  apply triple_admitted; [apply once_log|apply once_limit|done|].
  eapply triple_bind; [apply blind_read_body, once_log|]. intros [e|body]; [apply Hrefuse|].
  destruct (object_with env message_fields body) as [j|] eqn:Ej; [|apply Hrefuse].
  destruct (message_of j) as [[[to text] delivery]|] eqn:Em; [|apply Hrefuse].
  assert (bytes to /\ bytes text) as [Hto Htext].
  { unfold object_with in Ej. destruct (aenv_parse env _) as [j'|] eqn:Ep; [|done].
    destruct (json_has_only_fields _ _); [|done]. injection Ej as ->. by eapply message_of_bytes. }
  destruct (sms_submit_preflight _ _ _); [|apply Hrefuse].
  eapply triple_bind; [by apply reserve_spec|]. intros [err|[reservation|]].
  - apply triple_ret. exact Hless.
  - apply (triple_weaken (fun g => (exists fp, hash_key (aenv_psa env) reservation.1 = inr kh /\ fp = reservation.2 /\ hash_ok fp)
      /\ reserved q (n + 1) (Some reservation) g) _ _ (fun _ => once q n) _); [|destruct reservation; intros g Hg; split; [|done];
      destruct Hg as (? & ? & _); by eexists|by intros].
    apply triple_pure. intros Hres. eapply triple_bind; [by apply sms_send_spec|]. intros result.
    eapply triple_bind; [by apply settle_spec|]. intros []. destruct result.
    + apply blind_refuse, once_log.
    + apply blind_queued, once_log.
  - by intros g [].
Qed.

End Once.

End Facts.

Lemma sample_parse_bytes body j name s :
  aenv_parse sample_api body = Some j -> cJSON_GetObjectItemCaseSensitive j name = Some (JString s) -> bytes s.
Proof.
  cbn [sample_api aenv_parse]. unfold sample_parse. destruct (streq body (str "mqtt")); intros [= <-];
    unfold cJSON_GetObjectItemCaseSensitive; cbn [List.find app]; repeat case_match; try done; intros [= <-];
    apply (bool_decide_unpack _); vm_compute; exact I.
Qed.

Lemma sample_has_key : has_key (str "request-0001") sample_post.
Proof. split; [done|]. by intros b [= <-]. Qed.

Lemma sample_serving : serving 2 sample_gateway.
Proof.
  split; [exact sample_journal_usable|]. split; [exact empty_store_inv|]. apply Z.leb_le. vm_compute. reflexivity.
Qed.

(** The gateway after a message was posted. *)
Definition sample_posted : gateway mem_nvs := (messages_post_handler sample_api sample_post sample_gateway).1.

Lemma sample_posted_inv : inv (gw_sms sample_posted).
Proof.
  eapply (post_once sample_api sample_hash_bytes (str "request-0001") (sample_digest (str "request-0001")) eq_refl
    sample_parse_bytes 0 1 sample_post ltac:(lia) sample_has_key). split; [exact sample_serving|by left].
Qed.
