(* ===== verification/MqttFacts.v ===== *)
(** * The MQTT service: what its operations keep, and the certificate of a client *)

From Stdlib Require Import Ascii String.
From Stdlib Require Import ZifyBool ZifyNat.
From stdpp Require Import base numbers list strings.
From S2P Require Import Prelude.
From S2P Require Import StateMonad.
From S2P Require Import SmsMessage.
From S2P Require Import Nvs.
From S2P Require Import SmsStore.
From S2P Require Import ApiIdempotency.
From S2P Require Import SmsService.
From S2P Require Import ModemManager.
From S2P Require Import ModemCore.
From S2P Require Import RateLimiter.
From S2P Require Import MqttConfig.
From S2P Require Import MqttRx.
From S2P Require Import MqttDiscovery.
From S2P Require Import ApiServer.
From S2P Require Import MqttService.
From S2P Require Import ApiSample.

Open Scope Z_scope.

(** ** A sample MQTT service, for the examples

    Over the sample gateway, with settings for a broker over TLS.  Everything
    works, and the nth packet has the length of the trace as its identifier. *)

Definition sample_mqtt_config : gateway_mqtt_config_t :=
  mk_mqtt_config true (str "mqtts://broker" ++ [0]) (zeros 4) (zeros 4) (str "gw" ++ [0]) true (str "homeassistant" ++ [0])
    (zeros 24) (str "-----BEGIN CERTIFICATE-----" ++ [0]).

Definition sample_system : system := mk_system 1 2 3 4 (str "power-on") None.

Definition sample_mqtt_env (malloc : list mqtt_effect -> option Z) : mqtt_environment :=
  mk_mqtt_environment (fun _ => true) (fun _ => true) malloc (fun tr => Z.of_nat (length tr) + 1)
    (fun tr => Z.of_nat (length tr)) (fun tr => Some (Z.of_nat (length tr))) (fun _ => ESP_OK) (fun _ => true)
    (fun _ => MODEM_STATE_READY) (fun _ => sample_system) (str "gateway-1") (str "1.0.0").

Definition sample_mqtt_diag : mqtt_service_diagnostics_t := mk_mqtt_diag true false false 0 0 0 0 0 0 0 0.

(** Before the client is started. *)
Definition sample_mqtt : mqtt mem_nvs :=
  mk_mqtt (sample_gateway <| gw_settings := mk_settings mem_empty sample_mqtt_config true true |>
                          <| gw_manager := mk_manager true true true (Some []) snapshot_zero 0 0 false 0 0 [] |>)
    None None mqtt_config_zero sample_mqtt_diag (Some []) true true true rx_zero (sms_limiter 0) mem_empty 0 0 0 0 [].

(** With a client that is connected. *)
Definition sample_online (malloc : list mqtt_effect -> option Z) : mqtt mem_nvs :=
  let m := (mqtt_service_reconfigure (sample_mqtt_env malloc) sample_mqtt).1 in
  let m := (mqtt_event_handler (sample_mqtt_env malloc) (default 0 (mq_client m)) MQTT_EVENT_CONNECTED m).1 in
  (worker_turn sample_api (sample_mqtt_env malloc) m).1.

(** Effects that publish, subscribe or ask. *)
Definition plain (e : mqtt_effect) : bool :=
  match e with
  | QE_asked | QE_publish _ _ _ _ _ _ | QE_subscribe _ _ _ => true
  | _ => false
  end.

Section Keeps.

Context {N : Type} `{Nvs N}.

Abbreviation mqtt := (mqtt N).

Variable aenv : api_environment N.
Variable env : mqtt_environment.

(** ** Publishing changes only the trace *)

Section Plain.

Variable P : mqtt -> Prop.
Hypothesis P_plain : forall m e, plain e = true -> P m -> P (m <| mq_trace := e :: mq_trace m |>).

Lemma plain_ask {A} (answer : list mqtt_effect -> A) : keeps P (mqtt_ask answer).
Proof. intros m Hm. by apply P_plain. Qed.

Lemma plain_allocated : keeps P (mqtt_allocated env).
Proof. apply plain_ask. Qed.

Hint Resolve plain_ask plain_allocated : state.

Lemma plain_takes mutex : keeps P (takes env mutex).
Proof. unfold takes. keeps_tac. Qed.

Hint Resolve plain_takes : state.

Lemma plain_config_view : keeps P (config_view env).
Proof. unfold config_view. keeps_tac. Qed.

Lemma plain_topic suffix : keeps P (topic env suffix).
Proof. unfold topic. keeps_tac. Qed.

Lemma plain_client_publish client topic_name payload qos retain :
  keeps P (esp_mqtt_client_publish env client topic_name payload qos retain).
Proof. intros m Hm. by apply P_plain. Qed.

Lemma plain_subscribe client topic_name qos : keeps P (subscribe client topic_name qos).
Proof. intros m Hm. by apply P_plain. Qed.

Hint Resolve plain_config_view plain_topic plain_client_publish plain_subscribe : state.

Lemma plain_publish_raw topic_name payload qos retain : keeps P (publish_raw env topic_name payload qos retain).
Proof. unfold publish_raw, active_client_get, connected. keeps_tac. Qed.

Hint Resolve plain_publish_raw : state.

Lemma plain_publish_json topic_name value qos retain : keeps P (publish_json_object env topic_name value qos retain).
Proof. unfold publish_json_object. keeps_tac. Qed.

(** Reading the other components. *)
Lemma plain_gateway_gets {A} (f : gateway N -> A) : keeps P (on_gateway (gets f)).
Proof. intros m Hm. by destruct m. Qed.

Lemma plain_sms_list after_id : keeps P (sms_list after_id).
Proof. apply plain_gateway_gets. Qed.

Lemma plain_snapshot : keeps P (on_gateway (on_manager (modem_manager_get_snapshot true))).
Proof.
  intros m Hm. unfold on_gateway, on_manager, zoom, modem_manager_get_snapshot, mbind, state_bind, gets, snapshot_copy.
  destruct m as [g]. cbn [mq_gateway]. destruct g as [? ? ? ? ? ? ? gm]. by destruct gm as [[]].
Qed.

Hint Resolve plain_publish_json plain_gateway_gets plain_sms_list plain_snapshot : state.

Lemma plain_queue_depth scans cursor count : keeps P (queue_depth_loop env scans cursor count).
Proof. revert cursor count. induction scans as [|scans IH]; intros cursor count; cbn [queue_depth_loop]; keeps_tac. Qed.

Hint Resolve plain_queue_depth : state.

Lemma plain_publish_status : keeps P (publish_status env).
Proof. unfold publish_status, current_sms_queue_depth. keeps_tac. Qed.

Lemma plain_publish_discovery : keeps P (publish_discovery env).
Proof. unfold publish_discovery. keeps_tac. Qed.

Lemma plain_command_result request_id ok code message_id replayed :
  keeps P (publish_command_result env request_id ok code message_id replayed).
Proof. unfold publish_command_result. keeps_tac. Qed.

Hint Resolve plain_publish_status plain_publish_discovery plain_command_result : state.

Lemma plain_announce : keeps P (subscribe_and_announce env).
Proof. unfold subscribe_and_announce, subscribe_all. keeps_tac. Qed.

Lemma plain_publish_sms_event event snapshot : keeps P (publish_sms_event env event snapshot).
Proof. unfold publish_sms_event. keeps_tac. Qed.

Lemma plain_command_kind name commands : keeps P (command_kind env name commands).
Proof. induction commands as [|[suffix kind] commands IH]; cbn [command_kind]; keeps_tac. Qed.

Lemma plain_retire_messages old previous : keeps P (retire_messages env old previous).
Proof. unfold retire_messages. keeps_tac. Qed.

End Plain.

#[local] Hint Resolve plain_ask plain_allocated plain_takes plain_config_view plain_topic plain_client_publish
  plain_publish_raw plain_publish_json plain_gateway_gets plain_sms_list plain_publish_status plain_publish_discovery
  plain_command_result plain_announce plain_publish_sms_event plain_command_kind plain_retire_messages : state.

(** ** Everything but the exchange of the client *)

Section Frame.

Variable P : mqtt -> Prop.
Hypothesis P_plain : forall m e, plain e = true \/ e = QE_reboot -> P m -> P (m <| mq_trace := e :: mq_trace m |>).
Hypothesis P_same : forall m m', mq_client m' = mq_client m -> mq_active_ca_pem m' = mq_active_ca_pem m ->
  mq_trace m' = mq_trace m -> P m -> P m'.

Lemma P_plain' m e : plain e = true -> P m -> P (m <| mq_trace := e :: mq_trace m |>).
Proof. intros He. apply P_plain. by left. Qed.

Hint Resolve P_plain' : state.

Lemma frame_modify f :
  (forall m, mq_client (f m) = mq_client m /\ mq_active_ca_pem (f m) = mq_active_ca_pem m /\ mq_trace (f m) = mq_trace m) ->
  keeps P (modify f).
Proof. intros Hf m Hm. destruct (Hf m) as (? & ? & ?). by apply (P_same m). Qed.

Lemma frame_gateway {A} (c : State (gateway N) A) : keeps P (on_gateway c).
Proof. intros m Hm. unfold on_gateway, zoom. destruct (c _). by apply (P_same m). Qed.

Lemma frame_diag f : keeps P (on_mqtt_diag f).
Proof. by apply frame_modify. Qed.

Lemma frame_inflight message_id packet_id started_ms : keeps P (replay_inflight message_id packet_id started_ms).
Proof. unfold replay_inflight. apply keeps_bind; [by apply frame_modify|]. intros _. apply frame_diag. Qed.

Hint Resolve frame_gateway frame_diag frame_inflight : state.

Lemma frame_limited : keeps P (sms_limited env).
Proof.
  unfold sms_limited. keeps_tac. intros m Hm. unfold zoom. destruct (gateway_rate_limiter_allow _ _ _). by apply (P_same m).
Qed.

Lemma frame_cursor_store message_id : keeps P (replay_cursor_store message_id).
Proof.
  intros m Hm. unfold replay_cursor_store. destruct (nvs_set_u32 _ _ _) as [n e].
  destruct (if bool_decide (e = ESP_OK) then _ else _) as [n' e'].
  destruct (bool_decide (e' = ESP_OK)); by apply (P_same m).
Qed.

Lemma frame_reboot : keeps P (create_mqtt_reboot env).
Proof.
  unfold create_mqtt_reboot. keeps_tac. intros m Hm. apply P_plain; [by right|done].
Qed.

Lemma frame_queue_work work : keeps P (queue_work env work).
Proof.
  unfold queue_work. keeps_tac. intros m Hm. destruct (mq_queue m) as [q|] eqn:E; [|done].
  destruct (_ <? _)%nat; [by apply (P_same m)|done].
Qed.

Hint Resolve frame_limited frame_cursor_store frame_reboot frame_queue_work : state.

Ltac frame_tac := keeps_tac; try (by apply frame_modify).

Lemma frame_publish_replay record : keeps P (publish_inbound_replay env record).
Proof. unfold publish_inbound_replay. frame_tac. Qed.

Hint Resolve frame_publish_replay : state.

Lemma frame_replay_loop scans scan : keeps P (replay_loop env scans scan).
Proof. revert scan. induction scans as [|scans IH]; intros scan; cbn [replay_loop]; unfold event_dropped; frame_tac. Qed.

Hint Resolve frame_replay_loop : state.

Lemma frame_replay_next : keeps P (replay_next_inbound env).
Proof. unfold replay_next_inbound, connected. frame_tac. Qed.

Hint Resolve frame_replay_next : state.

Lemma frame_execute kind payload : keeps P (execute_command aenv env kind payload).
Proof.
  unfold execute_command, handle_structured_send, structured_claim, send_claimed, handle_native_notify,
    command_received, command_rejected. frame_tac.
Qed.

Hint Resolve frame_execute : state.

Lemma frame_work work : keeps P (handle_work aenv env work).
Proof.
  unfold handle_work, handle_data_work, handle_replay_ack, replay_inflight_clear, command_rejected. frame_tac.
Qed.

Hint Resolve frame_work : state.

Lemma frame_worker : keeps P (worker_turn aenv env).
Proof. unfold worker_turn, replay_watchdog, replay_inflight_clear, event_dropped, connected. frame_tac. Qed.

Lemma frame_event client event : keeps P (mqtt_event_handler env client event).
Proof.
  unfold mqtt_event_handler, queue_simple_work, diag_connected, replay_inflight_clear, event_dropped, active_client_get.
  frame_tac.
Qed.

Lemma frame_callback event message : keeps P (sms_event_callback env event message).
Proof. unfold sms_event_callback, queue_simple_work, event_dropped. frame_tac. Qed.

End Frame.

End Keeps.

#[export] Hint Resolve plain_ask plain_allocated plain_takes plain_config_view plain_topic plain_client_publish
  plain_publish_raw plain_publish_json plain_gateway_gets plain_sms_list plain_publish_status plain_publish_discovery
  plain_command_result plain_announce plain_publish_sms_event plain_command_kind plain_retire_messages : state.
