(* ===== verification/MqttCertificate.v ===== *)
(** * The MQTT service: certificates live as long as their clients

    esp-mqtt keeps a pointer to the certificate it is given, so the service
    owns a copy for the lifetime of the client. *)

From Stdlib Require Import Ascii String.
From Stdlib Require Import ZifyBool ZifyNat.
From stdpp Require Import base numbers list strings relations.
From S2P Require Import Prelude.
From S2P Require Import StateMonad.
From S2P Require Import SmsMessage.
From S2P Require Import Nvs.
From S2P Require Import SmsStore.
From S2P Require Import SmsService.
From S2P Require Import MqttConfig.
From S2P Require Import MqttRx.
From S2P Require Import MqttDiscovery.
From S2P Require Import ApiServer.
From S2P Require Import MqttService.
From S2P Require Import ApiSample.
From S2P Require Import MqttFacts.

Open Scope Z_scope.

(** The copies that are allocated and not freed, and the clients that are not
    destroyed with the certificate they point to. *)
Fixpoint live_ca (tr : list mqtt_effect) : list Z :=
  match tr with
  | [] => []
  | QE_ca_alloc p :: tr => p :: live_ca tr
  | QE_ca_free p :: tr => filter (.≠ p) (live_ca tr)
  | _ :: tr => live_ca tr
  end.

Fixpoint live_clients (tr : list mqtt_effect) : list (Z * option Z) :=
  match tr with
  | [] => []
  | QE_init c _ _ certificate :: tr => (c, certificate) :: live_clients tr
  | QE_destroy c :: tr => filter (fun client => client.1 <> c) (live_clients tr)
  | _ :: tr => live_clients tr
  end.

(** At its time an effect is no misuse of the heap. *)
Definition no_misuse (e : mqtt_effect) (tr : list mqtt_effect) : Prop :=
  match e with
  | QE_ca_free p => p ∈ live_ca tr /\ Forall (fun client => client.2 <> Some p) (live_clients tr)
  | QE_init c _ _ certificate => forall p, certificate = Some p -> p ∈ live_ca tr
  | QE_start c _ | QE_stop c | QE_destroy c => exists certificate, (c, certificate) ∈ live_clients tr
  | _ => True
  end.

Fixpoint heap_safe (tr : list mqtt_effect) : Prop :=
  match tr with [] => True | e :: tr => no_misuse e tr /\ heap_safe tr end.

Section Certificate.

Context {N : Type} `{Nvs N}.

Abbreviation mqtt := (mqtt N).

Variable aenv : api_environment N.
Variable env : mqtt_environment.

(** [malloc] does not return memory that is in use. *)
Hypothesis malloc_fresh : forall tr p, qenv_malloc env tr = Some p -> p ∉ live_ca tr.

(** The clients: the active one, whose certificate is the active one if it has
    any; and the copies: the active one, behind those of [pending]. *)
Definition owned (pending : option Z) (m : mqtt) : Prop :=
  heap_safe (mq_trace m) /\
  live_ca (mq_trace m) = option_list pending ++ option_list (mq_active_ca_pem m) /\ NoDup (live_ca (mq_trace m)) /\
  exists certificate, live_clients (mq_trace m) = option_list ((fun c => (c, certificate)) <$> mq_client m) /\
    (certificate = None \/ certificate = mq_active_ca_pem m).

(** Between two clients. *)
Definition vacant (pending : option Z) (m : mqtt) : Prop :=
  heap_safe (mq_trace m) /\ live_ca (mq_trace m) = option_list pending /\ live_clients (mq_trace m) = [] /\
  mq_client m = None /\ mq_active_ca_pem m = None.

Lemma vacant_owned pending m : vacant pending m -> owned pending m.
Proof.
  intros (Hs & Hl & Hc & Em & Ea). unfold owned. rewrite Hl, Hc, Em, Ea, app_nil_r.
  split_and!; try done; [destruct pending; [apply NoDup_singleton|constructor]|by exists None; split; [|left]].
Qed.

(** Logs that the two lists do not depend on. *)
Lemma owned_plain pending m e :
  plain e = true \/ e = QE_reboot -> owned pending m -> owned pending (m <| mq_trace := e :: mq_trace m |>).
Proof. intros He Hm. by destruct He as [He| ->]; [destruct e|]; try done; destruct Hm as (? & ?). Qed.

Lemma vacant_plain pending m e :
  plain e = true -> vacant pending m -> vacant pending (m <| mq_trace := e :: mq_trace m |>).
Proof. intros He Hm. by destruct e; try done; destruct Hm as (? & ?). Qed.

Lemma owned_same pending m m' :
  mq_client m' = mq_client m -> mq_active_ca_pem m' = mq_active_ca_pem m -> mq_trace m' = mq_trace m ->
  owned pending m -> owned pending m'.
Proof. unfold owned. by intros -> -> ->. Qed.

Lemma vacant_same pending m m' :
  mq_client m' = mq_client m -> mq_active_ca_pem m' = mq_active_ca_pem m -> mq_trace m' = mq_trace m ->
  vacant pending m -> vacant pending m'.
Proof. unfold vacant. by intros -> -> ->. Qed.

Lemma owned_plain' pending m e : plain e = true -> owned pending m -> owned pending (m <| mq_trace := e :: mq_trace m |>).
Proof. intros He. apply owned_plain. by left. Qed.

Hint Resolve owned_plain' vacant_plain : state.

Lemma vacant_modify pending f :
  (forall m, mq_client (f m) = mq_client m /\ mq_active_ca_pem (f m) = mq_active_ca_pem m /\ mq_trace (f m) = mq_trace m) ->
  keeps (vacant pending) (modify f).
Proof. intros Hf m Hm. destruct (Hf m) as (? & ? & ?). by apply (vacant_same pending m). Qed.

(** A copy that no client points to is given back. *)
Lemma free_pending pending : triple (owned pending) (owned_ca_free pending) (fun _ => owned None).
Proof.
  destruct pending as [p|]; [|by apply triple_ret]. intros m (Hs & Hl & Hnd & certificate & Hc & Hcert).
  unfold owned_ca_free, mqtt_log, modify. unfold owned. cbn -[live_ca live_clients heap_safe].
  rewrite Hl in Hnd. cbn in Hnd. apply NoDup_cons in Hnd as [Hp Hnd].
  assert (forall q, mq_active_ca_pem m = Some q -> q <> p) as Hne by (intros q Hq ->; apply Hp; rewrite Hq; by left).
  split_and!.
  - split; [|done]. split; [rewrite Hl; by left|]. rewrite Hc. destruct (mq_client m); [|done]. constructor; [|done].
    cbn. destruct Hcert as [-> | ->]; [done|]. intros E. by apply (Hne p).
  - cbn [live_ca]. rewrite Hl. cbn. rewrite decide_False by tauto.
    destruct (mq_active_ca_pem m) as [q|] eqn:Eq; cbn; [|done]. rewrite decide_True by (by apply Hne). done.
  - cbn [live_ca]. apply NoDup_filter. rewrite Hl. by constructor.
  - by exists certificate.
Qed.

Lemma retire_owned pending : triple (owned pending) (retire_client env) (fun _ => vacant pending).
Proof.
  unfold retire_client. eapply triple_bind; [apply keeps_gets|]. intros previous.
  unfold active_client_get. eapply (triple_bind _ _ (fun old m => owned pending m /\ mq_client m = old)); [by intros m Hm|].
  intros old. eapply (triple_bind _ _ (fun _ m => owned pending m /\ mq_client m = old)); [by intros m Hm|]. intros online.
  eapply (triple_bind _ _ (fun _ m => owned pending m /\ mq_client m = old)).
  { assert (keeps (fun m => owned pending m /\ mq_client m = old) (retire_messages env (default 0 old) previous)) as Hr.
    { apply plain_retire_messages. intros m e He [Hm Ho]. by split; [apply owned_plain'|]. }
    destruct old as [old|]; [|by apply triple_ret]. by apply keeps_when. }
  intros _. intros m [(Hs & Hl & Hnd & certificate & Hc & Hcert) Ho].
  unfold mbind, state_bind, active_client_set, diag_connected, on_mqtt_diag, modify, gets, mqtt_log, owned_ca_free.
  rewrite Ho in Hc. destruct old as [old|]; cbn in Hc.
  - cbn -[live_ca live_clients heap_safe]. destruct (mq_active_ca_pem m) as [p|] eqn:Ea; unfold vacant;
      cbn -[live_ca live_clients heap_safe]; rewrite ?Ea.
    + cbn in Hl. cbn [heap_safe no_misuse live_ca live_clients]. rewrite Hc, Hl. cbn. rewrite decide_False by tauto.
      split_and!; try done; try (by eexists; left).
      * apply elem_of_app. right. by left.
      * rewrite filter_app. cbn. rewrite decide_False by tauto. rewrite app_nil_r.
        destruct pending as [q|]; cbn; [|done]. rewrite decide_True; [done|]. intros ->.
        rewrite Hl in Hnd. cbn in Hnd. apply NoDup_cons in Hnd as [Hq _]. apply Hq. by left.
    + cbn in Hl. rewrite app_nil_r in Hl. cbn [heap_safe no_misuse live_ca live_clients]. rewrite Hc, Hl. cbn.
      rewrite decide_False by tauto. split_and!; try done; by eexists; left.
  - cbn -[live_ca live_clients heap_safe]. destruct (mq_active_ca_pem m) as [p|] eqn:Ea; unfold vacant;
      cbn -[live_ca live_clients heap_safe]; rewrite ?Ea.
    + cbn in Hl. cbn [heap_safe no_misuse live_ca live_clients]. rewrite Hc, Hl.
      split_and!; try done.
      * apply elem_of_app. right. by left.
      * rewrite filter_app. cbn. rewrite decide_False by tauto. rewrite app_nil_r.
        destruct pending as [q|]; cbn; [|done]. rewrite decide_True; [done|]. intros ->.
        rewrite Hl in Hnd. cbn in Hnd. apply NoDup_cons in Hnd as [Hq _]. apply Hq. by left.
    + cbn in Hl. rewrite app_nil_r in Hl. split_and!; done.
Qed.

(** Behind [esp_mqtt_client_init]. *)
Lemma init_client pending c config will m :
  vacant pending m ->
  owned None (m <| mq_trace := QE_init c config will
    (if gateway_mqtt_uri_is_tls (Some (mc_broker_uri config)) then pending else None) :: mq_trace m |>
    <| mq_active_ca_pem := pending |> <| mq_client := Some c |>).
Proof.
  intros (Hs & Hl & Hc & _ & _). unfold owned. cbn -[live_ca live_clients heap_safe gateway_mqtt_uri_is_tls].
  cbn [heap_safe no_misuse live_ca live_clients]. rewrite Hl, Hc. split_and!; try done.
  - intros p Hp. destruct (gateway_mqtt_uri_is_tls _); [|done]. rewrite Hp. by left.
  - destruct pending; [apply NoDup_singleton|constructor].
  - eexists. split; [done|]. destruct (gateway_mqtt_uri_is_tls _); [by right|by left].
Qed.

(** A client that could not be started is destroyed before its certificate. *)
Lemma start_failed c m :
  owned None m -> mq_client m = Some c ->
  owned None ((active_client_set None;; mqtt_log (QE_destroy c);; ca ← gets mq_active_ca_pem; owned_ca_free ca;;
    modify (fun m => m <| mq_active_ca_pem := None |>)) m).1.
Proof.
  intros (Hs & Hl & Hnd & certificate & Hc & Hcert) Ec. rewrite Ec in Hc. cbn in Hc. apply vacant_owned.
  unfold mbind, state_bind, active_client_set, modify, gets, mqtt_log, owned_ca_free.
  cbn -[live_ca live_clients heap_safe]. destruct (mq_active_ca_pem m) as [p|] eqn:Ea; unfold vacant;
    cbn -[live_ca live_clients heap_safe]; rewrite ?Ea; cbn [heap_safe no_misuse live_ca live_clients];
    cbn in Hl; rewrite Hc, Hl; cbn; rewrite ?decide_False by tauto; split_and!; try done; first [by left|by eexists; left].
Qed.

Lemma start_owned pending : triple (vacant pending) (start_client env pending) (fun _ => owned None).
Proof.
  unfold start_client. eapply triple_bind; [apply plain_topic, vacant_plain|]. intros will.
  eapply triple_bind; [apply keeps_gets|]. intros config.
  eapply triple_bind; [apply plain_ask, vacant_plain|]. intros [c|].
  - intros m Hm. pose proof (init_client pending c config will m Hm) as H1. revert H1.
    unfold mbind at 1, state_bind at 1, mqtt_log at 1, modify at 1. unfold mbind at 1, state_bind at 1, modify at 1.
    unfold mbind at 1, state_bind at 1, active_client_set at 1, modify at 1.
    set (m1 := _ <| mq_client := Some c |>). intros H1. assert (mq_client m1 = Some c) as E1 by done. clearbody m1. clear m Hm.
    unfold mbind at 1, state_bind at 1, mqtt_ask. set (m2 := m1 <| mq_trace := QE_asked :: mq_trace m1 |>).
    assert (owned None m2 /\ mq_client m2 = Some c) as [H2 E2] by (split; [by apply owned_plain'|done]).
    set (err := qenv_start env _). clearbody err. clearbody m2. clear m1 H1 E1.
    unfold mbind at 1, state_bind at 1, mqtt_log at 1, modify at 1. set (m3 := m2 <| mq_trace := _ :: _ |>).
    assert (owned None m3 /\ mq_client m3 = Some c) as [H3 E3].
    { split; [|done]. destruct H2 as (Hs & Hl & Hnd & certificate & Hc & Hcert). unfold owned.
      cbn -[live_ca live_clients heap_safe]. cbn [heap_safe no_misuse live_ca live_clients].
      split_and!; try done; [|by exists certificate]. exists certificate. rewrite Hc, E2. by left. }
    clearbody m3. unfold when. destruct (bool_decide (err <> ESP_OK)); [|exact H3].
    pose proof (start_failed c m3 H3 E3) as H4. unfold mbind at 1, state_bind at 1.
    match goal with |- context [let '(_, _) := ?x in _] => change (owned None x.1) in H4; destruct x end. exact H4.
  - eapply (triple_bind _ _ (fun _ => owned None)); [|intros []; by apply triple_ret].
    eapply triple_weaken; [apply free_pending|apply vacant_owned|done].
Qed.

Lemma exchange_owned next pending : triple (owned pending) (exchange_client env next pending) (fun _ => owned None).
Proof.
  unfold exchange_client.
  assert (triple (owned pending) (owned_ca_free pending;; mret ESP_ERR_TIMEOUT) (fun (_ : esp_err_t) => owned None)) as Htimeout.
  { eapply triple_bind; [apply free_pending|]. intros []. by apply triple_ret. }
  assert (triple (vacant pending) (owned_ca_free pending;; mret ESP_ERR_TIMEOUT) (fun (_ : esp_err_t) => owned None)) as Htimeout'
    by (eapply triple_weaken; [exact Htimeout|apply vacant_owned|done]).
  do 3 (eapply triple_bind; [apply plain_takes, owned_plain'|]; intros []; cbn [negb]; [|exact Htimeout]).
  eapply triple_bind; [apply retire_owned|]. intros [].
  eapply triple_bind; [apply plain_ask, vacant_plain|]. intros []; cbn [negb]; [|exact Htimeout'].
  eapply triple_bind; [by apply vacant_modify|]. intros []. eapply triple_bind; [apply keeps_gets|]. intros cursor.
  eapply (triple_bind _ _ (fun _ => vacant pending)).
  { intros m Hm. unfold set_watermark, on_gateway, zoom, modify. by apply (vacant_same pending m). }
  intros []. eapply triple_bind; [by apply vacant_modify|]. intros [].
  destruct (negb (mc_enabled next)); [|apply start_owned].
  eapply (triple_bind _ _ (fun _ => owned None)); [|intros []; by apply triple_ret].
  eapply triple_weaken; [apply free_pending|apply vacant_owned|done].
Qed.

Lemma next_certificate_owned next :
  triple (owned None) (next_certificate env next)
    (fun r m => match r with inl _ => owned None m | inr pending => owned pending m end).
Proof.
  unfold next_certificate. destruct (_ && _); [|by apply triple_ret].
  unfold owned_ca_duplicate. destruct (_ =? 0); [by apply triple_ret|].
  intros m (Hs & Hl & Hnd & certificate & Hc & Hcert).
  unfold mbind, state_bind, mqtt_ask, mret, state_ret, mqtt_log, modify.
  destruct (qenv_malloc env (mq_trace m)) as [p|] eqn:Ep; cbn -[live_ca live_clients heap_safe]; unfold owned;
    cbn -[live_ca live_clients heap_safe]; cbn [heap_safe no_misuse live_ca live_clients].
  - apply malloc_fresh in Ep. split_and!; [done..| | |by exists certificate].
    + cbn in Hl. by rewrite Hl.
    + by constructor.
  - split_and!; [done..|by exists certificate].
Qed.

Lemma reconfigure_owned : keeps (owned None) (mqtt_service_reconfigure env).
Proof.
  unfold mqtt_service_reconfigure. eapply triple_bind; [apply plain_allocated, owned_plain'|].
  intros []; cbn [negb]; [|apply keeps_ret]. eapply triple_bind; [apply plain_ask, owned_plain'|]. intros taken.
  eapply triple_bind; [apply plain_gateway_gets|]. intros [err|next]; [apply keeps_ret|].
  destruct (bool_decide _); [apply keeps_ret|]. eapply triple_bind; [apply next_certificate_owned|].
  intros [err|pending]; [by apply triple_ret|apply exchange_owned].
Qed.

(** What the tasks do, with any settings: the worker, the client, the message
    service, the exchange, and the other components among themselves. *)
Inductive mqtt_step : mqtt -> mqtt -> Prop :=
  | step_worker m : mqtt_step m (worker_turn aenv env m).1
  | step_client client event m : mqtt_step m (mqtt_event_handler env client event m).1
  | step_callback event message m : mqtt_step m (sms_event_callback env event message m).1
  | step_reconfigure m : mqtt_step m (mqtt_service_reconfigure env m).1
  | step_other g m : mqtt_step m (m <| mq_gateway := g |>).

(** C10. The certificate of an MQTT client outlives it: in every sequence of
    steps, and whatever memory, mutexes and the client library answer, a copy is
    freed once, while no client points to it; a client is given only a copy that
    is allocated; and after each step the copies are exactly the active one, so
    that none is leaked. *)
Theorem certificate_outlives_client m m' :
  owned None m -> rtc mqtt_step m m' ->
  heap_safe (mq_trace m') /\ live_ca (mq_trace m') = option_list (mq_active_ca_pem m') /\
  Forall (fun client => Some client.1 = mq_client m' /\ (client.2 = None \/ client.2 = mq_active_ca_pem m'))
    (live_clients (mq_trace m')).
Proof.
  intros Hm Hr. assert (owned None m') as (Hs & Hl & _ & certificate & Hc & Hcert).
  { induction Hr as [m|m m1 m2 Hstep _ IH]; [done|]. apply IH. destruct Hstep as [m|client event m|event message m|m|g m].
    - by apply frame_worker; [apply owned_plain|apply owned_same|].
    - by apply frame_event; [apply owned_plain|apply owned_same|].
    - by apply frame_callback; [apply owned_plain|apply owned_same|].
    - by apply reconfigure_owned.
    - by apply (owned_same None m). }
  split_and!; [done..|]. rewrite Hc. destruct (mq_client m'); [|constructor]. by constructor.
Qed.

End Certificate.

(** Behind the copies in use. *)
Definition sample_malloc (tr : list mqtt_effect) : option Z := Some (1 + foldr Z.max 0 (live_ca tr)).

Lemma sample_malloc_fresh tr p : sample_malloc tr = Some p -> p ∉ live_ca tr.
Proof.
  intros [= <-] Hp. assert (forall l q, q ∈ l -> q <= foldr Z.max 0 l) as Hmax.
  { intros l q. induction l as [|x l IH]; [by intros ?%elem_of_nil|]. intros [->|?%IH]%elem_of_cons; cbn; lia. }
  apply Hmax in Hp. lia.
Qed.

Lemma sample_online_reached :
  rtc (mqtt_step sample_api (sample_mqtt_env sample_malloc)) sample_mqtt (sample_online sample_malloc).
Proof.
  unfold sample_online. eapply rtc_r; [|apply step_worker]. eapply rtc_r; [|apply step_client].
  eapply rtc_r; [apply rtc_refl|apply step_reconfigure].
Qed.

(** Two exchanges: the first certificate is freed before the second client is
    started. *)
Lemma certificate_outlives_client_witness :
  let m := (mqtt_service_reconfigure (sample_mqtt_env sample_malloc) (sample_online sample_malloc)).1 in
  omap (fun e => match e with
    | QE_ca_alloc p => Some (1, p) | QE_ca_free p => Some (2, p) | QE_init _ _ _ (Some p) => Some (3, p)
    | QE_destroy _ => Some (4, 0) | _ => None end) (rev (mq_trace m)) =
    [(1, 1); (3, 1); (1, 2); (4, 0); (2, 1); (3, 2)] /\
  heap_safe (mq_trace m).
Proof.
  split; [vm_compute; reflexivity|].
  refine (proj1 (certificate_outlives_client sample_api (sample_mqtt_env sample_malloc) sample_malloc_fresh sample_mqtt _ _ _)).
  - split; [done|]. split; [done|]. split; [constructor|]. exists None. split; [done|by left].
  - eapply rtc_r; [exact sample_online_reached|apply step_reconfigure].
Defined.
