(* ===== verification/MqttCommands.v ===== *)
(** * The MQTT service: what a command may do, and what a repeated request does *)

From Stdlib Require Import Ascii String.
From Stdlib Require Import ZifyBool ZifyNat.
From stdpp Require Import base numbers list strings gmap.
From S2P Require Import Prelude.
From S2P Require Import StateMonad.
From S2P Require Import PduEncode.
From S2P Require Import SmsMessage.
From S2P Require Import Nvs.
From S2P Require Import SmsStore.
From S2P Require Import SmsStoreFacts.
From S2P Require Import SmsStoreSpec.
From S2P Require Import GatewaySecurity.
From S2P Require Import ApiIdempotency.
From S2P Require Import ApiIdempotencyFacts.
From S2P Require Import SmsService.
From S2P Require Import SmsServiceFacts.
From S2P Require Import ModemManager.
From S2P Require Import ApiCommon.
From S2P Require Import RateLimiter.
From S2P Require Import Http.
From S2P Require Import MqttConfig.
From S2P Require Import MqttRx.
From S2P Require Import MqttDiscovery.
From S2P Require Import ApiServer.
From S2P Require Import MqttService.
From S2P Require Import ApiSample.
From S2P Require Import ApiServerFacts.
From S2P Require Import MqttFacts.

Open Scope Z_scope.

(** ** What each command may change *)

Section Confined.

Context {N : Type} `{Nvs N}.

Abbreviation mqtt := (mqtt N).

Variable aenv : api_environment N.
Variable env : mqtt_environment.

(** What a command of the kind may have done to the other components. *)
Definition reached (kind : mqtt_command_kind_t) (g g' : gateway N) : Prop :=
  match kind with
  | MQTT_COMMAND_SMS_SEND | MQTT_COMMAND_NATIVE_NOTIFY =>
      g' = g <| gw_sms := gw_sms g' |> <| gw_idempotency := gw_idempotency g' |> <| gw_trace := gw_trace g' |>
  | MQTT_COMMAND_MODEM_RESTART => g' = g <| gw_manager := gw_manager g' |>
  | _ => g' = g
  end.

(** It published and subscribed, and counted; only a reboot command reboots. *)
Definition confined (kind : mqtt_command_kind_t) (m m' : mqtt) : Prop :=
  reached kind (mq_gateway m) (mq_gateway m') /\
  m' = m <| mq_gateway := mq_gateway m' |> <| mq_sms_limiter := mq_sms_limiter m' |> <| mq_diag := mq_diag m' |>
         <| mq_trace := mq_trace m' |> /\
  exists tr, mq_trace m' = tr ++ mq_trace m /\
    Forall (fun e => plain e = true \/ kind = MQTT_COMMAND_SYSTEM_REBOOT /\ e = QE_reboot) tr.

Lemma confined_refl kind m : confined kind m m.
Proof. split; [by destruct kind, m as [[]]|]. split; [by destruct m|]. by exists []. Qed.

Lemma confined_log kind m0 m e :
  plain e = true \/ kind = MQTT_COMMAND_SYSTEM_REBOOT /\ e = QE_reboot ->
  confined kind m0 m -> confined kind m0 (m <| mq_trace := e :: mq_trace m |>).
Proof.
  intros He (Hg & E & tr & Ht & Hp). split; [exact Hg|]. split; [by rewrite E|]. exists (e :: tr). cbn. rewrite Ht.
  split; [done|by constructor].
Qed.

Lemma confined_plain kind m0 m e :
  plain e = true -> confined kind m0 m -> confined kind m0 (m <| mq_trace := e :: mq_trace m |>).
Proof. intros He. apply confined_log. by left. Qed.

(** A kind that may do nothing more than the others. *)
Lemma confined_any kind m m' : confined MQTT_COMMAND_NONE m m' -> confined kind m m'.
Proof.
  intros (Hg & E & tr & Ht & Hp). split.
  - cbn in Hg. rewrite Hg. destruct kind, (mq_gateway m); done.
  - split; [done|]. exists tr. split; [done|]. eapply Forall_impl; [exact Hp|]. intros e [?|[? _]]; [by left|done].
Qed.

Lemma confined_diag kind m0 f : keeps (confined kind m0) (on_mqtt_diag f).
Proof. intros m (Hg & E & Ht). split; [exact Hg|]. split; [by rewrite E|exact Ht]. Qed.

Lemma confined_limited kind m0 : keeps (confined kind m0) (sms_limited env).
Proof.
  unfold sms_limited. apply keeps_bind; [apply plain_ask, confined_plain|]. intros now.
  intros m (Hg & E & Ht). unfold zoom. destruct (gateway_rate_limiter_allow _ _ _). split; [exact Hg|].
  split; [by rewrite E|exact Ht].
Qed.

Lemma confined_reboot m0 : keeps (confined MQTT_COMMAND_SYSTEM_REBOOT m0) (create_mqtt_reboot env).
Proof.
  unfold create_mqtt_reboot. apply keeps_bind; [apply plain_ask, confined_plain|]. intros created.
  apply keeps_when. intros _ m Hm. apply confined_log; [by right|done].
Qed.

Lemma confined_gateway {A} kind m0 (c : State (gateway N) A) :
  keeps (reached kind (mq_gateway m0)) c -> keeps (confined kind m0) (on_gateway c).
Proof.
  intros Hc m (Hg & E & Ht). unfold on_gateway, zoom. specialize (Hc _ Hg). destruct (c (mq_gateway m)) as [g x].
  split; [exact Hc|]. split; [by rewrite E|exact Ht].
Qed.

(** Sending changes the messages, the journal and their trace. *)
Definition sends (kind : mqtt_command_kind_t) : Prop :=
  kind = MQTT_COMMAND_SMS_SEND \/ kind = MQTT_COMMAND_NATIVE_NOTIFY.

Lemma reached_part {A} kind g0 (c : State (gateway N) A) : sends kind ->
  (forall g, (c g).1 = g <| gw_sms := gw_sms (c g).1 |> <| gw_idempotency := gw_idempotency (c g).1 |>
                         <| gw_trace := gw_trace (c g).1 |>) ->
  keeps (reached kind g0) c.
Proof. intros [-> | ->] Hc g Hg; cbn in *; rewrite (Hc g), Hg; done. Qed.

Lemma reached_ask {A} kind g0 (answer : list api_effect -> A) : sends kind -> keeps (reached kind g0) (api_ask answer).
Proof. intros Hk. apply reached_part; [exact Hk|by intros []]. Qed.

Lemma reached_idempotency {A} kind g0 (f : idem_state -> idem_state * A) :
  sends kind -> keeps (reached kind g0) (on_idempotency f).
Proof. intros Hk. apply reached_part; [exact Hk|]. intros []. unfold on_idempotency, zoom. by destruct (f _). Qed.

Lemma reached_send kind g0 to text delivery :
  sends kind -> keeps (reached kind g0) (modem_core_sms_send aenv to text delivery).
Proof.
  intros Hk. apply reached_part; [exact Hk|]. intros []. unfold modem_core_sms_send, on_sms, zoom, mbind, state_bind.
  by destruct (sms_service_send _ _ _ _ _).
Qed.

Lemma reached_finalize kind g0 attempts k fp message_id :
  sends kind -> keeps (reached kind g0) (finalize_attempts aenv attempts k fp message_id).
Proof.
  intros Hk. induction attempts as [|attempts IH]; cbn [finalize_attempts]; [apply keeps_ret|].
  apply keeps_bind; [by apply reached_ask|]. intros taken. apply keeps_bind; [by apply reached_idempotency|].
  intros err. by destruct (bool_decide _); [apply keeps_ret|].
Qed.

Hint Resolve confined_plain confined_diag confined_limited confined_reboot confined_gateway reached_ask
  reached_idempotency reached_send reached_finalize : state.

Lemma sends_sms : sends MQTT_COMMAND_SMS_SEND.
Proof. by left. Qed.

Lemma sends_notify : sends MQTT_COMMAND_NATIVE_NOTIFY.
Proof. by right. Qed.

Hint Resolve sends_sms sends_notify : state.

Lemma confined_structured m0 payload :
  keeps (confined MQTT_COMMAND_SMS_SEND m0) (handle_structured_send aenv env payload).
Proof.
  unfold handle_structured_send, structured_claim, send_claimed, command_received, command_rejected. keeps_tac.
Qed.

Lemma confined_notify m0 payload :
  keeps (confined MQTT_COMMAND_NATIVE_NOTIFY m0) (handle_native_notify aenv env payload).
Proof. unfold handle_native_notify. keeps_tac. Qed.

Lemma confined_restart m0 :
  keeps (confined MQTT_COMMAND_MODEM_RESTART m0) (on_gateway (on_manager modem_manager_request_restart)).
Proof.
  apply confined_gateway. intros g Hg. cbn in *. unfold on_manager, zoom. destruct (modem_manager_request_restart _).
  by rewrite Hg.
Qed.

Hint Resolve confined_structured confined_notify confined_restart : state.

Lemma confined_execute kind m0 payload : keeps (confined kind m0) (execute_command aenv env kind payload).
Proof. destruct kind; cbn [execute_command]; keeps_tac. Qed.

(** ** Which command it is *)

(** The topic of the message is the one of the command. *)
Definition addressed (m : mqtt) (name : list Z) (kind : mqtt_command_kind_t) : Prop :=
  (exists suffix, (suffix, kind) ∈ mqtt_commands /\ c_str name = c_str (joined (mc_base_topic (mq_config m)) (str suffix))) \/
  kind = MQTT_COMMAND_HA_STATUS /\ c_str name = c_str (joined (mc_discovery_prefix (mq_config m)) (str "status")).

Lemma confined_config kind m0 m : confined kind m0 m -> mq_config m = mq_config m0.
Proof. intros (_ & E & _). by rewrite E. Qed.

Lemma topic_spec m0 suffix :
  triple (confined MQTT_COMMAND_NONE m0) (topic env suffix) (fun expected m =>
    confined MQTT_COMMAND_NONE m0 m /\ (expected = [] \/ expected = joined (mc_base_topic (mq_config m0)) (str suffix))).
Proof.
  unfold topic. eapply triple_bind; [apply plain_takes, confined_plain|]. intros ok. destruct (negb ok).
  - apply triple_ret. intros m Hm. split; [done|by left].
  - eapply triple_bind; [apply triple_gets|]. intros c. apply triple_ret. intros m [-> Hm]. split; [done|right].
    by rewrite (confined_config _ _ _ Hm).
Qed.

Lemma command_kind_spec m0 name commands :
  c_str name <> [] -> (forall c, c ∈ commands -> c ∈ mqtt_commands) ->
  triple (confined MQTT_COMMAND_NONE m0) (command_kind env name commands) (fun kind m =>
    confined MQTT_COMMAND_NONE m0 m /\ (kind = MQTT_COMMAND_NONE \/ addressed m0 name kind)).
Proof.
  intros Hname. induction commands as [|[suffix kind] commands IH]; intros Hin; cbn [command_kind].
  - unfold config_view. unfold mbind at 1. eapply (triple_bind _ _ (fun view m => confined MQTT_COMMAND_NONE m0 m /\
      (view = None \/ view = Some (view_of (mq_config m0))))).
    + eapply triple_bind; [apply plain_takes, confined_plain|]. intros ok. destruct (negb ok).
      * apply triple_ret. intros m Hm. split; [done|by left].
      * eapply triple_bind; [apply triple_gets|]. intros c. apply triple_ret. intros m [-> Hm]. split; [done|right].
        by rewrite (confined_config _ _ _ Hm).
    + intros view. apply triple_ret. intros m [Hm Hv]. split; [done|]. destruct view as [view|]; [|by left].
      destruct Hv as [?|[= ->]]; [done|]. unfold streq. case_bool_decide as E; [right; right; by split|by left].
  - eapply triple_bind; [apply topic_spec|]. intros expected. unfold streq. case_bool_decide as E.
    + apply triple_ret. intros m [Hm Hexp]. split; [done|right; left]. exists suffix. split; [apply Hin; left|].
      destruct Hexp as [->|<-]; [by destruct Hname|done].
    + eapply triple_weaken; [apply IH|by intros m [Hm _]|done]. intros c Hc. apply Hin. by right.
Qed.

(** Whatever the message is. *)
Lemma data_work_confined work m : exists kind, confined kind m (handle_data_work aenv env work m).1.
Proof.
  enough (triple (confined MQTT_COMMAND_NONE m) (handle_data_work aenv env work) (fun _ m' => exists kind, confined kind m m'))
    as H1 by exact (H1 m (confined_refl _ m)).
  unfold handle_data_work. eapply triple_bind; [apply plain_command_kind, confined_plain|]. intros kind.
  case_bool_decide; [apply triple_ret; by exists MQTT_COMMAND_NONE|]. destruct (negb _).
  - eapply triple_weaken; [apply keeps_when; intros _; apply (confined_diag MQTT_COMMAND_NONE m)|done|].
    intros [] m' Hm. by exists MQTT_COMMAND_NONE.
  - intros m' Hm. exists kind. by apply confined_execute, confined_any.
Qed.

(** C13. What an MQTT message may do: a message that is retained, or whose topic
    is not exactly the one of a command under the base topic (or the birth topic
    of Home Assistant), or that asks for a restart or a reboot and does not say
    PRESS, changes nothing but counters; and a command changes only what is its
    own: sending changes the stored messages and the journal of the keys, a
    restart the modem manager, and only a reboot command reboots.  Other than
    that the service publishes. *)
Theorem commands_guarded work (m : mqtt) :
  c_str (mm_topic work) <> [] ->
  let m' := (handle_data_work aenv env work m).1 in
  confined MQTT_COMMAND_NONE m m' \/
  exists kind, confined kind m m' /\ mm_retained work = false /\ addressed m (mm_topic work) kind /\
    (kind = MQTT_COMMAND_MODEM_RESTART \/ kind = MQTT_COMMAND_SYSTEM_REBOOT -> c_str (mm_payload work) = str "PRESS").
Proof.
  intros Hname. enough (triple (confined MQTT_COMMAND_NONE m) (handle_data_work aenv env work) (fun _ m' =>
    confined MQTT_COMMAND_NONE m m' \/
    exists kind, confined kind m m' /\ mm_retained work = false /\ addressed m (mm_topic work) kind /\
      (kind = MQTT_COMMAND_MODEM_RESTART \/ kind = MQTT_COMMAND_SYSTEM_REBOOT -> c_str (mm_payload work) = str "PRESS")))
    as H1 by exact (H1 m (confined_refl _ m)).
  unfold handle_data_work. eapply triple_bind; [by apply command_kind_spec|]. intros kind.
  case_bool_decide as Hk; [apply triple_ret; intros m' [Hm _]; by left|].
  destruct (mqtt_command_allowed _ _ _) eqn:Hallowed; cbn [negb].
  - intros m' [Hm [?|Haddr]]; [done|]. right. exists kind. split; [by apply confined_execute, confined_any|].
    unfold mqtt_command_allowed in Hallowed. rewrite bool_decide_eq_false_2 in Hallowed by done.
    destruct (mm_retained work).
    + by destruct kind.
    + split; [done|]. split; [done|]. intros [-> | ->]; cbn in Hallowed; by apply bool_decide_eq_true in Hallowed.
  - eapply triple_weaken; [apply keeps_when; intros _; apply (confined_diag MQTT_COMMAND_NONE m)|by intros m' [Hm _]|by left].
Qed.

End Confined.

Definition sample_command (name payload : string) (retained : bool) : mqtt_message :=
  mk_mqtt_message (str name) (str payload) retained false 1.

(** A reboot command, and the same one retained. *)
Lemma commands_guarded_witness :
  let run work := (handle_data_work sample_api (sample_mqtt_env (fun _ => Some 1)) work (sample_online (fun _ => Some 1))).1 in
  head (mq_trace (run (sample_command "gw/system/reboot" "PRESS" false))) = Some QE_reboot /\
  confined MQTT_COMMAND_NONE (sample_online (fun _ => Some 1)) (run (sample_command "gw/system/reboot" "PRESS" true)).
Proof.
  split; [vm_compute; reflexivity|].
  destruct (commands_guarded sample_api (sample_mqtt_env (fun _ => Some 1)) (sample_command "gw/system/reboot" "PRESS" true)
    (sample_online (fun _ => Some 1)) ltac:(done)) as [H|(kind & _ & H & _)]; [exact H|discriminate H].
Defined.

(** ** A key queues one message, over HTTP and MQTT *)

Section Requests.

Context {N : Type} `{NvsLaws N}.

Abbreviation mqtt := (mqtt N).

Variable aenv : api_environment N.
Variable env : mqtt_environment.
Hypothesis psa_bytes : forall data out, aenv_psa aenv data = Some out -> bytes out.
Hypothesis parse_bytes : forall body j name s,
  aenv_parse aenv body = Some j -> cJSON_GetObjectItemCaseSensitive j name = Some (JString s) -> bytes s.

(** The payload has the key, or no key. *)
Definition mqtt_key (key payload : list Z) : Prop :=
  forall request_id, json_string (field_of (aenv_parse aenv (c_str payload)) (str "request_id")) = Some request_id ->
    c_str request_id = c_str key.

Section Once.

Variable key kh : list Z.
Hypothesis key_hashed : hash_key (aenv_psa aenv) key = inr kh.

Definition mqtt_once (q : nat) (n : Z) (m : mqtt) : Prop := once kh q n (mq_gateway m).

Lemma mqtt_once_plain q n m e :
  plain e = true -> mqtt_once q n m -> mqtt_once q n (m <| mq_trace := e :: mq_trace m |>).
Proof. done. Qed.

Lemma mqtt_once_limited q n : keeps (mqtt_once q n) (sms_limited env).
Proof.
  unfold sms_limited. apply keeps_bind; [apply plain_ask, mqtt_once_plain|]. intros now m Hm. unfold zoom.
  by destruct (gateway_rate_limiter_allow _ _ _).
Qed.

(** On the other components. *)
Lemma gateway_triple {A} (c : State (gateway N) A) (P : gateway N -> Prop) (Q : A -> gateway N -> Prop) :
  triple P c Q -> triple (fun m => P (mq_gateway m)) (on_gateway c) (fun x m => Q x (mq_gateway m)).
Proof. intros Hc. eapply triple_zoom; [exact Hc|done|done]. Qed.

Lemma gateway_asked {A} (answer : list api_effect -> A) (P : gateway N -> Prop) :
  (forall g e, quiet e -> P g -> P (g <| gw_trace := e :: gw_trace g |>)) ->
  keeps (fun m => P (mq_gateway m)) (on_gateway (api_ask answer)).
Proof. intros HP. apply (gateway_triple _ P (fun _ => P)). by apply blind_ask. Qed.

Lemma send_claimed_once q n request_id to text fp delivery :
  0 <= n -> hash_key (aenv_psa aenv) request_id = inr kh -> hash_ok fp -> bytes to -> bytes text ->
  triple (fun m => reserved aenv kh q (n + 1) (Some (request_id, fp)) (mq_gateway m))
    (send_claimed aenv env request_id to text fp delivery) (fun _ => mqtt_once q n).
Proof.
  intros Hn Hk Hfp Hto Htext. unfold send_claimed.
  eapply triple_bind; [by apply gateway_triple, sms_send_spec|]. intros [e|message_id]; cbn beta.
  - eapply (triple_bind _ _ (fun _ m => sent kh q n (inl e) (mq_gateway m)));
      [apply gateway_asked; intros g; apply sent_log|]. intros taken.
    eapply (triple_bind _ _ (fun _ => mqtt_once q n)).
    { apply (gateway_triple _ (sent kh q n (inl e)) (fun _ => once kh q n)). by apply release_spec. }
    intros err.
    apply plain_command_result, mqtt_once_plain.
  - eapply (triple_bind _ _ (fun _ m => sent kh q n (inr message_id) (mq_gateway m)));
      [by apply (gateway_triple _ (sent kh q n (inr message_id)) (fun _ => sent kh q n (inr message_id))), finalize_attempts_spec|].
    intros finalized.
    eapply (triple_weaken (mqtt_once q n)); [apply plain_command_result, mqtt_once_plain| |done].
    intros m Hm. by eapply sent_once.
Qed.

Lemma structured_claim_once q n request_id to text fp delivery :
  0 <= n -> hash_key (aenv_psa aenv) request_id = inr kh -> hash_ok fp -> bytes to -> bytes text ->
  triple (mqtt_once q (n + 1)) (structured_claim aenv env request_id to text fp delivery) (fun _ => mqtt_once q n).
Proof.
  intros Hn Hk Hfp Hto Htext. unfold structured_claim.
  assert (forall m, mqtt_once q (n + 1) m -> mqtt_once q n m) as Hless by (intros m; apply once_less; lia).
  assert (forall request ok code id replayed, triple (mqtt_once q (n + 1))
    (publish_command_result env request ok code id replayed) (fun _ => mqtt_once q n)) as Hresult.
  { intros. eapply (triple_weaken (mqtt_once q n)); [apply plain_command_result, mqtt_once_plain|exact Hless|done]. }
  eapply (triple_bind _ _ (fun _ => mqtt_once q (n + 1))); [apply gateway_asked; intros g; apply once_log|]. intros taken.
  eapply triple_bind; [by apply gateway_triple, claim_spec|]. intros [e|[[] existing]]; cbn beta iota; try apply Hresult.
  - by apply send_claimed_once.
  - destruct (existing =? 0); [apply Hresult|].
    eapply (triple_bind _ _ (fun _ => mqtt_once q (n + 1))); [apply plain_allocated, mqtt_once_plain|]. intros ok.
    eapply (triple_bind _ _ (fun _ => mqtt_once q (n + 1))).
    { destruct ok; [apply plain_gateway_gets|apply keeps_ret]. }
    intros [e|record]; apply Hresult.
Qed.

Lemma structured_message_spec body request_id to text delivery :
  structured_message (aenv_parse aenv body) = Some (request_id, to, text, delivery) ->
  json_string (field_of (aenv_parse aenv body) (str "request_id")) = Some request_id /\ bytes to /\ bytes text.
Proof.
  unfold structured_message. destruct (aenv_parse aenv body) as [j|] eqn:Ej; [|done]. cbn [field_of].
  destruct (json_string (cJSON_GetObjectItemCaseSensitive j (str "request_id"))) as [r|] eqn:Er; [|done].
  destruct (json_string (cJSON_GetObjectItemCaseSensitive j (str "to"))) as [t|] eqn:Et; [|done].
  destruct (json_string (cJSON_GetObjectItemCaseSensitive j (str "text"))) as [x|] eqn:Ex; [|done].
  destruct (_ || _); [done|]. intros [= -> -> -> _]. split; [done|]. unfold json_string in *.
  split; eapply parse_bytes; try exact Ej; by repeat case_match; simplify_eq.
Qed.

Lemma structured_once q n payload :
  0 <= n -> mqtt_key key payload ->
  triple (mqtt_once q (n + 1)) (handle_structured_send aenv env payload) (fun _ => mqtt_once q n).
Proof.
  intros Hn Hkey. unfold handle_structured_send, command_rejected, command_received.
  assert (forall m, mqtt_once q (n + 1) m -> mqtt_once q n m) as Hless by (intros m; apply once_less; lia).
  assert (forall request ok code id replayed, triple (mqtt_once q (n + 1))
    (publish_command_result env request ok code id replayed) (fun _ => mqtt_once q n)) as Hresult.
  { intros. eapply (triple_weaken (mqtt_once q n)); [apply plain_command_result, mqtt_once_plain|exact Hless|done]. }
  assert (forall f, keeps (mqtt_once q (n + 1)) (on_mqtt_diag f)) as Hdiag by (by intros f m Hm).
  eapply triple_bind; [apply Hdiag|]. intros [].
  destruct (structured_message _) as [[[[request_id to] text] delivery]|] eqn:Es;
    [|eapply triple_bind; [apply Hdiag|]; intros []; apply Hresult].
  destruct (sms_submit_preflight _ _ _); [|eapply triple_bind; [apply Hdiag|]; intros []; apply Hresult].
  eapply triple_bind; [apply mqtt_once_limited|]. intros ok. destruct (negb ok); [apply Hresult|].
  eapply triple_bind; [apply plain_allocated, mqtt_once_plain|]. intros allocated.
  destruct (gateway_idempotency_sms_fingerprint _ _ _ _ _) as [e|fp] eqn:Hfp; [apply Hresult|].
  apply (fingerprint_ok aenv psa_bytes) in Hfp. apply structured_message_spec in Es as (Er & Hto & Htext).
  apply structured_claim_once; [done| |done..]. unfold hash_key. by rewrite (Hkey request_id Er).
Qed.

End Once.

(** [n] requests with the key, as posts over HTTP and as messages over MQTT; in
    between the SMS task works, and everything else that does not touch the
    messages and the journal. *)
Inductive requests (key : list Z) : nat -> mqtt -> mqtt -> Prop :=
  | requests_none m : requests key 0 m m
  | requests_http n m0 m req : requests key n m0 m -> has_key key req ->
      requests key (S n) m0 (m <| mq_gateway := (messages_post_handler aenv req (mq_gateway m)).1 |>)
  | requests_mqtt n m0 m payload : requests key n m0 m -> mqtt_key key payload ->
      requests key (S n) m0 (handle_structured_send aenv env payload m).1
  | requests_sms n m0 m sv P : requests key n m0 m -> evolves P 0 (gw_sms (mq_gateway m)) sv ->
      requests key n m0 (m <| mq_gateway := ((mq_gateway m) <| gw_sms := sv |>) |>)
  | requests_other n m0 m m' : requests key n m0 m -> gw_sms (mq_gateway m') = gw_sms (mq_gateway m) ->
      gw_idempotency (mq_gateway m') = gw_idempotency (mq_gateway m) ->
      gw_trace (mq_gateway m') = gw_trace (mq_gateway m) -> requests key n m0 m'.

(** C8. However often a request with the same idempotency key is repeated, over
    HTTP and over MQTT in any order and with whatever bodies, at most one message
    is queued for all of them: also when the flash fails while the key is
    reserved or finalized, when memory or the lock is not available, when the
    reply does not reach the client, and while the SMS task works in between.
    (Until the record of the key is evicted, which only other keys do.) *)
Theorem same_key_queues_once key kh n m0 m :
  hash_key (aenv_psa aenv) key = inr kh -> serving (Z.of_nat n) (mq_gateway m0) -> requests key n m0 m ->
  (length (queued_in (gw_trace (mq_gateway m))) <= S (length (queued_in (gw_trace (mq_gateway m0)))))%nat.
Proof.
  intros Hk Hs Hp. set (q := length (queued_in (gw_trace (mq_gateway m0)))).
  enough (forall l, serving (Z.of_nat n + l) (mq_gateway m0) -> 0 <= l -> once kh q l (mq_gateway m)) as H1.
  { destruct (H1 0) as [_ Hq]; [by rewrite Z.add_0_r|done|]. lia. }
  clear Hs. induction Hp as [m|n m0 m req Hp IH Hkey|n m0 m payload Hp IH Hkey|n m0 m sv P Hp IH Hev|n m0 m m' Hp IH E1 E2 E3];
    intros l Hs Hl.
  - split; [done|by left].
  - eapply (post_once aenv psa_bytes key kh Hk parse_bytes q l req Hl Hkey). apply IH; [|lia].
    by replace (Z.of_nat n + (l + 1)) with (Z.of_nat (S n) + l) by lia.
  - eapply (structured_once key kh Hk q l payload Hl Hkey). apply IH; [|lia].
    by replace (Z.of_nat n + (l + 1)) with (Z.of_nat (S n) + l) by lia.
  - destruct (IH l Hs Hl) as [(Hu & Hi & Hn) Hq]. split; [|exact Hq].
    destruct (Hev Hi ltac:(lia)) as [Hi' Hn' _ _]. unfold serving. cbn. split_and!; [done|done|lia].
  - specialize (IH l Hs Hl). unfold once, serving in *. by rewrite E1, E2, E3.
Qed.

End Requests.

Lemma sample_mqtt_key : mqtt_key sample_api (str "request-0001") (str "mqtt").
Proof. by intros request_id [= <-]. Qed.

(** The gateway after a message was posted over HTTP and then sent again over
    MQTT. *)
Lemma same_key_queues_once_witness :
  let env := sample_mqtt_env (fun _ => Some 1) in
  let m := (handle_structured_send sample_api env (str "mqtt") (sample_mqtt <| mq_gateway := sample_posted |>)).1 in
  queued_in (gw_trace (mq_gateway m)) = [1] /\ (length (queued_in (gw_trace (mq_gateway m))) <= 1)%nat.
Proof.
  split; [vm_compute; reflexivity|].
  set (m0 := sample_mqtt <| mq_gateway := sample_gateway |>).
  assert (serving 2 (mq_gateway m0)) as Hm0 by (change (mq_gateway m0) with sample_gateway; exact sample_serving).
  change 1%nat with (S (length (queued_in (gw_trace (mq_gateway m0))))).
  refine (same_key_queues_once sample_api (sample_mqtt_env (fun _ => Some 1)) sample_hash_bytes sample_parse_bytes
    (str "request-0001") (sample_digest (str "request-0001")) 2 m0 _ eq_refl Hm0 _).
  apply requests_mqtt; [|exact sample_mqtt_key]. apply (requests_http _ _ _ 0 _ m0); [|exact sample_has_key]. apply requests_none.
Defined.
