(* ===== verification/ApiListing.v ===== *)
(** * The HTTP interface: the list of messages, and the resource of one *)

From Stdlib Require Import Ascii String Sorted.
From Stdlib Require Import ZifyBool ZifyNat.
From stdpp Require Import base numbers list strings gmap sorting.
From S2P Require Import Prelude.
From S2P Require Import StateMonad.
From S2P Require Import SmsMessage.
From S2P Require Import Nvs.
From S2P Require Import SmsStore.
From S2P Require Import SmsStoreFacts.
From S2P Require Import SmsStoreSpec.
From S2P Require Import SmsService.
From S2P Require Import SmsServiceFacts.
From S2P Require Import SmsServiceSample.
From S2P Require Import SmsServiceRestart.
From S2P Require Import SmsServiceSample.
From S2P Require Import Http.
From S2P Require Import ApiServer.
From S2P Require Import ApiSample.
From S2P Require Import ApiServerFacts.

Open Scope Z_scope.

(** ** Identifiers in paths *)

Definition message_path (message_id : Z) : list Z := str "/api/v1/messages/" ++ decimal message_id.

Lemma parse_path message_id s :
  1 <= message_id <= UINT32_MAX -> cstring s -> no_digit s ->
  parse_message_id (message_path message_id ++ s) =
    if bool_decide (s = str "/retry") then Some (message_id, true)
    else if bool_decide (s = []) then Some (message_id, false) else None.
Proof.
  intros Hm Hs Hd. unfold parse_message_id, UINT32_MAX in *.
  assert (cstring (str "/api/v1/messages/")) as Hp by (apply (bool_decide_unpack _); vm_compute; exact I).
  rewrite cstring_c_str by (apply Forall_app; split; [apply Forall_app; split; [exact Hp|apply decimal_cstring]|exact Hs]).
  unfold message_path. rewrite <- app_assoc, take_app_length, drop_app_length, bool_decide_eq_true_2 by done. cbn [negb].
  rewrite strtoul_decimal by (done || lia). destruct (Z.eqb_spec message_id 0); [lia|].
  destruct (Z.ltb_spec 4294967295 message_id); [lia|]. cbn [orb].
  case_bool_decide as H1; case_bool_decide as H2; cbn [negb andb]; subst; done.
Qed.

(** The path of a message leads back to it: for every identifier, the
    [Location] of a queued message is parsed as that identifier, with
    [/retry] behind it as a retry of it, and with anything else that is no digit
    behind it as no message. *)
Theorem location_roundtrip message_id s :
  1 <= message_id <= UINT32_MAX -> cstring s -> no_digit s ->
  parse_message_id (message_path message_id) = Some (message_id, false) /\
  parse_message_id (message_path message_id ++ str "/retry") = Some (message_id, true) /\
  (s <> [] -> s <> str "/retry" -> parse_message_id (message_path message_id ++ s) = None).
Proof.
  intros Hm Hs Hd. split_and!.
  - rewrite <- (app_nil_r (message_path _)). by rewrite parse_path by (done || constructor).
  - rewrite parse_path; [done|done| |done]. apply (bool_decide_unpack _). vm_compute. exact I.
  - intros H1 H2. by rewrite parse_path, !bool_decide_eq_false_2.
Qed.

Lemma location_roundtrip_witness :
  parse_message_id (message_path 4294967295) = Some (4294967295, false) /\
  parse_message_id (message_path 42 ++ str "/retry/") = None.
Proof.
  split.
  - apply (location_roundtrip 4294967295 []); [unfold UINT32_MAX; lia|constructor|done].
  - apply (location_roundtrip 42 (str "/retry/")); [unfold UINT32_MAX; lia| |done|done|done].
    apply (bool_decide_unpack _). vm_compute. exact I.
Defined.

(** A minus sign is taken as well, and so are numbers beyond the range. *)
Example path_of_minus :
  map parse_message_id [str "/api/v1/messages/-4294967291"; str "/api/v1/messages/99999999999"] =
  [Some (5, false); Some (4294967295, false)].
Proof. vm_compute. reflexivity. Qed.

(** ** The list *)

(** The messages that were sent, the first one first. *)
Fixpoint listed_in (tr : list api_effect) : list json :=
  match tr with
  | [] => []
  | AE_chunk (ChunkMessage value) _ :: tr' => listed_in tr' ++ [value]
  | _ :: tr' => listed_in tr'
  end.

Section Listing.

Context {N : Type} `{NvsLaws N}.

Abbreviation gateway := (gateway N).

Variable env : api_environment N.

Definition selected (direction_filter : option sms_direction_t) (m : sms_message_t) : Prop :=
  direction_filter = None \/ direction_filter = Some (direction m).

(** The next record behind the cursor, or none. *)
Lemma next_record (sv : @service N) cursor :
  inv sv ->
  (sms_service_list cursor 1 sv = inr [] /\ forall k w, recs sv !! k = Some w -> k <= cursor) \/
  (exists m, sms_service_list cursor 1 sv = inr [m] /\ recs sv !! id m = Some m /\ cursor < id m /\
     forall k w, recs sv !! k = Some w -> cursor < k -> id m <= k).
Proof.
  intros Hinv. destruct (list_spec (sv_store sv) cursor 1 Hinv ltac:(lia)) as (ms & E & _ & Hlen & Hin & Hall).
  unfold sms_service_list, recs. destruct ms as [|m [|]]; [left|right|cbn in Hlen; lia].
  - split; [done|]. intros k w Hw. destruct (Z.le_gt_cases k cursor) as [|Hlt]; [done|].
    destruct (Hall k w Hw ltac:(lia)) as [Hm%elem_of_nil|[Hl _]]; done.
  - exists m. destruct (Hin m ltac:(by left)) as [Hm Hlt]. split_and!; [done|done|done|]. intros k w Hw Hk.
    destruct (Hall k w Hw Hk) as [Hm'%list_elem_of_singleton|[_ Hlow]]; [subst w|specialize (Hlow m ltac:(by left)); lia].
    apply records_lookup in Hw as (i & _ & ->); [lia|apply Hinv].
Qed.

(** What a run of the loop sent from [cursor] on, and where it stopped. *)
Record page (sv : @service N) (direction_filter : option sms_direction_t) (room cursor : Z) (ms : list sms_message_t)
    (stop : option Z) : Prop := {
  pg_sorted : StronglySorted id_lt ms;
  pg_room : Z.of_nat (length ms) <= Z.max 0 room;
  pg_from m : m ∈ ms -> recs sv !! id m = Some m /\ cursor < id m /\ selected direction_filter m;
  pg_stop c : stop = Some c -> cursor <= c /\ (forall m, m ∈ ms -> id m <= c) /\
    (forall k w, recs sv !! k = Some w -> cursor < k <= c -> selected direction_filter w -> w ∈ ms) /\
    (Z.of_nat (length ms) < room -> forall k w, recs sv !! k = Some w -> k <= c);
}.

Lemma page_empty sv direction_filter room cursor stop :
  (stop = Some cursor /\ (0 < room -> forall k w, recs sv !! k = Some w -> k <= cursor)) \/ stop = None ->
  page sv direction_filter room cursor [] stop.
Proof.
  intros Hs. split; [constructor|cbn; lia|by intros m ?%elem_of_nil|]. intros c ->. destruct Hs as [[[= <-] Hs]|?]; [|done].
  split_and!; [lia|by intros m ?%elem_of_nil|intros; lia|exact Hs].
Qed.

(** The record behind the cursor, sent or passed over. *)
Lemma page_cons sv direction_filter room cursor m ms stop :
  inv sv -> recs sv !! id m = Some m -> cursor < id m ->
  (forall k w, recs sv !! k = Some w -> cursor < k -> id m <= k) -> 0 < room -> selected direction_filter m ->
  page sv direction_filter (room - 1) (id m) ms stop -> page sv direction_filter room cursor (m :: ms) stop.
Proof.
  intros Hinv Hm Hlt Hnext Hroom Hsel [Hs Hl Hf Hc]. split.
  - constructor; [done|]. apply Forall_forall. intros x Hx. apply (Hf x Hx).
  - cbn [length]. lia.
  - intros x [->|Hx]%elem_of_cons; [done|]. destruct (Hf x Hx) as (? & ? & ?). split_and!; [done|lia|done].
  - intros c E. destruct (Hc c E) as (H1 & H2 & H3 & H4). split_and!; [lia| | |cbn [length]; intros ?; apply H4; lia].
    + intros x [->|Hx]%elem_of_cons; [lia|by apply H2].
    + intros k w Hw Hk Hsw. apply elem_of_cons. pose proof (Hnext k w Hw ltac:(lia)).
      destruct (decide (k = id m)) as [->|]; [left; congruence|right]. apply (H3 k w Hw); [lia|done].
Qed.

Lemma page_skip sv direction_filter room cursor m ms stop :
  recs sv !! id m = Some m -> cursor < id m -> (forall k w, recs sv !! k = Some w -> cursor < k -> id m <= k) ->
  ~ selected direction_filter m ->
  page sv direction_filter room (id m) ms stop -> page sv direction_filter room cursor ms stop.
Proof.
  intros Hm Hlt Hnext Hsel [Hs Hl Hf Hc]. split; [done|done| |].
  - intros x Hx. destruct (Hf x Hx) as (? & ? & ?). split_and!; [done|lia|done].
  - intros c E. destruct (Hc c E) as (H1 & H2 & H3 & H4). split_and!; [lia|done| |done].
    intros k w Hw Hk Hsw. pose proof (Hnext k w Hw ltac:(lia)).
    destruct (decide (k = id m)) as [->|]; [congruence|]. apply (H3 k w Hw); [lia|done].
Qed.

(** The interface with a trace in which these messages were sent behind [tr]. *)
Definition showing (g g' : gateway) (ms : list sms_message_t) : Prop :=
  gw_sms g' = gw_sms g /\ listed_in (gw_trace g') = listed_in (gw_trace g) ++ map message_json ms.

Lemma showing_refl g : showing g g [].
Proof. split; [done|by rewrite app_nil_r]. Qed.

Lemma showing_app g g1 g2 ms1 ms2 : showing g g1 ms1 -> showing g1 g2 ms2 -> showing g g2 (ms1 ++ ms2).
Proof. intros [S1 L1] [S2 L2]. split; [congruence|]. by rewrite L2, L1, map_app, app_assoc. Qed.

Lemma showing_asked {A} (answer : list api_effect -> A) g : showing g (api_ask answer g).1 [].
Proof. split; [done|by rewrite app_nil_r]. Qed.

Lemma showing_message (first : bool) m g :
  showing g ((when (negb first) (send_chunk env ChunkComma;; mret tt);; send_chunk env (ChunkMessage (message_json m))) g).1 [m].
Proof. by destruct first. Qed.

Lemma selected_spec direction_filter m :
  bool_decide (direction_filter = None) || bool_decide (direction_filter = Some (direction m)) = true <->
  selected direction_filter m.
Proof. by rewrite orb_true_iff, !bool_decide_eq_true. Qed.

(** The outcome of the loop. *)
Definition paged (direction_filter : option sms_direction_t) (room cursor : Z) (g : gateway)
    (outcome : gateway * option (option Z)) : Prop :=
  exists stop ms, outcome.2 = Some stop /\ showing g outcome.1 ms /\
    page (gw_sms g) direction_filter room cursor ms stop.

Lemma list_loop_spec fuel direction_filter limit cursor emitted first (g : gateway) :
  inv (gw_sms g) -> (size (above cursor (dom (recs (gw_sms g)))) < fuel)%nat ->
  paged direction_filter (limit - emitted) cursor g (list_loop env fuel direction_filter limit cursor emitted first g).
Proof.
  revert cursor emitted first g. induction fuel as [|fuel IH]; intros cursor emitted first g Hinv Hfuel; [lia|].
  cbn [list_loop]. destruct (Z.leb_spec limit emitted) as [Hle|Hlt].
  { exists (Some cursor), []. split; [done|]. split; [apply showing_refl|]. apply page_empty. left. split; [done|lia]. }
  unfold mbind at 1, state_bind at 1, allocated. pose proof (showing_asked (aenv_alloc env) g) as Hs1.
  destruct (api_ask (aenv_alloc env) g) as [g1 ok]. cbn [fst] in Hs1. destruct (negb ok).
  { exists None, []. split; [done|]. split; [done|]. apply page_empty. by right. }
  unfold mbind at 1, state_bind at 1, modem_core_sms_list, gets. destruct Hs1 as [Es1 Hl1]. rewrite Es1.
  destruct (next_record (gw_sms g) cursor Hinv) as [[-> Hnone]|(m & -> & Hm & Hltm & Hnext)].
  { exists (Some cursor), []. split; [done|]. split; [by split|]. apply page_empty. left. by split. }
  assert (size (above (id m) (dom (recs (gw_sms g)))) < fuel)%nat as Hfuel'.
  { pose proof (above_size cursor (id m) (dom (recs (gw_sms g))) ltac:(apply elem_of_dom; by exists m) Hltm). lia. }
  destruct (bool_decide _ || _) eqn:Hsel.
  - apply selected_spec in Hsel. unfold mbind at 1, state_bind at 1.
    pose proof (showing_asked (aenv_alloc env) g1) as Hs2. destruct (api_ask (aenv_alloc env) g1) as [g2 ok2]. cbn [fst] in Hs2.
    assert (showing g g2 []) as Hs12 by (apply (showing_app g g1 g2 [] []); [by split|done]).
    destruct (negb ok2); [exists None, []; split; [done|]; split; [done|]; apply page_empty; by right|].
    pose proof (showing_message first m g2) as Hs3. unfold mbind, state_bind in Hs3 |- *.
    destruct (when (negb first) _ g2) as [g3 u]. destruct (send_chunk env _ g3) as [g4 err]. cbn [fst] in Hs3.
    assert (showing g g4 [m]) as Hs4 by (apply (showing_app g g2 g4 [] [m]); done).
    destruct (IH (id m) (emitted + 1) false g4) as (stop & ms & Er & Hsh & Hp); [by rewrite (proj1 Hs4)..|].
    exists stop, (m :: ms). split; [exact Er|]. split; [exact (showing_app g g4 _ [m] ms Hs4 Hsh)|].
    rewrite (proj1 Hs4) in Hp. apply page_cons; try done; [lia|].
    by replace (limit - emitted - 1) with (limit - (emitted + 1)) by lia.
  - destruct (IH (id m) emitted first g1) as (stop & ms & Er & Hsh & Hp); [by rewrite Es1..|].
    exists stop, ms. split; [exact Er|]. split; [exact (showing_app g g1 _ [] ms (conj Es1 Hl1) Hsh)|].
    rewrite Es1 in Hp. eapply page_skip; try done. intros Hs%selected_spec. congruence.
Qed.

(** The pages of the list of messages: from a cursor on, the loop sends, in
    ascending order and at most [limit], stored messages of the direction that
    is asked for, and every such message up to the cursor it returns, so that
    the next page goes on where this one ended; and when it sends fewer than
    [limit] there is no message behind that cursor.  It always ends, with a
    cursor unless memory runs out. *)
Theorem pages_complete direction_filter limit cursor (g : gateway) :
  inv (gw_sms g) ->
  paged direction_filter limit cursor g (list_loop env LIST_FUEL direction_filter limit cursor 0 true g).
Proof.
  intros Hinv. rewrite <- (Z.sub_0_r limit) at 1. apply list_loop_spec; [done|]. unfold LIST_FUEL.
  apply Nat.lt_succ_r. etrans; [|apply (records_size (s_handle (sv_store (gw_sms g))))].
  rewrite <- size_dom. apply subseteq_size. intros k. unfold above. rewrite elem_of_filter. by intros [_ ?].
Qed.

End Listing.

(** The first page after a message was posted. *)
Lemma pages_complete_witness :
  let outcome := list_loop sample_api LIST_FUEL (Some SMS_DIRECTION_OUTBOUND) 10 0 0 true sample_posted in
  outcome.2 = Some (Some 1) /\ length (listed_in (gw_trace outcome.1)) = 1%nat /\
  paged (Some SMS_DIRECTION_OUTBOUND) 10 0 sample_posted outcome.
Proof.
  split; [vm_compute; reflexivity|]. split; [vm_compute; reflexivity|]. exact (pages_complete _ _ _ _ _ sample_posted_inv).
Defined.
