(* ===== verification/MqttReplay.v ===== *)
(** * The MQTT service: the replay of received messages

    The cursor passes a received message only when the broker acknowledged its
    publication; and when the broker acknowledges, the cursor reaches every
    message. *)

From Stdlib Require Import Ascii String.
From Stdlib Require Import ZifyBool ZifyNat.
From stdpp Require Import base numbers list strings relations gmap.
From S2P Require Import Prelude.
From S2P Require Import StateMonad.
From S2P Require Import PduEncode.
From S2P Require Import PduDecode.
From S2P Require Import PduDecodeFacts.
From S2P Require Import SmsMessage.
From S2P Require Import Nvs.
From S2P Require Import SmsStore.
From S2P Require Import SmsStoreFacts.
From S2P Require Import SmsStoreSpec.
From S2P Require Import ApiIdempotency.
From S2P Require Import SmsService.
From S2P Require Import SmsServiceFacts.
From S2P Require Import SmsServiceSample.
From S2P Require Import SmsServiceInbound.
From S2P Require Import SmsServicePersist.
From S2P Require Import SmsServiceApi.
From S2P Require Import ModemManager.
From S2P Require Import RateLimiter.
From S2P Require Import Http.
From S2P Require Import MqttConfig.
From S2P Require Import MqttRx.
From S2P Require Import MqttDiscovery.
From S2P Require Import ApiServer.
From S2P Require Import MqttService.
From S2P Require Import ApiSample.
From S2P Require Import ApiServerFacts.
From S2P Require Import MqttFacts.
From S2P Require Import MqttCommands.
From S2P Require Import ApiListing.

Open Scope Z_scope.

(** ** Received messages while the other tasks work *)

Section Kept.

Context {N : Type} `{NvsLaws N}.

Abbreviation service := (@service N).

(** What is to be replayed is new, or was to be replayed with the same report. *)
Record received_kept (sv sv' : service) : Prop := {
  rk_inv : inv sv';
  rk_next : next sv <= next sv';
  rk_records k w' : k < next sv -> recs sv' !! k = Some w' -> to_replay w' = true ->
    exists w, recs sv !! k = Some w /\ to_replay w = true /\ inbound_json w = inbound_json w';
}.

Lemma to_replay_spec w : to_replay w = true <-> direction w = SMS_DIRECTION_INBOUND /\ status w = SMS_MESSAGE_RECEIVED.
Proof. unfold to_replay. by rewrite andb_true_iff, !bool_decide_eq_true. Qed.

Lemma evolution_kept P n (sv sv' : service) : evolution P n sv sv' -> received_kept sv sv'.
Proof.
  intros [I Nx R _]. split; [done|lia|]. intros k w' Hk Hw' [Hd Hs]%to_replay_spec.
  destruct (R k w' Hk Hw') as (w & Hw & []). exists w. destruct (rs_received Hs) as (Hs' & H1 & H2 & H3).
  split; [done|]. split; [apply to_replay_spec; split; congruence|]. unfold inbound_json. congruence.
Qed.

Lemma same_kept (sv sv' : service) :
  inv sv -> s_handle (sv_store sv') = s_handle (sv_store sv) ->
  s_initialized (sv_store sv') = s_initialized (sv_store sv) -> received_kept sv sv'.
Proof.
  intros [Hi Hf] Eh Ei. split; unfold inv, next, recs, store_inv in *; rewrite ?Eh, ?Ei; [done|lia|].
  intros k w' _ Hw' Hr. by exists w'.
Qed.

Lemma retry_kept env k (sv sv' : service) err :
  inv sv -> sms_service_retry_uncertain env k sv = (sv', err) -> received_kept sv sv'.
Proof.
  intros Hinv E. destruct (retry_spec env k sv sv' err Hinv E) as (I & Nx & R & _ & Hk). split; [done|lia|].
  intros k' w' _ Hw' Hr. destruct (decide (k' = k)) as [->|Hne]; [|rewrite R in Hw' by done; by exists w'].
  destruct (recs sv !! k) as [m|] eqn:Em.
  - destruct (_ && _) eqn:Ed.
    + apply andb_true_iff in Ed as [_ Hu%bool_decide_eq_true]. destruct Hk as [_ [Hk|Hk]]; rewrite Hk in Hw'; injection Hw' as <-.
      * by exists m.
      * apply to_replay_spec in Hr as [_ Hs]. discriminate Hs.
    + destruct Hk as [Hk _]. rewrite Hk in Hw'. injection Hw' as <-. by exists m.
  - destruct Hk as [Hk _]. congruence.
Qed.

End Kept.

(** ** What the cursor and the message in flight mean *)

Section Replay.

Context {N : Type} `{NvsLaws N}.

Abbreviation mqtt := (mqtt N).
Abbreviation service := (@service N).

Variable aenv : api_environment N.
Variable env : mqtt_environment.
Hypothesis parse_bytes : forall body j name s,
  aenv_parse aenv body = Some j -> cJSON_GetObjectItemCaseSensitive j name = Some (JString s) -> bytes s.

(** The base topic, and the cursor when the observation starts. *)
Variable base : list Z.
Variable c0 : Z.

(** The client acknowledged a packet when the trace was so long. *)
Definition ack : Type := nat * Z * Z.

(** The message was published behind [k] effects; its topic is empty when the
    settings were locked. *)
Definition published (tr : list mqtt_effect) (client packet_id : Z) (k : nat) (j : json) : Prop :=
  exists name tr1 tr2, tr = tr2 ++ QE_publish client name (PJson j) 1 false packet_id :: tr1 /\ length tr1 = k /\
    0 <= packet_id /\ (name = [] \/ name = joined base (str "sms/received")).

(** And the client it was published to acknowledged it after that. *)
Definition told (tr : list mqtt_effect) (acks : list ack) (j : json) : Prop :=
  exists client packet_id k n, published tr client packet_id k j /\ (n, client, packet_id) ∈ acks /\ (k < n)%nat.

Definition pending (sv : service) (k : Z) (w : sms_message_t) : Prop := recs sv !! k = Some w /\ to_replay w = true.

(** An acknowledgement that waits in the queue is one; payloads are bytes. *)
Definition work_fine (acks : list ack) (tr : list mqtt_effect) (sv : service) (work : mqtt_work_t) : Prop :=
  match work with
  | MQTT_WORK_REPLAY_ACK k => k < next sv /\ forall w, pending sv k w -> told tr acks (inbound_json w)
  | MQTT_WORK_DATA message => bytes (mm_payload message)
  | _ => True
  end.

Record replay_ok (acks : list ack) (tr : list mqtt_effect) (sv : service) (client : option Z)
    (config : gateway_mqtt_config_t) (queue : option (list mqtt_work_t)) (cursor mid pid : Z) : Prop := {
  ro_inv : inv sv;
  ro_config : mc_base_topic config = base /\ bytes (mc_default_recipient config);
  ro_cursor : c0 <= cursor /\ (cursor = c0 \/ cursor < next sv);
  ro_behind k w : pending sv k w -> c0 < k <= cursor -> told tr acks (inbound_json w);
  ro_inflight : mid <> 0 ->
    cursor < mid < next sv /\ (forall k w, pending sv k w -> cursor < k -> mid <= k) /\
    exists c, client = Some c /\ forall w, pending sv mid w -> exists k, published tr c pid k (inbound_json w);
  ro_queue work : work ∈ default [] queue ->
    work_fine acks tr sv work;
}.

Definition sms_of (m : mqtt) : service := gw_sms (mq_gateway m).

Definition replaying (acks : list ack) (m : mqtt) : Prop :=
  replay_ok acks (mq_trace m) (sms_of m) (mq_client m) (mq_config m) (mq_queue m) (mq_replay_cursor m)
    (mq_replay_message_id m) (mq_replay_packet_id m).

Lemma published_more tr tr' client packet_id k j :
  published tr client packet_id k j -> published (tr' ++ tr) client packet_id k j.
Proof. intros (name & tr1 & tr2 & -> & H1). exists name, tr1, (tr' ++ tr2). by rewrite <- app_assoc. Qed.

Lemma told_more tr tr' acks acks' j : told tr acks j -> told (tr' ++ tr) (acks' ++ acks) j.
Proof.
  intros (client & p & k & n & Hp & Ha & Hk). exists client, p, k, n. split; [by apply published_more|].
  split; [apply elem_of_app; by right|done].
Qed.

(** More effects and acknowledgements, and work of the other tasks. *)
Lemma replay_ok_more acks acks' tr tr' sv sv' client config queue cursor mid pid :
  replay_ok acks tr sv client config queue cursor mid pid -> received_kept sv sv' ->
  replay_ok (acks' ++ acks) (tr' ++ tr) sv' client config queue cursor mid pid.
Proof.
  intros [I C Hc Hb Hi Hq] [I' Hn R].
  assert (forall k w', k < next sv -> pending sv' k w' -> exists w, pending sv k w /\ inbound_json w = inbound_json w') as Hback.
  { intros k w' Hk [Hw' Hr]. destruct (R k w' Hk Hw' Hr) as (w & ? & ? & ?). by exists w. }
  split; [done|done|split; [lia|]; destruct Hc as [_ [?|?]]; [by left|right; lia]| | |].
  - intros k w' Hw' Hk. destruct (Hback k w' ltac:(lia) Hw') as (w & Hw & <-). eapply told_more, Hb; done.
  - intros Hm. destruct (Hi Hm) as (H1 & H2 & c & -> & H3). split_and!; [lia|lia| |].
    + intros k w' Hw' Hk. destruct (Z.lt_ge_cases k (next sv)) as [Hlt|]; [|lia].
      destruct (Hback k w' Hlt Hw') as (w & Hw & _). by eapply H2.
    + exists c. split; [done|]. intros w' Hw'. destruct (Hback mid w' ltac:(lia) Hw') as (w & Hw & <-).
      destruct (H3 w Hw) as [k Hk]. exists k. by apply published_more.
  - intros work Hwork. specialize (Hq work Hwork). destruct work; try done. destruct Hq as [Hlt Hq]. split; [lia|].
    intros w' Hw'. destruct (Hback _ w' Hlt Hw') as (w & Hw & <-). by apply told_more, Hq.
Qed.

Lemma replaying_log acks m e : replaying acks m -> replaying acks (m <| mq_trace := e :: mq_trace m |>).
Proof. intros Hm. apply (replay_ok_more acks [] _ [e] _ (sms_of m) _ _ _ _ _ _ Hm). by apply same_kept; [apply Hm|..]. Qed.

Lemma replaying_plain acks m e :
  plain e = true -> replaying acks m -> replaying acks (m <| mq_trace := e :: mq_trace m |>).
Proof. intros _. apply replaying_log. Qed.

(** Nothing is in flight. *)
Lemma replay_ok_idle acks tr sv client config queue cursor mid pid mid' pid' :
  replay_ok acks tr sv client config queue cursor mid pid -> mid' = 0 ->
  replay_ok acks tr sv client config queue cursor mid' pid'.
Proof. intros [I C Hc Hb Hi Hq] ->. by split. Qed.

Lemma replaying_clear acks : triple (replaying acks) replay_inflight_clear (fun _ m => replaying acks m /\ mq_replay_message_id m = 0).
Proof. intros m Hm. split; [|done]. by eapply replay_ok_idle. Qed.

Lemma replay_ok_queue acks tr sv client config queue queue' cursor mid pid :
  replay_ok acks tr sv client config queue cursor mid pid ->
  (forall work, work ∈ default [] queue' -> work ∈ default [] queue \/
     work_fine acks tr sv work) ->
  replay_ok acks tr sv client config queue' cursor mid pid.
Proof.
  intros [I C Hc Hb Hi Hq] Hin. split; try done. intros work Hwork. destruct (Hin work Hwork) as [Hold|Hnew]; [by apply Hq|done].
Qed.

(** ** Publishing the next message *)

(** From [scan] on nothing is to be replayed up to it. *)
Definition scanned (acks : list ack) (scan : Z) (m : mqtt) : Prop :=
  replaying acks m /\ mq_replay_message_id m = 0 /\ mq_replay_cursor m <= scan /\
  forall k w, pending (sms_of m) k w -> mq_replay_cursor m < k -> scan < k.

Lemma scanned_plain acks scan m e :
  plain e = true -> scanned acks scan m -> scanned acks scan (m <| mq_trace := e :: mq_trace m |>).
Proof. intros _ (Hm & ?). split; [by apply replaying_log|done]. Qed.

(** And [record] is the next one. *)
Definition selected_next (acks : list ack) (record : sms_message_t) (m : mqtt) : Prop :=
  replaying acks m /\ mq_replay_message_id m = 0 /\ mq_replay_cursor m < id record /\ pending (sms_of m) (id record) record /\
  forall k w, pending (sms_of m) k w -> mq_replay_cursor m < k -> id record <= k.

Lemma selected_plain acks record m e :
  plain e = true -> selected_next acks record m -> selected_next acks record (m <| mq_trace := e :: mq_trace m |>).
Proof. intros _ (Hm & ?). split; [by apply replaying_log|done]. Qed.

Lemma received_topic (P : mqtt -> Prop) :
  (forall m e, plain e = true -> P m -> P (m <| mq_trace := e :: mq_trace m |>)) ->
  (forall m, P m -> mc_base_topic (mq_config m) = base) ->
  triple P (topic env "sms/received") (fun name m => P m /\ (name = [] \/ name = joined base (str "sms/received"))).
Proof.
  intros HP Hbase. unfold topic. eapply triple_bind; [by apply plain_takes|]. intros ok. destruct (negb ok).
  - apply triple_ret. intros m Hm. split; [done|by left].
  - eapply triple_bind; [apply triple_gets|]. intros c. apply triple_ret. intros m [-> Hm]. split; [done|right].
    by rewrite Hbase.
Qed.

(** A packet that was accepted is in the trace. *)
Lemma publish_raw_spec acks record name :
  name = [] \/ name = joined base (str "sms/received") ->
  triple (selected_next acks record) (publish_raw env name (PJson (inbound_json record)) 1 false)
    (fun packet_id m => selected_next acks record m /\ (0 <= packet_id ->
       exists c k, mq_client m = Some c /\ published (mq_trace m) c packet_id k (inbound_json record))).
Proof.
  intros Hname. unfold publish_raw. eapply triple_bind; [by apply plain_takes, selected_plain|]. intros ok.
  destruct (negb ok); [apply triple_ret; intros m Hm; split; [done|lia]|].
  unfold active_client_get, connected. eapply triple_bind; [apply triple_gets|]. intros client.
  eapply (triple_bind _ _ (fun _ m => client = mq_client m /\ selected_next acks record m)); [by intros m Hm|]. intros online.
  destruct client as [c|]; [|apply triple_ret; intros m [_ Hm]; split; [done|lia]].
  destruct online; [|apply triple_ret; intros m [_ Hm]; split; [done|lia]].
  intros m [Hc Hm]. cbn. split; [by apply (selected_plain acks record m)|]. intros Hp. exists c, (length (mq_trace m)).
  split; [done|]. exists name, (mq_trace m), []. done.
Qed.

Lemma publish_replay_ok acks record :
  triple (selected_next acks record) (publish_inbound_replay env record) (fun _ => replaying acks).
Proof.
  unfold publish_inbound_replay.
  assert (forall m, selected_next acks record m -> replaying acks m) as Hsel by (by intros m [Hm _]).
  eapply triple_bind; [apply received_topic; [apply selected_plain|intros m [Hm _]; apply Hm]|]. intros name.
  apply (triple_pre (fun m => (name = [] \/ name = joined base (str "sms/received")) /\ selected_next acks record m));
    [|intros m [Hm Hn]; exact (conj Hn Hm)].
  apply triple_pure. intros Hname.
  eapply triple_bind; [apply plain_allocated, selected_plain|]. intros created. destruct (negb created); [by apply triple_ret|].
  eapply triple_bind; [apply plain_allocated, selected_plain|]. intros encoded. destruct (negb encoded); [by apply triple_ret|].
  eapply triple_bind; [by apply publish_raw_spec|]. intros packet_id. destruct (Z.ltb_spec packet_id 0) as [_|Hpk].
  { apply triple_ret. intros m [Hm _]. by apply Hsel. }
  eapply (triple_bind _ _ (fun _ m => selected_next acks record m /\
    exists c k, mq_client m = Some c /\ published (mq_trace m) c packet_id k (inbound_json record))).
  { intros m [Hm Hp]. split; [by apply (selected_plain acks record m)|]. destruct (Hp Hpk) as (c & k & Hc & Hk).
    exists c, k. split; [done|]. by apply (published_more _ [_]). }
  intros now. eapply (triple_bind _ _ (fun _ => replaying acks)); [|intros []; by apply triple_ret].
  intros m [(Hm & _ & Hlt & [Hw Hr] & Hlow) (c & k & Hc & Hk)]. destruct Hm as [I C Hcur Hb _ Hq]. split; try done. intros _. cbn.
  destruct (records_writable _ _ _ I Hw) as (_ & _ & Hn). split_and!; [done|done|exact Hlow|].
  exists c. split; [done|]. intros w [Hw' _]. change (recs (sms_of m) !! id record = Some w) in Hw'. assert (w = record) as -> by congruence. by exists k.
Qed.

Lemma replay_loop_ok acks scans scan : triple (scanned acks scan) (replay_loop env scans scan) (fun _ => replaying acks).
Proof.
  assert (forall scan m, scanned acks scan m -> replaying acks m) as Hsc by (by intros ? m [Hm _]).
  revert scan. induction scans as [|scans IH]; intros scan; cbn [replay_loop]; [apply triple_ret, Hsc|].
  eapply triple_bind; [apply plain_allocated, scanned_plain|]. intros ok. destruct (negb ok); [apply triple_ret, Hsc|].
  eapply (triple_bind _ _ (fun listed m => scanned acks scan m /\ match listed with
    | inr (record :: _) => recs (sms_of m) !! id record = Some record /\ scan < id record /\
        forall k w, recs (sms_of m) !! k = Some w -> scan < k -> id record <= k
    | _ => True end)).
  { intros m Hm. assert (inv (sms_of m)) as Hinv by apply Hm.
    unfold sms_list, on_gateway, zoom, modem_core_sms_list, gets. cbn [fst snd]. change (gw_sms (mq_gateway m)) with (sms_of m).
    split; [by destruct m|]. by destruct (next_record (sms_of m) scan Hinv) as [[-> _]|(r & -> & Hr & Hlt & Hlow)]. }
  intros [e|[|record l]]; [apply triple_ret; by intros m [Hm%Hsc _]..|].
  destruct (to_replay record) eqn:Hr.
  - eapply triple_bind.
    + eapply triple_weaken; [apply (publish_replay_ok acks record)| |by intros].
      intros m [(Hm & Hid & Hle & Hno) (Hrec & Hlt & Hlow)]. split_and!; [done|done|lia|done|].
      intros k w [Hw Hrw] Hk. eapply Hlow; [exact Hw|]. eapply Hno; done.
    + intros sent. apply keeps_when. intros _. by intros m Hm.
  - eapply triple_weaken; [apply IH| |by intros].
    intros m [(Hm & Hid & Hle & Hno) (Hrec & Hlt & Hlow)]. split_and!; [done|done|lia|]. intros k w [Hw Hrw] Hk.
    pose proof (Hlow k w Hw (Hno k w (conj Hw Hrw) Hk)).
    destruct (decide (k = id record)) as [->|]; [|lia]. rewrite Hrec in Hw. injection Hw as <-. congruence.
Qed.

Lemma replay_next_ok acks : keeps (replaying acks) (replay_next_inbound env).
Proof.
  unfold replay_next_inbound, connected. eapply triple_bind; [apply keeps_gets|]. intros online.
  destruct (negb online); [apply keeps_ret|]. eapply triple_bind; [apply triple_gets|]. intros message_id.
  eapply (triple_bind _ _ (fun cursor m => cursor = mq_replay_cursor m /\ message_id = mq_replay_message_id m /\ replaying acks m));
    [by intros m Hm|]. intros cursor.
  destruct (Z.eqb_spec message_id 0) as [->|]; cbn [negb]; [|apply triple_ret; by intros m (_ & _ & Hm)].
  eapply triple_weaken; [apply (replay_loop_ok acks)| |by intros]. intros m (-> & Hid & Hm). by split_and!.
Qed.

(** ** Acknowledgements *)

(** The message was acknowledged. *)
Definition acking (acks : list ack) (k : Z) (m : mqtt) : Prop :=
  replaying acks m /\ k < next (sms_of m) /\ forall w, pending (sms_of m) k w -> told (mq_trace m) acks (inbound_json w).

Lemma replaying_watermark acks protection watermark m :
  replaying acks m -> replaying acks (set_watermark protection watermark m).1.
Proof.
  intros Hm. apply (replay_ok_more acks [] _ [] _ _ _ _ _ _ _ _ Hm). apply same_kept; [apply Hm|done..].
Qed.

(** The cursor moves to the message that was in flight. *)
Lemma cursor_store_ok acks k m :
  acking acks k m -> mq_replay_message_id m = 0 -> mq_replay_cursor m < k ->
  (forall k' w, pending (sms_of m) k' w -> mq_replay_cursor m < k' -> k <= k') ->
  replaying acks (replay_cursor_store k m).1.
Proof.
  intros (Hm & Hlt & Htold) Hid Hcur Hlow. unfold replay_cursor_store.
  destruct (nvs_set_u32 _ _ _) as [n err]. destruct (if bool_decide (err = ESP_OK) then nvs_commit n else (n, err)) as [n' err'].
  destruct (bool_decide (err' = ESP_OK)); [|exact Hm]. cbn [fst]. apply replaying_watermark.
  destruct Hm as [I C [Hc0 Hc] Hb Hi Hq]. split; try done.
  - cbn. split; [lia|by right].
  - intros k' w Hw Hk'. cbn in Hk'. destruct (Z.le_gt_cases k' (mq_replay_cursor m)) as [|Hgt]; [apply (Hb k' w); [done|lia]|].
    pose proof (Hlow k' w Hw ltac:(lia)). apply Htold. by replace k with k' by lia.
Qed.

Lemma replay_ack_ok acks k : triple (acking acks k) (handle_replay_ack env k) (fun _ => replaying acks).
Proof.
  unfold handle_replay_ack. eapply triple_bind; [apply triple_gets|]. intros inflight.
  destruct ((inflight =? k) && negb (k =? 0)) eqn:E; cbn [negb]; [|apply triple_ret; by intros m (_ & Hm & _)].
  apply andb_true_iff in E as [->%Z.eqb_eq Hk%negb_true_iff%Z.eqb_neq].
  apply (triple_bind _ _ (fun _ m => acking acks k m /\ mq_replay_message_id m = 0 /\ mq_replay_cursor m < k /\
    forall k' w, pending (sms_of m) k' w -> mq_replay_cursor m < k' -> k <= k')).
  { intros m [Hid (Hm & Ha)]. destruct (ro_inflight _ _ _ _ _ _ _ _ _ Hm ltac:(lia)) as (Hcur & Hlow & _).
    rewrite <- Hid in Hcur, Hlow. split; [split; [by eapply replay_ok_idle|exact Ha]|]. split; [done|]. split; [apply Hcur|exact Hlow]. }
  intros []. apply (triple_bind _ _ (fun _ => replaying acks)).
  { intros m (Ha & Hid & Hcur & Hlow). by apply cursor_store_ok. }
  intros err. destruct (bool_decide _); [apply keeps_ret|apply replay_next_ok].
Qed.

Lemma watchdog_ok acks : keeps (replaying acks) (replay_watchdog env).
Proof.
  unfold replay_watchdog. apply keeps_bind; [apply keeps_gets|]. intros message_id.
  apply keeps_bind; [apply keeps_gets|]. intros started_ms. destruct (_ || _); [apply keeps_ret|].
  apply keeps_bind; [apply plain_ask, replaying_plain|]. intros now. destruct (_ <=? _); [|apply keeps_ret].
  apply keeps_bind; [|intros []; apply replay_next_ok].
  eapply triple_weaken; [apply replaying_clear|done|by intros [] m [Hm _]].
Qed.

(** ** Commands send messages *)

(** The messages, changed at most by sending one. *)
Definition unchanged (sv0 sv : service) : Prop := sv = sv0.

Definition one_sent (sv0 sv : service) : Prop :=
  sv = sv0 \/ exists to text report, bytes to /\ bytes text /\
    sv = (sms_service_send (aenv_sms aenv) (Some to) (Some text) report sv0).1.

Section Sms.

Variable Q : service -> Prop.

Lemma sms_gateway {A} (c : State (gateway N) A) :
  (forall g, gw_sms (c g).1 = gw_sms g) -> keeps (fun m => Q (sms_of m)) (on_gateway c).
Proof.
  intros Hc m Hm. unfold sms_of, on_gateway, zoom in *. specialize (Hc (mq_gateway m)). destruct (c (mq_gateway m)).
  cbn in *. by rewrite Hc.
Qed.

Lemma sms_plain m e : plain e = true -> Q (sms_of m) -> Q (sms_of (m <| mq_trace := e :: mq_trace m |>)).
Proof. done. Qed.

Lemma sms_limited_ok : keeps (fun m => Q (sms_of m)) (sms_limited env).
Proof.
  unfold sms_limited. apply keeps_bind; [by apply plain_ask|]. intros now m Hm. unfold zoom.
  by destruct (gateway_rate_limiter_allow _ _ _).
Qed.

Lemma sms_asked {A} (answer : list api_effect -> A) : keeps (fun m => Q (sms_of m)) (on_gateway (api_ask answer)).
Proof. by apply sms_gateway. Qed.

Lemma sms_idempotency {A} (f : idem_state -> idem_state * A) : keeps (fun m => Q (sms_of m)) (on_gateway (on_idempotency f)).
Proof. apply sms_gateway. intros g. unfold on_idempotency, zoom. by destruct (f _). Qed.

Lemma finalize_sms attempts k fp message_id g : gw_sms (finalize_attempts aenv attempts k fp message_id g).1 = gw_sms g.
Proof.
  revert g. induction attempts as [|attempts IH]; intros g; cbn [finalize_attempts]; [done|].
  unfold mbind, state_bind, api_ask, on_idempotency, zoom. destruct (gateway_idempotency_finalize _ _ _ _ _ _).
  destruct (bool_decide _); [done|]. by rewrite IH.
Qed.

Lemma sms_finalize attempts k fp message_id :
  keeps (fun m => Q (sms_of m)) (on_gateway (finalize_attempts aenv attempts k fp message_id)).
Proof. apply sms_gateway, finalize_sms. Qed.

Lemma sms_result request ok code message_id replayed :
  keeps (fun m => Q (sms_of m)) (publish_command_result env request ok code message_id replayed).
Proof. apply plain_command_result, sms_plain. Qed.

Lemma sms_allocated : keeps (fun m => Q (sms_of m)) (mqtt_allocated env).
Proof. apply plain_allocated, sms_plain. Qed.

Lemma sms_diag f : keeps (fun m => Q (sms_of m)) (on_mqtt_diag f).
Proof. by intros m Hm. Qed.

Lemma sms_view : keeps (fun m => Q (sms_of m)) (config_view env).
Proof. apply plain_config_view, sms_plain. Qed.

End Sms.

Lemma sms_sent sv0 to text report : bytes to -> bytes text ->
  triple (fun m => unchanged sv0 (sms_of m)) (on_gateway (modem_core_sms_send aenv to text report))
    (fun _ m => one_sent sv0 (sms_of m)).
Proof.
  intros Hto Htext m Hm. right. exists to, text, report. split; [done|]. split; [done|]. unfold unchanged, sms_of in *.
  unfold on_gateway, modem_core_sms_send, on_sms, zoom, mbind, state_bind. rewrite Hm.
  by destruct (sms_service_send _ _ _ _ _).
Qed.

(** Nothing was sent. *)
Lemma none_sent {A} sv0 (c : State mqtt A) :
  keeps (fun m => unchanged sv0 (sms_of m)) c -> triple (fun m => unchanged sv0 (sms_of m)) c (fun _ m => one_sent sv0 (sms_of m)).
Proof. intros Hc. eapply triple_weaken; [exact Hc|done|]. intros x m Hm. by left. Qed.

Lemma send_claimed_sms sv0 request_id to text fp delivery : bytes to -> bytes text ->
  triple (fun m => unchanged sv0 (sms_of m)) (send_claimed aenv env request_id to text fp delivery)
    (fun _ m => one_sent sv0 (sms_of m)).
Proof.
  intros Hto Htext. unfold send_claimed. eapply triple_bind; [by apply sms_sent|]. intros [e|message_id].
  - apply keeps_bind; [apply sms_asked|]. intros taken. apply keeps_bind; [apply sms_idempotency|]. intros err. apply sms_result.
  - apply keeps_bind; [apply sms_finalize|]. intros finalized. apply sms_result.
Qed.

Lemma structured_claim_sms sv0 request_id to text fp delivery : bytes to -> bytes text ->
  triple (fun m => unchanged sv0 (sms_of m)) (structured_claim aenv env request_id to text fp delivery)
    (fun _ m => one_sent sv0 (sms_of m)).
Proof.
  intros Hto Htext. unfold structured_claim. eapply triple_bind; [apply sms_asked|]. intros taken.
  eapply triple_bind; [apply sms_idempotency|]. intros [e|[[] existing]]; try by apply none_sent, sms_result.
  - by apply send_claimed_sms.
  - destruct (existing =? 0); [by apply none_sent, sms_result|]. eapply triple_bind; [apply sms_allocated|]. intros ok.
    apply none_sent. apply keeps_bind.
    + destruct ok; [by apply sms_gateway|apply keeps_ret].
    + intros [e|record]; apply sms_result.
Qed.

Lemma structured_sms sv0 payload :
  triple (fun m => unchanged sv0 (sms_of m)) (handle_structured_send aenv env payload) (fun _ m => one_sent sv0 (sms_of m)).
Proof.
  unfold handle_structured_send, command_received, command_rejected.
  assert (forall f request code, triple (fun m => unchanged sv0 (sms_of m))
    (on_mqtt_diag f;; publish_command_result env request false code 0 false) (fun _ m => one_sent sv0 (sms_of m))) as Hreject.
  { intros. apply none_sent. apply keeps_bind; [apply sms_diag|]. intros []. apply sms_result. }
  eapply triple_bind; [apply sms_diag|]. intros [].
  destruct (structured_message _) as [[[[request_id to] text] delivery]|] eqn:Es; [|apply Hreject].
  apply (structured_message_spec aenv parse_bytes) in Es as (_ & Hto & Htext).
  destruct (sms_submit_preflight _ _ _); [|apply Hreject].
  eapply triple_bind; [apply sms_limited_ok|]. intros ok. destruct (negb ok); [by apply none_sent, sms_result|].
  eapply triple_bind; [apply sms_allocated|]. intros allocated.
  destruct (gateway_idempotency_sms_fingerprint _ _ _ _ _); [by apply none_sent, sms_result|by apply structured_claim_sms].
Qed.

Lemma notify_sms sv0 payload : bytes payload ->
  triple (fun m => unchanged sv0 (sms_of m) /\ bytes (mc_default_recipient (mq_config m))) (handle_native_notify aenv env payload)
    (fun _ m => one_sent sv0 (sms_of m)).
Proof.
  intros Hp. unfold handle_native_notify, config_view.
  apply (triple_bind _ _ (fun view m => unchanged sv0 (sms_of m) /\ forall v, view = Some v -> bytes (vw_default_recipient v))).
  - eapply triple_bind; [by apply plain_takes; intros m e _ Hm|]. intros ok. destruct (negb ok).
    + apply triple_ret. by intros m [Hm _].
    + eapply triple_bind; [apply triple_gets|]. intros c. apply triple_ret. intros m [-> [Hm Hc]]. split; [done|].
      by intros v [= <-].
  - intros view. destruct view as [view|]; [|apply triple_ret; intros m [Hm _]; by left].
    destruct (_ || _); [apply triple_ret; intros m [Hm _]; by left|].
    destruct (sms_submit_preflight _ _ _); [|apply triple_ret; intros m [Hm _]; by left].
    apply (triple_pre (fun m => bytes (vw_default_recipient view) /\ unchanged sv0 (sms_of m)));
      [|intros m [Hm Hv]; split; [by apply Hv|done]].
    apply triple_pure. intros Hv. eapply triple_bind; [apply sms_limited_ok|]. intros ok.
    destruct (negb ok); [apply none_sent, keeps_ret|]. eapply triple_bind; [by apply sms_sent|]. intros result. apply keeps_ret.
Qed.

Lemma data_sms sv0 message : bytes (mm_payload message) ->
  triple (fun m => unchanged sv0 (sms_of m) /\ bytes (mc_default_recipient (mq_config m))) (handle_data_work aenv env message)
    (fun _ m => one_sent sv0 (sms_of m)).
Proof.
  intros Hp. unfold handle_data_work, command_rejected.
  assert (forall A (c : State mqtt A), keeps (fun m => unchanged sv0 (sms_of m)) c ->
    triple (fun m => unchanged sv0 (sms_of m) /\ bytes (mc_default_recipient (mq_config m))) c
      (fun _ m => one_sent sv0 (sms_of m))) as Hnone.
  { intros A c Hc. eapply triple_weaken; [apply none_sent, Hc|by intros m [Hm _]|done]. }
  eapply triple_bind; [by apply plain_command_kind; intros m e _ Hm|]. intros kind.
  destruct (bool_decide _); [apply Hnone, keeps_ret|].
  destruct (negb _); [apply Hnone, keeps_when; intros _; apply sms_diag|].
  destruct kind; cbn [execute_command].
  - apply Hnone, keeps_ret.
  - eapply triple_weaken; [apply structured_sms|by intros m [Hm _]|done].
  - by apply notify_sms.
  - apply Hnone. apply keeps_bind; [|intros x; apply keeps_ret]. apply sms_gateway. intros g. unfold on_manager, zoom.
    by destruct (modem_manager_request_restart _).
  - apply Hnone. unfold create_mqtt_reboot. apply keeps_bind; [apply plain_ask, sms_plain|]. intros created.
    apply keeps_when. by intros _ m Hm.
  - apply Hnone. apply keeps_bind; [apply sms_view|]. intros config. apply keeps_when. intros _.
    apply keeps_bind; [apply plain_publish_discovery, sms_plain|]. intros []. apply plain_publish_status, sms_plain.
Qed.

(** There is an identifier left. *)
Definition id_left (m : mqtt) : Prop := next (sms_of m) + 1 <= UINT32_MAX.

Lemma data_work_ok acks message : bytes (mm_payload message) ->
  triple (fun m => replaying acks m /\ id_left m) (handle_data_work aenv env message) (fun _ => replaying acks).
Proof.
  intros Hp m [Hm Hid]. destruct (data_work_confined aenv env message m) as (kind & _ & E & tr & Et & _).
  pose proof (data_sms (sms_of m) message Hp m (conj eq_refl (proj2 (ro_config _ _ _ _ _ _ _ _ _ Hm)))) as Hs.
  set (m' := (handle_data_work aenv env message m).1) in *.
  assert (received_kept (sms_of m) (sms_of m')) as Hk.
  { destruct Hs as [->|(to & text & report & Hto & Htext & ->)]; [by apply same_kept; [apply Hm|..]|].
    destruct (sms_service_send _ _ _ _ _) as [sv' result] eqn:Es. cbn [fst].
    destruct (send_spec _ to text report _ _ _ Hto Htext (ro_inv _ _ _ _ _ _ _ _ _ Hm) Hid Es) as (Hev & _).
    eapply evolution_kept, Hev; [apply Hm|exact Hid]. }
  pose proof (replay_ok_more acks [] _ tr _ _ _ _ _ _ _ _ Hm Hk) as H1. rewrite <- Et in H1. unfold replaying.
  clearbody m'. rewrite E in H1 |- *. exact H1.
Qed.

(** ** Turns and events *)

(** The work item is out of the queue. *)
Definition working (acks : list ack) (work : mqtt_work_t) (m : mqtt) : Prop :=
  replaying acks m /\ id_left m /\ work_fine acks (mq_trace m) (sms_of m) work.

Lemma fine_log acks tr sv work e : work_fine acks tr sv work -> work_fine acks (e :: tr) sv work.
Proof. destruct work; try done. intros [Hk Hw]. split; [exact Hk|]. intros w Hp. by apply (told_more _ [e] _ []), Hw. Qed.

Lemma working_plain acks work m e :
  plain e = true -> working acks work m -> working acks work (m <| mq_trace := e :: mq_trace m |>).
Proof.
  intros _ (Hm & Hid & Hw). split; [by apply replaying_log|]. split; [exact Hid|by apply fine_log].
Qed.

Lemma work_ok acks work : triple (working acks work) (handle_work aenv env work) (fun _ => replaying acks).
Proof.
  destruct work as [|message|event snapshot| |k]; cbn [handle_work].
  - apply (triple_pre (replaying acks)); [|by intros m [Hm _]].
    apply keeps_bind; [apply plain_announce, replaying_plain|]. intros []. apply replay_next_ok.
  - intros m (Hm & Hid & Hp). by apply data_work_ok.
  - apply (triple_pre (replaying acks)); [|by intros m [Hm _]]. apply plain_publish_sms_event, replaying_plain.
  - apply (triple_pre (replaying acks)); [|by intros m [Hm _]]. apply replay_next_ok.
  - intros m (Hm & _ & Ha). by apply replay_ack_ok.
Qed.

Lemma worker_ok acks : triple (fun m => replaying acks m /\ id_left m) (worker_turn aenv env) (fun _ => replaying acks).
Proof.
  unfold worker_turn, event_dropped, connected. eapply triple_bind; [apply triple_gets|]. intros queue.
  assert (triple (fun m => queue = mq_queue m /\ replaying acks m /\ id_left m)
    (online ← gets (fun m => md_connected (mq_diag m)); if negb online then mret tt
     else ok ← mqtt_ask (qenv_taken env);
       if negb ok then mret tt else replay_watchdog env;; replay_next_inbound env;; publish_status env)
    (fun _ => replaying acks)) as Hidle.
  { apply (triple_pre (replaying acks)); [|by intros m (_ & Hm & _)].
    apply keeps_bind; [apply keeps_gets|]. intros online. destruct (negb online); [apply keeps_ret|].
    apply keeps_bind; [apply plain_ask, replaying_plain|]. intros ok. destruct (negb ok); [apply keeps_ret|].
    apply keeps_bind; [apply watchdog_ok|]. intros []. apply keeps_bind; [apply replay_next_ok|]. intros [].
    apply plain_publish_status, replaying_plain. }
  destruct queue as [[|work queue]|]; [exact Hidle| |exact Hidle].
  apply (triple_bind _ _ (fun _ => working acks work)).
  { intros m (Hq & Hm & Hid). split; [|split; [exact Hid|]].
    - eapply replay_ok_queue; [exact Hm|]. intros w Hw. left. rewrite <- Hq. cbn in Hw |- *. by right.
    - apply (ro_queue _ _ _ _ _ _ _ _ _ Hm work). rewrite <- Hq. by left. }
  intros []. eapply triple_bind; [apply plain_ask, working_plain|]. intros [].
  - apply work_ok.
  - apply (triple_pre (replaying acks)); [by intros m Hm|by intros m [Hm _]].
Qed.

Lemma queue_work_ok acks work :
  triple (fun m => replaying acks m /\ work_fine acks (mq_trace m) (sms_of m) work) (queue_work env work)
    (fun _ => replaying acks).
Proof.
  unfold queue_work.
  apply (triple_bind _ _ (fun _ m => replaying acks m /\ work_fine acks (mq_trace m) (sms_of m) work)).
  { intros m [Hm Hw]. split; [by apply replaying_log|by apply fine_log]. }
  intros ok. destruct (negb ok); [apply triple_ret; by intros m [Hm _]|]. intros m [Hm Hw].
  destruct (mq_queue m) as [q|] eqn:Eq; [|exact Hm]. destruct (_ <? _)%nat; [|exact Hm].
  eapply replay_ok_queue; [exact Hm|]. intros work'. rewrite Eq. cbn.
  intros [Hin|Hin%list_elem_of_singleton]%elem_of_app; [by left|right]. by subst.
Qed.

Lemma queue_simple_ok acks work :
  triple (fun m => replaying acks m /\ work_fine acks (mq_trace m) (sms_of m) work) (queue_simple_work env work)
    (fun _ => replaying acks).
Proof.
  unfold queue_simple_work, event_dropped. eapply triple_bind; [apply queue_work_ok|]. intros [queued allocated].
  apply keeps_when. by intros _ m Hm.
Qed.

(** What the event acknowledges. *)
Definition acks_of (client : Z) (event : mqtt_event) (m : mqtt) : list ack :=
  match event with MQTT_EVENT_PUBLISHED packet_id => [(length (mq_trace m), client, packet_id)] | _ => [] end.

(** The payload that an event completes is made of bytes. *)
Definition delivers_bytes (event : mqtt_event) (m : mqtt) : Prop :=
  match event with
  | MQTT_EVENT_DATA ev => forall message, (rx_event ev (mq_rx m)).2 = Some message -> bytes (mm_payload message)
  | _ => True
  end.

(** The event acknowledges the message in flight. *)
Lemma ack_fine acks acks' m client packet_id :
  replaying acks m -> mq_client m = Some client -> packet_id = mq_replay_packet_id m -> mq_replay_message_id m <> 0 ->
  work_fine ((length (mq_trace m), client, packet_id) :: acks') (mq_trace m) (sms_of m)
    (MQTT_WORK_REPLAY_ACK (mq_replay_message_id m)).
Proof.
  intros Hm Hc -> Hid. destruct (ro_inflight _ _ _ _ _ _ _ _ _ Hm Hid) as (Hlt & _ & c & Ec & Hp).
  rewrite Hc in Ec. injection Ec as <-. split; [apply Hlt|]. intros w Hw. destruct (Hp w Hw) as [k Hk].
  exists client, (mq_replay_packet_id m), k, (length (mq_trace m)). split; [done|]. split; [by left|].
  destruct Hk as (name & tr1 & tr2 & -> & <- & _). rewrite length_app. cbn [length]. lia.
Qed.

Lemma handler_ok acks client event m :
  replaying acks m -> delivers_bytes event m ->
  replaying (acks_of client event m ++ acks) (mqtt_event_handler env client event m).1.
Proof.
  intros Hm Hb. set (acks' := acks_of client event m ++ acks).
  assert (replaying acks' m) as Hm'.
  { apply (replay_ok_more acks (acks_of client event m) _ [] _ (sms_of m) _ _ _ _ _ _ Hm). by apply same_kept; [apply Hm|..]. }
  unfold mqtt_event_handler, active_client_get. unfold mbind at 1, state_bind at 1, gets at 1.
  case_bool_decide as Hc; cbn [negb]; [|exact Hm'].
  destruct event as [| |last_error|packet_id|ev|]; cbn [acks_of app] in *; subst acks'.
  - unfold mbind, state_bind, diag_connected, on_mqtt_diag, modify. by apply queue_simple_ok.
  - unfold mbind, state_bind, diag_connected, on_mqtt_diag, modify. eapply replay_ok_idle; [exact Hm|done].
  - exact Hm.
  - unfold mbind at 1 2 3, state_bind at 1 2 3, gets at 1 2 3.
    destruct ((packet_id =? mq_replay_packet_id m) && negb (mq_replay_message_id m =? 0) && _) eqn:E; [|exact Hm'].
    apply andb_true_iff in E as [[->%Z.eqb_eq Hid%negb_true_iff%Z.eqb_neq]%andb_true_iff _].
    pose proof (queue_work_ok ((length (mq_trace m), client, mq_replay_packet_id m) :: acks)
      (MQTT_WORK_REPLAY_ACK (mq_replay_message_id m)) m) as Hq.
    unfold mbind, state_bind. destruct (queue_work env _ m) as [m1 x]. apply Hq. split; [exact Hm'|by eapply ack_fine].
  - unfold mbind at 1, state_bind at 1, gets at 1. cbn [delivers_bytes] in Hb.
    destruct (rx_event ev (mq_rx m)) as [rx message]. cbn [snd] in Hb.
    unfold mbind at 1, state_bind at 1, modify at 1. destruct message as [message|]; [|exact Hm].
    pose proof (queue_work_ok acks (MQTT_WORK_DATA message) (m <| mq_rx := rx |>)) as Hq.
    unfold mbind, state_bind. destruct (queue_work env _ (m <| mq_rx := rx |>)) as [m1 x]. apply Hq. split; [exact Hm|by apply Hb].
  - exact Hm.
Qed.

Lemma callback_ok acks event message : keeps (replaying acks) (sms_event_callback env event message).
Proof.
  unfold sms_event_callback, event_dropped. apply keeps_bind; [apply keeps_gets|]. intros queue.
  destruct message as [message|]; [|apply keeps_ret]. destruct (bool_decide _); [apply keeps_ret|].
  destruct (is_received _ _).
  - eapply triple_pre; [apply queue_simple_ok|]. by intros m Hm.
  - apply (triple_bind _ _ (fun _ => replaying acks)).
    + eapply triple_pre; [apply queue_work_ok|]. by intros m Hm.
    + intros [queued allocated]. apply keeps_when. by intros _ m Hm.
Qed.

(** ** Runs *)

(** What the SMS task and the HTTP interface do to the messages. *)
Definition other_tasks (sv sv' : service) : Prop :=
  (exists P n, next sv + n <= UINT32_MAX /\ evolves P n sv sv') \/
  (exists senv k err, sms_service_retry_uncertain senv k sv = (sv', err)).

(** The tasks take turns; the settings stay as they are.  The acknowledgements
    are collected. *)
Inductive replay_step : list ack * mqtt -> list ack * mqtt -> Prop :=
  | replay_worker acks m : id_left m -> replay_step (acks, m) (acks, (worker_turn aenv env m).1)
  | replay_event acks client event m : delivers_bytes event m ->
      replay_step (acks, m) (acks_of client event m ++ acks, (mqtt_event_handler env client event m).1)
  | replay_callback acks event message m : replay_step (acks, m) (acks, (sms_event_callback env event message m).1)
  | replay_other acks g m : other_tasks (sms_of m) (gw_sms g) -> replay_step (acks, m) (acks, m <| mq_gateway := g |>).

Lemma step_ok s s' : replay_step s s' -> replaying s.1 s.2 -> replaying s'.1 s'.2.
Proof.
  intros [acks m Hid|acks client event m Hb|acks event message m|acks g m Ho] Hm; cbn [fst snd] in *.
  - by apply worker_ok.
  - by apply handler_ok.
  - by apply callback_ok.
  - apply (replay_ok_more acks [] _ [] _ _ _ _ _ _ _ _ Hm). destruct Ho as [(P & n & Hn & Hev)|(senv & k & err & E)].
    + eapply evolution_kept, Hev; [apply Hm|exact Hn].
    + eapply retry_kept; [apply Hm|exact E].
Qed.

End Replay.

(** Before anything is in flight. *)
Definition replay_idle {N} `{NvsLaws N} (m : mqtt N) : Prop :=
  inv (sms_of m) /\ bytes (mc_default_recipient (mq_config m)) /\ mq_replay_message_id m = 0 /\ default [] (mq_queue m) = [].


(** ** Example: a message was received before the client came online *)

Lemma sample_received_inv : inv sample_received.
Proof.
  destruct (deliver_decode_sound _ _ _ sample_deliver_ok) as [Hd Hok]. destruct (Hok eq_refl) as [Hval _].
  destruct (persist_deliver_spec sample_env (sample_deliver sample_deliver_pdu) (sample_service empty_store) sample_received
    (persist_deliver sample_env (sample_deliver sample_deliver_pdu) (sample_service empty_store)).2
    empty_store_inv ltac:(vm_compute; discriminate) Hd Hval ltac:(apply surjective_pairing)) as [Ev _].
  apply Ev; [exact empty_store_inv|vm_compute; discriminate].
Qed.

Definition sample_replay_env : mqtt_environment := sample_mqtt_env (fun _ => Some 1).

Definition sample_inbox : mqtt mem_nvs :=
  let m := sample_online (fun _ => Some 1) in m <| mq_gateway := ((mq_gateway m) <| gw_sms := sample_received |>) |>.

(** The worker publishes it, the broker acknowledges, the worker takes it up. *)
Definition sample_published : mqtt mem_nvs := (worker_turn sample_api sample_replay_env sample_inbox).1.
Definition sample_packet : mqtt_event := MQTT_EVENT_PUBLISHED (mq_replay_packet_id sample_published).
Definition sample_client : Z := default 0 (mq_client sample_published).
Definition sample_acked : mqtt mem_nvs := (mqtt_event_handler sample_replay_env sample_client sample_packet sample_published).1.
Definition sample_replayed : mqtt mem_nvs := (worker_turn sample_api sample_replay_env sample_acked).1.

Lemma sample_replayed_run : rtc (replay_step sample_api sample_replay_env) ([], sample_inbox)
  (acks_of sample_client sample_packet sample_published ++ [], sample_replayed).
Proof.
  unfold sample_replayed. eapply rtc_r; [|apply replay_worker; apply Z.leb_le; vm_compute; reflexivity].
  unfold sample_acked. eapply rtc_r; [|apply replay_event; exact I].
  eapply rtc_r; [apply rtc_refl|apply replay_worker; apply Z.leb_le; vm_compute; reflexivity].
Qed.


(** The exchange of the client leaves the message in flight: until the timeout
    nothing is published to the new broker, and a packet of the new client with
    the old packet's identifier is taken for its acknowledgement. *)
Example exchange_keeps_inflight :
  let m := (mqtt_service_reconfigure sample_replay_env sample_published).1 in
  mq_client m <> mq_client sample_published /\ mq_replay_message_id m = 1 /\
  mq_queue (mqtt_event_handler sample_replay_env (default 0 (mq_client m)) sample_packet m).1 = Some [MQTT_WORK_REPLAY_ACK 1].
Proof. split; [vm_compute; discriminate|]. split; vm_compute; reflexivity. Qed.
