(* ===== verification/MqttReplayLive.v ===== *)
(** * The MQTT service: when the broker answers, every message is replayed *)

From Stdlib Require Import Ascii String.
From Stdlib Require Import ZifyBool ZifyNat.
From stdpp Require Import base numbers list strings gmap.
From S2P Require Import Prelude.
From S2P Require Import StateMonad.
From S2P Require Import SmsMessage.
From S2P Require Import Nvs.
From S2P Require Import SmsStore.
From S2P Require Import SmsStoreFacts.
From S2P Require Import SmsStoreSpec.
From S2P Require Import SmsService.
From S2P Require Import SmsServiceFacts.
From S2P Require Import SmsServiceRestart.
From S2P Require Import SmsServiceSample.
From S2P Require Import MqttConfig.
From S2P Require Import MqttDiscovery.
From S2P Require Import ApiServer.
From S2P Require Import ApiListing.
From S2P Require Import MqttService.
From S2P Require Import ApiSample.
From S2P Require Import MqttFacts.
From S2P Require Import MqttReplay.

Open Scope Z_scope.

Section Live.

Context {N : Type} `{NvsLaws N}.

Abbreviation mqtt := (mqtt N).

Variable aenv : api_environment N.
Variable env : mqtt_environment.

(** There is memory, the mutexes are free, and the client takes every packet;
    the flash works as long as it is [healthy]. *)
Record all_works (healthy : N -> Prop) : Prop := {
  aw_taken tr : qenv_taken env tr = true;
  aw_alloc tr : qenv_alloc env tr = true;
  aw_publish tr : 0 <= qenv_publish env tr;
  aw_flash n v : healthy n -> exists n' n'', nvs_set_u32 n MQTT_REPLAY_CURSOR_KEY v = (n', ESP_OK) /\
    nvs_commit n' = (n'', ESP_OK) /\ healthy n'';
}.

Variable healthy : N -> Prop.
Hypothesis works : all_works healthy.

(** The client [c] is connected, and no work waits. *)
Record online (c : Z) (m : mqtt) : Prop := {
  ol_inv : inv (sms_of m);
  ol_client : mq_client m = Some c;
  ol_connected : md_connected (mq_diag m) = true;
  ol_mutexes : mq_client_mutex m = true /\ mq_config_mutex m = true;
  ol_queue : mq_queue m = Some [];
  ol_flash : healthy (mq_runtime_nvs m);
}.

Lemma online_plain c m e : plain e = true -> online c m -> online c (m <| mq_trace := e :: mq_trace m |>).
Proof. by intros _ []. Qed.

(** Behind the cursor comes the message in flight, or none. *)
Definition next_in_flight (m : mqtt) : Prop :=
  (mq_replay_message_id m = 0 /\ forall k w, pending (sms_of m) k w -> k <= mq_replay_cursor m) \/
  (exists w, pending (sms_of m) (mq_replay_message_id m) w /\ mq_replay_cursor m < mq_replay_message_id m /\
     forall k w', pending (sms_of m) k w' -> mq_replay_cursor m < k -> mq_replay_message_id m <= k).

(** The messages, the cursor and the client as they were. *)
Definition holding (c : Z) (R : gmap Z sms_message_t) (cursor : Z) (m : mqtt) : Prop :=
  online c m /\ recs (sms_of m) = R /\ mq_replay_cursor m = cursor.

Lemma holding_plain c R cursor m e :
  plain e = true -> holding c R cursor m -> holding c R cursor (m <| mq_trace := e :: mq_trace m |>).
Proof. intros He (Ho & ?). split; [by apply online_plain|done]. Qed.

Definition settled (c : Z) (R : gmap Z sms_message_t) (cursor : Z) (m : mqtt) : Prop :=
  holding c R cursor m /\ next_in_flight m.

Section Works.

Variable P : mqtt -> Prop.
Hypothesis P_plain : forall m e, plain e = true -> P m -> P (m <| mq_trace := e :: mq_trace m |>).

Lemma allocated_works : triple P (mqtt_allocated env) (fun ok m => ok = true /\ P m).
Proof. intros m Hm. split; [apply (aw_alloc _ works)|by apply P_plain]. Qed.

Lemma taken_works : triple P (mqtt_ask (qenv_taken env)) (fun ok m => ok = true /\ P m).
Proof. intros m Hm. split; [apply (aw_taken _ works)|by apply P_plain]. Qed.

Lemma takes_works mutex : (forall m, P m -> mutex m = true) -> triple P (takes env mutex) (fun ok m => ok = true /\ P m).
Proof.
  intros Hmutex m Hm. unfold takes, mbind, state_bind, gets. rewrite (Hmutex m Hm). cbn [negb]. by apply taken_works.
Qed.

End Works.

Lemma mutexes c R cursor m : holding c R cursor m -> mq_client_mutex m = true /\ mq_config_mutex m = true.
Proof. intros [[] _]. done. Qed.

Ltac it_works := let ok := fresh "ok" in intros ok; apply triple_pure; intros ->; cbn [negb].

(** It is published. *)
Lemma publish_works c R cursor record m :
  holding c R cursor m -> id record <> 0 ->
  let '(m', sent) := publish_inbound_replay env record m in
  sent = true /\ holding c R cursor m' /\ mq_replay_message_id m' = id record.
Proof.
  intros Hm Hid. enough (triple (holding c R cursor) (publish_inbound_replay env record)
    (fun sent m' => sent = true /\ holding c R cursor m' /\ mq_replay_message_id m' = id record)) as H1.
  { specialize (H1 m Hm). by destruct (publish_inbound_replay env record m). }
  unfold publish_inbound_replay. eapply triple_bind; [apply plain_topic, holding_plain|]. intros name.
  eapply triple_bind; [apply allocated_works, holding_plain|]. it_works.
  eapply triple_bind; [apply allocated_works, holding_plain|]. it_works.
  apply (triple_bind _ _ (fun packet_id m => 0 <= packet_id /\ holding c R cursor m)).
  - unfold publish_raw. eapply triple_bind; [apply takes_works; [apply holding_plain|intros m' Hm'; by eapply mutexes]|]. it_works.
    intros m' Hm'. unfold active_client_get, connected, mbind, state_bind, gets.
    destruct (proj1 Hm') as [_ -> -> _ _ _]. split; [apply (aw_publish _ works)|by apply (holding_plain c R cursor m')].
  - intros packet_id. apply triple_pure. intros Hp. destruct (Z.ltb_spec packet_id 0); [lia|].
    eapply triple_bind; [apply plain_ask, holding_plain|]. intros now. by intros m' [[] ?].
Qed.

Lemma replay_loop_works c R cursor scans scan m :
  holding c R cursor m -> mq_replay_message_id m = 0 -> cursor <= scan -> 0 <= cursor ->
  (forall k w, pending (sms_of m) k w -> cursor < k -> scan < k) ->
  (size (above scan (dom R)) <= scans)%nat ->
  settled c R cursor (replay_loop env scans scan m).1.
Proof.
  intros Hm Hid Hle Hc Hno Hsize. revert scan m Hm Hid Hle Hno Hsize.
  induction scans as [|scans IH]; intros scan m Hm Hid Hle Hno Hsize; cbn [replay_loop].
  - split; [exact Hm|left]. split; [exact Hid|]. intros k w Hw. change (k <= mq_replay_cursor m). rewrite (proj2 (proj2 Hm)).
    destruct (Z.le_gt_cases k cursor) as [|Hgt]; [done|]. exfalso. pose proof (Hno k w Hw ltac:(lia)).
    assert (k ∈ above scan (dom R)) as Hin.
    { unfold above. apply elem_of_filter. split; [done|]. rewrite <- (proj1 (proj2 Hm)). apply elem_of_dom. exists w. apply Hw. }
    assert (above scan (dom R) = ∅) as He by (apply leibniz_equiv, size_empty_iff; lia). rewrite He in Hin. set_solver.
  - unfold mbind at 1, state_bind at 1.
    pose proof (allocated_works (fun m' => holding c R cursor m' /\ m' = m <| mq_trace := mq_trace m' |>)) as Ha.
    specialize (Ha ltac:(by intros m' e He [Hm' E]; split; [by apply holding_plain|rewrite E]) m
      ltac:(by split; [exact Hm|destruct m])).
    destruct (mqtt_allocated env m) as [m1 ok]. cbn [fst snd] in Ha. destruct Ha as [-> [Hm1 E1]]. cbn [negb].
    assert (mq_replay_message_id m1 = 0 /\ sms_of m1 = sms_of m) as [Hid1 Es1] by (by rewrite E1).
    clear E1. unfold mbind at 1, state_bind at 1, sms_list, on_gateway, zoom, modem_core_sms_list, gets.
    change (gw_sms (mq_gateway m1)) with (sms_of m1). cbn [fst snd].
    set (m2 := m1 <| mq_gateway := mq_gateway m1 |>). assert (m2 = m1) as -> by (by destruct m1).
    rewrite <- Es1 in Hno. destruct (next_record (sms_of m1) scan (ol_inv _ _ (proj1 Hm1))) as [[-> Hnone]|(r & -> & Hr & Hlt & Hlow)].
    + split; [exact Hm1|left]. split; [exact Hid1|]. intros k w Hw. change (k <= mq_replay_cursor m1). rewrite (proj2 (proj2 Hm1)).
      destruct (Z.le_gt_cases k cursor) as [|Hgt]; [done|]. pose proof (Hno k w Hw ltac:(lia)).
      pose proof (Hnone k w (proj1 Hw)). lia.
    + assert (size (above (id r) (dom R)) <= scans)%nat as Hsize'.
      { pose proof (above_size scan (id r) (dom R)) as Habove. rewrite <- (proj1 (proj2 Hm1)) in *.
        specialize (Habove ltac:(apply elem_of_dom; by exists r) Hlt). lia. }
      destruct (to_replay r) eqn:Er.
      * pose proof (publish_works c R cursor r m1 Hm1 ltac:(lia)) as Hp. unfold mbind, state_bind.
        destruct (publish_inbound_replay env r m1) as [m3 sent] eqn:Ep. destruct Hp as (-> & Hm3 & Hid3).
        cbn [negb when mret state_ret fst]. split; [exact Hm3|right].
        assert (recs (sms_of m3) = recs (sms_of m1)) as R3 by (by rewrite (proj1 (proj2 Hm3)), (proj1 (proj2 Hm1))).
        exists r. unfold pending. rewrite R3, Hid3, (proj2 (proj2 Hm3)). split; [done|]. split; [lia|].
        intros k w Hw Hk. apply (Hlow k w); [apply Hw|]. by apply (Hno k w).
      * apply IH; [exact Hm1|exact Hid1|lia| |exact Hsize']. intros k w Hw Hk.
        pose proof (Hlow k w (proj1 Hw) (Hno k w Hw Hk)). destruct (decide (k = id r)) as [->|]; [|lia].
        destruct Hw as [Hw Hrw]. rewrite Hr in Hw. injection Hw as <-. congruence.
Qed.

Lemma replay_next_works c R cursor m :
  holding c R cursor m -> mq_replay_message_id m = 0 -> 0 <= cursor ->
  settled c R cursor (replay_next_inbound env m).1.
Proof.
  intros Hm Hid Hc. unfold replay_next_inbound, connected, mbind, state_bind, gets.
  rewrite (ol_connected _ _ (proj1 Hm)). cbn [negb]. rewrite Hid, (proj2 (proj2 Hm)). cbn [Z.eqb negb].
  apply replay_loop_works; [done|done|lia|done|done|].
  rewrite <- (proj1 (proj2 Hm)). etrans; [|apply (records_size (s_handle (sv_store (sms_of m))))].
  rewrite <- size_dom. apply subseteq_size. intros k. unfold above. rewrite elem_of_filter. by intros [_ ?].
Qed.

(** ** A round *)

(** The broker acknowledges the message in flight, and the worker takes it up. *)
Definition replay_round (c : Z) (m : mqtt) : mqtt :=
  (worker_turn aenv env (mqtt_event_handler env c (MQTT_EVENT_PUBLISHED (mq_replay_packet_id m)) m).1).1.

Lemma published_event c m :
  online c m -> mq_replay_message_id m <> 0 ->
  (mqtt_event_handler env c (MQTT_EVENT_PUBLISHED (mq_replay_packet_id m)) m).1 =
    m <| mq_trace := QE_asked :: mq_trace m |> <| mq_queue := Some [MQTT_WORK_REPLAY_ACK (mq_replay_message_id m)] |>.
Proof.
  intros [_ Hc _ _ Hq _] Hid. unfold mqtt_event_handler, active_client_get, mbind, state_bind, gets. cbv beta iota.
  rewrite Hc, bool_decide_eq_true_2 by done. cbv beta iota delta [negb]. rewrite Z.eqb_refl, Hq.
  destruct (Z.eqb_spec (mq_replay_message_id m) 0); [done|]. rewrite bool_decide_eq_false_2 by done. cbn [negb andb]. unfold queue_work, mqtt_allocated, mqtt_ask, mbind, state_bind.
  rewrite (aw_alloc _ works). cbn. by rewrite Hq.
Qed.

(** The cursor is stored. *)
Lemma cursor_store_works c R cursor k m :
  holding c R cursor m -> mq_replay_message_id m = 0 ->
  let '(m', err) := replay_cursor_store k m in err = ESP_OK /\ holding c R k m' /\ mq_replay_message_id m' = 0.
Proof.
  intros [[] [HR Hcur]] Hid. unfold replay_cursor_store.
  destruct (aw_flash _ works (mq_runtime_nvs m) k ltac:(done)) as (n' & n'' & -> & E & Hn). cbn [fst snd].
  rewrite bool_decide_eq_true_2 by done. rewrite E, bool_decide_eq_true_2 by done.
  split; [done|]. split; [|done]. by split.
Qed.

Lemma round_works c R cursor m :
  settled c R cursor m -> mq_replay_message_id m <> 0 -> 0 <= cursor ->
  settled c R (mq_replay_message_id m) (replay_round c m).
Proof.
  intros [Hm [[? _]|(w & Hw & Hlt & Hlow)]] Hid Hc; [done|]. unfold replay_round.
  rewrite published_event by (apply Hm || done). set (k := mq_replay_message_id m) in *. set (m1 := _ <| mq_queue := _ |>).
  unfold worker_turn, mbind at 1, state_bind at 1, gets at 1. change (mq_queue m1) with (Some [MQTT_WORK_REPLAY_ACK k]).
  cbv beta iota. unfold mbind at 1, state_bind at 1, modify at 1. set (m2 := m1 <| mq_queue := Some [] |>).
  assert (holding c R cursor m2 /\ mq_replay_message_id m2 = k) as [Hm2 Hk2] by (by destruct Hm as [[] ?]).
  clearbody m2. clear m1. unfold mbind at 1, state_bind at 1, mqtt_ask. rewrite (aw_taken _ works). cbn [handle_work].
  set (m3 := m2 <| mq_trace := _ |>). assert (holding c R cursor m3 /\ mq_replay_message_id m3 = k) as [Hm3 Hk3] by (by destruct Hm2 as [[] ?]).
  clearbody m3. clear m2 Hm2 Hk2. unfold handle_replay_ack, mbind at 1, state_bind at 1, gets. rewrite Hk3, Z.eqb_refl.
  destruct (Z.eqb_spec k 0) as [|_]; [done|]. cbn [negb andb]. unfold mbind at 1, state_bind at 1.
  assert (holding c R cursor (replay_inflight_clear m3).1 /\ mq_replay_message_id (replay_inflight_clear m3).1 = 0) as [Hm4 Hk4]
    by (by destruct Hm3 as [[] ?]).
  destruct (replay_inflight_clear m3) as [m4 u]. cbn [fst] in Hm4, Hk4. unfold mbind, state_bind.
  pose proof (cursor_store_works c R cursor k m4 Hm4 Hk4) as Hs. destruct (replay_cursor_store k m4) as [m5 err].
  destruct Hs as (-> & Hm5 & Hk5). rewrite bool_decide_eq_false_2 by (intros Hn; by apply Hn).
  pose proof (proj2 (proj2 Hm)). apply replay_next_works; [done|done|lia].
Qed.

(** The received messages behind the cursor, by number. *)
Definition left_behind (R : gmap Z sms_message_t) (cursor : Z) : nat := size (above cursor (dom R)).

Lemma rounds_work c R cursor m :
  settled c R cursor m -> 0 <= cursor ->
  exists n, (n <= left_behind R cursor)%nat /\ let m' := Nat.iter n (replay_round c) m in
    online c m' /\ recs (sms_of m') = R /\ mq_replay_message_id m' = 0 /\
    forall k w, pending (sms_of m') k w -> k <= mq_replay_cursor m'.
Proof.
  remember (left_behind R cursor) as b eqn:Hb. revert cursor m Hb.
  induction b as [b IH] using (well_founded_induction lt_wf). intros cursor m -> Hm Hc.
  destruct (Z.eq_dec (mq_replay_message_id m) 0) as [Hid|Hid].
  { exists 0%nat. split; [lia|]. destruct Hm as [[Ho [HR _]] [[_ Hno]|(w & Hw & _)]]; [by split_and!|].
    destruct (records_writable _ _ _ (ol_inv _ _ Ho) (proj1 Hw)) as ((_ & Hne & _) & Hwid & _). congruence. }
  pose proof (round_works c R cursor m Hm Hid Hc) as Hm1.
  assert (left_behind R (mq_replay_message_id m) < left_behind R cursor)%nat as Hlt.
  { destruct Hm as [[_ [HR Hcur]] [[? _]|(w & Hw & Hlt & _)]]; [done|]. unfold left_behind. rewrite Hcur in Hlt.
    apply above_size; [|done]. rewrite <- HR. apply elem_of_dom. exists w. apply Hw. }
  destruct (IH _ Hlt (mq_replay_message_id m) (replay_round c m) eq_refl Hm1) as (n & Hn & Hdone).
  { destruct Hm as [[_ [_ Hcur]] [[? _]|(_ & _ & Hl & _)]]; [done|lia]. }
  exists (S n). split; [lia|]. by rewrite Nat.iter_succ_r.
Qed.

Lemma settled_plain c R cursor m e :
  plain e = true -> settled c R cursor m -> settled c R cursor (m <| mq_trace := e :: mq_trace m |>).
Proof. intros He [Hm Hn]. split; [by apply holding_plain|exact Hn]. Qed.

(** The worker, when there was no work for thirty seconds. *)
Lemma idle_turn_works c m :
  online c m -> mq_replay_message_id m = 0 -> 0 <= mq_replay_cursor m ->
  settled c (recs (sms_of m)) (mq_replay_cursor m) (worker_turn aenv env m).1.
Proof.
  intros Ho Hid Hc. set (R := recs (sms_of m)). set (cursor := mq_replay_cursor m) in *.
  assert (holding c R cursor m) as Hm by done. clearbody R cursor.
  unfold worker_turn, connected, mbind at 1, state_bind at 1, gets at 1. rewrite (ol_queue _ _ Ho).
  unfold mbind at 1, state_bind at 1, gets at 1. rewrite (ol_connected _ _ Ho). cbn [negb].
  unfold mbind at 1, state_bind at 1, mqtt_ask. rewrite (aw_taken _ works). cbn [negb].
  set (m1 := m <| mq_trace := _ |>). assert (holding c R cursor m1 /\ mq_replay_message_id m1 = 0) as [Hm1 Hid1] by (by destruct Hm as [[] ?]).
  clearbody m1. unfold replay_watchdog, mbind at 1 2 3 4, state_bind at 1 2 3 4, gets. rewrite Hid1. cbn [Z.eqb orb mret state_ret].
  pose proof (replay_next_works c R cursor m1 Hm1 Hid1 Hc) as Hn. destruct (replay_next_inbound env m1) as [m2 u].
  by apply (plain_publish_status env (settled c R cursor) (settled_plain c R cursor)).
Qed.

(** C14. No received message is left behind: when the broker acknowledges what is
    published to it, and memory, mutexes and flash do their part, then from a
    turn of the worker on there are so many acknowledgements, not more than the
    store has records, behind which the cursor has passed every received message
    that is stored, nothing is in flight any more, and no message was changed. *)
Theorem replay_catches_up c m :
  online c m -> mq_replay_message_id m = 0 -> 0 <= mq_replay_cursor m ->
  exists n, (n <= SMS_STORE_MAX_RECORDS)%nat /\
    let m' := Nat.iter n (replay_round c) (worker_turn aenv env m).1 in
    recs (sms_of m') = recs (sms_of m) /\ mq_replay_message_id m' = 0 /\
    forall w, recs (sms_of m') !! id w = Some w -> direction w = SMS_DIRECTION_INBOUND ->
      status w = SMS_MESSAGE_RECEIVED -> id w <= mq_replay_cursor m'.
Proof.
  intros Ho Hid Hc. destruct (rounds_work _ _ _ _ (idle_turn_works c m Ho Hid Hc) Hc) as (n & Hn & _ & HR & Hid' & Hall).
  exists n. split; [|split_and!; [done|done|]].
  - etrans; [exact Hn|]. unfold left_behind. etrans; [|apply (records_size (s_handle (sv_store (sms_of m))))].
    rewrite <- size_dom. apply subseteq_size. intros k. unfold above. rewrite elem_of_filter. by intros [_ ?].
  - intros w Hw Hd Hs. apply (Hall _ w). split; [done|]. by apply to_replay_spec.
Qed.

End Live.

Lemma sample_all_works : all_works sample_replay_env (fun n => mem_faults n = []).
Proof.
  split; [done|done|intros tr; cbn; lia|]. intros n v Hn. cbn. unfold mem_write. rewrite Hn. eexists _, _. by split_and!.
Qed.

(** After one turn and one acknowledgement. *)
Lemma replay_catches_up_witness : exists n, (n <= SMS_STORE_MAX_RECORDS)%nat /\
  mq_replay_message_id (Nat.iter n (replay_round sample_api sample_replay_env sample_client)
    (worker_turn sample_api sample_replay_env sample_inbox).1) = 0.
Proof.
  destruct (replay_catches_up sample_api sample_replay_env _ sample_all_works sample_client sample_inbox) as (n & Hn & _ & H & _).
  - split; [exact sample_received_inv|vm_compute; reflexivity|vm_compute; reflexivity|split; vm_compute; reflexivity|
      vm_compute; reflexivity|vm_compute; reflexivity].
  - vm_compute. reflexivity.
  - apply Z.leb_le. vm_compute. reflexivity.
  - by exists n.
Defined.

Example replay_round_passes :
  mq_replay_cursor (replay_round sample_api sample_replay_env sample_client
    (worker_turn sample_api sample_replay_env sample_inbox).1) = 1.
Proof. vm_compute. reflexivity. Qed.
