(* ===== verification/ApiConfig.v ===== *)
(** * The HTTP interface: settings, the modem and the journal
      (components/api_server/api_server.c) *)

From Stdlib Require Import Ascii String.
From Stdlib Require Import ZifyBool ZifyNat.
From stdpp Require Import base numbers list strings.
From S2P Require Import Prelude.
From S2P Require Import StateMonad.
From S2P Require Import AtEngine.
From S2P Require Import Nvs.
From S2P Require Import ApiIdempotency.
From S2P Require Import ModemManager.
From S2P Require Import ApiCommon.
From S2P Require Import RateLimiter.
From S2P Require Import Http.
From S2P Require Import MqttConfig.
From S2P Require Import ApiServer.

Open Scope Z_scope.

Definition recovery_action_name (action : modem_recovery_action_t) : list Z :=
  match action with
  | MODEM_RECOVERY_REINITIALIZE => str "reinitialize"
  | MODEM_RECOVERY_FUNCTIONAL_RESET => str "functional_reset"
  | MODEM_RECOVERY_HARD_RESET => str "hard_reset"
  | MODEM_RECOVERY_NONE => str "none"
  end.

Definition at_result_name (result : at_result_t) : list Z :=
  match result with
  | AT_RESULT_OK => str "ok"
  | AT_RESULT_ERROR => str "error"
  | AT_RESULT_CME_ERROR => str "cme_error"
  | AT_RESULT_CMS_ERROR => str "cms_error"
  | AT_RESULT_TIMEOUT => str "timeout"
  | AT_RESULT_CANCELED => str "canceled"
  | AT_RESULT_TRANSPORT_UNAVAILABLE => str "transport_unavailable"
  | AT_RESULT_TRANSPORT_ERROR => str "transport_error"
  | AT_RESULT_RX_OVERFLOW => str "rx_overflow"
  | AT_RESULT_PROTOCOL_ERROR => str "protocol_error"
  end.

(** [*dst] afterwards, or [None] for false. *)
Definition json_copy_optional_string (j : json) (name dst : list Z) (nullable : bool) : option (list Z) :=
  match cJSON_GetObjectItemCaseSensitive j name with
  | None => Some dst
  | Some value =>
      if nullable && cJSON_IsNull (Some value) then Some (set_string dst [])
      else match json_string (Some value) with
           | None => None
           | Some s => if (length dst <=? strlen s)%nat then None else Some (snprintf_s dst s)
           end
  end.

Definition json_copy_optional_bool (j : json) (name : list Z) (dst : bool) : option bool :=
  match cJSON_GetObjectItemCaseSensitive j name with
  | None => Some dst
  | Some value => if cJSON_IsBool (Some value) then Some (cJSON_IsTrue (Some value)) else None
  end.

Definition mqtt_fields : list (list Z) :=
  [str "enabled"; str "broker_uri"; str "username"; str "password"; str "base_topic"; str "home_assistant_enabled";
   str "discovery_prefix"; str "default_recipient"; str "ca_pem"].

(** The copies, in the order of the condition. *)
Definition mqtt_patched (j : json) (c : gateway_mqtt_config_t) : option gateway_mqtt_config_t :=
  enabled ← json_copy_optional_bool j (str "enabled") (mc_enabled c);
  broker_uri ← json_copy_optional_string j (str "broker_uri") (mc_broker_uri c) false;
  username ← json_copy_optional_string j (str "username") (mc_username c) false;
  password ← json_copy_optional_string j (str "password") (mc_password c) true;
  base_topic ← json_copy_optional_string j (str "base_topic") (mc_base_topic c) false;
  home_assistant_enabled ← json_copy_optional_bool j (str "home_assistant_enabled") (mc_home_assistant_enabled c);
  discovery_prefix ← json_copy_optional_string j (str "discovery_prefix") (mc_discovery_prefix c) false;
  default_recipient ← json_copy_optional_string j (str "default_recipient") (mc_default_recipient c) true;
  ca_pem ← json_copy_optional_string j (str "ca_pem") (mc_ca_pem c) true;
  Some (mk_mqtt_config enabled broker_uri username password base_topic home_assistant_enabled discovery_prefix
          default_recipient ca_pem).

(** The members that show the settings; the password and the certificate are
    not among them. *)
Definition mqtt_config_members (c : gateway_mqtt_config_t) : list (list Z * json) :=
  [(str "enabled", JBool (mc_enabled c));
   (str "broker_uri", json_text (mc_broker_uri c));
   (str "username", json_text (mc_username c));
   (str "password_set", JBool (negb ((mc_password c).[0] =? 0)));
   (str "base_topic", json_text (mc_base_topic c));
   (str "home_assistant_enabled", JBool (mc_home_assistant_enabled c));
   (str "discovery_prefix", json_text (mc_discovery_prefix c));
   (str "default_recipient", json_or_null (mc_default_recipient c));
   (str "ca_configured", JBool (negb ((mc_ca_pem c).[0] =? 0)));
   (str "tls", JBool (gateway_mqtt_uri_is_tls (Some (mc_broker_uri c))))].

(** The timeout of a diagnostic command, when the request is valid. *)
Definition at_timeout (timeout : option json) : option Z :=
  match timeout with
  | None => Some 10000
  | Some (JNumber v) =>
      if dleb (double_of_Z 100) v && dleb v (double_of_Z 60000) then Some (double_trunc v) else None
  | Some _ => None
  end.

(** The command fits the array, and its prefix may be empty. *)
Definition diagnostic_request (command timeout_prefix : list Z) (timeout : Z) : at_request_t :=
  mk_request (Some command) (Some [Some timeout_prefix]) (if timeout_prefix.[0] =? 0 then 0 else 1) timeout 1 0 0 false
    None 0.

Section Config.

Context {N : Type} `{Nvs N}.

Abbreviation gateway := (gateway N).
Abbreviation M := (State gateway).

Variable env : api_environment N.

(** With what [mqtt_service_get_diagnostics] answers. *)
Definition mqtt_config_json (c : gateway_mqtt_config_t) : M (option json) :=
  created ← allocated env;
  if negb created then mret None
  else
    diag ← api_ask (aenv_mqtt env);
    mret (Some (JObject (mqtt_config_members c ++ match diag with
      | Some (connected, last_error) => [(str "connected", JBool connected); (str "last_mqtt_error", JInt last_error)]
      | None => []
      end))).

Definition send_config (c : gateway_mqtt_config_t) : M esp_err_t :=
  obj ← mqtt_config_json c;
  match obj with None => mret ESP_ERR_NO_MEM | Some obj => send_json env 200 obj end.

(** [gateway_settings_get_mqtt]; the buffer is not NULL. *)
Definition get_mqtt : M (esp_err_t + gateway_mqtt_config_t) :=
  taken ← api_ask (aenv_taken env);
  gets (fun g => gateway_settings_get_mqtt true taken (gw_settings g)).

Definition mqtt_config_get_handler (req : http_request) : M esp_err_t :=
  admitted env req false (
    ok ← allocated env;
    if negb ok then mret ESP_ERR_NO_MEM
    else
      config ← get_mqtt;
      match config with
      | inl _ => refuse env 503 "urn:sms-gateway:mqtt-config" "Service Unavailable"
      | inr config => send_config config
      end).

Definition invalid_body : M esp_err_t := refuse env 400 "urn:sms-gateway:invalid-body" "Bad Request".

(** [mqtt_service_reconfigure] *)
Definition reconfigure : M esp_err_t := fun g =>
  let err := aenv_reconfigure env (gw_trace g) in (g <| gw_trace := AE_reconfigure err :: gw_trace g |>, err).

Definition set_mqtt (config : gateway_mqtt_config_t) : M esp_err_t :=
  ok ← allocated env;
  taken ← api_ask (aenv_taken env);
  on_settings (gateway_settings_set_mqtt (Some config) ok taken).

Definition mqtt_config_patch_handler (req : http_request) : M esp_err_t :=
  admitted env req false (
    body ← read_body env req;
    match body with
    | inl _ => invalid_body
    | inr body =>
        ok ← allocated env;
        config ← (if ok : bool then get_mqtt else mret (inl ESP_ERR_NO_MEM));
        let patched :=
          match object_with env mqtt_fields body, config with
          | Some j, inr config => mqtt_patched j config
          | _, _ => None
          end in
        match patched with
        | None => refuse env 400 "urn:sms-gateway:invalid-mqtt-config" "Bad Request"
        | Some config =>
            if bool_decide (gateway_mqtt_config_validate (Some config) <> ESP_OK)
            then refuse env 400 "urn:sms-gateway:invalid-mqtt-config" "Bad Request"
            else
              err ← set_mqtt config;
              err ← (if bool_decide (err = ESP_OK) then reconfigure else mret err);
              if bool_decide (err <> ESP_OK)
              then refuse env 503 "urn:sms-gateway:mqtt-reconfigure" "Service Unavailable"
              else send_config config
        end
    end).

Definition sim_pin_handler (req : http_request) : M esp_err_t :=
  admitted env req false (
    body ← read_body env req;
    match body with
    | inl _ => invalid_body
    | inr body =>
        err ← match json_string (field_of (object_with env [str "pin"] body) (str "pin")) with
              | Some pin => on_manager (modem_manager_submit_sim_pin (Some pin))
              | None => mret ESP_ERR_INVALID_ARG
              end;
        if bool_decide (err <> ESP_OK) then refuse env 409 "urn:sms-gateway:sim-pin" "Conflict"
        else send_empty env "202 Accepted"
    end).

Definition idempotency_clear_pending_handler (req : http_request) : M esp_err_t :=
  admitted env req false (
    body ← read_body env req;
    match body with
    | inl _ => invalid_body
    | inr body =>
        if negb (retry_accepted env body)
        then refuse env 409 "urn:sms-gateway:duplicate-risk-not-acknowledged" "Conflict"
        else
          taken ← api_ask (aenv_taken env);
          '(cleared, err) ← on_idempotency (fun st =>
            let '(st, cleared, err) := gateway_idempotency_clear_pending taken st in (st, (cleared, err)));
          if bool_decide (err <> ESP_OK)
          then refuse env 503 "urn:sms-gateway:idempotency-recovery" "Service Unavailable"
          else send_json env 200 (JObject [(str "cleared", JInt cleared);
            (str "warning",
             JString (str "Cleared reservations may permit duplicate sends if their original outcome was unknown"))])
    end).

Definition modem_restart_handler (req : http_request) : M esp_err_t :=
  admitted env req false (
    err ← on_manager modem_manager_request_restart;
    if bool_decide (err <> ESP_OK) then refuse env 503 "urn:sms-gateway:modem-restart" "Service Unavailable"
    else send_empty env "202 Accepted").

(** [modem_core_at_execute] *)
Definition modem_core_at_execute (request : at_request_t) : M (esp_err_t * at_response_t) := fun g =>
  let '(err, response) := aenv_at env (gw_trace g) request in
  (g <| gw_trace := AE_at request err response :: gw_trace g |>, (err, response)).

(** A line that is not there is no item. *)
Definition response_lines (response : at_response_t) : list json :=
  omap (fun i => json_text <$> at_response_line (Some response) i) (seq 0 (length (resp_line_offsets response))).

(** The command and the timeout of a valid request. *)
Definition at_command_of (body : list Z) : option (list Z * Z) :=
  let j := object_with env [str "command"; str "timeout_ms"] body in
  command ← json_string (field_of j (str "command"));
  timeout ← at_timeout (field_of j (str "timeout_ms"));
  if gateway_at_command_allowed (Some command) AT_ENGINE_MAX_COMMAND_LENGTH then Some (c_str command, timeout) else None.

Definition no_memory : M esp_err_t := refuse env 503 "urn:sms-gateway:no-memory" "Service Unavailable".

Definition modem_at_handler (req : http_request) : M esp_err_t :=
  admitted env req false (
    body ← read_body env req;
    match body with
    | inl _ => invalid_body
    | inr body =>
        match at_command_of body with
        | None => refuse env 400 "urn:sms-gateway:invalid-at-command" "Bad Request"
        | Some (command, timeout) =>
            let prefix := default [] (gateway_at_response_prefix (Some command) (Some (zeros 40))).1 in
            ok ← allocated env;
            if negb ok then no_memory
            else
              '(err, response) ← modem_core_at_execute (diagnostic_request command prefix timeout);
              if bool_decide (err <> ESP_OK)
              then refuse env 503 "urn:sms-gateway:modem-unavailable" "Service Unavailable"
              else
                created ← allocated env;
                if negb created then no_memory
                else send_json env 200 (JObject [
                  (str "lines", JArray (response_lines response));
                  (str "command", JString command);
                  (str "result", JString (at_result_name (resp_result response)));
                  (str "error_code", JInt (resp_error_code response));
                  (str "final", json_text (resp_final_line response));
                  (str "truncated", JBool (resp_truncated response))])
        end
    end).

(** The task of [reboot_task], when it could be created. *)
Definition create_reboot_task (reason : list Z) : M unit :=
  created ← api_ask (aenv_task env); when created (api_log (AE_reboot reason)).

Definition reboot_handler (req : http_request) : M esp_err_t :=
  admitted env req false (
    send_empty env "202 Accepted";;
    create_reboot_task (str "API /system/reboot");;
    mret ESP_OK).

End Config.
