(* ===== verification/ApiFirmware.v ===== *)
(** * The HTTP interface: firmware updates (components/api_server/api_server.c)

    An upload is received in pieces that go to the update service, and is
    finished or aborted; and what an installed image is. *)

From Stdlib Require Import Ascii String.
From Stdlib Require Import ZifyBool ZifyNat.
From stdpp Require Import base numbers list strings.
From S2P Require Import Prelude.
From S2P Require Import StateMonad.
From S2P Require Import Nvs.
From S2P Require Import GatewaySecurity.
From S2P Require Import OtaVersionPolicy.
From S2P Require Import RateLimiter.
From S2P Require Import Http.
From S2P Require Import OtaService.
From S2P Require Import OtaServiceFacts.
From S2P Require Import ApiServer.
From S2P Require Import ApiServerFacts.
From S2P Require Import ApiConfig.

Open Scope Z_scope.

Definition CHUNK : nat := Z.to_nat 4096.

Definition header_is_true (req : http_request) (name : list Z) : bool :=
  (hdr_value_len req name =? 4)%nat
  && match hdr_value_str req name 8 with Some value => streq value (str "true") | None => false end.

Definition diagnostics_json (d : gateway_ota_diagnostics_t) : json := JObject [
  (str "running_version", json_text (running_version d));
  (str "running_partition", json_text (running_partition d));
  (str "boot_version", json_text (boot_version d));
  (str "boot_partition", json_text (boot_partition d));
  (str "pending_verify", JBool (pending_verify d));
  (str "confirmation_scheduled", JBool (confirmation_scheduled d));
  (str "update_in_progress", JBool (update_in_progress d));
  (str "upload_attempts", JInt (upload_attempts d));
  (str "upload_successes", JInt (upload_successes d));
  (str "upload_rejections", JInt (upload_rejections d));
  (str "upload_failures", JInt (upload_failures d));
  (str "last_error", JInt (esp_err_code (ota_last_error d)));
  (str "last_candidate_version", json_or_null (last_candidate_version d))].

Section Firmware.

Context {N : Type} `{Nvs N}.

Abbreviation gateway := (gateway N).
Abbreviation M := (State gateway).

Variable env : api_environment N.

Abbreviation oenv := (aenv_ota env).

Definition firmware_get_handler (req : http_request) : M esp_err_t :=
  admitted env req false (
    diag ← on_ota (gateway_ota_get_diagnostics oenv true);
    match diag with
    | inl _ => refuse env 503 "urn:sms-gateway:ota-unavailable" "Service Unavailable"
    | inr diag =>
        created ← allocated env;
        if negb created then mret ESP_ERR_NO_MEM else send_json env 200 (diagnostics_json diag)
    end).

Definition ota_problem (err : esp_err_t) : M esp_err_t :=
  if bool_decide (err = GATEWAY_OTA_ERR_HASH_MISMATCH) then refuse env 422 "urn:sms-gateway:ota-hash" "Unprocessable Content"
  else if bool_decide (err = GATEWAY_OTA_ERR_PROJECT_MISMATCH) then
    refuse env 422 "urn:sms-gateway:ota-project" "Unprocessable Content"
  else if bool_decide (err = GATEWAY_OTA_ERR_VERSION_FORMAT) then
    refuse env 422 "urn:sms-gateway:ota-version" "Unprocessable Content"
  else if bool_decide (err = GATEWAY_OTA_ERR_REINSTALL_REJECTED) then
    refuse env 409 "urn:sms-gateway:ota-reinstall" "Conflict"
  else if bool_decide (err = GATEWAY_OTA_ERR_DOWNGRADE_REJECTED) then
    refuse env 409 "urn:sms-gateway:ota-downgrade" "Conflict"
  else if bool_decide (err = GATEWAY_OTA_ERR_SECURE_VERSION) then
    refuse env 422 "urn:sms-gateway:ota-secure-version" "Unprocessable Content"
  else if bool_decide (err = GATEWAY_OTA_ERR_PENDING_VERIFY) then
    refuse env 409 "urn:sms-gateway:ota-pending-verify" "Conflict"
  else if bool_decide (err = GATEWAY_OTA_ERR_IMAGE_SIZE) then refuse env 413 "urn:sms-gateway:ota-size" "Content Too Large"
  else if bool_decide (err = ESP_ERR_INVALID_STATE) then refuse env 409 "urn:sms-gateway:ota-busy" "Conflict"
  else if bool_decide (err = ESP_ERR_INVALID_ARG) then refuse env 400 "urn:sms-gateway:ota-request" "Bad Request"
  else if bool_decide (err = ESP_ERR_OTA_VALIDATE_FAILED) then
    refuse env 422 "urn:sms-gateway:ota-image" "Unprocessable Content"
  else refuse env 503 "urn:sms-gateway:ota-failed" "Service Unavailable".

(** The loop: [k] calls were made, [remaining] bytes are missing.  The session
    and the error; [None] when the fuel is used up. *)
Fixpoint receive_loop (req : http_request) (fuel k remaining timeouts : nat) (session : option gateway_ota_session)
  : M (option (option gateway_ota_session * esp_err_t)) :=
  if (remaining =? 0)%nat then mret (Some (session, ESP_OK))
  else match fuel with
  | O => mret None
  | S fuel' =>
      let wanted := if (remaining <? CHUNK)%nat then remaining else CHUNK in
      match req_recv req k wanted with
      | RecvTimeout =>
          if (timeouts <? 3)%nat then receive_loop req fuel' (S k) remaining (S timeouts) session
          else mret (Some (session, ESP_FAIL))
      | Received (c :: data) =>
          '(session, err) ← on_ota (gateway_ota_write oenv session (Some (c :: data)));
          if bool_decide (err <> ESP_OK) then mret (Some (session, err))
          else receive_loop req fuel' (S k) (remaining - length (c :: data)) 0 session
      | _ => mret (Some (session, ESP_FAIL))
      end
  end.

(** At most three timeouts in a row, then a byte. *)
Definition RECEIVE_FUEL (remaining timeouts : nat) : nat := 4 * remaining - timeouts.

Definition result_json (r : gateway_ota_result_t) : json := JObject [
  (str "status", JString (str "staged"));
  (str "version", json_text (or_version r));
  (str "project", json_text (or_project_name r));
  (str "partition", json_text (or_partition r));
  (str "sha256", json_text (or_sha256 r));
  (str "size", JInt (Z.of_nat (or_image_size r)));
  (str "rebooting", JBool true)].

(** After the image was received. *)
Definition finish_upload (session : option gateway_ota_session) : M esp_err_t :=
  finished ← on_ota (gateway_ota_finish oenv session true);
  match finished with
  | inl err => ota_problem err
  | inr result =>
      created ← allocated env;
      if negb created then mret ESP_ERR_NO_MEM
      else
        err ← send_json env 202 (result_json result);
        when (bool_decide (err = ESP_OK)) (create_reboot_task env (str "firmware update installed"));;
        mret err
  end.

Definition ota_content_type (req : http_request) : bool :=
  match header_of req (str "Content-Type") 1 48 with
  | Some value => streq value (str "application/octet-stream")
  | None => false
  end.

Definition sha_header (req : http_request) : option (list Z) :=
  if negb (hdr_value_len req (str "X-Firmware-SHA256") =? GATEWAY_OTA_SHA256_HEX_LEN)%nat then None
  else hdr_value_str req (str "X-Firmware-SHA256") (GATEWAY_OTA_SHA256_HEX_LEN + 1).

Definition ota_request (req : http_request) (sha256 : list Z) : gateway_ota_request_t :=
  mk_ota_request (content_len req) (Some sha256) (header_is_true req (str "X-Firmware-Allow-Reinstall"))
    (header_is_true req (str "X-Firmware-Allow-Downgrade")).

Definition upload_image (req : http_request) (session : gateway_ota_session) : M esp_err_t :=
  ok ← allocated env;
  if negb ok then
    on_ota (gateway_ota_abort (Some session));;
    refuse env 503 "urn:sms-gateway:ota-memory" "Service Unavailable"
  else
    received ← receive_loop req (RECEIVE_FUEL (content_len req) 0) 0 (content_len req) 0 (Some session);
    match received with
    | Some (session, err) =>
        if bool_decide (err <> ESP_OK) then on_ota (gateway_ota_abort session);; ota_problem err
        else finish_upload session
    | None => mret ESP_FAIL
    end.

Definition firmware_post_handler (req : http_request) : M esp_err_t :=
  admitted env req false (
    ok ← limited env gw_ota_limiter (fun l g => g <| gw_ota_limiter := l |>);
    if negb ok then refuse env 429 "urn:sms-gateway:ota-rate-limit" "Too Many Requests"
    else if (content_len req =? 0)%nat then refuse env 400 "urn:sms-gateway:ota-body" "Bad Request"
    else if negb (ota_content_type req) then
      refuse env 415 "urn:sms-gateway:ota-content-type" "Unsupported Media Type"
    else match sha_header req with
    | None => refuse env 400 "urn:sms-gateway:ota-sha256" "Bad Request"
    | Some sha256 =>
        begun ← on_ota (gateway_ota_begin oenv (Some (ota_request req sha256)) true);
        match begun with
        | inl err => ota_problem err
        | inr session => upload_image req session
        end
    end).

End Firmware.
