(* ===== verification/ApiFirmwareFacts.v ===== *)
(** * Firmware uploads: only a verified image is booted *)

From Stdlib Require Import Ascii String.
From Stdlib Require Import ZifyBool ZifyNat.
From stdpp Require Import base numbers list strings.
From S2P Require Import Prelude.
From S2P Require Import StateMonad.
From S2P Require Import Nvs.
From S2P Require Import GatewaySecurity.
From S2P Require Import OtaVersionPolicy.
From S2P Require Import RateLimiter.
From S2P Require Import Http.
From S2P Require Import OtaService.
From S2P Require Import OtaServiceFacts.
From S2P Require Import ApiServer.
From S2P Require Import ApiSample.
From S2P Require Import ApiServerFacts.
From S2P Require Import ApiConfig.
From S2P Require Import ApiFirmware.

Open Scope Z_scope.

Section Upload.

Context {N : Type} `{NvsLaws N}.

Abbreviation gateway := (gateway N).

Variable env : api_environment N.

Abbreviation oenv := (aenv_ota env).

(** A computation of the update service, in the interface. *)
Lemma triple_on_ota {A} (c : State ota A) (P : ota -> Prop) Q :
  triple P c Q -> triple (fun g : gateway => P (gw_ota g)) (on_ota c) (fun x g => Q x (gw_ota g)).
Proof. intros Hc. by eapply triple_zoom. Qed.

(** ** The loop ends *)

Lemma receive_total req fuel k remaining timeouts session (g : gateway) :
  (RECEIVE_FUEL remaining timeouts <= fuel)%nat -> (timeouts <= 3)%nat ->
  (receive_loop env req fuel k remaining timeouts session g).2 <> None.
Proof.
  unfold RECEIVE_FUEL. revert k remaining timeouts session g. induction fuel as [|fuel IH]; intros k remaining timeouts session g Hf Ht;
    cbn [receive_loop]; destruct (Nat.eqb_spec remaining 0) as [|Hr]; [done|lia|done|].
  destruct (req_recv req k _) as [[|c data]| |]; [done| | |done].
  - unfold mbind, state_bind. destruct (on_ota _ g) as [g1 [session1 err]]. case_bool_decide; [done|].
    apply IH; [cbn [length]; lia|lia].
  - destruct (Nat.ltb_spec timeouts 3); [|done]. apply IH; lia.
Qed.

(** ** The next update can start *)

Lemma write_some s data : triple (fun _ : ota => True) (gateway_ota_write oenv (Some s) data) (fun r _ => r.1 <> None).
Proof.
  unfold gateway_ota_write, write_failed. destruct data as [data|]; [|by apply triple_ret].
  destruct (_ =? _)%nat; [by apply triple_ret|]. destruct (_ || _); [by apply triple_ret|].
  apply (triple_bind _ _ (fun _ _ => True)); [done|]. intros updated. destruct (negb updated); [by apply triple_ret|].
  apply (triple_bind _ _ (fun _ _ => True)); [done|]. intros [[s' n] err]. destruct (bool_decide _); [by apply triple_ret|].
  apply (triple_bind _ _ (fun _ _ => True)); [done|]. intros err'. destruct (bool_decide _); by apply triple_ret.
Qed.

Lemma write_slot s data :
  triple (slot true) (gateway_ota_write oenv (Some s) data) (fun r o => slot true o /\ r.1 <> None).
Proof. intros o Ho. split; [by apply slot_write|by apply write_some]. Qed.

Definition slot_of (b : bool) (g : gateway) : Prop := slot b (gw_ota g).

Lemma slot_of_log b (g : gateway) e : quiet e -> slot_of b g -> slot_of b (g <| gw_trace := e :: gw_trace g |>).
Proof. by intros _ Hg. Qed.

Lemma receive_slot req fuel k remaining timeouts s :
  (RECEIVE_FUEL remaining timeouts <= fuel)%nat -> (timeouts <= 3)%nat ->
  triple (slot_of true) (receive_loop env req fuel k remaining timeouts (Some s))
    (fun r g => slot_of true g /\ exists s' err, r = Some (Some s', err)).
Proof.
  unfold RECEIVE_FUEL. revert k remaining timeouts s. induction fuel as [|fuel IH]; intros k remaining timeouts s Hf Ht;
    cbn [receive_loop]; destruct (Nat.eqb_spec remaining 0) as [|Hr].
  1, 3: apply triple_ret; intros g Hg; split; [done|by eexists _, _].
  - lia.
  - assert (triple (slot_of true) (mret (Some (Some s, ESP_FAIL))) (fun r g => slot_of true g /\ exists s' err, r = Some (Some s', err)))
      as Hfail by (apply triple_ret; intros g Hg; split; [done|by eexists _, _]).
    destruct (req_recv req k _) as [[|c data]| |]; [exact Hfail| | |exact Hfail].
    + eapply triple_bind; [exact (triple_on_ota _ _ _ (write_slot s (Some (c :: data))))|].
      intros [[s'|] err]; [|by intros g [_ Hn]]. case_bool_decide.
      * apply triple_ret. intros g [Hg _]. split; [done|by eexists _, _].
      * intros g [Hg _]. apply IH; [cbn [length]; lia|lia|exact Hg].
    + destruct (Nat.ltb_spec timeouts 3); [apply IH; lia|exact Hfail].
Qed.

Lemma slot_problem b err : keeps (slot_of b) (ota_problem env err).
Proof. unfold ota_problem. repeat case_bool_decide; apply blind_refuse, slot_of_log. Qed.

Lemma slot_aborted s : triple (slot_of true) (on_ota (gateway_ota_abort (Some s))) (fun _ => slot_of false).
Proof. exact (triple_on_ota _ _ _ (slot_abort true s)). Qed.

Lemma finish_slot s : triple (slot_of true) (finish_upload env (Some s)) (fun _ => slot_of false).
Proof.
  unfold finish_upload. eapply triple_bind; [exact (triple_on_ota _ _ _ (slot_finish oenv true s))|].
  intros [err|result]; [apply slot_problem|]. eapply triple_bind; [apply blind_allocated, slot_of_log|]. intros created.
  destruct (negb created); [by apply triple_ret|]. eapply triple_bind; [apply blind_send_json, slot_of_log|]. intros err.
  apply keeps_bind; [|intros _; apply keeps_ret]. apply keeps_when. intros _. unfold create_reboot_task.
  apply keeps_bind; [apply blind_ask, slot_of_log|]. intros b. apply keeps_when. intros _. by apply blind_log; [apply slot_of_log|].
Qed.

Lemma upload_slot req s : triple (slot_of true) (upload_image env req s) (fun _ => slot_of false).
Proof.
  unfold upload_image. eapply triple_bind; [apply blind_allocated, slot_of_log|]. intros ok. destruct (negb ok).
  { eapply triple_bind; [apply slot_aborted|]. intros []. apply blind_refuse, slot_of_log. }
  eapply triple_bind; [apply receive_slot; lia|]. intros r g [Hg (s' & err & ->)].
  enough (triple (slot_of true) (if bool_decide (err <> ESP_OK) then on_ota (gateway_ota_abort (Some s'));; ota_problem env err
    else finish_upload env (Some s')) (fun _ => slot_of false)) as Ht by exact (Ht g Hg).
  case_bool_decide; [|apply finish_slot]. eapply triple_bind; [apply slot_aborted|]. intros []. apply slot_problem.
Qed.

Lemma post_slot req : keeps (slot_of false) (firmware_post_handler env req).
Proof.
  unfold firmware_post_handler. apply triple_admitted; [apply slot_of_log|by intros|done|].
  assert (forall status type title, keeps (slot_of false) (refuse env status type title)) as Hrefuse
    by (intros; apply blind_refuse, slot_of_log).
  eapply triple_bind; [unfold limited; apply keeps_bind; [apply blind_ask, slot_of_log|];
    intros now g Hg; unfold zoom; by destruct (gateway_rate_limiter_allow _ _ _)|].
  intros ok. destruct (negb ok); [apply Hrefuse|]. destruct (content_len req =? 0)%nat; [apply Hrefuse|].
  destruct (negb _); [apply Hrefuse|]. destruct (sha_header req) as [sha256|]; [|apply Hrefuse].
  eapply triple_bind; [exact (triple_on_ota _ _ _ (slot_begin oenv (Some (ota_request req sha256)) true))|].
  intros [err|s]; [apply slot_problem|apply upload_slot].
Qed.

(** An upload ends: the loop that receives it does not run on for longer
    than four calls for each byte, and whatever happens to the upload, when the
    handler returns no update is in progress, so that the next one can start. *)
Theorem upload_ends req (g : gateway) :
  slot_of false g ->
  slot_of false (firmware_post_handler env req g).1 /\
  forall s g', (receive_loop env req (RECEIVE_FUEL (content_len req) 0) 0 (content_len req) 0 s g').2 <> None.
Proof. intros Hg. split; [by apply post_slot|]. intros s g'. apply receive_total; lia. Qed.

(** ** What is installed *)

Hypothesis sha256_bytes : forall data, bytes (oenv_sha256 oenv data).
Hypothesis prefix_required : (0 < OTA_PREFIX_REQUIRED oenv)%nat.

Definition boots_of (g : gateway) : list esp_partition_t := boots (ota_trace (gw_ota g)).

(** The session [s] goes on, and [B] was chosen so far. *)
Definition uploading (B : list esp_partition_t) (s : gateway_ota_session) (g : gateway) : Prop :=
  boots_of g = B /\ upload oenv s (ota_trace (gw_ota g)).

Definition received_all (B : list esp_partition_t) (s : gateway_ota_session)
    (r : option (option gateway_ota_session * esp_err_t)) (g : gateway) : Prop :=
  boots_of g = B /\
  match r with
  | Some (session, err) =>
      err = ESP_OK -> exists s', session = Some s' /\ uploading B s' g /\ request_of s' = request_of s
  | None => True
  end.

Lemma receive_spec req fuel k remaining timeouts s B :
  triple (uploading B s) (receive_loop env req fuel k remaining timeouts (Some s)) (received_all B s).
Proof.
  revert k remaining timeouts s. induction fuel as [|fuel IH]; intros k remaining timeouts s; cbn [receive_loop].
  - destruct (remaining =? 0)%nat; apply triple_ret; intros g [HB Hu]; (split; [done|]); [|done]. intros _. by exists s.
  - destruct (remaining =? 0)%nat; [apply triple_ret; intros g [HB Hu]; split; [done|]; intros _; by exists s|].
    assert (triple (uploading B s) (mret (Some (Some s, ESP_FAIL))) (received_all B s)) as Hfail
      by (apply triple_ret; by intros g [HB _]).
    destruct (req_recv req k _) as [[|c data]| |]; [exact Hfail| | |exact Hfail].
    2: { destruct (timeouts <? 3)%nat; [apply IH|exact Hfail]. }
    eapply triple_bind; [exact (triple_on_ota _ _ _ (write_spec oenv s (c :: data) B))|]. intros [session err].
    case_bool_decide as He; [apply triple_ret; intros g [HB _]; split; [done|]; intros ->; by destruct He|].
    intros g [HB Hw]. destruct (Hw He) as (s' & Es & Hu & _ & Hrq).
    cbn [fst] in Es. subst session.
    pose proof (IH (S k) (remaining - length (c :: data))%nat 0%nat s' g (conj HB Hu)) as [HB' Hr].
    destruct (receive_loop _ _ _ _ _ _ _ g) as [g' [[session' err']|]]; (split; [exact HB'|]); [|done].
    cbn [fst snd] in *. intros E. destruct (Hr E) as (s2 & -> & Hu2 & Hrq2). exists s2. split_and!; [done|done|congruence].
Qed.

(** The image is the one that the request announced: its length, its hash, and
    a description that the version policy lets follow the running firmware. *)
Record announced (req : http_request) (image : list Z) : Prop := {
  an_length : length image = content_len req;
  an_hash : exists sha256, sha_header req = Some sha256 /\ hex_decode_32 (Some sha256) = Some (oenv_sha256 oenv image);
  an_accepted : image_accepted oenv image (header_is_true req (str "X-Firmware-Allow-Reinstall"))
    (header_is_true req (str "X-Firmware-Allow-Downgrade"));
}.

(** All of the image is on the partition. *)
Definition on_partition (partition : esp_partition_t) (image : list Z) (tr : list ota_effect) : Prop :=
  exists handle, written handle tr = Some image /\ opened handle tr = Some (partition, length image).

(** Nothing was chosen after [B], or such an image. *)
Definition only_announced (req : http_request) (B : list esp_partition_t) (g : gateway) : Prop :=
  boots_of g = B \/
  exists partition image, boots_of g = partition :: B /\ announced req image /\
    on_partition partition image (ota_trace (gw_ota g)).

Lemma announced_log req B (g : gateway) e :
  quiet e -> only_announced req B g -> only_announced req B (g <| gw_trace := e :: gw_trace g |>).
Proof. by intros _ Hg. Qed.

Lemma boots_log B (g : gateway) e : quiet e -> boots_of g = B -> boots_of (g <| gw_trace := e :: gw_trace g |>) = B.
Proof. by intros _ Hg. Qed.

(** The session is the one of the request. *)
Definition session_of (req : http_request) (s : gateway_ota_session) : Prop :=
  exists sha256, sha_header req = Some sha256 /\ hex_decode_32 (Some sha256) = Some (expected_hash s) /\
    expected_size s = content_len req /\ allow_reinstall s = header_is_true req (str "X-Firmware-Allow-Reinstall") /\
    allow_downgrade s = header_is_true req (str "X-Firmware-Allow-Downgrade").

Lemma session_same req s s' : request_of s' = request_of s -> session_of req s -> session_of req s'.
Proof. unfold session_of. intros [= _ -> -> -> ->]. done. Qed.

Lemma installed_announced req s B (g : gateway) :
  session_of req s -> installed oenv s B (gw_ota g) -> only_announced req B g.
Proof.
  intros (sha & Hsha & Hdec & Hsize & Hre & Hdown) (Hb & Hl & Hh & Hw & Ho & _ & Ha & _). right.
  exists (os_partition s), (hash_op s). split; [exact Hb|]. split.
  - split; [congruence|exists sha; by rewrite Hh|by rewrite <- Hre, <- Hdown].
  - exists (ota_handle s). by rewrite Hl.
Qed.

#[local] Hint Resolve blind_refuse blind_allocated blind_send_json blind_ask blind_log announced_log boots_log : state.

Lemma ota_problem_announced req B err : keeps (only_announced req B) (ota_problem env err).
Proof. unfold ota_problem. repeat case_bool_decide; apply blind_refuse, announced_log. Qed.

Lemma reboot_announced req B reason : keeps (only_announced req B) (create_reboot_task env reason).
Proof. unfold create_reboot_task. apply keeps_bind; [apply blind_ask, announced_log|]. intros created. apply keeps_when. intros _. by apply blind_log; [apply announced_log|]. Qed.

Lemma finish_announced req s B :
  session_of req s ->
  triple (uploading B s) (finish_upload env (Some s)) (fun _ => only_announced req B).
Proof.
  intros Hs. unfold finish_upload.
  assert (hash_ok (expected_hash s)) as Hh by (destruct Hs as (? & _ & Hd & _); by eapply hex_decode_ok).
  eapply triple_bind; [exact (triple_on_ota _ _ _ (finish_spec oenv sha256_bytes s B Hh))|]. intros [err|result].
  - eapply triple_weaken; [apply (ota_problem_announced req B)|by intros g [_ HB]; left|by intros].
  - eapply (triple_weaken (only_announced req B)); [|intros g Hg; by eapply installed_announced|by intros ? ? Hg; exact Hg].
    apply keeps_bind; [auto with state|]. intros created. destruct (negb created); [apply keeps_ret|].
    apply keeps_bind; [auto with state|]. intros err. apply keeps_bind; [|intros _; apply keeps_ret].
    apply keeps_when. intros _. apply reboot_announced.
Qed.

Lemma abort_boots B session : keeps (fun g : gateway => boots_of g = B) (on_ota (gateway_ota_abort session)).
Proof.
  intros g HB. unfold on_ota, zoom, boots_of in *.
  pose proof (quiet_abort (ota_trace (gw_ota g)) session (gw_ota g) (quiet_refl _)) as Hq.
  destruct (gateway_ota_abort _ _) as [o x]. cbn [fst snd] in *. destruct (quiet_reads _ _ 0 Hq) as (_ & _ & E).
  cbn. by rewrite E.
Qed.

Lemma problem_boots req B err : triple (fun g : gateway => boots_of g = B) (ota_problem env err) (fun _ => only_announced req B).
Proof. eapply triple_weaken; [apply (ota_problem_announced req B)|by intros g HB; left|by intros]. Qed.

Lemma upload_announced req s B :
  session_of req s -> triple (uploading B s) (upload_image env req s) (fun _ => only_announced req B).
Proof.
  intros Hs. unfold upload_image.
  eapply triple_bind; [apply (blind_allocated env (uploading B s)); by intros|]. intros ok. destruct (negb ok).
  - eapply (triple_bind _ _ (fun _ g => boots_of g = B)); [eapply triple_weaken; [apply (abort_boots B)|by intros g [HB _]|by intros]|].
    intros []. eapply triple_weaken; [apply (blind_refuse env (fun g => boots_of g = B)), boots_log|done|by intros ? ? ?; left].
  - eapply triple_bind; [apply receive_spec|]. intros [[session err]|]; [|by apply triple_ret; intros g [HB _]; left].
    case_bool_decide as He.
    + eapply (triple_bind _ _ (fun _ g => boots_of g = B)); [eapply triple_weaken; [apply (abort_boots B)|by intros g [HB _]|by intros]|].
      intros []. apply problem_boots.
    + intros g [HB Hr]. destruct (Hr He) as (s' & -> & Hu & Hrq). by apply (finish_announced req s' B (session_same _ _ _ Hrq Hs)).
Qed.

Lemma limited_boots B (g : gateway) l : boots_of g = B ->
  boots_of (g <| gw_request_limiter := l |>) = B /\ boots_of (g <| gw_sms_limiter := l |>) = B.
Proof. by intros Hg. Qed.

Lemma post_announced req B : triple (fun g => boots_of g = B) (firmware_post_handler env req) (fun _ => only_announced req B).
Proof.
  unfold firmware_post_handler.
  apply triple_admitted; [by intros; apply boots_log|by intros; apply limited_boots|by intros g HB; left|].
  assert (forall status type title, triple (fun g => boots_of g = B) (refuse env status type title) (fun _ => only_announced req B))
    as Hrefuse by (intros; eapply triple_weaken; [apply (blind_refuse env (fun g => boots_of g = B)), boots_log|done|by intros ? ? ?; left]).
  apply (triple_bind _ _ (fun _ g => boots_of g = B)).
  { unfold limited. apply keeps_bind; [apply (blind_ask (fun g => boots_of g = B)), boots_log|]. intros now g HB. unfold zoom.
    by destruct (gateway_rate_limiter_allow _ _ _). }
  intros ok. destruct (negb ok); [apply Hrefuse|]. destruct (content_len req =? 0)%nat; [apply Hrefuse|].
  destruct (negb _); [apply Hrefuse|]. destruct (sha_header req) as [sha256|] eqn:Esha; [|apply Hrefuse].
  eapply triple_bind; [exact (triple_on_ota _ _ _ (begin_spec oenv prefix_required (ota_request req sha256) true B))|].
  intros [err|s].
  - eapply triple_weaken; [apply (problem_boots req B)|by intros g [HB _]|by intros].
  - intros g [HB (Hu & _ & Hsize & Hdec & Hre & Hdown)].
    apply (upload_announced req s B); [|by split]. exists sha256. by split_and!.
Qed.

(** C28. A firmware upload chooses no other partition for the next boot than one
    that holds, completely written, an image of the announced length with the
    announced SHA-256, whose description the version policy accepts with the
    request's permissions; in every other case - a broken connection, a full or
    failing flash, a wrong hash, a rejected version, another upload - the boot
    partition stays as it was. *)
Theorem installed_image_announced req (g : gateway) :
  only_announced req (boots_of g) (firmware_post_handler env req g).1.
Proof. by apply post_announced. Qed.

End Upload.

(** An upload with its digest is installed, and one with another digest is
    not. *)
Lemma installed_image_announced_witness :
  boots_of (firmware_post_handler sample_api (sample_upload (sample_digest sample_image)) sample_gateway).1
    = [mk_partition (str "ota_1") 4096] /\
  boots_of (firmware_post_handler sample_api (sample_upload (zeros 32)) sample_gateway).1 = [] /\
  only_announced sample_api (sample_upload (sample_digest sample_image)) []
    (firmware_post_handler sample_api (sample_upload (sample_digest sample_image)) sample_gateway).1.
Proof.
  split; [vm_compute; reflexivity|]. split; [vm_compute; reflexivity|].
  apply (installed_image_announced sample_api sample_digest_bytes ltac:(vm_compute; lia)
    (sample_upload (sample_digest sample_image)) sample_gateway).
Defined.

(** After an upload that fails. *)
Lemma upload_ends_witness :
  slot_of false (firmware_post_handler sample_api (sample_upload (zeros 32)) sample_gateway).1 /\
  upload_attempts (ota_diag (gw_ota (firmware_post_handler sample_api (sample_upload (zeros 32)) sample_gateway).1)) = 1.
Proof.
  split; [|vm_compute; reflexivity].
  exact (proj1 (upload_ends sample_api (sample_upload (zeros 32)) sample_gateway (conj eq_refl eq_refl))).
Defined.
