(* ===== verification/ApiStatus.v ===== *)
(** * The status page of the HTTP interface (components/api_server/api_server.c)

    A report of the diagnostics of all components.  What is not part of the
    state of the interface comes from a [status_environment]: the diagnostics
    as they are at the moment of the request. *)

From Stdlib Require Import Ascii String.
From Stdlib Require Import ZifyBool ZifyNat.
From stdpp Require Import base numbers list strings gmap.
From S2P Require Import Prelude.
From S2P Require Import StateMonad.
From S2P Require Import AtEngine.
From S2P Require Import Nvs.
From S2P Require Import SmsStore.
From S2P Require Import GatewayDiag.
From S2P Require Import NetworkService.
From S2P Require Import ApiIdempotency.
From S2P Require Import SmsService.
From S2P Require Import ModemStatus.
From S2P Require Import ModemManager.
From S2P Require Import UsbTransport.
From S2P Require Import ModemCore.
From S2P Require Import Http.
From S2P Require Import OtaService.
From S2P Require Import ApiServer.
From S2P Require Import MqttService.
From S2P Require Import ApiServerFacts.
From S2P Require Import ApiConfig.

Open Scope Z_scope.

(** [st_usb], [st_network], [st_power] and [st_mqtt]: the answers of the
    functions with their names, [None] for an error; [st_power] is
    over-current, latch, events and cutoffs; [st_heap] the free, the largest
    and the lowest free size. *)
Record status_report (D : Type) := mk_status_report {
  st_version : list Z;
  st_time_us : Z;
  st_diag : diag D;
  st_network : option network_service_snapshot_t;
  st_heap : Z * Z * Z;
  st_core_state : modem_state_t;
  st_usb : option modem_usb_diagnostics_t;
  st_power : option (bool * bool * Z * Z);
  st_mqtt : option mqtt_service_diagnostics_t;
}.

Arguments mk_status_report {D}.
Arguments st_version {D}.
Arguments st_time_us {D}.
Arguments st_diag {D}.
Arguments st_network {D}.
Arguments st_heap {D}.
Arguments st_core_state {D}.
Arguments st_usb {D}.
Arguments st_power {D}.
Arguments st_mqtt {D}.

(** [esp_err_to_name], and the report behind the answers so far. *)
Record status_environment (D : Type) := mk_status_env {
  senv_err_name : esp_err_t -> list Z;
  senv_report : list api_effect -> status_report D;
}.

Arguments mk_status_env {D}.
Arguments senv_err_name {D}.
Arguments senv_report {D}.

Definition safe_mode_number (mode : gateway_safe_mode_t) : Z :=
  match mode with
  | GATEWAY_SAFE_MODE_OFF => 0
  | GATEWAY_SAFE_MODE_NO_MODEM => 1
  | GATEWAY_SAFE_MODE_NO_MODEM_NO_DISPLAY => 2
  end.

Definition at_result_number (result : at_result_t) : Z :=
  match result with
  | AT_RESULT_OK => 0
  | AT_RESULT_ERROR => 1
  | AT_RESULT_CME_ERROR => 2
  | AT_RESULT_CMS_ERROR => 3
  | AT_RESULT_TIMEOUT => 4
  | AT_RESULT_CANCELED => 5
  | AT_RESULT_TRANSPORT_UNAVAILABLE => 6
  | AT_RESULT_TRANSPORT_ERROR => 7
  | AT_RESULT_RX_OVERFLOW => 8
  | AT_RESULT_PROTOCOL_ERROR => 9
  end.

Definition usb_diag_zero : modem_usb_diagnostics_t :=
  mk_usb_diag false false false 0 0 0 0 0 0 0 0 0 0 0 0 0 0 0 0 ESP_OK.

Definition sms_zero : sms_service_diagnostics_t :=
  mk_service_diag false false false (fun _ => 0) 0 ESP_OK None AT_RESULT_OK 0.

Definition sms_store_zero : sms_store_diagnostics_t := mk_store_diag 0 0 0 false 0 0.

Definition gateway_json {D} (r : status_report D) : json :=
  let network := default NetworkService.snapshot_zero (st_network r) in
  let '(last_crash, crash_fresh) := gateway_diag_last_crash (st_diag r) in
  let '(free, largest_block, minimum_free) := st_heap r in
  JObject
    [(str "version", json_text (st_version r));
     (str "uptime_seconds", JInt (st_time_us r ÷ 1000000));
     (str "reset_reason", json_text (gateway_diag_reset_reason (st_diag r)));
     (str "consecutive_crashes", JInt (gateway_diag_crash_count (st_diag r)));
     (str "safe_mode", JInt (safe_mode_number (gateway_diag_safe_mode (st_diag r))));
     (str "last_crash", json_or_null last_crash);
     (str "last_crash_ended_previous_boot", JBool crash_fresh);
     (str "restart_cause", json_or_null (default [] (gateway_diag_restart_cause (st_diag r))));
     (str "device_id", json_text (ns_device_id network));
     (str "ipv4", json_text (ns_ipv4 network));
     (str "wifi_connected", JBool (ns_connected network));
     (str "time_synced", JBool (ns_time_synced network));
     (str "heap", JObject [(str "free", JInt free); (str "largest_block", JInt largest_block);
                           (str "minimum_free", JInt minimum_free)])].

Definition modem_json {D} (r : status_report D) (modem : modem_manager_snapshot_t) : json :=
  let usb := default usb_diag_zero (st_usb r) in
  JObject (
    [(str "state", JString (modem_core_state_name (st_core_state r)));
     (str "registered", JBool (sn_registered modem));
     (str "roaming", JBool (sn_roaming modem));
     (str "sim", JString (modem_sim_state_name (sn_sim modem)));
     (str "model", json_or_null (sn_model modem));
     (str "revision", json_or_null (sn_revision modem));
     (str "operator", json_or_null (op_name (sn_operator_info modem)));
     (str "rssi_dbm", if rssi (sn_signal modem) =? 99 then JNull else JInt (rssi_dbm (sn_signal modem)));
     (str "usb_reconnects", JInt (ud_disconnect_count usb));
     (str "usb_mode_switch_attempts", JInt (ud_mode_switch_attempts usb));
     (str "usb_mode_switch_successes", JInt (ud_mode_switch_successes usb));
     (str "usb_mode_switch_failures", JInt (ud_mode_switch_failures usb))]
    ++ match st_power r with
       | Some (overcurrent, cutoff_latched, overcurrent_events, power_cutoffs) =>
           [(str "usb_overcurrent", JBool overcurrent);
            (str "usb_power_cutoff_latched", JBool cutoff_latched);
            (str "usb_overcurrent_events", JInt overcurrent_events);
            (str "usb_power_cutoffs", JInt power_cutoffs)]
       | None => []
       end
    ++ [(str "recovery_count", JInt (sn_recovery_attempts modem));
        (str "last_recovery_action", JString (recovery_action_name (sn_last_recovery_action modem)))]).

Definition sms_json (err_name : esp_err_t -> list Z) (sms : sms_service_diagnostics_t) (store : sms_store_diagnostics_t) : json :=
  JObject
    [(str "outbound_queued", JInt (sd_counts sms C_outbound_queued));
     (str "inbound_messages", JInt (sd_counts sms C_inbound_messages));
     (str "delivery_reports", JInt (sd_counts sms C_delivery_reports));
     (str "uncertain", JInt (sd_counts sms C_outbound_uncertain));
     (str "store_used", JInt (d_used_records store));
     (str "store_free", JInt (d_free_records store));
     (str "store_pruned", JInt (d_pruned_records store));
     (str "store_capacity_failures", JInt (d_capacity_failures store));
     (str "modem_ready", JBool (sd_modem_ready sms));
     (str "pdu_mode_configured", JBool (sd_pdu_mode_configured sms));
     (str "setup_attempts", JInt (sd_counts sms C_setup_attempts));
     (str "inbox_scans", JInt (sd_counts sms C_inbox_scans));
     (str "inbox_scan_failures", JInt (sd_counts sms C_inbox_scan_failures));
     (str "setup_failed",
       match sd_setup_failed_command sms with
       | Some command =>
           JObject [(str "command", json_text command); (str "result", JInt (at_result_number (sd_setup_failed_result sms)));
                    (str "code", JInt (sd_setup_failed_code sms))]
       | None => JNull
       end);
     (str "last_cms_error", JInt (sd_last_cms_error sms));
     (str "last_error", json_text (err_name (sd_last_error sms)))].

Definition ota_json (ota : esp_err_t + gateway_ota_diagnostics_t) : json :=
  match ota with
  | inl _ => JObject []
  | inr ota =>
      JObject
        [(str "pending_verify", JBool (pending_verify ota));
         (str "confirmation_scheduled", JBool (confirmation_scheduled ota));
         (str "update_in_progress", JBool (update_in_progress ota));
         (str "upload_attempts", JInt (upload_attempts ota));
         (str "upload_successes", JInt (upload_successes ota));
         (str "upload_rejections", JInt (upload_rejections ota));
         (str "upload_failures", JInt (upload_failures ota));
         (str "last_error", JInt (esp_err_code (ota_last_error ota)))]
  end.

Definition mqtt_json (mqtt : option mqtt_service_diagnostics_t) : json :=
  match mqtt with
  | Some mqtt =>
      JObject
        [(str "enabled", JBool (md_enabled mqtt));
         (str "connected", JBool (md_connected mqtt));
         (str "connects", JInt (md_connects mqtt));
         (str "disconnects", JInt (md_disconnects mqtt));
         (str "events_dropped", JInt (md_events_dropped mqtt));
         (str "replay_cursor", JInt (md_replay_cursor mqtt));
         (str "replay_inflight_message_id", JInt (md_replay_inflight_message_id mqtt));
         (str "last_error", JInt (md_last_mqtt_error mqtt))]
  | None => JObject [(str "enabled", JBool false); (str "connected", JBool false)]
  end.

Definition idempotency_json (idem : esp_err_t + gateway_idempotency_diagnostics_t * esp_err_t) : list (list Z * json) :=
  match idem with
  | inr (idem, ESP_OK) =>
      [(str "idempotency", JObject [(str "pending", JInt (pending_records idem)); (str "finalized", JInt (finalized_records idem));
                                    (str "free", JInt (free_records idem))])]
  | _ => []
  end.

Section Status.

Context {N : Type} `{Nvs N} {D : Type}.

Abbreviation gateway := (gateway N).
Abbreviation M := (State gateway).

Variable env : api_environment N.
Variable senv : status_environment D.

Definition status_handler (req : http_request) : M esp_err_t :=
  admitted env req false (
    modem ← on_manager (modem_manager_get_snapshot true);
    sms ← gets (fun g => sms_service_get_diagnostics (gw_sms g));
    r ← api_ask (senv_report senv);
    taken ← api_ask (aenv_taken env);
    idem ← gets (fun g => gateway_idempotency_get_diagnostics taken (gw_idempotency g));
    ota ← on_ota (gateway_ota_get_diagnostics (aenv_ota env) true);
    let modem := match modem with inr modem => modem | inl _ => ModemManager.snapshot_zero end in
    let '(sms, store) := match sms with inr (sms, store) => (sms, default sms_store_zero store) | inl _ => (sms_zero, sms_store_zero) end in
    send_json env 200 (JObject (
      [(str "gateway", gateway_json r); (str "modem", modem_json r modem); (str "sms", sms_json (senv_err_name senv) sms store)]
      ++ idempotency_json idem ++ [(str "ota", ota_json ota); (str "mqtt", mqtt_json (st_mqtt r))]))).

(** ** It only reports *)

(** Everything but the limiters, the trace and the figures of the updates. *)
Definition unchanged (g g' : gateway) : Prop :=
  gw_security g' = gw_security g /\ gw_idempotency g' = gw_idempotency g /\ gw_settings g' = gw_settings g /\
  gw_sms g' = gw_sms g /\ gw_manager g' = gw_manager g /\
  ota_lock (gw_ota g') = ota_lock (gw_ota g) /\ ota_initialized (gw_ota g') = ota_initialized (gw_ota g).

Lemma ota_reports lock initialized :
  keeps (fun o => ota_lock o = lock /\ ota_initialized o = initialized) (gateway_ota_get_diagnostics (aenv_ota env) true).
Proof.
  set (P := fun o : ota => _).
  assert (forall A (answer : list ota_effect -> A), keeps P (ask answer)) as Ha by (intros A answer o Ho; exact Ho).
  assert (forall f, keeps P (on_diag f)) as Hd by (intros f o Ho; exact Ho).
  unfold gateway_ota_get_diagnostics, refresh_partition_diagnostics_locked. keeps_tac.
Qed.

Lemma status_unchanged req g : keeps (unchanged g) (status_handler req).
Proof.
  assert (forall g0 e, quiet e -> unchanged g g0 -> unchanged g (g0 <| gw_trace := e :: gw_trace g0 |>)) as Hlog by done.
  assert (keeps (unchanged g) (on_manager (modem_manager_get_snapshot true))) as Hm.
  { apply (triple_zoom _ _ _ (fun m => m = gw_manager g) (fun _ m => m = gw_manager g)).
    - unfold modem_manager_get_snapshot, snapshot_copy. keeps_tac.
    - intros g' Hg. apply Hg.
    - intros g' x m (? & ? & ? & ? & _ & ? & ?) ->. by split_and!. }
  assert (keeps (unchanged g) (on_ota (gateway_ota_get_diagnostics (aenv_ota env) true))) as Ho.
  { apply (triple_zoom _ _ _ _ _ _ _ (ota_reports (ota_lock (gw_ota g)) (ota_initialized (gw_ota g)))).
    - intros g' Hg. apply Hg.
    - intros g' x t (? & ? & ? & ? & ? & _) [? ?]. split_and!; done. }
  apply blind_admitted; [done|done|].
  pose proof (fun A => blind_ask (unchanged g) Hlog (A := A)) as Ha.
  pose proof (blind_send_json env (unchanged g) Hlog) as Hs.
  keeps_tac. cbv zeta. repeat case_match; apply Hs.
Qed.

(** The status page changes nothing but the limiters and the figures that are
    refreshed when they are read: messages, settings, token, journal and
    modem stay as they are, and no update begins or ends. *)
Theorem status_only_reports req g : unchanged g (status_handler req g).1.
Proof. apply (status_unchanged req g g). by split_and!. Qed.

End Status.

