(* ===== verification/ApiRoutes.v ===== *)
(** * The HTTP interface: the routes and who may use them (components/api_server/api_server.c) *)

From Stdlib Require Import Ascii String.
From Stdlib Require Import ZifyBool ZifyNat.
From stdpp Require Import base numbers list strings gmap.
From S2P Require Import Prelude.
From S2P Require Import StateMonad.
From S2P Require Import SmsMessage.
From S2P Require Import Nvs.
From S2P Require Import SmsStore.
From S2P Require Import SmsStoreFacts.
From S2P Require Import GatewaySecurity.
From S2P Require Import GatewaySecurityFacts.
From S2P Require Import ApiIdempotency.
From S2P Require Import ApiIdempotencyFacts.
From S2P Require Import SmsService.
From S2P Require Import SmsServiceFacts.
From S2P Require Import SmsServiceSample.
From S2P Require Import ModemManager.
From S2P Require Import ModemManagerRun.
From S2P Require Import RateLimiter.
From S2P Require Import Http.
From S2P Require Import MqttConfig.
From S2P Require Import OtaService.
From S2P Require Import OtaServiceFacts.
From S2P Require Import ApiServer.
From S2P Require Import ApiSample.
From S2P Require Import ApiServerFacts.
From S2P Require Import ApiConfig.
From S2P Require Import ApiFirmware.
From S2P Require Import ApiFirmwareFacts.
From S2P Require Import GatewayDiag.
From S2P Require Import ModemCore.
From S2P Require Import ApiStatus.

Open Scope Z_scope.

Section Routes.

Context {N : Type} `{NvsLaws N} {D : Type}.

Abbreviation gateway := (gateway N).
Abbreviation M := (State gateway).

Variable env : api_environment N.
Variable senv : status_environment D.

Definition health_handler (req : http_request) : M esp_err_t :=
  send_json env 200 (JObject [(str "status", JString (str "ok"))]).

(** What is registered. *)
Definition routes : list (string * http_method * (http_request -> M esp_err_t)) :=
  [("/api/v1/health", HTTP_GET, health_handler);
   ("/api/v1/status", HTTP_GET, status_handler env senv);
   ("/api/v1/messages", HTTP_GET, messages_get_handler env);
   ("/api/v1/messages", HTTP_POST, messages_post_handler env);
   ("/api/v1/messages/*", HTTP_GET, message_item_handler env);
   ("/api/v1/messages/*", HTTP_DELETE, message_item_handler env);
   ("/api/v1/messages/*", HTTP_POST, message_item_handler env);
   ("/api/v1/config/mqtt", HTTP_GET, mqtt_config_get_handler env);
   ("/api/v1/config/mqtt", HTTP_PATCH, mqtt_config_patch_handler env);
   ("/api/v1/modem/sim-pin", HTTP_POST, sim_pin_handler env);
   ("/api/v1/modem/restart", HTTP_POST, modem_restart_handler env);
   ("/api/v1/modem/at", HTTP_POST, modem_at_handler env);
   ("/api/v1/system/idempotency/clear-pending", HTTP_POST, idempotency_clear_pending_handler env);
   ("/api/v1/system/firmware", HTTP_GET, firmware_get_handler env);
   ("/api/v1/system/firmware", HTTP_POST, firmware_post_handler env);
   ("/api/v1/system/reboot", HTTP_POST, reboot_handler env)]%string.

(** [server]: [s_server] is not NULL; [start]: what [httpd_start] answers. *)
Definition api_server_init (server : bool) (start : esp_err_t) (now1 now2 now3 : Z) (g : gateway)
  : gateway * bool * esp_err_t :=
  if server then (g, server, ESP_ERR_INVALID_STATE)
  else
    let g := g <| gw_request_limiter := request_limiter now1 |> <| gw_sms_limiter := sms_limiter now2 |>
               <| gw_ota_limiter := ota_limiter now3 |> in
    (g, bool_decide (start = ESP_OK), start).

(** [s_server] behind [api_server_stop], and [api_server_running]. *)
Definition api_server_stop (server : bool) : bool := false.
Definition api_server_running (server : bool) : bool := server.

(** ** Who may use it *)

Hypothesis psa_bytes : forall data out, aenv_psa env data = Some out -> bytes out.

(** The request carries the token whose digest is stored. *)
Definition presents_token (req : http_request) (g : gateway) : Prop :=
  exists header token, header_of req (str "Authorization") 8 API_AUTH_MAX = Some header /\
    c_str header = bearer_prefix ++ token /\ bears (aenv_psa env) (token_hash (gw_security g)) token.

(** What a client without it causes. *)
Definition refusal (e : api_effect) : Prop :=
  match e with
  | AE_asked => True
  | AE_header name _ => name = str "WWW-Authenticate"
  | AE_reply (Problem status _ _) _ => status = 401
  | _ => False
  end.

(** From [g], the interface only refused the request. *)
Definition refused (g g' : gateway) : Prop :=
  exists effects, g' = g <| gw_trace := effects ++ gw_trace g |> /\ Forall refusal effects.

Lemma refused_refl g : refused g g.
Proof. exists []. split; [by destruct g|constructor]. Qed.

Lemma refused_log g g' e : refusal e -> refused g g' -> refused g (g' <| gw_trace := e :: gw_trace g' |>).
Proof. intros He (effects & -> & Hf). exists (e :: effects). split; [done|by constructor]. Qed.

Lemma refused_problem g type title : keeps (refused g) (refuse env 401 type title).
Proof.
  assert (keeps (refused g) (allocated env)) as Ha by (intros g' Hg; by apply refused_log).
  unfold refuse, problem. apply keeps_bind; [exact Ha|]. intros [|]; [|apply keeps_ret]. cbn [negb].
  apply keeps_bind; [exact Ha|]. intros [|]; [|apply keeps_ret]. intros g' Hg. by apply refused_log.
Qed.

Lemma bearer_valid_spec header (g : gateway) :
  hash_ok (token_hash (gw_security g)) -> bearer_valid env header (gw_security g) = true ->
  exists token, c_str header = bearer_prefix ++ token /\ bears (aenv_psa env) (token_hash (gw_security g)) token.
Proof.
  intros Hh [Hp Hv]%andb_true_iff. rewrite bool_decide_eq_true in Hp.
  exists (drop (length bearer_prefix) (c_str header)). split; [by rewrite <- Hp at 1; rewrite take_drop|].
  destruct (sec_initialized (gw_security g)) eqn:Hi; [by apply validate_spec|].
  unfold gateway_security_validate_bearer in Hv. by rewrite Hi in Hv.
Qed.

Lemma admitted_refused req sms h (g : gateway) :
  hash_ok (token_hash (gw_security g)) -> ~ presents_token req g ->
  refused g (admitted env req sms h g).1 /\ (admitted env req sms h g).2 = ESP_OK.
Proof.
  intros Hh Hno. unfold admitted, authorized, gets.
  assert (match header_of req (str "Authorization") 8 API_AUTH_MAX with
     | Some header => bearer_valid env header (gw_security g) | None => false end = false) as Hinv.
  { destruct (header_of _ _ _ _) as [header|] eqn:E; [|done]. apply not_true_iff_false. intros Hv. apply Hno.
    destruct (bearer_valid_spec header g Hh Hv) as (token & Ht & Hb). by exists header, token. }
  unfold mbind, state_bind. rewrite Hinv. unfold set_header, api_log, modify.
  pose proof (refused_problem g "urn:sms-gateway:unauthorized" "Unauthorized" _
    (refused_log g g (AE_header (str "WWW-Authenticate") (str "Bearer")) eq_refl (refused_refl g))) as Hr.
  destruct (refuse env 401 _ _ _) as [g' err]. by split.
Qed.


End Routes.

(** With the token a reboot is scheduled, and with another one nothing is. *)
Definition sample_reboot (token : list Z) : http_request :=
  sample_http HTTP_POST "/api/v1/system/reboot" [(str "Authorization", str "Bearer " ++ token)] [] 1.

Definition sample_status : status_environment unit :=
  mk_status_env (fun _ => str "ESP_OK") (fun _ => mk_status_report (str "1.0.0") 61000000
    (mk_diag 0 0 ESP_RST_POWERON 0 GATEWAY_SAFE_MODE_OFF [] false [] false tt None) None (100000, 50000, 40000) MODEM_STATE_READY
    None None None).

